(* ===== verification/_CoqProject ===== *)
-Q . S2P
Prelude.v
Text.v
Time.v
Domain.v
Sql.v
Exec.v
Tools.v
Retention.v
Backup.v
Restore.v
Verify.v
Mask.v
Plan.v
Job.v
Step.v
Pipeline.v
Ops.v
MaskRun.v
Definer.v
BackupMysql.v
Cron.v
CronScan.v
PipelineRun.v
Schedule.v
Scheduler.v
ScheduledRun.v
Disk.v
MongoMask.v
MongoQuery.v
MongoSafe.v
Substring.v
S3Xml.v
Paging.v
S3Sign.v
S3Client.v
S3Protocol.v
BackupPostgres.v
BackupMongo.v
Library.v
Destination.v
Vault.v
Offsite.v
Checking.v
Introspect.v
Digests.v
Drill.v
Sync.v
Crypto.v
Feed.v
RestoreMysql.v
RestorePostgres.v
RestoreMongo.v
Ssh.v
Database.v
Rows.v
Connections.v
Consistency.v
Adoption.v
HostKeys.v
AuditLog.v
Share.v
Bundles.v
BundleTrip.v
RoundTrip.v
History.v
Desktop.v
Secrecy.v
Trail.v
Shell.v
Settings.v
Resident.v
Install.v
Panel.v
Browse.v
Notify.v
Running.v
Headless.v
Terminal.v
Manual.v
Console.v
