(* ===== verification/Prelude.v ===== *)
(** * DBSync Studio: a verification development

    DBSync Studio backs databases up, restores them, masks what must not leave
    production, copies artifacts off-site and does all of it unattended.  Its
    engine is the Rust crate src/engine; a desktop application and a command
    line are built on it.  This library models the engine and what the two
    add to it, and proves what makes the parts correct.

    ** How to read it

    A definition carries the name of what it translates.  A Rust [struct] is a
    [Record], an [enum] an [Inductive], a function a [Definition] or a [Fixpoint];
    [Result] is [result] with the bind [let?].  A [String] is its bytes; integers
    are [Z], with the wrap-around written out where the code can reach it
    ([Cron.fill], [Retention]); an instant is a number of nanoseconds; a [HashMap]
    or a table of the store is a [gmap].  Code that waits for the outside world is
    a computation over a state: a handler's whole effect is in what it returns and
    in the trace or tables it leaves.  Where two parts can interleave, every point
    at which the code waits is a step of a relation ([Scheduler], [Pipeline],
    [Database]).

    What is not in the repository - chrono's calendar, the hash and encryption
    crates, serde's JSON, the network, processes, SQLite's file - is a parameter
    or a type class, with what the code relies on stated as the class's laws or
    as hypotheses, and with an instance or a witness that meets them.

    ** The files

    Groundwork: Prelude (results, tactics, sorting), Text and Substring (strings
    of Rust's standard library), Time (calendars, zones, instants), Domain (the
    shared data of types.rs, profile.rs, job.rs, manifest.rs), Sql (quoting and
    statements, db.rs), Exec and Tools (commands and client programs, exec.rs and
    tools.rs), Disk (files and paths).

    Requests and rules: Backup, Restore, Verify, Mask, Plan, Retention, Definer,
    Cron with CronScan - backup/mod.rs, restore/mod.rs, verify.rs, mask/mod.rs,
    plan.rs, retention.rs, definer.rs, cron.rs.

    One run: Job and Step (events, the log, recorded steps: job.rs, events.rs,
    step.rs), Crypto (the artifact's file: crypto.rs), BackupMysql,
    BackupPostgres, BackupMongo (backup/*.rs), Feed with RestoreMysql,
    RestorePostgres, RestoreMongo (restore/*.rs).

    Masking MongoDB: MongoMask (the updates and checks of mask/mongo.rs), MongoQuery
    (what they mean over documents, and a store in memory), MongoSafe (their theorems).

    Operations, all of ops.rs: Ops (their errors and the computations they are
    written in), MaskRun, PipelineRun, Offsite, Checking, Drill, Sync.  Each calls
    the others through the classes [Ops.Operations], [Checking.Engines] and the
    like, so that a theorem about a run holds for any implementation of its steps.

    Databases, db.rs: Introspect (the three introspectors over drivers that are a
    parameter), Digests (what a digest compares).

    What is kept: Pipeline (pipeline.rs), Schedule (schedule.rs), Destination
    (destination.rs), Library (library.rs, manifest.rs), Vault (secrets.rs,
    settings.rs, backupkey.rs), Settings (preferences, settings.rs and store.rs),
    Ssh (the data of sshconn.rs), Database (the tables of store.rs and programs made
    of its statements), Rows (the rows those tables are written in), Connections
    (profiles, SSH connections and plans in store.rs, sshconn.rs), Consistency and
    Adoption (their invariant, and the upgrade of old configurations), HostKeys
    (ssh.rs, connect.rs), AuditLog and History (audit.rs, the job history and the log
    of store.rs), Paging (pages of a changing list).

    Sharing a configuration, share.rs: Share, with Bundles, BundleTrip and RoundTrip
    for what an import adds and an export carries.

    Unattended: Scheduler (the loop, claims and marks) and ScheduledRun (what a
    run does), both of scheduler.rs; Notify (what is reported, notify.rs).

    The desktop application: Desktop, Panel, Browse and Running (commands.rs: saved
    things and secrets; pipelines, schedules and previews; servers and the library;
    starting and cancelling jobs), Resident (lib.rs and tray.rs: the process, its window and its settings),
    Install (cli_tool.rs), Shell (the line for a crontab), with Secrecy and Trail for where
    secrets go and what the log tells.

    The command line, engine-cli/src/main.rs: Headless (a backup, a restore, a
    pipeline, a drill), Terminal (configuration, destinations, keys, masking), Manual
    (schedules by hand), Console (listings and the daemon).

    Object stores, s3/*.rs: S3Xml, S3Sign, S3Client, with
    S3Protocol for the client against the protocol as a server reads it.

    ** What is shown

    Safety of data: masking ends proven, dropped or loudly reported (MaskRun);
    retention never removes the newest artifact, on disk or at a destination
    (Retention, Library, Offsite); a drill drops only what it restored (Drill); a
    restore asks for the typed name and starts no client before its checks
    (Restore, RestoreMysql, RestoreMongo); a scheduled backup removes nothing
    before its copies arrived (ScheduledRun).

    Authority: a pipeline that runs unattended drops only names that were typed
    (Pipeline, PipelineRun); nothing is encrypted before its key was exported
    (Vault), except that a failed export counts (Settings); each authority given is in
    the log or its failed entry among the process's errors (Panel); a restore from the command line drops what was typed (Headless);
    passwords stay out of command lines (BackupMysql) and secrets in the keychain
    (Secrecy).

    Fidelity: what a backup wrote is what a client is given (Crypto, RestoreMysql,
    RestorePostgres); a listing sees every object and an upload in parts
    sends every byte (S3Protocol); the signed text determines the request (S3Sign); the
    filter of dumps removes clauses only outside literals (Definer); recorded
    steps tell what happened (Step); a sync is the pipeline of its steps (Sync); what
    the store wrote it reads back (Rows); how far the preview of masking is what runs (Panel);
    a digest is of the documents, whatever their order (Digests).

    Time: one run per schedule, and an occurrence once where no claim was stale
    and no mark lost (Scheduler); the scan
    finds the first matching minute (CronScan).

    Configuration: under any interleaving of the store's statements every
    reference resolves (Consistency), an upgrade keeps every route (Adoption), and a
    bundle carries a configuration to another machine whole (RoundTrip).

    Life: every job that was started ends (Running), where its
    start could be recorded; the application has one loop of the scheduler at most,
    and closing its window ends it under no setting (Resident).

    Failures of the code that modelling showed are theorems too: each is a closed
    run of the model that ends where the code's comments say it must not.

    ** Fuel and bounds

    Loops that are not structural take fuel, and the amount is proved to be
    enough where a theorem depends on it: [Definer.strip_loop_fuel] (the length of
    the line), [Cron.fill_fuel] (the values a counter can
    take), the days of [MAX_SCAN_DAYS] which are the code's
    own bound, the pages of a listing, the suffixes of [Ssh.unique_name].

    ** Not modelled

    The SSH protocol and port forwarding (russh), database drivers (sqlx, the
    mongodb crate) beyond the statements sent to them and the answers relied on,
    SQLite's own failures (a full disk, a lock), the argument parser of the command
    line and its JSON output, the toolkit of the desktop application beyond the events
    it sends, its TypeScript, and the SQL of the migrations: they are libraries the
    source calls, or text it hands to them.  What the platform says of its directories
    (paths.rs) is a parameter where it is used.  PROJECT.json lists each part with its
    reason. *)

From Stdlib Require Import ZArith Lia Ascii String List Bool Sorted Permutation.
From Stdlib Require Import DecimalString.
From stdpp Require Import base list strings.
Import ListNotations.

#[global] Open Scope Z_scope.
#[global] Open Scope list_scope.

(** ** Results

    Rust's [Result<A, E>], with a [?]-style bind. *)

Inductive result (A E : Type) : Type :=
| Ok (a : A)
| Err (e : E).
Arguments Ok {A E} a.
Arguments Err {A E} e.

Definition rbind {A B E} (r : result A E) (k : A -> result B E) : result B E :=
  match r with Ok a => k a | Err e => Err e end.

(** [ok_or]: an absent value becomes the given error. *)
Definition ok_or {A E} (o : option A) (e : E) : result A E :=
  match o with Some a => Ok a | None => Err e end.

(** [map_err]. *)
Definition map_err {A E F} (r : result A E) (f : E -> F) : result A F :=
  match r with Ok a => Ok a | Err e => Err (f e) end.

Definition is_ok {A E} (r : result A E) : bool :=
  match r with Ok _ => true | Err _ => false end.

Declare Scope dbsync_scope.
Delimit Scope dbsync_scope with dbsync.
Notation "'let?' x ':=' e 'in' k" := (rbind e (fun x => k))
  (at level 10, x pattern, e at level 200, k at level 200) : dbsync_scope.
#[global] Open Scope dbsync_scope.

Create HintDb dbsync.

Lemma rbind_Ok {A B E} (r : result A E) (k : A -> result B E) b :
  rbind r k = Ok b <-> exists a, r = Ok a /\ k a = Ok b.
Proof. destruct r; simpl; naive_solver. Qed.

Lemma rbind_Err {A B E} (r : result A E) (k : A -> result B E) e :
  rbind r k = Err e <-> r = Err e \/ exists a, r = Ok a /\ k a = Err e.
Proof. destruct r; simpl; naive_solver. Qed.

Lemma ok_or_Ok {A E} (o : option A) (e : E) a : ok_or o e = Ok a <-> o = Some a.
Proof. destruct o; simpl; naive_solver. Qed.

Lemma map_err_Ok {A E F} (r : result A E) (f : E -> F) a : map_err r f = Ok a <-> r = Ok a.
Proof. destruct r; simpl; naive_solver. Qed.

Lemma is_ok_true {A E} (r : result A E) : is_ok r = true <-> exists a, r = Ok a.
Proof. destruct r; simpl; naive_solver. Qed.

Definition is_some {A} (o : option A) : bool := match o with Some _ => true | None => false end.

(** *** Early returns *)

(** An early return: [if test { return Err(e) }]. *)
Definition guard {E} (test : bool) (e : E) : result unit E :=
  if test then Err e else Ok tt.

(** [if let Some(x) = found { return Err(f(x)) }]. *)
Definition guard_some {A E} (found : option A) (f : A -> E) : result unit E :=
  match found with Some a => Err (f a) | None => Ok tt end.

Lemma is_some_false {A} (o : option A) : is_some o = false <-> o = None.
Proof. by destruct o. Qed.

Lemma guard_Ok {E} test (e : E) : guard test e = Ok tt <-> test = false.
Proof. unfold guard. case_match; naive_solver. Qed.

Lemma guard_some_Ok {A E} (o : option A) (f : A -> E) : guard_some o f = Ok tt <-> o = None.
Proof. destruct o; simpl; naive_solver. Qed.

Lemma unit_bind {E} (r : result unit E) (k : unit -> result unit E) :
  rbind r k = Ok tt <-> r = Ok tt /\ k tt = Ok tt.
Proof. destruct r as [[]|e]; simpl; naive_solver. Qed.

Lemma find_None {A} (f : A -> bool) l :
  List.find f l = None <-> Forall (fun a => f a = false) l.
Proof.
  induction l as [|a l IH]; simpl; [by split|]. rewrite Forall_cons.
  destruct (f a); [split; [done|by intros [? _]]|]. rewrite IH. naive_solver.
Qed.

Create Rewrite HintDb guards.
#[export] Hint Rewrite @guard_Ok @guard_some_Ok @unit_bind @find_None : guards.

(** ** Tactics *)

(** Split the conjunctions, existentials and successful binds of the context. *)
Ltac inv_ok :=
  repeat match goal with
    | H : rbind _ _ = Ok _ |- _ => apply rbind_Ok in H; destruct H as (? & ? & H)
    | H : ok_or _ _ = Ok _ |- _ => apply ok_or_Ok in H
    | H : map_err _ _ = Ok _ |- _ => apply map_err_Ok in H
    | H : Ok _ = Ok _ |- _ => injection H; clear H; intros; try subst
    | H : Err _ = Err _ |- _ => injection H; clear H; intros; try subst
    | H : Ok _ = Err _ |- _ => discriminate H
    | H : Err _ = Ok _ |- _ => discriminate H
    | H : Some _ = None |- _ => discriminate H
    | H : None = Some _ |- _ => discriminate H
    | H : Some _ = Some _ |- _ => injection H; clear H; intros; try subst
    end.

(** Values of type [unit] are [tt]. *)
Ltac units := repeat match goal with u : unit |- _ => destruct u end.

(** Case on every test the goal or a hypothesis is stuck on. *)
Ltac cases :=
  repeat (case_match; simplify_eq/=; try done).

(** Turn boolean hypotheses into propositions. *)
Ltac bools :=
  repeat match goal with
    | H : _ && _ = true |- _ => apply andb_true_iff in H; destruct H
    | H : _ || _ = false |- _ => apply orb_false_iff in H; destruct H
    | H : negb _ = true |- _ => apply negb_true_iff in H
    | H : negb _ = false |- _ => apply negb_false_iff in H
    | H : (_ =? _)%Z = true |- _ => apply Z.eqb_eq in H
    | H : (_ =? _)%Z = false |- _ => apply Z.eqb_neq in H
    | H : (_ <=? _)%Z = true |- _ => apply Z.leb_le in H
    | H : (_ <=? _)%Z = false |- _ => apply Z.leb_gt in H
    | H : (_ <? _)%Z = true |- _ => apply Z.ltb_lt in H
    | H : (_ <? _)%Z = false |- _ => apply Z.ltb_ge in H
    | H : String.eqb _ _ = true |- _ => apply String.eqb_eq in H
    | H : String.eqb _ _ = false |- _ => apply String.eqb_neq in H
    end.

(** Linear arithmetic with division and remainder by constants. *)
Ltac divlia := Z.to_euclidean_division_equations; lia.

(** ** Lists *)

Section Lists.
Context {A : Type}.

(** Rust's stable sort by a descending integer key: insertion after the
    elements of the same key keeps the input order of equal keys. *)
Fixpoint insert_desc (key : A -> Z) (x : A) (l : list A) : list A :=
  match l with
  | [] => [x]
  | y :: l' => if key y <? key x then x :: l else y :: insert_desc key x l'
  end.

Fixpoint sort_desc_onto (key : A -> Z) (l acc : list A) : list A :=
  match l with
  | [] => acc
  | x :: l' => sort_desc_onto key l' (insert_desc key x acc)
  end.

Definition sort_desc (key : A -> Z) (l : list A) : list A := sort_desc_onto key l [].

Definition desc (key : A -> Z) : list A -> Prop :=
  StronglySorted (fun a b => key b <= key a).

Lemma insert_desc_perm key x l : Permutation (insert_desc key x l) (x :: l).
Proof.
  induction l as [|y l IH]; simpl; [done|].
  case_match; [done|]. rewrite IH. apply perm_swap.
Qed.

Lemma insert_desc_sorted key x l : desc key l -> desc key (insert_desc key x l).
Proof.
  unfold desc. induction 1 as [|y l Hl IH Hy]; simpl; [by repeat constructor|].
  case_match; bools.
  - constructor; [by constructor|]. constructor; [lia|].
    eapply Forall_impl; [exact Hy|]. simpl. lia.
  - constructor; [done|]. rewrite (insert_desc_perm key x l).
    constructor; [lia|done].
Qed.

Lemma sort_desc_onto_perm key l : forall acc,
  Permutation (sort_desc_onto key l acc) (l ++ acc).
Proof.
  induction l as [|x l IH]; intros acc; simpl; [done|].
  rewrite IH, insert_desc_perm. symmetry. apply Permutation_middle.
Qed.

Lemma sort_desc_onto_sorted key l : forall acc,
  desc key acc -> desc key (sort_desc_onto key l acc).
Proof.
  induction l as [|x l IH]; intros acc Hacc; simpl; [done|].
  by apply IH, insert_desc_sorted.
Qed.

Lemma sort_desc_perm key l : Permutation (sort_desc key l) l.
Proof. unfold sort_desc. by rewrite sort_desc_onto_perm, app_nil_r. Qed.

Lemma sort_desc_sorted key l : desc key (sort_desc key l).
Proof. apply sort_desc_onto_sorted. constructor. Qed.

Lemma filter_none (f : A -> bool) l :
  Forall (fun a => f a = false) l -> List.filter f l = [].
Proof. induction 1 as [|a l Ha Hl IH]; simpl; [done|]. by rewrite Ha. Qed.

(** Stability: elements of one key keep their input order. *)
Lemma insert_desc_filter key k x l :
  desc key l ->
  List.filter (fun a => key a =? k) (insert_desc key x l) =
  List.filter (fun a => key a =? k) l ++ List.filter (fun a => key a =? k) [x].
Proof.
  induction 1 as [|y l Hl IH Hy]; simpl; [done|].
  destruct (key y <? key x) eqn:Hlt; simpl; bools.
  - destruct (key x =? k) eqn:Hx; [|by rewrite app_nil_r]. bools.
    rewrite (proj2 (Z.eqb_neq _ _)) by lia.
    rewrite filter_none; [done|].
    eapply Forall_impl; [exact Hy|]. intros z Hz. apply Z.eqb_neq. simpl in Hz. lia.
  - simpl in IH. rewrite IH. by destruct (key y =? k).
Qed.

Lemma sort_desc_onto_filter key k l : forall acc,
  desc key acc ->
  List.filter (fun a => key a =? k) (sort_desc_onto key l acc) =
  List.filter (fun a => key a =? k) acc ++ List.filter (fun a => key a =? k) l.
Proof.
  induction l as [|x l IH]; intros acc Hacc; simpl; [by rewrite app_nil_r|].
  rewrite IH by (by apply insert_desc_sorted).
  rewrite insert_desc_filter by done. rewrite <- app_assoc. simpl.
  by destruct (key x =? k).
Qed.

Lemma sort_desc_stable key k l :
  List.filter (fun a => key a =? k) (sort_desc key l) =
  List.filter (fun a => key a =? k) l.
Proof. unfold sort_desc. rewrite sort_desc_onto_filter; [done|constructor]. Qed.

Lemma desc_nth key l i j a b :
  desc key l -> l !! i = Some a -> l !! j = Some b -> (i <= j)%nat -> key b <= key a.
Proof.
  intros Hs. revert i j. induction Hs as [|x l Hs IH Hx]; intros i j Ha Hb Hij.
  - by rewrite lookup_nil in Ha.
  - destruct i as [|i], j as [|j]; simplify_eq/=; try lia.
    + apply list_elem_of_lookup_2 in Hb. rewrite Forall_forall in Hx. by apply Hx.
    + eapply IH; eauto. lia.
Qed.
End Lists.

(** Rust's stable [sort_by]: an element goes before the first one it may precede. *)
Section SortBy.
Context {A : Type} (leb : A -> A -> bool).

Fixpoint insert_by (x : A) (l : list A) : list A :=
  match l with
  | [] => [x]
  | y :: l' => if leb x y then x :: l else y :: insert_by x l'
  end.

Definition sort_by (l : list A) : list A := foldr insert_by [] l.

Lemma insert_by_perm x l : Permutation (insert_by x l) (x :: l).
Proof.
  induction l as [|y l IH]; simpl; [done|].
  case_match; [done|]. rewrite IH. apply perm_swap.
Qed.

Lemma sort_by_perm l : Permutation (sort_by l) l.
Proof. induction l as [|x l IH]; simpl; [done|]. by rewrite insert_by_perm, IH. Qed.

Lemma sort_by_in x l : In x (sort_by l) <-> In x l.
Proof. split; apply Permutation_in; [|symmetry]; apply sort_by_perm. Qed.

Lemma insert_by_sorted x l :
  (forall a b, leb a b = true \/ leb b a = true) ->
  Sorted (fun a b => leb a b = true) l -> Sorted (fun a b => leb a b = true) (insert_by x l).
Proof.
  intros Htot. induction 1 as [|y l Hl IH Hy]; simpl; [by repeat constructor|].
  destruct (leb x y) eqn:E; [by repeat constructor|].
  constructor; [done|]. destruct (Htot x y) as [?|Hyx]; [congruence|].
  destruct l as [|z l]; simpl in *; [by constructor|].
  destruct (leb x z); constructor; [done|]. by inversion Hy.
Qed.

Lemma sort_by_sorted l :
  (forall a b, leb a b = true \/ leb b a = true) ->
  Sorted (fun a b => leb a b = true) (sort_by l).
Proof. intros Htot. induction l as [|x l IH]; simpl; [constructor|]. by apply insert_by_sorted. Qed.

Lemma sort_by_length l : length (sort_by l) = length l.
Proof. apply Permutation_length, sort_by_perm. Qed.

(** Sorting forgets the order of a list whose elements the order tells apart. *)
Lemma sorted_unique l : forall l',
  (forall a b c, leb a b = true -> leb b c = true -> leb a c = true) ->
  (forall a b, In a l -> In b l -> leb a b = true -> leb b a = true -> a = b) ->
  Sorted (fun a b => leb a b = true) l -> Sorted (fun a b => leb a b = true) l' ->
  Permutation l l' -> l = l'.
Proof.
  induction l as [|x l IH]; intros l' Htr Han Hl Hl' P; [by apply Permutation_nil in P|].
  destruct l' as [|y l']; [by symmetry in P; apply Permutation_nil in P|].
  apply Sorted_StronglySorted in Hl, Hl'; [|intros ???; apply Htr..].
  inversion Hl as [|?? Hsl Hx]; inversion Hl' as [|?? Hsl' Hy]; subst.
  rewrite List.Forall_forall in Hx, Hy.
  assert (x = y) as ->.
  { assert (In x (y :: l')) as [->|Hix] by (eapply Permutation_in; [exact P|by left]); [done|].
    assert (In y (x :: l)) as [->|Hiy] by (eapply Permutation_in; [by symmetry|by left]); [done|].
    apply Han; [by left|by right|by apply Hx|by apply Hy]. }
  f_equal. apply IH; [done| |by apply StronglySorted_Sorted..|by apply Permutation_cons_inv in P].
  intros a b Ha Hb. apply Han; by right.
Qed.

Lemma sort_by_unique l l' :
  (forall a b, leb a b = true \/ leb b a = true) ->
  (forall a b c, leb a b = true -> leb b c = true -> leb a c = true) ->
  (forall a b, In a l -> In b l -> leb a b = true -> leb b a = true -> a = b) ->
  Permutation l l' -> sort_by l = sort_by l'.
Proof.
  intros Htot Htr Han P. apply sorted_unique; [done| |by apply sort_by_sorted..|by rewrite !sort_by_perm].
  intros a b Ha Hb. by apply Han; apply sort_by_in.
Qed.
End SortBy.

(** Sum of machine integers kept at width [w]: Rust's [sum] in a release build. *)
Definition wrap (w x : Z) : Z := x mod 2 ^ w.
