(* ===== verification/Text.v ===== *)
(** * Text: the string operations of Rust's standard library the engine uses

    A Rust [&str] is a sequence of UTF-8 bytes, so it is a [string] here and a
    byte is an [ascii].  [trim] and [split_whitespace] use the Unicode
    White_Space characters, which are recognised by their UTF-8 encodings;
    [to_ascii_lowercase] and [eq_ignore_ascii_case] touch ASCII letters only;
    [parse::<u32>] accepts an optional leading [+] and at least one digit. *)

From Stdlib Require Import ZArith Lia Ascii String List Bool.
From Stdlib Require Import DecimalString DecimalNat DecimalN DecimalPos.
From stdpp Require Import base list gmap strings.
From S2P Require Import Prelude.
Import ListNotations.

Open Scope string_scope.
#[global] Arguments String.append : simpl nomatch.
Open Scope Z_scope.

Definition code (c : ascii) : Z := Z.of_N (N_of_ascii c).
Definition chr (n : Z) : ascii := ascii_of_N (Z.to_N n).

Definition in_range (lo hi x : Z) : bool := (lo <=? x) && (x <=? hi).

Definition is_digit (c : ascii) : bool := in_range 48 57 (code c).
Definition is_upper (c : ascii) : bool := in_range 65 90 (code c).
Definition is_lower (c : ascii) : bool := in_range 97 122 (code c).
Definition is_alpha (c : ascii) : bool := is_upper c || is_lower c.
Definition is_alnum (c : ascii) : bool := is_alpha c || is_digit c.
Definition is_ascii (c : ascii) : bool := code c <? 128.
(** A continuation byte of a UTF-8 sequence: not a character boundary. *)
Definition is_cont (c : ascii) : bool := in_range 128 191 (code c).

Definition lower (c : ascii) : ascii := if is_upper c then chr (code c + 32) else c.

(** [{:x}] of a number below sixteen. *)
Definition hex_digit (n : Z) : ascii := chr (if n <? 10 then 48 + n else 87 + n).

(** [char::to_digit(16)]. *)
Definition hex_value (c : ascii) : option Z :=
  let x := code c in
  if in_range 48 57 x then Some (x - 48)
  else if in_range 97 102 x then Some (x - 87)
  else if in_range 65 70 x then Some (x - 55) else None.

Fixpoint to_lower (s : string) : string :=
  match s with EmptyString => "" | String c r => String (lower c) (to_lower r) end.

(** [str::eq_ignore_ascii_case]. *)
Definition eq_ignore_case (s t : string) : bool := String.eqb (to_lower s) (to_lower t).

Fixpoint all_chars (f : ascii -> bool) (s : string) : bool :=
  match s with EmptyString => true | String c r => f c && all_chars f r end.

Fixpoint contains_char (c : ascii) (s : string) : bool :=
  match s with EmptyString => false | String d r => Ascii.eqb c d || contains_char c r end.

(** ** White space *)

(** U+0009..U+000D and U+0020. *)
Definition ws1 (a : ascii) : bool := in_range 9 13 (code a) || (code a =? 32).
(** U+0085 and U+00A0. *)
Definition ws2 (a b : ascii) : bool := (code a =? 194) && ((code b =? 133) || (code b =? 160)).
(** U+1680, U+2000..U+200A, U+2028, U+2029, U+202F, U+205F and U+3000. *)
Definition ws3 (a b c : ascii) : bool :=
  let x := code c in
  ((code a =? 225) && (code b =? 154) && (x =? 128))
  || ((code a =? 226) && (code b =? 128)
      && (in_range 128 138 x || in_range 168 169 x || (x =? 175)))
  || ((code a =? 226) && (code b =? 129) && (x =? 159))
  || ((code a =? 227) && (code b =? 128) && (x =? 128)).

Fixpoint all_ws (s : string) : bool :=
  match s with
  | EmptyString => true
  | String a r =>
      if ws1 a then all_ws r else
      match r with
      | String b r2 =>
          if ws2 a b then all_ws r2 else
          match r2 with String c r3 => if ws3 a b c then all_ws r3 else false | _ => false end
      | _ => false
      end
  end.

Fixpoint trim_start (s : string) : string :=
  match s with
  | EmptyString => ""
  | String a r =>
      if ws1 a then trim_start r else
      match r with
      | String b r2 =>
          if ws2 a b then trim_start r2 else
          match r2 with String c r3 => if ws3 a b c then trim_start r3 else s | _ => s end
      | _ => s
      end
  end.

Fixpoint trim_end (s : string) : string :=
  match s with
  | EmptyString => ""
  | String a r => if all_ws s then "" else String a (trim_end r)
  end.

(** [str::trim]. *)
Definition trim (s : string) : string := trim_end (trim_start s).

(** Close the current token, if it holds anything. *)
Definition flush (cur : string) (rest : list string) : list string :=
  if String.eqb cur "" then rest else cur :: rest.

Fixpoint split_ws_onto (cur s : string) : list string :=
  match s with
  | EmptyString => flush cur []
  | String a r =>
      let skip := split_ws_onto (cur ++ String a "") r in
      if ws1 a then flush cur (split_ws_onto "" r) else
      match r with
      | String b r2 =>
          if ws2 a b then flush cur (split_ws_onto "" r2) else
          match r2 with
          | String c r3 => if ws3 a b c then flush cur (split_ws_onto "" r3) else skip
          | _ => skip
          end
      | _ => skip
      end
  end.

(** [str::split_whitespace]. *)
Definition split_whitespace (s : string) : list string := split_ws_onto "" s.

(** ** Splitting and joining *)

(** [str::split(c)]: never empty. *)
Fixpoint split_on (sep : ascii) (s : string) : list string :=
  match s with
  | EmptyString => [""]
  | String c r =>
      if Ascii.eqb c sep then "" :: split_on sep r else
      match split_on sep r with
      | t :: ts => String c t :: ts
      | [] => [String c ""]
      end
  end.

(** [str::split_once(c)]. *)
Fixpoint split_once (sep : ascii) (s : string) : option (string * string) :=
  match s with
  | EmptyString => None
  | String c r =>
      if Ascii.eqb c sep then Some ("", r) else
      match split_once sep r with
      | Some (a, b) => Some (String c a, b)
      | None => None
      end
  end.

Fixpoint strip_prefix (p s : string) : option string :=
  match p, s with
  | EmptyString, _ => Some s
  | String a p', String b s' => if Ascii.eqb a b then strip_prefix p' s' else None
  | String _ _, EmptyString => None
  end.

Definition starts_with (p s : string) : bool :=
  match strip_prefix p s with Some _ => true | None => false end.

(** [str::trim_start_matches(c)] and [str::trim_end_matches(c)]. *)
Fixpoint trim_start_matches (c : ascii) (s : string) : string :=
  match s with
  | EmptyString => ""
  | String d r => if Ascii.eqb d c then trim_start_matches c r else s
  end.

Fixpoint trim_end_matches (c : ascii) (s : string) : string :=
  match s with
  | EmptyString => ""
  | String d r =>
      match trim_end_matches c r with
      | EmptyString => if Ascii.eqb d c then "" else String d ""
      | r' => String d r'
      end
  end.

(** [[T]::join(sep)]. *)
Fixpoint join (sep : string) (l : list string) : string :=
  match l with
  | [] => ""
  | [x] => x
  | x :: l' => x ++ sep ++ join sep l'
  end.

(** [str::replace] of one character. *)
Fixpoint replace_char (c : ascii) (by_ : string) (s : string) : string :=
  match s with
  | EmptyString => ""
  | String d r => if Ascii.eqb d c then by_ ++ replace_char c by_ r else String d (replace_char c by_ r)
  end.

(** A double quote. *)
Definition dquote : ascii := "034".

(** Drop one trailing carriage return. *)
Fixpoint strip_cr (s : string) : string :=
  match s with
  | EmptyString => ""
  | String c EmptyString => if Ascii.eqb c "013" then "" else s
  | String c r => String c (strip_cr r)
  end.

Definition newline : ascii := "010".

(** Pieces ended by a newline; a last piece without one counts when it is not empty. *)
Fixpoint drop_last_empty (l : list string) : list string :=
  match l with
  | [] => []
  | [x] => if String.eqb x "" then [] else [x]
  | x :: l' => x :: drop_last_empty l'
  end.

(** [str::lines]: a trailing [\r] belongs to the line ending only when the
    [\n] is there. *)
Fixpoint strip_cr_but_last (l : list string) : list string :=
  match l with
  | [] => []
  | [x] => [x]
  | x :: l' => strip_cr x :: strip_cr_but_last l'
  end.

Definition lines (s : string) : list string :=
  drop_last_empty (strip_cr_but_last (split_on newline s)).

(** ** Numbers *)

Definition u32_max : Z := 2 ^ 32 - 1.

Fixpoint digits_onto (acc : Z) (s : string) : option Z :=
  match s with
  | EmptyString => Some acc
  | String c r => if is_digit c then digits_onto (acc * 10 + (code c - 48)) r else None
  end.

(** A non-empty run of digits. *)
Definition parse_digits (s : string) : option Z :=
  match s with EmptyString => None | _ => digits_onto 0 s end.

(** [str::parse] at an unsigned type whose greatest value is [max]. *)
Definition parse_uint (max : Z) (s : string) : option Z :=
  let body := match s with String c r => if Ascii.eqb c "+" then r else s | _ => s end in
  match parse_digits body with
  | Some v => if v <=? max then Some v else None
  | None => None
  end.

Definition parse_u32 (s : string) : option Z := parse_uint u32_max s.

(** [{}] of an unsigned integer. *)
Definition show_N (n : N) : string := NilZero.string_of_uint (N.to_uint n).
Definition show (n : Z) : string := show_N (Z.to_N n).

(** [{:0w}]: zero padded to [w] digits. *)
Fixpoint zeros (n : nat) : string :=
  match n with O => "" | S n' => String "0" (zeros n') end.
Definition show_pad (w : nat) (n : Z) : string :=
  let s := show n in zeros (w - String.length s) ++ s.

(** ** Lemmas *)

Lemma code_range c : 0 <= code c < 256.
Proof. unfold code. destruct c as [[] [] [] [] [] [] [] []]; vm_compute; split; congruence. Qed.

Lemma append_nil_r (s : string) : s ++ "" = s.
Proof. induction s as [|c s IH]; simpl; [done|]. by rewrite IH. Qed.

Lemma append_assoc' (s t u : string) : (s ++ t) ++ u = s ++ (t ++ u).
Proof. induction s as [|c s IH]; simpl; [done|]. by rewrite IH. Qed.

Lemma append_inj_l (s t u : string) : s ++ t = s ++ u -> t = u.
Proof. induction s as [|c s IH]; simpl; [done|]. intros [= H]. by apply IH. Qed.

Lemma lower_idem c : lower (lower c) = lower c.
Proof. destruct c as [[] [] [] [] [] [] [] []]; reflexivity. Qed.

Lemma to_lower_idem s : to_lower (to_lower s) = to_lower s.
Proof. induction s as [|c s IH]; simpl; [done|]. by rewrite lower_idem, IH. Qed.

Lemma strip_prefix_Some p s r : strip_prefix p s = Some r <-> s = p ++ r.
Proof.
  revert s. induction p as [|a p IH]; intros s; simpl; [naive_solver|].
  destruct s as [|b s]; [naive_solver|].
  destruct (Ascii.eqb_spec a b) as [->|Hne]; [rewrite IH; naive_solver|naive_solver].
Qed.

Lemma split_on_nonempty sep s : split_on sep s <> [].
Proof. destruct s as [|c s]; simpl; [done|]. by repeat case_match. Qed.

(** Joining what [split_on] cut gives the string back. *)
Lemma join_split_on sep s : join (String sep "") (split_on sep s) = s.
Proof.
  induction s as [|c s IH]; simpl; [done|].
  destruct (Ascii.eqb_spec c sep) as [->|Hne].
  - destruct (split_on sep s) eqn:E; [by apply split_on_nonempty in E|].
    change (String sep (join (String sep "") (s0 :: l)) = String sep s). by rewrite IH.
  - destruct (split_on sep s) as [|t ts] eqn:E; [by apply split_on_nonempty in E|].
    rewrite <- IH. by destruct ts.
Qed.

(** ... and cutting what was joined gives the pieces back, if none holds the
    separator. *)
Lemma split_on_no_sep sep s : contains_char sep s = false -> split_on sep s = [s].
Proof.
  induction s as [|c s IH]; simpl; [done|]. intros H%orb_false_iff. destruct H as [Hc Hs].
  rewrite Ascii.eqb_sym, Hc, IH by done. done.
Qed.

Lemma split_on_app sep s t :
  contains_char sep s = false -> split_on sep (s ++ String sep t) = s :: split_on sep t.
Proof.
  induction s as [|c s IH]; simpl; intros H.
  - by rewrite Ascii.eqb_refl.
  - apply orb_false_iff in H as [Hc Hs]. by rewrite Ascii.eqb_sym, Hc, IH.
Qed.

Lemma split_on_join sep l :
  l <> [] -> Forall (fun s => contains_char sep s = false) l ->
  split_on sep (join (String sep "") l) = l.
Proof.
  intros Hne Hl. induction Hl as [|s l Hs Hl IH]; [done|].
  destruct l as [|t l]; [by apply split_on_no_sep|].
  change (split_on sep (s ++ String sep (join (String sep "") (t :: l))) = s :: t :: l).
  rewrite split_on_app by done. by rewrite IH.
Qed.

Lemma split_once_Some sep s a b : split_once sep s = Some (a, b) -> s = a ++ String sep b.
Proof.
  revert a. induction s as [|c s IH]; intros a; simpl; [done|].
  destruct (Ascii.eqb_spec c sep) as [->|Hne]; [naive_solver|].
  destruct (split_once sep s) as [[x y]|]; [|done]. intros [= <- <-]. simpl. by rewrite IH with x.
Qed.

Lemma digits_onto_nonneg acc s v : 0 <= acc -> digits_onto acc s = Some v -> 0 <= v.
Proof.
  revert acc. induction s as [|c s IH]; intros acc Hacc; simpl; [naive_solver|].
  destruct (is_digit c) eqn:Hd; [|done]. unfold is_digit, in_range in Hd. bools.
  apply IH. lia.
Qed.

Lemma parse_uint_range max s v : parse_uint max s = Some v -> 0 <= v <= max.
Proof.
  unfold parse_uint, parse_digits. intros H. repeat case_match; simplify_eq; bools;
    (split; [eapply digits_onto_nonneg; [|eassumption]; lia|lia]).
Qed.

(** ** Trimming *)

(** Does a white-space character start here? *)
Definition ws_head (s : string) : bool :=
  match s with
  | String a r =>
      ws1 a
      || match r with
         | String b r2 => ws2 a b || match r2 with String c _ => ws3 a b c | _ => false end
         | _ => false
         end
  | EmptyString => false
  end.

Lemma string_len_ind (P : string -> Prop) :
  (forall s, (forall t, (String.length t < String.length s)%nat -> P t) -> P s) -> forall s, P s.
Proof.
  intros H s. assert (forall n t, (String.length t <= n)%nat -> P t) as Hn; [|by eapply Hn].
  induction n as [|n IH]; intros t Ht; apply H; intros u Hu; [lia|]. apply IH. lia.
Qed.

Lemma trim_start_noop s : ws_head s = false -> trim_start s = s.
Proof. destruct s as [|a [|b [|c s]]]; simpl; intros H; repeat case_match; bools; done. Qed.

Lemma trim_start_head s : ws_head (trim_start s) = false.
Proof.
  induction s as [s IH] using string_len_ind.
  destruct s as [|a r]; [done|]. cbn [trim_start].
  destruct (ws1 a) eqn:Ha; [apply IH; simpl; lia|].
  destruct r as [|b r2]; [simpl; by rewrite Ha|].
  destruct (ws2 a b) eqn:Hb; [apply IH; simpl; lia|].
  destruct r2 as [|c r3]; [simpl; by rewrite Ha, Hb|].
  destruct (ws3 a b c) eqn:Hc; [apply IH; simpl; lia|].
  simpl. by rewrite Ha, Hb, Hc.
Qed.

Lemma all_ws_app s t : all_ws s = true -> all_ws t = true -> all_ws (s ++ t) = true.
Proof.
  induction s as [s IH] using string_len_ind. intros Hs Ht.
  destruct s as [|a r]; [done|]. simpl in Hs |- *.
  destruct (ws1 a); [apply IH; simpl; auto; lia|].
  destruct r as [|b r2]; [done|]. simpl in Hs |- *.
  destruct (ws2 a b); [apply IH; simpl; auto; lia|].
  destruct r2 as [|c r3]; [done|]. simpl in Hs |- *.
  destruct (ws3 a b c); [apply IH; simpl; auto; lia|done].
Qed.

Lemma trim_end_split s : exists w, s = trim_end s ++ w /\ all_ws w = true.
Proof.
  induction s as [|a r (w & Hr & Hw)]; [by exists ""|]. cbn [trim_end].
  destruct (all_ws (String a r)) eqn:E; [by exists (String a r)|].
  exists w. simpl. by rewrite <- Hr.
Qed.

Lemma trim_end_idem s : trim_end (trim_end s) = trim_end s.
Proof.
  induction s as [|a r IH]; [done|]. cbn [trim_end].
  destruct (all_ws (String a r)) eqn:E; [done|]. cbn [trim_end]. rewrite IH.
  destruct (all_ws (String a (trim_end r))) eqn:E2; [|done].
  destruct (trim_end_split r) as (w & Hr & Hw).
  pose proof (all_ws_app _ _ E2 Hw) as H.
  change (all_ws (String a (trim_end r ++ w)) = true) in H. rewrite <- Hr in H. congruence.
Qed.

Lemma ws_head_app s t : ws_head s = true -> ws_head (s ++ t) = true.
Proof. destruct s as [|a [|b [|c s]]]; simpl; rewrite ?orb_true_iff; naive_solver. Qed.

Lemma ws_head_trim_end s : ws_head s = false -> ws_head (trim_end s) = false.
Proof.
  intros H. destruct (trim_end_split s) as (w & Hs & _).
  destruct (ws_head (trim_end s)) eqn:E; [|done]. apply ws_head_app with (t := w) in E.
  rewrite <- Hs in E. congruence.
Qed.

Lemma trim_idem s : trim (trim s) = trim s.
Proof.
  unfold trim. rewrite (trim_start_noop (trim_end _)); [apply trim_end_idem|].
  apply ws_head_trim_end, trim_start_head.
Qed.

(** ** Byte order *)

(** Rust compares strings by their bytes. *)
Lemma ascii_compare_trans a b c r :
  Ascii.compare a b = r -> Ascii.compare b c = r -> Ascii.compare a c = r.
Proof.
  unfold Ascii.compare. destruct r; rewrite ?N.compare_eq_iff, ?N.compare_lt_iff, ?N.compare_gt_iff; intros; lia.
Qed.

Lemma string_leb_cons a s b t :
  String.leb (String a s) (String b t)
  = match Ascii.compare a b with Eq => String.leb s t | Lt => true | Gt => false end.
Proof. unfold String.leb. simpl. by destruct (Ascii.compare a b). Qed.

Lemma string_leb_trans s t u : String.leb s t = true -> String.leb t u = true -> String.leb s u = true.
Proof.
  revert t u. induction s as [|a s IH]; intros [|b t] [|c u]; try done.
  rewrite !string_leb_cons.
  destruct (Ascii.compare a b) eqn:E1; [apply Ascii.compare_eq_iff in E1 as ->| |done].
  - destruct (Ascii.compare b c); [apply IH|done..].
  - intros _. destruct (Ascii.compare b c) eqn:E2; [apply Ascii.compare_eq_iff in E2 as ->; by rewrite E1| |done].
    by rewrite (ascii_compare_trans _ _ _ Lt E1 E2).
Qed.

Definition sort_strings (l : list string) : list string := sort_by String.leb l.

(** A [BTreeMap]'s entries, in key order. *)
Definition entries {A} (m : gmap string A) : list (string * A) :=
  sort_by (fun a b => String.leb a.1 b.1) (map_to_list m).

Lemma entries_spec {A} (m : gmap string A) k v : In (k, v) (entries m) <-> m !! k = Some v.
Proof. unfold entries. rewrite sort_by_in, <- list_elem_of_In. apply elem_of_map_to_list. Qed.

Lemma entries_keys_NoDup {A} (m : gmap string A) : NoDup (map fst (entries m)).
Proof.
  unfold entries. rewrite sort_by_perm. apply NoDup_fst_map_to_list.
Qed.

(** *** [{}] and [parse] of an unsigned integer are inverse *)

Lemma digits_onto_pos d : forall p,
  digits_onto (Z.pos p) (NilEmpty.string_of_uint d) = Some (Z.pos (Pos.of_uint_acc d p)).
Proof.
  induction d as [|d IH|d IH|d IH|d IH|d IH|d IH|d IH|d IH|d IH|d IH]; intros p;
    [done|..]; cbn [NilEmpty.string_of_uint digits_onto Pos.of_uint_acc];
    (match goal with |- context [is_digit ?c] => change (is_digit c) with true end);
    cbv iota; rewrite <- IH; f_equal; unfold code; simpl; lia.
Qed.

Lemma digits_onto_zero d :
  digits_onto 0 (NilEmpty.string_of_uint d) = Some (Z.of_N (Pos.of_uint d)).
Proof.
  induction d as [|d IH|d IH|d IH|d IH|d IH|d IH|d IH|d IH|d IH|d IH]; [done|..];
    cbn [NilEmpty.string_of_uint digits_onto Pos.of_uint];
    (match goal with |- context [is_digit ?c] => change (is_digit c) with true end);
    cbv iota; [exact IH|exact (digits_onto_pos d _)..].
Qed.

Lemma show_digits_uint d : all_chars is_digit (NilEmpty.string_of_uint d) = true.
Proof. induction d; simpl; done. Qed.

Lemma to_uint_not_nil n : N.to_uint n <> Decimal.Nil.
Proof.
  intros E. destruct n as [|p]; [done|].
  pose proof (DecimalPos.Unsigned.of_to p) as H. simpl in E. rewrite E in H. done.
Qed.

Lemma show_uint n : show n = NilEmpty.string_of_uint (N.to_uint (Z.to_N n)).
Proof.
  unfold show, show_N, NilZero.string_of_uint.
  pose proof (to_uint_not_nil (Z.to_N n)). by destruct (N.to_uint (Z.to_N n)).
Qed.

Lemma show_all_digits n : all_chars is_digit (show n) = true.
Proof. rewrite show_uint. apply show_digits_uint. Qed.

Lemma show_head n : exists c r, show n = String c r /\ is_digit c = true.
Proof.
  pose proof (show_all_digits n) as H. rewrite show_uint in *.
  pose proof (to_uint_not_nil (Z.to_N n)).
  destruct (N.to_uint (Z.to_N n)); [done|..]; simpl; eauto.
Qed.

(** A number written with [{}] is read back by [parse]. *)
Lemma parse_uint_show max n : 0 <= n <= max -> parse_uint max (show n) = Some n.
Proof.
  intros Hn. unfold parse_uint. destruct (show_head n) as (c & r & E & Hc). rewrite E.
  assert (Ascii.eqb c "+" = false) as ->.
  { destruct (Ascii.eqb_spec c "+") as [->|]; [discriminate Hc|done]. }
  rewrite <- E, show_uint. unfold parse_digits.
  pose proof (to_uint_not_nil (Z.to_N n)).
  assert (NilEmpty.string_of_uint (N.to_uint (Z.to_N n)) <> "") as Hne
    by (by destruct (N.to_uint (Z.to_N n))).
  pose proof (digits_onto_zero (N.to_uint (Z.to_N n))) as Hd.
  change (Z.of_N (Pos.of_uint (N.to_uint (Z.to_N n)))) with (Z.of_N (N.of_uint (N.to_uint (Z.to_N n)))) in Hd.
  rewrite DecimalN.Unsigned.of_to, Z2N.id in Hd by lia.
  destruct (NilEmpty.string_of_uint _); [done|]. rewrite Hd.
  by rewrite (proj2 (Z.leb_le n max)) by lia.
Qed.

Lemma show_inj a b : 0 <= a -> 0 <= b -> show a = show b -> a = b.
Proof.
  intros Ha Hb E.
  pose proof (parse_uint_show (Z.max a b) a ltac:(lia)) as P.
  rewrite E, parse_uint_show in P by lia. congruence.
Qed.

Lemma all_chars_app f s t : all_chars f (s ++ t) = all_chars f s && all_chars f t.
Proof. induction s as [|c s IH]; simpl; [done|]. by rewrite IH, andb_assoc. Qed.

Lemma length_append (s t : string) :
  String.length (s ++ t) = (String.length s + String.length t)%nat.
Proof. induction s as [|c s IH]; simpl; [done|]. by rewrite IH. Qed.

Lemma app_len_inj_r (a b x y : string) :
  String.length x = String.length y -> a ++ x = b ++ y -> a = b /\ x = y.
Proof.
  revert b. induction a as [|c a IH]; intros [|d b] Hl E; simpl in *; [done|..].
  - subst x. simpl in Hl. rewrite length_append in Hl. lia.
  - subst y. simpl in Hl. rewrite length_append in Hl. lia.
  - injection E as -> E. by destruct (IH b Hl E) as [-> ->].
Qed.

Lemma split_once_app sep s t :
  contains_char sep s = false -> split_once sep (s ++ String sep t) = Some (s, t).
Proof.
  induction s as [|c s IH]; simpl; intros H.
  - by rewrite Ascii.eqb_refl.
  - apply orb_false_iff in H as [Hc Hs]. by rewrite Ascii.eqb_sym, Hc, IH.
Qed.

Lemma chars_no_char f c s : f c = false -> all_chars f s = true -> contains_char c s = false.
Proof.
  intros Hc. induction s as [|d s IH]; [done|]. cbn [all_chars contains_char].
  intros [Hd Hs]%andb_true_iff. rewrite (IH Hs), orb_false_r.
  destruct (Ascii.eqb_spec d c) as [->|Hn]; [congruence|]. by destruct (Ascii.eqb_spec c d); [subst|].
Qed.

Lemma digits_no_char c s :
  is_digit c = false -> all_chars is_digit s = true -> contains_char c s = false.
Proof. apply chars_no_char. Qed.

(** ** Words *)

(** Printable ASCII, without a space. *)
Definition is_graph (c : ascii) : bool := in_range 33 126 (code c).
Definition word (s : string) : Prop := s <> "" /\ all_chars is_graph s = true.

Lemma split_ws_graph cur a r :
  is_graph a = true -> split_ws_onto cur (String a r) = split_ws_onto (cur ++ String a "") r.
Proof.
  unfold is_graph, in_range. intros Ha. apply andb_true_iff in Ha as [H1%Z.leb_le H2%Z.leb_le].
  assert (ws1 a = false) as E1.
  { unfold ws1, in_range. rewrite (proj2 (Z.leb_gt (code a) 13)), (proj2 (Z.eqb_neq (code a) 32)) by lia.
    by rewrite andb_false_r. }
  assert (forall b, ws2 a b = false) as E2.
  { intros b. unfold ws2. by rewrite (proj2 (Z.eqb_neq (code a) 194)) by lia. }
  assert (forall b c, ws3 a b c = false) as E3.
  { intros b c. unfold ws3. rewrite !(proj2 (Z.eqb_neq (code a) _)) by lia. done. }
  cbn [split_ws_onto]. rewrite E1. destruct r as [|b r2]; [done|]. rewrite E2. destruct r2 as [|c r3]; [done|].
  by rewrite E3.
Qed.

Lemma split_ws_word w : forall cur rest,
  all_chars is_graph w = true -> split_ws_onto cur (w ++ rest) = split_ws_onto (cur ++ w) rest.
Proof.
  induction w as [|a w IH]; intros cur rest; cbn [all_chars append]; [by rewrite append_nil_r|].
  intros [Ha Hw]%andb_true_iff. rewrite split_ws_graph by done. rewrite IH by done.
  by rewrite append_assoc'.
Qed.

Lemma ws_head_graph a r : is_graph a = true -> ws_head (String a r) = false.
Proof.
  unfold is_graph, in_range. intros [H1%Z.leb_le H2%Z.leb_le]%andb_true_iff. cbn [ws_head]. unfold ws1, ws2, ws3, in_range.
  rewrite (proj2 (Z.leb_gt (code a) 13)), !(proj2 (Z.eqb_neq (code a) _)) by lia. rewrite andb_false_r. simpl.
  destruct r as [|b [|c r]]; done.
Qed.

Lemma digit_graph c : is_digit c = true -> is_graph c = true.
Proof. unfold is_digit, is_graph, in_range. intros [H1%Z.leb_le H2%Z.leb_le]%andb_true_iff. apply andb_true_iff. lia. Qed.

(** Words joined by spaces are split into the same words. *)
Lemma split_ws_join l : Forall word l -> split_whitespace (join " " l) = l.
Proof.
  unfold split_whitespace. induction 1 as [|w l [Hne Hw] Hl IH]; [done|].
  destruct l as [|w' l].
  - cbn [join]. rewrite <- (append_nil_r w), split_ws_word by done. cbn [split_ws_onto append]. unfold flush.
    rewrite append_nil_r. by destruct w.
  - change (join " " (w :: w' :: l)) with (w ++ String " " (join " " (w' :: l))). rewrite split_ws_word by done.
    set (r := join " " (w' :: l)) in *.
    change (split_ws_onto ("" ++ w) (String " " r)) with (flush ("" ++ w) (split_ws_onto "" r)).
    rewrite IH. unfold flush. cbn [append]. by destruct w.
Qed.

(** ** Strings that trimming leaves alone *)

Lemma all_ws_ends s c : is_graph c = true -> all_ws (s ++ String c "") = false.
Proof.
  unfold is_graph, in_range. intros [H1%Z.leb_le H2%Z.leb_le]%andb_true_iff.
  assert (W1 : ws1 c = false).
  { unfold ws1, in_range. rewrite (proj2 (Z.leb_gt (code c) 13)), (proj2 (Z.eqb_neq (code c) 32)) by lia. by rewrite andb_false_r. }
  assert (W2 : forall a, ws2 a c = false).
  { intros a. unfold ws2. rewrite !(proj2 (Z.eqb_neq (code c) _)) by lia. by rewrite andb_false_r. }
  assert (W3 : forall a b, ws3 a b c = false).
  { intros a b. unfold ws3, in_range. rewrite !(proj2 (Z.eqb_neq (code c) _)), !(proj2 (Z.leb_gt _ (code c))) by lia.
    simpl. by rewrite !andb_false_r. }
  induction s as [s IH] using string_len_ind. destruct s as [|a [|b [|d s]]]; simpl.
  - by rewrite W1.
  - destruct (ws1 a); [by rewrite W1|]. by rewrite W2.
  - destruct (ws1 a).
    { change (all_ws (String b "" ++ String c "") = false). apply IH. simpl. lia. }
    destruct (ws2 a b); [by rewrite W1|]. by rewrite W3.
  - destruct (ws1 a); [change (all_ws (String b (String d s) ++ String c "") = false); apply IH; simpl; lia|].
    destruct (ws2 a b); [change (all_ws (String d s ++ String c "") = false); apply IH; simpl; lia|].
    destruct (ws3 a b d); [apply IH; simpl; lia|done].
Qed.

Lemma trim_end_ends s c : is_graph c = true -> trim_end (s ++ String c "") = (s ++ String c "")%string.
Proof.
  intros Hc. induction s as [|a s IH]; cbn [append trim_end].
  - pose proof (all_ws_ends "" c Hc) as E. cbn [append] in E. by rewrite E.
  - pose proof (all_ws_ends (String a s) c Hc) as E. cbn [append] in E. by rewrite E, IH.
Qed.

Lemma trim_ends a s c : is_graph a = true -> is_graph c = true ->
  trim (String a s ++ String c "") = (String a s ++ String c "")%string.
Proof.
  intros Ha Hc. unfold trim. rewrite trim_start_noop; [by apply trim_end_ends|]. by apply ws_head_graph.
Qed.

Lemma word_last s : word s -> exists t c, s = (t ++ String c "")%string /\ is_graph c = true.
Proof.
  intros [Hne Hw]. induction s as [|a s IH]; [done|]. simpl in Hw. apply andb_true_iff in Hw as [Ha Hw].
  destruct s as [|b s]; [by exists "", a|]. destruct IH as (t & c & -> & Hc); [done|done|]. by exists (String a t), c.
Qed.

Lemma trim_word s : word s -> trim s = s.
Proof.
  intros Hw. destruct (word_last s Hw) as (t & c & -> & Hc). destruct Hw as [_ Hw].
  destruct t as [|a t]; [unfold trim; rewrite trim_start_noop by (by apply ws_head_graph); by apply (trim_end_ends "")|].
  simpl in Hw. apply andb_true_iff in Hw as [Ha _]. by apply trim_ends.
Qed.

(** The first [n] characters. *)
Fixpoint take_chars (n : nat) (s : string) : string :=
  match s with
  | EmptyString => ""
  | String c r =>
      if is_cont c then String c (take_chars n r)
      else match n with O => "" | S n => String c (take_chars n r) end
  end.

(** ** Order *)

(** The order of pairs of strings. *)
Definition pair_leb (a b : string * string) : bool :=
  match String.compare (fst a) (fst b) with
  | Lt => true
  | Gt => false
  | Eq => String.leb (snd a) (snd b)
  end.

Lemma pair_leb_total a b : pair_leb a b = true \/ pair_leb b a = true.
Proof.
  unfold pair_leb. rewrite (String.compare_antisym (fst b)).
  destruct (String.compare (fst a) (fst b)); simpl; auto using String.leb_total.
Qed.

Lemma compare_leb s t : String.compare s t <> Gt <-> String.leb s t = true.
Proof. unfold String.leb. by destruct (String.compare s t). Qed.

Lemma string_compare_refl s : String.compare s s = Eq.
Proof. pose proof (String.compare_antisym s s). by destruct (String.compare s s). Qed.

Lemma compare_Lt_iff s t : String.compare s t = Lt <-> String.leb s t = true /\ s <> t.
Proof.
  unfold String.leb. destruct (String.compare s t) eqn:E; split; try done.
  - intros [_ N]. by apply String.compare_eq_iff in E.
  - intros _. split; [done|]. intros ->. by rewrite string_compare_refl in E.
  - by intros [? _].
Qed.

Lemma pair_leb_iff a b :
  pair_leb a b = true <-> (String.leb (fst a) (fst b) = true /\ fst a <> fst b)
                          \/ (fst a = fst b /\ String.leb (snd a) (snd b) = true).
Proof.
  unfold pair_leb. rewrite <- compare_Lt_iff.
  destruct (String.compare (fst a) (fst b)) eqn:E.
  - apply String.compare_eq_iff in E. naive_solver.
  - split; [by left|done].
  - split; [done|]. intros [?|[E' _]]; [done|]. by rewrite E', string_compare_refl in E.
Qed.

Lemma pair_leb_trans a b c : pair_leb a b = true -> pair_leb b c = true -> pair_leb a c = true.
Proof.
  rewrite !pair_leb_iff. intros [[H1 N1]|[E1 H1]] [[H2 N2]|[E2 H2]].
  - left. split; [by eapply string_leb_trans|]. intros E. rewrite E in H1.
    apply N2. by apply String.leb_antisym.
  - left. by rewrite <- E2.
  - left. by rewrite E1.
  - right. split; [congruence|by eapply string_leb_trans].
Qed.

Lemma pair_leb_antisym a b : pair_leb a b = true -> pair_leb b a = true -> a = b.
Proof.
  rewrite !pair_leb_iff. destruct a as [a a'], b as [b b']; simpl.
  intros [[H1 N1]|[-> H1]] [[H2 N2]|[E2 H2]]; try (by subst).
  - by destruct N1; apply String.leb_antisym.
  - f_equal. by apply String.leb_antisym.
Qed.
