(* ===== verification/Time.v ===== *)
(** * Time: what the engine relies on from its date library

    The [chrono] crate is not part of the repository.  Its calendar and its
    time zones are therefore interfaces ([Calendar], [TimeZone]); what a theorem
    relies on is stated by the classes [CalendarOk] and [FixedOffset], and the
    instances at the end (the proleptic Gregorian calendar and UTC) show that
    these can be met and let examples run.

    An instant ([DateTime<Utc>]) is a number of nanoseconds since the Unix epoch;
    a [NaiveDate] is its day number in the common era, as chrono's
    [num_days_from_ce] gives it, so that [succ_opt]/[pred_opt] are [+1]/[-1]
    within the representable range. *)

From Stdlib Require Import ZArith Lia String.
From stdpp Require Import base list.
From S2P Require Import Prelude Text.

Open Scope string_scope.
Open Scope Z_scope.

(** A computation that may abort: a panicking operation gives [Panic]. *)
Inductive exec (A : Type) : Type :=
| Val (a : A)
| Panic.
Arguments Val {A} a.
Arguments Panic {A}.

Definition ns_per_sec : Z := 1000000000.
Definition secs (n : Z) : Z := n * ns_per_sec.
Definition minutes (n : Z) : Z := secs (n * 60).
Definition days (n : Z) : Z := secs (n * 86400).

(** A wall-clock reading. *)
Record NaiveDateTime := mk_ndt {
  date : Z;
  hour : Z;
  minute : Z;
  second : Z;
  nanosecond : Z }.

Definition ndt_eqb (a b : NaiveDateTime) : bool :=
  (date a =? date b) && (hour a =? hour b) && (minute a =? minute b)
  && (second a =? second b) && (nanosecond a =? nanosecond b).

Definition ndt_valid (n : NaiveDateTime) : Prop :=
  0 <= hour n < 24 /\ 0 <= minute n < 60 /\ 0 <= second n < 60 /\ 0 <= nanosecond n < ns_per_sec.

(** Minutes since the start of the common era, and nanoseconds likewise. *)
Definition minute_index (n : NaiveDateTime) : Z := (date n * 24 + hour n) * 60 + minute n.
Definition ndt_ns (n : NaiveDateTime) : Z :=
  (minute_index n * 60 + second n) * ns_per_sec + nanosecond n.

Definition ndt_of_ns (t : Z) : NaiveDateTime :=
  let s := t / ns_per_sec in
  let m := s / 60 in
  let h := m / 60 in
  mk_ndt (h / 24) (h mod 24) (m mod 60) (s mod 60) (t mod ns_per_sec).

(** [with_second(0)] and [with_nanosecond(0)]. *)
Definition floor_minute (n : NaiveDateTime) : NaiveDateTime :=
  mk_ndt (date n) (hour n) (minute n) 0 0.

Class Calendar := {
  year_of : Z -> Z;
  month_of : Z -> Z;
  day_of : Z -> Z;
  weekday_of : Z -> Z;          (* days from Sunday *)
  date_min : Z;
  date_max : Z;
  instant_min : Z;              (* [DateTime::<Utc>::MIN_UTC] *)
}.

Class CalendarOk (C : Calendar) : Prop := {
  month_range : forall d, 1 <= month_of d <= 12;
  day_range : forall d, 1 <= day_of d <= 31;
  weekday_range : forall d, 0 <= weekday_of d <= 6;
}.

(** [NaiveDate::succ_opt] and [NaiveDate::pred_opt]. *)
Definition succ_opt `{Calendar} (d : Z) : option Z := if d <? date_max then Some (d + 1) else None.
Definition pred_opt `{Calendar} (d : Z) : option Z := if date_min <? d then Some (d - 1) else None.

(** [NaiveDateTime + Duration::minutes(1)], which panics past the last date. *)
Definition plus_minute `{Calendar} (n : NaiveDateTime) : exec NaiveDateTime :=
  let n' := ndt_of_ns (ndt_ns n + minutes 1) in
  if date n' <=? date_max then Val n' else Panic.

Inductive LocalResult :=
| Single (t : Z)
| Ambiguous (a b : Z)
| LNone.

(** A zone reads an instant on its wall clock and a wall clock back. *)
Class TimeZone := {
  naive_local : Z -> NaiveDateTime;
  from_local_datetime : NaiveDateTime -> LocalResult;
}.

(** A zone whose clock never jumps: UTC, and every zone without daylight saving. *)
Class FixedOffset (Z0 : TimeZone) (off : Z) : Prop := {
  fixed_naive : forall t, naive_local t = ndt_of_ns (t + off);
  fixed_from : forall n, ndt_valid n -> from_local_datetime n = Single (ndt_ns n - off);
}.

(** Day number of 1970-01-01. *)
Definition unix_epoch_day : Z := 719163.

(** [%Y]: four digits, or a sign and at least four when they do not suffice. *)
Definition fmt_year (y : Z) : string :=
  if in_range 0 9999 y then show_pad 4 y
  else ((if (y <? 0)%Z then "-" else "+") ++ show_pad 4 (Z.abs y))%string.

(** A UTC instant as [%Y%m%d_%H%M%S]. *)
Definition utc_stamp `{Calendar} (t : Z) : string :=
  let n := ndt_of_ns (t + days unix_epoch_day) in
  (fmt_year (year_of (date n)) ++ show_pad 2 (month_of (date n)) ++ show_pad 2 (day_of (date n))
   ++ "_" ++ show_pad 2 (hour n) ++ show_pad 2 (minute n) ++ show_pad 2 (second n))%string.

(** ** Facts *)

Lemma ns_per_sec_pos : 0 < ns_per_sec.
Proof. unfold ns_per_sec. lia. Qed.

Lemma ndt_of_ns_valid t : ndt_valid (ndt_of_ns t).
Proof.
  unfold ndt_valid, ndt_of_ns, ns_per_sec. simpl.
  repeat split; try (apply Z.mod_pos_bound; lia).
Qed.

Lemma ndt_ns_of_ns t : ndt_ns (ndt_of_ns t) = t.
Proof.
  unfold ndt_ns, minute_index, ndt_of_ns. simpl.
  unfold ns_per_sec. divlia.
Qed.

Lemma ndt_of_ns_ns n : ndt_valid n -> ndt_of_ns (ndt_ns n) = n.
Proof.
  destruct n as [d h m s x]. unfold ndt_valid, ndt_ns, minute_index, ndt_of_ns. simpl.
  intros (Hh & Hm & Hs & Hx).
  assert ((((d * 24 + h) * 60 + m) * 60 + s) * ns_per_sec + x = x + (((d * 24 + h) * 60 + m) * 60 + s) * ns_per_sec) as -> by lia.
  pose proof ns_per_sec_pos.
  rewrite Z.div_add, Z.mod_add, (Z.div_small x), (Z.mod_small x) by lia.
  f_equal; divlia.
Qed.

Lemma minute_index_of_ns t : minute_index (ndt_of_ns t) = t / (60 * ns_per_sec).
Proof.
  unfold minute_index, ndt_of_ns. simpl.
  unfold ns_per_sec. divlia.
Qed.

Lemma minute_index_ns n : ndt_valid n -> minute_index n = ndt_ns n / (60 * ns_per_sec).
Proof. intros Hn. rewrite <- minute_index_of_ns, ndt_of_ns_ns by done. done. Qed.

Lemma minute_index_inj a b :
  ndt_valid a -> ndt_valid b -> minute_index a = minute_index b ->
  date a = date b /\ hour a = hour b /\ minute a = minute b.
Proof. unfold ndt_valid, minute_index. lia. Qed.

Lemma floor_minute_valid n : ndt_valid n -> ndt_valid (floor_minute n).
Proof. unfold ndt_valid, floor_minute, ns_per_sec. simpl. lia. Qed.

Lemma floor_minute_index n : minute_index (floor_minute n) = minute_index n.
Proof. done. Qed.

Lemma floor_minute_ns n : ndt_ns (floor_minute n) = minute_index n * (60 * ns_per_sec).
Proof. unfold ndt_ns, floor_minute, minute_index. simpl. lia. Qed.

Section PlusMinute.
Context `{Calendar}.

Lemma plus_minute_Val n n' :
  plus_minute n = Val n' -> ndt_valid n' /\ ndt_ns n' = ndt_ns n + minutes 1 /\ date n' <= date_max.
Proof.
  unfold plus_minute. case_match eqn:E; [|done]. intros [= <-]. bools.
  split; [apply ndt_of_ns_valid|]. by rewrite ndt_ns_of_ns.
Qed.

Lemma plus_minute_index n n' :
  ndt_valid n -> plus_minute n = Val n' -> minute_index n' = minute_index n + 1.
Proof.
  intros Hn Hp. apply plus_minute_Val in Hp as (Hv & He & _).
  rewrite !minute_index_ns, He by done. unfold minutes, secs.
  replace (1 * 60 * ns_per_sec) with (1 * (60 * ns_per_sec)) by lia.
  rewrite Z.div_add; unfold ns_per_sec; lia.
Qed.
End PlusMinute.

(** ** Instances *)

(** The proleptic Gregorian calendar, from day numbers of the common era. *)
Module Gregorian.
Definition doe (d : Z) : Z := (d + 305) mod 146097.
Definition yoe (d : Z) : Z :=
  (doe d - doe d / 1460 + doe d / 36524 - doe d / 146096) / 365.
Definition doy (d : Z) : Z := doe d - (365 * yoe d + yoe d / 4 - yoe d / 100).
Definition mp (d : Z) : Z := (5 * doy d + 2) / 153.
Definition day (d : Z) : Z := doy d - (153 * mp d + 2) / 5 + 1.
Definition month (d : Z) : Z := if mp d <? 10 then mp d + 3 else mp d - 9.
Definition year (d : Z) : Z :=
  yoe d + (d + 305) / 146097 * 400 + (if month d <=? 2 then 1 else 0).

Lemma doy_range d : 0 <= doy d <= 365.
Proof.
  unfold doy, yoe. pose proof (Z.mod_pos_bound (d + 305) 146097 ltac:(lia)) as Hdoe.
  fold (doe d) in Hdoe. revert Hdoe. generalize (doe d). intros x Hx. divlia.
Qed.
End Gregorian.

#[export] Instance gregorian : Calendar := {
  year_of := Gregorian.year;
  month_of := Gregorian.month;
  day_of := Gregorian.day;
  weekday_of := fun d => d mod 7;
  date_min := -95746163;
  date_max := 95745432;
  instant_min := days (-95746163 - 719163);
}.

#[export] Instance gregorian_ok : CalendarOk gregorian.
Proof.
  split; intros d; simpl; pose proof (Gregorian.doy_range d) as Hd.
  - unfold Gregorian.month, Gregorian.mp. case_match; bools; divlia.
  - unfold Gregorian.day, Gregorian.mp. divlia.
  - pose proof (Z.mod_pos_bound d 7 ltac:(lia)). lia.
Qed.

#[export] Instance utc_zone : TimeZone := {
  naive_local := fun t => ndt_of_ns (t + days unix_epoch_day);
  from_local_datetime := fun n => Single (ndt_ns n - days unix_epoch_day);
}.

#[export] Instance utc_fixed : FixedOffset utc_zone (days unix_epoch_day).
Proof. by split. Qed.
