(* ===== verification/Domain.v ===== *)
(** * Domain: the data every component shares

    Engines, environments, connection profiles, job outcomes and kinds, artifact
    formats and manifests (engine/src/types.rs, profile.rs, job.rs, events.rs,
    manifest.rs).  An enum that is written to the database as text has a [Named]
    instance; [NamedOk] states that its two directions agree, which is what lets
    a stored value be read back. *)

From Stdlib Require Import ZArith NArith Lia String List Bool.
From stdpp Require Import base list gmap strings.
From S2P Require Import Prelude Text.
Import ListNotations.

Open Scope string_scope.
Open Scope list_scope.
Open Scope Z_scope.

(** A [Uuid] is a 128-bit value compared for equality. *)
Abbreviation Uuid := N.

(** ** Named enums *)

Class Named (A : Type) := {
  as_str : A -> string;
  parse : string -> option A;
}.

Class NamedOk (A : Type) `{Named A} : Prop := {
  parse_as_str : forall a : A, parse (as_str a) = Some a;
  as_str_parse : forall s (a : A), parse s = Some a -> as_str a = s;
}.

(** [match s { "x" => Some(X), ... , _ => None }]. *)
Fixpoint match_str {A} (s : string) (arms : list (string * A)) : option A :=
  match arms with
  | [] => None
  | (t, a) :: arms' => if String.eqb s t then Some a else match_str s arms'
  end.

(** Compare [s] with each name of a table in turn. *)
Ltac str_arms s :=
  cbn [match_str];
  repeat match goal with
    | |- context [String.eqb s ?t] =>
        destruct (String.eqb_spec s t) as [->|?]; [by intros [= <-]|]
    end; try done.

Ltac named_ok :=
  split;
  [ intros []; reflexivity
  | let s := fresh "s" in let a := fresh "a" in
    intros s a; cbn [as_str parse]; str_arms s ].

(** Distinct values are stored as distinct text. *)
Lemma as_str_inj {A} `{NamedOk A} (a b : A) : as_str a = as_str b -> a = b.
Proof. intros E. pose proof (parse_as_str a) as P. rewrite E, parse_as_str in P. by injection P. Qed.

(** ** types.rs *)

Inductive Engine := Mysql | Postgres | Mongo.

#[export] Instance Engine_eq : EqDecision Engine.
Proof. solve_decision. Defined.

Definition engine_as_str (e : Engine) : string :=
  match e with Mysql => "mysql" | Postgres => "postgres" | Mongo => "mongo" end.

Definition default_port (e : Engine) : Z :=
  match e with Mysql => 3306 | Postgres => 5432 | Mongo => 27017 end.

Definition is_relational (e : Engine) : bool :=
  match e with Mysql | Postgres => true | Mongo => false end.

Definition ALL_ENGINES : list Engine := [Mysql; Postgres; Mongo].

Record ParseEnumError := mk_parse_enum_error { pe_kind : string; pe_value : string }.

Definition engine_from_str (s : string) : result Engine ParseEnumError :=
  ok_or (match_str s [("mysql", Mysql); ("postgres", Postgres); ("mongo", Mongo)])
    (mk_parse_enum_error "Engine" s).

Definition result_ok {A E} (r : result A E) : option A :=
  match r with Ok a => Some a | Err _ => None end.

#[export] Instance Engine_named : Named Engine :=
  { as_str := engine_as_str; parse := fun s => result_ok (engine_from_str s) }.

Inductive EnvironmentTag := Prod | Staging | Dev.

#[export] Instance EnvironmentTag_eq : EqDecision EnvironmentTag.
Proof. solve_decision. Defined.

Definition environment_as_str (e : EnvironmentTag) : string :=
  match e with Prod => "prod" | Staging => "staging" | Dev => "dev" end.

Definition requires_typed_confirmation (e : EnvironmentTag) : bool :=
  match e with Prod => true | _ => false end.

Definition environment_from_str (s : string) : result EnvironmentTag ParseEnumError :=
  ok_or (match_str s [("prod", Prod); ("staging", Staging); ("dev", Dev)])
    (mk_parse_enum_error "EnvironmentTag" s).

#[export] Instance EnvironmentTag_named : Named EnvironmentTag :=
  { as_str := environment_as_str; parse := fun s => result_ok (environment_from_str s) }.

(** ** profile.rs *)

Record DbConfig := mk_db {
  db_host : string;
  db_port : Z;
  db_user : string;
  db_database : option string }.

Record ToolOverrides := mk_tools {
  t_mysqldump : option string;
  t_mysql : option string;
  t_mydumper : option string;
  t_myloader : option string;
  t_pg_dump : option string;
  t_pg_dumpall : option string;
  t_pg_restore : option string;
  t_psql : option string;
  t_mongodump : option string;
  t_mongorestore : option string }.

Definition no_tools : ToolOverrides :=
  mk_tools None None None None None None None None None None.

Record ConnectionProfile := mk_profile {
  profile_id : Uuid;
  profile_name : string;
  profile_engine : Engine;
  environment : EnvironmentTag;
  ssh_connection_id : option Uuid;
  db : DbConfig;
  tool_overrides : ToolOverrides;
  profile_created_at : Z;
  profile_updated_at : Z }.

Record ProfileCreate := mk_profile_create {
  pc_name : string;
  pc_engine : Engine;
  pc_environment : EnvironmentTag;
  pc_ssh_connection_id : option Uuid;
  pc_db : DbConfig;
  pc_tool_overrides : ToolOverrides }.

(** A patch; [None] leaves a field as it is, and [Some None] detaches the tunnel. *)
Record ProfileUpdate := mk_profile_update {
  pu_name : option string;
  pu_engine : option Engine;
  pu_environment : option EnvironmentTag;
  pu_ssh_connection_id : option (option Uuid);
  pu_db : option DbConfig;
  pu_tool_overrides : option ToolOverrides }.

(** ** job.rs and events.rs: outcomes, kinds and phases *)

Inductive JobOutcome := Success | Failed | Cancelled.

#[export] Instance JobOutcome_eq : EqDecision JobOutcome.
Proof. solve_decision. Defined.

Definition outcome_as_str (o : JobOutcome) : string :=
  match o with Success => "success" | Failed => "failed" | Cancelled => "cancelled" end.

Inductive JobKind := KindBackup | KindRestore | KindVerify | KindSync.

#[export] Instance JobKind_eq : EqDecision JobKind.
Proof. solve_decision. Defined.

Inductive JobPhase :=
| Initializing | SshConnect | Tunneling | Introspect | DumpSchema | DumpData | Compress
| Transfer | PhaseRestore | PhaseVerify | Cleanup | Done.

Inductive LogLevel := Debug | Info | Warn | Error.

#[export] Instance LogLevel_eq : EqDecision LogLevel.
Proof. solve_decision. Defined.

(** ** manifest.rs: formats and manifests *)

Definition MANIFEST_VERSION : Z := 1.

Inductive ArtifactFormat := SqlGz | PgCustom | PgDirectory | MydumperDir | MongoArchive.

#[export] Instance ArtifactFormat_eq : EqDecision ArtifactFormat.
Proof. solve_decision. Defined.

Definition supports_selective_restore (f : ArtifactFormat) : bool :=
  match f with PgCustom | PgDirectory | MongoArchive => true | _ => false end.

Definition is_directory (f : ArtifactFormat) : bool :=
  match f with PgDirectory | MydumperDir => true | _ => false end.

(** [options] is opaque JSON, kept as its text. *)
Record BackupManifest := mk_manifest {
  manifest_version : Z;
  manifest_id : Uuid;
  source_profile_id : Uuid;
  source_profile_name : string;
  manifest_engine : Engine;
  server_version : string;
  dump_tool : string;
  dump_tool_version : string;
  manifest_database : string;
  manifest_created_at : Z;
  manifest_format : ArtifactFormat;
  manifest_tables : list string;
  manifest_tables_with_data : list string;
  source_row_counts : gmap string Z;
  manifest_options : string;
  artifact_filename : string;
  manifest_size_bytes : Z;
  sha256 : string;
  encrypted : bool;
  encryption_recipients : list string }.

(** ** The stored text of an enum *)

#[export] Instance Engine_named_ok : NamedOk Engine.
Proof.
  split; [by intros []|]. intros s a. cbn [as_str parse Engine_named].
  unfold engine_from_str. str_arms s.
Qed.

#[export] Instance EnvironmentTag_named_ok : NamedOk EnvironmentTag.
Proof.
  split; [by intros []|]. intros s a. cbn [as_str parse EnvironmentTag_named].
  unfold environment_from_str. str_arms s.
Qed.

(** A stored engine or environment reads back as the value written, and text
    that was never written by the program is refused with the offending value. *)
Theorem engine_environment_round_trip :
  (forall e, engine_from_str (engine_as_str e) = Ok e)
  /\ (forall e, environment_from_str (environment_as_str e) = Ok e)
  /\ (forall s, (forall e, engine_as_str e <> s) ->
        engine_from_str s = Err (mk_parse_enum_error "Engine" s))
  /\ (forall s, (forall e, environment_as_str e <> s) ->
        environment_from_str s = Err (mk_parse_enum_error "EnvironmentTag" s)).
Proof.
  split_and!; try by intros [].
  - intros s H. pose proof (as_str_parse (A := Engine) s) as P. cbn [parse Engine_named] in P.
    destruct (engine_from_str s) as [e|x] eqn:E; [exfalso; exact (H e (P e eq_refl))|].
    unfold engine_from_str, ok_or in E. case_match; [done|]. by injection E as <-.
  - intros s H. pose proof (as_str_parse (A := EnvironmentTag) s) as P.
    cbn [parse EnvironmentTag_named] in P.
    destruct (environment_from_str s) as [e|x] eqn:E; [exfalso; exact (H e (P e eq_refl))|].
    unfold environment_from_str, ok_or in E. case_match; [done|]. by injection E as <-.
Qed.
