(* ===== verification/Sql.v ===== *)
(** * Sql: identifiers, statements and their execution (engine/src/db.rs)

    The parts of the database layer that do not depend on a driver: quoting an
    identifier, what a table is called, and the loops that run statements over a
    connection.  The driver's answer to one statement is a parameter. *)

From Stdlib Require Import ZArith Lia Ascii String List Bool.
From stdpp Require Import base list gmap strings.
From S2P Require Import Prelude Text Domain.
Import ListNotations.

Open Scope string_scope.
Open Scope list_scope.
Open Scope Z_scope.

Inductive DbError :=
| DbConnect (e : string)
| Query (e : string)
| InvalidIdentifier (e : string)
| NotSql (e : Engine).

Definition db_error_text (e : DbError) : string :=
  match e with
  | DbConnect e => "connection failed: " ++ e
  | Query e => "query failed: " ++ e
  | InvalidIdentifier e => "invalid identifier: " ++ e
  | NotSql e => engine_as_str e ++ " does not speak SQL; this path takes statements"
  end%string.

(** ** Tables *)

Record TableInfo := mk_table {
  ti_schema : option string;
  ti_name : string;
  storage_engine : option string;
  estimated_rows : option Z;
  data_bytes : option Z;
  index_bytes : option Z;
  transactional : bool }.

Definition new_table_info (schema : option string) (name : string) (storage_engine : option string)
    (estimated_rows data_bytes index_bytes : option Z) : TableInfo :=
  mk_table schema name storage_engine estimated_rows data_bytes index_bytes
    (match storage_engine with Some e => eq_ignore_case e "innodb" | None => true end).

Definition qualified_name (t : TableInfo) : string :=
  match ti_schema t with Some s => (s ++ "." ++ ti_name t)%string | None => ti_name t end.

(** [u64] addition in a release build. *)
Definition total_bytes (t : TableInfo) : Z :=
  wrap 64 (default 0 (data_bytes t) + default 0 (index_bytes t)).

Definition bootstrap_database (e : Engine) : option string :=
  match e with Postgres => Some "postgres" | Mysql | Mongo => None end.

(** ** Identifiers *)

Definition null_byte : DbError := InvalidIdentifier "identifier contains a null byte".

Definition quote_with (q : ascii) (ident : string) : result string DbError :=
  if contains_char "000" ident then Err null_byte
  else Ok (String q (replace_char q (String q (String q "")) ident ++ String q ""))%string.

Definition quote_mysql_ident (ident : string) : result string DbError := quote_with "`" ident.
Definition quote_pg_ident (ident : string) : result string DbError := quote_with dquote ident.

Definition split_qualified (name default_schema : string) : string * string :=
  match split_once "." name with
  | Some (schema, table) => (schema, table)
  | None => (default_schema, name)
  end.

(** ** Statements *)

Record Statement := mk_stmt { sql : string; binds : list string }.

Section Execute.
(** The driver: connecting, the rows a statement changed, the row a query gives. *)
Variable connect : result unit DbError.
Variable execute : Statement -> result Z string.
Variable fetch_one : Statement -> result (list (result Z string)) string.

Fixpoint execute_all (l : list Statement) : result (list Z) DbError :=
  match l with
  | [] => Ok []
  | s :: l' =>
      let? n := map_err (execute s) (fun e => Query ("executing statement: " ++ e)%string) in
      let? rest := execute_all l' in
      Ok (n :: rest)
  end.

Definition execute_batch (e : Engine) (l : list Statement) : result (list Z) DbError :=
  match e with
  | Mysql | Postgres => let? _ := connect in execute_all l
  | Mongo => Err (NotSql Mongo)
  end.

(** Every column of the row must be an integer. *)
Fixpoint read_counts (i : Z) (row : list (result Z string)) : result (list Z) DbError :=
  match row with
  | [] => Ok []
  | c :: row' =>
      let? n := map_err c (fun e => Query ("count " ++ show i ++ " was not an integer: " ++ e)%string) in
      let? rest := read_counts (i + 1) row' in
      Ok (n :: rest)
  end.

Fixpoint fetch_all_counts (l : list Statement) : result (list (list Z)) DbError :=
  match l with
  | [] => Ok []
  | s :: l' =>
      let? row := map_err (fetch_one s) (fun e => Query ("reading counts: " ++ e)%string) in
      let? counts := read_counts 0 row in
      let? rest := fetch_all_counts l' in
      Ok (counts :: rest)
  end.

Definition fetch_count_rows (e : Engine) (l : list Statement) : result (list (list Z)) DbError :=
  match e with
  | Mysql | Postgres => let? _ := connect in fetch_all_counts l
  | Mongo => Err (NotSql Mongo)
  end.
End Execute.

(** ** Reading a quoted identifier back *)

(** How a server reads an identifier after its opening quote: a doubled quote is
    one quote, a lone one ends the identifier. *)
Fixpoint read_quoted (q : ascii) (s : string) : option (string * string) :=
  match s with
  | EmptyString => None
  | String c r =>
      if Ascii.eqb c q then
        match r with
        | String d r2 =>
            if Ascii.eqb d q then
              match read_quoted q r2 with Some (i, rest) => Some (String q i, rest) | None => None end
            else Some ("", r)
        | EmptyString => Some ("", "")
        end
      else match read_quoted q r with Some (i, rest) => Some (String c i, rest) | None => None end
  end.

Definition starts_with_char (q : ascii) (s : string) : bool :=
  match s with String c _ => Ascii.eqb c q | EmptyString => false end.

Lemma read_quoted_replace q ident rest :
  starts_with_char q rest = false ->
  read_quoted q (replace_char q (String q (String q "")) ident ++ String q rest) = Some (ident, rest).
Proof.
  intros Hr. induction ident as [|c ident IH]; cbn [replace_char].
  - cbn [String.append read_quoted]. rewrite Ascii.eqb_refl. destruct rest as [|d r]; [done|].
    simpl in Hr. by rewrite Hr.
  - destruct (Ascii.eqb_spec c q) as [->|Hne].
    + cbn [String.append read_quoted]. rewrite Ascii.eqb_refl. by rewrite IH.
    + cbn [String.append read_quoted]. apply Ascii.eqb_neq in Hne. by rewrite Hne, IH.
Qed.

(** ** Loops *)

Lemma execute_all_length execute l out :
  execute_all execute l = Ok out -> length out = length l.
Proof.
  revert out. induction l as [|s l IH]; intros out; cbn [execute_all]; [by intros [= <-]|].
  intros H. inv_ok. simpl. f_equal. eauto.
Qed.

Lemma fetch_all_counts_length fetch_one l out :
  fetch_all_counts fetch_one l = Ok out -> length out = length l.
Proof.
  revert out. induction l as [|s l IH]; intros out; cbn [fetch_all_counts]; [by intros [= <-]|].
  intros H. inv_ok. simpl. f_equal. eauto.
Qed.

Lemma execute_all_Ok execute l out :
  execute_all execute l = Ok out -> Forall (fun s => exists n, execute s = Ok n) l.
Proof.
  revert out. induction l as [|s l IH]; intros out; cbn [execute_all]; [by constructor|].
  intros H. destruct (execute s) as [n|] eqn:E; [|done]. cbn [map_err rbind] in H.
  destruct (execute_all execute l) as [rest|]; [|done]. constructor; eauto.
Qed.

(** Counts are read off a row only when every cell of it was an integer. *)
Lemma read_counts_Ok i row out : read_counts i row = Ok out -> row = map Ok out.
Proof.
  revert i out. induction row as [|c row IH]; intros i out; cbn [read_counts]; [by intros [= <-]|].
  destruct c as [n|]; [|done]. cbn [map_err rbind].
  destruct (read_counts (i + 1) row) as [rest|] eqn:E; [|done]. intros [= <-].
  simpl. f_equal. eauto.
Qed.

Lemma fetch_all_counts_row fetch_one l out i s row :
  fetch_all_counts fetch_one l = Ok out -> l !! i = Some s -> out !! i = Some row ->
  fetch_one s = Ok (map Ok row).
Proof.
  revert out i. induction l as [|s' l IH]; intros out i Hf Hs Hr; [done|].
  cbn [fetch_all_counts] in Hf. destruct (fetch_one s') as [cells|] eqn:E; [|done].
  cbn [map_err rbind] in Hf. destruct (read_counts 0 cells) as [counts|] eqn:Ec; [|done].
  cbn [rbind] in Hf. destruct (fetch_all_counts fetch_one l) as [rest|] eqn:El; [|done].
  injection Hf as <-. destruct i as [|i]; simpl in *; [|by eapply IH].
  injection Hs as <-. injection Hr as <-. rewrite E. f_equal. by eapply read_counts_Ok.
Qed.

(** ** Properties *)

(** An identifier cannot leave its quotes.  Whatever it holds - the quote
    character, or SQL - a server reading the quoted form reads the same
    identifier back and stops at its end; only an identifier with a null byte is
    refused. *)
Theorem quoted_identifier_round_trip ident :
  (contains_char "000" ident = false ->
   forall rest,
     (starts_with_char "`" rest = false ->
      exists q, quote_mysql_ident ident = Ok (String "`" q)
        /\ read_quoted "`" (q ++ rest) = Some (ident, rest))
     /\ (starts_with_char dquote rest = false ->
      exists q, quote_pg_ident ident = Ok (String dquote q)
        /\ read_quoted dquote (q ++ rest) = Some (ident, rest)))
  /\ (contains_char "000" ident = true ->
      quote_mysql_ident ident = Err null_byte /\ quote_pg_ident ident = Err null_byte).
Proof.
  unfold quote_mysql_ident, quote_pg_ident, quote_with. split; intros ->; [|done].
  intros rest. split; intros Hr; (eexists; split; [reflexivity|]);
    rewrite append_assoc'; by apply read_quoted_replace.
Qed.

(** ** Witnesses *)

Lemma quoted_identifier_round_trip_witness :
  exists q, quote_mysql_ident "a`; DROP DATABASE x;--" = Ok (String "`" q)
    /\ read_quoted "`" (q ++ " SET x") = Some ("a`; DROP DATABASE x;--", " SET x").
Proof.
  exact (proj1 (proj1 (quoted_identifier_round_trip "a`; DROP DATABASE x;--") eq_refl " SET x") eq_refl).
Defined.
