(* ===== verification/Exec.v ===== *)
(** * Exec: commands, their errors and where programs are found
      (engine/src/exec.rs)

    A [ToolCommand] keeps its secrets apart from its arguments.  Spawning a
    process is outside the model; what a finished child leaves (its exit status,
    the lines of its stderr, the state of the cancellation token) is the input of
    [wait_checked].  The machine ([Host]) is an interface: which paths are files,
    which are executable, the environment variables and directory listings. *)

From Stdlib Require Import ZArith Lia Ascii String List Bool Permutation.
From stdpp Require Import base list gmap strings.
From S2P Require Import Prelude Text.
Import ListNotations.

Open Scope string_scope.
Open Scope list_scope.
Open Scope Z_scope.

Definition STDERR_TAIL_LINES : nat := 50.

Inductive ExecError :=
| Spawn (program source : string)
| ExecFailed (program status stderr : string)
| ExecCancelled (program : string)
| ExecIo (program source : string).

Definition exec_error_text (e : ExecError) : string :=
  match e with
  | Spawn p source => "could not start " ++ p ++ ": " ++ source
  | ExecFailed p status stderr => p ++ " failed with " ++ status ++ String newline stderr
  | ExecCancelled p => p ++ " was cancelled"
  | ExecIo p source => "io error while running " ++ p ++ ": " ++ source
  end%string.

(** ** Commands *)

Record ToolCommand := mk_cmd {
  program : string;
  args : list string;
  env : list (string * string);
  secret_env : list (string * string) }.

Definition new_command (p : string) : ToolCommand := mk_cmd p [] [] [].
Definition add_arg (c : ToolCommand) (a : string) : ToolCommand :=
  mk_cmd (program c) (args c ++ [a]) (env c) (secret_env c).
Definition add_args (c : ToolCommand) (l : list string) : ToolCommand :=
  mk_cmd (program c) (args c ++ l) (env c) (secret_env c).
Definition add_env (c : ToolCommand) (k v : string) : ToolCommand :=
  mk_cmd (program c) (args c) (env c ++ [(k, v)]) (secret_env c).
Definition add_secret_env (c : ToolCommand) (k v : string) : ToolCommand :=
  mk_cmd (program c) (args c) (env c) (secret_env c ++ [(k, v)]).

(** The child's environment: the plain variables, then the secret ones. *)
Definition build_env (c : ToolCommand) (inherited : gmap string string) : gmap string string :=
  fold_left (fun m kv => <[kv.1 := kv.2]> m) (env c ++ secret_env c) inherited.

Section Display.
(** [{:?}] of a string, which quotes it. *)
Variable str_debug : string -> string.

Definition display_arg (a : string) : string :=
  if contains_char " " a then str_debug a else a.

Definition display (c : ToolCommand) : string :=
  fold_left (fun out a => (out ++ String " " (display_arg a))%string) (args c) (program c).
End Display.

(** ** A finished child *)

(** [map_while(Result::ok)]. *)
Fixpoint map_while_ok {A E} (l : list (result A E)) : list A :=
  match l with Ok a :: l' => a :: map_while_ok l' | _ => [] end.

Definition push_tail (tail : list string) (line : string) : list string :=
  (if Nat.eqb (length tail) STDERR_TAIL_LINES then List.tl tail else tail) ++ [line].

(** The collector thread; [None] when it panicked. *)
Definition stderr_finish {E} (stderr : option (list (result string E))) : list string :=
  match stderr with
  | Some l => fold_left push_tail (map_while_ok l) []
  | None => []
  end.

Record ExitStatus := mk_exit { exit_success : bool; exit_text : string }.

Definition wait_checked {E} (prog : string) (wait : result ExitStatus string)
    (stderr : option (list (result string E))) (is_cancelled : bool)
    : result (list string) ExecError :=
  match wait with
  | Err source => Err (ExecIo prog source)
  | Ok status =>
      let lines := stderr_finish stderr in
      if is_cancelled then Err (ExecCancelled prog)
      else if negb (exit_success status)
      then Err (ExecFailed prog (exit_text status) (join (String newline "") lines))
      else Ok lines
  end.

(** [output_text]: the outcome of running to completion. *)
Definition output_text (prog : string)
    (run : result (ExitStatus * string * string) string) : result string ExecError :=
  match run with
  | Err source => Err (Spawn prog source)
  | Ok (status, out, err) =>
      if negb (exit_success status) then Err (ExecFailed prog (exit_text status) err) else Ok out
  end.

(** ** Finding programs *)

Class Host := {
  is_file : string -> bool;
  exec_mode : string -> bool;          (* an execute bit of the file's mode *)
  path_var : option (list string);     (* [PATH], split *)
  home_var : option string;
  read_dir : string -> option (list (option string));
}.

(** [Path::join]. *)
Fixpoint ends_with_slash (s : string) : bool :=
  match s with
  | EmptyString => false
  | String c EmptyString => Ascii.eqb c "/"
  | String _ r => ends_with_slash r
  end.

Definition path_join (dir name : string) : string :=
  if starts_with "/" name then name
  else if String.eqb dir "" then name
  else if ends_with_slash dir then (dir ++ name)%string
  else (dir ++ "/" ++ name)%string.

Section Find.
Context `{Host}.

Definition is_executable (p : string) : bool := is_file p && exec_mode p.

Definition search_path (binary : string) : option string :=
  match path_var with
  | Some dirs => List.find is_executable (map (fun dir => path_join dir binary) dirs)
  | None => None
  end.

Definition EXTRA_DIRS : list string := [
  "/opt/homebrew/bin"; "/opt/homebrew/opt/mysql-client/bin"; "/opt/homebrew/opt/libpq/bin";
  "/usr/local/bin"; "/usr/local/opt/mysql-client/bin"; "/usr/local/opt/libpq/bin";
  "/usr/local/mysql/bin"; "/opt/local/bin"; "/usr/bin"; "/usr/pgsql/bin"].

Fixpoint somes {A} (l : list (option A)) : list A :=
  match l with [] => [] | Some a :: l' => a :: somes l' | None :: l' => somes l' end.

(** The versioned directories of one base, the greatest name first. *)
Definition find_versioned (binary base : string) : option string :=
  match read_dir base with
  | Some entries =>
      let versions := sort_strings (map (path_join base) (somes entries)) in
      List.find is_file
        (map (fun dir => path_join (path_join dir "bin") binary) (rev versions))
  | None => None
  end.

Fixpoint first_some {A B} (f : A -> option B) (l : list A) : option B :=
  match l with
  | [] => None
  | a :: l' => match f a with Some b => Some b | None => first_some f l' end
  end.

Definition find_tool (binary : string) (override_path : option string) : option string :=
  match override_path with
  | Some explicit => if is_file explicit then Some explicit else None
  | None =>
      match search_path binary with
      | Some found => Some found
      | None =>
          match List.find is_file (map (fun dir => path_join dir binary) EXTRA_DIRS) with
          | Some candidate => Some candidate
          | None => first_some (find_versioned binary) ["/usr/lib/postgresql"; "/usr/local/pgsql"]
          end
      end
  end.

Definition DOCKER_BIN : string := "docker".

Definition DOCKER_DIRS : list string := [
  "/usr/local/bin"; "/usr/bin"; "/opt/homebrew/bin"; "/opt/local/bin";
  "/Applications/Docker.app/Contents/Resources/bin"].

Definition DOCKER_HOME_DIRS : list string := [".docker/bin"; ".orbstack/bin"; ".rd/bin"].

Definition home_dirs : list string :=
  match home_var with
  | Some home => map (path_join home) DOCKER_HOME_DIRS
  | None => []
  end.

Definition find_docker : option string :=
  match search_path DOCKER_BIN with
  | Some found => Some found
  | None =>
      List.find is_executable (map (fun dir => path_join dir DOCKER_BIN) (DOCKER_DIRS ++ home_dirs))
  end.
End Find.

Definition docker_missing_message : string :=
  let searched := join ", " (DOCKER_DIRS ++ map (String.append "~/") DOCKER_HOME_DIRS) in
  ("could not find the docker command. An app launched from Finder does not inherit "
   ++ "your shell's PATH, so Docker working in a terminal is not enough. Searched PATH "
   ++ "and: " ++ searched ++ ". If Docker lives somewhere else, switch Database tools to "
   ++ String "034" "Installed on this Mac" ++ String "034" " and point the profile at the binaries directly.")%string.

(** ** Lemmas *)

Lemma tl_drop {A} (l : list A) : List.tl l = drop 1 l.
Proof. by destruct l. Qed.

Lemma push_tail_length tail line :
  (length tail <= STDERR_TAIL_LINES)%nat -> (length (push_tail tail line) <= STDERR_TAIL_LINES)%nat.
Proof.
  unfold push_tail. intros H. destruct (Nat.eqb_spec (length tail) STDERR_TAIL_LINES) as [E|E];
    rewrite length_app; cbn [length]; [|lia].
  destruct tail as [|x tail]; [done|]. cbn [List.tl length] in *. lia.
Qed.

(** The ring holds the last lines: dropping from the whole list is the same. *)
Lemma push_tail_drop (l : list string) (line : string) :
  push_tail (drop (length l - STDERR_TAIL_LINES) l) line =
  drop (length (l ++ [line]) - STDERR_TAIL_LINES) (l ++ [line]).
Proof.
  unfold push_tail. rewrite length_drop, length_app. cbn [length].
  destruct (Nat.eqb_spec (length l - (length l - STDERR_TAIL_LINES)) STDERR_TAIL_LINES) as [E|E].
  - rewrite tl_drop, drop_drop, drop_app_le by (unfold STDERR_TAIL_LINES in *; lia).
    do 2 f_equal. unfold STDERR_TAIL_LINES in *. lia.
  - replace (length l - STDERR_TAIL_LINES)%nat with 0%nat by (unfold STDERR_TAIL_LINES in *; lia).
    replace (length l + 1 - STDERR_TAIL_LINES)%nat with 0%nat by (unfold STDERR_TAIL_LINES in *; lia).
    done.
Qed.

Lemma tail_of_lines (l done : list string) :
  fold_left push_tail l (drop (length done - STDERR_TAIL_LINES) done) =
  drop (length (done ++ l) - STDERR_TAIL_LINES) (done ++ l).
Proof.
  revert done. induction l as [|line l IH]; intros done; cbn [fold_left]; [by rewrite app_nil_r|].
  rewrite push_tail_drop, IH, <- app_assoc. done.
Qed.

Lemma stderr_finish_spec {E} (l : list (result string E)) :
  stderr_finish (Some l) =
  drop (length (map_while_ok l) - STDERR_TAIL_LINES) (map_while_ok l).
Proof. exact (tail_of_lines (map_while_ok l) []). Qed.

Lemma find_is_Some {A} (f : A -> bool) l a : List.find f l = Some a -> In a l /\ f a = true.
Proof. apply List.find_some. Qed.

Lemma first_some_inv {A B} (f : A -> option B) l b :
  first_some f l = Some b -> exists a, In a l /\ f a = Some b.
Proof.
  induction l as [|a l IH]; simpl; [done|]. destruct (f a) eqn:E; [|naive_solver].
  intros [= <-]. eauto.
Qed.

Lemma search_path_file `{Host} binary p : search_path binary = Some p -> is_executable p = true.
Proof. unfold search_path. destruct path_var; [|done]. by intros [_ ?]%find_is_Some. Qed.

Lemma find_versioned_file `{Host} binary base p :
  find_versioned binary base = Some p -> is_file p = true.
Proof. unfold find_versioned. destruct (read_dir base); [|done]. by intros [_ ?]%find_is_Some. Qed.

(** ** Properties *)

(** A child counts as succeeded exactly when it could be waited for, was not
    cancelled and exited well; a failure carries the last fifty lines of its
    stderr, in order, and a cancelled child is reported as cancelled whatever
    its exit status. *)
Theorem wait_checked_spec {E} prog wait (stderr : list (result string E)) cancelled :
  (forall lines, wait_checked prog wait (Some stderr) cancelled = Ok lines <->
     exists st, wait = Ok st /\ cancelled = false /\ exit_success st = true
       /\ lines = drop (length (map_while_ok stderr) - 50) (map_while_ok stderr))
  /\ (forall st text, wait_checked prog wait (Some stderr) cancelled = Err (ExecFailed prog st text) ->
       text = join (String newline "") (drop (length (map_while_ok stderr) - 50) (map_while_ok stderr)))
  /\ (forall st, wait = Ok st -> cancelled = true ->
       wait_checked prog wait (Some stderr) cancelled = Err (ExecCancelled prog)).
Proof.
  change 50%nat with STDERR_TAIL_LINES. rewrite <- !stderr_finish_spec.
  set (lines := stderr_finish (Some stderr)). destruct wait as [st|s]; cbn [wait_checked].
  - fold lines. destruct cancelled; [split_and!; [split; [done|]|done|done]|].
    + by intros (? & _ & ? & _).
    + destruct (exit_success st) eqn:Es; cbn [negb]; (split_and!; [split|..]); try done.
      * intros [= <-]. by exists st.
      * by intros (? & [= <-] & _ & _ & ->).
      * intros (? & [= <-] & _ & H & _). congruence.
      * by intros ? ? [= _ <-].
  - split_and!; [split; [done|]|done|done]. by intros (? & ? & _).
Qed.

(** A program that is found exists: an explicit path is used or refused,
    never replaced, and anything else found is a file, of this machine. *)
Theorem find_tool_sound `{Host} binary override p :
  find_tool binary override = Some p ->
  is_file p = true /\ (forall explicit, override = Some explicit -> p = explicit).
Proof.
  unfold find_tool. destruct override as [e|].
  - destruct (is_file e) eqn:Ee; [|done]. intros [= <-]. split; [done|]. by intros ? [= <-].
  - intros Hf. split; [|done]. destruct (search_path binary) as [q|] eqn:Es.
    + injection Hf as <-. apply search_path_file in Es. by apply andb_true_iff in Es as [? _].
    + destruct (List.find is_file _) as [q|] eqn:Ex.
      * injection Hf as <-. by apply find_is_Some in Ex as [_ ?].
      * apply first_some_inv in Hf as (base & _ & Hb). by eapply find_versioned_file.
Qed.

(** ** Witnesses *)

(** A machine with the PostgreSQL 9.6 and 16 directories of a Linux package and
    nothing on [PATH]. *)
Definition two_postgres : Host := {|
  is_file p := bool_decide (p = "/usr/lib/postgresql/9.6/bin/pg_dump")
               || bool_decide (p = "/usr/lib/postgresql/16/bin/pg_dump");
  exec_mode _ := true;
  path_var := Some ["/bin"];
  home_var := None;
  read_dir d := if String.eqb d "/usr/lib/postgresql" then Some [Some "16"; Some "9.6"] else None
|}.

(** The directories are compared as text, so 9.6 is taken before 16. *)
Lemma find_tool_takes_9_before_16 :
  @find_tool two_postgres "pg_dump" None = Some "/usr/lib/postgresql/9.6/bin/pg_dump".
Proof. vm_compute. reflexivity. Qed.

Lemma find_tool_sound_witness :
  @is_file two_postgres "/usr/lib/postgresql/9.6/bin/pg_dump" = true.
Proof.
  exact (proj1 (@find_tool_sound two_postgres "pg_dump" None _ find_tool_takes_9_before_16)).
Defined.

Lemma wait_checked_spec_witness :
  join (String newline "") (drop (2 - 50) ["a"; "b"]) = ("a" ++ String newline "b")%string.
Proof.
  destruct (wait_checked_spec (E := unit) "mysqldump" (Ok (mk_exit false "exit status: 2"))
    [Ok "a"; Ok "b"; Err tt; Ok "c"] false) as (_ & H & _).
  symmetry. exact (H "exit status: 2" _ eq_refl).
Defined.
