(* ===== verification/Tools.v ===== *)
(** * Tools: client binaries, on this machine or in a container
      (engine/src/tools.rs)

    How a tool is located and invoked, the mounts a containerised tool needs, the
    labels of running containers, and version checks.  Running a command is the
    parameter [run]; the machine is the [Host] interface of [Exec].  Paths are
    strings ([display] and [to_string_lossy] of a UTF-8 path are the identity). *)

From Stdlib Require Import ZArith Lia Ascii String List Bool.
From stdpp Require Import base list gmap strings.
From S2P Require Import Prelude Text Domain Exec.
Import ListNotations.

Open Scope string_scope.
Open Scope list_scope.
Open Scope Z_scope.

Inductive Tool :=
| Mysqldump | MysqlClient | Mydumper | Myloader
| PgDump | PgDumpall | PgRestore | Psql
| Mongodump | Mongorestore.

#[export] Instance Tool_eq : EqDecision Tool.
Proof. solve_decision. Defined.

Definition ALL_TOOLS : list Tool :=
  [Mysqldump; MysqlClient; Mydumper; Myloader; PgDump; PgDumpall; PgRestore; Psql;
   Mongodump; Mongorestore].

Definition binary_name (t : Tool) : string :=
  match t with
  | Mysqldump => "mysqldump" | MysqlClient => "mysql"
  | Mydumper => "mydumper" | Myloader => "myloader"
  | PgDump => "pg_dump" | PgDumpall => "pg_dumpall"
  | PgRestore => "pg_restore" | Psql => "psql"
  | Mongodump => "mongodump" | Mongorestore => "mongorestore"
  end.

Definition tool_engine (t : Tool) : Engine :=
  match t with
  | Mysqldump | MysqlClient | Mydumper | Myloader => Mysql
  | PgDump | PgDumpall | PgRestore | Psql => Postgres
  | Mongodump | Mongorestore => Mongo
  end.

Definition is_required (t : Tool) : bool :=
  match t with Mydumper | Myloader | PgDumpall => false | _ => true end.

Definition password_env (t : Tool) : option string :=
  match tool_engine t with
  | Mysql => Some "MYSQL_PWD"
  | Postgres => Some "PGPASSWORD"
  | Mongo => None
  end.

Definition brew_formula (t : Tool) : option string :=
  match t with
  | Mysqldump | MysqlClient => Some "mysql-client"
  | PgDump | PgDumpall | PgRestore | Psql => Some "libpq"
  | Mongodump | Mongorestore => Some "mongodb/brew/mongodb-database-tools"
  | Mydumper | Myloader => Some "mydumper"
  end.

(** ** Sources *)

Inductive ToolSource :=
| Local
| DockerExec (container : string) (bin_dir : option string)
| DockerRun (image : string).

Definition DOCKER_HOST_ALIAS : string := "host.docker.internal".

Definition is_docker (s : ToolSource) : bool :=
  match s with Local => false | _ => true end.

Definition preflight `{Host} (s : ToolSource) : result unit string :=
  if is_docker s && negb (is_some find_docker) then Err docker_missing_message else Ok tt.

Definition is_loopback (host : string) : bool :=
  let bare := trim_end_matches "]" (trim_start_matches "[" host) in
  is_some (match_str bare
    [("localhost", tt); ("127.0.0.1", tt); ("::1", tt); ("0.0.0.0", tt)])
  || starts_with "127." bare.

Definition rewrite_host (s : ToolSource) (host : string) : string :=
  if negb (is_docker s) || negb (is_loopback host) then host else DOCKER_HOST_ALIAS.

(** ** Resolved tools *)

Inductive Location :=
| LLocal (path : string)
| LDockerExec (container program : string)
| LDockerRun (image program : string).

Inductive MountMode := ReadOnly | ReadWrite.

Record Mount := mk_mount {
  m_host : string;
  m_container : string;
  m_mode : MountMode }.

Record ResolvedTool := mk_resolved {
  tool : Tool;
  location : Location;
  mounts : list Mount }.

Definition MOUNT_ROOT : string := "/mnt/dbsync".

Inductive MountError := NotSupported (tool what : string).

(** [Path::file_name]: the last ordinary component. *)
Definition file_name (path : string) : option string :=
  match rev (List.filter (fun c => negb (String.eqb c "") && negb (String.eqb c "."))
               (split_on "/" path)) with
  | c :: _ => if String.eqb c ".." then None else Some c
  | [] => None
  end.

Definition in_container_path (bin_dir : option string) (binary : string) : string :=
  match bin_dir with
  | Some d =>
      let d := trim d in
      if String.eqb d "" then binary else (trim_end_matches "/" d ++ "/" ++ binary)%string
  | None => binary
  end.

Definition resolve_location `{Host} (source : ToolSource) (binary : string) : option Location :=
  match source with
  | Local => option_map LLocal (find_tool binary None)
  | DockerExec container bin_dir => Some (LDockerExec container (in_container_path bin_dir binary))
  | DockerRun image => Some (LDockerRun image (in_container_path None binary))
  end.

Definition resolve `{Host} (t : Tool) (source : ToolSource) (override_path : option string)
    : option ResolvedTool :=
  match override_path with
  | Some explicit =>
      if is_file explicit then Some (mk_resolved t (LLocal explicit) []) else None
  | None => option_map (fun l => mk_resolved t l []) (resolve_location source (binary_name t))
  end.

(** The path the tool must use, and the tool with the mount recorded. *)
Definition mount (t : ResolvedTool) (host : string) (mode : MountMode)
    : result (string * ResolvedTool) MountError :=
  match location t with
  | LLocal _ => Ok (host, t)
  | LDockerExec _ _ =>
      Err (NotSupported (binary_name (tool t)) (default host (file_name host)))
  | LDockerRun _ _ =>
      let index := Z.of_nat (length (mounts t)) in
      let name := default "mounted" (file_name host) in
      let container := (MOUNT_ROOT ++ "/" ++ show index ++ "/" ++ name)%string in
      Ok (container,
          mk_resolved (tool t) (location t) (mounts t ++ [mk_mount host container mode]))
  end.

Definition mount_suffix (m : MountMode) : string :=
  match m with ReadOnly => ":ro" | ReadWrite => "" end.

Definition mount_args (t : ResolvedTool) : list string :=
  flat_map (fun m => ["-v"; (m_host m ++ ":" ++ m_container m ++ mount_suffix (m_mode m))%string])
    (mounts t).

Definition forwarded_env (t : ResolvedTool) : list string :=
  match password_env (tool t) with Some var => ["-e"; var] | None => [] end.

Definition docker_command `{Host} : ToolCommand := new_command (default "docker" find_docker).

Definition command `{Host} (t : ResolvedTool) : ToolCommand :=
  match location t with
  | LLocal path => new_command path
  | LDockerExec container prog =>
      add_args docker_command (["exec"; "-i"] ++ forwarded_env t ++ [container] ++ [prog])
  | LDockerRun image prog =>
      add_args docker_command
        (["run"; "--rm"; "-i"; ("--add-host=" ++ DOCKER_HOST_ALIAS ++ ":host-gateway")%string]
         ++ forwarded_env t ++ mount_args t ++ [image] ++ [prog])
  end.

Definition is_containerised (t : ResolvedTool) : bool :=
  match location t with LLocal _ => false | _ => true end.

Definition local_path (t : ResolvedTool) : option string :=
  match location t with LLocal p => Some p | _ => None end.

Definition tool_display (t : ResolvedTool) : string :=
  match location t with
  | LLocal p => p
  | LDockerExec container prog => ("docker exec " ++ container ++ " " ++ prog)%string
  | LDockerRun image prog => ("docker run " ++ image ++ " " ++ prog)%string
  end.

(** ** Versions *)

Record Version := mk_version { major : Z; minor : Z; patch : Z }.

Definition show_version (v : Version) : string :=
  (show (major v) ++ "." ++ show (minor v) ++ "." ++ show (patch v))%string.

Definition version_char (c : ascii) : bool := is_digit c || Ascii.eqb c ".".

(** The longest prefix of digits and dots. *)
Fixpoint version_token (s : string) : string :=
  match s with
  | String c r => if version_char c then String c (version_token r) else ""
  | EmptyString => ""
  end.

Definition version_of_token (token : string) : option Version :=
  let parts := List.filter (fun p => negb (String.eqb p "")) (split_on "." token) in
  let number (o : option string) := default 0 (match o with Some p => parse_u32 p | None => None end) in
  match parts with
  | [] => None
  | p :: rest =>
      match parse_u32 p with
      | Some major => Some (mk_version major (number (List.hd_error rest))
                                     (number (List.hd_error (List.tl rest))))
      | None => None
      end
  end.

Fixpoint parse_first (text : string) : option Version :=
  match text with
  | EmptyString => None
  | String c r =>
      if is_digit c then version_of_token (version_token text) else parse_first r
  end.

Inductive CompatibilityVerdict :=
| CompatOk
| CompatWarn (message : string)
| CompatBlocked (message : string).

Definition compat_is_ok (v : CompatibilityVerdict) : bool :=
  match v with CompatOk => true | _ => false end.

Definition check_pg_dump_compatibility (client server : Version) : CompatibilityVerdict :=
  if major client <? major server then
    CompatBlocked ("pg_dump " ++ show_version client ++ " is older than the server ("
      ++ show_version server ++ "); pg_dump cannot dump from a newer server. Install PostgreSQL "
      ++ show (major server) ++ " client tools.")%string
  else if major server <? major client then
    CompatWarn ("pg_dump " ++ show_version client ++ " is newer than the server ("
      ++ show_version server ++ "). The dump will succeed, but it may contain directives this "
      ++ "server version does not understand, so restoring it back into a PostgreSQL "
      ++ show (major server) ++ " server can fail. Use PostgreSQL " ++ show (major server)
      ++ " client tools to match the server.")%string
  else CompatOk.

Definition mysql_needs_column_statistics_flag (client server : Version) : bool :=
  (8 <=? major client) && (major server <? 8).

Definition check_mongodump_compatibility (client server : Version) : CompatibilityVerdict :=
  if major client <? 100 then
    CompatWarn ("mongodump " ++ show_version client ++ " predates the MongoDB Database Tools, "
      ++ "which were split out at server 4.4 and are versioned separately from the server ("
      ++ show_version server ++ "). Install the Database Tools (a 100.x mongodump) unless this "
      ++ "old binary is deliberate.")%string
  else CompatOk.

(** ** Discovery and containers *)

Section Run.
Context `{Host}.
Variable run : ToolCommand -> result string ExecError.

Definition probe_version (t : ResolvedTool) : option Version :=
  match run (add_arg (command t) "--version") with
  | Ok text => parse_first text
  | Err _ => None
  end.

Record ToolStatus := mk_status {
  st_tool : Tool;
  st_binary : string;
  st_location : option string;
  st_version : option string;
  st_required : bool;
  st_brew_formula : option string }.

Definition found (s : ToolStatus) : bool := is_some (st_location s).

Definition discover_one (source : ToolSource) (t : Tool) : ToolStatus :=
  let resolved := resolve t source None in
  let version := match resolved with Some r => probe_version r | None => None end in
  let present :=
    match resolved with Some r => negb (is_containerised r) || is_some version | None => false end in
  mk_status t (binary_name t)
    (match resolved with Some r => if present then Some (tool_display r) else None | None => None end)
    (option_map show_version version) (is_required t) (brew_formula t).

Definition discover (source : ToolSource) : list ToolStatus := map (discover_one source) ALL_TOOLS.

Record Listed := mk_listed { l_id : string; l_name : string; l_image : string }.

Record DockerContainer := mk_container { dc_name : string; dc_image : string }.

Definition tab : ascii := "009".

Definition parse_ps_line (line : string) : option Listed :=
  match split_on tab line with
  | id :: name :: image :: _ =>
      if String.eqb (trim name) "" then None
      else Some (mk_listed (trim id) (trim name) (trim image))
  | _ => None
  end.

Fixpoint filter_map {A B} (f : A -> option B) (l : list A) : list B :=
  match l with
  | [] => []
  | a :: l' => match f a with Some b => b :: filter_map f l' | None => filter_map f l' end
  end.

Definition parse_ps (text : string) : list Listed := filter_map parse_ps_line (lines text).

Definition is_hexdigit (c : ascii) : bool :=
  is_digit c || in_range 65 70 (code c) || in_range 97 102 (code c).

Definition is_image_reference (image : string) : bool :=
  let image := trim image in
  negb (String.eqb image "") && negb (starts_with "sha256:" image)
  && negb (all_chars is_hexdigit image).

Definition pick_image (row : Listed) (created_from : list (string * string)) : string :=
  if is_image_reference (l_image row) then l_image row
  else
    match List.find (fun p => negb (String.eqb (l_id row) "") && starts_with (l_id row) p.1)
            created_from with
    | Some (_, image) => if is_image_reference (trim image) then trim image else l_image row
    | None => l_image row
    end.

Definition parse_inspect_line (line : string) : option (string * string) :=
  match split_once tab line with
  | Some (id, image) => Some (trim id, trim image)
  | None => None
  end.

Definition inspect_created_from (prog : string) (rows : list Listed) : list (string * string) :=
  match rows with
  | [] => []
  | _ =>
      let args := ["inspect"; "--format"; ("{{.Id}}" ++ String tab "{{.Config.Image}}")%string]
                  ++ map l_id rows in
      match run (add_args (new_command prog) args) with
      | Ok out => filter_map parse_inspect_line (lines out)
      | Err _ => []
      end
  end.

Definition docker_containers : result (list DockerContainer) string :=
  let? docker := ok_or find_docker docker_missing_message in
  let? listed := map_err
    (run (add_args (new_command docker)
       ["ps"; "--format"; ("{{.ID}}" ++ String tab ("{{.Names}}" ++ String tab "{{.Image}}"))%string]))
    (fun e => "could not ask Docker what is running: " ++ exec_error_text e)%string in
  let rows := parse_ps listed in
  let rows :=
    if existsb (fun r => negb (is_image_reference (l_image r))) rows then
      let created_from := inspect_created_from docker rows in
      map (fun r => mk_listed (l_id r) (l_name r) (pick_image r created_from)) rows
    else rows in
  Ok (map (fun r => mk_container (l_name r) (l_image r)) rows).

Definition brew_install (formula : string) : result string string :=
  if negb (existsb (fun t => bool_decide (brew_formula t = Some formula)) ALL_TOOLS)
  then Err (formula ++ " is not a formula this app installs")%string
  else
    let? brew := ok_or (find_tool "brew" None) "Homebrew is not installed on this machine" in
    map_err (run (add_args (new_command brew) ["install"; formula]))
      (fun e => formula ++ " failed to install: " ++ exec_error_text e)%string.
End Run.

(** ** Mounts *)

(** Hand a list of paths to a tool, one after the other. *)
Fixpoint mount_all (t : ResolvedTool) (l : list (string * MountMode))
    : result (list string * ResolvedTool) MountError :=
  match l with
  | [] => Ok ([], t)
  | (host, mode) :: l' =>
      let? (p, t1) := mount t host mode in
      let? (ps, t2) := mount_all t1 l' in
      Ok (p :: ps, t2)
  end.

Definition mount_path (i : Z) (name : string) : string :=
  (MOUNT_ROOT ++ "/" ++ show i ++ "/" ++ name)%string.

Lemma mount_path_inj i j a b :
  0 <= i -> 0 <= j -> mount_path i a = mount_path j b -> i = j.
Proof.
  intros Hi Hj E. apply append_inj_l, append_inj_l in E.
  assert (forall k, contains_char "/" (show k) = false) as Hk
    by (intros k; apply digits_no_char; [done|apply show_all_digits]).
  pose proof (split_once_app "/" (show i) a (Hk i)) as Ha.
  change ("/" ++ a)%string with (String "/" a) in E.
  change ("/" ++ b)%string with (String "/" b) in E.
  rewrite E, split_once_app in Ha by apply Hk. injection Ha as Hs _. by apply show_inj.
Qed.

(** Every mount sits under the directory numbered by its place. *)
Definition mounts_ok (l : list Mount) : Prop :=
  forall i m, l !! i = Some m -> exists name, m_container m = mount_path (Z.of_nat i) name.

Lemma mounts_ok_NoDup l : mounts_ok l -> NoDup (map m_container l).
Proof.
  intros Hl. apply NoDup_alt. intros i j p Hi Hj.
  apply list_lookup_fmap_Some in Hi as (a & -> & Ha).
  apply list_lookup_fmap_Some in Hj as (b & E & Hb).
  destruct (Hl _ _ Ha) as (na & Ea), (Hl _ _ Hb) as (nb & Eb). rewrite Ea, Eb in E.
  apply mount_path_inj in E; lia.
Qed.

Lemma mounts_ok_snoc l m name :
  mounts_ok l -> m_container m = mount_path (Z.of_nat (length l)) name -> mounts_ok (l ++ [m]).
Proof.
  intros Hl Hm i m' Hi. apply lookup_app_Some in Hi as [Hi|[Hle Hi]]; [by apply Hl|].
  apply list_lookup_singleton_Some in Hi as [Hi <-].
  replace i with (length l) by lia. eauto.
Qed.

Lemma mount_docker_run image prog t host mode :
  location t = LDockerRun image prog ->
  let p := mount_path (Z.of_nat (length (mounts t))) (default "mounted" (file_name host)) in
  mount t host mode =
  Ok (p, mk_resolved (tool t) (location t) (mounts t ++ [mk_mount host p mode])).
Proof. intros Ht. unfold mount. by rewrite Ht. Qed.

Lemma mount_all_docker_run image prog l : forall t,
  location t = LDockerRun image prog -> mounts_ok (mounts t) ->
  exists ps t', mount_all t l = Ok (ps, t')
    /\ tool t' = tool t /\ location t' = location t /\ mounts_ok (mounts t')
    /\ exists new, mounts t' = mounts t ++ new /\ map m_container new = ps
         /\ map (fun m => (m_host m, m_mode m)) new = l.
Proof.
  induction l as [|[host mode] l IH]; intros t Ht Hok; cbn [mount_all].
  { exists [], t. split_and!; try done. exists []. by rewrite app_nil_r. }
  rewrite (mount_docker_run image prog) by done. cbn [rbind].
  set (p := mount_path _ _). set (m := mk_mount host p mode).
  destruct (IH (mk_resolved (tool t) (location t) (mounts t ++ [m])))
    as (ps & t' & E & Htool & Hloc & Hok' & new & Hnew & Hps & Hl); [done|..].
  { by eapply mounts_ok_snoc. }
  rewrite E. cbn [rbind]. exists (p :: ps), t'. simpl in *.
  split_and!; try done. exists (m :: new). simpl. rewrite Hps, Hl, Hnew.
  split_and!; try done. by rewrite <- app_assoc.
Qed.

(** ** Versions *)

Lemma version_token_app s t :
  all_chars version_char s = true ->
  (forall c r, t = String c r -> version_char c = false) -> version_token (s ++ t) = s.
Proof.
  intros Hs Ht. induction s as [|c s IH]; simpl in *.
  - destruct t as [|c r]; [done|]. simpl. by rewrite (Ht c r).
  - apply andb_true_iff in Hs as [Hc Hs]. by rewrite Hc, IH.
Qed.

Lemma all_chars_impl (f g : ascii -> bool) s :
  (forall c, f c = true -> g c = true) -> all_chars f s = true -> all_chars g s = true.
Proof.
  intros Hfg. induction s as [|c s IH]; simpl; [done|]. intros [Hc Hs]%andb_true_iff.
  by rewrite Hfg, IH.
Qed.

Lemma show_version_chars n : all_chars version_char (show n) = true.
Proof.
  eapply all_chars_impl; [|apply show_all_digits]. intros c Hc. unfold version_char. by rewrite Hc.
Qed.

Lemma show_not_empty n : String.eqb (show n) "" = false.
Proof. by destruct (show_head n) as (c & r & -> & _). Qed.

Lemma split_show_version v :
  split_on "." (show_version v) = [show (major v); show (minor v); show (patch v)].
Proof.
  apply (split_on_join "." [show (major v); show (minor v); show (patch v)]); [done|].
  repeat constructor; apply digits_no_char; done || apply show_all_digits.
Qed.

Definition u32 (x : Z) : Prop := 0 <= x <= u32_max.

Lemma version_of_token_show v :
  u32 (major v) -> u32 (minor v) -> u32 (patch v) -> version_of_token (show_version v) = Some v.
Proof.
  intros Ha Hb Hc. unfold version_of_token. rewrite split_show_version.
  cbn [List.filter]. rewrite !show_not_empty. cbn [negb List.hd_error List.tl].
  unfold parse_u32. rewrite !parse_uint_show by done. by destruct v.
Qed.

Lemma parse_first_skip p s :
  all_chars (fun c => negb (is_digit c)) p = true -> parse_first (p ++ s) = parse_first s.
Proof.
  induction p as [|c p IH]; simpl; [done|]. intros [Hc Hp]%andb_true_iff.
  apply negb_true_iff in Hc. by rewrite Hc, IH.
Qed.

(** ** Properties *)

(** The paths handed to a tool reach it.  A local tool gets them unchanged
    and a borrowed container refuses them; a throwaway container gets a distinct
    path for each one, and its command line binds each of them, in order and
    before the image name, to that path, read-only unless it is an output. *)
Theorem mounts_reach_the_tool `{Host} t l :
  mounts t = [] ->
  match location t with
  | LLocal _ => mount_all t l = Ok (map fst l, t)
  | LDockerExec _ _ => is_ok (mount_all t l) = bool_decide (l = [])
  | LDockerRun image prog =>
      exists ps t', mount_all t l = Ok (ps, t')
        /\ NoDup ps /\ length ps = length l
        /\ exists before, args (command t') = before
             ++ flat_map (fun '(host, mode, p) =>
                  ["-v"; (host ++ ":" ++ p ++ mount_suffix mode)%string]) (List.combine l ps)
             ++ [image; prog]
  end.
Proof.
  intros Hm. destruct (location t) as [path|c p|image prog] eqn:El.
  - revert t El Hm. induction l as [|[host mode] l IH]; intros t El Hm; [done|].
    cbn [mount_all]. unfold mount. rewrite El. cbn [rbind]. by rewrite IH.
  - destruct l as [|[host mode] l]; [done|]. cbn [mount_all]. unfold mount. by rewrite El.
  - destruct (mount_all_docker_run image prog l t El) as
      (ps & t' & E & Ht & Hloc & Hok & new & Hnew & Hps & Hl).
    { rewrite Hm. by intros i m Hi; rewrite lookup_nil in Hi. }
    rewrite Hm in Hnew. simpl in Hnew. exists ps, t'. split_and!; [done|..].
    + rewrite <- Hps, <- Hnew. by apply mounts_ok_NoDup.
    + rewrite <- Hps, <- Hl. by rewrite !length_map.
    + rewrite El in Hloc. unfold command. rewrite Hloc. cbn [args add_args].
      assert (mount_args t' = flat_map (fun '(host, mode, p) =>
        ["-v"; (host ++ ":" ++ p ++ mount_suffix mode)%string]) (List.combine l ps)) as ->.
      { unfold mount_args. rewrite Hnew, <- Hps, <- Hl. clear.
        induction new as [|m new IH]; [done|]. cbn [flat_map map List.combine]. by rewrite IH. }
      eexists. rewrite !app_assoc. rewrite <- (app_assoc _ [image] [prog]). reflexivity.
Qed.

(** The version a tool prints is the version read: in any output whose first
    digit starts a version, up to a character that cannot continue it, that
    version is the one found. *)
Theorem version_round_trip prefix v rest :
  all_chars (fun c => negb (is_digit c)) prefix = true ->
  u32 (major v) -> u32 (minor v) -> u32 (patch v) ->
  (forall c r, rest = String c r -> version_char c = false) ->
  parse_first (prefix ++ show_version v ++ rest)%string = Some v.
Proof.
  intros Hp Ha Hb Hc Hr. rewrite parse_first_skip by done.
  assert (exists c r, (show_version v ++ rest)%string = String c r /\ is_digit c = true) as (c & r & E & Hd).
  { destruct (show_head (major v)) as (c & r & E & Hd). unfold show_version. rewrite E. simpl. eauto. }
  rewrite E. cbn [parse_first]. rewrite Hd, <- E, version_token_app.
  - by apply version_of_token_show.
  - unfold show_version. by rewrite !all_chars_app, !show_version_chars.
  - done.
Qed.

(** ** Witnesses *)

(** A machine with nothing installed, to run the definitions on. *)
Definition empty_host : Host :=
  {| is_file _ := false; exec_mode _ := false; path_var := None; home_var := None;
     read_dir _ := None |}.

Definition sample_tool : ResolvedTool := mk_resolved PgRestore (LDockerRun "postgres:16" "pg_restore") [].

Lemma mounts_reach_the_tool_witness :
  is_ok (mount_all sample_tool [("/b/app.dump", ReadOnly); ("/c/app.dump", ReadOnly)]) = true.
Proof.
  destruct (@mounts_reach_the_tool empty_host sample_tool
    [("/b/app.dump", ReadOnly); ("/c/app.dump", ReadOnly)] eq_refl) as (ps & t' & E & _).
  exact (f_equal is_ok E).
Defined.

Example sample_mounts :
  match mount_all sample_tool [("/b/app.dump", ReadOnly); ("/out/", ReadWrite)] with
  | Ok (ps, t) => (ps, args (@command empty_host t))
  | Err _ => ([], [])
  end =
  (["/mnt/dbsync/0/app.dump"; "/mnt/dbsync/1/out"],
   ["run"; "--rm"; "-i"; "--add-host=host.docker.internal:host-gateway"; "-e"; "PGPASSWORD";
    "-v"; "/b/app.dump:/mnt/dbsync/0/app.dump:ro"; "-v"; "/out/:/mnt/dbsync/1/out";
    "postgres:16"; "pg_restore"]).
Proof. reflexivity. Qed.

Lemma mysqldump_banner :
  ("mysqldump  Ver " ++ show_version (mk_version 8 0 42) ++ " for osx10.19")%string =
  "mysqldump  Ver 8.0.42 for osx10.19".
Proof. vm_compute. reflexivity. Qed.

Lemma space_ends_version c r : " for osx10.19" = String c r -> version_char c = false.
Proof. intros [= <- _]. reflexivity. Qed.

Lemma version_round_trip_witness :
  parse_first "mysqldump  Ver 8.0.42 for osx10.19" = Some (mk_version 8 0 42).
Proof.
  rewrite <- mysqldump_banner. apply version_round_trip.
  - reflexivity.
  - unfold u32, u32_max. simpl. lia.
  - unfold u32, u32_max. simpl. lia.
  - unfold u32, u32_max. simpl. lia.
  - exact space_ends_version.
Defined.

Example mariadb_version :
  parse_first "mysqldump Ver 10.19 Distrib 10.11.6-MariaDB" = Some (mk_version 10 19 0).
Proof. reflexivity. Qed.
