(* ===== verification/Retention.v ===== *)
(** * Retention: which artifacts a policy deletes (engine/src/retention.rs)

    [plan_retention] sorts the artifacts newest first and splits them into the
    ones kept and the ones deleted.  Instants are nanoseconds ([Time]); the
    subtraction [now - Duration::days(n)] panics below the earliest
    representable instant, so the plan is an [exec]. *)

From Stdlib Require Import ZArith Lia String List Bool Permutation Sorted.
From stdpp Require Import base list.
From S2P Require Import Prelude Text Time.
Import ListNotations.

Open Scope string_scope.
Open Scope list_scope.
Open Scope Z_scope.

Record RetentionPolicy := mk_policy {
  keep_last : option Z;
  max_age_days : option Z }.

Definition policy_is_enabled (p : RetentionPolicy) : bool :=
  is_some (keep_last p) || is_some (max_age_days p).

Record RetentionCandidate := mk_candidate {
  path : string;
  created_at : Z;
  size_bytes : Z }.

Record RetentionPlan := mk_plan {
  keep : list RetentionCandidate;
  delete : list RetentionCandidate;
  bytes_reclaimed : Z }.

Section Plan.
Context `{Calendar}.

(** [now - Duration::days(d)]. *)
Definition sub_days (now d : Z) : exec Z :=
  if instant_min <=? now - days d then Val (now - days d) else Panic.

Definition age_cutoff (policy : RetentionPolicy) (now : Z) : exec (option Z) :=
  match max_age_days policy with
  | None => Val None
  | Some d => match sub_days now d with Val c => Val (Some c) | Panic => Panic end
  end.

(** The test of the loop body: does the artifact at this index go? *)
Definition expired (policy : RetentionPolicy) (cutoff : option Z)
    (index : nat) (c : RetentionCandidate) : bool :=
  let is_newest := Nat.eqb index 0 in
  let over_count :=
    match keep_last policy with Some n => Z.max n 1 <=? Z.of_nat index | None => false end in
  let too_old := match cutoff with Some t => created_at c <? t | None => false end in
  negb is_newest && (over_count || too_old).

(** The loop, pushing each artifact on one of two vectors. *)
Fixpoint split_expired (policy : RetentionPolicy) (cutoff : option Z) (index : nat)
    (l keep delete : list RetentionCandidate)
  : list RetentionCandidate * list RetentionCandidate :=
  match l with
  | [] => (keep, delete)
  | c :: l' =>
      if expired policy cutoff index c
      then split_expired policy cutoff (S index) l' keep (delete ++ [c])
      else split_expired policy cutoff (S index) l' (keep ++ [c]) delete
  end.

Definition sum_sizes (l : list RetentionCandidate) : Z :=
  fold_left (fun acc c => wrap 64 (acc + size_bytes c)) l 0.

Definition plan_retention (candidates : list RetentionCandidate)
    (policy : RetentionPolicy) (now : Z) : exec RetentionPlan :=
  let candidates := sort_desc created_at candidates in
  if negb (policy_is_enabled policy) || Nat.eqb (length candidates) 0 then
    Val (mk_plan candidates [] 0)
  else
    match age_cutoff policy now with
    | Panic => Panic
    | Val cutoff =>
        let '(keep, delete) := split_expired policy cutoff 0 candidates [] [] in
        Val (mk_plan keep delete (sum_sizes delete))
    end.

(** ** The loop keeps a prefix *)

(** Once one artifact expires, every later (older) one does. *)
Lemma expired_mono policy cutoff i j a b :
  created_at b <= created_at a -> (i <= j)%nat ->
  expired policy cutoff i a = true -> expired policy cutoff j b = true.
Proof.
  unfold expired. intros Hab Hij Hex.
  apply andb_true_iff in Hex as [Hi Hex]. apply negb_true_iff, Nat.eqb_neq in Hi.
  apply andb_true_iff. split; [apply negb_true_iff, Nat.eqb_neq; lia|].
  apply orb_true_iff in Hex. apply orb_true_iff. destruct Hex as [Hc|Ho]; [left|right].
  - destruct (keep_last policy); [|done]. apply Z.leb_le in Hc. apply Z.leb_le. lia.
  - destruct cutoff; [|done]. apply Z.ltb_lt in Ho. apply Z.ltb_lt. lia.
Qed.

Lemma split_all_expired policy cutoff i l k d :
  (forall j c, l !! j = Some c -> expired policy cutoff (i + j) c = true) ->
  split_expired policy cutoff i l k d = (k, d ++ l).
Proof.
  revert i d. induction l as [|c l IH]; intros i d Hl; simpl; [by rewrite app_nil_r|].
  rewrite <- (Nat.add_0_r i) at 1. rewrite (Hl 0%nat c) by done.
  rewrite IH; [by rewrite <- app_assoc|].
  intros j c' Hj. rewrite Nat.add_succ_comm. by apply Hl.
Qed.

Lemma split_expired_prefix policy cutoff i l k d :
  desc created_at l ->
  exists n, split_expired policy cutoff i l k d = (k ++ take n l, d ++ drop n l)
    /\ (n <= length l)%nat
    /\ (forall j c, l !! j = Some c -> expired policy cutoff (i + j) c = negb (Nat.ltb j n)).
Proof.
  intros Hs. revert i k d. induction Hs as [|c l Hs IH Hc]; intros i k d.
  { exists 0%nat. simpl. rewrite !app_nil_r. split_and!; [done|lia|naive_solver]. }
  simpl. destruct (expired policy cutoff i c) eqn:E.
  - exists 0%nat. rewrite split_all_expired; [|intros j c' Hj].
    + split_and!; [by rewrite app_nil_r, <- app_assoc|lia|].
      intros j c' Hj. simpl. eapply expired_mono; [| |exact E]; [|lia].
      destruct j as [|j]; simplify_eq/=; [lia|].
      rewrite Forall_forall in Hc. by apply Hc, (list_elem_of_lookup_2 _ j).
    + eapply expired_mono; [| |exact E]; [|lia].
      rewrite Forall_forall in Hc. by apply Hc, (list_elem_of_lookup_2 _ j).
  - destruct (IH (S i) (k ++ [c]) d) as (n & Hn & Hle & Hl).
    exists (S n). rewrite Hn. simpl. rewrite <- app_assoc. split_and!; [done|lia|].
    intros [|j] c' Hj; simplify_eq/=; [by rewrite Nat.add_0_r|].
    rewrite <- Nat.add_succ_comm. by apply Hl.
Qed.

(** The shape of every plan: a cut of the sorted list. *)
Lemma plan_retention_cut l policy now p :
  plan_retention l policy now = Val p ->
  exists n, keep p = take n (sort_desc created_at l)
    /\ delete p = drop n (sort_desc created_at l)
    /\ (n <= length (sort_desc created_at l))%nat
    /\ (forall cutoff, policy_is_enabled policy = true -> age_cutoff policy now = Val cutoff ->
        forall j c, sort_desc created_at l !! j = Some c ->
          expired policy cutoff j c = negb (Nat.ltb j n)).
Proof.
  unfold plan_retention. intros H0. set (s := sort_desc created_at l) in *.
  destruct (negb (policy_is_enabled policy) || Nat.eqb (length s) 0) eqn:E.
  - injection H0 as <-. exists (length s). rewrite take_ge, drop_ge by lia. simpl.
    split_and!; [done|done|lia|]. intros cutoff He _ j c Hj. rewrite He in E. simpl in E.
    apply Nat.eqb_eq in E. apply lookup_lt_Some in Hj. lia.
  - destruct (age_cutoff policy now) as [cutoff|] eqn:Hc; [|done].
    destruct (split_expired_prefix policy cutoff 0 s [] []
      (sort_desc_sorted created_at l)) as (n & Hn & Hle & Hl).
    rewrite Hn in H0. injection H0 as <-. exists n. split_and!; [done|done|done|].
    intros cutoff' _ [= <-]. apply Hl.
Qed.

Lemma sum_sizes_exact l acc :
  0 <= acc -> Forall (fun c => 0 <= size_bytes c) l ->
  acc + foldr (fun c s => size_bytes c + s) 0 l < 2 ^ 64 ->
  fold_left (fun acc c => wrap 64 (acc + size_bytes c)) l acc =
  acc + foldr (fun c s => size_bytes c + s) 0 l.
Proof.
  intros Hacc Hl. revert acc Hacc.
  induction Hl as [|c l Hc Hl IH]; intros acc Hacc Hb; cbn [fold_left foldr] in *; [lia|].
  assert (0 <= foldr (fun c s => size_bytes c + s) 0 l).
  { clear -Hl. induction Hl; cbn [foldr]; lia. }
  unfold wrap at 2. rewrite Z.mod_small by lia. rewrite IH; lia.
Qed.

Lemma expired_iff policy now cutoff j c :
  age_cutoff policy now = Val cutoff ->
  expired policy cutoff j c = true <->
  j <> 0%nat
  /\ ((exists k, keep_last policy = Some k /\ Z.max k 1 <= Z.of_nat j)
      \/ (exists d, max_age_days policy = Some d /\ created_at c < now - days d)).
Proof.
  unfold age_cutoff, sub_days, expired. intros Hc.
  rewrite andb_true_iff, orb_true_iff, negb_true_iff, Nat.eqb_neq.
  apply and_iff_compat_l. f_equiv.
  - destruct (keep_last policy); rewrite ?Z.leb_le; naive_solver.
  - destruct (max_age_days policy) as [d|]; [|simplify_eq; naive_solver].
    destruct (instant_min <=? now - days d); [|done]. injection Hc as <-.
    rewrite Z.ltb_lt. naive_solver.
Qed.

Lemma age_cutoff_Val policy now :
  (forall d, max_age_days policy = Some d -> instant_min <= now - days d) ->
  exists cutoff, age_cutoff policy now = Val cutoff.
Proof.
  unfold age_cutoff, sub_days. destruct (max_age_days policy) as [d|]; [|eauto].
  intros Hd. specialize (Hd d eq_refl).
  destruct (instant_min <=? now - days d) eqn:E; [eauto|]. bools. lia.
Qed.
(** The first of the sorted artifacts is kept. *)
Lemma newest_is_kept l policy now p :
  l <> [] -> plan_retention l policy now = Val p ->
  exists c, head (keep p) = Some c /\ forall a, In a l -> created_at a <= created_at c.
Proof.
  intros Hl Hp. pose proof (plan_retention_cut _ _ _ _ Hp) as (n & Hk & _ & _ & Hex).
  pose proof (sort_desc_perm created_at l) as Hperm.
  pose proof (sort_desc_sorted created_at l) as Hs.
  set (s := sort_desc created_at l) in *.
  destruct s as [|c s'] eqn:Es; [by apply Permutation_nil in Hperm|].
  assert (n <> 0%nat) as Hn0.
  { intros ->. unfold plan_retention in Hp. fold s in Hp. rewrite Es in Hp.
    case_match eqn:E; [injection Hp as <-; simpl in Hk; done|].
    apply orb_false_iff in E as [E _]. apply negb_false_iff in E.
    destruct (age_cutoff policy now) as [cutoff|]; [|done].
    pose proof (Hex cutoff E eq_refl 0%nat c eq_refl) as Hx. done. }
  exists c. rewrite Hk. destruct n as [|n]; [done|]. split; [done|].
  intros a Ha. apply (Permutation_in _ (Permutation_sym Hperm)) in Ha.
  inversion Hs as [|? ? _ Hall]; subst. destruct Ha as [->|Ha]; [lia|].
  rewrite List.Forall_forall in Hall. by apply Hall.
Qed.
End Plan.

(** ** Properties *)

Section Properties.
Context `{Calendar}.

(** C2: whatever the policy says, a plan over a non-empty set of artifacts
    keeps a newest one, deletes nothing newer than what it keeps, and neither
    invents nor loses an artifact. *)
Theorem retention_never_deletes_newest l policy now p :
  l <> [] -> plan_retention l policy now = Val p ->
  Permutation (keep p ++ delete p) l
  /\ (exists c, head (keep p) = Some c /\ forall a, In a l -> created_at a <= created_at c)
  /\ (forall a b, In a (keep p) -> In b (delete p) -> created_at b <= created_at a).
Proof.
  intros Hl Hp. pose proof (plan_retention_cut _ _ _ _ Hp) as (n & Hk & Hd & Hn & Hex).
  pose proof (sort_desc_perm created_at l) as Hperm.
  pose proof (sort_desc_sorted created_at l) as Hs.
  set (s := sort_desc created_at l) in *.
  split; [by rewrite Hk, Hd, take_drop|]. split.
  - by eapply newest_is_kept.
  - intros a b Ha Hb. rewrite Hk in Ha. rewrite Hd in Hb.
    apply list_elem_of_In, list_elem_of_lookup in Ha as [i Hi].
    apply list_elem_of_In, list_elem_of_lookup in Hb as [j Hj].
    rewrite lookup_take in Hi. rewrite lookup_drop in Hj. case_decide; [|done].
    eapply desc_nth; [exact Hs|exact Hi|exact Hj|lia].
Qed.

(** A plan splits the candidates: with distinct paths, none is both kept and deleted. *)
Lemma planned_in l policy now p c :
  plan_retention l policy now = Val p -> In c (keep p) \/ In c (delete p) -> In c l.
Proof.
  intros (n & -> & -> & _)%plan_retention_cut Hc. apply (Permutation_in _ (sort_desc_perm created_at l)).
  rewrite <- (take_drop n (sort_desc created_at l)). by apply in_app_iff.
Qed.

Lemma kept_not_deleted l policy now p c :
  NoDup (map path l) -> plan_retention l policy now = Val p -> In c (keep p) -> ~ In (path c) (map path (delete p)).
Proof.
  intros Hnd (n & -> & -> & _)%plan_retention_cut Hc.
  rewrite <- (Permutation_map path (sort_desc_perm created_at l)), <- (take_drop n (sort_desc created_at l)), map_app in Hnd.
  apply NoDup_app in Hnd as (_ & Hdisj & _). rewrite <- list_elem_of_In. apply Hdisj, list_elem_of_In. by apply in_map.
Qed.

(** An enabled policy deletes exactly the artifacts, counted from the
    newest, that are past [keep_last] (read as at least one) or older than
    [max_age_days]; the first is exempt.  The bytes reported as reclaimed are
    the sum of the deleted sizes whenever that sum fits 64 bits. *)
Theorem retention_deletes_exactly l policy now p :
  policy_is_enabled policy = true -> plan_retention l policy now = Val p ->
  Forall (fun c => 0 <= size_bytes c) l ->
  foldr (fun c s => size_bytes c + s) 0 (delete p) < 2 ^ 64 ->
  exists n,
    keep p = take n (sort_desc created_at l)
    /\ delete p = drop n (sort_desc created_at l)
    /\ (forall j c, sort_desc created_at l !! j = Some c ->
        (n <= j)%nat <->
        j <> 0%nat
        /\ ((exists k, keep_last policy = Some k /\ Z.max k 1 <= Z.of_nat j)
            \/ (exists d, max_age_days policy = Some d /\ created_at c < now - days d)))
    /\ bytes_reclaimed p = foldr (fun c s => size_bytes c + s) 0 (delete p).
Proof.
  intros He Hp Hpos Hsum. pose proof (plan_retention_cut _ _ _ _ Hp) as (n & Hk & Hd & Hn & Hex).
  exists n. split; [done|]. split; [done|]. split.
  - intros j c Hj. unfold plan_retention in Hp. rewrite He in Hp.
    pose proof (lookup_lt_Some _ _ _ Hj). simpl in Hp.
    rewrite (proj2 (Nat.eqb_neq _ _)) in Hp by lia.
    destruct (age_cutoff policy now) as [cutoff|] eqn:Hc; [|done].
    specialize (Hex cutoff He eq_refl j c Hj). rewrite <- (expired_iff _ _ _ _ _ Hc), Hex.
    rewrite negb_true_iff, Nat.ltb_ge. done.
  - unfold plan_retention in Hp. case_match eqn:E; [by injection Hp as <-|].
    destruct (age_cutoff policy now) as [cutoff|]; [|done].
    destruct (split_expired _ _ _ _ _ _) as [ks ds]. injection Hp as <-. simpl in *.
    unfold sum_sizes. rewrite sum_sizes_exact; [lia|lia| |lia].
    rewrite Hd. apply Forall_drop. by rewrite sort_desc_perm.
Qed.

(** The plan is total except that an age limit reaching below the
    earliest representable instant panics. *)
Theorem retention_panics_iff l policy now :
  plan_retention l policy now = Panic <->
  l <> [] /\ exists d, max_age_days policy = Some d /\ now - days d < instant_min.
Proof.
  unfold plan_retention. rewrite (Permutation_length (sort_desc_perm created_at l)).
  unfold policy_is_enabled, age_cutoff, sub_days.
  destruct l as [|c l]; simpl length; [rewrite orb_true_r; naive_solver|].
  rewrite orb_false_r. destruct (max_age_days policy) as [d|].
  - rewrite orb_true_r. simpl. destruct (Z.leb_spec instant_min (now - days d)).
    + destruct (split_expired _ _ _ _ _ _). split; [done|]. intros (_ & d' & [= <-] & ?). lia.
    + split; [|done]. intros _. split; [done|]. by exists d.
  - rewrite orb_false_r. destruct (negb _); [naive_solver|].
    destruct (split_expired _ _ _ _ _ _). naive_solver.
Qed.
End Properties.

(** ** Witnesses *)

(** Three artifacts, unsorted, under "keep two, thirty days". *)
Definition sample_artifacts : list RetentionCandidate :=
  [mk_candidate "b5" (days 5) 10; mk_candidate "b40" (days 40) 20; mk_candidate "b2" (days 2) 30].

Definition sample_policy : RetentionPolicy := mk_policy (Some 2) (Some 30).

Example sample_plan :
  plan_retention sample_artifacts sample_policy (days 41) =
  Val (mk_plan [mk_candidate "b40" (days 40) 20]
        [mk_candidate "b5" (days 5) 10; mk_candidate "b2" (days 2) 30] 40).
Proof. reflexivity. Qed.

Lemma retention_never_deletes_newest_witness :
  Permutation ([mk_candidate "b40" (days 40) 20]
    ++ [mk_candidate "b5" (days 5) 10; mk_candidate "b2" (days 2) 30]) sample_artifacts.
Proof.
  exact (proj1 (retention_never_deletes_newest sample_artifacts sample_policy (days 41)
    (mk_plan [mk_candidate "b40" (days 40) 20]
      [mk_candidate "b5" (days 5) 10; mk_candidate "b2" (days 2) 30] 40)
    ltac:(discriminate) sample_plan)).
Defined.

Lemma retention_deletes_exactly_witness :
  exists n, keep (mk_plan [mk_candidate "b40" (days 40) 20]
        [mk_candidate "b5" (days 5) 10; mk_candidate "b2" (days 2) 30] 40)
    = take n (sort_desc created_at sample_artifacts).
Proof.
  destruct (retention_deletes_exactly sample_artifacts sample_policy (days 41)
    (mk_plan [mk_candidate "b40" (days 40) 20]
      [mk_candidate "b5" (days 5) 10; mk_candidate "b2" (days 2) 30] 40))
    as (n & Hk & _).
  - reflexivity.
  - apply sample_plan.
  - repeat constructor; simpl; lia.
  - reflexivity.
  - exists n. exact Hk.
Defined.

(** The largest [u32] age limit a policy can hold does panic, on any present-day clock. *)
Example retention_u32_max_panics :
  plan_retention sample_artifacts (mk_policy None (Some (2 ^ 32 - 1))) (days 20000) = Panic.
Proof. reflexivity. Qed.
