(* ===== verification/Backup.v ===== *)
(** * Backup: requests and their validation (engine/src/backup/mod.rs)

    What a backup asks for, per engine, and the check that runs before any
    tunnel is opened.  Widths ([u16] job counts) are [Z]; the texts of
    [BackupError::Invalid] are the constructors of [InvalidBackup]. *)

From Stdlib Require Import ZArith Lia String List Bool.
From stdpp Require Import base list gmap strings.
From S2P Require Import Prelude Text Time Domain Retention.
Import ListNotations.

Open Scope string_scope.
Open Scope list_scope.
Open Scope Z_scope.

Inductive TableMode := SchemaAndData | SchemaOnly | Exclude.

#[export] Instance TableMode_eq : EqDecision TableMode.
Proof. solve_decision. Defined.

Definition mode_eqb (a b : TableMode) : bool := bool_decide (a = b).

Record TableSelection := mk_sel {
  sel_name : string;
  sel_mode : TableMode;
  where_filter : option string }.

#[export] Instance TableSelection_eq : EqDecision TableSelection.
Proof. solve_decision. Defined.

Definition schema_only (name : string) : TableSelection := mk_sel name SchemaOnly None.
Definition with_data (name : string) : TableSelection := mk_sel name SchemaAndData None.

Record CommonBackupOptions := mk_common {
  co_database : string;
  selections : list TableSelection;
  output_dir : string;
  compress : bool;
  encrypt : bool;
  record_row_counts : bool }.

Definition tables_with_data (c : CommonBackupOptions) : list TableSelection :=
  List.filter (fun s => mode_eqb (sel_mode s) SchemaAndData) (selections c).

Definition included_tables (c : CommonBackupOptions) : list TableSelection :=
  List.filter (fun s => negb (mode_eqb (sel_mode s) Exclude)) (selections c).

Record MysqlBackupOptions := mk_mysql {
  single_transaction : bool;
  hex_blob : bool;
  set_gtid_purged_off : bool;
  add_drop_table : bool;
  extended_insert : bool;
  routines : bool;
  triggers : bool;
  my_events : bool;
  default_character_set : string;
  disable_column_statistics : bool;
  strip_definer : bool;
  parallel_threads : option Z;
  my_extra_flags : list string }.

Definition mysql_default : MysqlBackupOptions :=
  mk_mysql true true true true true true true true "utf8mb4" false true None [].

Inductive PgDumpFormat := Custom | Directory | Plain.

#[export] Instance PgDumpFormat_eq : EqDecision PgDumpFormat.
Proof. solve_decision. Defined.

Definition pg_flag (f : PgDumpFormat) : string :=
  match f with Custom => "-Fc" | Directory => "-Fd" | Plain => "-Fp" end.

Definition pg_artifact_format (f : PgDumpFormat) : ArtifactFormat :=
  match f with Custom => PgCustom | Directory => PgDirectory | Plain => SqlGz end.

Definition supports_parallel_dump (f : PgDumpFormat) : bool :=
  match f with Directory => true | _ => false end.

Record PostgresBackupOptions := mk_postgres {
  pg_format : PgDumpFormat;
  no_owner : bool;
  no_privileges : bool;
  blobs : bool;
  schemas : list string;
  serializable_deferrable : bool;
  parallel_jobs : option Z;
  include_globals : bool;
  pg_extra_flags : list string }.

Definition postgres_default : PostgresBackupOptions :=
  mk_postgres Custom true true true [] false None false [].

Record MongoBackupOptions := mk_mongo {
  oplog : bool;
  parallel_collections : option Z;
  dump_users_and_roles : bool;
  mo_extra_flags : list string }.

Definition mongo_default : MongoBackupOptions := mk_mongo false None false [].

Inductive EngineBackupOptions :=
| BMysql (o : MysqlBackupOptions)
| BPostgres (o : PostgresBackupOptions)
| BMongo (o : MongoBackupOptions).

Definition backup_engine (e : EngineBackupOptions) : Engine :=
  match e with BMysql _ => Mysql | BPostgres _ => Postgres | BMongo _ => Mongo end.

Definition backup_artifact_format (e : EngineBackupOptions) : ArtifactFormat :=
  match e with
  | BMysql o => if is_some (parallel_threads o) then MydumperDir else SqlGz
  | BPostgres o => pg_artifact_format (pg_format o)
  | BMongo _ => MongoArchive
  end.

Record BackupRequest := mk_backup {
  common : CommonBackupOptions;
  engine : EngineBackupOptions }.

(** The texts of [BackupError::Invalid] a validation can give, and any other text. *)
Inductive InvalidBackup :=
| NoDatabase
| EverythingExcluded
| ParallelNeedsDirectory (f : PgDumpFormat)
| ParallelJobsZero
| EncryptNeedsStream (f : PgDumpFormat)
| EncryptParallelDump
| FilterWithoutData (table : string)
| CollectionStructureOnly (collection : string)
| CollectionFilter (collection : string)
| InvalidText (text : string).

Inductive BackupError :=
| EngineMismatch (profile options : Engine)
| Invalid (why : InvalidBackup)
| NotImplemented (what : string)
| ToolMissing (tool : string)
| Exec (e : string)
| Io (e : string)
| Connect (e : string)
| BackupCancelled.

Definition engine_debug (e : Engine) : string :=
  match e with Mysql => "Mysql" | Postgres => "Postgres" | Mongo => "Mongo" end.

Definition pg_format_debug (f : PgDumpFormat) : string :=
  match f with Custom => "Custom" | Directory => "Directory" | Plain => "Plain" end.

Section Texts.
(** [{:?}] of a string, which quotes it. *)
Variable str_debug : string -> string.

Definition invalid_text (why : InvalidBackup) : string :=
  match why with
  | NoDatabase => "no database selected"
  | EverythingExcluded => "every table is excluded; nothing to back up"
  | ParallelNeedsDirectory f =>
      "parallel dump requires the directory format, not " ++ pg_format_debug f
  | ParallelJobsZero => "parallel_jobs must be at least 1"
  | EncryptNeedsStream f =>
      "encryption needs a single output stream, and the " ++ pg_format_debug f
      ++ " format writes its own                  archive. Use the plain format to encrypt a PostgreSQL backup."
  | EncryptParallelDump =>
      "encryption needs a single output stream, and a parallel dump writes a directory                  of files. Turn off one or the other."
  | FilterWithoutData t =>
      "table " ++ str_debug t ++ " has a row filter but is not set to schema+data"
  | CollectionStructureOnly c =>
      "collection " ++ str_debug c ++ " is set to structure-only, which mongodump cannot do in a "
      ++ "single archive. Set it to include documents, or exclude it."
  | CollectionFilter c =>
      "collection " ++ str_debug c ++ " has a row filter, which mongodump cannot apply while "
      ++ "dumping a whole database into one archive — its --query takes a single "
      ++ "--collection. Remove the filter, or exclude the collection."
  | InvalidText t => t
  end%string.

Definition backup_error_text (e : BackupError) : string :=
  match e with
  | EngineMismatch p o =>
      "profile engine is " ++ engine_debug p ++ " but options are for " ++ engine_debug o
  | Invalid why => invalid_text why
  | NotImplemented w => w ++ " is not implemented yet"
  | ToolMissing t => "could not find " ++ t ++ "; install it or set an override on the profile"
  | Exec t => t
  | Io t => "io error: " ++ t
  | Connect t => t
  | BackupCancelled => "job was cancelled"
  end%string.
End Texts.

Definition check_postgres (e : EngineBackupOptions) : result unit BackupError :=
  match e with
  | BPostgres o =>
      match parallel_jobs o with
      | Some jobs =>
          let? _ := guard (negb (supports_parallel_dump (pg_format o)))
                      (Invalid (ParallelNeedsDirectory (pg_format o))) in
          guard (jobs =? 0) (Invalid ParallelJobsZero)
      | None => Ok tt
      end
  | _ => Ok tt
  end.

Definition mysql_parallel (e : EngineBackupOptions) : bool :=
  match e with BMysql o => is_some (parallel_threads o) | _ => false end.

Definition check_encryption (encrypt : bool) (e : EngineBackupOptions) : result unit BackupError :=
  match e with
  | BPostgres o =>
      guard (encrypt && negb (bool_decide (pg_format o = Plain)))
        (Invalid (EncryptNeedsStream (pg_format o)))
  | _ => guard (encrypt && mysql_parallel e) (Invalid EncryptParallelDump)
  end.

Definition useless_filter (s : TableSelection) : bool :=
  is_some (where_filter s) && negb (mode_eqb (sel_mode s) SchemaAndData).

Definition check_mongo (e : EngineBackupOptions) (l : list TableSelection)
    : result unit BackupError :=
  match e with
  | BMongo _ =>
      let? _ := guard_some (List.find (fun s => mode_eqb (sel_mode s) SchemaOnly) l)
                  (fun s => Invalid (CollectionStructureOnly (sel_name s))) in
      guard_some (List.find (fun s => is_some (where_filter s)) l)
        (fun s => Invalid (CollectionFilter (sel_name s)))
  | _ => Ok tt
  end.

Definition mydumper_text : string :=
  "parallel MySQL dumps (mydumper). Leave parallel_threads unset for a normal dump".

Definition backup_validate (r : BackupRequest) (profile : ConnectionProfile)
    : result unit BackupError :=
  let c := common r in
  let e := engine r in
  let? _ := guard (negb (bool_decide (profile_engine profile = backup_engine e)))
              (EngineMismatch (profile_engine profile) (backup_engine e)) in
  let? _ := guard (String.eqb (trim (co_database c)) "") (Invalid NoDatabase) in
  let? _ := guard (Nat.eqb (length (included_tables c)) 0) (Invalid EverythingExcluded) in
  let? _ := check_postgres e in
  let? _ := guard (mysql_parallel e) (NotImplemented mydumper_text) in
  let? _ := check_encryption (encrypt c) e in
  let? _ := guard_some (List.find useless_filter (selections c))
              (fun s => Invalid (FilterWithoutData (sel_name s))) in
  check_mongo e (selections c).

(** ** Lemmas *)

Lemma mode_eqb_true a b : mode_eqb a b = true <-> a = b.
Proof. apply bool_decide_eq_true. Qed.

Lemma mode_eqb_false a b : mode_eqb a b = false <-> a <> b.
Proof. apply bool_decide_eq_false. Qed.

#[export] Hint Rewrite @mode_eqb_true @mode_eqb_false : guards.

Lemma included_empty c :
  Nat.eqb (length (included_tables c)) 0 = false <->
  exists s, In s (selections c) /\ sel_mode s <> Exclude.
Proof.
  rewrite Nat.eqb_neq. unfold included_tables. split.
  - destruct (List.filter _ _) as [|s l] eqn:F; [done|]. intros _. exists s.
    assert (In s (s :: l)) as Hs by by left. rewrite <- F, filter_In in Hs.
    destruct Hs as [Hs Hm]. apply negb_true_iff, mode_eqb_false in Hm. done.
  - intros (s & Hs & Hm) H. apply length_zero_iff_nil in H.
    apply mode_eqb_false in Hm. apply (f_equal negb) in Hm. simpl in Hm.
    assert (In s []) as []. rewrite <- H. by apply filter_In.
Qed.

(** What an accepted request satisfies, read off the tools it will run. *)
Record acceptable (r : BackupRequest) (profile : ConnectionProfile) : Prop := {
  acc_engine : profile_engine profile = backup_engine (engine r);
  acc_database : trim (co_database (common r)) <> "";
  acc_some_table : exists s, In s (selections (common r)) /\ sel_mode s <> Exclude;
  acc_parallel : forall o jobs, engine r = BPostgres o -> parallel_jobs o = Some jobs ->
    pg_format o = Directory /\ jobs <> 0;
  acc_mydumper : forall o, engine r = BMysql o -> parallel_threads o = None;
  acc_encrypt : forall o, engine r = BPostgres o -> encrypt (common r) = true -> pg_format o = Plain;
  acc_filters : forall s, In s (selections (common r)) -> where_filter s <> None ->
    sel_mode s = SchemaAndData;
  acc_mongo : forall o, engine r = BMongo o -> forall s, In s (selections (common r)) ->
    sel_mode s <> SchemaOnly /\ where_filter s = None }.

Lemma useless_filter_false s :
  useless_filter s = false <-> (where_filter s <> None -> sel_mode s = SchemaAndData).
Proof.
  unfold useless_filter. destruct (where_filter s), (sel_mode s); simpl; naive_solver.
Qed.

Lemma check_postgres_Ok e :
  check_postgres e = Ok tt <->
  forall o jobs, e = BPostgres o -> parallel_jobs o = Some jobs -> pg_format o = Directory /\ jobs <> 0.
Proof.
  destruct e as [o|o|o]; simpl; try naive_solver.
  destruct (parallel_jobs o) as [j|] eqn:J; [|naive_solver].
  autorewrite with guards. rewrite negb_false_iff, Z.eqb_neq.
  assert (supports_parallel_dump (pg_format o) = true <-> pg_format o = Directory) as ->
    by (by destruct (pg_format o)).
  split; [|intros H; by apply (H o j)].
  intros H ? ? [= <-] E. rewrite J in E. by injection E as <-.
Qed.

Lemma check_encryption_Ok b e :
  mysql_parallel e = false ->
  check_encryption b e = Ok tt <-> (forall o, e = BPostgres o -> b = true -> pg_format o = Plain).
Proof.
  intros Hm. destruct e as [o|o|o]; unfold check_encryption; rewrite ?Hm, guard_Ok, ?andb_false_r;
    try naive_solver.
  rewrite andb_false_iff, negb_false_iff, bool_decide_eq_true. split.
  - intros [->|H] ? [= <-]; done.
  - intros H. destruct b; [right; by apply H|by left].
Qed.

Lemma check_mongo_Ok e l :
  check_mongo e l = Ok tt <->
  (forall o, e = BMongo o -> forall s, In s l -> sel_mode s <> SchemaOnly /\ where_filter s = None).
Proof.
  destruct e as [o|o|o]; simpl; try naive_solver. autorewrite with guards.
  rewrite !List.Forall_forall. setoid_rewrite is_some_false. setoid_rewrite mode_eqb_false.
  split; [intros [Ha Hb] ? _ s Hs; split; auto|].
  intros H. split; intros s Hs; by apply (H o eq_refl).
Qed.

Lemma mysql_parallel_false e :
  mysql_parallel e = false <-> (forall o, e = BMysql o -> parallel_threads o = None).
Proof. destruct e as [o|o|o]; simpl; rewrite ?is_some_false; naive_solver. Qed.

(** ** Properties *)

(** A request is accepted exactly when it is acceptable: the engines agree, a
    database and at least one table are named, a parallel dump is a PostgreSQL
    directory dump with a job or more, encryption has a single stream to wrap,
    no row filter is silently dropped, and a MongoDB request asks for whole
    collections.  An accepted request never names the unimplemented mydumper
    format, and an accepted encrypted one never names a directory. *)
Theorem backup_validate_iff r profile :
  (backup_validate r profile = Ok tt <-> acceptable r profile)
  /\ (acceptable r profile ->
      backup_artifact_format (engine r) <> MydumperDir
      /\ (encrypt (common r) = true ->
          is_directory (backup_artifact_format (engine r)) = false
          /\ backup_artifact_format (engine r) <> PgCustom)).
Proof.
  split.
  - unfold backup_validate. autorewrite with guards.
    rewrite negb_false_iff, bool_decide_eq_true, String.eqb_neq, included_empty, check_postgres_Ok,
      check_mongo_Ok, List.Forall_forall.
    setoid_rewrite useless_filter_false. split.
    + intros (? & ? & ? & ? & Hm & He & ? & ?). rewrite check_encryption_Ok in He by done.
      rewrite mysql_parallel_false in Hm. by split.
    + intros []. assert (mysql_parallel (engine r) = false) by by apply mysql_parallel_false.
      split_and!; try done. by apply check_encryption_Ok.
  - intros []. destruct (engine r) as [o|o|o]; simpl; [|split; [by destruct (pg_format o)|]|done].
    + rewrite (acc_mydumper0 o eq_refl). done.
    + intros E. by rewrite (acc_encrypt0 o eq_refl E).
Qed.

(** ** Witnesses *)

Definition sample_profile (e : Engine) (env : EnvironmentTag) : ConnectionProfile :=
  mk_profile 1%N "p" e env None (mk_db "127.0.0.1" (default_port e) "root" None) no_tools 0 0.

Definition sample_request : BackupRequest :=
  mk_backup
    (mk_common "app" [with_data "orders"; schema_only "logs"; mk_sel "tmp" Exclude None] "/out"
      true true false)
    (BPostgres (mk_postgres Plain true true true [] false None false [])).

Example sample_request_accepted :
  backup_validate sample_request (sample_profile Postgres Prod) = Ok tt.
Proof. reflexivity. Qed.

Lemma backup_validate_iff_witness :
  acceptable sample_request (sample_profile Postgres Prod)
  /\ backup_artifact_format (engine sample_request) <> MydumperDir.
Proof.
  destruct (backup_validate_iff sample_request (sample_profile Postgres Prod)) as [[H _] H'].
  pose proof (H sample_request_accepted) as Ha. exact (conj Ha (proj1 (H' Ha))).
Defined.

(** The order of the checks: the first that applies is the one reported. *)
Example sample_rejected :
  backup_validate (mk_backup (mk_common "app" [schema_only "logs"] "/out" true true false)
    (BPostgres postgres_default)) (sample_profile Postgres Dev) =
  Err (Invalid (EncryptNeedsStream Custom)).
Proof. reflexivity. Qed.
