(* ===== verification/Restore.v ===== *)
(** * Restore: naming the destination and validating a request
      (engine/src/restore/mod.rs)

    [TargetNaming.resolve] names the destination database, [resolve_free] walks to
    a name the server is not using, and [restore_validate] is the check that runs
    before anything is touched.  Instants are nanoseconds; one second is
    [secs 1].  The present instant lies far from the calendar's end, so the
    addition of a few seconds to it does not panic. *)

From Stdlib Require Import ZArith Lia Ascii String List Bool.
From stdpp Require Import base list gmap strings.
From S2P Require Import Prelude Text Time Domain Retention Backup.
Import ListNotations.

Open Scope string_scope.
Open Scope list_scope.
Open Scope Z_scope.

(** ** Naming *)

Inductive TargetNaming :=
| NewTimestamped (prefix : string)
| DropAndRecreate (name : string)
| IntoExisting (name : string).

Definition is_destructive (n : TargetNaming) : bool :=
  match n with DropAndRecreate _ => true | _ => false end.

Definition is_timestamped (n : TargetNaming) : bool :=
  match n with NewTimestamped _ => true | _ => false end.

Definition NAMING_WINDOW_SECS : Z := 60.

Section Naming.
Context `{Calendar}.

Definition resolve (n : TargetNaming) (now : Z) : string :=
  match n with
  | NewTimestamped prefix => (prefix ++ "_" ++ utc_stamp now)%string
  | DropAndRecreate name | IntoExisting name => name
  end.

Definition resolve_free (n : TargetNaming) (now : Z) (taken : list string) : option string :=
  if negb (is_timestamped n) then Some (resolve n now)
  else
    List.find (fun name => negb (existsb (fun t => String.eqb t name) taken))
      (map (fun seconds => resolve n (now + secs seconds)) (seqZ 0 NAMING_WINDOW_SECS)).
End Naming.

(** ** Options *)

Record MysqlRestoreOptions := mk_rmysql {
  foreign_key_checks_off : bool;
  unique_checks_off : bool;
  autocommit_off : bool;
  disable_binlog : bool;
  charset : string;
  collation : string }.

Definition rmysql_default : MysqlRestoreOptions :=
  mk_rmysql true true true false "utf8mb4" "utf8mb4_unicode_ci".

Record PostgresRestoreOptions := mk_rpostgres {
  r_no_owner : bool;
  r_no_privileges : bool;
  r_parallel_jobs : option Z;
  only_tables : list string;
  clean : bool }.

Definition rpostgres_default : PostgresRestoreOptions := mk_rpostgres true true None [] false.

Record MongoRestoreOptions := mk_rmongo {
  drop_collections : bool;
  only_collections : list string;
  r_parallel_collections : option Z;
  insertion_workers : option Z;
  stop_on_error : bool;
  restore_indexes : bool;
  bypass_document_validation : bool }.

Definition rmongo_default : MongoRestoreOptions := mk_rmongo false [] None None true true false.

Inductive EngineRestoreOptions :=
| RMysql (o : MysqlRestoreOptions)
| RPostgres (o : PostgresRestoreOptions)
| RMongo (o : MongoRestoreOptions).

Definition restore_engine (e : EngineRestoreOptions) : Engine :=
  match e with RMysql _ => Mysql | RPostgres _ => Postgres | RMongo _ => Mongo end.

Record RestoreRequest := mk_restore {
  artifact_path : string;
  naming : TargetNaming;
  r_engine : EngineRestoreOptions;
  verify_checksum : bool;
  typed_confirmation : option string }.

Inductive RestoreError :=
| REngineMismatch (profile options : Engine)
| ArtifactEngineMismatch (artifact profile : Engine)
| ConfirmationRequired (expected : string) (got : option string)
| SelectiveRestoreUnsupported (f : ArtifactFormat)
| ParallelRestoreUnsupported (f : ArtifactFormat)
| RInvalid (why : string)
| RNotImplemented (what : string)
| RExec (e : string)
| RestoreCancelled.

(** ** Validation *)

Section Validate.
Context `{Calendar}.

Definition needs_confirmation (r : RestoreRequest) (profile : ConnectionProfile) : bool :=
  is_destructive (naming r)
  || (requires_typed_confirmation (environment profile) && negb (is_timestamped (naming r))).

Definition check_confirmation (r : RestoreRequest) (profile : ConnectionProfile) (now : Z)
    : result unit RestoreError :=
  if needs_confirmation r profile then
    let expected := resolve (naming r) now in
    guard (negb (bool_decide (typed_confirmation r = Some expected)))
      (ConfirmationRequired expected (typed_confirmation r))
  else Ok tt.

(** The artifact's format, when it is known and has no archive to pick from. *)
Definition unselective (manifest : option BackupManifest) : option ArtifactFormat :=
  match manifest with
  | Some m => if supports_selective_restore (manifest_format m) then None else Some (manifest_format m)
  | None => None
  end.

Definition check_restore_postgres (o : PostgresRestoreOptions) (manifest : option BackupManifest)
    : result unit RestoreError :=
  let? _ := (match only_tables o with
             | [] => Ok tt
             | _ => guard_some (unselective manifest) SelectiveRestoreUnsupported
             end) in
  match r_parallel_jobs o with
  | Some jobs =>
      let? _ := guard (jobs =? 0) (RInvalid "parallel_jobs must be at least 1") in
      guard_some (unselective manifest) ParallelRestoreUnsupported
  | None => Ok tt
  end.

Definition is_zero (o : option Z) : bool := match o with Some n => n =? 0 | None => false end.

Definition check_restore_mongo (o : MongoRestoreOptions) : result unit RestoreError :=
  let? _ := guard (is_zero (r_parallel_collections o))
              (RInvalid "parallel_collections must be at least 1") in
  let? _ := guard (is_zero (insertion_workers o))
              (RInvalid "insertion_workers must be at least 1") in
  guard (existsb (fun c => String.eqb (trim c) "") (only_collections o))
    (RInvalid ("a blank collection name in only_collections would match nothing and "
               ++ "restore an empty database")%string).

Definition restore_validate (r : RestoreRequest) (profile : ConnectionProfile)
    (manifest : option BackupManifest) (now : Z) : result unit RestoreError :=
  let? _ := guard (negb (bool_decide (profile_engine profile = restore_engine (r_engine r))))
              (REngineMismatch (profile_engine profile) (restore_engine (r_engine r))) in
  let? _ := (match manifest with
             | Some m => guard (negb (bool_decide (manifest_engine m = profile_engine profile)))
                 (ArtifactEngineMismatch (manifest_engine m) (profile_engine profile))
             | None => Ok tt
             end) in
  let? _ := check_confirmation r profile now in
  match r_engine r with
  | RMysql _ => Ok tt
  | RPostgres o => check_restore_postgres o manifest
  | RMongo o => check_restore_mongo o
  end.
End Validate.

Definition default_naming_for (_ : EnvironmentTag) : TargetNaming := NewTimestamped "restore".

(** ** Lemmas: the sixty names are distinct *)

Definition seconds_distinct : bool :=
  forallb (fun a => forallb (fun b => Z.eqb a b || negb (String.eqb (show_pad 2 a) (show_pad 2 b)))
    (seqZ 0 60)) (seqZ 0 60).

Lemma seconds_distinct_ok : seconds_distinct = true.
Proof. vm_compute. reflexivity. Qed.

Definition seconds_two : bool := forallb (fun a => Nat.eqb (String.length (show_pad 2 a)) 2) (seqZ 0 60).

Lemma seconds_two_ok : seconds_two = true.
Proof. vm_compute. reflexivity. Qed.

Lemma second_length a : 0 <= a < 60 -> String.length (show_pad 2 a) = 2%nat.
Proof.
  intros Ha. pose proof seconds_two_ok as Hok. unfold seconds_two in Hok.
  rewrite forallb_forall in Hok. apply Nat.eqb_eq, Hok, list_elem_of_In, elem_of_seqZ. lia.
Qed.

Lemma second_text_inj a b :
  0 <= a < 60 -> 0 <= b < 60 -> show_pad 2 a = show_pad 2 b -> a = b.
Proof.
  intros Ha Hb E. pose proof seconds_distinct_ok as Hok. unfold seconds_distinct in Hok.
  rewrite forallb_forall in Hok. specialize (Hok a). rewrite forallb_forall in Hok.
  specialize (Hok ltac:(apply list_elem_of_In, elem_of_seqZ; lia) b
    ltac:(apply list_elem_of_In, elem_of_seqZ; lia)).
  rewrite E, String.eqb_refl, orb_false_r in Hok. by apply Z.eqb_eq.
Qed.

Lemma second_of_plus t s :
  second (ndt_of_ns (t + secs s + days unix_epoch_day)) = ((t + days unix_epoch_day) / ns_per_sec + s) mod 60.
Proof.
  unfold ndt_of_ns, secs. cbn [second].
  replace (t + s * ns_per_sec + days unix_epoch_day) with (t + days unix_epoch_day + s * ns_per_sec) by lia.
  rewrite Z.div_add; [done|]. pose proof ns_per_sec_pos. lia.
Qed.

Lemma stamp_second_inj `{Calendar} t a b :
  0 <= a < 60 -> 0 <= b < 60 -> utc_stamp (t + secs a) = utc_stamp (t + secs b) -> a = b.
Proof.
  intros Ha Hb E. unfold utc_stamp in E. rewrite !second_of_plus in E.
  set (u := (t + days unix_epoch_day) / ns_per_sec) in E.
  pose proof (Z.mod_pos_bound (u + a) 60 ltac:(lia)). pose proof (Z.mod_pos_bound (u + b) 60 ltac:(lia)).
  rewrite <- !append_assoc' in E. apply app_len_inj_r in E as [_ E]; [|by rewrite !second_length].
  apply second_text_inj in E; [|lia..]. revert E. divlia.
Qed.

Lemma names_NoDup `{Calendar} prefix now :
  NoDup (map (fun s => resolve (NewTimestamped prefix) (now + secs s)) (seqZ 0 NAMING_WINDOW_SECS)).
Proof.
  apply NoDup_alt. intros i j name Hi Hj.
  apply list_lookup_fmap_Some in Hi as (a & -> & Ha). apply list_lookup_fmap_Some in Hj as (b & E & Hb).
  apply lookup_seqZ in Ha as [-> Hi], Hb as [-> Hj]. unfold NAMING_WINDOW_SECS in *.
  cbn [resolve] in E. apply append_inj_l, append_inj_l in E.
  apply stamp_second_inj in E; lia.
Qed.

Lemma find_none_incl (taken names : list string) :
  List.find (fun name => negb (existsb (fun t => String.eqb t name) taken)) names = None ->
  incl names taken.
Proof.
  intros Hf name Hn. apply List.find_none with (x := name) in Hf; [|done].
  apply negb_false_iff, existsb_exists in Hf as (t & Ht & E). apply String.eqb_eq in E. by subst.
Qed.

(** The first free name of a run of seconds. *)
Lemma find_seconds `{Calendar} prefix now taken name l z :
  let names z l := map (fun s => resolve (NewTimestamped prefix) (now + secs s)) (seqZ z l) in
  0 <= l ->
  List.find (fun name => negb (existsb (fun t => String.eqb t name) taken)) (names z l) = Some name ->
  ~ In name taken
  /\ exists s, z <= s < z + l /\ name = resolve (NewTimestamped prefix) (now + secs s)
       /\ forall s', z <= s' < s -> In (resolve (NewTimestamped prefix) (now + secs s')) taken.
Proof.
  intros names Hl Hf. split.
  { apply List.find_some in Hf as [_ Hf]. intros Ht. apply negb_true_iff in Hf.
    assert (existsb (fun t => String.eqb t name) taken = true) as Hx; [|congruence].
    apply existsb_exists. exists name. by rewrite String.eqb_refl. }
  revert z Hf. pattern l. apply natlike_ind; [done| |done].
  clear l Hl. intros l Hl IH z. unfold names. rewrite seqZ_cons by lia. cbn [map List.find].
  rewrite Z.pred_succ. destruct (negb (existsb _ taken)) eqn:E.
  - intros [= <-]. exists z. split_and!; [lia|lia|done|lia].
  - intros Hf. destruct (IH (Z.succ z) Hf) as (s & Hs & Hn & Hb). exists s. split_and!; [lia|lia|done|].
    intros s' Hs'. destruct (Z.eq_dec s' z) as [->|]; [|apply Hb; lia].
    apply negb_false_iff, existsb_exists in E as (t & Ht & E). apply String.eqb_eq in E. by subst.
Qed.

(** What an accepted restore satisfies. *)
Record restorable (r : RestoreRequest) (profile : ConnectionProfile)
    (manifest : option BackupManifest) : Prop := {
  res_engine : profile_engine profile = restore_engine (r_engine r);
  res_artifact : forall m, manifest = Some m -> manifest_engine m = profile_engine profile;
  res_confirmed : forall name,
    naming r = DropAndRecreate name \/ (naming r = IntoExisting name /\ environment profile = Prod) ->
    typed_confirmation r = Some name;
  res_postgres : forall o, r_engine r = RPostgres o ->
    (forall m, manifest = Some m -> only_tables o <> [] \/ r_parallel_jobs o <> None ->
       supports_selective_restore (manifest_format m) = true)
    /\ r_parallel_jobs o <> Some 0;
  res_mongo : forall o, r_engine r = RMongo o ->
    r_parallel_collections o <> Some 0 /\ insertion_workers o <> Some 0
    /\ Forall (fun c => trim c <> "") (only_collections o) }.

Lemma check_confirmation_Ok `{Calendar} r profile now :
  check_confirmation r profile now = Ok tt <->
  (forall name,
     naming r = DropAndRecreate name \/ (naming r = IntoExisting name /\ environment profile = Prod) ->
     typed_confirmation r = Some name).
Proof.
  unfold check_confirmation, needs_confirmation.
  destruct (naming r) as [p|n|n]; cbn [is_destructive is_timestamped negb orb resolve];
    rewrite ?andb_false_r, ?andb_true_r.
  - split; [|done]. by intros _ ? [?|[? _]].
  - rewrite guard_Ok, negb_false_iff, bool_decide_eq_true. split.
    + by intros Ht ? [[= <-]|[? _]].
    + intros Hn. apply Hn. by left.
  - destruct (environment profile); cbn [requires_typed_confirmation];
      [|split; [|done]; by intros _ ? [?|[_ ?]]..].
    rewrite guard_Ok, negb_false_iff, bool_decide_eq_true. split.
    + by intros Ht ? [?|[[= <-] _]].
    + intros Hn. apply Hn. by right.
Qed.

Lemma unselective_None manifest :
  unselective manifest = None <->
  (forall m, manifest = Some m -> supports_selective_restore (manifest_format m) = true).
Proof.
  destruct manifest as [m|]; simpl; [|done].
  destruct (supports_selective_restore (manifest_format m)) eqn:E.
  - split; [|done]. by intros _ ? [= <-].
  - split; [done|]. intros Hm. by rewrite (Hm m eq_refl) in E.
Qed.

Lemma check_restore_postgres_Ok o manifest :
  check_restore_postgres o manifest = Ok tt <->
  (only_tables o <> [] \/ r_parallel_jobs o <> None -> unselective manifest = None)
  /\ r_parallel_jobs o <> Some 0.
Proof.
  unfold check_restore_postgres. rewrite unit_bind.
  destruct (only_tables o) as [|t l], (r_parallel_jobs o) as [j|];
    rewrite ?unit_bind, ?guard_Ok, ?guard_some_Ok, ?Z.eqb_neq.
  - split; [intros (_ & ? & ?); split; [done|congruence]|].
    intros [? ?]. split_and!; [done|congruence|]. auto.
  - split; [|done]. intros _. split; [|done]. by intros [?|?].
  - split; [intros (? & ? & ?); split; [done|congruence]|].
    intros [? ?]. split_and!; [auto|congruence|auto].
  - split; [intros [? _]; split; done|]. intros [? _]. auto.
Qed.

Lemma is_zero_false o : is_zero o = false <-> o <> Some 0.
Proof. destruct o as [n|]; simpl; [|done]. rewrite Z.eqb_neq. split; congruence. Qed.

Lemma check_restore_mongo_Ok o :
  check_restore_mongo o = Ok tt <->
  r_parallel_collections o <> Some 0 /\ insertion_workers o <> Some 0
  /\ Forall (fun c => trim c <> "") (only_collections o).
Proof.
  unfold check_restore_mongo. rewrite !unit_bind, !guard_Ok, !is_zero_false.
  assert (existsb (fun c => String.eqb (trim c) "") (only_collections o) = false <->
    Forall (fun c => trim c <> "") (only_collections o)) as ->; [|done].
  induction (only_collections o) as [|c l IH]; simpl; [done|].
  by rewrite orb_false_iff, String.eqb_neq, Forall_cons, IH.
Qed.

(** What is settled on, by strategy. *)
Lemma resolve_free_settles `{Calendar} n now taken name :
  resolve_free n now taken = Some name ->
  match n with
  | NewTimestamped _ => ~ In name taken
  | DropAndRecreate x | IntoExisting x => name = x
  end.
Proof.
  unfold resolve_free. destruct n as [prefix|x|x]; cbn [is_timestamped negb resolve]; [|congruence..].
  intros Hf. by apply find_seconds in Hf as [? _].
Qed.

(** ** Properties *)

(** A restore never names a database the server already has, unless it was
    asked for by name: the fixed strategies give their name; the timestamped one
    gives the first free of the sixty names from now on, and gives none only when
    the server holds all sixty, so never while fewer names are taken. *)
Theorem resolve_free_spec `{Calendar} n now taken :
  (is_timestamped n = false -> forall t, resolve_free n now taken = Some (resolve n t))
  /\ (forall name, is_timestamped n = true -> resolve_free n now taken = Some name ->
        ~ In name taken
        /\ exists s, 0 <= s < 60 /\ name = resolve n (now + secs s)
             /\ forall s', 0 <= s' < s -> In (resolve n (now + secs s')) taken)
  /\ ((length taken < 60)%nat -> exists name, resolve_free n now taken = Some name).
Proof.
  unfold resolve_free. destruct n as [prefix|name|name]; cbn [is_timestamped negb];
    [|by split_and!; eauto..].
  split; [done|]. split.
  - intros name _ Hf. by apply find_seconds in Hf.
  - intros Hlen. destruct (List.find _ _) as [name|] eqn:E; [by exists name|].
    apply find_none_incl in E. exfalso.
    pose proof (NoDup_incl_length (proj1 (NoDup_ListNoDup _) (names_NoDup prefix now)) E) as Hle.
    rewrite length_map, length_seqZ in Hle. unfold NAMING_WINDOW_SECS in Hle. lia.
Qed.

Lemma restore_validate_ok `{Calendar} r profile manifest now :
  restore_validate r profile manifest now = Ok tt <-> restorable r profile manifest.
Proof.
  unfold restore_validate. rewrite !unit_bind, guard_Ok, negb_false_iff, bool_decide_eq_true,
    check_confirmation_Ok.
  assert (match manifest with
    | Some m => guard (negb (bool_decide (manifest_engine m = profile_engine profile)))
                  (ArtifactEngineMismatch (manifest_engine m) (profile_engine profile))
    | None => Ok tt end = Ok tt <->
    (forall m, manifest = Some m -> manifest_engine m = profile_engine profile)) as ->.
  { destruct manifest as [m|]; [|done]. rewrite guard_Ok, negb_false_iff, bool_decide_eq_true.
    split; [by intros E ? [= <-]|auto]. }
  split.
  + intros (He & Ha & Hc & Ho). split; [done..| |]; intros o E; rewrite E in Ho.
    * apply check_restore_postgres_Ok in Ho as [Hs Hj]. split; [|done].
      intros m Hm Hx. by apply (proj1 (unselective_None manifest) (Hs Hx)).
    * by apply check_restore_mongo_Ok.
  + intros [He Ha Hc Hp Hm]. split_and!; try done. destruct (r_engine r) as [o|o|o]; [done|..].
    * destruct (Hp o eq_refl) as [Hs Hj]. apply check_restore_postgres_Ok. split; [|done].
      intros Hx. apply unselective_None. eauto.
    * by apply check_restore_mongo_Ok, Hm.
Qed.

(** A restore is accepted exactly when its engine, artifact and options fit
    and, if it may overwrite - dropping a database, or writing into one on a
    production profile - the exact name of that database was typed.  The clock
    does not matter to the verdict. *)
Theorem restore_validate_iff `{Calendar} r profile manifest now :
  (restore_validate r profile manifest now = Ok tt <-> restorable r profile manifest)
  /\ forall now', restore_validate r profile manifest now' = restore_validate r profile manifest now.
Proof.
  split.
  - apply restore_validate_ok.
  - intros now'. unfold restore_validate, check_confirmation, needs_confirmation.
    destruct (naming r) as [p|n|n]; [|done..]. cbn [is_destructive is_timestamped negb orb].
    by rewrite andb_false_r.
Qed.

(** ** Witnesses *)

Lemma resolve_free_spec_witness :
  exists name, resolve_free (NewTimestamped "restore") 0 ["restore_19700101_000000"] = Some name
    /\ ~ In name ["restore_19700101_000000"].
Proof.
  destruct (resolve_free_spec (NewTimestamped "restore") 0 ["restore_19700101_000000"])
    as (_ & Hf & Hs).
  destruct (Hs ltac:(simpl; lia)) as (name & E). exists name. split; [exact E|].
  exact (proj1 (Hf name eq_refl E)).
Defined.

Example resolve_free_moves :
  resolve_free (NewTimestamped "restore") 0 ["restore_19700101_000000"; "restore_19700101_000002"] =
  Some "restore_19700101_000001".
Proof. vm_compute. reflexivity. Qed.

Definition sample_restore : RestoreRequest :=
  mk_restore "/b/app.sql.gz" (IntoExisting "app") (RMysql rmysql_default) true (Some "app").

Lemma restore_validate_iff_witness :
  restorable sample_restore (sample_profile Mysql Prod) None.
Proof.
  exact (proj1 (proj1 (restore_validate_iff sample_restore (sample_profile Mysql Prod) None 0)) eq_refl).
Defined.

Example unconfirmed_production :
  restore_validate (mk_restore "/b" (IntoExisting "app") (RMysql rmysql_default) true (Some "App"))
    (sample_profile Mysql Prod) None 0 = Err (ConfirmationRequired "app" (Some "App")).
Proof. reflexivity. Qed.
