(* ===== verification/Verify.v ===== *)
(** * Verify: what a restored database is compared against (engine/src/verify.rs)

    [build_report] compares exact row counts; [refine_with_contents] then
    contradicts the matches that columns or digests disagree with.  A
    [BTreeMap] is a [gmap] walked in key order ([entries]). *)

From Stdlib Require Import ZArith Lia Ascii String List Bool Permutation Sorted.
From stdpp Require Import base list gmap strings.
From S2P Require Import Prelude Text.
Import ListNotations.

Open Scope string_scope.
Open Scope list_scope.
Open Scope Z_scope.

Inductive TableVerdict :=
| Match
| RowCountMismatch (source destination : Z)
| MissingAtDestination
| UnexpectedAtDestination
| Skipped (reason : string)
| ContentMismatch (rows : Z)
| SchemaMismatch (missing extra : list string).

Definition is_failure (v : TableVerdict) : bool :=
  match v with
  | RowCountMismatch _ _ | MissingAtDestination | ContentMismatch _ | SchemaMismatch _ _ => true
  | _ => false
  end.

Definition is_skipped (v : TableVerdict) : bool :=
  match v with Skipped _ => true | _ => false end.

Record TableVerification := mk_tv { table : string; verdict : TableVerdict }.

Record VerificationReport := mk_report {
  tables : list TableVerification;
  tables_checked : Z;
  failures : Z;
  skipped : Z }.

Definition passed (r : VerificationReport) : bool := failures r =? 0.

(** [{}] of one row of the Markdown table. *)
Definition verdict_cell (v : TableVerdict) : string :=
  match v with
  | Match => "OK"
  | RowCountMismatch s d => "MISMATCH: source " ++ show s ++ ", destination " ++ show d
  | MissingAtDestination => "MISSING at destination"
  | UnexpectedAtDestination => "unexpected at destination"
  | Skipped reason => "skipped (" ++ reason ++ ")"
  | ContentMismatch rows =>
      "CONTENT MISMATCH: " ++ show rows ++ " rows on both sides, but the data differs"
  | SchemaMismatch missing extra =>
      let part prefix l := match l with [] => [] | _ => [prefix ++ join ", " l] end in
      "SCHEMA MISMATCH: " ++ join "; " (app (part "missing columns: " missing) (part "extra columns: " extra))
  end%string.

Definition to_markdown (r : VerificationReport) : string :=
  fold_left (fun out t =>
      (out ++ "| " ++ table t ++ " | " ++ verdict_cell (verdict t) ++ " |" ++ String newline "")%string)
    (tables r)
    ("| Table | Result |" ++ String newline ("|---|---|" ++ String newline ""))%string.

Definition count (f : TableVerdict -> bool) (l : list TableVerification) : Z :=
  Z.of_nat (length (List.filter (fun t => f (verdict t)) l)).

Section Build.
Variables (expected actual : gmap string Z) (schema_only : list string) (skips : gmap string string).

Definition expected_verdict (name : string) (src_count : Z) : TableVerdict :=
  match skips !! name with
  | Some reason => Skipped reason
  | None =>
      match actual !! name with
      | None => MissingAtDestination
      | Some dst_count =>
          if dst_count =? src_count then Match else RowCountMismatch src_count dst_count
      end
  end.

Definition schema_only_verdict (name : string) : TableVerdict :=
  match actual !! name with
  | None => MissingAtDestination
  | Some n => if n =? 0 then Match else RowCountMismatch 0 n
  end.

Definition known (name : string) : bool :=
  is_some (expected !! name) || existsb (fun s => String.eqb s name) schema_only.

Definition unsorted_rows : list TableVerification :=
  map (fun e => mk_tv e.1 (expected_verdict e.1 e.2)) (entries expected)
  ++ map (fun name => mk_tv name (schema_only_verdict name)) schema_only
  ++ map (fun e => mk_tv e.1 UnexpectedAtDestination)
       (List.filter (fun e => negb (known e.1)) (entries actual)).

Definition build_report : VerificationReport :=
  let tables := sort_by (fun a b => String.leb (table a) (table b)) unsorted_rows in
  mk_report tables (Z.of_nat (length tables)) (count is_failure tables) (count is_skipped tables).
End Build.

(** ** The deeper comparison *)

Record DeepComparison := mk_deep {
  source_digests : gmap string (option string);
  dest_digests : gmap string (option string);
  source_columns : gmap string (list string);
  dest_columns : gmap string (list string);
  row_counts : gmap string Z }.

Definition not_in (l : list string) (c : string) : bool := negb (existsb (String.eqb c) l).

(** The columns both sides lack, when both are known and differ. *)
Definition schema_difference (deep : DeepComparison) (t : string) : option TableVerdict :=
  match source_columns deep !! t, dest_columns deep !! t with
  | Some src, Some dst =>
      match List.filter (not_in dst) src, List.filter (not_in src) dst with
      | [], [] => None
      | missing, extra => Some (SchemaMismatch missing extra)
      end
  | _, _ => None
  end.

Definition content_difference (deep : DeepComparison) (t : string) : option TableVerdict :=
  match source_digests deep !! t, dest_digests deep !! t with
  | Some (Some src), Some (Some dst) =>
      if String.eqb src dst then None
      else Some (ContentMismatch (default 0 (row_counts deep !! t)))
  | _, _ => None
  end.

Definition refine_entry (deep : DeepComparison) (e : TableVerification) : TableVerification :=
  match verdict e with
  | Match =>
      match schema_difference deep (table e) with
      | Some v => mk_tv (table e) v
      | None =>
          match content_difference deep (table e) with
          | Some v => mk_tv (table e) v
          | None => e
          end
      end
  | _ => e
  end.

Definition refine_with_contents (report : VerificationReport) (deep : DeepComparison)
    : VerificationReport :=
  let tables := map (refine_entry deep) (tables report) in
  mk_report tables (tables_checked report) (count is_failure tables) (count is_skipped tables).

(** ** Lemmas *)

Lemma count_zero f l : count f l = 0 <-> forall t, In t l -> f (verdict t) = false.
Proof.
  unfold count. induction l as [|t l IH]; simpl; [done|]. destruct (f (verdict t)) eqn:E; simpl.
  - split; [lia|]. intros H. specialize (H t (or_introl eq_refl)). congruence.
  - rewrite IH. split; [intros H ? [<-|?]; auto|auto].
Qed.

Lemma count_perm f l l' : Permutation l l' -> count f l = count f l'.
Proof.
  intros Hp. unfold count. f_equal.
  induction Hp; simpl; repeat case_match; simpl; congruence.
Qed.

Lemma existsb_eqb l s : existsb (fun t => String.eqb t s) l = true <-> In s l.
Proof.
  rewrite existsb_exists. split; [by intros (t & Ht & ->%String.eqb_eq)|].
  intros Hs. exists s. by rewrite String.eqb_refl.
Qed.

Section Rows.
Variables (expected actual : gmap string Z) (schema_only : list string) (skips : gmap string string).

(** The rows of a report, table by table. *)
Lemma unsorted_rows_In t v :
  In (mk_tv t v) (unsorted_rows expected actual schema_only skips) <->
  (exists n, expected !! t = Some n /\ v = expected_verdict actual skips t n)
  \/ (In t schema_only /\ v = schema_only_verdict actual t)
  \/ (is_some (actual !! t) = true /\ expected !! t = None /\ ~ In t schema_only
      /\ v = UnexpectedAtDestination).
Proof.
  unfold unsorted_rows. rewrite !in_app_iff, !in_map_iff. f_equiv; [|f_equiv].
  - split.
    + intros ([k n] & [= <- <-] & Hk%entries_spec). eauto.
    + intros (n & Hn & ->). exists (t, n). by rewrite entries_spec.
  - split; [by intros (? & [= <- <-] & ?)|]. intros [Ht ->]. eauto.
  - split.
    + intros ([k n] & [= <- <-] & [Hk%entries_spec Hn]%filter_In). simpl in *.
      apply negb_true_iff, orb_false_iff in Hn as [He Hs]. rewrite Hk.
      split_and!; try done; [by destruct (expected !! k)|].
      intros Hin%existsb_eqb. congruence.
    + intros (Ha & He & Hs & ->). destruct (actual !! t) as [n|] eqn:E; [|done].
      exists (t, n). split; [done|]. apply filter_In. split; [by apply entries_spec|].
      unfold known. simpl. rewrite He. simpl. destruct (existsb _ _) eqn:X; [|done].
      by apply existsb_eqb in X.
Qed.

Lemma report_In t :
  In t (tables (build_report expected actual schema_only skips)) <->
  In t (unsorted_rows expected actual schema_only skips).
Proof. apply sort_by_in. Qed.
End Rows.

(** ** Properties *)

(** A report passes exactly when every table the plan gave rows to, unless its
    counting was skipped, holds at the destination the number of rows it had at
    the source, and every schema-only table is there and empty.  A table that is
    missing or short is never reported as restored. *)
Theorem build_report_passes_iff expected actual schema_only skips :
  passed (build_report expected actual schema_only skips) = true <->
  (forall t n, expected !! t = Some n -> skips !! t = None -> actual !! t = Some n)
  /\ (forall t, In t schema_only -> actual !! t = Some 0).
Proof.
  unfold passed. simpl. rewrite Z.eqb_eq, count_zero.
  change (sort_by _ _) with (tables (build_report expected actual schema_only skips)).
  setoid_rewrite report_In. split.
  - intros H. split.
    + intros t n Hn Hs. specialize (H (mk_tv t (expected_verdict actual skips t n))).
      rewrite unsorted_rows_In in H. specialize (H ltac:(eauto)). simpl in H.
      unfold expected_verdict in H. rewrite Hs in H.
      destruct (actual !! t) as [d|]; [|done]. destruct (Z.eqb_spec d n); [by subst|done].
    + intros t Ht. specialize (H (mk_tv t (schema_only_verdict actual t))).
      rewrite unsorted_rows_In in H. specialize (H ltac:(eauto)). simpl in H.
      unfold schema_only_verdict in H.
      destruct (actual !! t) as [d|]; [|done]. destruct (Z.eqb_spec d 0); [by subst|done].
  - intros [He Hs] [t v] Hin. apply unsorted_rows_In in Hin. simpl.
    destruct Hin as [(n & Hn & ->)|[[Ht ->]|(_ & _ & _ & ->)]]; [..|done].
    + unfold expected_verdict. destruct (skips !! t) as [r|] eqn:Er; [done|].
      by rewrite (He t n Hn Er), Z.eqb_refl.
    + unfold schema_only_verdict. by rewrite (Hs t Ht).
Qed.

(** When do the columns, or the digests, of a table contradict its match? *)
Definition columns_differ (deep : DeepComparison) (t : string) : Prop :=
  exists src dst, source_columns deep !! t = Some src /\ dest_columns deep !! t = Some dst
    /\ ~ (forall c, In c src <-> In c dst).

Definition digests_differ (deep : DeepComparison) (t : string) : Prop :=
  exists src dst, source_digests deep !! t = Some (Some src) /\ dest_digests deep !! t = Some (Some dst)
    /\ src <> dst.

Lemma filter_not_in_nil l l' : List.filter (not_in l') l = [] <-> incl l l'.
Proof.
  induction l as [|c l IH]; simpl; [split; [by intros _ ?|done]|].
  unfold not_in at 1. destruct (existsb (String.eqb c) l') eqn:E; simpl.
  - rewrite IH. apply existsb_exists in E as (d & Hd & ->%String.eqb_eq).
    split; [by apply incl_cons|]. intros H. by apply incl_cons_inv in H as [_ ?].
  - split; [done|]. intros [Hc _]%incl_cons_inv.
    assert (existsb (String.eqb c) l' = true) as Hx; [|congruence].
    apply existsb_exists. exists c. by rewrite String.eqb_refl.
Qed.

Lemma schema_difference_None deep t : schema_difference deep t = None <-> ~ columns_differ deep t.
Proof.
  unfold schema_difference, columns_differ.
  destruct (source_columns deep !! t) as [src|]; [|split; [by intros _ (? & ? & ? & _)|done]].
  destruct (dest_columns deep !! t) as [dst|]; [|split; [by intros _ (? & ? & _ & ? & _)|done]].
  pose proof (filter_not_in_nil src dst) as Hm. pose proof (filter_not_in_nil dst src) as He.
  split.
  - intros H (? & ? & [= <-] & [= <-] & Hd). apply Hd. intros c.
    destruct (List.filter (not_in dst) src); [|done]. destruct (List.filter (not_in src) dst); [|done].
    split; [apply Hm|apply He]; done.
  - intros H. assert (List.filter (not_in dst) src = [] /\ List.filter (not_in src) dst = []) as [-> ->]; [|done].
    rewrite Hm, He. destruct (decide (Forall (fun c => c ∈ dst) src /\ Forall (fun c => c ∈ src) dst))
      as [[Ha Hb]|Hn].
    + rewrite !List.Forall_forall in *. setoid_rewrite list_elem_of_In in Ha.
      setoid_rewrite list_elem_of_In in Hb. done.
    + exfalso. apply H. exists src, dst. split_and!; [done|done|]. intros Hc. apply Hn.
      rewrite !List.Forall_forall. setoid_rewrite list_elem_of_In. naive_solver.
Qed.

Lemma content_difference_None deep t : content_difference deep t = None <-> ~ digests_differ deep t.
Proof.
  unfold content_difference, digests_differ.
  destruct (source_digests deep !! t) as [[src|]|]; [|split; [by intros _ (? & ? & ? & _)|done]..].
  destruct (dest_digests deep !! t) as [[dst|]|]; [|split; [by intros _ (? & ? & _ & ? & _)|done]..].
  destruct (String.eqb_spec src dst) as [->|Hne]; (split; [|]).
  - by intros _ (? & ? & [= <-] & [= <-] & ?).
  - done.
  - done.
  - intros H. exfalso. apply H. eauto.
Qed.

Lemma difference_fails deep t v :
  schema_difference deep t = Some v \/ content_difference deep t = Some v ->
  is_failure v = true /\ is_skipped v = false.
Proof.
  unfold schema_difference, content_difference. intros [H|H]; repeat case_match; simplify_eq; done.
Qed.

Lemma refine_entry_failure deep e :
  is_failure (verdict (refine_entry deep e)) = false <->
  is_failure (verdict e) = false
  /\ (verdict e = Match -> ~ columns_differ deep (table e) /\ ~ digests_differ deep (table e)).
Proof.
  unfold refine_entry. destruct (verdict e) eqn:Ev; rewrite ?Ev; simpl; try naive_solver.
  rewrite <- schema_difference_None, <- content_difference_None.
  destruct (schema_difference deep (table e)) as [v|] eqn:Es.
  { destruct (difference_fails deep (table e) v) as [Hf _]; [auto|]. simpl. rewrite Hf. naive_solver. }
  destruct (content_difference deep (table e)) as [v|] eqn:Ec.
  { destruct (difference_fails deep (table e) v) as [Hf _]; [auto|]. simpl. rewrite Hf. naive_solver. }
  rewrite Ev. naive_solver.
Qed.

Lemma refine_entry_other deep e : verdict e <> Match -> refine_entry deep e = e.
Proof. unfold refine_entry. by destruct (verdict e). Qed.

(** The deeper comparison only adds evidence: a refined report passes exactly
    when the counts passed and no matching table has known columns or two known
    digests that differ, so a digest that could not be taken never fails a table.
    Verdicts other than a match are kept, and the tallies agree with the list. *)
Theorem refine_passes_iff report deep :
  (passed (refine_with_contents report deep) = true <->
     forall e, In e (tables report) ->
       is_failure (verdict e) = false
       /\ (verdict e = Match -> ~ columns_differ deep (table e) /\ ~ digests_differ deep (table e)))
  /\ (forall i e, tables report !! i = Some e -> verdict e <> Match ->
        tables (refine_with_contents report deep) !! i = Some e)
  /\ map table (tables (refine_with_contents report deep)) = map table (tables report)
  /\ failures (refine_with_contents report deep) =
     count is_failure (tables (refine_with_contents report deep)).
Proof.
  split_and!.
  - unfold passed. simpl. rewrite Z.eqb_eq, count_zero. split.
    + intros H e He. apply refine_entry_failure, H, in_map_iff. eauto.
    + intros H t (e & <- & He)%in_map_iff. by apply refine_entry_failure, H.
  - intros i e Hi Hv. simpl. rewrite list_lookup_fmap, Hi. simpl. by rewrite refine_entry_other.
  - simpl. rewrite map_map. apply map_ext. intros e. unfold refine_entry. by repeat case_match.
  - done.
Qed.

(** ** Examples *)

Example partial_restore_fails :
  passed (build_report {["orders" := 1000000]} {["orders" := 0]} [] ∅) = false.
Proof. vm_compute. reflexivity. Qed.

Example sample_markdown :
  to_markdown (refine_with_contents
    (build_report {["orders" := 2; "users" := 5]} {["orders" := 2; "users" := 5; "logs" := 0; "x" := 1]} ["logs"] ∅)
    (mk_deep {["orders" := Some "a"]} {["orders" := Some "b"]} ∅ ∅ {["orders" := 2]})) =
  join (String newline "")
    ["| Table | Result |"; "|---|---|"; "| logs | OK |";
     "| orders | CONTENT MISMATCH: 2 rows on both sides, but the data differs |";
     "| users | OK |"; "| x | unexpected at destination |"; ""].
Proof. vm_compute. reflexivity. Qed.
