(* ===== verification/Mask.v ===== *)
(** * Mask: masking rules, and the SQL that applies and proves them
      (engine/src/mask/mod.rs)

    [plan_coverage] decides which rules run; [update_statements] and
    [check_statements] build one statement per table.  The hash crate is the
    parameter [sha256_hex]; the settings store and the random generator are
    parameters of [ensure_secret].  Masking of a document store (mask/mongo.rs) is
    MongoMask. *)

From Stdlib Require Import ZArith Lia Ascii String List Bool Permutation.
From stdpp Require Import base list gmap strings.
From S2P Require Import Prelude Text Domain Sql.
Import ListNotations.

Open Scope string_scope.
Open Scope list_scope.
Open Scope Z_scope.

(** ** Rules *)

Definition SALT_SETTING : string := "masking.salt".
Definition FAKE_EMAIL_DOMAIN : string := "example.invalid".
Definition FAKE_PHONE_PREFIX : string := "+1555".
Definition DEFAULT_HASH_LENGTH : Z := 64.

Inductive MaskTransform :=
| Hash (length : option Z)
| Email
| Phone
| Null
| Constant (value : string).

#[export] Instance MaskTransform_eq : EqDecision MaskTransform.
Proof. solve_decision. Defined.

Definition is_deterministic (t : MaskTransform) : bool :=
  match t with Hash _ | Email | Phone => true | _ => false end.

Definition preserves_null (t : MaskTransform) : bool :=
  match t with Hash _ | Email | Phone => true | _ => false end.

Definition hash_length (t : MaskTransform) : Z :=
  match t with Hash l => default DEFAULT_HASH_LENGTH l | _ => DEFAULT_HASH_LENGTH end.

Definition describe (str_debug : string -> string) (t : MaskTransform) : string :=
  match t with
  | Hash (Some n) => "salted SHA-256, first " ++ show n ++ " hex characters"
  | Hash None => "salted SHA-256"
  | Email => "deterministic address at " ++ FAKE_EMAIL_DOMAIN
  | Phone => "deterministic number under " ++ FAKE_PHONE_PREFIX
  | Null => "set to NULL"
  | Constant value => "set to " ++ str_debug value
  end%string.

Record MaskRule := mk_rule {
  rule_table : string;
  rule_column : string;
  transform : MaskTransform }.

#[export] Instance MaskRule_eq : EqDecision MaskRule.
Proof. solve_decision. Defined.

Definition hash_rule (table column : string) : MaskRule := mk_rule table column (Hash None).
Definition email_rule (table column : string) : MaskRule := mk_rule table column Email.

Inductive MaskError :=
| UnknownColumn (table column available : string)
| UnknownTable (table column : string)
| DuplicateRule (table column : string)
| UnsafeNaming (naming : string)
| NotMasked (table column : string) (count : Z)
| MaskDb (e : DbError).

(** [{}] of an [i64]. *)
Definition show_i64 (n : Z) : string := if n <? 0 then ("-" ++ show (- n))%string else show n.

Definition mask_error_text (e : MaskError) : string :=
  match e with
  | UnknownColumn t c a =>
      "masking rule for " ++ t ++ "." ++ c ++ " names a column that does not exist; "
      ++ t ++ " has: " ++ a
  | UnknownTable t c =>
      "masking rule for " ++ t ++ "." ++ c ++ " names a table that is not being copied with data, "
      ++ "so nothing would be masked"
  | DuplicateRule t c => "two masking rules both target " ++ t ++ "." ++ c
  | UnsafeNaming n =>
      "masking needs to own the destination database so it can drop it if masking fails, "
      ++ "and " ++ n ++ " restores into a database that already existed"
  | NotMasked t c n => show_i64 n ++ " row(s) in " ++ t ++ "." ++ c ++ " are not masked"
  | MaskDb e => db_error_text e
  end%string.

(** ** The salt *)

Section Salt.
Variable sha256_hex : string -> string.

Definition SALT_LABEL : string := ("dbsync/masking/v1" ++ String "000" "")%string.

Definition derive_salt (secret : string) : string := sha256_hex (SALT_LABEL ++ secret)%string.

Context {S E : Type}.
Variable get_setting : S -> string -> result (option string) E.
Variable set_setting : S -> string -> string -> result S E.

(** The secret and the store it is now kept in; [u] and [v] are two fresh UUIDs. *)
Definition ensure_secret (store : S) (u v : string) : result (string * S) E :=
  let? existing := get_setting store SALT_SETTING in
  match existing with
  | Some s =>
      if negb (String.eqb (trim s) "") then Ok (s, store)
      else let? store := set_setting store SALT_SETTING (u ++ v)%string in Ok ((u ++ v)%string, store)
  | None => let? store := set_setting store SALT_SETTING (u ++ v)%string in Ok ((u ++ v)%string, store)
  end.
End Salt.

(** ** Planning *)

Record InertRule := mk_inert { inert_rule : MaskRule; reason : string }.

Record MaskingCoverage := mk_coverage {
  effective : list MaskRule;
  inert : list InertRule }.

(** [BTreeSet<String>]: sorted, without repetitions. *)
Definition btree_set (l : list string) : list string := sort_strings (remove_dups l).

Definition coverage_tables (c : MaskingCoverage) : list string :=
  btree_set (map rule_table (effective c)).

Definition coverage_is_empty (c : MaskingCoverage) : bool :=
  match effective c with [] => true | _ => false end.

Definition rule_key (r : MaskRule) : string * string := (rule_table r, rule_column r).

Definition mem (s : string) (l : list string) : bool := existsb (String.eqb s) l.

Definition inert_reason (r : MaskRule) : string :=
  (rule_table r ++ " is not in this plan as a table carrying data, so no rows reach the "
   ++ "destination to mask")%string.

Section Planning.
Variables (engine : Engine) (tables_with_data : list string)
  (source_columns : gmap string (list string)).

(** The name looked for: the root of a dotted path in a document store. *)
Definition wanted_column (r : MaskRule) : string :=
  if is_relational engine then rule_column r
  else default (rule_column r) (head (split_on "." (rule_column r))).

Definition carries_data (r : MaskRule) : bool := mem (rule_table r) tables_with_data.

Definition check_column (r : MaskRule) : result unit MaskError :=
  let? columns := ok_or (source_columns !! rule_table r)
                    (UnknownTable (rule_table r) (rule_column r)) in
  if mem (wanted_column r) columns then Ok tt
  else Err (UnknownColumn (rule_table r) (rule_column r) (join ", " columns)).

(** The loop over the rules. *)
Fixpoint plan_rules (rules : list MaskRule) (seen : gset (string * string))
    (eff : list MaskRule) (ine : list InertRule) : result MaskingCoverage MaskError :=
  match rules with
  | [] => Ok (mk_coverage eff ine)
  | r :: rules' =>
      if bool_decide (rule_key r ∈ seen) then Err (DuplicateRule (rule_table r) (rule_column r))
      else
        let seen := {[rule_key r]} ∪ seen in
        if negb (carries_data r) then
          plan_rules rules' seen eff (ine ++ [mk_inert r (inert_reason r)])
        else
          let? _ := check_column r in
          plan_rules rules' seen (eff ++ [r]) ine
  end.

Definition plan_coverage (rules : list MaskRule) : result MaskingCoverage MaskError :=
  plan_rules rules ∅ [] [].
End Planning.

(** ** SQL *)

Inductive SqlDialect := MysqlDialect | PostgresDialect.

Definition dialect_of (e : Engine) : result SqlDialect MaskError :=
  match e with
  | Mysql => Ok MysqlDialect
  | Postgres => Ok PostgresDialect
  | Mongo => Err (MaskDb (NotSql Mongo))
  end.

Definition quote_table (d : SqlDialect) (name : string) : result string DbError :=
  match d with
  | MysqlDialect => quote_mysql_ident name
  | PostgresDialect =>
      match split_once "." name with
      | Some (schema, table) =>
          let? s := quote_pg_ident schema in
          let? t := quote_pg_ident table in
          Ok (s ++ "." ++ t)%string
      | None =>
          let? s := quote_pg_ident "public" in
          let? t := quote_pg_ident name in
          Ok (s ++ "." ++ t)%string
      end
  end.

Definition quote_column (d : SqlDialect) (name : string) : result string DbError :=
  match d with MysqlDialect => quote_mysql_ident name | PostgresDialect => quote_pg_ident name end.

Definition as_text (d : SqlDialect) (quoted : string) : string :=
  match d with
  | MysqlDialect => "CAST(" ++ quoted ++ " AS CHAR)"
  | PostgresDialect => quoted ++ "::text"
  end%string.

(** [Placeholders::take]: the placeholder and the next number. *)
Definition take_placeholder (d : SqlDialect) (next : Z) : string * Z :=
  (match d with MysqlDialect => "?" | PostgresDialect => ("$" ++ show next)%string end, next + 1).

Definition digest_expr (d : SqlDialect) (quoted_col p : string) : string :=
  match d with
  | MysqlDialect => "SHA2(CONCAT(" ++ p ++ ", " ++ quoted_col ++ "), 256)"
  | PostgresDialect =>
      "encode(sha256(convert_to(" ++ p ++ " || " ++ quoted_col ++ "::text, 'UTF8')), 'hex')"
  end%string.

(** The expression, the values bound so far and the next placeholder. *)
Definition set_expr (d : SqlDialect) (quoted_col : string) (t : MaskTransform) (binds : list string)
    (next : Z) (salt : string) : string * list string * Z :=
  let '(p, next') := take_placeholder d next in
  let digest := digest_expr d quoted_col p in
  match t with
  | Hash _ =>
      let len := show (hash_length t) in
      (match d with
       | MysqlDialect => "LEFT(" ++ digest ++ ", " ++ len ++ ")"
       | PostgresDialect => "left(" ++ digest ++ ", " ++ len ++ ")"
       end%string, binds ++ [salt], next')
  | Email =>
      (match d with
       | MysqlDialect => "CONCAT(LEFT(" ++ digest ++ ", 16), '@" ++ FAKE_EMAIL_DOMAIN ++ "')"
       | PostgresDialect => "left(" ++ digest ++ ", 16) || '@" ++ FAKE_EMAIL_DOMAIN ++ "'"
       end%string, binds ++ [salt], next')
  | Phone =>
      (match d with
       | MysqlDialect =>
           "CONCAT('" ++ FAKE_PHONE_PREFIX ++ "', LPAD(CONV(LEFT(" ++ digest
           ++ ", 7), 16, 10) % 10000000, 7, '0'))"
       | PostgresDialect =>
           "'" ++ FAKE_PHONE_PREFIX ++ "' || lpad(((('x' || left(" ++ digest
           ++ ", 7))::bit(28)::bigint) % 10000000)::text, 7, '0')"
       end%string, binds ++ [salt], next')
  | Null => ("NULL", binds, next)
  | Constant value => (p, binds ++ [value], next')
  end.

Definition violation_expr (d : SqlDialect) (quoted_col : string) (t : MaskTransform)
    (binds : list string) (next : Z) : string * list string * Z :=
  let text := as_text d quoted_col in
  match t with
  | Hash _ =>
      let len := show (hash_length t) in
      (match d with
       | MysqlDialect =>
           quoted_col ++ " IS NOT NULL AND (CHAR_LENGTH(" ++ text ++ ") <> " ++ len ++ " OR "
           ++ text ++ " NOT REGEXP '^[0-9a-f]+$')"
       | PostgresDialect =>
           quoted_col ++ " IS NOT NULL AND (length(" ++ text ++ ") <> " ++ len ++ " OR "
           ++ text ++ " !~ '^[0-9a-f]+$')"
       end%string, binds, next)
  | Email =>
      ((quoted_col ++ " IS NOT NULL AND " ++ text ++ " NOT LIKE '%@" ++ FAKE_EMAIL_DOMAIN ++ "'")%string,
       binds, next)
  | Phone =>
      ((quoted_col ++ " IS NOT NULL AND " ++ text ++ " NOT LIKE '" ++ FAKE_PHONE_PREFIX ++ "%'")%string,
       binds, next)
  | Null => ((quoted_col ++ " IS NOT NULL")%string, binds, next)
  | Constant value =>
      let '(p, next') := take_placeholder d next in
      ((quoted_col ++ " IS NULL OR " ++ text ++ " <> " ++ p)%string, binds ++ [value], next')
  end.

(** [by_table]: the rules of each table, in the order given, by table name. *)
Definition by_table (rules : list MaskRule) : list (string * list MaskRule) :=
  entries (fold_left (fun m r => <[rule_table r := default [] (m !! rule_table r) ++ [r]]> m) rules
             (∅ : gmap string (list MaskRule))).

Record TableStatement := mk_tstmt { ts_table : string; ts_statement : Statement }.

(** The assignments of one table. *)
Fixpoint assignments (d : SqlDialect) (salt : string) (rules : list MaskRule) (binds : list string)
    (next : Z) : result (list string * list string) DbError :=
  match rules with
  | [] => Ok ([], binds)
  | r :: rules' =>
      let? quoted_col := quote_column d (rule_column r) in
      let '(expr, binds, next) := set_expr d quoted_col (transform r) binds next salt in
      let? (rest, binds) := assignments d salt rules' binds next in
      Ok ((quoted_col ++ " = " ++ expr)%string :: rest, binds)
  end.

Definition update_statement (d : SqlDialect) (salt : string) (e : string * list MaskRule)
    : result TableStatement MaskError :=
  let? quoted_table := map_err (quote_table d e.1) MaskDb in
  let? (sets, binds) := map_err (assignments d salt e.2 [] 1) MaskDb in
  Ok (mk_tstmt e.1 (mk_stmt ("UPDATE " ++ quoted_table ++ " SET " ++ join ", " sets)%string binds)).

(** A loop that stops at the first error. *)
Fixpoint try_map {A B E} (f : A -> result B E) (l : list A) : result (list B) E :=
  match l with
  | [] => Ok []
  | a :: l' => let? b := f a in let? bs := try_map f l' in Ok (b :: bs)
  end.

Definition update_statements (engine : Engine) (rules : list MaskRule) (salt : string)
    : result (list TableStatement) MaskError :=
  let? d := dialect_of engine in
  try_map (update_statement d salt) (by_table rules).

Record TableCheck := mk_tcheck {
  tc_table : string;
  tc_statement : Statement;
  tc_columns : list string;
  tc_transforms : list MaskTransform }.

(** The count of the rows of which [violation] holds. *)
Definition count_expr (d : SqlDialect) (violation : string) : string :=
  match d with
  | MysqlDialect =>
      "CAST(COALESCE(SUM(CASE WHEN " ++ violation ++ " THEN 1 ELSE 0 END), 0) AS SIGNED)"
  | PostgresDialect =>
      "COALESCE(SUM(CASE WHEN " ++ violation ++ " THEN 1 ELSE 0 END), 0)::bigint"
  end%string.

Fixpoint projections (d : SqlDialect) (rules : list MaskRule) (binds : list string) (next : Z)
    : result (list string * list string) DbError :=
  match rules with
  | [] => Ok ([], binds)
  | r :: rules' =>
      let? quoted_col := quote_column d (rule_column r) in
      let '(violation, binds, next) := violation_expr d quoted_col (transform r) binds next in
      let? (rest, binds) := projections d rules' binds next in
      Ok (count_expr d violation :: rest, binds)
  end.

Definition check_statement (d : SqlDialect) (e : string * list MaskRule)
    : result TableCheck MaskError :=
  let? quoted_table := map_err (quote_table d e.1) MaskDb in
  let? (ps, binds) := map_err (projections d e.2 [] 1) MaskDb in
  Ok (mk_tcheck e.1 (mk_stmt ("SELECT " ++ join ", " ps ++ " FROM " ++ quoted_table)%string binds)
        (map rule_column e.2) (map transform e.2)).

Definition check_statements (engine : Engine) (rules : list MaskRule)
    : result (list TableCheck) MaskError :=
  let? d := dialect_of engine in
  try_map (check_statement d) (by_table rules).

Record MaskingReport := mk_mreport {
  mr_tables : list string;
  mr_columns : list string;
  rows_rewritten : Z;
  mr_inert : list InertRule;
  verified : bool }.

(** ** Lemmas *)

Definition of_table (t : string) (rules : list MaskRule) : list MaskRule :=
  List.filter (fun r => String.eqb (rule_table r) t) rules.

Lemma by_table_fold rules t : forall m : gmap string (list MaskRule),
  fold_left (fun m r => <[rule_table r := default [] (m !! rule_table r) ++ [r]]> m) rules m !! t =
  match of_table t rules with [] => m !! t | rs => Some (default [] (m !! t) ++ rs) end.
Proof.
  induction rules as [|r rules IH]; intros m; [done|]. cbn [fold_left of_table List.filter].
  rewrite IH. fold (of_table t rules). destruct (String.eqb_spec (rule_table r) t) as [<-|Hne].
  - rewrite lookup_insert_eq. simpl. destruct (of_table (rule_table r) rules); [done|].
    by rewrite <- app_assoc.
  - by rewrite lookup_insert_ne.
Qed.

(** The groups are the rules of each table, no table twice. *)
Lemma by_table_In rules t rs : In (t, rs) (by_table rules) <-> rs = of_table t rules /\ rs <> [].
Proof.
  unfold by_table. rewrite entries_spec, by_table_fold, lookup_empty. simpl.
  destruct (of_table t rules) as [|r l]; [naive_solver|]. split; [by intros [= <-]|by intros [-> _]].
Qed.

Lemma by_table_NoDup rules : NoDup (map fst (by_table rules)).
Proof. apply entries_keys_NoDup. Qed.

Lemma try_map_Ok {A B E} (f : A -> result B E) l out :
  try_map f l = Ok out <-> Forall2 (fun a b => f a = Ok b) l out.
Proof.
  revert out. induction l as [|a l IH]; intros out; cbn [try_map].
  - split; [by intros [= <-]|]. by inversion 1.
  - split.
    + intros H. destruct (f a) as [b|] eqn:Ef; [|done]. cbn [rbind] in H.
      destruct (try_map f l) as [bs|]; [|done]. injection H as <-. constructor; [done|]. by apply IH.
    + inversion 1 as [|? b ? bs Hb Hbs]; subst. rewrite Hb. cbn [rbind].
      apply IH in Hbs. by rewrite Hbs.
Qed.

Lemma set_expr_placeholders d q t binds next salt e binds' next' :
  set_expr d q t binds next salt = (e, binds', next') ->
  next' - next = Z.of_nat (length binds') - Z.of_nat (length binds).
Proof.
  destruct t; cbn; intros [= <- <- <-]; rewrite ?length_app; simpl; lia.
Qed.

(** Every rule of a table has its assignment. *)
Lemma assignments_In d salt rules : forall binds next sets binds',
  assignments d salt rules binds next = Ok (sets, binds') ->
  length sets = length rules
  /\ forall r, In r rules -> exists q expr,
       quote_column d (rule_column r) = Ok q /\ In (q ++ " = " ++ expr)%string sets.
Proof.
  induction rules as [|r rules IH]; intros binds next sets binds'; cbn [assignments].
  - intros [= <- <-]. by split.
  - destruct (quote_column d (rule_column r)) as [q|] eqn:Eq; [|done]. cbn [rbind].
    destruct (set_expr _ _ _ _ _ _) as [[expr b1] n1].
    destruct (assignments d salt rules b1 n1) as [[rest b2]|] eqn:Er; [|done].
    cbn [rbind]. intros [= <- <-]. destruct (IH _ _ _ _ Er) as [Hl Hr]. split; [simpl; by rewrite Hl|].
    intros r' [<-|Hin].
    + exists q, expr. split; [done|by left].
    + destruct (Hr r' Hin) as (q' & e' & Hq & He). exists q', e'. split; [done|by right].
Qed.

(** The query [s] counts in its column [j] the rows of table [t] that [r] leaves. *)
Definition counts_violations (d : SqlDialect) (s : Statement) (j : nat) (r : MaskRule) : Prop :=
  exists table ps q bound next,
    quote_table d (rule_table r) = Ok table /\ quote_column d (rule_column r) = Ok q
    /\ sql s = ("SELECT " ++ join ", " ps ++ " FROM " ++ table)%string
    /\ ps !! j = Some (count_expr d (violation_expr d q (transform r) bound next).1.1).

Lemma projections_Ok d rules : forall binds next ps binds',
  projections d rules binds next = Ok (ps, binds') ->
  forall j r, rules !! j = Some r -> exists q bound next',
    quote_column d (rule_column r) = Ok q
    /\ ps !! j = Some (count_expr d (violation_expr d q (transform r) bound next').1.1).
Proof.
  induction rules as [|r rules IH]; intros binds next ps binds'; cbn [projections].
  - by intros [= <- <-].
  - destruct (quote_column d (rule_column r)) as [q|] eqn:Eq; [|done]. cbn [rbind].
    destruct (violation_expr d q (transform r) binds next) as [[expr b1] n1] eqn:Ev.
    destruct (projections d rules b1 n1) as [[rest b2]|] eqn:Er; [|done].
    cbn [rbind]. intros [= <- <-] [|j] r' Hj; simpl in Hj.
    + injection Hj as <-. exists q, binds, next. by rewrite Ev.
    + by apply (IH _ _ _ _ Er).
Qed.

Lemma update_statement_Ok d salt e u :
  update_statement d salt e = Ok u ->
  ts_table u = e.1 /\ exists quoted sets binds,
    quote_table d e.1 = Ok quoted /\ assignments d salt e.2 [] 1 = Ok (sets, binds)
    /\ ts_statement u = mk_stmt ("UPDATE " ++ quoted ++ " SET " ++ join ", " sets)%string binds.
Proof.
  unfold update_statement. destruct (quote_table d e.1) as [q|]; [|done]. cbn [map_err rbind].
  destruct (assignments d salt e.2 [] 1) as [[sets binds]|]; [|done]. cbn [map_err rbind].
  intros [= <-]. split; [done|]. by exists q, sets, binds.
Qed.

Lemma check_statement_Ok d e c :
  check_statement d e = Ok c ->
  tc_table c = e.1 /\ tc_columns c = map rule_column e.2 /\ tc_transforms c = map transform e.2
  /\ forall j r, e.2 !! j = Some r -> rule_table r = e.1 -> counts_violations d (tc_statement c) j r.
Proof.
  unfold check_statement. destruct (quote_table d e.1) as [q|] eqn:Eq; [|done]. cbn [map_err rbind].
  destruct (projections d e.2 [] 1) as [[ps binds]|] eqn:Ep; [|done]. cbn [map_err rbind].
  intros [= <-]. split_and!; try done. intros j r Hj Hr. cbn [tc_statement].
  destruct (projections_Ok _ _ _ _ _ _ Ep j r Hj) as (qc & b & n & Hqc & Hp).
  exists q, ps, qc, b, n. by rewrite Hr.
Qed.

Section Coverage.
Variables (engine : Engine) (tables_with_data : list string)
  (source_columns : gmap string (list string)).

Lemma plan_rules_spec rules : forall seen eff ine c,
  plan_rules engine tables_with_data source_columns rules seen eff ine = Ok c <->
  NoDup (map rule_key rules) /\ Forall (fun r => rule_key r ∉ seen) rules
  /\ Forall (fun r => carries_data tables_with_data r = true ->
                      check_column engine source_columns r = Ok tt) rules
  /\ c = mk_coverage (eff ++ List.filter (carries_data tables_with_data) rules)
           (ine ++ map (fun r => mk_inert r (inert_reason r))
                     (List.filter (fun r => negb (carries_data tables_with_data r)) rules)).
Proof.
  induction rules as [|r rules IH]; intros seen eff ine c; cbn [plan_rules map List.filter].
  { rewrite !app_nil_r. split; [intros [= <-]; split_and!; by repeat constructor|naive_solver]. }
  rewrite NoDup_cons, !Forall_cons.
  destruct (decide (rule_key r ∈ seen)) as [Hin|Hout].
  { rewrite bool_decide_true by done. split; [done|]. by intros (_ & [? _] & _). }
  rewrite bool_decide_false by done.
  assert (Forall (fun r' => rule_key r' ∉ ({[rule_key r]} ∪ seen)) rules <->
    (rule_key r ∉ map rule_key rules) /\ Forall (fun r' => rule_key r' ∉ seen) rules) as Hseen.
  { rewrite !List.Forall_forall. split.
    - intros H. split; [|intros r' Hr' Hs; apply (H r' Hr'); by apply elem_of_union_r].
      rewrite list_elem_of_In, in_map_iff. intros (r' & E & Hr'). apply (H r' Hr').
      rewrite E. by apply elem_of_union_l, elem_of_singleton.
    - intros [Hn Hs] r' Hr' [E%elem_of_singleton|Hin]%elem_of_union; [|by apply (Hs r')].
      apply Hn. rewrite <- E. by apply list_elem_of_In, in_map. }
  destruct (carries_data tables_with_data r) eqn:Ec; cbn [negb].
  - destruct (check_column engine source_columns r) as [[]|e] eqn:Ek; cbn [rbind].
    + rewrite IH, Hseen, <- app_assoc. cbn [app]. tauto.
    + split; [done|]. intros (_ & _ & [Hk _] & _). by specialize (Hk eq_refl).
  - rewrite IH, Hseen, <- app_assoc. cbn [app map]. intuition congruence.
Qed.

Lemma mem_In s l : mem s l = true <-> In s l.
Proof.
  unfold mem. rewrite existsb_exists. split; [by intros (t & Ht & ->%String.eqb_eq)|].
  intros Hs. exists s. by rewrite String.eqb_refl.
Qed.

Lemma check_column_Ok r :
  check_column engine source_columns r = Ok tt <->
  exists columns, source_columns !! rule_table r = Some columns /\ In (wanted_column engine r) columns.
Proof.
  unfold check_column. destruct (source_columns !! rule_table r) as [cols|]; cbn [ok_or rbind];
    [|split; [done|by intros (? & ? & _)]].
  destruct (mem (wanted_column engine r) cols) eqn:E.
  - split; [|done]. intros _. exists cols. by rewrite <- mem_In.
  - split; [done|]. intros (? & [= <-] & Hm%mem_In). congruence.
Qed.
End Coverage.

(** ** Properties *)

(** Masking is planned exactly.  A set of rules is accepted when no column is
    targeted twice and every rule on a table that carries data names a column
    the source was seen to have (in a document store, the root of its path); the
    rules that run are then all of those on tables carrying data, in order, and
    every other rule is reported, none dropped. *)
Theorem plan_coverage_spec engine data columns rules c :
  plan_coverage engine data columns rules = Ok c <->
  NoDup (map rule_key rules)
  /\ (forall r, In r rules -> In (rule_table r) data ->
        exists cols, columns !! rule_table r = Some cols /\ In (wanted_column engine r) cols)
  /\ effective c = List.filter (carries_data data) rules
  /\ inert c = map (fun r => mk_inert r (inert_reason r))
                 (List.filter (fun r => negb (carries_data data r)) rules).
Proof.
  unfold plan_coverage. rewrite plan_rules_spec, !List.Forall_forall.
  setoid_rewrite check_column_Ok. setoid_rewrite mem_In. cbn [app]. split.
  - intros (Hn & _ & Hk & ->). by split_and!.
  - intros (Hn & Hk & He & Hi). split_and!; [done|set_solver|done|]. destruct c. simpl in *. by subst.
Qed.

(** A rule on the bare name of a PostgreSQL table does not run when the plan
    lists that table by its qualified name, which is how it is introspected: the
    rule is reported as inert and the run goes on without it. *)
Theorem bare_postgres_rule_is_inert table column columns :
  contains_char "." table = false ->
  plan_coverage Postgres [("public." ++ table)%string] columns [email_rule table column] =
  Ok (mk_coverage [] [mk_inert (email_rule table column) (inert_reason (email_rule table column))])
  /\ quote_table PostgresDialect table = quote_table PostgresDialect ("public." ++ table).
Proof.
  intros Ht. assert (mem table [("public." ++ table)%string] = false) as Hm.
  { cbn [mem existsb]. rewrite orb_false_r. apply String.eqb_neq. intros E.
    apply (f_equal String.length) in E. rewrite length_append in E. simpl in E. lia. }
  split.
  - unfold plan_coverage. cbn [plan_rules]. rewrite bool_decide_false by set_solver.
    unfold carries_data. cbn [rule_table email_rule]. rewrite Hm. done.
  - unfold quote_table. change ("public." ++ table)%string with ("public" ++ String "." table)%string.
    rewrite (split_once_app "." "public" table) by done.
    destruct (split_once "." table) as [[a b]|] eqn:E; [|done].
    apply split_once_Some in E. subst table. exfalso. clear Hm. revert Ht.
    induction a as [|x a IH]; simpl; [done|]. intros [_ H]%orb_false_iff. by apply IH.
Qed.

(** Every rule is applied and every rule is checked.  When the statements can
    be built, there is one [UPDATE] and one read-back per table, in the same
    order; each rule has an assignment to its quoted column in the update of its
    table, and its column and transform head one of the counts read back. *)
Theorem every_rule_is_applied_and_checked engine rules salt us cs :
  update_statements engine rules salt = Ok us -> check_statements engine rules = Ok cs ->
  NoDup (map ts_table us) /\ map tc_table cs = map ts_table us
  /\ forall r, In r rules ->
     exists i u c, us !! i = Some u /\ cs !! i = Some c /\ ts_table u = rule_table r
     /\ (exists d table sets q expr, dialect_of engine = Ok d
          /\ quote_table d (rule_table r) = Ok table /\ quote_column d (rule_column r) = Ok q
          /\ sql (ts_statement u) = ("UPDATE " ++ table ++ " SET " ++ join ", " sets)%string
          /\ In (q ++ " = " ++ expr)%string sets)
     /\ (exists j d, tc_columns c !! j = Some (rule_column r)
          /\ tc_transforms c !! j = Some (transform r)
          /\ dialect_of engine = Ok d /\ counts_violations d (tc_statement c) j r).
Proof.
  unfold update_statements, check_statements.
  destruct (dialect_of engine) as [d|] eqn:Ed; [|done]. cbn [rbind].
  rewrite !try_map_Ok. intros Hu Hc.
  assert (map ts_table us = map fst (by_table rules)) as Eu.
  { clear -Hu. induction Hu as [|e u l us Hu _ IH]; [done|]. simpl. rewrite IH.
    by apply update_statement_Ok in Hu as [-> _]. }
  assert (map tc_table cs = map fst (by_table rules)) as Ec.
  { clear -Hc. induction Hc as [|e c l cs Hc _ IH]; [done|]. simpl. rewrite IH.
    by apply check_statement_Ok in Hc as [-> _]. }
  rewrite Eu, Ec. split; [apply by_table_NoDup|]. split; [done|]. intros r Hr.
  assert (In (rule_table r, of_table (rule_table r) rules) (by_table rules)) as Hin.
  { apply by_table_In. split; [done|]. intros E.
    assert (In r []) as []. rewrite <- E. apply filter_In. by rewrite String.eqb_refl. }
  apply list_elem_of_In, list_elem_of_lookup in Hin as [i Hi].
  destruct (Forall2_lookup_l _ _ _ _ _ Hu Hi) as (u & Hui & Hue).
  destruct (Forall2_lookup_l _ _ _ _ _ Hc Hi) as (c & Hci & Hce).
  apply update_statement_Ok in Hue as (Ht & table & sets & binds & Hq & Ha & Hs).
  apply check_statement_Ok in Hce as (_ & Hcols & Htr & Hcv). cbn [fst snd] in *.
  assert (In r (of_table (rule_table r) rules)) as Hof by (apply filter_In; by rewrite String.eqb_refl).
  exists i, u, c. split_and!; [done|done|done|..].
  - apply assignments_In in Ha as [_ Ha]. destruct (Ha r Hof) as (q & expr & Hqc & He).
    exists d, table, sets, q, expr. split_and!; try done. by rewrite Hs.
  - apply list_elem_of_In, list_elem_of_lookup in Hof as [j Hj]. exists j, d.
    rewrite Hcols, Htr, !list_lookup_fmap, Hj. split_and!; [done..|]. by apply Hcv.
Qed.

(** ** Witnesses *)

Definition sample_rules : list MaskRule :=
  [email_rule "users" "email"; mk_rule "orders" "note" (Constant "x"); mk_rule "users" "phone" Phone].

Definition sample_updates : list TableStatement :=
  match update_statements Mysql sample_rules "salt" with Ok l => l | Err _ => [] end.

Definition sample_checks : list TableCheck :=
  match check_statements Mysql sample_rules with Ok l => l | Err _ => [] end.

Lemma sample_updates_Ok : update_statements Mysql sample_rules "salt" = Ok sample_updates.
Proof. vm_compute. reflexivity. Qed.

Lemma sample_checks_Ok : check_statements Mysql sample_rules = Ok sample_checks.
Proof. vm_compute. reflexivity. Qed.

Example sample_sql :
  map (fun u => (sql (ts_statement u), binds (ts_statement u))) sample_updates =
  [("UPDATE `orders` SET `note` = ?", ["x"]);
   ("UPDATE `users` SET `email` = CONCAT(LEFT(SHA2(CONCAT(?, `email`), 256), 16), '@example.invalid'), `phone` = CONCAT('+1555', LPAD(CONV(LEFT(SHA2(CONCAT(?, `phone`), 256), 7), 16, 10) % 10000000, 7, '0'))",
    ["salt"; "salt"])].
Proof. vm_compute. reflexivity. Qed.

Lemma every_rule_is_applied_and_checked_witness :
  NoDup (map ts_table sample_updates) /\ map tc_table sample_checks = map ts_table sample_updates.
Proof.
  pose proof (every_rule_is_applied_and_checked Mysql sample_rules "salt" sample_updates sample_checks
    sample_updates_Ok sample_checks_Ok) as H.
  exact (conj (proj1 H) (proj1 (proj2 H))).
Defined.

Lemma bare_postgres_rule_is_inert_witness :
  plan_coverage Postgres ["public.users"] {["public.users" := ["email"]]} [email_rule "users" "email"] =
  Ok (mk_coverage [] [mk_inert (email_rule "users" "email") (inert_reason (email_rule "users" "email"))]).
Proof.
  exact (proj1 (bare_postgres_rule_is_inert "users" "email" {["public.users" := ["email"]]} eq_refl)).
Defined.
