(* ===== verification/Plan.v ===== *)
(** * Plan: saved table selections and the tables that exist today
      (engine/src/plan.rs, and [resolve_selections] of engine/src/ops.rs)

    A saved selection names exceptions; [expand_selections] completes it against
    the source's table list, and [selections_from_tables_conf] completes a legacy
    file the other way round. *)

From Stdlib Require Import ZArith Lia Ascii String List Bool.
From stdpp Require Import base list gmap strings.
From S2P Require Import Prelude Text Domain Backup Sql Mask.
Import ListNotations.

Open Scope string_scope.
Open Scope list_scope.
Open Scope Z_scope.

Record SyncPlan := mk_sync_plan {
  sp_id : Uuid;
  sp_profile_id : Uuid;
  sp_name : string;
  sp_database : string;
  sp_selections : list TableSelection;
  sp_masking : list MaskRule;
  sp_revision : Z;
  sp_created_at : Z;
  sp_updated_at : Z }.

Record SyncPlanCreate := mk_plan_create {
  spc_profile_id : Uuid;
  spc_name : string;
  spc_database : string;
  spc_selections : list TableSelection;
  spc_masking : list MaskRule }.

(** The names with one mode. *)
Definition names_with (mode : TableMode) (l : list TableSelection) : list string :=
  map sel_name (List.filter (fun s => mode_eqb (sel_mode s) mode) l).

Definition plan_tables_with_data (p : SyncPlan) : list string :=
  names_with SchemaAndData (sp_selections p).

Definition active_masking (p : SyncPlan) : list MaskRule :=
  List.filter (fun r => mem (rule_table r) (plan_tables_with_data p)) (sp_masking p).

Definition schema_only_tables (p : SyncPlan) : list string :=
  names_with SchemaOnly (sp_selections p).

(** The wanted names that are not in the list. *)
Definition missing (l : list TableSelection) (available : list string) : list string :=
  List.filter (fun name => negb (mem name available))
    (map sel_name (List.filter (fun s => negb (mode_eqb (sel_mode s) Exclude)) l)).

Definition missing_from (p : SyncPlan) (available : list string) : list string :=
  missing (sp_selections p) available.

Definition unlisted_in (p : SyncPlan) (available : list string) : list string :=
  List.filter (fun name => negb (existsb (fun s => String.eqb (sel_name s) name) (sp_selections p)))
    available.

Definition names_same_table (saved available : string) : bool :=
  String.eqb saved available
  || match strip_prefix "public." available with Some r => String.eqb r saved | None => false end.

Definition expand_one (l : list TableSelection) (name : string) : TableSelection :=
  default (with_data name) (List.find (fun s => names_same_table (sel_name s) name) l).

Definition expand_selections (l : list TableSelection) (available : list string)
    : list TableSelection :=
  map (expand_one l) available.

Definition expand_for (p : SyncPlan) (available : list string) : list TableSelection :=
  expand_selections (sp_selections p) available.

(** ** A legacy file *)

(** [filter(|name| seen.insert(name))]. *)
Fixpoint dedup (seen : gset string) (l : list string) : list string :=
  match l with
  | [] => []
  | s :: l' => if bool_decide (s ∈ seen) then dedup seen l' else s :: dedup ({[s]} ∪ seen) l'
  end.

(** The table a line names, if it is not blank or a comment. *)
Definition line_table (line : string) : option string :=
  let line := trim line in
  if String.eqb line "" || starts_with "#" line then None else head (split_whitespace line).

Fixpoint filter_somes {A B} (f : A -> option B) (l : list A) : list B :=
  match l with
  | [] => []
  | a :: l' => match f a with Some b => b :: filter_somes f l' | None => filter_somes f l' end
  end.

Definition parse_tables_conf (contents : string) : list TableSelection :=
  map with_data (dedup ∅ (filter_somes line_table (lines contents))).

Definition selections_from_tables_conf (contents : string) (available : list string)
    : list TableSelection :=
  let listed := parse_tables_conf contents in
  map (fun name =>
      if existsb (fun s => names_same_table (sel_name s) name) listed
      then with_data name else schema_only name)
    available.

(** ** Resolving against the source (ops.rs) *)

Definition available_names (tables : list TableInfo) : list string := map qualified_name tables.

(** The selection a job runs with, and the warnings it starts with. *)
Definition resolve_selections (saved : list TableSelection) (tables : list TableInfo)
    : list TableSelection * list string :=
  let available := available_names tables in
  let gone := missing saved available in
  let expanded := expand_selections saved available in
  let added := map sel_name
    (List.filter (fun s => negb (existsb (fun old => String.eqb (sel_name old) (sel_name s)) saved)) expanded) in
  let count l := show (Z.of_nat (length l)) in
  (expanded,
   (match gone with
    | [] => []
    | _ => [(count gone ++ " table(s) in this selection are no longer on the source and were skipped: "
             ++ join ", " gone)%string]
    end)
   ++ (match added with
       | [] => []
       | _ => [(count added ++ " table(s) are not named in this selection and were included with their data: "
                ++ join ", " added)%string]
       end)).

(** ** Lemmas *)

Lemma names_same_refl n : names_same_table n n = true.
Proof. unfold names_same_table. by rewrite String.eqb_refl. Qed.

Lemma names_same_iff saved available :
  names_same_table saved available = true <->
  saved = available \/ available = ("public." ++ saved)%string.
Proof.
  unfold names_same_table. rewrite orb_true_iff, String.eqb_eq. f_equiv.
  destruct (strip_prefix "public." available) as [r|] eqn:E.
  - apply strip_prefix_Some in E. rewrite String.eqb_eq. subst. split; [by intros ->|].
    by intros <-%append_inj_l.
  - split; [done|]. intros H. apply (strip_prefix_Some "public." available) in H. congruence.
Qed.

Lemma expand_one_names l name : names_same_table (sel_name (expand_one l name)) name = true.
Proof.
  unfold expand_one. destruct (List.find _ l) as [s|] eqn:E; [by apply List.find_some in E as [_ ?]|].
  apply names_same_refl.
Qed.

(** No table is another one's name under [public]. *)
Definition unambiguous (available : list string) : Prop :=
  forall a b, In a available -> In b available -> b <> ("public." ++ a)%string.

Lemma expanded_unique l available a b :
  unambiguous available -> In a available -> In b available ->
  names_same_table (sel_name (expand_one l a)) b = true -> a = b.
Proof.
  intros Hu Ha Hb Hs. apply names_same_iff in Hs.
  pose proof (expand_one_names l a) as Hn. apply names_same_iff in Hn.
  destruct Hn as [Hn|Hn], Hs as [Hs|Hs]; [congruence|..].
  - exfalso. apply (Hu a b Ha Hb). congruence.
  - exfalso. apply (Hu b a Hb Ha). congruence.
  - congruence.
Qed.

(** Finding by name in an expanded list gives the entry of that name. *)
Lemma find_expanded l n k :
  In n k ->
  (forall a, In a k -> names_same_table (sel_name (expand_one l a)) n = true -> a = n) ->
  List.find (fun s => names_same_table (sel_name s) n) (map (expand_one l) k) = Some (expand_one l n).
Proof.
  induction k as [|a k IH]; intros Hn Hu; [done|]. cbn [map List.find].
  destruct (names_same_table (sel_name (expand_one l a)) n) eqn:E.
  - by rewrite (Hu a (or_introl eq_refl) E).
  - destruct Hn as [->|Hn]; [by rewrite expand_one_names in E|].
    apply IH; [done|]. intros x Hx. apply Hu. by right.
Qed.

Lemma expand_one_excluded l name :
  sel_mode (expand_one l name) = Exclude ->
  exists s, In s l /\ names_same_table (sel_name s) name = true /\ sel_mode s = Exclude.
Proof.
  unfold expand_one. destruct (List.find _ l) as [s|] eqn:E; [|done].
  apply List.find_some in E as [Hin Hn]. simpl. eauto.
Qed.

Lemma dedup_In s l : forall seen, In s (dedup seen l) <-> In s l /\ s ∉ seen.
Proof.
  induction l as [|t l IH]; intros seen; cbn [dedup]; [naive_solver|].
  case_bool_decide as Ht.
  - rewrite IH. split; [intros [? ?]; split; [by right|done]|].
    intros [[->|?] ?]; [done|done].
  - cbn [In]. rewrite IH, not_elem_of_union, not_elem_of_singleton. split.
    + intros [->|(? & ? & ?)]; auto.
    + intros [[->|?] ?]; [by left|]. destruct (decide (t = s)) as [->|]; [by left|right; auto].
Qed.

Lemma filter_somes_In {A B} (f : A -> option B) l b :
  In b (filter_somes f l) <-> exists a, In a l /\ f a = Some b.
Proof.
  induction l as [|a l IH]; cbn [filter_somes]; [naive_solver|].
  destruct (f a) as [b'|] eqn:E; cbn [In]; rewrite IH; naive_solver.
Qed.

(** The tables a legacy file names. *)
Lemma parse_tables_conf_names contents n :
  In n (map sel_name (parse_tables_conf contents)) <->
  exists line, In line (lines contents) /\ line_table line = Some n.
Proof.
  unfold parse_tables_conf. rewrite map_map. cbn [with_data sel_name]. rewrite map_id, dedup_In.
  rewrite filter_somes_In. set_solver.
Qed.

(** ** Properties *)

(** Completing a selection loses no table.  The result has one entry for each
    table the source has today, in its order and for no other; an entry is the
    first saved one that names the table, or the table with its data when none
    does, so a table is left out only because a saved entry says so.  Completing
    a completed list changes nothing. *)
Theorem expand_selections_spec l available :
  (forall i n, available !! i = Some n ->
     exists e, expand_selections l available !! i = Some e
       /\ names_same_table (sel_name e) n = true
       /\ (e = with_data n \/ In e l)
       /\ ((forall s, In s l -> names_same_table (sel_name s) n = false) -> e = with_data n)
       /\ (sel_mode e = Exclude ->
            exists s, In s l /\ names_same_table (sel_name s) n = true /\ sel_mode s = Exclude))
  /\ length (expand_selections l available) = length available
  /\ (unambiguous available ->
      expand_selections (expand_selections l available) available = expand_selections l available).
Proof.
  split_and!.
  - intros i n Hi. exists (expand_one l n). unfold expand_selections.
    rewrite list_lookup_fmap, Hi. split_and!; [done|apply expand_one_names| | |apply expand_one_excluded].
    + unfold expand_one. destruct (List.find _ l) as [s|] eqn:E; [|by left].
      apply List.find_some in E as [? _]. by right.
    + intros Hno. unfold expand_one. destruct (List.find _ l) as [s|] eqn:E; [|done].
      apply List.find_some in E as [Hin Hs]. by rewrite Hno in Hs.
  - apply length_map.
  - intros Hu. apply map_ext_in. intros n Hn. unfold expand_one at 1.
    unfold expand_selections. rewrite find_expanded; [done|done|].
    intros a Ha Hs. by eapply expanded_unique.
Qed.

(** A legacy file is read the way the old tool read it: over the tables the
    source has, in its order, a table carries its data exactly when some line of
    the file names it, bare or under [public], and is structure only otherwise. *)
Theorem tables_conf_spec contents available i n :
  available !! i = Some n ->
  exists mode, selections_from_tables_conf contents available !! i = Some (mk_sel n mode None)
    /\ (mode = SchemaAndData \/ mode = SchemaOnly)
    /\ (mode = SchemaAndData <->
        exists line t, In line (lines contents) /\ line_table line = Some t
          /\ (t = n \/ n = ("public." ++ t)%string)).
Proof.
  intros Hi. unfold selections_from_tables_conf. rewrite list_lookup_fmap, Hi. cbn [fmap option_fmap option_map].
  assert (existsb (fun s => names_same_table (sel_name s) n) (parse_tables_conf contents) = true <->
    exists line t, In line (lines contents) /\ line_table line = Some t
      /\ (t = n \/ n = ("public." ++ t)%string)) as H.
  { rewrite existsb_exists. split.
    - intros (s & Hs & Hn). apply names_same_iff in Hn.
      assert (In (sel_name s) (map sel_name (parse_tables_conf contents))) as Hm by by apply in_map.
      apply parse_tables_conf_names in Hm as (line & Hl & Ht). eauto 6.
    - intros (line & t & Hl & Ht & Hn).
      assert (In t (map sel_name (parse_tables_conf contents))) as Hm
        by (apply parse_tables_conf_names; eauto).
      apply in_map_iff in Hm as (s & <- & Hs). exists s. by rewrite names_same_iff. }
  destruct (existsb _ _); [exists SchemaAndData|exists SchemaOnly]; split_and!; auto.
  - split; [|done]. intros _. by apply H.
  - split; [done|]. intros Hx. by apply H in Hx.
Qed.

(** The drift warnings compare names that expansion does not: a PostgreSQL
    table that a saved set names bare is backed up as the set says, and is at the
    same time reported as gone from the source and skipped. *)
Theorem included_table_reported_missing mode table :
  mode <> Exclude ->
  let saved := [mk_sel table mode None] in
  let tables := [new_table_info (Some "public") table None None None None] in
  fst (resolve_selections saved tables) = saved
  /\ In ("1 table(s) in this selection are no longer on the source and were skipped: " ++ table)%string
       (snd (resolve_selections saved tables)).
Proof.
  intros Hm. cbn zeta. set (saved := [mk_sel table mode None]).
  set (tables := [new_table_info (Some "public") table None None None None]).
  assert (available_names tables = [("public." ++ table)%string]) as Ha by done.
  assert (names_same_table table ("public." ++ table) = true) as Hs by (apply names_same_iff; by right).
  assert (mem table [("public." ++ table)%string] = false) as Hin.
  { cbn [mem existsb]. rewrite orb_false_r. apply String.eqb_neq. intros E.
    apply (f_equal String.length) in E. rewrite length_append in E. simpl in E. lia. }
  assert (missing saved [("public." ++ table)%string] = [table]) as Hmiss.
  { unfold missing, saved. cbn [List.filter map sel_mode sel_name].
    rewrite (proj2 (mode_eqb_false mode Exclude) Hm). cbn [negb map List.filter sel_name]. by rewrite Hin. }
  unfold resolve_selections. rewrite Ha, Hmiss. cbn [fst snd]. split.
  - unfold expand_selections, expand_one, saved. cbn [map List.find sel_name]. by rewrite Hs.
  - apply in_app_iff. left. left. reflexivity.
Qed.

(** ** Witnesses *)

Lemma tables_conf_spec_witness :
  exists mode,
    selections_from_tables_conf ("# legacy" ++ String newline ("orders x" ++ String newline ""))
      ["public.logs"; "public.orders"] !! 1%nat = Some (mk_sel "public.orders" mode None)
    /\ (mode = SchemaAndData \/ mode = SchemaOnly).
Proof.
  destruct (tables_conf_spec ("# legacy" ++ String newline ("orders x" ++ String newline ""))
    ["public.logs"; "public.orders"] 1 "public.orders" eq_refl) as (mode & E & Hm & _).
  exact (ex_intro _ mode (conj E Hm)).
Defined.

Example tables_conf_example :
  selections_from_tables_conf ("# legacy" ++ String newline ("orders x" ++ String newline ""))
    ["public.logs"; "public.orders"] = [schema_only "public.logs"; with_data "public.orders"].
Proof. vm_compute. reflexivity. Qed.

Lemma included_table_reported_missing_witness :
  fst (resolve_selections [with_data "orders"] [new_table_info (Some "public") "orders" None None None None])
  = [with_data "orders"].
Proof. exact (proj1 (included_table_reported_missing SchemaAndData "orders" ltac:(discriminate))). Defined.

Lemma expand_selections_spec_witness :
  expand_selections [mk_sel "orders" Exclude None] ["public.orders"; "archive.orders"] =
  expand_selections (expand_selections [mk_sel "orders" Exclude None] ["public.orders"; "archive.orders"])
    ["public.orders"; "archive.orders"].
Proof.
  symmetry. apply (expand_selections_spec [mk_sel "orders" Exclude None] ["public.orders"; "archive.orders"]).
  intros a b Ha Hb. cbn in Ha, Hb. intuition (subst; discriminate).
Defined.
