(* ===== verification/Job.v ===== *)
(** * Job: progress events, the context of a job and the registry of running jobs
      (engine/src/events.rs, engine/src/job.rs)

    A [JobContext] is cloned freely and its clones share one log, one step mark,
    one last error and one cancellation token, so the state of a job is one
    record and a clone is the same record.  The live channel is lossy; here it is
    the list of what was sent.  [ts] is passed in where the code reads the clock.
    A percentage is an exact ratio where the code has a 64-bit float. *)

From Stdlib Require Import ZArith QArith Lia Ascii String List Bool.
From stdpp Require Import base list gmap strings.
From S2P Require Import Prelude Text Domain.
Import ListNotations.

Open Scope string_scope.
Open Scope list_scope.
Open Scope Z_scope.

Inductive ProgressUnit := Bytes | Tables.

Record ProgressEvent := mk_event {
  ev_job_id : Uuid;
  ts : Z;
  phase : JobPhase;
  level : LogLevel;
  message : string;
  ev_table : option string;
  done : option Z;
  total : option Z;
  unit_ : option ProgressUnit;
  ev_bytes : option Z;
  rows : option Z;
  percent : option Q;
  step : option Z;
  step_total : option Z }.

Definition new_event (job_id : Uuid) (now : Z) (p : JobPhase) (m : string) : ProgressEvent :=
  mk_event job_id now p Info m None None None None None None None None None.

Definition with_level (e : ProgressEvent) (l : LogLevel) : ProgressEvent :=
  mk_event (ev_job_id e) (ts e) (phase e) l (message e) (ev_table e) (done e) (total e) (unit_ e)
    (ev_bytes e) (rows e) (percent e) (step e) (step_total e).

Definition with_table (e : ProgressEvent) (t : string) : ProgressEvent :=
  mk_event (ev_job_id e) (ts e) (phase e) (level e) (message e) (Some t) (done e) (total e) (unit_ e)
    (ev_bytes e) (rows e) (percent e) (step e) (step_total e).

Definition set_progress (e : ProgressEvent) (d t : Z) (u : ProgressUnit) : ProgressEvent :=
  mk_event (ev_job_id e) (ts e) (phase e) (level e) (message e) (ev_table e) (Some d) (Some t) (Some u)
    (ev_bytes e) (rows e)
    (Some (if 0 <? t then (inject_Z d / inject_Z t * 100)%Q else 0%Q)) (step e) (step_total e).

Definition with_progress (e : ProgressEvent) (d t : Z) : ProgressEvent := set_progress e d t Bytes.
Definition with_tables (e : ProgressEvent) (d t : Z) : ProgressEvent := set_progress e d t Tables.

Definition with_bytes (e : ProgressEvent) (b : Z) : ProgressEvent :=
  mk_event (ev_job_id e) (ts e) (phase e) (level e) (message e) (ev_table e) (done e) (total e) (unit_ e)
    (Some b) (rows e) (percent e) (step e) (step_total e).

Definition with_rows (e : ProgressEvent) (r : Z) : ProgressEvent :=
  mk_event (ev_job_id e) (ts e) (phase e) (level e) (message e) (ev_table e) (done e) (total e) (unit_ e)
    (ev_bytes e) (Some r) (percent e) (step e) (step_total e).

Definition level_text (l : LogLevel) : string :=
  match l with Debug => "DEBUG" | Info => "INFO" | Warn => "WARN" | Error => "ERROR" end.

(** [{:?}] of a phase. *)
Definition phase_debug (p : JobPhase) : string :=
  match p with
  | Initializing => "Initializing" | SshConnect => "SshConnect" | Tunneling => "Tunneling"
  | Introspect => "Introspect" | DumpSchema => "DumpSchema" | DumpData => "DumpData"
  | Compress => "Compress" | Transfer => "Transfer" | PhaseRestore => "Restore"
  | PhaseVerify => "Verify" | Cleanup => "Cleanup" | Done => "Done"
  end.

Record StepMark := mk_mark { mark_index : Z; mark_total : Z }.

Record JobContext := mk_ctx {
  job_id : Uuid;
  token : N;                          (* the cancellation token, shared by clones *)
  log : string;
  current_step : option StepMark;
  last_error : option string;
  sent : list ProgressEvent }.

Record JobRecord := mk_job {
  job_record_id : Uuid;
  job_kind : JobKind;
  source_profile : Uuid;
  dest_profile_id : option Uuid;
  job_started_at : Z;
  job_finished_at : option Z;
  job_outcome : option JobOutcome;
  job_artifact_path : option string;
  options_json : string;
  job_log : string }.

Section Events.
(** [to_rfc3339] of an instant. *)
Variable rfc3339 : Z -> string.

Definition step_text (e : ProgressEvent) : string :=
  match step e, step_total e with
  | Some i, Some n => " [" ++ show i ++ "/" ++ show n ++ "]"
  | _, _ => ""
  end%string.

Definition to_log_line (e : ProgressEvent) : string :=
  match ev_table e with
  | Some t =>
      rfc3339 (ts e) ++ " [" ++ level_text (level e) ++ "]" ++ step_text e ++ " "
      ++ phase_debug (phase e) ++ " (" ++ t ++ ") " ++ message e
  | None =>
      rfc3339 (ts e) ++ " [" ++ level_text (level e) ++ "]" ++ step_text e ++ " "
      ++ phase_debug (phase e) ++ " " ++ message e
  end%string.

(** ** The context *)

Definition build_context (id : Uuid) (tok : N) : JobContext := mk_ctx id tok "" None None [].

Definition enter_step (c : JobContext) (m : StepMark) : JobContext :=
  mk_ctx (job_id c) (token c) (log c) (Some m) (last_error c) (sent c).

Definition leave_step (c : JobContext) : JobContext :=
  mk_ctx (job_id c) (token c) (log c) None (last_error c) (sent c).

(** The mark is put on the event while a step is entered. *)
Definition stamp (c : JobContext) (e : ProgressEvent) : ProgressEvent :=
  match current_step c with
  | Some m =>
      mk_event (ev_job_id e) (ts e) (phase e) (level e) (message e) (ev_table e) (done e) (total e)
        (unit_ e) (ev_bytes e) (rows e) (percent e) (Some (mark_index m)) (Some (mark_total m))
  | None => e
  end.

Definition emit_event (c : JobContext) (e : ProgressEvent) : JobContext :=
  let e := stamp c e in
  mk_ctx (job_id c) (token c) (log c ++ to_log_line e ++ String newline "")%string (current_step c)
    (last_error c) (sent c ++ [e]).

Definition emit (c : JobContext) (now : Z) (p : JobPhase) (m : string) : JobContext :=
  emit_event c (new_event (job_id c) now p m).

Definition emit_warn (c : JobContext) (now : Z) (p : JobPhase) (m : string) : JobContext :=
  emit_event c (with_level (new_event (job_id c) now p m) Warn).

Definition emit_error (c : JobContext) (now : Z) (p : JobPhase) (m : string) : JobContext :=
  let c := mk_ctx (job_id c) (token c) (log c) (current_step c) (Some m) (sent c) in
  emit_event c (with_level (new_event (job_id c) now p m) Error).

Definition log_snapshot (c : JobContext) : string := log c.
End Events.

(** ** Tokens and the registry *)

(** The tokens that have been cancelled. *)
Abbreviation Tokens := (gset N).

Definition is_cancelled (t : Tokens) (c : JobContext) : bool := bool_decide (token c ∈ t).
Definition cancel (t : Tokens) (c : JobContext) : Tokens := {[token c]} ∪ t.

Definition bail_if_cancelled (t : Tokens) (c : JobContext) : result unit string :=
  if is_cancelled t c then Err "job cancelled" else Ok tt.

(** [HashMap<Uuid, CancellationToken>]. *)
Abbreviation JobRegistry := (gmap Uuid N).

Definition register (r : JobRegistry) (c : JobContext) : JobRegistry := <[job_id c := token c]> r.
Definition unregister (r : JobRegistry) (id : Uuid) : JobRegistry := delete id r.

Definition registry_cancel (r : JobRegistry) (t : Tokens) (id : Uuid) : bool * Tokens :=
  match r !! id with Some tok => (true, {[tok]} ∪ t) | None => (false, t) end.

Definition active_ids (r : JobRegistry) : list Uuid := map fst (map_to_list r).

Definition cancel_all (r : JobRegistry) (t : Tokens) : Tokens :=
  fold_left (fun t e => {[e.2]} ∪ t) (map_to_list r) t.

(** ** The log *)

(** What the job does to its context. *)
Inductive ContextStep (rfc3339 : Z -> string) : JobContext -> JobContext -> Prop :=
| StepEnter c m : ContextStep rfc3339 c (enter_step c m)
| StepLeave c : ContextStep rfc3339 c (leave_step c)
| StepEmit c e : ContextStep rfc3339 c (emit_event rfc3339 c e)
| StepError c now p m : ContextStep rfc3339 c (emit_error rfc3339 c now p m).

Definition log_of (rfc3339 : Z -> string) (l : list ProgressEvent) : string :=
  fold_left (fun s e => (s ++ to_log_line rfc3339 e ++ String newline "")%string) l "".

(** The event carries the mark of the step entered. *)
Definition marked (c : JobContext) (e : ProgressEvent) : Prop :=
  match current_step c with
  | Some m => step e = Some (mark_index m) /\ step_total e = Some (mark_total m)
  | None => True
  end.

Lemma log_of_snoc rfc3339 l e :
  log_of rfc3339 (l ++ [e]) = (log_of rfc3339 l ++ to_log_line rfc3339 e ++ String newline "")%string.
Proof. unfold log_of. by rewrite fold_left_app. Qed.

Lemma stamp_marked c e : marked c (stamp c e).
Proof. unfold marked, stamp. by destruct (current_step c). Qed.

Lemma cancel_all_spec (r : JobRegistry) t tok :
  tok ∈ cancel_all r t <-> tok ∈ t \/ exists id, r !! id = Some tok.
Proof.
  unfold cancel_all.
  assert (forall l t, tok ∈ fold_left (fun (t : Tokens) (e : Uuid * N) => {[e.2]} ∪ t) l t <->
    tok ∈ t \/ exists id, In (id, tok) l) as H.
  { clear. induction l as [|[id x] l IH]; intros t; cbn [fold_left snd]; [naive_solver|].
    rewrite IH, elem_of_union, elem_of_singleton. cbn [In]. split.
    - intros [[->|?]|[i Hi]]; [right; exists id; by left|by left|right; exists i; by right].
    - intros [?|[i [[= -> ->]|Hi]]]; [by left; right|by left; left|right; by exists i]. }
  rewrite H. setoid_rewrite <- list_elem_of_In. by setoid_rewrite elem_of_map_to_list.
Qed.

(** ** Properties *)

(** The durable log is complete.  Whatever a job does with its context, the
    log is the lines of exactly the events sent, in order, none lost to the live
    channel; every new event carries the mark of the step entered at the time,
    and an error message is kept for the step that failed. *)
Theorem log_is_complete rfc3339 id tok c :
  rtc (ContextStep rfc3339) (build_context id tok) c ->
  log_snapshot c = log_of rfc3339 (sent c)
  /\ (forall e, exists e', sent (emit_event rfc3339 c e) = sent c ++ [e'] /\ marked c e'
        /\ message e' = message e)
  /\ (forall now p m, last_error (emit_error rfc3339 c now p m) = Some m).
Proof.
  intros Hr. split.
  - unfold log_snapshot.
    assert (forall c0, log c0 = log_of rfc3339 (sent c0) -> rtc (ContextStep rfc3339) c0 c ->
      log c = log_of rfc3339 (sent c)) as H; [|by apply (H (build_context id tok))].
    clear Hr. intros c0 H0 Hr. induction Hr as [|c0 c1 c2 Hs Hr IH]; [done|]. apply IH.
    destruct Hs; cbn [enter_step leave_step emit_event emit_error log sent]; try done;
      rewrite log_of_snoc; by rewrite H0.
  - split; [|done]. intros e. exists (stamp c e). split_and!; [done|apply stamp_marked|].
    unfold stamp. by destruct (current_step c).
Qed.

(** A cancellation reaches the job it names and no other: it is answered with
    true exactly when the job is registered, and then sets that job's own token;
    cancelling everything sets the token of every registered job; a job that was
    unregistered can no longer be signalled. *)
Theorem registry_cancel_spec (r : JobRegistry) t c :
  registry_cancel (register r c) t (job_id c) = (true, cancel t c)
  /\ (forall id tok, r !! id = Some tok -> registry_cancel r t id = (true, {[tok]} ∪ t))
  /\ (forall id, registry_cancel (unregister r id) t id = (false, t))
  /\ (forall id id', id <> id' ->
        registry_cancel (unregister r id) t id' = registry_cancel r t id')
  /\ (forall tok, tok ∈ cancel_all r t <-> tok ∈ t \/ exists id, r !! id = Some tok).
Proof.
  unfold registry_cancel, register, unregister, cancel. split_and!.
  - by rewrite lookup_insert_eq.
  - by intros id tok ->.
  - intros id. by rewrite lookup_delete_eq.
  - intros id id' Hne. by rewrite lookup_delete_ne.
  - apply cancel_all_spec.
Qed.

(** ** Witnesses *)

Lemma log_is_complete_witness :
  log_snapshot (emit (fun _ => "T") (enter_step (build_context 1 0) (mk_mark 2 5)) 0 Cleanup "x") =
  ("T [INFO] [2/5] Cleanup x" ++ String newline "")%string.
Proof.
  destruct (log_is_complete (fun _ => "T") 1 0
    (emit (fun _ => "T") (enter_step (build_context 1 0) (mk_mark 2 5)) 0 Cleanup "x")) as [H _].
  - eapply rtc_l; [apply StepEnter|]. eapply rtc_l; [apply StepEmit|]. apply rtc_refl.
  - exact H.
Defined.
