(* ===== verification/Step.v ===== *)
(** * Step: the recorded steps of a job (engine/src/step.rs, the job-step queries of
      engine/src/store.rs and [record_finish] of engine/src/ops.rs)

    A plan is written down before the first step starts; [begin], [done] and
    [skip] walk it, and [record_finish] settles what an early return left open.
    A write to the store may fail ([faults] says which); such a failure is
    reported on the job's events and otherwise swallowed. *)

From Stdlib Require Import ZArith Lia Ascii String List Bool.
From stdpp Require Import base list gmap strings.
From S2P Require Import Prelude Text Domain Job.
Import ListNotations.

Open Scope string_scope.
Open Scope list_scope.
Open Scope Z_scope.

Inductive JobStepKind :=
| SBackup | SRestore | SVerify | SMask | SOffsite | SRetention | SDrill | SCleanup.

#[export] Instance JobStepKind_eq : EqDecision JobStepKind.
Proof. solve_decision. Defined.

Definition kind_as_str (k : JobStepKind) : string :=
  match k with
  | SBackup => "backup" | SRestore => "restore" | SVerify => "verify" | SMask => "mask"
  | SOffsite => "offsite" | SRetention => "retention" | SDrill => "drill" | SCleanup => "cleanup"
  end.

Definition kind_parse (s : string) : option JobStepKind :=
  match_str s [("backup", SBackup); ("restore", SRestore); ("verify", SVerify); ("mask", SMask);
    ("offsite", SOffsite); ("retention", SRetention); ("drill", SDrill); ("cleanup", SCleanup)].

#[export] Instance JobStepKind_named : Named JobStepKind := { as_str := kind_as_str; parse := kind_parse }.

Inductive JobStepOutcome := StepSuccess | StepFailed | StepSkipped | StepCancelled.

#[export] Instance JobStepOutcome_eq : EqDecision JobStepOutcome.
Proof. solve_decision. Defined.

Definition step_outcome_as_str (o : JobStepOutcome) : string :=
  match o with
  | StepSuccess => "success" | StepFailed => "failed"
  | StepSkipped => "skipped" | StepCancelled => "cancelled"
  end.

Definition step_outcome_parse (s : string) : option JobStepOutcome :=
  match_str s [("success", StepSuccess); ("failed", StepFailed); ("skipped", StepSkipped);
    ("cancelled", StepCancelled)].

#[export] Instance JobStepOutcome_named : Named JobStepOutcome :=
  { as_str := step_outcome_as_str; parse := step_outcome_parse }.

#[export] Instance JobStepKind_named_ok : NamedOk JobStepKind.
Proof. split; [by intros []|]. intros s a. cbn [as_str parse JobStepKind_named]. unfold kind_parse. str_arms s. Qed.

#[export] Instance JobStepOutcome_named_ok : NamedOk JobStepOutcome.
Proof.
  split; [by intros []|]. intros s a. cbn [as_str parse JobStepOutcome_named].
  unfold step_outcome_parse. str_arms s.
Qed.

Record JobStepDetail := mk_detail {
  d_artifact : option string;
  d_database : option string;
  d_tables_checked : option Z;
  d_error : option string;
  d_notes : list string }.

Definition no_detail : JobStepDetail := mk_detail None None None None [].
Definition artifact_detail (path : string) : JobStepDetail := mk_detail (Some path) None None None [].
Definition database_detail (name : string) : JobStepDetail := mk_detail None (Some name) None None [].
Definition add_note (d : JobStepDetail) (n : string) : JobStepDetail :=
  mk_detail (d_artifact d) (d_database d) (d_tables_checked d) (d_error d) (d_notes d ++ [n]).

Record JobStep := mk_step {
  s_job_id : Uuid;
  s_index : Z;
  s_kind : JobStepKind;
  s_label : string;
  s_started_at : option Z;
  s_finished_at : option Z;
  s_outcome : option JobStepOutcome;
  s_detail : JobStepDetail }.

Definition is_running (s : JobStep) : bool := is_some (s_started_at s) && negb (is_some (s_outcome s)).

(** [StepPlan]. *)
Abbreviation StepPlan := (list (JobStepKind * string)).
Definition add_step (p : StepPlan) (k : JobStepKind) (label : string) : StepPlan := p ++ [(k, label)].

(** ** The table of steps *)

(** The rows, in [(job_id, idx)] order of insertion, and the outcome of the next
    writes: [Some e] is a failure. *)
Record Store := mk_store { job_steps : list JobStep; faults : list (option string) }.

(** One write: either it fails and changes nothing, or the rows change. *)
Definition write (s : Store) (f : list JobStep -> list JobStep) : result unit string * Store :=
  match faults s with
  | Some e :: fs => (Err e, mk_store (job_steps s) fs)
  | None :: fs => (Ok tt, mk_store (f (job_steps s)) fs)
  | [] => (Ok tt, mk_store (f (job_steps s)) [])
  end.

Definition is_job (id : Uuid) (s : JobStep) : bool := N.eqb (s_job_id s) id.
Definition is_row (id : Uuid) (index : Z) (s : JobStep) : bool := is_job id s && (s_index s =? index).

(** [UPDATE ... WHERE sel]. *)
Definition update_where (sel : JobStep -> bool) (f : JobStep -> JobStep) (l : list JobStep) : list JobStep :=
  map (fun s => if sel s then f s else s) l.

Fixpoint planned_rows (id : Uuid) (first : Z) (plan : StepPlan) : list JobStep :=
  match plan with
  | [] => []
  | (k, label) :: plan' =>
      mk_step id first k label None None None no_detail :: planned_rows id (first + 1) plan'
  end.

Definition plan_job_steps (s : Store) (id : Uuid) (plan : StepPlan) : result unit string * Store :=
  write s (fun l => List.filter (fun r => negb (is_job id r)) l ++ planned_rows id 1 plan).

Definition set_started (now : Z) (s : JobStep) : JobStep :=
  mk_step (s_job_id s) (s_index s) (s_kind s) (s_label s) (Some now) (s_finished_at s) (s_outcome s) (s_detail s).

Definition set_finished (now : Z) (o : JobStepOutcome) (d : JobStepDetail) (s : JobStep) : JobStep :=
  mk_step (s_job_id s) (s_index s) (s_kind s) (s_label s) (s_started_at s) (Some now) (Some o) d.

Definition set_outcome (o : JobStepOutcome) (s : JobStep) : JobStep :=
  mk_step (s_job_id s) (s_index s) (s_kind s) (s_label s) (s_started_at s) (s_finished_at s) (Some o) (s_detail s).

Definition begin_job_step (s : Store) (id : Uuid) (index now : Z) : result unit string * Store :=
  write s (update_where (is_row id index) (set_started now)).

Definition finish_job_step (s : Store) (id : Uuid) (index now : Z) (o : JobStepOutcome) (d : JobStepDetail)
    : result unit string * Store :=
  write s (update_where (is_row id index) (set_finished now o d)).

Definition is_open (s : JobStep) : bool := negb (is_some (s_outcome s)).

(** The step that was running takes the outcome, the ones never reached are
    skipped; the first write that fails ends it. *)
Definition close_open_steps (s : Store) (id : Uuid) (now : Z) (o : JobStepOutcome) (error : option string)
    : result unit string * Store :=
  let detail := mk_detail None None None error [] in
  match write s (update_where (fun r => is_job id r && is_open r && is_some (s_started_at r))
                   (set_finished now o detail)) with
  | (Err e, s) => (Err e, s)
  | (Ok _, s) =>
      write s (update_where (fun r => is_job id r && is_open r && negb (is_some (s_started_at r)))
                 (set_outcome StepSkipped))
  end.

(** ** The recorder *)

Record Recorder := mk_recorder {
  plan : StepPlan;
  cursor : Z;
  enabled : bool }.

(** The state a recorder works on. *)
Record RunState := mk_run { store : Store; ctx : JobContext; recorder : Recorder }.

Section Recorder.
Variable rfc3339 : Z -> string.

Definition warn (s : RunState) (now : Z) (m : string) : RunState :=
  mk_run (store s) (emit_warn rfc3339 (ctx s) now Initializing m) (recorder s).

(** A write whose failure is only reported. *)
Definition record (s : RunState) (now : Z) (w : Store -> result unit string * Store) (what : string)
    : RunState :=
  match w (store s) with
  | (Ok _, st) => mk_run st (ctx s) (recorder s)
  | (Err e, st) => warn (mk_run st (ctx s) (recorder s)) now (what ++ ": " ++ e)%string
  end.

Definition start (st : Store) (c : JobContext) (p : StepPlan) (now : Z) : RunState :=
  let enabled := negb (is_some (current_step c)) in
  let s := mk_run st c (mk_recorder p 0 enabled) in
  if negb enabled then s
  else record s now (fun st => plan_job_steps st (job_id c) p) "could not record the step plan".

Definition total (r : Recorder) : Z := Z.of_nat (length (plan r)).

(** The [kind] argument is checked by a debug assertion only. *)
Definition begin (s : RunState) (now : Z) : RunState :=
  let r := recorder s in
  if negb (enabled r) then s
  else
    let index := cursor r in
    let s := mk_run (store s) (ctx s) (mk_recorder (plan r) (index + 1) true) in
    match plan r !! Z.to_nat index with
    | None => s
    | Some _ =>
        let number := index + 1 in
        let s := mk_run (store s) (enter_step (ctx s) (mk_mark number (total r))) (recorder s) in
        record s now (fun st => begin_job_step st (job_id (ctx s)) number now)
          ("could not record the start of step " ++ show number)
    end.

Definition close (s : RunState) (now : Z) (o : JobStepOutcome) (d : JobStepDetail) : RunState :=
  let r := recorder s in
  if negb (enabled r) then s
  else if cursor r =? 0 then s
  else
    let s := record s now (fun st => finish_job_step st (job_id (ctx s)) (cursor r) now o d)
               ("could not record the end of step " ++ show (cursor r)) in
    mk_run (store s) (leave_step (ctx s)) (recorder s).

Definition done (s : RunState) (now : Z) (d : JobStepDetail) : RunState := close s now StepSuccess d.

Definition skip (s : RunState) (now : Z) (reason : string) : RunState :=
  close (begin s now) now StepSkipped (add_note no_detail reason).
End Recorder.

(** [record_finish] of ops.rs, up to the row of the job itself. *)
Definition settle_steps (st : Store) (c : JobContext) (o : JobOutcome) (now : Z) : result unit string * Store :=
  match o with
  | Success => (Ok tt, st)
  | Cancelled => close_open_steps st (job_id c) now StepCancelled (last_error c)
  | Failed => close_open_steps st (job_id c) now StepFailed (last_error c)
  end.

(** ** Straight-line runs *)

(** How one planned step went. *)
Inductive Act := Ran (d : JobStepDetail) | Passed (reason : string).

Definition act (rfc3339 : Z -> string) (now : Z) (s : RunState) (a : Act) : RunState :=
  match a with
  | Ran d => done rfc3339 (begin rfc3339 s now) now d
  | Passed reason => skip rfc3339 s now reason
  end.

Definition acted (id : Uuid) (i now : Z) (p : JobStepKind * string) (a : Act) : JobStep :=
  match a with
  | Ran d => mk_step id i p.1 p.2 (Some now) (Some now) (Some StepSuccess) d
  | Passed r => mk_step id i p.1 p.2 (Some now) (Some now) (Some StepSkipped) (add_note no_detail r)
  end.

Fixpoint acted_rows (id : Uuid) (i now : Z) (p : StepPlan) (acts : list Act) : list JobStep :=
  match p, acts with
  | x :: p', a :: acts' => acted id i now x a :: acted_rows id (i + 1) now p' acts'
  | _, _ => []
  end.

(** The rows of the steps never reached. *)
Definition skipped_rows (id : Uuid) (first : Z) (p : StepPlan) : list JobStep :=
  map (set_outcome StepSkipped) (planned_rows id first p).

Lemma update_where_id sel f l : (forall r, In r l -> sel r = false) -> update_where sel f l = l.
Proof.
  intros H. unfold update_where. rewrite <- (map_id l) at 2. apply map_ext_in. intros r Hr. by rewrite H.
Qed.

Lemma update_where_all sel f l : (forall r, In r l -> sel r = true) -> update_where sel f l = map f l.
Proof. intros H. unfold update_where. apply map_ext_in. intros r Hr. by rewrite H. Qed.

Lemma update_where_app sel f l l' :
  update_where sel f (l ++ l') = update_where sel f l ++ update_where sel f l'.
Proof. apply map_app. Qed.

Lemma planned_rows_In id first p r :
  In r (planned_rows id first p) ->
  s_job_id r = id /\ first <= s_index r /\ s_started_at r = None /\ s_outcome r = None.
Proof.
  revert first. induction p as [|[k l] p IH]; intros first; cbn [planned_rows]; [done|].
  intros [<-|Hr]; [by split_and!|]. apply IH in Hr as (? & ? & ? & ?). split_and!; try done. lia.
Qed.

(** Where a run stands after [n] steps: the rows of other jobs, the rows of the
    finished steps, then the pending ones. *)
Record at_step (s : RunState) (others finished : list JobStep) (n : Z) (rest : StepPlan) : Prop := {
  at_rows : job_steps (store s) = others ++ finished ++ planned_rows (job_id (ctx s)) (n + 1) rest;
  at_faults : faults (store s) = [];
  at_others : forall r, In r others -> is_job (job_id (ctx s)) r = false;
  at_finished : forall r, In r finished -> s_index r <= n /\ is_open r = false;
  at_cursor : cursor (recorder s) = n;
  at_enabled : enabled (recorder s) = true;
  at_pos : 0 <= n;
  at_plan : drop (Z.to_nat n) (plan (recorder s)) = rest }.

Lemma is_row_other id i r : is_job id r = false -> is_row id i r = false.
Proof. unfold is_row. by intros ->. Qed.

Lemma is_row_index id i r : s_index r <> i -> is_row id i r = false.
Proof. unfold is_row. intros H. apply Z.eqb_neq in H. by rewrite H, andb_false_r. Qed.

Lemma drop_cons_lookup {A} n (l : list A) x r : drop n l = x :: r -> l !! n = Some x /\ drop (S n) l = r.
Proof.
  intros H. split.
  - rewrite <- (Nat.add_0_r n), <- lookup_drop, H. done.
  - replace (S n) with (n + 1)%nat by lia. rewrite <- drop_drop, H. done.
Qed.

(** An update of the first row not finished touches that row alone. *)
Lemma update_next id others finished n h rest f :
  (forall r, In r others -> is_job id r = false) ->
  (forall r, In r finished -> s_index r <= n) ->
  s_job_id h = id -> s_index h = n + 1 ->
  update_where (is_row id (n + 1)) f (others ++ finished ++ h :: planned_rows id (n + 1 + 1) rest) =
  others ++ finished ++ f h :: planned_rows id (n + 1 + 1) rest.
Proof.
  intros Ho Hf Hid Hi. rewrite !update_where_app.
  rewrite (update_where_id _ _ others), (update_where_id _ _ finished).
  - do 2 f_equal. cbn [update_where map].
    unfold is_row at 1, is_job. rewrite Hid, Hi, N.eqb_refl, Z.eqb_refl. cbn [andb]. f_equal.
    apply update_where_id. intros r Hr. apply planned_rows_In in Hr as (_ & Hr & _). apply is_row_index. lia.
  - intros r Hr. apply is_row_index. specialize (Hf r Hr). lia.
  - intros r Hr. by apply is_row_other, Ho.
Qed.

Section Runs.
Variable rfc3339 : Z -> string.

Definition started_row (id : Uuid) (i now : Z) (p : JobStepKind * string) : JobStep :=
  mk_step id i p.1 p.2 (Some now) None None no_detail.

(** The step after [n] is running. *)
Definition running (s : RunState) (others finished : list JobStep) (n now : Z)
    (p : JobStepKind * string) (rest : StepPlan) (pl : StepPlan) : Prop :=
  job_steps (store s) =
    others ++ finished ++ started_row (job_id (ctx s)) (n + 1) now p
      :: planned_rows (job_id (ctx s)) (n + 1 + 1) rest
  /\ faults (store s) = [] /\ recorder s = mk_recorder pl (n + 1) true
  /\ current_step (ctx s) = Some (mk_mark (n + 1) (Z.of_nat (length pl))).

Lemma begin_running s others finished n p rest now :
  at_step s others finished n (p :: rest) ->
  running (begin rfc3339 s now) others finished n now p rest (plan (recorder s))
  /\ job_id (ctx (begin rfc3339 s now)) = job_id (ctx s).
Proof.
  intros [Hr Hfl Ho Hf Hc He Hp Hpl]. apply drop_cons_lookup in Hpl as [Hl _].
  unfold begin. rewrite He, Hc, Hl. cbn [negb]. unfold record, begin_job_step, write.
  cbn [store ctx]. rewrite Hfl, Hr. destruct p as [k l]. cbn [planned_rows enter_step job_id].
  rewrite update_next; [|done|intros r Hin; by apply Hf|done|done].
  unfold running. cbn [store ctx recorder enter_step job_id current_step job_steps faults]. by split_and!.
Qed.

Lemma close_running s others finished n now p rest pl o d :
  (forall r, In r others -> is_job (job_id (ctx s)) r = false) ->
  (forall r, In r finished -> s_index r <= n /\ is_open r = false) ->
  0 <= n -> drop (Z.to_nat (n + 1)) pl = rest ->
  running s others finished n now p rest pl ->
  let s' := close rfc3339 s now o d in
  at_step s' others
    (finished ++ [mk_step (job_id (ctx s)) (n + 1) p.1 p.2 (Some now) (Some now) (Some o) d]) (n + 1) rest
  /\ job_id (ctx s') = job_id (ctx s) /\ current_step (ctx s') = None /\ recorder s' = recorder s.
Proof.
  intros Ho Hf Hp Hpl (Hr & Hfl & Hrec & _). unfold close. rewrite Hrec. cbn [enabled cursor negb].
  rewrite (proj2 (Z.eqb_neq _ _)) by lia. unfold record, finish_job_step, write. rewrite Hfl, Hr.
  rewrite update_next; [|done|intros r Hin; by apply Hf|done|done].
  cbn [store ctx recorder leave_step job_id current_step job_steps faults]. split_and!; try done.
  split; cbn [store ctx recorder leave_step job_id job_steps faults]; try done.
  - unfold set_finished, started_row. simpl. by rewrite <- app_assoc.
  - intros r [Hin|[<-|[]]]%in_app_iff; [|cbn; lia || (split; [lia|done])].
    destruct (Hf r Hin). split; [lia|done].
  - by rewrite Hrec.
  - by rewrite Hrec.
  - lia.
  - by rewrite Hrec.
Qed.

Lemma act_at s others finished n p rest now a :
  at_step s others finished n (p :: rest) ->
  let s' := act rfc3339 now s a in
  at_step s' others (finished ++ [acted (job_id (ctx s)) (n + 1) now p a]) (n + 1) rest
  /\ job_id (ctx s') = job_id (ctx s).
Proof.
  intros Hat. pose proof (begin_running _ _ _ _ _ _ now Hat) as [Hrun Hid].
  destruct Hat as [Hr Hfl Ho Hf Hc He Hp Hpl]. apply drop_cons_lookup in Hpl as [_ Hpl].
  replace (S (Z.to_nat n)) with (Z.to_nat (n + 1)) in Hpl by lia.
  rewrite <- Hid in Ho.
  destruct a as [d|reason]; cbn [act acted]; unfold done, skip; rewrite <- Hid.
  - by destruct (close_running _ _ _ _ now p rest _ StepSuccess d Ho Hf Hp Hpl Hrun) as (? & ? & _).
  - by destruct (close_running _ _ _ _ now p rest _ StepSkipped (add_note no_detail reason) Ho Hf Hp Hpl Hrun)
      as (? & ? & _).
Qed.

Lemma acts_at now acts : forall s others finished n rest,
  at_step s others finished n rest -> (length acts <= length rest)%nat ->
  let s' := fold_left (act rfc3339 now) acts s in
  at_step s' others (finished ++ acted_rows (job_id (ctx s)) (n + 1) now rest acts)
    (n + Z.of_nat (length acts)) (drop (length acts) rest)
  /\ job_id (ctx s') = job_id (ctx s).
Proof.
  induction acts as [|a acts IH]; intros s others finished n rest Hat Hlen; cbn [fold_left].
  { destruct rest as [|[k l] rest]; cbn [acted_rows]; rewrite app_nil_r, Z.add_0_r; by split. }
  destruct rest as [|p rest]; [simpl in Hlen; lia|].
  destruct (act_at _ _ _ _ _ _ now a Hat) as [Hat' Hid].
  destruct (IH _ _ _ _ _ Hat' ltac:(simpl in Hlen; lia)) as [Hr Hid'].
  rewrite Hid in Hr, Hid'. split; [|done]. cbn [acted_rows drop length].
  rewrite <- app_assoc in Hr. cbn [app] in Hr.
  replace (n + Z.of_nat (S (length acts))) with (n + 1 + Z.of_nat (length acts)) by lia. exact Hr.
Qed.

Lemma start_at rows c p now :
  current_step c = None ->
  at_step (start rfc3339 (mk_store rows []) c p now)
    (List.filter (fun r => negb (is_job (job_id c) r)) rows) [] 0 p
  /\ job_id (ctx (start rfc3339 (mk_store rows []) c p now)) = job_id c.
Proof.
  intros Hc. unfold start. rewrite Hc. cbn. split; [|done]. split; cbn; try done.
  intros r Hr. apply filter_In in Hr as [_ Hr]. by apply negb_true_iff.
Qed.
End Runs.

(** ** Settling *)

Definition failed_row (id : Uuid) (i began now : Z) (p : JobStepKind * string) (o : JobStepOutcome)
    (error : option string) : JobStep :=
  mk_step id i p.1 p.2 (Some began) (Some now) (Some o) (mk_detail None None None error []).

Lemma settle_rows rows id now o error others finished open_ rest :
  (forall r, In r others -> is_job id r = false) ->
  (forall r, In r finished -> is_open r = false) ->
  (forall r, In r open_ -> is_job id r = true /\ is_open r = true /\ is_some (s_started_at r) = true) ->
  (forall r, In r rest -> is_job id r = true /\ is_open r = true /\ s_started_at r = None) ->
  rows = others ++ finished ++ open_ ++ rest ->
  close_open_steps (mk_store rows []) id now o error =
  (Ok tt, mk_store (others ++ finished
     ++ map (set_finished now o (mk_detail None None None error [])) open_
     ++ map (set_outcome StepSkipped) rest) []).
Proof.
  intros Ho Hf Hop Hr ->. unfold close_open_steps, write. cbn [faults job_steps]. f_equal. f_equal.
  rewrite !update_where_app.
  rewrite !(update_where_id _ _ others) by (intros r Hin; by rewrite (Ho r Hin)).
  rewrite !(update_where_id _ _ finished) by (intros r Hin; by rewrite (Hf r Hin), !andb_false_r).
  do 2 f_equal.
  rewrite (update_where_all _ _ open_), (update_where_id _ _ rest).
  - f_equal.
    + apply update_where_id. intros r (x & <- & Hx)%in_map_iff. unfold is_open. simpl. by rewrite !andb_false_r.
    + apply update_where_all. intros r Hin. destruct (Hr r Hin) as (-> & -> & ->). done.
  - intros r Hin. destruct (Hr r Hin) as (_ & _ & ->). by rewrite andb_false_r.
  - intros r Hin. destruct (Hop r Hin) as (-> & -> & ->). done.
Qed.

Lemma disabled_act rfc3339 now s a : enabled (recorder s) = false -> act rfc3339 now s a = s.
Proof.
  intros He. destruct a; cbn [act]; unfold done, skip, begin, close; by rewrite He; cbn [negb]; rewrite ?He.
Qed.

Lemma disabled_acts rfc3339 now acts s :
  enabled (recorder s) = false -> fold_left (act rfc3339 now) acts s = s.
Proof.
  intros He. induction acts as [|a acts IH]; [done|]. cbn [fold_left]. by rewrite disabled_act.
Qed.

Definition open_outcome (o : JobOutcome) : JobStepOutcome :=
  match o with Cancelled => StepCancelled | _ => StepFailed end.

Lemma settle_not_success st c o now :
  o <> Success -> settle_steps st c o now = close_open_steps st (job_id c) now (open_outcome o) (last_error c).
Proof. by destruct o. Qed.

Lemma planned_open id first p r :
  In r (planned_rows id first p) -> is_job id r = true /\ is_open r = true /\ s_started_at r = None.
Proof.
  intros (Hj & _ & Hs & Ho)%planned_rows_In. unfold is_job, is_open. rewrite Hj, Ho, N.eqb_refl. done.
Qed.

(** The rows of a run: its first steps as they went, then perhaps one in flight. *)
Lemma run_rows rfc3339 rows c p acts now :
  current_step c = None -> (length acts <= length p)%nat ->
  let s := fold_left (act rfc3339 now) acts (start rfc3339 (mk_store rows []) c p now) in
  let others := List.filter (fun r => negb (is_job (job_id c) r)) rows in
  at_step s others (acted_rows (job_id c) 1 now p acts) (Z.of_nat (length acts)) (drop (length acts) p)
  /\ job_id (ctx s) = job_id c.
Proof.
  intros Hc Hlen. destruct (start_at rfc3339 rows c p now Hc) as [Hat Hid].
  destruct (acts_at rfc3339 now acts _ _ _ _ _ Hat Hlen) as [H Hid']. rewrite Hid in *. by split.
Qed.

(** ** Properties *)

(** C27: the recorded steps say how far a job got.  A job that runs the first steps
    of its plan, perhaps starts the next one, and then fails or is cancelled
    leaves one row per planned step: the finished ones as they went, the running
    one with the job's outcome and its last error, and every later one skipped
    and never started.  The rows of other jobs are untouched, and a recorder
    started inside somebody else's step writes nothing. *)
Theorem steps_tell_the_truth rfc3339 rows c p acts (in_flight : bool) o now later :
  (length acts + (if in_flight then 1 else 0) <= length p)%nat -> o <> Success ->
  let st := mk_store rows [] in
  let s := fold_left (act rfc3339 now) acts (start rfc3339 st c p now) in
  let s' := if in_flight then begin rfc3339 s now else s in
  let n := Z.of_nat (length acts) in
  let others := List.filter (fun r => negb (is_job (job_id c) r)) rows in
  match current_step c with
  | Some _ => store s' = st
  | None =>
      settle_steps (store s') (ctx s') o later =
      (Ok tt, mk_store (others ++ acted_rows (job_id c) 1 now p acts
         ++ match in_flight, drop (length acts) p with
            | true, x :: rest =>
                failed_row (job_id c) (n + 1) now later x (open_outcome o) (last_error (ctx s'))
                :: skipped_rows (job_id c) (n + 1 + 1) rest
            | _, rest => skipped_rows (job_id c) (n + 1) rest
            end) [])
  end.
Proof.
  intros Hlen Ho. cbn zeta. destruct (current_step c) as [m|] eqn:Hc.
  { assert (enabled (recorder (start rfc3339 (mk_store rows []) c p now)) = false) as He
      by (unfold start; by rewrite Hc).
    rewrite disabled_acts by done. destruct in_flight; unfold begin; rewrite ?He; unfold start; by rewrite Hc. }
  destruct (run_rows rfc3339 rows c p acts now Hc ltac:(lia)) as [Hat Hid].
  set (s := fold_left _ _ _) in *. set (n := Z.of_nat (length acts)) in *.
  rewrite settle_not_success by done. destruct in_flight.
  - destruct (drop (length acts) p) as [|x rest] eqn:Ed.
    { exfalso. apply (f_equal length) in Ed. rewrite length_drop in Ed. simpl in Ed. lia. }
    destruct (begin_running rfc3339 _ _ _ _ _ _ now Hat) as [(Hr & Hfl & _) Hid'].
    destruct Hat as [_ _ Hot Hf _ _ _ _]. rewrite Hid', Hid in *.
    destruct (store (begin rfc3339 s now)) as [rows' fl]. cbn [job_steps faults] in *. subst fl.
    rewrite (settle_rows _ _ _ _ _ _ _ [started_row (job_id c) (n + 1) now x]
      (planned_rows (job_id c) (n + 1 + 1) rest) Hot) by first [exact Hr | by intros r Hin; apply Hf |
        by apply planned_open | by intros r [<-|[]]; unfold is_job; cbn; rewrite N.eqb_refl].
    done.
  - destruct Hat as [Hr Hfl Hot Hf _ _ _ _]. rewrite Hid in *.
    destruct (store s) as [rows' fl]. cbn [job_steps faults] in *. subst fl.
    rewrite (settle_rows _ _ _ _ _ _ _ [] (planned_rows (job_id c) (n + 1) (drop (length acts) p)) Hot)
      by first [exact Hr | by intros r Hin; apply Hf | by apply planned_open | by intros r []].
    by destruct (drop (length acts) p).
Qed.

(** ** Witnesses *)

Definition sample_plan : StepPlan :=
  [(SBackup, "Back up app"); (SRestore, "Restore into dev"); (SVerify, "Check it")].

Lemma steps_tell_the_truth_witness :
  settle_steps (store (begin (fun _ => "") (fold_left (act (fun _ => "") 5) [Ran no_detail]
      (start (fun _ => "") (mk_store [] []) (build_context 1 0) sample_plan 5)) 5))
    (ctx (begin (fun _ => "") (fold_left (act (fun _ => "") 5) [Ran no_detail]
      (start (fun _ => "") (mk_store [] []) (build_context 1 0) sample_plan 5)) 5)) Failed 9 =
  (Ok tt, mk_store
     [mk_step 1 1 SBackup "Back up app" (Some 5) (Some 5) (Some StepSuccess) no_detail;
      mk_step 1 2 SRestore "Restore into dev" (Some 5) (Some 9) (Some StepFailed) no_detail;
      mk_step 1 3 SVerify "Check it" None None (Some StepSkipped) no_detail] []).
Proof.
  exact (steps_tell_the_truth (fun _ => "") [] (build_context 1 0) sample_plan [Ran no_detail] true Failed 5 9
    ltac:(simpl; lia) ltac:(discriminate)).
Defined.
