(* ===== verification/Pipeline.v ===== *)
(** * Pipeline: saved chains of actions and their authorisation (engine/src/pipeline.rs,
      and the pipeline queries of engine/src/store.rs)

    [validate_steps] is the check every write goes through, [validate_against]
    adds what needs the connections, and [is_armed] compares the names somebody
    typed with the names the chain would drop today.  The table of pipelines is
    a map whose rows have distinct names; the store's operations read a row,
    change it and write it back, so an update and an arming may interleave. *)

From Stdlib Require Import ZArith Lia Ascii String List Bool.
From stdpp Require Import base list gmap strings.
From S2P Require Import Prelude Text Domain Retention Backup Restore Mask Step.
Import ListNotations.

Open Scope string_scope.
Open Scope list_scope.
Open Scope Z_scope.

(** ** Steps *)

Inductive ArtifactSource :=
| PreviousStep
| NewestInDirectory (dir : string)
| ArtifactPath (path : string).

(** The fields of [PipelineStep::Backup]. *)
Record BackupStep := mk_backup_step {
  bs_profile_id : Uuid;
  bs_database : string;
  bs_plan_id : option Uuid;
  bs_selections : list TableSelection;
  bs_output_dir : option string;
  bs_compress : bool;
  bs_encrypt : bool;
  bs_record_row_counts : bool;
  bs_engine : EngineBackupOptions }.

(** The fields of [PipelineStep::Restore]. *)
Record RestoreStep := mk_restore_step {
  rs_profile_id : Uuid;
  rs_source : ArtifactSource;
  rs_naming : TargetNaming;
  rs_engine : EngineRestoreOptions;
  rs_verify_checksum : bool }.

(** The fields of [PipelineStep::Drill]. *)
Record DrillStep := mk_drill_step {
  ds_profile_id : Uuid;
  ds_artifact_dir : option string;
  ds_deep : bool;
  ds_keep_on_failure : bool }.

Inductive PipelineStep :=
| PBackup (b : BackupStep)
| PRestore (r : RestoreStep)
| PVerify (deep : bool)
| PMask (rules : list MaskRule)
| PPushOffsite
| PRetention (policy : RetentionPolicy)
| PDrill (d : DrillStep).

Definition step_kind (s : PipelineStep) : JobStepKind :=
  match s with
  | PBackup _ => SBackup
  | PRestore _ => SRestore
  | PVerify _ => SVerify
  | PMask _ => SMask
  | PPushOffsite => SOffsite
  | PRetention _ => SRetention
  | PDrill _ => SDrill
  end.

Definition step_is_destructive (s : PipelineStep) : bool :=
  match s with PRestore r => is_destructive (rs_naming r) | _ => false end.

Definition step_profile_id (s : PipelineStep) : option Uuid :=
  match s with
  | PBackup b => Some (bs_profile_id b)
  | PRestore r => Some (rs_profile_id r)
  | PDrill d => Some (ds_profile_id d)
  | _ => None
  end.

Definition find_profile (profiles : list ConnectionProfile) (id : Uuid) : option ConnectionProfile :=
  List.find (fun p => N.eqb (profile_id p) id) profiles.

Definition name_of (profiles : list ConnectionProfile) (id : Uuid) : string :=
  match find_profile profiles id with Some p => profile_name p | None => "a deleted connection" end.

(** The ellipsis of a label, in UTF-8. *)
Definition ellipsis : string := String "226" (String "128" (String "166" "")).

Definition target_text (n : TargetNaming) : string :=
  match n with
  | NewTimestamped prefix => "a new " ++ prefix ++ "_" ++ ellipsis ++ " database"
  | DropAndRecreate name => name ++ ", replacing it"
  | IntoExisting name => "the existing " ++ name
  end%string.

Definition step_label (s : PipelineStep) (profiles : list ConnectionProfile) : string :=
  match s with
  | PBackup b => "Back up " ++ bs_database b ++ " from " ++ name_of profiles (bs_profile_id b)
  | PRestore r =>
      "Restore into " ++ target_text (rs_naming r) ++ " on " ++ name_of profiles (rs_profile_id r)
  | PVerify true => "Compare rows and contents against the source"
  | PVerify false => "Compare row counts against the source"
  | PMask rules =>
      "Mask " ++ show (Z.of_nat (length rules)) ++ " column"
      ++ (if Nat.eqb (length rules) 1 then "" else "s") ++ " on the destination"
  | PPushOffsite => "Copy off-site"
  | PRetention policy =>
      match keep_last policy, max_age_days policy with
      | Some n, _ => "Keep only the newest " ++ show n ++ " backups"
      | None, Some d => "Delete backups older than " ++ show d ++ " days"
      | None, None => "Apply retention"
      end
  | PDrill d => "Drill the newest backup on " ++ name_of profiles (ds_profile_id d)
  end%string.

(** ** Pipelines *)

Record Pipeline := mk_pipeline {
  p_id : Uuid;
  p_name : string;
  p_steps : list PipelineStep;
  unattended_ack : option string;
  p_created_at : Z;
  p_updated_at : Z }.

Record PipelineCreate := mk_pipeline_create {
  pcr_name : string;
  pcr_steps : list PipelineStep }.

Record PipelineUpdate := mk_pipeline_update {
  pup_name : option string;
  pup_steps : option (list PipelineStep) }.

Definition dropped_name (s : PipelineStep) : option string :=
  match s with
  | PRestore r => match rs_naming r with DropAndRecreate name => Some name | _ => None end
  | _ => None
  end.

Definition targets_of (steps : list PipelineStep) : list string := omap dropped_name steps.

Definition pipeline_is_destructive (p : Pipeline) : bool := existsb step_is_destructive (p_steps p).

Definition destructive_targets (p : Pipeline) : list string := targets_of (p_steps p).

Definition destructive_signature (p : Pipeline) : option string :=
  match destructive_targets p with
  | [] => None
  | targets => Some (join (String newline "") targets)
  end.

Definition is_armed (p : Pipeline) : bool :=
  match unattended_ack p, destructive_signature p with
  | Some ack, Some current => String.eqb ack current
  | _, _ => false
  end.

(** ** Errors *)

Inductive PipelineError :=
| NoName
| Empty
| NoDatabaseNamed (step : Z)
| NothingToRestore (step : Z)
| NothingRestoredYet (step : Z) (what : string)
| NothingToCompareAgainst (step : Z)
| NoRules (step : Z)
| NoArtifactYet (step : Z) (what : string)
| EmptyRetention (step : Z)
| MaskingIntoExisting (step : Z) (database : string)
| RepeatedDestructiveTarget (database : string)
| UnknownProfile (step : Z)
| NothingToAuthorise
| TableSetMovedOn (step : Z) (set expected found : string)
| ConfirmationDoesNotMatch (expected got : string)
| StepEngineMismatch (backup_step restore_step : Z) (source_engine dest_engine : Engine).

Definition pipeline_error_text (str_debug : string -> string) (e : PipelineError) : string :=
  match e with
  | NoName => "a pipeline needs a name"
  | Empty => "a pipeline needs at least one step"
  | NoDatabaseNamed n => "step " ++ show n ++ " backs up, but names no database"
  | NothingToRestore n =>
      "step " ++ show n ++ " restores what a backup produced, but no earlier step makes one; "
      ++ "add a backup step before it, or point this one at a file"
  | NothingRestoredYet n what =>
      "step " ++ show n ++ " would " ++ what ++ ", but nothing has been restored yet"
  | NothingToCompareAgainst n =>
      "step " ++ show n ++ " verifies a restore against the source it came from, and this "
      ++ "pipeline restores a file it did not back up; remove the verify step"
  | NoRules n => "step " ++ show n ++ " masks nothing; add a rule or remove the step"
  | NoArtifactYet n what =>
      "step " ++ show n ++ " would " ++ what ++ ", but no earlier step produces an artifact"
  | EmptyRetention n => "step " ++ show n ++ " applies a retention policy that keeps everything"
  | MaskingIntoExisting n d =>
      "step " ++ show n ++ " masks " ++ d ++ ", which this pipeline restored into without "
      ++ "dropping; masking can only promise a database ends up masked or dropped, "
      ++ "and dropping " ++ d ++ " would destroy data this run did not create"
  | RepeatedDestructiveTarget d =>
      "two steps replace " ++ d ++ "; the second would destroy what the first restored"
  | UnknownProfile n => "step " ++ show n ++ " names a connection that no longer exists"
  | NothingToAuthorise =>
      "this pipeline replaces nothing, so there is nothing to authorise; "
      ++ "arming is only for a pipeline that can drop a database unattended"
  | TableSetMovedOn n set expected found =>
      "step " ++ show n ++ " backs up " ++ expected ++ " using the table set " ++ str_debug set
      ++ ", which now describes " ++ found ++ "; point the step at " ++ found
      ++ " or give it its own table list"
  | ConfirmationDoesNotMatch expected got =>
      "type " ++ str_debug expected ++ " to authorise this, not " ++ str_debug got
  | StepEngineMismatch b r s d =>
      "step " ++ show b ++ " backs up " ++ engine_debug s ++ " and step " ++ show r
      ++ " restores into " ++ engine_debug d ++ "; nothing here translates between them"
  end%string.

(** ** Validation *)

(** What the first walk remembers: whether a backup and a restore were seen. *)
Record Seen := mk_seen { seen_backup : bool; seen_restore : bool }.

Definition see (k : Seen) (s : PipelineStep) : Seen :=
  match s with
  | PBackup _ => mk_seen true (seen_restore k)
  | PRestore _ => mk_seen (seen_backup k) true
  | _ => k
  end.

Definition from_previous (s : ArtifactSource) : bool :=
  match s with PreviousStep => true | _ => false end.

Definition check_step (k : Seen) (n : Z) (s : PipelineStep) : result unit PipelineError :=
  match s with
  | PBackup b => guard (String.eqb (trim (bs_database b)) "") (NoDatabaseNamed n)
  | PRestore r => guard (from_previous (rs_source r) && negb (seen_backup k)) (NothingToRestore n)
  | PVerify _ =>
      let? _ := guard (negb (seen_restore k)) (NothingRestoredYet n "verify") in
      guard (negb (seen_backup k)) (NothingToCompareAgainst n)
  | PMask rules =>
      let? _ := guard (negb (seen_restore k)) (NothingRestoredYet n "mask") in
      guard (Nat.eqb (length rules) 0) (NoRules n)
  | PPushOffsite => guard (negb (seen_backup k)) (NoArtifactYet n "copy off-site")
  | PRetention policy =>
      let? _ := guard (negb (seen_backup k)) (NoArtifactYet n "apply retention") in
      guard (negb (policy_is_enabled policy)) (EmptyRetention n)
  | PDrill _ => Ok tt
  end.

Fixpoint check_order (k : Seen) (n : Z) (steps : list PipelineStep) : result unit PipelineError :=
  match steps with
  | [] => Ok tt
  | s :: rest =>
      let? _ := check_step k n s in
      check_order (see k s) (n + 1) rest
  end.

(** The second walk, which remembers the naming of the last restore. *)
Fixpoint check_masking (last : option TargetNaming) (n : Z) (steps : list PipelineStep)
    : result unit PipelineError :=
  match steps with
  | [] => Ok tt
  | PRestore r :: rest => check_masking (Some (rs_naming r)) (n + 1) rest
  | PMask _ :: rest =>
      match last with
      | Some (IntoExisting name) => Err (MaskingIntoExisting n name)
      | _ => check_masking last (n + 1) rest
      end
  | _ :: rest => check_masking last (n + 1) rest
  end.

Fixpoint check_distinct (seen : gset string) (targets : list string) : result unit PipelineError :=
  match targets with
  | [] => Ok tt
  | t :: rest =>
      let? _ := guard (bool_decide (t ∈ seen)) (RepeatedDestructiveTarget t) in
      check_distinct ({[t]} ∪ seen) rest
  end.

Definition validate_steps (name : string) (steps : list PipelineStep) : result unit PipelineError :=
  let? _ := guard (String.eqb (trim name) "") NoName in
  let? _ := guard (Nat.eqb (length steps) 0) Empty in
  let? _ := check_order (mk_seen false false) 1 steps in
  let? _ := check_masking None 1 steps in
  check_distinct ∅ (targets_of steps).

Definition validate (p : Pipeline) : result unit PipelineError := validate_steps (p_name p) (p_steps p).
Definition create_validate (c : PipelineCreate) : result unit PipelineError :=
  validate_steps (pcr_name c) (pcr_steps c).

Definition knows (profiles : list ConnectionProfile) (id : Uuid) : bool :=
  existsb (fun p => N.eqb (profile_id p) id) profiles.

Fixpoint check_profiles (profiles : list ConnectionProfile) (n : Z) (steps : list PipelineStep)
    : result unit PipelineError :=
  match steps with
  | [] => Ok tt
  | s :: rest =>
      let? _ := guard (match step_profile_id s with Some id => negb (knows profiles id) | None => false end)
                  (UnknownProfile n) in
      check_profiles profiles (n + 1) rest
  end.

Definition engine_of (profiles : list ConnectionProfile) (id : Uuid) : option Engine :=
  option_map profile_engine (find_profile profiles id).

Definition check_carried (carried : option (Engine * Z)) (dest : option Engine) (n : Z)
    : result unit PipelineError :=
  match carried, dest with
  | Some (source, b), Some dest =>
      guard (negb (bool_decide (source = dest))) (StepEngineMismatch b n source dest)
  | _, _ => Ok tt
  end.

(** The walk that carries the engine of the most recent backup. *)
Fixpoint check_engines (profiles : list ConnectionProfile) (carried : option (Engine * Z)) (n : Z)
    (steps : list PipelineStep) : result unit PipelineError :=
  match steps with
  | [] => Ok tt
  | PBackup b :: rest =>
      check_engines profiles (option_map (fun e => (e, n)) (engine_of profiles (bs_profile_id b)))
        (n + 1) rest
  | PRestore r :: rest =>
      let? _ := (if from_previous (rs_source r)
                 then check_carried carried (engine_of profiles (rs_profile_id r)) n else Ok tt) in
      check_engines profiles carried (n + 1) rest
  | _ :: rest => check_engines profiles carried (n + 1) rest
  end.

Definition validate_against (p : Pipeline) (profiles : list ConnectionProfile) : result unit PipelineError :=
  let? _ := validate p in
  let? _ := check_profiles profiles 1 (p_steps p) in
  check_engines profiles None 1 (p_steps p).

(** ** The table of pipelines (store.rs) *)

Inductive StoreError :=
| PipelineNotFound (id : Uuid)
| InvalidPipeline (e : PipelineError)
| DuplicateName (name : string).

(** The rows by primary key; the name is unique. *)
Abbreviation Table := (gmap Uuid Pipeline).

Definition name_taken (rows : Table) (id : Uuid) (name : string) : bool :=
  existsb (fun e => negb (N.eqb e.1 id) && String.eqb (p_name e.2) name) (map_to_list rows).

Definition require_pipeline (rows : Table) (id : Uuid) : result Pipeline StoreError :=
  ok_or (rows !! id) (PipelineNotFound id).

(** [id] is a fresh v4 value; a clash with a key is a unique violation too. *)
Definition create_pipeline (rows : Table) (id : Uuid) (now : Z) (input : PipelineCreate)
    : result (Pipeline * Table) StoreError :=
  let? _ := map_err (create_validate input) InvalidPipeline in
  let p := mk_pipeline id (trim (pcr_name input)) (pcr_steps input) None now now in
  let? _ := guard (is_some (rows !! id) || name_taken rows id (p_name p)) (DuplicateName (p_name p)) in
  Ok (p, <[id := p]> rows).

(** The patched row, checked; nothing is written yet. *)
Definition patched (p : Pipeline) (patch : PipelineUpdate) (now : Z) : result Pipeline StoreError :=
  let name := match pup_name patch with Some n => trim n | None => p_name p end in
  let steps := default (p_steps p) (pup_steps patch) in
  let ack := if is_some (pup_steps patch) then None else unattended_ack p in
  let p := mk_pipeline (p_id p) name steps ack (p_created_at p) now in
  let? _ := map_err (validate p) InvalidPipeline in
  Ok p.

(** [UPDATE pipelines SET name, steps_json, unattended_ack, updated_at WHERE id]. *)
Definition write_row (rows : Table) (id : Uuid) (p : Pipeline) : result Table StoreError :=
  match rows !! id with
  | None => Ok rows
  | Some old =>
      let? _ := guard (name_taken rows id (p_name p)) (DuplicateName (p_name p)) in
      Ok (<[id := mk_pipeline (p_id old) (p_name p) (p_steps p) (unattended_ack p) (p_created_at old)
                    (p_updated_at p)]> rows)
  end.

Definition update_pipeline (rows : Table) (id : Uuid) (patch : PipelineUpdate) (now : Z)
    : result (Pipeline * Table) StoreError :=
  let? p := require_pipeline rows id in
  let? p := patched p patch now in
  let? rows := write_row rows id p in
  Ok (p, rows).

(** The acknowledgment a person's text earns. *)
Definition acknowledged (p : Pipeline) (typed : option string) : result (option string) StoreError :=
  match typed with
  | None => Ok None
  | Some typed =>
      let? expected := ok_or (destructive_signature p) (InvalidPipeline NothingToAuthorise) in
      let? _ := guard (negb (String.eqb typed expected))
                  (InvalidPipeline (ConfirmationDoesNotMatch expected typed)) in
      Ok (Some expected)
  end.

Definition with_ack (p : Pipeline) (ack : option string) (now : Z) : Pipeline :=
  mk_pipeline (p_id p) (p_name p) (p_steps p) ack (p_created_at p) now.

(** [UPDATE pipelines SET unattended_ack, updated_at WHERE id]. *)
Definition write_ack (rows : Table) (id : Uuid) (ack : option string) (now : Z) : Table :=
  match rows !! id with None => rows | Some old => <[id := with_ack old ack now]> rows end.

Definition arm_pipeline (rows : Table) (id : Uuid) (typed : option string) (now : Z)
    : result (Pipeline * Table) StoreError :=
  let? p := require_pipeline rows id in
  let? ack := acknowledged p typed in
  Ok (with_ack p ack now, write_ack rows id ack now).

Definition delete_pipeline (rows : Table) (id : Uuid) : bool * Table :=
  (is_some (rows !! id), base.delete id rows).

(** *** Interleaved writers

    A write whose read has happened and whose row is still to be written. *)
Inductive Pending :=
| PendingUpdate (id : Uuid) (p : Pipeline)
| PendingArm (id : Uuid) (ack : option string) (now : Z).

(** The table, the writes under way, and what people typed for which pipeline. *)
Record World := mk_world {
  table : Table;
  pending : list Pending;
  typed_for : list (Uuid * string) }.

Definition no_pipelines : World := mk_world ∅ [] [].

Inductive StoreStep : World -> World -> Prop :=
| SCreate w id now input p rows :
    create_pipeline (table w) id now input = Ok (p, rows) ->
    StoreStep w (mk_world rows (pending w) (typed_for w))
| SReadUpdate w id p patch now p' :
    table w !! id = Some p -> patched p patch now = Ok p' ->
    StoreStep w (mk_world (table w) (PendingUpdate id p' :: pending w) (typed_for w))
| SWriteUpdate w pre id p post rows :
    pending w = pre ++ PendingUpdate id p :: post -> write_row (table w) id p = Ok rows ->
    StoreStep w (mk_world rows (pre ++ post) (typed_for w))
| SReadArm w id p typed now ack :
    table w !! id = Some p -> acknowledged p typed = Ok ack ->
    StoreStep w (mk_world (table w) (PendingArm id ack now :: pending w)
                   (match typed with Some t => (id, t) :: typed_for w | None => typed_for w end))
| SWriteArm w pre id ack now post :
    pending w = pre ++ PendingArm id ack now :: post ->
    StoreStep w (mk_world (write_ack (table w) id ack now) (pre ++ post) (typed_for w))
| SDrop w pre t post :
    pending w = pre ++ t :: post -> StoreStep w (mk_world (table w) (pre ++ post) (typed_for w))
| SDelete w id : StoreStep w (mk_world (delete_pipeline (table w) id).2 (pending w) (typed_for w)).

(** The confirmations an unattended run takes from the acknowledgment (scheduler.rs). *)
Definition ack_confirmations (p : Pipeline) : list string :=
  match unattended_ack p with Some ack => lines ack | None => [] end.

(** ** What a valid pipeline is *)

(** Every element stands after a prefix it agrees with. *)
Fixpoint everywhere {A} (P : list A -> A -> Prop) (pre l : list A) : Prop :=
  match l with
  | [] => True
  | a :: l' => P pre a /\ everywhere P (pre ++ [a]) l'
  end.

Definition backup_of (s : PipelineStep) : option BackupStep :=
  match s with PBackup b => Some b | _ => None end.
Definition naming_of (s : PipelineStep) : option TargetNaming :=
  match s with PRestore r => Some (rs_naming r) | _ => None end.

Definition backs_up (pre : list PipelineStep) : Prop := exists b, In (PBackup b) pre.
Definition restores (pre : list PipelineStep) : Prop := exists r, In (PRestore r) pre.

(** The naming of the most recent restore, and the most recent backup. *)
Definition last_naming (pre : list PipelineStep) : option TargetNaming := last (omap naming_of pre).
Definition last_backup (pre : list PipelineStep) : option BackupStep := last (omap backup_of pre).

(** What a step needs of the steps before it. *)
Definition step_ok (pre : list PipelineStep) (s : PipelineStep) : Prop :=
  match s with
  | PBackup b => trim (bs_database b) <> ""
  | PRestore r => rs_source r = PreviousStep -> backs_up pre
  | PVerify _ => restores pre /\ backs_up pre
  | PMask rules => restores pre /\ rules <> []
  | PPushOffsite => backs_up pre
  | PRetention policy => backs_up pre /\ policy_is_enabled policy = true
  | PDrill _ => True
  end.

Definition mask_ok (pre : list PipelineStep) (s : PipelineStep) : Prop :=
  match s with PMask _ => forall name, last_naming pre <> Some (IntoExisting name) | _ => True end.

Definition engines_agree (profiles : list ConnectionProfile) (pre : list PipelineStep) (s : PipelineStep)
    : Prop :=
  match s with
  | PRestore r =>
      rs_source r = PreviousStep -> forall b, last_backup pre = Some b ->
      engine_of profiles (bs_profile_id b) = engine_of profiles (rs_profile_id r)
  | _ => True
  end.

(** The prefix before each step of a pipeline. *)
Definition each_step (P : list PipelineStep -> PipelineStep -> Prop) (steps : list PipelineStep) : Prop :=
  forall pre s post, steps = pre ++ s :: post -> P pre s.

(** Every use of a backup or a restore comes after one, no masked database was
    there before, and no two steps drop the same database. *)
Definition valid_pipeline (name : string) (steps : list PipelineStep) : Prop :=
  trim name <> "" /\ steps <> []
  /\ each_step step_ok steps /\ each_step mask_ok steps
  /\ NoDup (targets_of steps).

(** ** Lemmas *)

Lemma everywhere_iff {A} (P : list A -> A -> Prop) l : forall pre,
  everywhere P pre l <-> forall p a q, l = p ++ a :: q -> P (pre ++ p) a.
Proof.
  induction l as [|x l IH]; intros pre; simpl.
  - split; [|done]. intros _ p a q E. by destruct p.
  - rewrite IH. split.
    + intros [Hx H] [|y p] a q E; simplify_eq/=; [by rewrite app_nil_r|].
      specialize (H p a q eq_refl). by rewrite <- app_assoc in H.
    + intros H. split; [specialize (H [] x l eq_refl); by rewrite app_nil_r in H|].
      intros p a q ->. specialize (H (x :: p) a q eq_refl). by rewrite <- app_assoc.
Qed.

Lemma each_step_iff P steps : each_step P steps <-> everywhere P [] steps.
Proof. rewrite everywhere_iff. done. Qed.

Lemma omap_snoc {A B} (f : A -> option B) l x :
  omap f (l ++ [x]) = omap f l ++ match f x with Some b => [b] | None => [] end.
Proof. rewrite omap_app. simpl. by destruct (f x). Qed.

Lemma last_snoc_opt {A} (l : list A) (o : option A) :
  last (l ++ match o with Some b => [b] | None => [] end) = match o with Some b => Some b | None => last l end.
Proof. destruct o; [by rewrite last_snoc|by rewrite app_nil_r]. Qed.

(** [k] remembers the prefix. *)
Definition remembers (k : Seen) (pre : list PipelineStep) : Prop :=
  (seen_backup k = true <-> backs_up pre) /\ (seen_restore k = true <-> restores pre).

Lemma remembers_see k pre s : remembers k pre -> remembers (see k s) (pre ++ [s]).
Proof.
  intros [Hb Hr]. unfold remembers, backs_up, restores in *.
  setoid_rewrite in_app_iff.
  destruct s; simpl; (split; [rewrite ?Hb|rewrite ?Hr]); split; try (by eauto);
    try (intros [x Hx]; exists x; tauto);
    try (intros (x & [Hx|[Hx|[]]]); [eauto|try discriminate; eauto]).
Qed.

Lemma not_seen b (P : Prop) : (b = true <-> P) -> (negb b = false <-> P).
Proof. destruct b; simpl; intuition congruence. Qed.

Lemma length_nil_eqb {A} (l : list A) : Nat.eqb (length l) 0 = false <-> l <> [].
Proof. by destruct l. Qed.

Lemma check_step_Ok k pre n s : remembers k pre -> check_step k n s = Ok tt <-> step_ok pre s.
Proof.
  intros [Hb%not_seen Hr%not_seen].
  destruct s as [b|r|deep|rules| |policy|d]; simpl; autorewrite with guards.
  - apply String.eqb_neq.
  - rewrite andb_false_iff, Hb. destruct (rs_source r); simpl; split; auto; try discriminate.
    intros [?|?]; [discriminate|auto].
  - by rewrite Hb, Hr.
  - by rewrite Hr, length_nil_eqb.
  - done.
  - by rewrite Hb, negb_false_iff.
  - done.
Qed.

Lemma check_order_Ok steps : forall k pre n, remembers k pre ->
  check_order k n steps = Ok tt <-> everywhere step_ok pre steps.
Proof.
  induction steps as [|s steps IH]; intros k pre n Hk; simpl; [done|].
  rewrite unit_bind, (check_step_Ok k pre n s Hk).
  by rewrite (IH _ (pre ++ [s]) (n + 1) (remembers_see k pre s Hk)).
Qed.

Lemma check_masking_Ok steps : forall pre n,
  check_masking (last_naming pre) n steps = Ok tt <-> everywhere mask_ok pre steps.
Proof.
  induction steps as [|s steps IH]; intros pre n; simpl; [done|].
  specialize (IH (pre ++ [s]) (n + 1)). unfold last_naming in IH at 1.
  rewrite omap_snoc, last_snoc_opt in IH. fold (last_naming pre) in IH.
  destruct s as [b|r|deep|rules| |policy|d]; simpl in *; try (rewrite IH; tauto).
  rewrite <- IH. destruct (last_naming pre) as [[prefix|name|name]|].
  3: { split; [discriminate|]. intros [H _]. by destruct (H name). }
  all: split; [intros H; split; [discriminate|exact H]|by intros [_ H]].
Qed.

Lemma check_distinct_Ok targets : forall seen,
  check_distinct seen targets = Ok tt <-> NoDup targets /\ (forall t, In t targets -> t ∉ seen).
Proof.
  induction targets as [|t targets IH]; intros seen; simpl.
  - split; [intros _; split; [constructor|done]|done].
  - rewrite unit_bind, guard_Ok, bool_decide_eq_false, IH, NoDup_cons.
    setoid_rewrite not_elem_of_union. setoid_rewrite not_elem_of_singleton. split.
    + intros (Ht & Hn & H). split; [split; [|done]|].
      * intros Hi. apply list_elem_of_In in Hi. by destruct (H t Hi).
      * intros x [<-|Hx]; [done|]. by apply H.
    + intros ((Hi & Hn) & H). split; [apply H; by left|]. split; [done|].
      intros x Hx. split; [|apply H; by right]. intros ->. by apply Hi, list_elem_of_In.
Qed.

Lemma validate_steps_Ok name steps : validate_steps name steps = Ok tt <-> valid_pipeline name steps.
Proof.
  unfold validate_steps, valid_pipeline. rewrite !unit_bind, !guard_Ok, length_nil_eqb, !each_step_iff.
  rewrite (check_order_Ok steps _ [] 1), (check_masking_Ok steps [] 1), check_distinct_Ok, String.eqb_neq.
  - assert (forall t, In t (targets_of steps) -> t ∉ (∅ : gset string)) by (intros; apply not_elem_of_empty).
    tauto.
  - by split; (split; [done|intros (? & [])]).
Qed.

Lemma knows_iff profiles id : knows profiles id = true <-> exists p, find_profile profiles id = Some p.
Proof.
  unfold knows, find_profile. induction profiles as [|p ps IH]; simpl; [by split; [|intros [? ?]]|].
  destruct (N.eqb (profile_id p) id); simpl; [split; eauto|done].
Qed.

Lemma check_profiles_Ok profiles steps : forall n,
  check_profiles profiles n steps = Ok tt
  <-> forall s id, In s steps -> step_profile_id s = Some id -> knows profiles id = true.
Proof.
  induction steps as [|s steps IH]; intros n; simpl; [split; [intros _ ? ? []|done]|].
  rewrite unit_bind, guard_Ok, IH. split.
  - intros [H1 H2] t id [->|Ht] E; [|by eapply H2]. rewrite E in H1. by apply negb_false_iff in H1.
  - intros H. split; [|intros; eapply H; eauto].
    destruct (step_profile_id s) eqn:E; [|done]. apply negb_false_iff. eapply H; [by left|done].
Qed.

Lemma engine_of_known profiles id : knows profiles id = true -> exists e, engine_of profiles id = Some e.
Proof. intros [p H]%knows_iff. unfold engine_of. rewrite H. simpl. eauto. Qed.

Lemma check_carried_Ok carried dest n :
  check_carried carried dest n = Ok tt
  <-> forall e b d, carried = Some (e, b) -> dest = Some d -> e = d.
Proof.
  destruct carried as [[e b]|], dest as [d|]; simpl; try (split; [intros _ ??? [=]|done]);
    try (split; [intros _ ??? _ [=]|done]); try done.
  rewrite guard_Ok, negb_false_iff, bool_decide_eq_true. split; [by intros -> ??? [= -> ->] [= ->]|].
  intros H. by apply (H e b d).
Qed.

Lemma engine_of_eq profiles a b :
  knows profiles a = true -> knows profiles b = true ->
  (forall e d, engine_of profiles a = Some e -> engine_of profiles b = Some d -> e = d)
  <-> engine_of profiles a = engine_of profiles b.
Proof.
  intros [ea Ha]%engine_of_known [eb Hb]%engine_of_known. rewrite Ha, Hb. split.
  - intros H. f_equal. by apply H.
  - by intros [= ->] ? ? [= ->] [= ->].
Qed.

(** [carried] is the engine of the most recent backup, with some step number. *)
Definition carries (profiles : list ConnectionProfile) (carried : option (Engine * Z))
    (pre : list PipelineStep) : Prop :=
  option_map fst carried
  = match last_backup pre with Some b => engine_of profiles (bs_profile_id b) | None => None end.

Lemma last_backup_snoc pre s :
  last_backup (pre ++ [s]) = match backup_of s with Some b => Some b | None => last_backup pre end.
Proof. unfold last_backup. by rewrite omap_snoc, last_snoc_opt. Qed.

Lemma check_engines_Ok profiles steps : forall carried pre n,
  (forall s id, In s (pre ++ steps) -> step_profile_id s = Some id -> knows profiles id = true) ->
  carries profiles carried pre ->
  check_engines profiles carried n steps = Ok tt <-> everywhere (engines_agree profiles) pre steps.
Proof.
  induction steps as [|s steps IH]; intros carried pre n Hk Hc; simpl; [done|].
  assert (Hk' : forall t id, In t ((pre ++ [s]) ++ steps) -> step_profile_id t = Some id ->
                             knows profiles id = true) by (by rewrite <- app_assoc).
  assert (Hs : forall c, carries profiles c (pre ++ [s]) ->
            (check_engines profiles c (n + 1) steps = Ok tt
             <-> everywhere (engines_agree profiles) (pre ++ [s]) steps)) by (intros; by apply IH).
  unfold carries in Hs. rewrite last_backup_snoc in Hs.
  destruct s as [b|r|deep|rules| |policy|d]; simpl in *; try (rewrite (Hs carried Hc); tauto).
  { rewrite Hs; [tauto|]. by destruct (engine_of profiles (bs_profile_id b)). }
  rewrite unit_bind, (Hs carried Hc).
  destruct (rs_source r); simpl; try (split; [intros [_ ?]; by split|tauto]).
  apply and_iff_compat_r. rewrite check_carried_Ok. unfold carries in Hc.
  destruct (last_backup pre) as [b|] eqn:E.
  - assert (Hb : In (PBackup b) pre).
    { unfold last_backup in E. apply last_Some_elem_of, list_elem_of_omap in E as (s & Hs' & Eb).
      apply list_elem_of_In in Hs'. by destruct s; simplify_eq/=. }
    split.
    + intros H _ b' [= <-]. apply engine_of_eq; [eapply Hk; [apply in_app_iff; left|]; done
        | eapply Hk; [apply in_app_iff; right; by left|done]|].
      intros e d He Hd. rewrite He in Hc. destruct carried as [[e' m]|]; simplify_eq/=. by apply (H e m d).
    + intros H e m d -> Hd. simpl in Hc. rewrite (H eq_refl b eq_refl), Hd in Hc. by simplify_eq.
  - split; [done|]. intros _ e m d ->. by simpl in Hc.
Qed.

(** *** The invariant of the table *)

(** An acknowledgment is a text somebody typed for that pipeline. *)
Definition ack_typed (w : World) (id : Uuid) (ack : option string) : Prop :=
  forall a, ack = Some a -> In (id, a) (typed_for w).

Definition pending_ok (w : World) (t : Pending) : Prop :=
  match t with
  | PendingUpdate id p => validate p = Ok tt /\ ack_typed w id (unattended_ack p)
  | PendingArm id ack _ => ack_typed w id ack
  end.

Record world_ok (w : World) : Prop := {
  rows_ok : forall id p, table w !! id = Some p -> validate p = Ok tt /\ ack_typed w id (unattended_ack p);
  tasks_ok : forall t, In t (pending w) -> pending_ok w t }.

Lemma pending_ok_mono w w' t :
  (forall e, In e (typed_for w) -> In e (typed_for w')) -> pending_ok w t -> pending_ok w' t.
Proof. intros H. destruct t; simpl; unfold ack_typed; [intros []; split|]; eauto. Qed.

Lemma validate_trim id name steps ack c u :
  validate_steps name steps = Ok tt -> validate (mk_pipeline id (trim name) steps ack c u) = Ok tt.
Proof. unfold validate. simpl. rewrite !validate_steps_Ok. unfold valid_pipeline. by rewrite trim_idem. Qed.

Lemma create_ok rows id now input p rows' :
  create_pipeline rows id now input = Ok (p, rows') ->
  rows' = <[id := p]> rows /\ validate p = Ok tt /\ unattended_ack p = None.
Proof.
  unfold create_pipeline, create_validate. intros H. inv_ok.
  units. repeat split. by apply validate_trim.
Qed.

Lemma patched_ok p patch now p' :
  patched p patch now = Ok p' ->
  validate p' = Ok tt /\ unattended_ack p' = (if is_some (pup_steps patch) then None else unattended_ack p)
  /\ p_steps p' = default (p_steps p) (pup_steps patch).
Proof.
  unfold patched. intros H. inv_ok.
  units. by repeat split.
Qed.

Lemma acknowledged_ok p typed ack :
  acknowledged p typed = Ok ack -> ack = typed /\ (typed <> None -> destructive_signature p = typed).
Proof.
  unfold acknowledged. intros H. destruct typed as [t|]; inv_ok; [|done].
  units. match goal with H : guard _ _ = Ok _ |- _ => apply guard_Ok in H end. bools. by subst.
Qed.

Lemma write_row_ok rows id p rows' :
  write_row rows id p = Ok rows' ->
  rows' = rows \/ exists q, rows' = <[id := q]> rows /\ validate q = validate p
                            /\ unattended_ack q = unattended_ack p /\ p_steps q = p_steps p.
Proof.
  unfold write_row. intros H. destruct (rows !! id) eqn:E; inv_ok; [right|by left].
  eexists. repeat split.
Qed.

Lemma store_step_ok w w' : StoreStep w w' -> world_ok w -> world_ok w'.
Proof.
  intros Hs [Hr Ht].
  assert (Hsplit : forall pre t post, pending w = pre ++ t :: post ->
            pending_ok w t /\ forall x, In x (pre ++ post) -> pending_ok w x).
  { intros pre t post E. rewrite E in Ht. setoid_rewrite in_app_iff in Ht. simpl in Ht.
    split; [by apply Ht; auto|]. intros x [Hx|Hx]%in_app_iff; apply Ht; auto. }
  destruct Hs as [? id now input p rows E|? id p patch now p' E1 E2|? pre id p post rows E1 E2
    |? id p typed now ack E1 E2|? pre id ack now post E|? pre t post E|? id].
  - apply create_ok in E as (-> & Hv & Ha). split; simpl; [|done]. intros j q [[-> <-]|[_ Hq]]%lookup_insert_Some.
    + split; [done|]. intros a. by rewrite Ha.
    + by apply Hr.
  - apply patched_ok in E2 as (Hv & Ha & _). split; simpl; [done|]. intros t [<-|Hi]; [|by apply Ht].
    split; [done|]. intros a. rewrite Ha. destruct (is_some _); [done|]. by apply (Hr id p).
  - destruct (Hsplit _ _ _ E1) as [[Hv Ha] Hrest]. split; simpl; [|done].
    apply write_row_ok in E2 as [->|(q & -> & Hq1 & Hq2 & _)]; [done|].
    intros j r [[-> <-]|[_ Hj]]%lookup_insert_Some; [|by apply Hr].
    split; [congruence|]. intros a. rewrite Hq2. apply Ha.
  - apply acknowledged_ok in E2 as [-> _].
    split; simpl.
    + intros j q Hj. destruct (Hr j q Hj) as [Hv Ha]. split; [done|]. intros a Hq%Ha.
      destruct typed; [by right|done].
    + intros t [<-|Hi].
      * intros a ->. by left.
      * eapply pending_ok_mono; [|by apply Ht]. intros e He. destruct typed; [by right|done].
  - destruct (Hsplit _ _ _ E) as [Ha Hrest]. split; simpl; [|done].
    intros j q Hj. unfold write_ack in Hj. destruct (table w !! id) as [old|] eqn:Eo; [|by apply Hr].
    apply lookup_insert_Some in Hj as [[-> <-]|[_ Hj]]; [|by apply Hr].
    split; [|done]. apply (Hr _ old Eo).
  - destruct (Hsplit _ _ _ E) as [_ Hrest]. by split.
  - split; simpl; [|done]. intros j q [_ Hj]%lookup_delete_Some. by apply Hr.
Qed.

Lemma reachable_ok w : rtc StoreStep no_pipelines w -> world_ok w.
Proof.
  intros H. remember no_pipelines as w0 eqn:E. assert (world_ok w0) as H0.
  { subst. by split; simpl; [intros id p Hp; rewrite lookup_empty in Hp|intros t []]. }
  clear E. induction H as [|x y z Hxy _ IH]; [done|]. apply IH. by eapply store_step_ok.
Qed.

(** *** Names in a signature *)

(** A name that stands on a line of its own. *)
Definition one_line (n : string) : Prop :=
  n <> "" /\ contains_char newline n = false /\ strip_cr n = n.

Lemma drop_last_empty_id l : Forall (fun n => n <> "") l -> drop_last_empty l = l.
Proof.
  induction 1 as [|n l Hn Hl IH]; [done|]. simpl. destruct l as [|m l].
  - by apply String.eqb_neq in Hn as ->.
  - by rewrite IH.
Qed.

Lemma strip_cr_id l : Forall (fun n => strip_cr n = n) l -> strip_cr_but_last l = l.
Proof. induction 1 as [|n l Hn Hl IH]; [done|]. simpl. destruct l; [done|]. by rewrite Hn, IH. Qed.

Lemma lines_join l : Forall one_line l -> lines (join (String newline "") l) = l.
Proof.
  intros H. unfold lines. destruct l as [|n l]; [done|]. rewrite split_on_join; [|done|].
  - rewrite strip_cr_id, drop_last_empty_id; [done| |]; (eapply Forall_impl; [exact H|]); by intros ? (? & ? & ?).
  - eapply Forall_impl; [exact H|]. by intros ? (? & ? & ?).
Qed.

Lemma armed_confirmations p :
  is_armed p = true -> Forall one_line (destructive_targets p) -> ack_confirmations p = destructive_targets p.
Proof.
  unfold is_armed, ack_confirmations, destructive_signature. intros H Hl.
  destruct (unattended_ack p) as [ack|]; [|done].
  destruct (destructive_targets p) as [|t ts] eqn:Et; [done|]. apply String.eqb_eq in H as ->.
  exact (lines_join (t :: ts) Hl).
Qed.

(** ** Theorems *)


(** However updates, armings and deletions interleave, every stored pipeline
    is valid, and one that counts as armed drops exactly the databases whose
    names somebody typed for that pipeline; an unattended run confirms those
    names, one per dropped database, in order. *)
Theorem armed_means_typed w id p :
  rtc StoreStep no_pipelines w -> table w !! id = Some p ->
  valid_pipeline (p_name p) (p_steps p)
  /\ (is_armed p = true ->
      exists typed, In (id, typed) (typed_for w) /\ destructive_signature p = Some typed
        /\ (Forall one_line (destructive_targets p) -> ack_confirmations p = destructive_targets p)).
Proof.
  intros Hw%reachable_ok Hp. destruct (rows_ok w Hw id p Hp) as [Hv Ha].
  split; [by apply validate_steps_Ok|]. intros H. pose proof (armed_confirmations p H) as Hc.
  unfold is_armed in H. destruct (unattended_ack p) as [ack|]; [|done].
  destruct (destructive_signature p) as [sig|] eqn:E; [|done]. apply String.eqb_eq in H as ->.
  exists sig. split_and!; [by apply Ha|done|exact Hc].
Qed.

(** An edit of the steps revokes the authorisation, and so does disarming;
    a text that is not the current signature authorises nothing. *)
Theorem editing_disarms rows id p :
  rows !! id = Some p ->
  (forall patch now p' rows', update_pipeline rows id patch now = Ok (p', rows') ->
     pup_steps patch <> None -> forall q, rows' !! id = Some q -> is_armed q = false)
  /\ (forall now p' rows', arm_pipeline rows id None now = Ok (p', rows') ->
     forall q, rows' !! id = Some q -> is_armed q = false)
  /\ (forall typed now, destructive_signature p <> Some typed ->
     exists e, arm_pipeline rows id (Some typed) now = Err (InvalidPipeline e)).
Proof.
  intros Hp. split_and!.
  - intros patch now p' rows' H Hs q Hq. unfold update_pipeline, require_pipeline in H. rewrite Hp in H.
    simpl in H. inv_ok. match goal with H : patched _ _ _ = Ok _ |- _ => apply patched_ok in H as (_ & Ha & _) end.
    match goal with H : write_row _ _ _ = Ok _ |- _ => unfold write_row in H; rewrite Hp in H end.
    inv_ok. rewrite lookup_insert, decide_True in Hq by done. simplify_eq. unfold is_armed. simpl. rewrite Ha.
    by destruct (pup_steps patch).
  - intros now p' rows' H q Hq. unfold arm_pipeline, require_pipeline, write_ack in H. rewrite Hp in H.
    simpl in H. inv_ok. rewrite lookup_insert, decide_True in Hq by done. by simplify_eq.
  - intros typed now Ht. unfold arm_pipeline, require_pipeline, acknowledged. rewrite Hp. simpl.
    destruct (destructive_signature p) as [sig|]; [|by eexists]. simpl.
    assert (String.eqb typed sig = false) as -> by (apply String.eqb_neq; congruence). by eexists.
Qed.

(** A disarming is lost to a rename that had read the row before it: the
    rename writes the acknowledgment it read, and the pipeline may again drop
    its databases with nobody present. *)
Theorem rename_undoes_disarm rows id p name now p' :
  rows !! id = Some p -> is_armed p = true ->
  patched p (mk_pipeline_update (Some name) None) now = Ok p' -> name_taken rows id (p_name p') = false ->
  forall later,
  let disarmed := write_ack rows id None later in
  (exists q, arm_pipeline rows id None later = Ok (q, disarmed) /\ is_armed q = false)
  /\ exists rows' q, write_row disarmed id p' = Ok rows' /\ rows' !! id = Some q
       /\ is_armed q = true /\ destructive_targets q = destructive_targets p.
Proof.
  intros Hp Harm E Hn later. cbn zeta. split.
  - unfold arm_pipeline, require_pipeline. rewrite Hp. simpl. by eexists.
  - destruct (patched_ok _ _ _ _ E) as (_ & Ha & Hs). simpl in Ha, Hs.
    unfold write_row, write_ack. rewrite Hp, lookup_insert, decide_True by done.
    assert (name_taken (<[id:=with_ack p None later]> rows) id (p_name p') = false) as ->.
    { unfold name_taken in *. rewrite <- not_true_iff_false, existsb_exists in *.
      intros ([j q] & Hj & Hq). apply Hn. exists (j, q). simpl in *. split; [|done].
      apply list_elem_of_In, elem_of_map_to_list in Hj. apply list_elem_of_In, elem_of_map_to_list.
      apply lookup_insert_Some in Hj as [[-> _]|[_ Hj]]; [by rewrite N.eqb_refl in Hq|done]. }
    simpl. do 2 eexists. split; [done|]. rewrite lookup_insert, decide_True by done. split; [done|].
    revert Harm. unfold is_armed, destructive_signature, destructive_targets. simpl. rewrite Ha, Hs. done.
Qed.

(** ** Witnesses *)

(** Back up shop, and put it over staging. *)
Definition sample_steps : list PipelineStep :=
  [PBackup (mk_backup_step 1 "shop" None [] None true false false (BMysql mysql_default));
   PRestore (mk_restore_step 2 PreviousStep (DropAndRecreate "staging") (RMysql rmysql_default) true);
   PVerify false].

Definition sample_pipeline (ack : option string) (now : Z) : Pipeline :=
  mk_pipeline 7 "nightly" sample_steps ack 0 now.

Definition sample_rows (ack : option string) (now : Z) : Table := {[7%N := sample_pipeline ack now]}.

Definition armed_world : World := mk_world (sample_rows (Some "staging") 1) [] [(7%N, "staging")].

Lemma sample_reachable : rtc StoreStep no_pipelines armed_world.
Proof.
  eapply rtc_l.
  { eapply (SCreate _ 7%N 0 (mk_pipeline_create " nightly " sample_steps)). vm_compute. reflexivity. }
  eapply rtc_l.
  { eapply (SReadArm _ 7%N (sample_pipeline None 0) (Some "staging") 1); vm_compute; reflexivity. }
  eapply rtc_l; [|apply rtc_refl].
  refine (eq_rect _ (StoreStep _) (SWriteArm _ [] 7%N (Some "staging") 1 [] _) _ _); vm_compute; reflexivity.
Qed.

Lemma armed_means_typed_witness :
  exists w id p, rtc StoreStep no_pipelines w /\ table w !! id = Some p /\ is_armed p = true
    /\ exists typed, In (id, typed) (typed_for w) /\ destructive_signature p = Some typed
       /\ ack_confirmations p = destructive_targets p.
Proof.
  exists armed_world, 7%N, (sample_pipeline (Some "staging") 1).
  assert (table armed_world !! 7%N = Some (sample_pipeline (Some "staging") 1)) as E by reflexivity.
  assert (is_armed (sample_pipeline (Some "staging") 1) = true) as Ha by reflexivity.
  destruct (armed_means_typed armed_world 7%N _ sample_reachable E) as [_ H].
  destruct (H Ha) as (typed & H1 & H2 & H3). split_and!; [exact sample_reachable|exact E|exact Ha|].
  exists typed. split_and!; [exact H1|exact H2|apply H3].
  repeat constructor. discriminate.
Defined.

Lemma editing_disarms_witness :
  exists rows p e, rows !! 7%N = Some p /\ is_armed p = true
    /\ arm_pipeline rows 7 (Some "production") 5 = Err (InvalidPipeline e).
Proof.
  exists (sample_rows (Some "staging") 1), (sample_pipeline (Some "staging") 1).
  assert (sample_rows (Some "staging") 1 !! 7%N = Some (sample_pipeline (Some "staging") 1)) as E by reflexivity.
  pose proof (editing_disarms _ 7%N _ E) as (_ & _ & H).
  destruct (H "production" 5 ltac:(discriminate)) as [e He].
  exists e. split_and!; [exact E|reflexivity|exact He].
Defined.

Lemma rename_undoes_disarm_witness :
  exists rows' q, write_row (write_ack (sample_rows (Some "staging") 1) 7 None 3) 7
      (mk_pipeline 7 "evening" sample_steps (Some "staging") 0 2) = Ok rows'
    /\ rows' !! 7%N = Some q /\ is_armed q = true.
Proof.
  destruct (rename_undoes_disarm (sample_rows (Some "staging") 1) 7%N (sample_pipeline (Some "staging") 1)
    "evening" 2 (mk_pipeline 7 "evening" sample_steps (Some "staging") 0 2)) with (later := 3)
    as [_ (rows' & q & H1 & H2 & H3 & _)]; try reflexivity.
  exists rows', q. split_and!; [exact H1|exact H2|exact H3].
Defined.
