(* ===== verification/Ops.v ===== *)
(** * Ops: what the operations of engine/src/ops.rs share

    Their error type, their requests and results, and the computations they are
    written in: an operation reads and changes the outside world, may fail, may
    panic, and leaves a trace of what it announced, recorded and attempted. *)

From Stdlib Require Import ZArith Lia Ascii String List Bool.
From stdpp Require Import base list gmap strings.
From S2P Require Import Prelude Text Domain Sql Retention Backup Restore Verify Mask Plan Job Step Pipeline.
Import ListNotations.

Open Scope string_scope.
Open Scope list_scope.
Open Scope Z_scope.

(** ** Errors *)

(** The store errors an operation can meet; the others are carried as text. *)
Inductive StoreFailure :=
| ProfileNotFound (id : Uuid)
| SyncPlanNotFound (id : Uuid)
| StoreText (text : string).

Inductive OpError :=
| OpConnect (text : string)
| OpBackup (e : BackupError)
| OpRestore (e : RestoreError)
| OpDb (e : DbError)
| OpStore (e : StoreFailure)
| OpMask (e : MaskError)
| OpPipeline (e : PipelineError)
| UnmaskedDataLeftBehind (database masking drop : string)
| OpEngineMismatch (source_engine dest_engine : Engine)
| OpCancelled
| OpDestination (text : string)
| TargetCollision (target : string)
| TargetMissing (target : string)
| ToolSourceUnavailable (text : string).

Definition format_debug (f : ArtifactFormat) : string :=
  match f with
  | SqlGz => "SqlGz" | PgCustom => "PgCustom" | PgDirectory => "PgDirectory"
  | MydumperDir => "MydumperDir" | MongoArchive => "MongoArchive"
  end.

Section Texts.
Variable str_debug : string -> string.      (* [{:?}] of a string *)
Variable uuid_text : Uuid -> string.        (* [{}] of a uuid *)

Definition restore_error_text (e : RestoreError) : string :=
  match e with
  | REngineMismatch p o =>
      "profile engine is " ++ engine_debug p ++ " but options are for " ++ engine_debug o
  | ArtifactEngineMismatch a p =>
      "artifact was produced for " ++ engine_debug a ++ " but the target is " ++ engine_debug p
  | ConfirmationRequired expected got =>
      "this drops the existing database " ++ str_debug expected ++ "; type its name to confirm (got "
      ++ match got with Some g => "Some(" ++ str_debug g ++ ")" | None => "None" end ++ ")"
  | SelectiveRestoreUnsupported f =>
      "selective restore needs an archive format; " ++ format_debug f ++ " cannot do it"
  | ParallelRestoreUnsupported f =>
      "parallel restore needs an archive format; " ++ format_debug f ++ " cannot do it"
  | RInvalid why => why
  | RNotImplemented what => what ++ " is not implemented yet"
  | RExec e => e
  | RestoreCancelled => "job was cancelled"
  end%string.

Definition store_failure_text (e : StoreFailure) : string :=
  match e with
  | ProfileNotFound id => "no profile with id " ++ uuid_text id
  | SyncPlanNotFound id => "no sync plan with id " ++ uuid_text id
  | StoreText t => t
  end%string.

Definition op_error_text (e : OpError) : string :=
  match e with
  | OpConnect t | OpDestination t | ToolSourceUnavailable t => t
  | OpBackup e => backup_error_text str_debug e
  | OpRestore e => restore_error_text e
  | OpDb e => db_error_text e
  | OpStore e => store_failure_text e
  | OpMask e => mask_error_text e
  | OpPipeline e => pipeline_error_text str_debug e
  | UnmaskedDataLeftBehind database masking drop =>
      "masking failed and " ++ database ++ " could not be dropped, so it may still hold unmasked data "
      ++ "— drop it by hand now. Masking error: " ++ masking ++ ". Drop error: " ++ drop
  | OpEngineMismatch s d =>
      "cannot sync a " ++ engine_debug s ++ " source to a " ++ engine_debug d ++ " destination"
  | OpCancelled => "job was cancelled"
  | TargetCollision target =>
      target ++ " already exists, so this restore would have to write into a database it did "
      ++ "not create. Generated names carry a one-second timestamp — run it again in a moment, "
      ++ "or name the target explicitly"
  | TargetMissing target =>
      "there is no database called " ++ target ++ " to restore into. Nothing creates it for this "
      ++ "strategy — either create it first, or restore into a new database instead"
  end%string.
End Texts.

(** ** Requests and results *)

Record VerifyRequest := mk_verify_request {
  vr_source_profile : ConnectionProfile;
  vr_dest_profile : ConnectionProfile;
  vr_source_database : string;
  vr_dest_database : string;
  vr_tables_with_data : list string;
  vr_schema_only : list string;
  vr_deep : bool;
  vr_masked_tables : list string }.

Record PushResult := mk_push {
  pr_destination_id : Uuid;
  pr_destination_name : string;
  pr_location : string;
  pr_key : string;
  pr_url : string;
  pr_bytes : Z;
  pr_error : option string;
  pr_removed : list string }.

Definition push_succeeded (r : PushResult) : bool := negb (is_some (pr_error r)).

(** The destinations a push failed to reach. *)
Definition push_failures (results : list PushResult) : list string :=
  map (fun r => pr_destination_name r ++ ": " ++ default "unknown error" (pr_error r))%string
    (List.filter (fun r => negb (push_succeeded r)) results).

Definition with_error (d : JobStepDetail) (e : option string) : JobStepDetail :=
  mk_detail (d_artifact d) (d_database d) (d_tables_checked d) e (d_notes d).

(** [find_map(|r| r.error.clone())]. *)
Definition first_error (results : list PushResult) : option string := head (omap pr_error results).

Definition describe_offsite (results : list PushResult) : JobStepDetail :=
  match results with
  | [] => add_note no_detail "no off-site destination is set up"
  | _ =>
      let failed := Z.of_nat (length (List.filter (fun r => negb (push_succeeded r)) results)) in
      let all := Z.of_nat (length results) in
      let detail := add_note no_detail (show (all - failed) ++ " of " ++ show all ++ " destination(s) copied")%string in
      if failed =? 0 then detail
      else with_error detail
             (match first_error results with Some e => Some e | None => Some "an off-site copy failed" end)
  end.

Record DrillRequest := mk_drill_request {
  dr_artifact_dir : string;
  dr_restore : EngineRestoreOptions;
  dr_deep_verify : bool;
  dr_keep_on_failure : bool }.

Record DrillOutcome := mk_drill_outcome {
  do_artifact : string;
  do_scratch_database : string;
  do_dropped : bool;
  do_report : VerificationReport }.

(** [schedule::default_restore_options]. *)
Definition default_restore_options (e : Engine) : EngineRestoreOptions :=
  match e with
  | Mysql => RMysql rmysql_default
  | Postgres => RPostgres rpostgres_default
  | Mongo => RMongo rmongo_default
  end.

(** ** Computations *)

(** What an operation announces, records about its steps, and attempts. *)
Inductive Entry :=
| Emitted (level : LogLevel) (phase : JobPhase) (message : string)
| Planned (plan : StepPlan)
| Begun (kind : JobStepKind)
| Finished (detail : JobStepDetail)
| Skipped_ (kind : JobStepKind) (reason : string)
| DidBackup (profile : ConnectionProfile) (request : BackupRequest)
| DidRestore (profile : ConnectionProfile) (request : RestoreRequest)
| DidMask (profile : ConnectionProfile) (database : string) (coverage : MaskingCoverage)
| DidVerify (request : VerifyRequest)
| DidPush (artifact : string)
| DidPrune (dir : string) (policy : RetentionPolicy)
| DidDrill (profile : ConnectionProfile) (request : DrillRequest).

(** How an operation stops early. *)
Inductive Stop :=
| Failed_ (e : OpError)
| Panicked (why : string).

Section Computations.
Context {W : Type}.

Record OpState := mk_op { world : W; trace : list Entry }.

Definition Op (A : Type) : Type := OpState -> result A Stop * OpState.

Definition ret {A} (a : A) : Op A := fun s => (Ok a, s).
Definition stop {A} (e : Stop) : Op A := fun s => (Err e, s).
Definition fail {A} (e : OpError) : Op A := stop (Failed_ e).

Definition bind {A B} (m : Op A) (k : A -> Op B) : Op B :=
  fun s => match m s with (Ok a, s) => k a s | (Err e, s) => (Err e, s) end.

Definition note (e : Entry) : Op unit := fun s => (Ok tt, mk_op (world s) (trace s ++ [e])).

(** A call that changes the world, and may fail. *)
Definition ask {A} (f : W -> result A OpError * W) : Op A :=
  fun s => let '(r, w) := f (world s) in (map_err r Failed_, mk_op w (trace s)).

(** A call into another operation, which may also panic. *)
Definition invoke {A} (f : W -> result A Stop * W) : Op A :=
  fun s => let '(r, w) := f (world s) in (r, mk_op w (trace s)).

(** An attempt is noted before its outcome is known. *)
Definition attempt {A} (e : Entry) (f : W -> result A Stop * W) : Op A :=
  bind (note e) (fun _ => invoke f).

Definition lift {A} (r : result A OpError) : Op A :=
  match r with Ok a => ret a | Err e => fail e end.

(** [Option::expect]. *)
Definition expect {A} (o : option A) (why : string) : Op A :=
  match o with Some a => ret a | None => stop (Panicked why) end.

Definition emit_info (p : JobPhase) (m : string) : Op unit := note (Emitted Info p m).
Definition emit_warning (p : JobPhase) (m : string) : Op unit := note (Emitted Warn p m).
End Computations.
Arguments OpState W : clear implicits.
Arguments Op W A : clear implicits.

Notation "'let*' x ':=' e 'in' k" := (bind e (fun x => k))
  (at level 10, x pattern, e at level 200, k at level 200) : dbsync_scope.

(** The operations a chain is made of, and what they ask of the outside; the
    engines behind them are other parts of ops.rs.  Each may fail, and each may
    panic: a cutoff out of range, a row without the column read from it. *)
Class Operations (W : Type) := {
  list_profiles : W -> result (list ConnectionProfile) Stop * W;
  get_sync_plan : Uuid -> W -> result (option SyncPlan) Stop * W;
  list_tables : ConnectionProfile -> string -> W -> result (list TableInfo) Stop * W;
  source_columns : ConnectionProfile -> string -> list string -> W -> result (gmap string (list string)) Stop * W;
  backup : ConnectionProfile -> BackupRequest -> W -> result string Stop * W;
  restore : ConnectionProfile -> RestoreRequest -> W -> result string Stop * W;
  mask_destination : ConnectionProfile -> string -> MaskingCoverage -> W -> result MaskingReport Stop * W;
  verify_restore : VerifyRequest -> W -> result VerificationReport Stop * W;
  push_offsite : string -> W -> result (list PushResult) Stop * W;
  apply_retention : string -> RetentionPolicy -> W -> result (list string) Stop * W;
  drill : ConnectionProfile -> DrillRequest -> W -> result DrillOutcome Stop * W;
  newest_artifact : string -> W -> result string Stop * W;
  cancelled : W -> bool * W }.

(** One of the operations panics with this message, in some world. *)
Inductive raises `{Operations W} (why : string) : Prop :=
| raises_profiles w (H : (list_profiles w).1 = Err (Panicked why))
| raises_plan id w (H : (get_sync_plan id w).1 = Err (Panicked why))
| raises_tables p db w (H : (list_tables p db w).1 = Err (Panicked why))
| raises_columns p db l w (H : (source_columns p db l w).1 = Err (Panicked why))
| raises_backup p r w (H : (backup p r w).1 = Err (Panicked why))
| raises_restore p r w (H : (restore p r w).1 = Err (Panicked why))
| raises_mask p db c w (H : (mask_destination p db c w).1 = Err (Panicked why))
| raises_verify r w (H : (verify_restore r w).1 = Err (Panicked why))
| raises_push a w (H : (push_offsite a w).1 = Err (Panicked why))
| raises_prune dir policy w (H : (apply_retention dir policy w).1 = Err (Panicked why))
| raises_drill p r w (H : (drill p r w).1 = Err (Panicked why))
| raises_newest dir w (H : (newest_artifact dir w).1 = Err (Panicked why)).

(** ** Lemmas *)

Section Lemmas.
Context {W : Type}.

Lemma bind_Ok {A B} (m : Op W A) (k : A -> Op W B) s b s' :
  bind m k s = (Ok b, s') <-> exists a s1, m s = (Ok a, s1) /\ k a s1 = (Ok b, s').
Proof.
  unfold bind. destruct (m s) as [[a|e] s1]; split.
  - intros H. eauto.
  - by intros (? & ? & [= <- <-] & H).
  - done.
  - by intros (? & ? & [=] & _).
Qed.

Lemma bind_Err {A B} (m : Op W A) (k : A -> Op W B) s e s' :
  bind m k s = (Err e, s') <->
  m s = (Err e, s') \/ exists a s1, m s = (Ok a, s1) /\ k a s1 = (Err e, s').
Proof.
  unfold bind. destruct (m s) as [[a|e'] s1]; split.
  - intros H. right. eauto.
  - by intros [[=]|(? & ? & [= <- <-] & H)].
  - intros [= -> ->]. by left.
  - intros [[= -> ->]|(? & ? & [=] & _)]. done.
Qed.
End Lemmas.

(** ** Reasoning about computations *)

Section Post.
Context {W : Type}.

(** Whatever the state, [m] extends the trace by a list, and the list and the
    result are related. *)
Definition post {A} (m : Op W A) (Q : list Entry -> result A Stop -> Prop) : Prop :=
  forall s, exists l, trace (m s).2 = trace s ++ l /\ Q l (m s).1.

Lemma post_mono {A} (m : Op W A) (P Q : list Entry -> result A Stop -> Prop) :
  post m P -> (forall l r, P l r -> Q l r) -> post m Q.
Proof. intros H HPQ s. destruct (H s) as (l & Hl & HP). eauto. Qed.

Lemma post_and {A} (m : Op W A) (P Q : list Entry -> result A Stop -> Prop) :
  post m P -> post m Q -> post m (fun l r => P l r /\ Q l r).
Proof.
  intros HP HQ s. destruct (HP s) as (l & Hl & H1), (HQ s) as (l' & Hl' & H2).
  rewrite Hl in Hl'. apply app_inv_head in Hl' as <-. eauto.
Qed.

Lemma post_ret {A} (a : A) (Q : list Entry -> result A Stop -> Prop) : Q [] (Ok a) -> post (ret a) Q.
Proof. intros H s. exists []. by rewrite app_nil_r. Qed.

Lemma post_stop {A} (e : Stop) (Q : list Entry -> result A Stop -> Prop) : Q [] (Err e) -> post (stop e) Q.
Proof. intros H s. exists []. by rewrite app_nil_r. Qed.

Lemma post_fail {A} (e : OpError) (Q : list Entry -> result A Stop -> Prop) :
  Q [] (Err (Failed_ e)) -> post (fail e) Q.
Proof. apply post_stop. Qed.

Lemma post_note (e : Entry) (Q : list Entry -> result unit Stop -> Prop) : Q [e] (Ok tt) -> post (note e) Q.
Proof. intros H s. by exists [e]. Qed.

Lemma post_bind {A B} (m : Op W A) (k : A -> Op W B) (Q : list Entry -> result B Stop -> Prop) :
  post m (fun l r => match r with
                     | Ok a => post (k a) (fun l' r' => Q (l ++ l') r')
                     | Err e => Q l (Err e)
                     end) ->
  post (bind m k) Q.
Proof.
  intros H s. destruct (H s) as (l & Hl & HQ). unfold bind. destruct (m s) as [[a|e] s1]; simpl in *.
  - destruct (HQ s1) as (l' & Hl' & HQ'). exists (l ++ l'). split; [|done]. by rewrite Hl', Hl, app_assoc.
  - eauto.
Qed.

Lemma post_ask {A} (f : W -> result A OpError * W) (Q : list Entry -> result A Stop -> Prop) :
  (forall w, Q [] (map_err (f w).1 Failed_)) -> post (ask f) Q.
Proof. intros H s. exists []. unfold ask. specialize (H (world s)). destruct (f (world s)). by rewrite app_nil_r. Qed.

Lemma post_invoke {A} (f : W -> result A Stop * W) (Q : list Entry -> result A Stop -> Prop) :
  (forall w, Q [] (f w).1) -> post (invoke f) Q.
Proof. intros H s. exists []. unfold invoke. specialize (H (world s)). destruct (f (world s)). by rewrite app_nil_r. Qed.

Lemma post_attempt {A} e (f : W -> result A Stop * W) (Q : list Entry -> result A Stop -> Prop) :
  (forall w, Q [e] (f w).1) -> post (attempt e f) Q.
Proof. intros H. apply post_bind, post_note, post_invoke. exact H. Qed.

Lemma post_lift {A} (r : result A OpError) (Q : list Entry -> result A Stop -> Prop) :
  Q [] (map_err r Failed_) -> post (lift r) Q.
Proof. destruct r; [apply post_ret|apply post_fail]. Qed.

Lemma post_expect {A} (o : option A) why a (Q : list Entry -> result A Stop -> Prop) :
  o = Some a -> Q [] (Ok a) -> post (expect o why) Q.
Proof. intros ->. apply post_ret. Qed.

(** A run of [m] that has this postcondition. *)
Lemma post_run {A} (m : Op W A) (Q : list Entry -> result A Stop -> Prop) s r s' :
  post m Q -> m s = (r, s') -> exists l, trace s' = trace s ++ l /\ Q l r.
Proof. intros H E. specialize (H s). by rewrite E in H. Qed.

End Post.

Section Quiet.
Context {W : Type} `{Operations W}.

(** Only announcements, and no panic but one of an operation called. *)
Definition is_emitted (e : Entry) : Prop := match e with Emitted _ _ _ => True | _ => False end.
Definition no_panic {A} (r : result A Stop) : Prop := forall why, r = Err (Panicked why) -> raises why.
Definition quiet {A} (l : list Entry) (r : result A Stop) : Prop := Forall is_emitted l /\ no_panic r.

Lemma quiet_bind {A B} (m : Op W A) (k : A -> Op W B) :
  post m quiet -> (forall a, post (k a) quiet) -> post (bind m k) quiet.
Proof.
  intros Hm Hk. apply post_bind. eapply post_mono; [exact Hm|]. intros l [a|e] [Hl Hr].
  - eapply post_mono; [apply Hk|]. intros l' r [Hl' Hr']. split; [by apply Forall_app|done].
  - split; [done|]. intros why [= ->]. by apply (Hr why).
Qed.

Lemma quiet_ok {A} (a : A) : quiet [] (Ok a).
Proof. by split; [constructor|]. Qed.

Lemma quiet_failed {A} (r : result A OpError) : quiet [] (map_err r Failed_).
Proof. by split; [constructor|]; destruct r. Qed.

Lemma quiet_ret {A} (a : A) : post (W := W) (ret a) quiet.
Proof. apply post_ret, quiet_ok. Qed.

Lemma quiet_fail {A} e : post (@fail W A e) quiet.
Proof. apply post_fail. by split; [constructor|]. Qed.

Lemma quiet_ask {A} (f : W -> result A OpError * W) : post (ask f) quiet.
Proof. apply post_ask. intros w. apply quiet_failed. Qed.

Lemma quiet_invoke {A} (f : W -> result A Stop * W) :
  (forall w why, (f w).1 = Err (Panicked why) -> raises why) -> post (invoke f) quiet.
Proof. intros Hf. apply post_invoke. intros w. split; [constructor|]. intros why. apply Hf. Qed.

Lemma quiet_lift {A} (r : result A OpError) : post (@lift W A r) quiet.
Proof. apply post_lift, quiet_failed. Qed.

Lemma quiet_emit e : is_emitted e -> post (W := W) (note e) quiet.
Proof. intros He. apply post_note. by split; [constructor|]. Qed.
End Quiet.

Create HintDb quiet.
Create HintDb raises.
#[export] Hint Resolve quiet_bind quiet_ret quiet_fail quiet_ask quiet_lift quiet_emit : quiet.
#[export] Hint Extern 1 (is_emitted _) => exact I : quiet.
#[export] Hint Constructors raises : raises.

(** Binds, cases and the leaves of a computation that only announces. *)
Ltac quiet :=
  repeat first
    [ match goal with |- forall _, _ => intros ? end
    | solve [eauto 3 with quiet]
    | apply quiet_bind | apply quiet_ret | apply quiet_fail | apply quiet_ask | apply quiet_lift
    | (apply quiet_invoke; solve [eauto with raises])
    | (apply quiet_emit; exact I)
    | match goal with |- post (match ?x with _ => _ end) _ => destruct x end ].
