(* ===== verification/MaskRun.v ===== *)
(** * MaskRun: masking a destination, or destroying it (engine/src/ops.rs)

    [mask_destination] runs the statements of [Mask], reads the destination back
    and, if anything fails, drops the database.  What the destination answers is
    the record [World]; the trace says, in order, what was done to it. *)

From Stdlib Require Import ZArith Lia Ascii String List Bool Permutation.
From stdpp Require Import base list gmap strings.
From S2P Require Import Prelude Text Domain Sql Mask Ops.
Import ListNotations.

Open Scope string_scope.
Open Scope list_scope.
Open Scope Z_scope.

(** What was done to the destination. *)
Inductive Action :=
| Executed (l : list Statement)
| ReadBack (l : list Statement)
| MongoApplied
| MongoVerified
| Dropped.

(** What the destination and the local store answer. *)
Record World := mk_world {
  salt : result string string;                        (* the derived salt *)
  reach : result unit string;
  connect : result unit DbError;
  execute : Statement -> result Z string;
  fetch_one : Statement -> result (list (result Z string)) string;
  mongo_apply : list MaskRule -> result Z OpError;
  mongo_verify : list MaskRule -> result (list string) OpError;
  drop_database : result unit OpError }.

(** [StoreError] as an [OpError], by its text. *)
Definition store_text (t : string) : OpError := OpStore (StoreText t).

Section Run.
Variable str_debug : string -> string.
Variable uuid_text : Uuid -> string.
Variable w : World.

(** The columns of one check, each with its count. *)
Fixpoint confirm_columns (table : string) (i : nat) (columns : list string) (row : list Z)
    : result (list string) OpError :=
  match columns with
  | [] => Ok []
  | column :: columns' =>
      let unmasked := default 0 (row !! i) in
      if 0 <? unmasked then Err (OpMask (NotMasked table column unmasked))
      else
        let? rest := confirm_columns table (S i) columns' row in
        Ok ((table ++ "." ++ column)%string :: rest)
  end.

(** [checks.iter().zip(&counts)]. *)
Fixpoint confirm (checks : list TableCheck) (counts : list (list Z)) : result (list string) OpError :=
  match checks, counts with
  | c :: checks', row :: counts' =>
      let? here := confirm_columns (tc_table c) 0 (tc_columns c) row in
      let? rest := confirm checks' counts' in
      Ok (here ++ rest)
  | _, _ => Ok []
  end.

Definition sum_u64 (l : list Z) : Z := fold_left (fun a n => wrap 64 (a + n)) l 0.

Definition run_mongo_masking (coverage : MaskingCoverage) : result MaskingReport OpError * list Action :=
  match map_err (reach w) OpConnect with
  | Err e => (Err e, [])
  | Ok _ =>
      match mongo_apply w (effective coverage) with
      | Err e => (Err e, [MongoApplied])
      | Ok rewritten =>
          match mongo_verify w (effective coverage) with
          | Err e => (Err e, [MongoApplied; MongoVerified])
          | Ok columns =>
              (Ok (mk_mreport (coverage_tables coverage) columns rewritten (inert coverage) true),
               [MongoApplied; MongoVerified])
          end
      end
  end.

Definition run_masking (engine : Engine) (coverage : MaskingCoverage)
    : result MaskingReport OpError * list Action :=
  match map_err (salt w) store_text with
  | Err e => (Err e, [])
  | Ok salt =>
      match engine with
      | Mongo => run_mongo_masking coverage
      | _ =>
          match (let? updates := map_err (update_statements engine (effective coverage) salt) OpMask in
                 let? checks := map_err (check_statements engine (effective coverage)) OpMask in
                 let? _ := map_err (reach w) OpConnect in
                 Ok (updates, checks)) with
          | Err e => (Err e, [])
          | Ok (updates, checks) =>
              let statements := map ts_statement updates in
              match execute_batch (connect w) (execute w) engine statements with
              | Err e => (Err (OpDb e), [Executed statements])
              | Ok affected =>
                  let queries := map tc_statement checks in
                  let trace := [Executed statements; ReadBack queries] in
                  match fetch_count_rows (connect w) (fetch_one w) engine queries with
                  | Err e => (Err (OpDb e), trace)
                  | Ok counts =>
                      match confirm checks counts with
                      | Err e => (Err e, trace)
                      | Ok columns =>
                          (Ok (mk_mreport (map ts_table updates) columns (sum_u64 affected)
                                 (inert coverage) true), trace)
                      end
                  end
              end
          end
      end
  end.

Definition mask_destination (engine : Engine) (database : string) (coverage : MaskingCoverage)
    : result MaskingReport OpError * list Action :=
  match run_masking engine coverage with
  | (Ok report, trace) => (Ok report, trace)
  | (Err masking_error, trace) =>
      match drop_database w with
      | Err drop_error =>
          (Err (UnmaskedDataLeftBehind database (op_error_text str_debug uuid_text masking_error)
             (op_error_text str_debug uuid_text drop_error)),
           trace)
      | Ok _ => (Err masking_error, trace ++ [Dropped])
      end
  end.
End Run.

(** ** Lemmas *)

Lemma confirm_columns_Ok table columns row : forall i out,
  confirm_columns table i columns row = Ok out ->
  out = map (fun c => (table ++ "." ++ c)%string) columns
  /\ forall j c, columns !! j = Some c -> default 0 (row !! (i + j)%nat) <= 0.
Proof.
  induction columns as [|c columns IH]; intros i out; cbn [confirm_columns].
  - intros [= <-]. by split.
  - destruct (0 <? _) eqn:E; [done|]. bools.
    destruct (confirm_columns table (S i) columns row) as [rest|] eqn:Er; [|done].
    intros [= <-]. destruct (IH _ _ Er) as [-> Hr]. split; [done|].
    intros [|j] c' Hj; simpl in Hj; [by rewrite Nat.add_0_r|]. rewrite <- Nat.add_succ_comm. eauto.
Qed.

(** With a row for every check, every check is confirmed. *)
Lemma confirm_Ok checks : forall counts out,
  confirm checks counts = Ok out -> length counts = length checks ->
  out = flat_map (fun c => map (fun col => (tc_table c ++ "." ++ col)%string) (tc_columns c)) checks
  /\ forall i c row, checks !! i = Some c -> counts !! i = Some row ->
       forall j col, tc_columns c !! j = Some col -> default 0 (row !! j) <= 0.
Proof.
  induction checks as [|c checks IH]; intros counts out Hc Hl; destruct counts as [|row counts];
    try done; cbn [confirm] in Hc; [by injection Hc as <-|].
  destruct (confirm_columns _ _ _ _) as [here|] eqn:Eh; [|done]. cbn [rbind] in Hc.
  destruct (confirm checks counts) as [rest|] eqn:Er; [|done]. injection Hc as <-.
  injection Hl as Hl. apply confirm_columns_Ok in Eh as [-> Hh]. destruct (IH _ _ Er Hl) as [-> Hr].
  split; [done|]. intros [|i] c' row' Hi Hrow j col Hj; simpl in *; simplify_eq; eauto.
Qed.

Lemma fetch_count_rows_Ok conn fetch e l out :
  fetch_count_rows conn fetch e l = Ok out -> fetch_all_counts fetch l = Ok out.
Proof. unfold fetch_count_rows. destruct e; [destruct conn; done..|done]. Qed.

Lemma execute_batch_Ok conn execute e l out :
  execute_batch conn execute e l = Ok out -> Forall (fun s => exists n, execute s = Ok n) l.
Proof. unfold execute_batch. destruct e; [destruct conn; [apply execute_all_Ok|done]..|done]. Qed.

(** ** Properties *)

(** What the read-back found of a rule: one of the checks counts, in its [j]-th
    column, the rows of the rule's column that its transform leaves; the
    destination answered that query with integers; and the count is not positive. *)
Definition proven_masked (w : World) (engine : Engine) (checks : list TableCheck) (r : MaskRule) : Prop :=
  exists d c j row, dialect_of engine = Ok d /\ In c checks /\ tc_table c = rule_table r
    /\ tc_columns c !! j = Some (rule_column r) /\ counts_violations d (tc_statement c) j r
    /\ fetch_one w (tc_statement c) = Ok (map Ok row)
    /\ forall n, row !! j = Some n -> n <= 0.

(** The columns a report may name: those of the checks. *)
Definition checked_columns (checks : list TableCheck) : list string :=
  flat_map (fun c => map (fun col => (tc_table c ++ "." ++ col)%string) (tc_columns c)) checks.

(** What a masking that succeeded did. *)
Definition masked (w : World) (engine : Engine) (coverage : MaskingCoverage) (report : MaskingReport)
    (trace : list Action) : Prop :=
  match engine with
  | Mongo =>
      trace = [MongoApplied; MongoVerified]
      /\ mongo_apply w (effective coverage) = Ok (rows_rewritten report)
      /\ mongo_verify w (effective coverage) = Ok (mr_columns report)
  | _ =>
      exists salt updates checks,
        update_statements engine (effective coverage) salt = Ok updates
        /\ check_statements engine (effective coverage) = Ok checks
        /\ trace = [Executed (map ts_statement updates); ReadBack (map tc_statement checks)]
        /\ Forall (fun s => exists n, execute w s = Ok n) (map ts_statement updates)
        /\ (forall r, In r (effective coverage) -> proven_masked w engine checks r)
        /\ mr_columns report = checked_columns checks
  end.

(** With every check confirmed, every rule is proven. *)
Lemma confirmed_is_proven w engine rules salt updates checks counts columns :
  update_statements engine rules salt = Ok updates -> check_statements engine rules = Ok checks ->
  fetch_all_counts (fetch_one w) (map tc_statement checks) = Ok counts ->
  confirm checks counts = Ok columns ->
  columns = checked_columns checks /\ forall r, In r rules -> proven_masked w engine checks r.
Proof.
  intros Hu Hc Hf Hconf.
  pose proof (fetch_all_counts_length _ _ _ Hf) as Hlen. rewrite length_map in Hlen.
  destruct (confirm_Ok _ _ _ Hconf Hlen) as [-> Hrows]. split; [done|]. intros r Hr.
  destruct (every_rule_is_applied_and_checked _ _ _ _ _ Hu Hc) as (_ & Htab & Hall).
  destruct (Hall r Hr) as (i & u & c & Hui & Hci & Htu & _ & j & d & Hj & _ & Hd & Hcv).
  destruct (lookup_lt_is_Some_2 counts i) as [row Hrow].
  { rewrite Hlen. by apply lookup_lt_Some in Hci. }
  exists d, c, j, row. split_and!; [done|..|done|done| |].
  - apply list_elem_of_In. by eapply list_elem_of_lookup_2.
  - apply (f_equal (fun l => l !! i)) in Htab. rewrite !list_lookup_fmap, Hui, Hci in Htab.
    simpl in Htab. congruence.
  - apply (fetch_all_counts_row _ _ _ i (tc_statement c) row Hf); [|done].
    by rewrite list_lookup_fmap, Hci.
  - intros n Hn. pose proof (Hrows i c row Hci Hrow j _ Hj) as H. by rewrite Hn in H.
Qed.

Lemma run_masking_Ok w engine coverage report trace :
  run_masking w engine coverage = (Ok report, trace) -> masked w engine coverage report trace.
Proof.
  unfold run_masking. destruct (map_err (salt w) store_text) as [s|]; [|done].
  destruct (decide (engine = Mongo)) as [->|Hne].
  { unfold run_mongo_masking. destruct (map_err (reach w) OpConnect); [|done].
    destruct (mongo_apply w _) eqn:Ea; [|done]. destruct (mongo_verify w _) eqn:Ev; [|done].
    by intros [= <- <-]. }
  assert (forall A (x y : A), match engine with Mongo => x | _ => y end = y) as Hm
    by (by destruct engine).
  assert (forall (x y : result MaskingReport OpError * list Action),
    match engine with Mysql => y | Postgres => y | Mongo => x end = y) as Hm' by (by destruct engine).
  rewrite Hm'. clear Hm Hm'.
  destruct (update_statements engine (effective coverage) s) as [updates|] eqn:Eu; [|done].
  destruct (check_statements engine (effective coverage)) as [checks|] eqn:Ec; [|done].
  cbn [map_err rbind]. destruct (map_err (reach w) OpConnect); [|done]. cbn [rbind].
  destruct (execute_batch _ _ _ _) as [affected|] eqn:Ex; [|done].
  destruct (fetch_count_rows _ _ _ _) as [counts|] eqn:Ef; [|done].
  destruct (confirm checks counts) as [columns|] eqn:Econf; [|done].
  intros [= <- <-]. apply fetch_count_rows_Ok in Ef. apply execute_batch_Ok in Ex.
  destruct (confirmed_is_proven _ _ _ _ _ _ _ _ Eu Ec Ef Econf) as [-> Hp].
  assert (exists salt us cs, update_statements engine (effective coverage) salt = Ok us
    /\ check_statements engine (effective coverage) = Ok cs
    /\ [Executed (map ts_statement updates); ReadBack (map tc_statement checks)]
       = [Executed (map ts_statement us); ReadBack (map tc_statement cs)]
    /\ Forall (fun s => exists n, execute w s = Ok n) (map ts_statement us)
    /\ (forall r, In r (effective coverage) -> proven_masked w engine cs r)
    /\ checked_columns checks = checked_columns cs) as H.
  { by exists s, updates, checks. }
  unfold masked. by destruct engine.
Qed.

(** C1: either the destination holds masked data or it holds nothing.  An error
    means that the database was dropped as the last thing done to it, or is the
    one error that says it may still stand.  Success means that the database was
    kept and, on a relational engine, that every update was accepted, that the
    read-back ran after all of them, and that for every rule of the coverage the
    destination counted no row its transform leaves in its column; on a document
    store, that the rules were applied and that the verification of all of them,
    which ran afterwards, ended well and is what the report lists. *)
Theorem masked_or_gone str_debug uuid_text w engine database coverage r trace :
  mask_destination str_debug uuid_text w engine database coverage = (r, trace) ->
  match r with
  | Err e =>
      (exists before, trace = before ++ [Dropped] /\ drop_database w = Ok tt)
      \/ (exists m d, e = UnmaskedDataLeftBehind database m d /\ is_ok (drop_database w) = false)
  | Ok report => ~ In Dropped trace /\ masked w engine coverage report trace
  end.
Proof.
  unfold mask_destination. destruct (run_masking w engine coverage) as [res tr] eqn:Erun.
  destruct res as [report|e].
  - intros [= <- <-]. apply run_masking_Ok in Erun. split; [|done].
    unfold masked in Erun. destruct engine; naive_solver.
  - destruct (drop_database w) as [[]|d] eqn:Ed; intros [= <- <-]; [left|right]; eauto.
Qed.

(** ** Witnesses *)

Definition sample_coverage : MaskingCoverage := mk_coverage sample_rules [].

(** A destination whose [users] table keeps two rows unmasked. *)
Definition leaky_world (drop : result unit OpError) : World :=
  mk_world (Ok "salt") (Ok tt) (Ok tt) (fun _ => Ok 3)
    (fun s => Ok (if Nat.eqb (length (binds s)) 1 then [Ok 0] else [Ok 0; Ok 2]))
    (fun _ => Ok 0) (fun _ => Ok []) drop.

Lemma leaky_run :
  mask_destination id (fun _ => "") (leaky_world (Ok tt)) Mysql "dev" sample_coverage =
  (Err (OpMask (NotMasked "users" "phone" 2)),
   [Executed (map ts_statement sample_updates); ReadBack (map tc_statement sample_checks); Dropped]).
Proof. vm_compute. reflexivity. Qed.

Lemma masked_or_gone_witness :
  (exists before,
     [Executed (map ts_statement sample_updates); ReadBack (map tc_statement sample_checks); Dropped] =
     before ++ [Dropped] /\ drop_database (leaky_world (Ok tt)) = Ok tt)
  \/ (exists m d, OpMask (NotMasked "users" "phone" 2) = UnmaskedDataLeftBehind "dev" m d
        /\ is_ok (drop_database (leaky_world (Ok tt))) = false).
Proof. exact (masked_or_gone _ _ _ _ _ _ _ _ leaky_run). Defined.
