(* ===== verification/Definer.v ===== *)
(** * Definer: removing [DEFINER=] clauses from a dump (engine/src/definer.rs)

    A line is a list of bytes.  The index of the Rust loops becomes the list of
    bytes still ahead of it, so an index past the end is the empty list.  The
    main loop is written with fuel, since a clause is skipped by a helper; the
    length of the line is always enough ([strip_loop_fuel]).

    [reads] is the specification: it says what the string literals, the clauses and
    the plain characters of a line are, and [strip_definers] keeps everything but the
    clauses.  [lex] computes that reading. *)

From Stdlib Require Import ZArith Lia Ascii String List Bool.
From stdpp Require Import base list.
From S2P Require Import Prelude Text.
Import ListNotations.

Open Scope string_scope.
Open Scope list_scope.
Open Scope Z_scope.

Abbreviation bytes := (list ascii).
Abbreviation byte_string := list_ascii_of_string.

Definition squote : ascii := "039".
Definition dquote : ascii := "034".
Definition btick : ascii := "096".
Definition bslash : ascii := "092".

Definition needle : bytes := byte_string "DEFINER=".

(** [out.push(b as char)]: the byte is read as a Latin-1 character and written
    back in UTF-8, so a byte from 0x80 up becomes two bytes. *)
Definition push_char (b : ascii) : bytes :=
  if is_ascii b then [b] else [chr (192 + code b / 64); chr (128 + code b mod 64)].

Fixpoint eq_ignore_ascii_case (a b : bytes) : bool :=
  match a, b with
  | [], [] => true
  | x :: a', y :: b' => Ascii.eqb (lower x) (lower y) && eq_ignore_ascii_case a' b'
  | _, _ => false
  end.

Definition matches_ignore_ascii_case (haystack needle : bytes) : bool :=
  Nat.leb (length needle) (length haystack)
  && eq_ignore_ascii_case (take (length needle) haystack) needle.

(** [windows(n).any(...)]: the tails that are long enough. *)
Fixpoint any_window (haystack needle : bytes) : bool :=
  matches_ignore_ascii_case haystack needle
  || match haystack with [] => false | _ :: h' => any_window h' needle end.

Definition contains_ignore_ascii_case (haystack needle : bytes) : bool :=
  if Nat.ltb (length haystack) (length needle) then false else any_window haystack needle.

(** The loop of [skip_definer_part] inside a quoted identifier. *)
Fixpoint skip_quoted (q : ascii) (l : bytes) : bytes :=
  match l with
  | [] => []
  | c :: r =>
      if Ascii.eqb c bslash && negb (Ascii.eqb q btick) then
        match r with [] => [] | _ :: r' => skip_quoted q r' end
      else if Ascii.eqb c q then
        match r with
        | c' :: r' => if Ascii.eqb c' q then skip_quoted q r' else r
        | [] => r
        end
      else skip_quoted q r
  end.

Fixpoint skip_bare (l : bytes) : bytes :=
  match l with
  | [] => []
  | c :: r => if is_alnum c || Ascii.eqb c "_" || Ascii.eqb c "$" then skip_bare r else l
  end.

Definition is_quote (c : ascii) : bool :=
  Ascii.eqb c btick || Ascii.eqb c squote || Ascii.eqb c dquote.

Definition skip_definer_part (l : bytes) : bytes :=
  match l with
  | [] => []
  | c :: r => if is_quote c then skip_quoted c r else skip_bare l
  end.

Definition skip_definer_clause (l : bytes) : bytes :=
  match skip_definer_part l with
  | c :: r => if Ascii.eqb c "@" then skip_definer_part r else c :: r
  | [] => []
  end.

(** Drop one space after a clause. *)
Definition skip_space (l : bytes) : bytes :=
  match l with c :: r => if Ascii.eqb c " " then r else l | [] => [] end.

Definition after_clause (l : bytes) : bytes :=
  skip_space (skip_definer_clause (drop (length needle) l)).

(** The [while i < bytes.len()] loop; [rest] is [bytes[i..]]. *)
Fixpoint strip_loop (fuel : nat) (quote : option ascii) (rest out : bytes) (changed : bool)
  : bytes * bool :=
  match fuel, rest with
  | O, _ | _, [] => (out, changed)
  | S fuel', c :: r =>
      match quote with
      | Some q =>
          let out := out ++ push_char c in
          if Ascii.eqb c bslash && negb (Ascii.eqb q btick) then
            match r with
            | c' :: r' => strip_loop fuel' (Some q) r' (out ++ push_char c') changed
            | [] => strip_loop fuel' (Some q) r out changed
            end
          else if Ascii.eqb c q then
            match r with
            | c' :: r' =>
                if Ascii.eqb c' q then strip_loop fuel' (Some q) r' (out ++ push_char q) changed
                else strip_loop fuel' None r out changed
            | [] => strip_loop fuel' None r out changed
            end
          else strip_loop fuel' (Some q) r out changed
      | None =>
          if is_quote c then strip_loop fuel' (Some c) r (out ++ push_char c) changed
          else if matches_ignore_ascii_case rest needle then
            strip_loop fuel' None (after_clause rest) out true
          else strip_loop fuel' None r (out ++ push_char c) changed
      end
  end.

Inductive Cow :=
| Borrowed (s : bytes)
| Owned (s : bytes).

Definition cow_bytes (c : Cow) : bytes := match c with Borrowed s | Owned s => s end.

Definition strip_definers (line : bytes) : Cow :=
  if negb (contains_ignore_ascii_case line needle) then Borrowed line
  else
    let '(out, changed) := strip_loop (length line) None line [] false in
    if changed then Owned out else Borrowed line.

(** [strip_definers_stream]: the reader yields lines or an error, the writer is
    any state with a fallible [write_all]. *)
Section Stream.
Context {W E : Type} (write_all : W -> bytes -> result W E).

Definition writeln (w : W) (s : bytes) : result W E :=
  let? w := write_all w s in write_all w [newline].

Fixpoint strip_definers_stream (reader : list (result bytes E)) (writer : W) (modified : Z)
  : result (Z * W) E :=
  match reader with
  | [] => Ok (modified, writer)
  | line :: reader' =>
      let? line := line in
      match strip_definers line with
      | Borrowed s => let? w := writeln writer s in strip_definers_stream reader' w modified
      | Owned s =>
          let modified := wrap 64 (modified + 1) in
          let? w := writeln writer s in strip_definers_stream reader' w modified
      end
  end.
End Stream.

(** ** The specification: tokens of a line *)

Inductive token :=
| Literal (text : bytes)   (* a quoted string, with its quotes; the last may be unterminated *)
| Clause (text : bytes)    (* a DEFINER= clause and the space after it *)
| Plain (c : ascii).

Definition token_text (t : token) : bytes :=
  match t with Literal s | Clause s => s | Plain c => [c] end.

Definition kept (t : token) : bytes := match t with Clause _ => [] | _ => token_text t end.

(** The part of [l] ahead of its suffix [r]. *)
Definition before (l r : bytes) : bytes := take (length l - length r) l.

Fixpoint lex (fuel : nat) (l : bytes) : list token :=
  match fuel, l with
  | O, _ | _, [] => []
  | S fuel', c :: r =>
      if is_quote c then
        let r' := skip_quoted c r in Literal (before l r') :: lex fuel' r'
      else if matches_ignore_ascii_case l needle then
        let r' := after_clause l in Clause (before l r') :: lex fuel' r'
      else Plain c :: lex fuel' r
  end.

Definition tokens (l : bytes) : list token := lex (length l) l.

(** ** Reading a line

    What the tokens of a line are, said without the functions of the filter: where a
    quoted text ends, what a user and a host are, where a clause ends. *)

(** What stands between two quotes: any character but the quote, a backslash with what
    it escapes (in backticks a backslash is a character), the quote doubled. *)
Inductive inside (q : ascii) : bytes -> Prop :=
| in_nothing : inside q []
| in_character c s : c <> q -> (c = bslash -> q = btick) -> inside q s -> inside q (c :: s)
| in_escape c s : q <> btick -> inside q s -> inside q (bslash :: c :: s)
| in_doubled s : inside q s -> inside q (q :: q :: s).

(** What follows an opening quote up to its end, and what is left of the line then: the
    closing quote is not doubled, or the line ends in the text. *)
Inductive quoted (q : ascii) : bytes -> bytes -> Prop :=
| quote_closed s rest : inside q s -> head rest <> Some q -> quoted q (s ++ [q]) rest
| quote_open s : inside q s -> quoted q s []
| quote_open_escape s : q <> btick -> inside q s -> quoted q (s ++ [bslash]) [].

Definition ident (c : ascii) : bool := is_alnum c || Ascii.eqb c "_" || Ascii.eqb c "$".

(** A user or a host: quoted, or all the identifier characters there are. *)
Inductive account_part : bytes -> bytes -> Prop :=
| part_quoted q s rest : is_quote q = true -> quoted q s rest -> account_part (q :: s) rest
| part_bare s rest : Forall (fun c => ident c = true) s ->
    (forall c, head (s ++ rest) = Some c -> is_quote c = false) ->
    (forall c, head rest = Some c -> ident c = false) -> account_part s rest.

(** A user, and the host that an at sign announces. *)
Inductive definer_account : bytes -> bytes -> Prop :=
| account_user u rest : account_part u rest -> head rest <> Some "@"%char -> definer_account u rest
| account_host u h rest : account_part u ("@"%char :: h ++ rest) -> account_part h rest ->
    definer_account (u ++ "@"%char :: h) rest.

(** The blank of a clause: the one space after it. *)
Inductive clause_blank : bytes -> bytes -> Prop :=
| blank_space rest : clause_blank [" "%char] rest
| blank_none rest : head rest <> Some " "%char -> clause_blank [] rest.

(** [DEFINER=], in either case. *)
Definition keyword (k : bytes) : Prop := map lower k = byte_string "definer=".

(** [reads l ts]: the line [l] is made of the tokens [ts]. *)
Inductive reads : bytes -> list token -> Prop :=
| reads_end : reads [] []
| reads_literal q s rest ts :
    is_quote q = true -> quoted q s rest -> reads rest ts -> reads (q :: s ++ rest) (Literal (q :: s) :: ts)
| reads_clause k a b rest ts :
    keyword k -> definer_account a (b ++ rest) -> clause_blank b rest -> reads rest ts ->
    reads (k ++ a ++ b ++ rest) (Clause (k ++ a ++ b) :: ts)
| reads_plain c l ts :
    is_quote c = false -> (forall k rest, keyword k -> c :: l <> k ++ rest) -> reads l ts ->
    reads (c :: l) (Plain c :: ts).

(** ** Suffixes *)

Definition suffix_of (r l : bytes) : Prop := exists p, l = p ++ r.

Lemma suffix_refl l : suffix_of l l.
Proof. by exists []. Qed.

Lemma suffix_cons c r l : suffix_of r l -> suffix_of r (c :: l).
Proof. intros [p ->]. by exists (c :: p). Qed.

Lemma suffix_nil l : suffix_of [] l.
Proof. exists l. by rewrite app_nil_r. Qed.

Lemma suffix_trans a b c : suffix_of a b -> suffix_of b c -> suffix_of a c.
Proof. intros [p ->] [q ->]. exists (q ++ p). by rewrite app_assoc. Qed.

Lemma suffix_drop n l : suffix_of (drop n l) l.
Proof. exists (take n l). by rewrite take_drop. Qed.

#[export] Hint Resolve suffix_refl suffix_cons suffix_nil suffix_drop : dbsync.

Lemma suffix_length r l : suffix_of r l -> (length r <= length l)%nat.
Proof. intros [p ->]. rewrite length_app. lia. Qed.

Lemma before_app r l : suffix_of r l -> before l r ++ r = l.
Proof.
  intros [p ->]. unfold before. rewrite length_app, Nat.add_sub, take_app_length. done.
Qed.

Lemma skip_quoted_suffix q l : suffix_of (skip_quoted q l) l.
Proof.
  assert (forall n l, (length l <= n)%nat -> suffix_of (skip_quoted q l) l) as H; [|by eapply H].
  induction n as [|n IH]; intros [|c r]; simpl; intros Hn; auto with dbsync; [lia|].
  repeat case_match; simplify_eq/=; auto with dbsync;
    repeat apply suffix_cons; first [apply IH; simpl in *; lia | auto with dbsync].
Qed.

Lemma skip_bare_suffix l : suffix_of (skip_bare l) l.
Proof. induction l as [|c r IH]; simpl; repeat case_match; auto with dbsync. Qed.

#[export] Hint Resolve skip_quoted_suffix skip_bare_suffix : dbsync.

Lemma skip_definer_part_suffix l : suffix_of (skip_definer_part l) l.
Proof. destruct l; simpl; repeat case_match; auto with dbsync. Qed.

Lemma skip_definer_clause_suffix l : suffix_of (skip_definer_clause l) l.
Proof.
  pose proof (skip_definer_part_suffix l) as H. unfold skip_definer_clause.
  destruct (skip_definer_part l) as [|c r]; [done|]. case_match; [|done].
  eapply suffix_trans; [apply skip_definer_part_suffix|].
  eapply suffix_trans; [|exact H]. auto with dbsync.
Qed.

Lemma skip_space_suffix l : suffix_of (skip_space l) l.
Proof. destruct l; simpl; repeat case_match; auto with dbsync. Qed.

Lemma after_clause_suffix l : suffix_of (after_clause l) (drop (length needle) l).
Proof. eapply suffix_trans; [apply skip_space_suffix|apply skip_definer_clause_suffix]. Qed.

Lemma matches_length l : matches_ignore_ascii_case l needle = true -> (length needle <= length l)%nat.
Proof. intros [H _]%andb_true_iff. by apply Nat.leb_le. Qed.

Lemma after_clause_shorter c r :
  matches_ignore_ascii_case (c :: r) needle = true ->
  suffix_of (after_clause (c :: r)) (c :: r) /\ (length (after_clause (c :: r)) <= length r)%nat.
Proof.
  intros Hm. split; [eapply suffix_trans; [apply after_clause_suffix|apply suffix_drop]|].
  pose proof (suffix_length _ _ (after_clause_suffix (c :: r))) as H.
  rewrite length_drop in H. cbn [length] in *. change (length needle) with 8%nat in H. lia.
Qed.

Lemma skip_quoted_length c r : (length (skip_quoted c r) <= length r)%nat.
Proof. apply suffix_length, skip_quoted_suffix. Qed.

Lemma before_cons c r s : suffix_of s r -> before (c :: r) s = c :: before r s.
Proof.
  intros Hs. pose proof (suffix_length _ _ Hs) as Hl. unfold before. cbn [length].
  replace (S (length r) - length s)%nat with (S (length r - length s)) by lia. done.
Qed.

Lemma before_self l : before l l = [].
Proof. unfold before. by rewrite Nat.sub_diag. Qed.

Lemma before_nil l : before l [] = l.
Proof. unfold before. cbn [length]. rewrite Nat.sub_0_r. apply take_ge. lia. Qed.

(** ** The loop computes the specification *)

Definition encode (l : bytes) : bytes := flat_map push_char l.
Definition is_clause (t : token) : bool := match t with Clause _ => true | _ => false end.
Definition kept_text (ts : list token) : bytes := flat_map kept ts.

Lemma encode_app a b : encode (a ++ b) = encode a ++ encode b.
Proof. apply flat_map_app. Qed.

(** What the loop computes, in and out of a quoted string. *)
Definition loop_spec (fuel : nat) (quote : option ascii) (l out : bytes) (changed : bool)
  : bytes * bool :=
  let r := match quote with Some q => skip_quoted q l | None => l end in
  (out ++ encode (before l r ++ kept_text (lex fuel r)),
   changed || existsb is_clause (lex fuel r)).

Lemma loop_spec_out fuel quote l out out' ch :
  out ++ fst (loop_spec fuel quote l out' ch) = fst (loop_spec fuel quote l (out ++ out') ch).
Proof. simpl. by rewrite app_assoc. Qed.

Lemma loop_spec_quoted_skip fuel q c r s out ch :
  skip_quoted q (c :: r) = skip_quoted q s -> suffix_of s r ->
  loop_spec fuel (Some q) (c :: r) out ch =
  loop_spec fuel (Some q) s (out ++ encode (c :: before r s)) ch.
Proof.
  intros Hq Hs. unfold loop_spec. rewrite Hq. f_equal.
  rewrite <- app_assoc, <- encode_app. do 2 f_equal.
  pose proof (skip_quoted_suffix q s) as Hqs.
  rewrite before_cons by (eapply suffix_trans; eassumption). simpl. f_equal.
  rewrite app_assoc. f_equal.
  apply (app_inv_tail (skip_quoted q s)). rewrite <- app_assoc.
  rewrite !before_app by eauto using suffix_trans. done.
Qed.

Lemma loop_spec_quoted_end fuel q c r out ch :
  skip_quoted q (c :: r) = r ->
  loop_spec fuel (Some q) (c :: r) out ch = loop_spec fuel None r (out ++ push_char c) ch.
Proof.
  intros Hq. unfold loop_spec. rewrite Hq, before_cons, !before_self by auto with dbsync.
  rewrite <- app_assoc. f_equal.
Qed.

Lemma loop_spec_nil fuel quote out ch : loop_spec fuel quote [] out ch = (out, ch).
Proof.
  unfold loop_spec. destruct quote, fuel; simpl; by rewrite app_nil_r, orb_false_r.
Qed.

Lemma strip_loop_spec n : forall l quote fuel fuel2 out ch,
  (length l <= n)%nat -> (length l <= fuel)%nat -> (length l <= fuel2)%nat ->
  strip_loop fuel quote l out ch = loop_spec fuel2 quote l out ch.
Proof.
  induction n as [|n IH]; intros l quote fuel fuel2 out ch Hn Hf Hf2.
  { destruct l; simpl in Hn; [|lia]. by rewrite loop_spec_nil; destruct fuel. }
  destruct l as [|c r]; [by rewrite loop_spec_nil; destruct fuel|].
  destruct fuel as [|fuel]; [simpl in Hf; lia|]. cbn [length] in *.
  destruct quote as [q|]; cbn [strip_loop].
  - destruct (Ascii.eqb c bslash && negb (Ascii.eqb q btick)) eqn:Hb.
    + destruct r as [|c' r']; cbn [length] in *; rewrite (IH _ _ fuel fuel2) by (simpl; lia); symmetry.
      * rewrite (loop_spec_quoted_skip fuel2 q c [] []); [| |by exists []].
        { rewrite before_self. simpl. by rewrite app_nil_r. }
        simpl. by rewrite Hb.
      * rewrite (loop_spec_quoted_skip fuel2 q c (c' :: r') r'); [|simpl; by rewrite Hb|auto with dbsync].
        rewrite before_cons, before_self by auto with dbsync. simpl.
        by rewrite app_nil_r, app_assoc.
    + destruct (Ascii.eqb c q) eqn:Hq; [destruct r as [|c' r']; [|destruct (Ascii.eqb c' q) eqn:Hq']|];
        cbn [length] in *; rewrite (IH _ _ fuel fuel2) by (simpl; lia); symmetry.
      * apply loop_spec_quoted_end. simpl. by rewrite Hb, Hq.
      * rewrite (loop_spec_quoted_skip fuel2 q c (c' :: r') r');
          [|simpl; by rewrite Hb, Hq, Hq'|auto with dbsync].
        rewrite before_cons, before_self by auto with dbsync. simpl.
        apply Ascii.eqb_eq in Hq' as ->. by rewrite app_nil_r, app_assoc.
      * apply loop_spec_quoted_end. simpl. by rewrite Hb, Hq, Hq'.
      * rewrite (loop_spec_quoted_skip fuel2 q c r r); [|simpl; by rewrite Hb, Hq|auto with dbsync].
        rewrite before_self. simpl. by rewrite app_nil_r.
  - destruct fuel2 as [|fuel2]; [lia|]. unfold loop_spec. rewrite before_self. cbn [lex].
    destruct (is_quote c) eqn:Hc; [|destruct (matches_ignore_ascii_case (c :: r) needle) eqn:Hm].
    + pose proof (skip_quoted_length c r) as Hl.
      rewrite (IH r (Some c) fuel fuel2) by lia. unfold loop_spec. simpl. f_equal.
      rewrite before_cons by auto with dbsync. rewrite <- app_assoc. done.
    + destruct (after_clause_shorter c r Hm) as [Hs Hl].
      rewrite (IH _ None fuel fuel2) by lia. unfold loop_spec. rewrite before_self. simpl.
      by rewrite orb_true_r.
    + rewrite (IH _ None fuel fuel2) by lia. unfold loop_spec. rewrite before_self. simpl.
      by rewrite <- app_assoc.
Qed.

(** The fuel given by [strip_definers] is enough: more changes nothing. *)
Lemma strip_loop_fuel fuel l out ch :
  (length l <= fuel)%nat ->
  strip_loop fuel None l out ch = strip_loop (length l) None l out ch.
Proof. intros Hf. by rewrite !(strip_loop_spec (length l) l None _ (length l)). Qed.

(** ** Lexing *)

Lemma lex_text n : forall l fuel,
  (length l <= n)%nat -> (length l <= fuel)%nat -> flat_map token_text (lex fuel l) = l.
Proof.
  induction n as [|n IH]; intros [|c r] fuel Hn Hf; simpl in Hn; try lia;
    try (by destruct fuel).
  destruct fuel as [|fuel]; [simpl in Hf; lia|]. cbn [lex length] in *.
  destruct (is_quote c); [|destruct (matches_ignore_ascii_case _ _) eqn:Hm]; simpl.
  - pose proof (skip_quoted_length c r). rewrite IH by lia. apply before_app.
    auto with dbsync.
  - destruct (after_clause_shorter c r Hm) as [Hs Hl]. rewrite IH by lia. by apply before_app.
  - rewrite IH by lia. done.
Qed.

Lemma any_window_tail c r : any_window (c :: r) needle = false -> any_window r needle = false.
Proof. cbn [any_window]. by intros [_ H]%orb_false_iff. Qed.

Lemma any_window_suffix r l : suffix_of r l -> any_window l needle = false -> any_window r needle = false.
Proof.
  intros [p ->]. induction p as [|c p IH]; [done|]. intros H%any_window_tail. by apply IH.
Qed.

Lemma any_window_matches l : any_window l needle = false -> matches_ignore_ascii_case l needle = false.
Proof. destruct l; cbn [any_window]; by intros [H _]%orb_false_iff. Qed.

Lemma any_window_short l : (length l < length needle)%nat -> any_window l needle = false.
Proof.
  induction l as [|c r IH]; intros Hl; cbn [any_window]; [done|].
  apply orb_false_iff. split; [|apply IH; simpl in *; lia].
  unfold matches_ignore_ascii_case. apply andb_false_iff. left. apply Nat.leb_gt. done.
Qed.

Lemma contains_false l : contains_ignore_ascii_case l needle = false -> any_window l needle = false.
Proof.
  unfold contains_ignore_ascii_case. case_match eqn:E; [|done]. intros _.
  apply any_window_short. by apply Nat.ltb_lt.
Qed.

(** No clause without the text [DEFINER=]: the cheap rejection is sound. *)
Lemma lex_no_clause fuel l :
  any_window l needle = false -> existsb is_clause (lex fuel l) = false.
Proof.
  revert l. induction fuel as [|fuel IH]; intros [|c r] H; cbn [lex]; try done.
  destruct (is_quote c); [|rewrite (any_window_matches _ H)]; simpl; apply IH;
    apply any_window_tail in H; [|done]. eapply any_window_suffix; [|exact H]. auto with dbsync.
Qed.

Lemma kept_text_all ts : existsb is_clause ts = false -> kept_text ts = flat_map token_text ts.
Proof.
  induction ts as [|[] ts IH]; simpl; intros H; try done; by rewrite IH.
Qed.

Lemma encode_ascii l : forallb is_ascii l = true -> encode l = l.
Proof.
  induction l as [|c l IH]; simpl; [done|]. intros [Hc Hl]%andb_true_iff.
  unfold push_char at 1. rewrite Hc. simpl. by rewrite IH.
Qed.

(** What [strip_definers] returns, in terms of the tokens of the line. *)
Lemma strip_definers_tokens l :
  strip_definers l =
  if existsb is_clause (tokens l) then Owned (encode (kept_text (tokens l))) else Borrowed l.
Proof.
  unfold strip_definers, tokens. destruct (contains_ignore_ascii_case l needle) eqn:Hc; simpl.
  - rewrite (strip_loop_spec (length l) l None _ (length l)) by lia.
    unfold loop_spec. by rewrite before_self.
  - rewrite lex_no_clause by (by apply contains_false). done.
Qed.

Lemma kept_text_ascii ts :
  forallb is_ascii (flat_map token_text ts) = true -> forallb is_ascii (kept_text ts) = true.
Proof.
  induction ts as [|t ts IH]; simpl; [done|]. rewrite !forallb_app, !andb_true_iff.
  intros [Ht Hts]. split; [|by apply IH]. by destruct t.
Qed.

(** ** The filter's functions and the reading *)

Lemma bslash_neq_quote q : is_quote q = true -> bslash <> q.
Proof. unfold is_quote. by intros H <-. Qed.

Lemma skip_inside q s l : is_quote q = true -> inside q s -> skip_quoted q (s ++ l) = skip_quoted q l.
Proof.
  intros Q%bslash_neq_quote. induction 1 as [|c s N B _ IH|c s N _ IH|s _ IH]; [done|..]; cbn [app skip_quoted].
  - assert (Ascii.eqb c bslash && negb (Ascii.eqb q btick) = false) as ->.
    { destruct (Ascii.eqb_spec c bslash) as [E|E]; [|done]. by rewrite (B E). }
    apply Ascii.eqb_neq in N. by rewrite N.
  - rewrite Ascii.eqb_refl. apply Ascii.eqb_neq in N. by rewrite N.
  - apply Ascii.eqb_neq in Q. by rewrite (Ascii.eqb_sym q bslash), Q, Ascii.eqb_refl.
Qed.

Lemma skip_quoted_end q s rest : is_quote q = true -> quoted q s rest -> skip_quoted q (s ++ rest) = rest.
Proof.
  intros Q. pose proof (bslash_neq_quote q Q) as B. destruct 1 as [s rest I N|s I|s N I].
  - rewrite <- app_assoc, skip_inside by done. cbn [app skip_quoted]. apply Ascii.eqb_neq in B.
    rewrite (Ascii.eqb_sym q bslash), B, Ascii.eqb_refl. cbn [andb]. destruct rest as [|c r]; [done|].
    destruct (Ascii.eqb_spec c q) as [->|]; [by destruct N|done].
  - by rewrite skip_inside.
  - rewrite <- app_assoc, skip_inside by done. cbn [app skip_quoted]. rewrite Ascii.eqb_refl.
    apply Ascii.eqb_neq in N. by rewrite N.
Qed.

(** A text that goes on as [l] does. *)
Lemma quoted_after q p s rest : quoted q s rest -> (forall i, inside q i -> inside q (p ++ i)) -> quoted q (p ++ s) rest.
Proof.
  intros S P. destruct S as [s rest I N|s I|s N I]; rewrite ?app_assoc;
    [apply quote_closed|apply quote_open|apply quote_open_escape]; auto.
Qed.

Lemma quoted_exists q : is_quote q = true ->
  forall n l, (length l <= n)%nat -> exists s rest, l = s ++ rest /\ quoted q s rest.
Proof.
  intros Q. induction n as [|n IH]; intros [|c r] Hn; cbn [length] in Hn; try lia; try (exists [], []; split; [done|apply quote_open, in_nothing]).
  destruct (decide (c = bslash /\ q <> btick)) as [[-> N]|N]; [|destruct (decide (c = q)) as [->|N']].
  - destruct r as [|c r]; [exists [bslash], []; split; [done|apply (quote_open_escape q []), in_nothing; done]|].
    cbn [length] in Hn. destruct (IH r ltac:(lia)) as (s & rest & -> & S). exists (bslash :: c :: s), rest. split; [done|].
    apply (quoted_after q [bslash; c] s rest S). intros i. by apply in_escape.
  - destruct (decide (head r = Some q)) as [E|E].
    + destruct r as [|c r]; [done|]. injection E as ->. cbn [length] in Hn. destruct (IH r ltac:(lia)) as (s & rest & -> & S).
      exists (q :: q :: s), rest. split; [done|]. apply (quoted_after q [q; q] s rest S). apply in_doubled.
    + exists [q], r. split; [done|]. apply (quote_closed q []); [apply in_nothing|done].
  - destruct (IH r ltac:(lia)) as (s & rest & -> & S). exists (c :: s), rest. split; [done|].
    apply (quoted_after q [c] s rest S). intros i. apply in_character; [done|]. intros ->.
    destruct (decide (q = btick)); [done|]. by destruct N.
Qed.

Lemma skip_bare_end s rest : Forall (fun c => ident c = true) s -> (forall c, head rest = Some c -> ident c = false) ->
  skip_bare (s ++ rest) = rest.
Proof.
  intros F N. induction F as [|c s Hc _ IH]; cbn [app skip_bare].
  - destruct rest as [|c r]; [done|]. cbn [skip_bare]. change (is_alnum c || _ || _) with (ident c). by rewrite (N c).
  - change (is_alnum c || _ || _) with (ident c). by rewrite Hc.
Qed.

Lemma bare_exists l : exists s rest, l = s ++ rest /\ Forall (fun c => ident c = true) s
  /\ forall c, head rest = Some c -> ident c = false.
Proof.
  induction l as [|c r (s & rest & -> & F & N)]; [by exists [], []|]. destruct (ident c) eqn:E.
  - exists (c :: s), rest. split_and!; [done|by constructor|done].
  - exists [], (c :: s ++ rest). split_and!; [done..|]. by intros ? [= <-].
Qed.

Lemma skip_part_end s rest : account_part s rest -> skip_definer_part (s ++ rest) = rest.
Proof.
  destruct 1 as [q s rest Q S|s rest F Q N].
  - cbn [app skip_definer_part]. rewrite Q. by apply skip_quoted_end.
  - unfold skip_definer_part. rewrite (skip_bare_end s rest F N).
    destruct (s ++ rest) as [|c r] eqn:E; [by apply app_eq_nil in E as [_ ->]|]. by rewrite (Q c).
Qed.

Lemma part_exists l : exists s rest, l = s ++ rest /\ account_part s rest.
Proof.
  destruct l as [|c r]; [exists [], []; split; [done|]; by apply part_bare|]. destruct (is_quote c) eqn:Q.
  - destruct (quoted_exists c Q (length r) r ltac:(lia)) as (s & rest & -> & S).
    exists (c :: s), rest. split; [done|by apply part_quoted].
  - destruct (bare_exists (c :: r)) as (s & rest & E & F & N). exists s, rest. split; [done|].
    apply part_bare; [done| |done]. rewrite <- E. by intros ? [= <-].
Qed.

Lemma skip_clause_end a rest : definer_account a rest -> skip_definer_clause (a ++ rest) = rest.
Proof.
  unfold skip_definer_clause. destruct 1 as [u rest U N|u h rest U Hh].
  - rewrite (skip_part_end u rest U). destruct rest as [|c r]; [done|].
    destruct (Ascii.eqb_spec c "@") as [->|]; [by destruct N|done].
  - rewrite <- app_assoc. cbn [app]. rewrite (skip_part_end u _ U), Ascii.eqb_refl. by apply skip_part_end.
Qed.

Lemma account_exists l : exists a rest, l = a ++ rest /\ definer_account a rest.
Proof.
  destruct (part_exists l) as (u & rest & -> & U). destruct (decide (head rest = Some "@"%char)) as [E|E].
  - destruct rest as [|c r]; [done|]. injection E as ->. destruct (part_exists r) as (h & rest & -> & Hh).
    exists (u ++ "@"%char :: h), rest. split; [by rewrite <- app_assoc|by apply account_host].
  - exists u, rest. split; [done|by apply account_user].
Qed.

Lemma skip_space_end b rest : clause_blank b rest -> skip_space (b ++ rest) = rest.
Proof.
  destruct 1 as [rest|rest N]; cbn [app skip_space]; [done|]. destruct rest as [|c r]; [done|].
  cbn [skip_space]. destruct (Ascii.eqb_spec c " ") as [->|]; [by destruct N|done].
Qed.

Lemma blank_exists l : exists b rest, l = b ++ rest /\ clause_blank b rest.
Proof.
  destruct (decide (head l = Some " "%char)) as [E|E]; [|exists [], l; split; [done|by apply blank_none]].
  destruct l as [|c r]; [done|]. injection E as ->. exists [" "%char], r. split; [done|apply blank_space].
Qed.

Lemma eq_ignore_lower a b : eq_ignore_ascii_case a b = true <-> map lower a = map lower b.
Proof.
  revert b. induction a as [|x a IH]; intros [|y b]; cbn [eq_ignore_ascii_case map]; [done..|].
  rewrite andb_true_iff, Ascii.eqb_eq, IH. split; [by intros [-> ->]|by intros [= -> ->]].
Qed.

Lemma matches_keyword l : matches_ignore_ascii_case l needle = true <-> exists k rest, keyword k /\ l = k ++ rest.
Proof.
  unfold matches_ignore_ascii_case. rewrite andb_true_iff, Nat.leb_le, eq_ignore_lower. split.
  - intros [_ E]. exists (take (length needle) l), (drop (length needle) l). split; [exact E|by rewrite take_drop].
  - intros (k & rest & K & ->). assert (L : length k = length needle).
    { apply (f_equal (@length ascii)) in K. by rewrite length_map in K. }
    rewrite length_app, <- L, take_app_length. split; [lia|exact K].
Qed.

Lemma drop_keyword k l : keyword k -> drop (length needle) (k ++ l) = l.
Proof.
  intros K. assert (L : length k = length needle).
  { apply (f_equal (@length ascii)) in K. by rewrite length_map in K. }
  by rewrite <- L, drop_app_length.
Qed.

Lemma keyword_head k : keyword k -> exists c k', k = c :: k' /\ is_quote c = false.
Proof.
  destruct k as [|c k]; [done|]. intros [= E _]. exists c, k. split; [done|]. unfold is_quote.
  destruct (Ascii.eqb_spec c btick) as [->|]; [done|]. destruct (Ascii.eqb_spec c squote) as [->|]; [done|].
  by destruct (Ascii.eqb_spec c dquote) as [->|].
Qed.

Lemma before_append s rest : before (s ++ rest) rest = s.
Proof. unfold before. by rewrite length_app, Nat.add_sub, take_app_length. Qed.

(** A line has the reading that [lex] computes, and no other. *)
Lemma lex_reads l ts fuel : reads l ts -> (length l <= fuel)%nat -> lex fuel l = ts.
Proof.
  intros R. revert fuel. induction R as [|q s rest ts Q S _ IH|k a b rest ts K A B _ IH|c l ts Q N _ IH]; intros fuel Hf.
  - by destruct fuel.
  - destruct fuel as [|fuel]; cbn [length] in Hf; [lia|]. cbn [lex]. rewrite Q, (skip_quoted_end q s rest Q S).
    f_equal; [f_equal; apply (before_append (q :: s))|apply IH]. rewrite length_app in Hf. lia.
  - destruct (keyword_head k K) as (c & k' & -> & Q). rewrite !length_app in Hf. destruct fuel as [|fuel]; cbn [length] in Hf; [lia|].
    assert (M : matches_ignore_ascii_case ((c :: k') ++ a ++ b ++ rest) needle = true) by (apply matches_keyword; eauto).
    assert (E : after_clause ((c :: k') ++ a ++ b ++ rest) = rest).
    { unfold after_clause. by rewrite (drop_keyword _ _ K), (skip_clause_end a _ A), (skip_space_end b rest B). }
    cbn [app] in *. cbn [lex]. rewrite Q, M, E. f_equal; [f_equal|apply IH; lia].
    pose proof (before_append (c :: k' ++ a ++ b) rest) as P. cbn [app] in P. by rewrite <- !app_assoc in P.
  - destruct fuel as [|fuel]; cbn [length] in Hf; [lia|]. cbn [lex]. rewrite Q.
    destruct (matches_ignore_ascii_case (c :: l) needle) eqn:M; [|f_equal; apply IH; lia].
    apply matches_keyword in M as (k & rest & K & E). by destruct (N k rest K).
Qed.

Lemma reads_exists n : forall l, (length l <= n)%nat -> exists ts, reads l ts.
Proof.
  induction n as [|n IH]; intros [|c r] Hn; cbn [length] in Hn; try lia; try (exists []; apply reads_end).
  destruct (is_quote c) eqn:Q; [|destruct (matches_ignore_ascii_case (c :: r) needle) eqn:M].
  - destruct (quoted_exists c Q (length r) r ltac:(lia)) as (s & rest & -> & S). rewrite length_app in Hn.
    destruct (IH rest ltac:(lia)) as [ts R]. exists (Literal (c :: s) :: ts). by apply reads_literal.
  - apply matches_keyword in M as (k & rest & K & E). destruct (account_exists rest) as (a & r1 & -> & A).
    destruct (blank_exists r1) as (b & r2 & -> & B). rewrite E. apply (f_equal length) in E. rewrite !length_app in E.
    destruct (keyword_head k K) as (x & k' & -> & _). cbn [length] in E.
    destruct (IH r2 ltac:(lia)) as [ts R]. exists (Clause ((x :: k') ++ a ++ b) :: ts). by apply reads_clause.
  - destruct (IH r ltac:(lia)) as [ts R]. exists (Plain c :: ts). apply reads_plain; [done| |done].
    intros k rest K E. enough (matches_ignore_ascii_case (c :: r) needle = true) by congruence.
    apply matches_keyword. eauto.
Qed.

Lemma tokens_read l : reads l (tokens l).
Proof.
  destruct (reads_exists (length l) l (le_n _)) as [ts R]. unfold tokens. by rewrite (lex_reads l ts (length l) R).
Qed.

(** ** Properties *)

(** C25: the [DEFINER=] clauses are removed and nothing else, on a line in ASCII.  Such
    a line reads in exactly one way as literals, clauses and plain characters; the
    tokens spell the line, the result is the line without its clauses - each with its
    user, its host if an at sign follows, quoted or not, and one space after it - so
    every literal and every other character is kept, in order; and a line without a
    clause is returned as it is, unallocated. *)
Theorem strip_definers_removes_clauses l :
  forallb is_ascii l = true ->
  exists ts, reads l ts /\ (forall ts', reads l ts' -> ts' = ts)
    /\ flat_map token_text ts = l
    /\ cow_bytes (strip_definers l) = kept_text ts
    /\ (existsb is_clause ts = false <-> strip_definers l = Borrowed l).
Proof.
  intros Ha. assert (flat_map token_text (tokens l) = l) as Ht by (by apply (lex_text (length l))).
  exists (tokens l). split; [apply tokens_read|]. split; [intros ts' R; symmetry; by apply lex_reads|].
  rewrite strip_definers_tokens. split; [done|]. split.
  - destruct (existsb is_clause (tokens l)) eqn:E; simpl.
    + apply encode_ascii, kept_text_ascii. by rewrite Ht.
    + by rewrite kept_text_all, Ht.
  - by destruct (existsb is_clause (tokens l)).
Qed.

(** What happens to bytes outside ASCII.  On a line with a clause, every
    kept byte from 0x80 up is written as two bytes, so the line grows by one
    byte for each of them: text in UTF-8 does not survive. *)
Theorem strip_definers_inflates_non_ascii l out :
  strip_definers l = Owned out ->
  length out =
  (length (kept_text (tokens l))
   + length (List.filter (fun c => negb (is_ascii c)) (kept_text (tokens l))))%nat.
Proof.
  rewrite strip_definers_tokens. case_match; [|done]. intros [= <-].
  induction (kept_text (tokens l)) as [|c s IH]; simpl; [done|].
  rewrite length_app, IH. unfold push_char. destruct (is_ascii c); simpl; lia.
Qed.

(** Appending to a vector never fails. *)
Definition write_vec {E} (w s : bytes) : result bytes E := Ok (w ++ s).

Lemma writeln_vec {E} w s : writeln (E := E) write_vec w s = Ok (w ++ s ++ [newline]).
Proof. unfold writeln, write_vec. simpl. by rewrite app_assoc. Qed.

(** Over a stream, each line is filtered on its own and written with a
    newline, the count returned is the number of lines with a clause, and the
    first read error ends the run with that error. *)
Theorem strip_definers_stream_spec {E} (ls : list bytes) (tail : list (result bytes E)) w m :
  0 <= m -> m + Z.of_nat (length ls) < 2 ^ 64 ->
  strip_definers_stream write_vec (map Ok ls ++ tail) w m =
  strip_definers_stream write_vec tail
    (w ++ flat_map (fun l => cow_bytes (strip_definers l) ++ [newline]) ls)
    (m + Z.of_nat (length (List.filter (fun l => existsb is_clause (tokens l)) ls)))
  /\ (forall e rest, tail = Err e :: rest ->
      strip_definers_stream write_vec (map Ok ls ++ tail) w m = Err e).
Proof.
  intros Hm Hb.
  assert (forall w m, 0 <= m -> m + Z.of_nat (length ls) < 2 ^ 64 ->
    strip_definers_stream write_vec (map Ok ls ++ tail) w m =
    strip_definers_stream write_vec tail
      (w ++ flat_map (fun l => cow_bytes (strip_definers l) ++ [newline]) ls)
      (m + Z.of_nat (length (List.filter (fun l => existsb is_clause (tokens l)) ls)))) as H.
  { clear. induction ls as [|l ls IH]; intros w m Hm Hb; cbn [length] in Hb.
    { simpl. by rewrite app_nil_r, Z.add_0_r. }
    cbn [map app strip_definers_stream rbind List.filter flat_map].
    pose proof (strip_definers_tokens l) as Ht. destruct (existsb is_clause (tokens l));
      rewrite Ht; cbn [cow_bytes length]; rewrite writeln_vec; cbn [rbind].
    - rewrite IH; unfold wrap; rewrite ?Z.mod_small by lia; [|lia|lia].
      f_equal; [by rewrite !app_assoc|lia].
    - rewrite IH by lia. by rewrite !app_assoc. }
  split; [by apply H|]. intros e rest ->. by rewrite H.
Qed.

(** ** Witnesses *)

Definition trigger_line : bytes :=
  byte_string "CREATE DEFINER=`root`@`localhost` TRIGGER t SET @m = 'DEFINER=`a`@`b`';".

Lemma strip_definers_removes_clauses_witness :
  cow_bytes (strip_definers trigger_line) =
  byte_string "CREATE TRIGGER t SET @m = 'DEFINER=`a`@`b`';".
Proof.
  destruct (strip_definers_removes_clauses trigger_line eq_refl) as (ts & _ & U & _ & -> & _).
  rewrite <- (U _ (tokens_read trigger_line)). reflexivity.
Defined.

(** [é], in UTF-8, in the comment of a view. *)
Definition accented_line : bytes := byte_string "CREATE DEFINER=x VIEW -- é".

Lemma strip_definers_inflates_non_ascii_witness :
  length (cow_bytes (strip_definers accented_line)) = 19%nat
  /\ length (kept_text (tokens accented_line)) = 17%nat.
Proof.
  split; [|reflexivity].
  rewrite (strip_definers_inflates_non_ascii accented_line
    (cow_bytes (strip_definers accented_line)) eq_refl).
  reflexivity.
Defined.

Lemma strip_definers_stream_spec_witness :
  strip_definers_stream (E := unit) write_vec
    (map Ok [byte_string "SELECT 1;"; byte_string "CREATE DEFINER=x VIEW v;"] ++ []) [] 0 =
  Ok (1, byte_string "SELECT 1;" ++ [newline] ++ byte_string "CREATE VIEW v;" ++ [newline]).
Proof.
  rewrite (proj1 (strip_definers_stream_spec (E := unit)
    [byte_string "SELECT 1;"; byte_string "CREATE DEFINER=x VIEW v;"] [] [] 0
    ltac:(lia) ltac:(simpl; lia))).
  reflexivity.
Defined.

(** The quoting state is that of one line: a literal continued on a second line
    is not recognised there. *)
Example literal_across_lines_is_not_protected :
  strip_definers_stream (E := unit) write_vec
    [Ok (byte_string "VALUES ('first"); Ok (byte_string "DEFINER=x second');")] [] 0 =
  Ok (1, byte_string "VALUES ('first" ++ [newline] ++ byte_string "second');" ++ [newline]).
Proof. reflexivity. Qed.
