(* ===== verification/BackupMysql.v ===== *)
(** * BackupMysql: dumping a MySQL database (engine/src/backup/mysql.rs)

    The argument lists of the three passes, the worker that streams them into the
    artifact, and the manifest written at the end.  The world the worker runs in
    is a parameter: what each started command gives ([spawn], by the number of
    commands started before), when the cancellation token is set, the artifact
    sink and the file system calls around it. *)

From Stdlib Require Import ZArith Lia Ascii String List Bool.
From stdpp Require Import base list gmap strings.
From S2P Require Import Prelude Text Time Domain Exec Tools Retention Backup Definer.
Import ListNotations.

Open Scope string_scope.
Open Scope list_scope.
Open Scope Z_scope.

Record Endpoint := mk_endpoint {
  host : string;
  port : Z;
  user : string;
  password : option string }.

Record DumpPlan := mk_plan {
  mysqldump : ResolvedTool;
  excluded : list string;
  endpoint : Endpoint;
  plan_database : string;
  options : MysqlBackupOptions;
  schema_tables : list string;
  data_tables : list TableSelection;
  include_triggers : bool;
  artifact : string;
  column_statistics_off : bool;
  recipients : list string }.

Inductive DumpProgress :=
| Phase (phase : JobPhase) (message : string)
| Table (index total : Z) (name : string) (bytes : Z)
| Warning (message : string).

(** ** Command lines *)

(** [if test { args.push(a) }]. *)
Definition flag (test : bool) (a : string) : list string := if test then [a] else [].

Definition connection_args (plan : DumpPlan) : list string :=
  [("--host=" ++ host (endpoint plan))%string;
   ("--port=" ++ show (port (endpoint plan)))%string;
   ("--user=" ++ user (endpoint plan))%string;
   "--protocol=TCP"].

Definition with_password (cmd : ToolCommand) (e : Endpoint) : ToolCommand :=
  match password e with Some pw => add_secret_env cmd "MYSQL_PWD" pw | None => cmd end.

Definition schema_args (plan : DumpPlan) : list string :=
  let o := options plan in
  connection_args plan
  ++ ["--no-data"]
  ++ map (fun table => ("--ignore-table=" ++ plan_database plan ++ "." ++ table)%string) (excluded plan)
  ++ flag (single_transaction o) "--single-transaction"
  ++ flag (add_drop_table o) "--add-drop-table"
  ++ flag (set_gtid_purged_off o) "--set-gtid-purged=OFF"
  ++ flag (routines o) "--routines"
  ++ ["--skip-triggers"]
  ++ flag (my_events o) "--events"
  ++ flag (column_statistics_off plan) "--column-statistics=0"
  ++ [("--default-character-set=" ++ default_character_set o)%string]
  ++ my_extra_flags o
  ++ [plan_database plan].

Definition data_args (plan : DumpPlan) (table : TableSelection) : list string :=
  let o := options plan in
  connection_args plan
  ++ ["--no-create-info"]
  ++ flag (single_transaction o) "--single-transaction"
  ++ ["--skip-triggers"]
  ++ flag (extended_insert o) "--extended-insert"
  ++ flag (hex_blob o) "--hex-blob"
  ++ flag (set_gtid_purged_off o) "--set-gtid-purged=OFF"
  ++ flag (column_statistics_off plan) "--column-statistics=0"
  ++ [("--default-character-set=" ++ default_character_set o)%string]
  ++ match where_filter table with Some f => [("--where=" ++ f)%string] | None => [] end
  ++ my_extra_flags o
  ++ [plan_database plan; sel_name table].

Definition trigger_args (plan : DumpPlan) : list string :=
  let o := options plan in
  connection_args plan
  ++ ["--no-create-info"; "--no-data"; "--triggers"; "--skip-routines"; "--skip-events"]
  ++ flag (single_transaction o) "--single-transaction"
  ++ flag (set_gtid_purged_off o) "--set-gtid-purged=OFF"
  ++ flag (column_statistics_off plan) "--column-statistics=0"
  ++ [("--default-character-set=" ++ default_character_set o)%string]
  ++ [plan_database plan].

Section Commands.
Context `{Host}.

Definition schema_command (plan : DumpPlan) : ToolCommand :=
  with_password (add_args (command (mysqldump plan)) (schema_args plan)) (endpoint plan).

Definition data_command (plan : DumpPlan) (table : TableSelection) : ToolCommand :=
  with_password (add_args (command (mysqldump plan)) (data_args plan table)) (endpoint plan).

Definition trigger_command (plan : DumpPlan) : ToolCommand :=
  with_password (add_args (command (mysqldump plan)) (trigger_args plan)) (endpoint plan).
End Commands.

(** ** Streaming a command *)

(** Rust refuses a line that is not UTF-8. *)
Fixpoint utf8_valid (l : bytes) : bool :=
  match l with
  | [] => true
  | a :: r =>
      let x := code a in
      if x <? 128 then utf8_valid r
      else if in_range 194 223 x then
        match r with b :: r2 => is_cont b && utf8_valid r2 | _ => false end
      else if in_range 224 239 x then
        match r with
        | b :: c :: r3 =>
            in_range (if x =? 224 then 160 else 128) (if x =? 237 then 159 else 191) (code b)
            && is_cont c && utf8_valid r3
        | _ => false
        end
      else if in_range 240 244 x then
        match r with
        | b :: c :: d :: r4 =>
            in_range (if x =? 240 then 144 else 128) (if x =? 244 then 143 else 191) (code b)
            && is_cont c && is_cont d && utf8_valid r4
        | _ => false
        end
      else false
  end.

Definition drop_cr (line : bytes) : bytes :=
  match rev line with
  | c :: r => if Ascii.eqb c "013" then rev r else line
  | [] => []
  end.

(** The lines of a stream, each ended by a newline but perhaps the last. *)
Fixpoint byte_lines (cur : bytes) (l : bytes) : list bytes :=
  match l with
  | [] => match cur with [] => [] | _ => [rev cur] end
  | c :: r =>
      if Ascii.eqb c newline then drop_cr (rev cur) :: byte_lines [] r
      else byte_lines (c :: cur) r
  end.

Definition utf8_error : string := "stream did not contain valid UTF-8".

(** [BufRead::lines] of what a child wrote, up to a read error if there is one. *)
Definition reader_lines (out : bytes) (read_error : option string) : list (result bytes string) :=
  map (fun l => if utf8_valid l then Ok l else Err utf8_error) (byte_lines [] out)
  ++ match read_error with Some e => [Err e] | None => [] end.

Record Child := mk_child {
  stdout : bytes;
  stdout_error : option string;
  exit : result ExitStatus string;
  stderr : option (list (result string string));
  token_set : bool }.        (* the cancellation token, when the child is waited for *)

Section Worker.
Context `{Host}.

(** The artifact sink: [write_all] leaves a sink even when it fails. *)
Context {W : Type}.
Variable write_all : W -> bytes -> result unit string * W.
Variable spawn : nat -> ToolCommand -> result Child ExecError.
Variable cancelled : nat -> bool.
Variable create_file : string -> result unit string.
Variable new_sink : list string -> result W string.
Variable metadata_len : W -> result Z string.
Variable finish_sink flush_sink sync_all : W -> result unit string.
Variable str_debug : string -> string.

(** [write_all] as the DEFINER filter sees it: the sink is lost with an error. *)
Definition write_or_fail (w : W) (s : bytes) : result W string :=
  match write_all w s with (Ok _, w') => Ok w' | (Err e, _) => Err e end.

Definition streaming_failed (e : string) : BackupError :=
  Io ("streaming the dump failed: " ++ e).

Definition copy (w : W) (c : Child) : result unit string * W :=
  match write_all w (stdout c) with
  | (Ok _, w') => (match stdout_error c with Some e => Err e | None => Ok tt end, w')
  | (Err e, w') => (Err e, w')
  end.

Definition exec_error_to_backup (e : ExecError) : BackupError :=
  match e with ExecCancelled _ => BackupCancelled | _ => Exec (exec_error_text e) end.

(** The state of the worker: the sink, the commands started, the progress sent. *)
Record Worker := mk_worker {
  sink : W;
  started : list ToolCommand;
  progress : list DumpProgress }.

Definition send (s : Worker) (p : DumpProgress) : Worker :=
  mk_worker (sink s) (started s) (progress s ++ [p]).

Definition with_sink (s : Worker) (w : W) : Worker := mk_worker w (started s) (progress s).

(** The text of the child once its output is in the sink. *)
Definition wait_child (cmd : ToolCommand) (c : Child) (stripped : Z) : result Z BackupError :=
  match wait_checked (program cmd) (exit c) (stderr c) (token_set c) with
  | Ok _ => Ok stripped
  | Err e => Err (exec_error_to_backup e)
  end.

Definition stream_command (s : Worker) (cmd : ToolCommand) (strip_definer : bool)
    : result Z BackupError * Worker :=
  let s1 := mk_worker (sink s) (started s ++ [cmd]) (progress s) in
  match spawn (length (started s)) cmd with
  | Err e => (Err (Exec (exec_error_text e)), s1)
  | Ok c =>
      if strip_definer then
        match strip_definers_stream write_or_fail (reader_lines (stdout c) (stdout_error c))
                (sink s) 0 with
        | Ok (n, w) => (wait_child cmd c n, with_sink s1 w)
        | Err e => (Err (streaming_failed e), s1)
        end
      else
        match copy (sink s) c with
        | (Ok _, w) => (wait_child cmd c 0, with_sink s1 w)
        | (Err e, w) => (Err (streaming_failed e), with_sink s1 w)
        end
  end.

(** The data pass. *)
Fixpoint data_pass (plan : DumpPlan) (total : Z) (index : nat) (tables : list TableSelection)
    (s : Worker) : result unit BackupError * Worker :=
  match tables with
  | [] => (Ok tt, s)
  | table :: rest =>
      if cancelled (length (started s)) then (Err BackupCancelled, s)
      else
        match stream_command s (data_command plan table) false with
        | (Ok _, s1) =>
            let bytes := match metadata_len (sink s1) with Ok n => n | Err _ => 0 end in
            let s2 := send s1 (Table (Z.of_nat index + 1) total (sel_name table) bytes) in
            data_pass plan total (S index) rest s2
        | (Err BackupCancelled, s1) => (Err BackupCancelled, s1)
        | (Err e, s1) =>
            let s2 := send s1 (Warning ("table " ++ sel_name table ++ " failed and was skipped: "
                                        ++ backup_error_text str_debug e)%string) in
            data_pass plan total (S index) rest s2
        end
  end.

Definition schema_pass (plan : DumpPlan) (s : Worker) : result unit BackupError * Worker :=
  let s := send s (Phase DumpSchema
    ("dumping schema for " ++ show (Z.of_nat (length (schema_tables plan))) ++ " tables")%string) in
  let cmd := schema_command plan in
  let s := send s (Phase DumpSchema (display str_debug cmd)) in
  match stream_command s cmd (strip_definer (options plan)) with
  | (Ok n, s) =>
      (Ok tt, if 0 <? n
              then send s (Phase DumpSchema
                     ("stripped DEFINER clauses from " ++ show n ++ " lines")%string)
              else s)
  | (Err e, s) => (Err e, s)
  end.

Definition trigger_pass (plan : DumpPlan) (s : Worker) : result unit BackupError * Worker :=
  if negb (include_triggers plan) then (Ok tt, s)
  else if cancelled (length (started s)) then (Err BackupCancelled, s)
  else
    let s := send s (Phase DumpSchema "dumping triggers") in
    match stream_command s (trigger_command plan) (strip_definer (options plan)) with
    | (Ok n, s) =>
        (Ok tt, if 0 <? n
                then send s (Phase DumpSchema
                       ("stripped DEFINER clauses from " ++ show n ++ " trigger lines")%string)
                else s)
    | (Err e, s) => (Err e, s)
    end.

Definition io_error {A} (prefix : string) (r : result A string) : result A BackupError :=
  map_err r (fun e => Io (prefix ++ e)%string).

(** Closing the sink; the size is read once everything is on disk. *)
Definition finish_dump (w : W) : result Z BackupError :=
  let? _ := io_error "could not finish the artifact stream: " (finish_sink w) in
  let? _ := io_error "could not flush the artifact: " (flush_sink w) in
  let? _ := io_error "could not sync the artifact: " (sync_all w) in
  io_error "could not stat the artifact: " (metadata_len w).

Definition run_passes (plan : DumpPlan) (w : W) : result unit BackupError * Worker :=
  match schema_pass plan (mk_worker w [] []) with
  | (Err e, s) => (Err e, s)
  | (Ok _, s) =>
      let total := Z.of_nat (length (data_tables plan)) in
      let s := send s (Phase DumpData ("dumping data for " ++ show total ++ " tables")%string) in
      match data_pass plan total 0 (data_tables plan) s with
      | (Err e, s) => (Err e, s)
      | (Ok _, s) => trigger_pass plan s
      end
  end.

(** The worker; its state when a sink was made, with the result. *)
Definition run_dump (plan : DumpPlan) : result Z BackupError * option Worker :=
  match io_error "could not create the artifact: " (create_file (artifact plan)) with
  | Err e => (Err e, None)
  | Ok _ =>
      match map_err (new_sink (recipients plan)) Io with
      | Err e => (Err e, None)
      | Ok w =>
          match run_passes plan w with
          | (Err e, s) => (Err e, Some s)
          | (Ok _, s) => (finish_dump (sink s), Some s)
          end
      end
  end.

(** ** The whole backup *)

Variable create_dir : string -> result unit string.
Variable probe : ResolvedTool -> option Version.
Variable sha256_file : string -> result string string.
Variable to_json : EngineBackupOptions -> string.
Variable write_manifest : BackupManifest -> result unit string.
Context `{Calendar}.

Record BackupRun := mk_run {
  run_profile : ConnectionProfile;
  run_request : BackupRequest;
  run_endpoint : Endpoint;
  run_server_version : string;
  run_recipients : list string;
  run_row_counts : gmap string Z;
  run_tools : ToolSource }.

(** What a run leaves: its result, the manifest it wrote, whether it removed the
    artifact, the worker's last state and the progress of the job. *)
Record Outcome := mk_outcome {
  o_result : result string BackupError;
  o_manifest : option BackupManifest;
  o_removed : bool;
  o_worker : option Worker;
  o_events : list DumpProgress }.

Definition column_statistics (o : MysqlBackupOptions) (client server : option Version) : bool :=
  match client, server with
  | Some c, Some s => mysql_needs_column_statistics_flag c s
  | _, _ => disable_column_statistics o
  end.

Definition artifact_name (database : string) (now : Z) (recipients : list string) : string :=
  (database ++ "_" ++ utc_stamp now ++ "."
   ++ match recipients with [] => "sql.gz" | _ => "sql.gz.age" end)%string.

Definition version_text (v : option Version) : string :=
  match v with Some v => show_version v | None => "unknown" end.

Definition dump_plan (run : BackupRun) (o : MysqlBackupOptions) (dump : ResolvedTool)
    (now : Z) : DumpPlan :=
  let c := common (run_request run) in
  let e := run_endpoint run in
  mk_plan dump
    (map sel_name (List.filter (fun s => mode_eqb (sel_mode s) Exclude) (selections c)))
    (mk_endpoint (rewrite_host (run_tools run) (host e)) (port e) (user e) (password e))
    (co_database c) o
    (map sel_name (included_tables c))
    (tables_with_data c)
    (triggers o)
    (path_join (output_dir c) (artifact_name (co_database c) now (run_recipients run)))
    (column_statistics o (probe dump) (parse_first (run_server_version run)))
    (run_recipients run).

Definition make_manifest (run : BackupRun) (plan : DumpPlan) (id : Uuid) (created_at size : Z)
    (filename digest : string) : BackupManifest :=
  mk_manifest MANIFEST_VERSION id (profile_id (run_profile run)) (profile_name (run_profile run))
    Mysql (run_server_version run) "mysqldump" (version_text (probe (mysqldump plan)))
    (co_database (common (run_request run))) created_at SqlGz (schema_tables plan)
    (map sel_name (data_tables plan)) (run_row_counts run) (to_json (engine (run_request run)))
    filename size digest (negb (Nat.eqb (length (run_recipients run)) 0)) (run_recipients run).

(** Hash the artifact and describe it. *)
Definition publish (run : BackupRun) (plan : DumpPlan) (id : Uuid) (created_at size : Z)
    (filename : string) : result BackupManifest BackupError :=
  let? digest := io_error "could not hash the artifact: " (sha256_file (artifact plan)) in
  let m := make_manifest run plan id created_at size filename digest in
  let? _ := io_error "could not write the manifest: " (write_manifest m) in
  Ok m.

Definition run_mysql_backup (run : BackupRun) (id : Uuid) (now created_at : Z)
    (cancelled_at_end : bool) : Outcome :=
  let failed e := mk_outcome (Err e) None false None [] in
  let c := common (run_request run) in
  match backup_validate (run_request run) (run_profile run) with
  | Err e => failed e
  | Ok _ =>
      match engine (run_request run) with
      | BPostgres _ | BMongo _ =>
          failed (EngineMismatch (profile_engine (run_profile run)) (backup_engine (engine (run_request run))))
      | BMysql o =>
          match resolve Mysqldump (run_tools run) (t_mysqldump (tool_overrides (run_profile run))) with
          | None => failed (ToolMissing "mysqldump")
          | Some dump =>
              let init := Phase Initializing
                ("mysqldump " ++ version_text (probe dump) ++ " → " ++ output_dir c)%string in
              match io_error "could not create the output directory: " (create_dir (output_dir c)) with
              | Err e => mk_outcome (Err e) None false None [init]
              | Ok _ =>
                  let plan := dump_plan run o dump now in
                  let '(r, w) := run_dump plan in
                  let events := init :: match w with Some s => progress s | None => [] end in
                  match r with
                  | Err e => mk_outcome (Err e) None true w events
                  | Ok size =>
                      if cancelled_at_end then mk_outcome (Err BackupCancelled) None false w events
                      else
                        let events := events ++ [Phase Compress "computing checksum"] in
                        match publish run plan id created_at size
                                (artifact_name (co_database c) now (run_recipients run)) with
                        | Err e => mk_outcome (Err e) None false w events
                        | Ok m =>
                            mk_outcome (Ok (artifact plan)) (Some m) false w
                              (events ++ [Phase Done ("backup complete: " ++ artifact plan ++ " ("
                                 ++ show size ++ " bytes)")%string])
                        end
                  end
              end
          end
      end
  end.
End Worker.

(** ** Lemmas: which commands a run starts *)

Section Order.
Context `{Host} {W : Type} (write_all : W -> bytes -> result unit string * W)
  (spawn : nat -> ToolCommand -> result Child ExecError) (cancelled : nat -> bool)
  (metadata_len : W -> result Z string) (str_debug : string -> string).

Lemma send_started (s : Worker) p : started (W := W) (send s p) = started s.
Proof. done. Qed.

Lemma stream_command_started (s : Worker) cmd strip r s' :
  stream_command write_all spawn s cmd strip = (r, s') -> started s' = started s ++ [cmd].
Proof.
  unfold stream_command. destruct (spawn _ _) as [c|e]; [|by intros [= _ <-]].
  destruct strip.
  - destruct (strip_definers_stream _ _ _ _) as [[n w]|e]; by intros [= _ <-].
  - destruct (copy write_all (sink s) c) as [[[]|e] w]; by intros [= _ <-].
Qed.

(** The commands of a pass are started in order; on success, all of them. *)
Definition ran (r : result unit BackupError) (s s' : Worker (W := W)) (cmds : list ToolCommand) : Prop :=
  exists done rest, cmds = done ++ rest /\ started s' = started s ++ done /\ (r = Ok tt -> rest = []).

Lemma ran_nil r s s' : started s' = started s -> ran r s s' [].
Proof. intros E. exists [], []. by rewrite !app_nil_r. Qed.

Lemma ran_stop e s s' cmds : started s' = started s -> ran (Err e) s s' cmds.
Proof. intros E. exists [], cmds. by rewrite app_nil_r. Qed.

Lemma ran_cons r s s1 s' cmd cmds :
  started s1 = started s ++ [cmd] -> ran r s1 s' cmds -> ran r s s' (cmd :: cmds).
Proof.
  intros E1 (d & rest & -> & E & Hr). exists (cmd :: d), rest.
  rewrite E, E1, <- app_assoc. done.
Qed.

Lemma ran_app r s s1 s' a b :
  ran (Ok tt) s s1 a -> ran r s1 s' b -> ran r s s' (a ++ b).
Proof.
  intros (d & rest & -> & E1 & Hrest) (d' & rest' & -> & E & Hr).
  rewrite (Hrest eq_refl), app_nil_r. exists (d ++ d'), rest'.
  rewrite E, E1, !app_assoc. done.
Qed.

Lemma ran_err e s s' a b : ran (Err e) s s' a -> ran (Err e) s s' (a ++ b).
Proof. intros (d & rest & -> & E & _). exists d, (rest ++ b). by rewrite app_assoc. Qed.

Lemma data_pass_ran plan total tables : forall index s r s',
  data_pass write_all spawn cancelled metadata_len str_debug plan total index tables s = (r, s') ->
  ran r s s' (map (data_command plan) tables).
Proof.
  induction tables as [|t tables IH]; intros index s r s'; cbn [data_pass map].
  - intros [= <- <-]. by apply ran_nil.
  - destruct (cancelled _); [intros [= <- <-]; by apply ran_stop|].
    destruct (stream_command _ _ _ _ _) as [[n|e] s1] eqn:E; apply stream_command_started in E.
    + intros Hr%IH. by eapply ran_cons.
    + assert (forall e' s2, started s2 = started s ++ [data_command plan t] ->
        ran (Err e') s s2 (data_command plan t :: map (data_command plan) tables)) as Hstop.
      { intros e' s2 E2. eapply ran_cons; [exact E|]. apply ran_stop. congruence. }
      destruct e; try (intros Hr%IH; by eapply ran_cons). intros [= <- <-]. by apply Hstop.
Qed.

Lemma schema_pass_ran plan s r s' :
  schema_pass write_all spawn str_debug plan s = (r, s') -> ran r s s' [schema_command plan].
Proof.
  unfold schema_pass. destruct (stream_command _ _ _ _ _) as [[n|e] s1] eqn:E;
    apply stream_command_started in E; intros [= <- <-].
  - eapply ran_cons; [|apply ran_nil; reflexivity]. destruct (0 <? n); exact E.
  - eapply ran_cons; [exact E|by apply ran_stop].
Qed.

Lemma trigger_pass_ran plan s r s' :
  trigger_pass write_all spawn cancelled plan s = (r, s') ->
  ran r s s' (if include_triggers plan then [trigger_command plan] else []).
Proof.
  unfold trigger_pass. destruct (include_triggers plan); cbn [negb];
    [|intros [= <- <-]; by apply ran_nil].
  destruct (cancelled _); [intros [= <- <-]; by apply ran_stop|].
  destruct (stream_command _ _ _ _ _) as [[n|e] s1] eqn:E;
    apply stream_command_started in E; intros [= <- <-].
  - eapply ran_cons; [|apply ran_nil; reflexivity]. destruct (0 <? n); exact E.
  - eapply ran_cons; [exact E|by apply ran_stop].
Qed.

(** The commands of a whole dump. *)
Definition all_commands (plan : DumpPlan) : list ToolCommand :=
  [schema_command plan] ++ map (data_command plan) (data_tables plan)
  ++ (if include_triggers plan then [trigger_command plan] else []).

Lemma run_passes_ran plan w r s :
  run_passes write_all spawn cancelled metadata_len str_debug plan w = (r, s) ->
  ran r (mk_worker w [] []) s (all_commands plan).
Proof.
  unfold run_passes, all_commands. set (s0 := mk_worker w [] []).
  destruct (schema_pass _ _ _ _ _) as [[[]|e] s1] eqn:E1; apply schema_pass_ran in E1;
    [|intros [= <- <-]; by apply ran_err].
  destruct (data_pass _ _ _ _ _ _ _ _ _ _) as [[[]|e] s2] eqn:E2; apply data_pass_ran in E2.
  - intros E3%trigger_pass_ran. eapply ran_app; [exact E1|]. by eapply ran_app.
  - intros [= <- <-]. eapply ran_app; [exact E1|]. by apply ran_err.
Qed.
End Order.

(** ** Properties *)

Lemma with_password_args cmd e :
  program (with_password cmd e) = program cmd /\ args (with_password cmd e) = args cmd
  /\ env (with_password cmd e) = env cmd.
Proof. unfold with_password. by destruct (password e). Qed.

(** Triggers come last.  Whatever the commands do, a dump starts them in one
    order - the schema, the selected tables, then the triggers - and one that
    succeeds has started every one of them: no pass is skipped, and nothing that
    could fire a trigger runs after the triggers. *)
Theorem dump_order `{Host} {W} (write_all : W -> bytes -> result unit string * W) spawn cancelled
    create_file new_sink metadata_len finish_sink flush_sink sync_all str_debug plan r s :
  run_dump write_all spawn cancelled create_file new_sink metadata_len finish_sink flush_sink
    sync_all str_debug plan = (r, Some s) ->
  exists rest, all_commands plan = started s ++ rest /\ (is_ok r = true -> rest = []).
Proof.
  unfold run_dump. destruct (io_error _ _); [|done]. destruct (map_err _ _) as [w|]; [|done].
  destruct (run_passes _ _ _ _ _ _ _) as [p s1] eqn:E. apply run_passes_ran in E.
  destruct E as (d & rest & Hall & Hs & Hr). simpl in Hs.
  intros Hres. exists rest. destruct p as [[]|e]; injection Hres as <- <-; rewrite Hs; split; auto.
  done.
Qed.

(** The same plan, connecting with another password. *)
Definition replace_password (plan : DumpPlan) (p : option string) : DumpPlan :=
  let e := endpoint plan in
  mk_plan (mysqldump plan) (excluded plan) (mk_endpoint (host e) (port e) (user e) p)
    (plan_database plan) (options plan) (schema_tables plan) (data_tables plan)
    (include_triggers plan) (artifact plan) (column_statistics_off plan) (recipients plan).

(** A password never reaches a command line.  The program, the arguments, the
    plain environment and the text shown in the job log of every command of a
    dump are the same whatever the password is; it is passed in the one variable
    the tool reads, which a containerised tool is told to forward. *)
Theorem password_stays_out_of_argv `{Host} str_debug plan p cmd :
  tool (mysqldump plan) = Mysqldump -> In cmd (all_commands plan) ->
  (exists cmd', In cmd' (all_commands (replace_password plan p))
     /\ program cmd' = program cmd /\ args cmd' = args cmd /\ env cmd' = env cmd
     /\ display str_debug cmd' = display str_debug cmd
     /\ secret_env cmd' = match p with Some pw => [("MYSQL_PWD", pw)] | None => [] end)
  /\ (is_containerised (mysqldump plan) = true -> In "MYSQL_PWD" (args cmd)).
Proof.
  intros Ht Hin.
  assert (exists l, cmd = with_password (add_args (command (mysqldump plan)) l) (endpoint plan)
    /\ In (with_password (add_args (command (mysqldump plan)) l) (endpoint (replace_password plan p)))
         (all_commands (replace_password plan p))) as (l & -> & Hl).
  { unfold all_commands in Hin. rewrite !in_app_iff in Hin.
    destruct Hin as [[<-|[]]|[(t & <- & Hin)%in_map_iff|Hin]].
    - exists (schema_args plan). split; [done|]. by left.
    - exists (data_args plan t). split; [done|]. unfold all_commands. rewrite !in_app_iff.
      right. left. apply in_map_iff. by exists t.
    - destruct (include_triggers plan) eqn:Ei; [|done]. destruct Hin as [<-|[]].
      exists (trigger_args plan). split; [done|]. unfold all_commands. rewrite !in_app_iff.
      right. right. simpl. rewrite Ei. by left. }
  set (base := add_args (command (mysqldump plan)) l) in *.
  destruct (with_password_args base (endpoint plan)) as (Hp & Ha & He).
  destruct (with_password_args base (endpoint (replace_password plan p))) as (Hp' & Ha' & He').
  assert (secret_env base = []) as Hs by (unfold base, command; by destruct (location (mysqldump plan))).
  split.
  - eexists. split; [exact Hl|]. rewrite Hp', Ha', He', Hp, Ha, He. split_and!; try done.
    + unfold display. by rewrite Hp', Ha', Hp, Ha.
    + unfold with_password. cbn [endpoint replace_password password].
      destruct p; cbn [secret_env add_secret_env]; by rewrite Hs.
  - intros Hc. rewrite Ha. unfold base, command, is_containerised in *.
    destruct (location (mysqldump plan)); [done|..]; simpl; unfold forwarded_env; rewrite Ht; simpl; auto 10.
Qed.

(** ** A run *)

Module Sample.
(** A sink in memory, a machine that has mysqldump, and a server on which the
    dump of one table fails. *)
Definition machine : Host :=
  {| is_file _ := true; exec_mode _ := true; path_var := Some ["/usr/bin"]; home_var := None;
     read_dir _ := None |}.

Definition write (w s : bytes) : result unit string * bytes := (Ok tt, w ++ s).

Definition child (out : string) (st : ExitStatus) : Child :=
  mk_child (byte_string out) None (Ok st) (Some []) false.

Definition server (_ : nat) (cmd : ToolCommand) : result Child ExecError :=
  if bool_decide ("broken" ∈ args cmd)
  then Ok (child "INSERT" (mk_exit false "exit status: 2"))
  else Ok (child "DATA" (mk_exit true "exit status: 0")).

Definition request : BackupRequest :=
  mk_backup (mk_common "app" [with_data "orders"; with_data "broken"; schema_only "logs"] "/out"
    true false false) (BMysql mysql_default).

Definition plan : DumpPlan :=
  mk_plan (mk_resolved Mysqldump (LDockerRun "mysql:8" "mysqldump") []) []
    (mk_endpoint "db" 3306 "root" (Some "secret")) "app" mysql_default ["orders"; "broken"; "logs"]
    [with_data "orders"; with_data "broken"] true "/out/app.sql.gz" false [].

Definition ok_unit {A} (_ : A) : result unit string := Ok tt.

Definition dump : result Z BackupError * option Worker :=
  run_dump (H := machine) write server (fun _ => false) ok_unit (fun _ => Ok []) (fun w => Ok (Z.of_nat (length w)))
    ok_unit ok_unit ok_unit (fun s => s) plan.

Definition backup : Outcome :=
  run_mysql_backup (H := machine) write server (fun _ => false) ok_unit (fun _ => Ok [])
    (fun w => Ok (Z.of_nat (length w))) ok_unit ok_unit ok_unit (fun s => s) ok_unit (fun _ => None)
    (fun _ => Ok "digest") (fun _ => "{}") ok_unit
    (mk_run (sample_profile Mysql Dev) request (mk_endpoint "db" 3306 "root" None) "8.0.42" [] ∅ Local)
    7%N 0 0 false.

Definition dump_worker : option Worker := snd dump.
End Sample.

(** A table whose dump fails is skipped with a warning, and the finished
    backup still succeeds with a manifest that lists it among the tables whose
    rows it holds. *)
Theorem skipped_table_is_claimed :
  exists m, o_result Sample.backup = Ok "/out/app_19700101_000000.sql.gz"
    /\ o_manifest Sample.backup = Some m
    /\ In (Warning ("table broken failed and was skipped: /usr/bin/mysqldump failed with exit status: 2"
             ++ String newline "")%string) (o_events Sample.backup)
    /\ In "broken" (manifest_tables_with_data m).
Proof. vm_compute. eexists. split_and!; try reflexivity; simpl; auto 20. Qed.

(** ** Witnesses *)

Definition sample_worker : Worker (W := bytes) :=
  default (mk_worker [] [] []) Sample.dump_worker.

Lemma sample_dump : Sample.dump = (Ok 20, Some sample_worker).
Proof. vm_compute. reflexivity. Qed.

Lemma dump_order_witness :
  exists rest, all_commands (H := Sample.machine) Sample.plan = started sample_worker ++ rest
    /\ (is_ok (Ok (E := BackupError) 20) = true -> rest = []).
Proof. exact (dump_order _ _ _ _ _ _ _ _ _ _ _ _ _ sample_dump). Defined.

Lemma password_stays_out_of_argv_witness :
  In "MYSQL_PWD" (args (schema_command (H := Sample.machine) Sample.plan)).
Proof.
  exact (proj2 (password_stays_out_of_argv (H := Sample.machine) (fun s => s) Sample.plan None _
    eq_refl (or_introl eq_refl)) eq_refl).
Defined.
