(* ===== verification/Cron.v ===== *)
(** * Cron: expressions (engine/src/cron.rs)

    Field sets are 64-bit words with one bit per value.  [parse_field] fills them
    with the loop of the source, whose counter is a [u32] that wraps around (a
    release build; a debug build panics at that point); [fill_fuel] iterations
    always end it.  The text a parse error carries is kept as data ([Reason])
    where the source formats a sentence.

    The calendar and the time zones are the interfaces of [Time]; [scan] walks
    days as the source does, [MAX_SCAN_DAYS] of them.

    The theorems here are about parsing: the bit sets a field denotes, the fuel
    of the filling loop, the well-formedness of every parsed expression and the
    round trip through the stored text.  [CronScan] has those about occurrences. *)

From Stdlib Require Import ZArith Lia Ascii String List Bool.
From stdpp Require Import base list.
From S2P Require Import Prelude Text Time.
Import ListNotations.

Open Scope string_scope.
Open Scope list_scope.
Open Scope Z_scope.

(** ** Data *)

Inductive ScheduleTimezone := TzLocal | TzUtc.

Definition timezone_as_str (z : ScheduleTimezone) : string :=
  match z with TzLocal => "local" | TzUtc => "utc" end.

(** Why a field is refused. *)
Inductive Reason :=
| EmptyEntry
| NotAStepNumber (s : string)
| StepOfZero
| RunsBackwards (lo hi : Z)
| MatchesNothing
| NotANumberOrName (token : string)
| OutsideRange (value min max : Z).

Inductive CronError :=
| WrongFieldCount (n : nat)
| LooksLikeSeconds (text : string)
| UnknownShorthand (name : string)
| RebootUnsupported
| BadField (field value : string) (reason : Reason)
| EmptyExpression
| UnknownTimezone (text : string).

Definition timezone_from_str (s : string) : result ScheduleTimezone CronError :=
  let other := to_lower (trim s) in
  if String.eqb other "local" then Ok TzLocal
  else if String.eqb other "utc" then Ok TzUtc
  else Err (UnknownTimezone other).

Definition MONTH_NAMES : list string :=
  ["jan"; "feb"; "mar"; "apr"; "may"; "jun"; "jul"; "aug"; "sep"; "oct"; "nov"; "dec"].
Definition DOW_NAMES : list string := ["sun"; "mon"; "tue"; "wed"; "thu"; "fri"; "sat"].

Definition MAX_SCAN_DAYS : nat := 1600.

Record CronExpression := mk_cron {
  c_minute : Z;
  c_hour : Z;
  c_dom : Z;
  c_month : Z;
  c_dow : Z;
  dom_star : bool;
  dow_star : bool;
  source : string }.

Definition bit (v : Z) : Z := Z.shiftl 1 v.
Definition has (set v : Z) : bool := negb (Z.land set (bit v) =? 0).

(** ** Parsing *)

(** [token.get(..3)]: three bytes, when they end on a character boundary. *)
Definition get3 (token : string) : option string :=
  match token with
  | String a (String b (String c r)) =>
      match r with
      | String d _ => if is_cont d then None else Some (String a (String b (String c "")))
      | EmptyString => Some token
      end
  | _ => None
  end.

Definition unwrap_or {A} (o : option A) (d : A) : A := match o with Some a => a | None => d end.

Fixpoint position {A} (f : A -> bool) (l : list A) : option nat :=
  match l with
  | [] => None
  | x :: l' => if f x then Some 0%nat else S <$> position f l'
  end.

Definition name_index (names : list string) (token : string) : option nat :=
  match position (fun n => eq_ignore_case n (unwrap_or (get3 token) token)) names with
  | Some i =>
      if Nat.leb 3 (String.length token) && all_chars is_alpha token then Some i else None
  | None => None
  end.

Definition parse_value (field spec token : string) (min max : Z) (names : list string)
  : result Z CronError :=
  let token := trim token in
  match name_index names token with
  | Some index =>
      Ok (if bool_decide (names = MONTH_NAMES) then Z.of_nat index + 1 else Z.of_nat index)
  | None =>
      match parse_u32 token with
      | None => Err (BadField field spec (NotANumberOrName token))
      | Some value =>
          if (value <? min) || (max <? value)
          then Err (BadField field spec (OutsideRange value min max))
          else Ok value
      end
  end.

(** [while v <= hi { bits |= bit(v); v += step }] on a 32-bit counter. *)
Fixpoint fill (fuel : nat) (v hi step bits : Z) : Z :=
  match fuel with
  | O => bits
  | S fuel' =>
      if v <=? hi then fill fuel' (wrap 32 (v + step)) hi step (Z.lor bits (bit v)) else bits
  end.

Definition fill_fuel : nat := 64.

(** [range/step], or a range alone with a step of one. *)
Definition parse_step (name spec part : string) : result (string * Z) CronError :=
  match split_once "/" part with
  | Some (r, s) =>
      match parse_u32 s with
      | None => Err (BadField name spec (NotAStepNumber s))
      | Some step => if step =? 0 then Err (BadField name spec StepOfZero) else Ok (r, step)
      end
  | None => Ok (part, 1)
  end.

(** [*], [a-b] or a single value; with a step, a single value runs to the end. *)
Definition parse_range (name spec : string) (min max : Z) (names : list string)
    (range_spec : string) (step : Z) : result (Z * Z) CronError :=
  if String.eqb range_spec "*" then Ok (min, max)
  else
    match split_once "-" range_spec with
    | Some (a, b) =>
        let? lo := parse_value name spec a min max names in
        let? hi := parse_value name spec b min max names in
        if hi <? lo then Err (BadField name spec (RunsBackwards lo hi)) else Ok (lo, hi)
    | None =>
        let? v := parse_value name spec range_spec min max names in
        Ok (if 1 <? step then (v, max) else (v, v))
    end.

(** One entry of a comma-separated list: its first and last value and its step. *)
Definition parse_part (name spec : string) (min max : Z) (names : list string) (part : string)
  : result (Z * Z * Z) CronError :=
  let part := trim part in
  if String.eqb part "" then Err (BadField name spec EmptyEntry)
  else
    let? (range_spec, step) := parse_step name spec part in
    let? (lo, hi) := parse_range name spec min max names range_spec step in
    Ok (lo, hi, step).

Fixpoint parse_parts (name spec : string) (min max : Z) (names parts : list string) (bits : Z)
  : result Z CronError :=
  match parts with
  | [] => Ok bits
  | part :: parts' =>
      let? (lo, hi, step) := parse_part name spec min max names part in
      parse_parts name spec min max names parts' (fill fill_fuel lo hi step bits)
  end.

Definition parse_field (name spec : string) (min max : Z) (names : list string)
  : result (Z * bool) CronError :=
  let is_star := starts_with "*" spec in
  let? bits := parse_parts name spec min max names (split_on "," spec) 0 in
  if bits =? 0 then Err (BadField name spec MatchesNothing) else Ok (bits, is_star).

(** [(dow & !bit(7)) | bit(0)]. *)
Definition normalise_dow (dow : Z) : Z :=
  if has dow 7 then Z.lor (Z.ldiff dow (bit 7)) (bit 0) else dow.

Definition parse_fields (text : string) : result CronExpression CronError :=
  let fields := split_whitespace text in
  let n := length fields in
  if Nat.eqb n 6 || Nat.eqb n 7 then Err (LooksLikeSeconds text)
  else
    match fields with
    | [f0; f1; f2; f3; f4] =>
        let? (minute, _) := parse_field "minute" f0 0 59 [] in
        let? (hour, _) := parse_field "hour" f1 0 23 [] in
        let? (dom, dom_star) := parse_field "day-of-month" f2 1 31 [] in
        let? (month, _) := parse_field "month" f3 1 12 MONTH_NAMES in
        let? (dow, dow_star) := parse_field "day-of-week" f4 0 7 DOW_NAMES in
        Ok (mk_cron minute hour dom month (normalise_dow dow) dom_star dow_star text)
    | _ => Err (WrongFieldCount n)
    end.

Definition expand_shorthand (name : string) : result string CronError :=
  let other := to_lower (trim name) in
  let named := String.eqb other in
  if named "yearly" || named "annually" then Ok "0 0 1 1 *"
  else if named "monthly" then Ok "0 0 1 * *"
  else if named "weekly" then Ok "0 0 * * 0"
  else if named "daily" || named "midnight" then Ok "0 0 * * *"
  else if named "hourly" then Ok "0 * * * *"
  else if named "reboot" then Err RebootUnsupported
  else Err (UnknownShorthand (String "@" other)).

Definition with_source (e : CronExpression) (s : string) : CronExpression :=
  mk_cron (c_minute e) (c_hour e) (c_dom e) (c_month e) (c_dow e) (dom_star e) (dow_star e) s.

Definition cron_from_str (s : string) : result CronExpression CronError :=
  let trimmed := trim s in
  if String.eqb trimmed "" then Err EmptyExpression
  else
    match strip_prefix "@" trimmed with
    | Some shorthand =>
        let? expanded := expand_shorthand shorthand in
        let? parsed := parse_fields expanded in
        Ok (with_source parsed trimmed)
    | None => parse_fields trimmed
    end.

(** [Serialize] writes the source text, [Deserialize] parses it. *)
Definition cron_serialize (e : CronExpression) : string := source e.
Definition cron_deserialize (raw : string) : result CronExpression CronError := cron_from_str raw.

(** ** Matching and scanning *)

Inductive Direction := Forward | Backward.

Section Matching.
Context `{Cal : Calendar}.

Definition day_matches (e : CronExpression) (d : Z) : bool :=
  if negb (has (c_month e) (month_of d)) then false
  else
    let dom := has (c_dom e) (day_of d) in
    let dow := has (c_dow e) (weekday_of d) in
    if dom_star e || dow_star e then dom && dow else dom || dow.

Definition matches (e : CronExpression) (at_ : NaiveDateTime) : bool :=
  has (c_minute e) (minute at_) && has (c_hour e) (hour at_) && day_matches e (date at_).

(** [zone.from_local_datetime], the earlier instant of an ambiguous pair. *)
Definition resolve_in (zone : TimeZone) (naive : NaiveDateTime) : option Z :=
  match @from_local_datetime zone naive with
  | Single dt => Some dt
  | Ambiguous a b => Some (Z.min a b)
  | LNone => None
  end.

Definition wall_clock_in (zone : TimeZone) (at_ : Z) : NaiveDateTime := @naive_local zone at_.

Fixpoint zseq (from : Z) (n : nat) : list Z :=
  match n with O => [] | S n' => from :: zseq (from + 1) n' end.

Definition hours_of (e : CronExpression) : list Z := List.filter (has (c_hour e)) (zseq 0 24).
Definition minutes_of (e : CronExpression) : list Z := List.filter (has (c_minute e)) (zseq 0 60).

(** Every (hour, minute) of a day the expression names, in scanning order. *)
Definition candidates (e : CronExpression) (direction : Direction) : list (Z * Z) :=
  let l := flat_map (fun h => map (fun m => (h, m)) (minutes_of e)) (hours_of e) in
  match direction with Forward => l | Backward => rev l end.

(** Tuple comparison. *)
Definition hm_lt (a b : Z * Z) : bool :=
  (fst a <? fst b) || ((fst a =? fst b) && (snd a <? snd b)).

Definition past_bound (direction : Direction) (bound : option (Z * Z)) (hm : Z * Z) : bool :=
  match bound with
  | None => false
  | Some limit =>
      match direction with Forward => hm_lt hm limit | Backward => hm_lt limit hm end
  end.

Fixpoint scan_candidates (zone : TimeZone) (d : Z) (bound : option (Z * Z))
    (direction : Direction) (l : list (Z * Z)) : option Z :=
  match l with
  | [] => None
  | (h, m) :: l' =>
      if past_bound direction bound (h, m) then scan_candidates zone d bound direction l'
      else
        match resolve_in zone (mk_ndt d h m 0 0) with
        | Some instant => Some instant
        | None => scan_candidates zone d bound direction l'
        end
  end.

Definition scan_within_day (e : CronExpression) (zone : TimeZone) (d : Z)
    (bound : option (Z * Z)) (direction : Direction) : option Z :=
  scan_candidates zone d bound direction (candidates e direction).

(** The loop over days; only the first day is bounded. *)
Fixpoint scan_days (e : CronExpression) (zone : TimeZone) (n : nat) (d : Z)
    (bound : option (Z * Z)) (direction : Direction) : option Z :=
  match n with
  | O => None
  | S n' =>
      let found :=
        if day_matches e d then scan_within_day e zone d bound direction else None in
      match found with
      | Some i => Some i
      | None =>
          match (match direction with Forward => succ_opt d | Backward => pred_opt d end) with
          | Some d' => scan_days e zone n' d' None direction
          | None => None
          end
      end
  end.

Definition scan (e : CronExpression) (zone : TimeZone) (start : NaiveDateTime)
    (direction : Direction) : option Z :=
  scan_days e zone MAX_SCAN_DAYS (date start) (Some (hour start, minute start)) direction.

Definition next_after_in (e : CronExpression) (zone : TimeZone) (after : Z) : exec (option Z) :=
  match plus_minute (floor_minute (wall_clock_in zone after)) with
  | Val start => Val (scan e zone start Forward)
  | Panic => Panic
  end.

Definition prev_at_or_before_in (e : CronExpression) (zone : TimeZone) (at_ : Z) : option Z :=
  scan e zone (floor_minute (wall_clock_in zone at_)) Backward.

(** The two clocks a schedule can be read against. *)
Definition next_after (local utc : TimeZone) (e : CronExpression) (tz : ScheduleTimezone)
    (after : Z) : exec (option Z) :=
  next_after_in e (match tz with TzUtc => utc | TzLocal => local end) after.

Definition prev_at_or_before (local utc : TimeZone) (e : CronExpression)
    (tz : ScheduleTimezone) (at_ : Z) : option Z :=
  prev_at_or_before_in e (match tz with TzUtc => utc | TzLocal => local end) at_.
End Matching.

(** ** Description *)

Definition capitalise_static (day : string) : string :=
  let named := String.eqb day in
  if named "sun" then "Sunday" else if named "mon" then "Monday" else if named "tue" then "Tuesday"
  else if named "wed" then "Wednesday" else if named "thu" then "Thursday"
  else if named "fri" then "Friday" else "Saturday".

Definition dow_name (d : Z) : string := nth (Z.to_nat d) DOW_NAMES "".

(** How the day fields read, once the time of day is known. *)
Definition describe_days (e : CronExpression) (time : string) : string :=
  let every_dom := forallb (has (c_dom e)) (zseq 1 31) in
  let dow_list := List.filter (has (c_dow e)) (zseq 0 7) in
  let every_dow := Nat.eqb (length dow_list) 7 in
  match every_dom, every_dow with
  | true, true =>
      if starts_with "every" time then time else ("every day at " ++ time)%string
  | true, false =>
      if dom_star e
      then (join ", " (map (fun d => capitalise_static (dow_name d)) dow_list) ++ " at " ++ time)%string
      else source e
  | false, true =>
      if dow_star e
      then ("day " ++ join ", " (map show (List.filter (has (c_dom e)) (zseq 1 31)))
            ++ " of the month at " ++ time)%string
      else source e
  | false, false => source e
  end.

Definition describe (e : CronExpression) : string :=
  let minutes := minutes_of e in
  let hours := hours_of e in
  let all_months := forallb (has (c_month e)) (zseq 1 12) in
  let time :=
    match minutes, hours with
    | [m], [h] => Some (show_pad 2 h ++ ":" ++ show_pad 2 m)%string
    | [m], hs => if Nat.eqb (length hs) 24 then Some ("every hour at :" ++ show_pad 2 m)%string else None
    | _, _ => None
    end in
  match time with
  | None => source e
  | Some time => if negb all_months then source e else describe_days e time
  end.

(** ** Bits *)

Lemma has_testbit s v : 0 <= v -> has s v = Z.testbit s v.
Proof.
  intros Hv. unfold has, bit. rewrite Z.shiftl_1_l.
  destruct (Z.testbit s v) eqn:E.
  - apply negb_true_iff, Z.eqb_neq. intros H.
    assert (Z.testbit (Z.land s (2 ^ v)) v = true) as Ht.
    { rewrite Z.land_spec, E, Z.pow2_bits_true by done. done. }
    by rewrite H, Z.bits_0 in Ht.
  - apply negb_false_iff, Z.eqb_eq, Z.bits_inj'. intros n Hn.
    rewrite Z.land_spec, Z.bits_0, Z.pow2_bits_eqb by done.
    destruct (Z.eqb_spec v n) as [<-|]; [by rewrite E|by rewrite andb_false_r].
Qed.

Lemma testbit_bit v x : 0 <= v -> Z.testbit (bit v) x = (v =? x).
Proof. intros Hv. unfold bit. by rewrite Z.shiftl_1_l, Z.pow2_bits_eqb. Qed.

Lemma nonzero_has s : 0 <= s -> s <> 0 -> exists x, 0 <= x /\ has s x = true.
Proof.
  intros Hs Hne. exists (Z.log2 s). split; [apply Z.log2_nonneg|].
  rewrite has_testbit by apply Z.log2_nonneg. apply Z.bit_log2. lia.
Qed.

(** ** The filling loop *)

Lemma fill_nonneg fuel v hi step bits : 0 <= v -> 0 <= step -> 0 <= bits ->
  0 <= fill fuel v hi step bits.
Proof.
  revert v bits. induction fuel as [|fuel IH]; intros v bits Hv Hs Hb; simpl; [done|].
  case_match; [|done]. apply IH; [unfold wrap; apply Z.mod_pos_bound; lia|done|].
  apply Z.lor_nonneg. split; [done|]. unfold bit. by apply Z.shiftl_nonneg.
Qed.

(** Wrapped or not, only values from 0 to [hi] are added. *)
Lemma fill_bound fuel v hi step bits x :
  0 <= v -> Z.testbit (fill fuel v hi step bits) x = true ->
  Z.testbit bits x = true \/ 0 <= x <= hi.
Proof.
  revert v bits. induction fuel as [|fuel IH]; intros v bits Hv; simpl; [by left|].
  case_match eqn:E; [|by left]. bools. intros H.
  apply IH in H as [H|H]; [|by right|unfold wrap; apply Z.mod_pos_bound; lia].
  rewrite Z.lor_spec, testbit_bit in H by done. apply orb_true_iff in H as [H|H]; [by left|].
  bools. right. lia.
Qed.

(** Bits already set stay set, and the first value is added. *)
Lemma fill_keeps fuel v hi step bits x :
  0 <= v -> Z.testbit bits x = true -> Z.testbit (fill fuel v hi step bits) x = true.
Proof.
  revert v bits. induction fuel as [|fuel IH]; intros v bits Hv H; simpl; [done|].
  case_match; [|done]. apply IH; [unfold wrap; apply Z.mod_pos_bound; lia|].
  by rewrite Z.lor_spec, H.
Qed.

Lemma fill_first fuel v hi step bits :
  0 <= v <= hi -> Z.testbit (fill (S fuel) v hi step bits) v = true.
Proof.
  intros Hv. simpl. rewrite (proj2 (Z.leb_le v hi)) by lia.
  apply fill_keeps; [unfold wrap; apply Z.mod_pos_bound; lia|].
  rewrite Z.lor_spec, testbit_bit, Z.eqb_refl by lia. apply orb_true_r.
Qed.

(** What an entry [lo-hi/step] names. *)
Definition names_value (item : Z * Z * Z) (x : Z) : bool :=
  let '(lo, hi, step) := item in in_range lo hi x && ((x - lo) mod step =? 0).

Lemma names_value_next v hi step x :
  1 <= step -> v <= hi ->
  names_value (v, hi, step) x = (v =? x) || names_value (v + step, hi, step) x.
Proof.
  intros Hs Hv. unfold names_value, in_range.
  destruct (Z.eqb_spec v x) as [<-|Hne]; simpl.
  - rewrite Z.sub_diag, Z.mod_0_l by lia. rewrite (proj2 (Z.leb_le v v)), (proj2 (Z.leb_le v hi)) by lia. done.
  - replace (x - v) with (x - (v + step) + 1 * step) by lia. rewrite Z.mod_add by lia.
    destruct (Z.leb_spec v x), (Z.leb_spec (v + step) x), (Z.leb_spec x hi); simpl; try done; [|lia].
    apply Z.eqb_neq. intros H2.
    rewrite <- (Z.mod_add _ 1) in H2 by lia.
    rewrite Z.mod_small in H2; lia.
Qed.

(** Without overflow the loop adds exactly the values of the progression. *)
Lemma fill_exact fuel v hi step bits x :
  0 <= v -> 1 <= step -> hi + step < 2 ^ 32 -> hi - v < Z.of_nat fuel ->
  Z.testbit (fill fuel v hi step bits) x = Z.testbit bits x || names_value (v, hi, step) x.
Proof.
  revert v bits. induction fuel as [|fuel IH]; intros v bits Hv Hs Ho Hf; cbn [fill].
  { assert (names_value (v, hi, step) x = false) as ->; [|by rewrite orb_false_r].
    unfold names_value, in_range. destruct (Z.leb_spec v x), (Z.leb_spec x hi); simpl; done || lia. }
  destruct (Z.leb_spec v hi) as [Hle|Hgt].
  - unfold wrap. rewrite Z.mod_small by lia. rewrite IH by lia.
    rewrite Z.lor_spec, testbit_bit, <- orb_assoc, <- names_value_next by lia. done.
  - assert (names_value (v, hi, step) x = false) as ->; [|by rewrite orb_false_r].
    unfold names_value, in_range. destruct (Z.leb_spec v x), (Z.leb_spec x hi); simpl; done || lia.
Qed.

(** How far the loop can still run: upwards, or downwards once [v + step] wraps. *)
Definition fill_measure (v hi step : Z) : Z := if step <=? 2 ^ 31 then hi - v else v.

Lemma fill_measure_decreases v hi step :
  0 <= v <= hi -> hi < 64 -> 1 <= step <= u32_max ->
  let v' := wrap 32 (v + step) in
  0 <= v' /\ (v' <= hi -> fill_measure v' hi step < fill_measure v hi step).
Proof.
  intros Hv Hh Hs v'. unfold v', wrap, fill_measure, u32_max in *.
  split; [apply Z.mod_pos_bound; lia|]. case_match; bools; intros H'.
  - rewrite Z.mod_small in * by lia. lia.
  - destruct (Z.lt_ge_cases (v + step) (2 ^ 32)).
    + rewrite Z.mod_small in * by lia. lia.
    + replace ((v + step) mod 2 ^ 32) with (v + step - 2 ^ 32) in *; [lia|].
      symmetry. rewrite <- (Z.mod_add _ (-1)) by lia. apply Z.mod_small. lia.
Qed.

(** The counter's value after [i] turns. *)
Definition counter (v step : Z) (i : nat) : Z := wrap 32 (v + Z.of_nat i * step).

Lemma counter_S v step i : counter v step (S i) = counter (wrap 32 (v + step)) step i.
Proof. unfold counter, wrap. rewrite Nat2Z.inj_succ, Z.add_mod_idemp_l by lia. f_equal. lia. Qed.

Lemma seq_S_existsb f n : existsb f (seq 0 (S n)) = f 0%nat || existsb (fun i => f (S i)) (seq 0 n).
Proof. cbn [seq existsb]. f_equal. rewrite <- seq_shift. induction (seq 0 n) as [|x l IH]; [done|]. simpl. by rewrite IH. Qed.

(** The loop from [v] ends after some turns, and what it adds is the counter's values. *)
Lemma fill_walk hi step m : hi < 64 -> 1 <= step <= u32_max -> forall v,
  0 <= v < 2 ^ 32 -> fill_measure v hi step < Z.of_nat m ->
  exists n, (n <= m)%nat /\ hi < counter v step n /\ (forall i, (i < n)%nat -> counter v step i <= hi)
    /\ forall fuel bits x, (n <= fuel)%nat -> 0 <= x ->
         Z.testbit (fill fuel v hi step bits) x
         = Z.testbit bits x || existsb (fun i => counter v step i =? x) (seq 0 n).
Proof.
  intros Hh Hs. induction m as [|m IH]; intros v Hv Hm;
    assert (counter v step 0 = v) as H0 by (unfold counter, wrap; rewrite Z.add_0_r; by apply Z.mod_small);
    destruct (Z.leb_spec v hi) as [Hle|Hgt].
  1: { exfalso. unfold fill_measure in Hm. destruct (step <=? 2 ^ 31); lia. }
  1,3: exists 0%nat; split_and!; [lia|lia|lia|]; intros fuel bits x _ _; simpl; rewrite orb_false_r;
    destruct fuel; simpl; [done|]; by rewrite (proj2 (Z.leb_gt _ _) Hgt).
  destruct (fill_measure_decreases v hi step) as [Hv' Hd]; [lia|done|done|].
  set (v' := wrap 32 (v + step)) in *.
  assert (Hr : 0 <= v' < 2 ^ 32) by (unfold v', wrap; apply Z.mod_pos_bound; lia).
  assert (Hm' : v' <= hi \/ hi < v') by lia.
  assert (exists n, (n <= m)%nat /\ hi < counter v' step n /\ (forall i, (i < n)%nat -> counter v' step i <= hi)
    /\ forall fuel bits x, (n <= fuel)%nat -> 0 <= x ->
         Z.testbit (fill fuel v' hi step bits) x
         = Z.testbit bits x || existsb (fun i => counter v' step i =? x) (seq 0 n)) as (n & Hn & He & Hw & Hf).
  { destruct Hm' as [Hle'|Hgt']; [apply IH; [done|specialize (Hd Hle'); lia]|].
    exists 0%nat. split_and!; [lia| |lia|].
    - unfold counter, wrap. rewrite Z.add_0_r, Z.mod_small by lia. done.
    - intros fuel bits x _ _. simpl. rewrite orb_false_r. destruct fuel; simpl; [done|].
      by rewrite (proj2 (Z.leb_gt _ _) Hgt'). }
  exists (S n). split_and!; [lia|by rewrite counter_S| |].
  - intros [|i] Hi; [lia|]. rewrite counter_S. apply Hw. lia.
  - intros [|fuel] bits x Hfuel Hx; [lia|]. cbn [fill]. rewrite (proj2 (Z.leb_le _ _) Hle). fold v'.
    rewrite Hf, Z.lor_spec, seq_S_existsb, H0, <- orb_assoc by lia. f_equal. f_equal.
    + by rewrite testbit_bit by lia.
    + clear. induction (seq 0 n) as [|i l IH]; [done|]. cbn [existsb]. by rewrite IH, counter_S.
Qed.

#[global] Arguments fill : simpl never.

(** ** Values and entries *)

(** The five fields and the bounds and names they are parsed with. *)
Definition standard_fields : list (string * Z * Z * list string) :=
  [("minute", 0, 59, []); ("hour", 0, 23, []); ("day-of-month", 1, 31, []);
   ("month", 1, 12, MONTH_NAMES); ("day-of-week", 0, 7, DOW_NAMES)].

Definition standard (name : string) (min max : Z) (names : list string) : Prop :=
  In (name, min, max, names) standard_fields.

Lemma standard_bounds name min max names :
  standard name min max names -> 0 <= min <= 1 /\ min <= max /\ max <= 59.
Proof. unfold standard. simpl. naive_solver lia. Qed.

Lemma position_lt {A} (f : A -> bool) l i : position f l = Some i -> (i < length l)%nat.
Proof.
  revert i. induction l as [|x l IH]; intros i; simpl; [done|].
  case_match; [intros [= <-]; lia|].
  destruct (position f l) as [j|]; [|done]. intros [= <-]. specialize (IH j eq_refl). lia.
Qed.

Lemma name_index_lt names token i : name_index names token = Some i -> (i < length names)%nat.
Proof. unfold name_index. repeat case_match; [|done|done]. intros [= <-]. by eapply position_lt. Qed.

Lemma parse_value_range name spec token min max names v :
  standard name min max names ->
  parse_value name spec token min max names = Ok v -> min <= v <= max.
Proof.
  intros Hst. unfold parse_value. destruct (name_index names (trim token)) as [i|] eqn:Ei.
  - apply name_index_lt in Ei. intros [= <-]. unfold standard in Hst. simpl in Hst.
    destruct Hst as [H|[H|[H|[H|[H|[]]]]]]; injection H as <- <- <- <-; simpl in Ei; try lia;
      case_bool_decide; simpl; try done; lia.
  - destruct (parse_u32 _) as [w|]; [|done]. case_match eqn:E; [done|]. intros [= <-]. bools. lia.
Qed.

Definition item_ok (min max : Z) (item : Z * Z * Z) : Prop :=
  let '(lo, hi, step) := item in min <= lo <= hi /\ hi <= max /\ 1 <= step <= u32_max.

Lemma parse_step_range name spec part r step :
  parse_step name spec part = Ok (r, step) -> 1 <= step <= u32_max.
Proof.
  unfold parse_step. destruct (split_once "/" part) as [[a b]|].
  - destruct (parse_u32 b) as [v|] eqn:E; [|done]. apply parse_uint_range in E.
    destruct (Z.eqb_spec v 0); [done|]. intros [= <- <-]. lia.
  - intros [= <- <-]. unfold u32_max. lia.
Qed.

Lemma parse_range_bounds name spec min max names r step lo hi :
  standard name min max names ->
  parse_range name spec min max names r step = Ok (lo, hi) -> min <= lo <= hi /\ hi <= max.
Proof.
  intros Hst. pose proof (standard_bounds _ _ _ _ Hst). unfold parse_range.
  destruct (String.eqb r "*"); [intros [= <- <-]; lia|].
  destruct (split_once "-" r) as [[a b]|]; intros Hr; inv_ok;
    repeat match goal with
      | Hv : parse_value _ _ _ _ _ _ = Ok _ |- _ => apply parse_value_range in Hv; [|exact Hst]
      end.
  - match type of Hr with (if ?c then _ else _) = _ => destruct c eqn:E; [done|] end.
    injection Hr as <- <-. bools. lia.
  - destruct (1 <? step); simplify_eq; lia.
Qed.

Lemma parse_part_ok name spec min max names part item :
  standard name min max names ->
  parse_part name spec min max names part = Ok item -> item_ok min max item.
Proof.
  intros Hst. unfold parse_part. case_match; [done|]. intros Hp. inv_ok.
  destruct x as [r step]. inv_ok. destruct x as [lo hi]. inv_ok.
  match goal with Hs : parse_step _ _ _ = _ |- _ => apply parse_step_range in Hs end.
  match goal with Hr : parse_range _ _ _ _ _ _ _ = _ |- _ => apply parse_range_bounds in Hr end;
    [|done]. unfold item_ok. lia.
Qed.

Lemma parse_parts_spec name spec min max names parts bits0 bits :
  standard name min max names -> 0 <= bits0 ->
  parse_parts name spec min max names parts bits0 = Ok bits ->
  exists items,
    Forall2 (fun part item => parse_part name spec min max names part = Ok item) parts items
    /\ bits = fold_left (fun b '(lo, hi, step) => fill fill_fuel lo hi step b) items bits0
    /\ Forall (item_ok min max) items.
Proof.
  intros Hst. revert bits0. induction parts as [|part parts IH]; intros bits0 Hb; simpl; intros H.
  { inv_ok. by exists []. }
  apply rbind_Ok in H as ([[lo hi] step] & Hp & H).
  pose proof (parse_part_ok _ _ _ _ _ _ _ Hst Hp) as Hi.
  pose proof (standard_bounds _ _ _ _ Hst). simpl in Hi.
  apply IH in H as (items & Hf & -> & Hok); [|apply fill_nonneg; lia].
  exists ((lo, hi, step) :: items). split; [by constructor|]. split; [done|]. by constructor.
Qed.

Section Folds.
Context (min max : Z) (Hmin : 0 <= min) (Hmax : max <= 59).

Let fold := fold_left (fun b '(lo, hi, step) => fill fill_fuel lo hi step b).

Lemma fold_nonneg items bits :
  Forall (item_ok min max) items -> 0 <= bits -> 0 <= fold items bits.
Proof.
  intros Hi. revert bits. induction Hi as [|[[lo hi] step] items Hi His IH]; intros bits Hb; [done|].
  simpl in *. apply IH, fill_nonneg; lia.
Qed.

Lemma fold_keeps items bits x :
  Forall (item_ok min max) items -> Z.testbit bits x = true -> Z.testbit (fold items bits) x = true.
Proof.
  intros Hi. revert bits. induction Hi as [|[[lo hi] step] items Hi His IH]; intros bits Hb; [done|].
  simpl in *. apply IH, fill_keeps; [lia|done].
Qed.

Lemma fold_bound items bits x :
  Forall (item_ok min max) items -> Z.testbit (fold items bits) x = true ->
  Z.testbit bits x = true \/ 0 <= x <= max.
Proof.
  intros Hi. revert bits. induction Hi as [|[[lo hi] step] items Hi His IH]; intros bits Hb; [by left|].
  simpl in *. apply IH in Hb as [Hb|Hb]; [|by right].
  apply fill_bound in Hb; [|lia]. destruct Hb; [by left|right; lia].
Qed.

Lemma fold_exact items bits x :
  Forall (item_ok min max) items ->
  Forall (fun '(_, hi, step) => hi + step < 2 ^ 32) items ->
  Z.testbit (fold items bits) x = Z.testbit bits x || existsb (fun i => names_value i x) items.
Proof.
  intros Hi. revert bits. induction Hi as [|[[lo hi] step] items Hi His IH]; intros bits Ho.
  { by rewrite orb_false_r. }
  inversion Ho as [|? ? Ho1 Ho2]; subst. cbn [fold_left existsb fold]. fold fold.
  rewrite IH, fill_exact by (done || simpl in Hi; unfold fill_fuel; lia).
  by rewrite <- orb_assoc.
Qed.
End Folds.

(** ** Fields *)

Lemma parse_field_spec name spec min max names bits star :
  standard name min max names ->
  parse_field name spec min max names = Ok (bits, star) ->
  star = starts_with "*" spec /\ bits <> 0 /\
  exists items,
    Forall2 (fun part item => parse_part name spec min max names part = Ok item)
      (split_on "," spec) items
    /\ Forall (item_ok min max) items
    /\ bits = fold_left (fun b '(lo, hi, step) => fill fill_fuel lo hi step b) items 0.
Proof.
  intros Hst H. unfold parse_field in H. apply rbind_Ok in H as (b & Hp & H).
  destruct (Z.eqb_spec b 0); [done|]. injection H as <- <-.
  apply parse_parts_spec in Hp as (items & Hf & Hb & Hok); [|done|done].
  split; [done|]. split; [done|]. by exists items.
Qed.

(** A field set: not empty, and nothing past [max]. *)
Definition field_set (max set : Z) : Prop :=
  0 <= set < 2 ^ (max + 1)
  /\ (exists x, 0 <= x <= max /\ has set x = true)
  /\ (forall x, 0 <= x -> has set x = true -> x <= max).

Lemma field_set_intro max set :
  0 <= max -> 0 <= set -> set <> 0 ->
  (forall x, Z.testbit set x = true -> 0 <= x <= max) -> field_set max set.
Proof.
  intros Hm Hs Hne Hx.
  assert (Z.log2 set <= max) as Hlog by (apply Hx, Z.bit_log2; lia).
  split; [split; [done|]; apply Z.log2_lt_pow2; lia|]. split.
  - exists (Z.log2 set). pose proof (Z.log2_nonneg set). split; [lia|].
    rewrite has_testbit by lia. apply Z.bit_log2. lia.
  - intros x Hx0 H. rewrite has_testbit in H by done. by apply Hx.
Qed.

Lemma parse_field_set name spec min max names bits star :
  standard name min max names ->
  parse_field name spec min max names = Ok (bits, star) -> field_set max bits.
Proof.
  intros Hst H. pose proof (standard_bounds _ _ _ _ Hst) as (Hmin & Hmm & Hmax).
  apply parse_field_spec in H as (_ & Hne & items & _ & Hok & ->); [|done].
  apply field_set_intro; [lia| |done|].
  - apply (fold_nonneg min max); first [exact Hok|lia].
  - intros x Hx. apply (fold_bound min max) in Hx as [Hx|Hx]; first [exact Hok|exact Hx|lia|by rewrite Z.bits_0 in Hx].
Qed.

(** Sunday as 7 becomes Sunday as 0. *)
Lemma normalise_dow_has dow x :
  0 <= dow -> 0 <= x ->
  has (normalise_dow dow) x = (negb (x =? 7) && has dow x) || ((x =? 0) && has dow 7).
Proof.
  intros Hd Hx. unfold normalise_dow. destruct (has dow 7) eqn:E.
  - rewrite (has_testbit _ x), (has_testbit _ x), Z.lor_spec, Z.ldiff_spec, !testbit_bit by lia.
    rewrite (Z.eqb_sym 7), (Z.eqb_sym 0). destruct (x =? 0), (x =? 7); simpl;
      by rewrite ?andb_true_r, ?andb_false_r, ?orb_true_r, ?orb_false_r.
  - rewrite andb_false_r, orb_false_r. destruct (Z.eqb_spec x 7) as [->|]; [by rewrite E|done].
Qed.

Lemma normalise_dow_set dow : field_set 7 dow -> field_set 6 (normalise_dow dow).
Proof.
  intros ((Hd & Hlt) & (y & Hy & Hhy) & Hb).
  assert (0 <= normalise_dow dow) as Hn.
  { unfold normalise_dow. case_match; [|done]. apply Z.lor_nonneg.
    split; [apply Z.ldiff_nonneg; by left|done]. }
  assert (exists z, 0 <= z <= 6 /\ has (normalise_dow dow) z = true) as (z & Hz & Hhz).
  { destruct (has dow 7) eqn:E.
    - exists 0. rewrite normalise_dow_has, E by lia. split; [lia|]. apply orb_true_r.
    - exists y. rewrite normalise_dow_has by lia. rewrite Hhy.
      destruct (Z.eqb_spec y 7) as [->|]; [congruence|]. split; [lia|done]. }
  apply field_set_intro; [lia|done| |].
  - intros H0. rewrite H0, has_testbit, Z.bits_0 in Hhz by lia. done.
  - intros x Hx. destruct (Z.neg_nonneg_cases x); [by rewrite Z.testbit_neg_r in Hx|].
    rewrite <- has_testbit, normalise_dow_has in Hx by done.
    destruct (Z.eqb_spec x 7), (Z.eqb_spec x 0); simpl in Hx; try lia; try done.
    rewrite orb_false_r in Hx. specialize (Hb x ltac:(done) Hx). lia.
Qed.

(** ** Properties *)

(** A field means what crontab says.  A successfully parsed field is the union
    of its comma-separated entries; each entry lies within the field's bounds
    and, unless its last value plus its step overflows 32 bits, contributes
    exactly [lo, lo+step, lo+2*step, ...] up to [hi].  The star flag is the
    leading character alone. *)
Theorem parse_field_denotes name spec min max names bits star :
  standard name min max names ->
  parse_field name spec min max names = Ok (bits, star) ->
  star = starts_with "*" spec /\
  exists items,
    Forall2 (fun part item => parse_part name spec min max names part = Ok item)
      (split_on "," spec) items
    /\ Forall (item_ok min max) items
    /\ (Forall (fun '(_, hi, step) => hi + step < 2 ^ 32) items ->
        forall x, 0 <= x -> has bits x = existsb (fun i => names_value i x) items).
Proof.
  intros Hst H. pose proof (standard_bounds _ _ _ _ Hst) as (Hmin & Hmm & Hmax).
  apply parse_field_spec in H as (Hs & _ & items & Hf & Hok & ->); [|done].
  split; [done|]. exists items. split; [done|]. split; [done|].
  intros Ho x Hx. rewrite has_testbit by done.
  rewrite (fold_exact min max), Z.bits_0 by (done || lia). done.
Qed.

(** C39: the loop that fills a field ends, for every step.  Within sixty turns its 32-bit
    counter - which wraps around in a release build - has passed the last value, after
    having been at or below it in every turn before; so the fuel given is never used up,
    and what is added to the set is exactly the counter's values in those turns, also
    where a step near 2^32 takes it back below where it began. *)
Theorem fill_walks_the_counter lo hi step bits min max :
  0 <= min -> max <= 59 -> item_ok min max (lo, hi, step) ->
  exists n, (n <= 60 < fill_fuel)%nat
    /\ hi < counter lo step n /\ (forall i, (i < n)%nat -> counter lo step i <= hi)
    /\ forall fuel x, (n <= fuel)%nat -> 0 <= x ->
         has (fill fuel lo hi step bits) x = has bits x || existsb (fun i => counter lo step i =? x) (seq 0 n).
Proof.
  intros Hmin Hmax (Hlo & Hhi & Hs).
  destruct (fill_walk hi step 60) with (v := lo) as (n & Hn & He & Hw & Hf); [lia|done|lia| |].
  - unfold fill_measure. case_match; lia.
  - exists n. split_and!; [done|unfold fill_fuel; lia|done|done|]. intros fuel x Hfuel Hx. rewrite !has_testbit by done. by apply Hf.
Qed.

(** Every expression the scheduler can hold. *)
Definition cron_wf (e : CronExpression) : Prop :=
  field_set 59 (c_minute e) /\ field_set 23 (c_hour e) /\ field_set 31 (c_dom e)
  /\ field_set 12 (c_month e) /\ field_set 6 (c_dow e).

Lemma parse_fields_wf text e : parse_fields text = Ok e -> cron_wf e /\ source e = text.
Proof.
  unfold parse_fields. destruct (_ || _); [done|].
  destruct (split_whitespace text) as [|f0 [|f1 [|f2 [|f3 [|f4 [|]]]]]]; try done.
  intros Hp.
  apply rbind_Ok in Hp as ([m ?] & P0 & Hp). apply rbind_Ok in Hp as ([h ?] & P1 & Hp).
  apply rbind_Ok in Hp as ([d ?] & P2 & Hp). apply rbind_Ok in Hp as ([mo ?] & P3 & Hp).
  apply rbind_Ok in Hp as ([dw ?] & P4 & Hp). injection Hp as <-.
  apply parse_field_set in P0, P1, P2, P3, P4; try (unfold standard; simpl; tauto).
  split; [|done]. unfold cron_wf. simpl. split_and!; try done. by apply normalise_dow_set.
Qed.

(** Parsing is the only way in, and what it lets in is well formed: every
    field names at least one value and none past its maximum, Sunday is only
    ever bit 0, and the whole set fits the 64-bit word. *)
Theorem cron_from_str_wf s e : cron_from_str s = Ok e -> cron_wf e.
Proof.
  unfold cron_from_str. case_match; [done|]. case_match.
  - intros Hp. apply rbind_Ok in Hp as (x & _ & Hp). apply rbind_Ok in Hp as (p & Hp & He).
    injection He as <-. apply parse_fields_wf in Hp as [Hp _]. exact Hp.
  - intros Hp. by apply parse_fields_wf in Hp as [Hp _].
Qed.

(** What is stored is what was typed, and reading it back gives the same
    expression: deserialising a serialised expression is the identity. *)
Theorem cron_serde_round_trip s e :
  cron_from_str s = Ok e ->
  cron_serialize e = trim s /\ cron_deserialize (cron_serialize e) = Ok e.
Proof.
  intros H. assert (cron_serialize e = trim s) as Hs.
  { unfold cron_from_str in H. case_match; [done|]. case_match.
    - apply rbind_Ok in H as (x & _ & H). apply rbind_Ok in H as (p & _ & He). by injection He as <-.
    - by apply parse_fields_wf in H as [_ H]. }
  split; [done|]. rewrite Hs. unfold cron_deserialize. rewrite <- H.
  unfold cron_from_str. by rewrite trim_idem.
Qed.

(** ** Witnesses and examples *)

Lemma parse_field_denotes_witness :
  starts_with "*" "9-17/4,20" = false /\
  parse_field "hour" "9-17/4,20" 0 23 [] = Ok (1188352, false).
Proof.
  split; [|reflexivity].
  symmetry. apply (parse_field_denotes "hour" "9-17/4,20" 0 23 [] 1188352 false).
  - unfold standard. simpl. tauto.
  - reflexivity.
Defined.

(** [5/4294967295]: the counter goes 5, 4, 3, 2, 1, 0 and then past the end. *)
Lemma fill_walks_the_counter_witness :
  exists n, (n <= 60)%nat /\ 59 < counter 5 (2 ^ 32 - 1) n
    /\ (forall x, 0 <= x -> has (fill fill_fuel 5 59 (2 ^ 32 - 1) 0) x = has 0 x || existsb (fun i => counter 5 (2 ^ 32 - 1) i =? x) (seq 0 n))
    /\ fill fill_fuel 5 59 (2 ^ 32 - 1) 0 = 63.
Proof.
  destruct (fill_walks_the_counter 5 59 (2 ^ 32 - 1) 0 0 59) as (n & [Hn Hlt] & He & _ & Hf); [lia|lia|unfold item_ok, u32_max; lia|].
  exists n. split; [exact Hn|]. split; [exact He|]. split; [|reflexivity]. intros x Hx. apply Hf; lia.
Defined.

Lemma cron_from_str_wf_witness :
  match cron_from_str "0 0 * * 7" with Ok e => cron_wf e | Err _ => False end.
Proof. apply (cron_from_str_wf "0 0 * * 7"). reflexivity. Defined.

Lemma cron_serde_round_trip_witness :
  match cron_from_str "  @Daily " with
  | Ok e => cron_deserialize "@Daily" = Ok e
  | Err _ => False
  end.
Proof. exact (proj2 (cron_serde_round_trip "  @Daily " _ eq_refl)). Defined.

(** A step close to 2^32 makes the 32-bit counter wrap around: [5/4294967295]
    is accepted and names minutes 0 to 5 instead of minute 5 alone. *)
Example parse_field_step_wraps :
  parse_field "minute" "5/4294967295" 0 59 [] = Ok (63, false)
  /\ parse_part "minute" "5/4294967295" 0 59 [] "5/4294967295" = Ok (5, 59, 4294967295)
  /\ (forall x, 0 <= x < 60 -> names_value (5, 59, 4294967295) x = (x =? 5)).
Proof.
  split; [reflexivity|]. split; [reflexivity|]. intros x Hx.
  unfold names_value, in_range. destruct (Z.eqb_spec x 5) as [->|]; [reflexivity|].
  destruct (Z.leb_spec 5 x), (Z.leb_spec x 59); simpl; try done.
  rewrite Z.mod_small by lia. apply Z.eqb_neq. lia.
Qed.

(** Six fields are refused rather than read one field off. *)
Example six_fields : cron_from_str "0 30 2 * * *" = Err (LooksLikeSeconds "0 30 2 * * *").
Proof. reflexivity. Qed.

Example backwards : cron_from_str "0 17-9 * * *" =
  Err (BadField "hour" "17-9" (RunsBackwards 17 9)).
Proof. reflexivity. Qed.
