(* ===== verification/CronScan.v ===== *)
(** * Cron occurrences: what the day-by-day scan finds

    The refinement of [scan] to "the first matching minute that exists", in any
    zone; then, for a zone whose clock does not jump, that [next_after] and
    [prev_at_or_before] return the nearest matching minute; then what a repeated
    hour does to both. *)

From Stdlib Require Import ZArith Lia Ascii String List Bool Sorted.
From stdpp Require Import base list.
From S2P Require Import Prelude Text Time Cron.
Import ListNotations.

Open Scope string_scope.
Open Scope list_scope.
Open Scope Z_scope.

(** ** Candidates of a day *)

Definition hm_key (hm : Z * Z) : Z := fst hm * 60 + snd hm.

Definition sign (dir : Direction) : Z := match dir with Forward => 1 | Backward => -1 end.

(** [before dir x y]: the scan meets [x] before [y]. *)
Definition sooner (dir : Direction) (x y : Z) : Prop := sign dir * x < sign dir * y.

Lemma zseq_In x from n : In x (zseq from n) <-> from <= x < from + Z.of_nat n.
Proof.
  revert from. induction n as [|n IH]; intros from; simpl; [lia|]. rewrite IH. lia.
Qed.

Lemma zseq_sorted from n : StronglySorted Z.lt (zseq from n).
Proof.
  revert from. induction n as [|n IH]; intros from; simpl; constructor; [done|].
  apply List.Forall_forall. intros x Hx. apply zseq_In in Hx. lia.
Qed.

Lemma filter_sorted {A} (R : A -> A -> Prop) f l :
  StronglySorted R l -> StronglySorted R (List.filter f l).
Proof.
  induction 1 as [|x l Hl IH Hx]; simpl; [constructor|]. case_match; [|done].
  constructor; [done|]. apply List.Forall_forall. intros y Hy. apply filter_In in Hy as [Hy _].
  rewrite List.Forall_forall in Hx. by apply Hx.
Qed.

Lemma app_sorted {A} (R : A -> A -> Prop) l k :
  StronglySorted R l -> StronglySorted R k -> (forall x y, In x l -> In y k -> R x y) ->
  StronglySorted R (l ++ k).
Proof.
  intros Hl Hk H. induction Hl as [|x l Hl IH Hx]; simpl; [done|].
  constructor; [apply IH; intros; apply H; simpl; auto|].
  apply List.Forall_forall. intros y Hy. apply in_app_iff in Hy as [Hy|Hy].
  - rewrite List.Forall_forall in Hx. by apply Hx.
  - apply H; simpl; auto.
Qed.

Lemma rev_sorted {A} (R : A -> A -> Prop) l :
  StronglySorted R l -> StronglySorted (fun x y => R y x) (rev l).
Proof.
  induction 1 as [|x l Hl IH Hx]; simpl; [constructor|].
  apply app_sorted; [done|by repeat constructor|].
  intros y z Hy [<-|[]]. apply in_rev in Hy. rewrite List.Forall_forall in Hx. by apply Hx.
Qed.

Lemma sorted_impl {A} (R S : A -> A -> Prop) l :
  (forall x y, R x y -> S x y) -> StronglySorted R l -> StronglySorted S l.
Proof.
  intros HRS. induction 1 as [|x l Hl IH Hx]; constructor; [done|].
  eapply List.Forall_impl; [|exact Hx]. auto.
Qed.

(** The scanning order of the candidates. *)
Definition cand_order (dir : Direction) (a b : Z * Z) : Prop := sooner dir (hm_key a) (hm_key b).

Lemma grid_sorted hs ms :
  StronglySorted Z.lt hs -> StronglySorted Z.lt ms -> (forall m, In m ms -> 0 <= m < 60) ->
  StronglySorted (fun a b => hm_key a < hm_key b) (flat_map (fun h => map (fun m => (h, m)) ms) hs).
Proof.
  intros Hh Hm Hr. induction Hh as [|h hs Hh IH Hx]; simpl; [constructor|].
  apply app_sorted; [|done|].
  - clear Hr IH. induction Hm as [|m ms Hm IH Hx']; simpl; constructor; [done|].
    apply List.Forall_forall. intros p Hp. apply in_map_iff in Hp as (m' & <- & Hm').
    rewrite List.Forall_forall in Hx'. specialize (Hx' _ Hm'). unfold hm_key. simpl. lia.
  - intros x y Hx1 Hy. apply in_map_iff in Hx1 as (m & <- & Hm1).
    apply in_flat_map in Hy as (h' & Hh' & Hy). apply in_map_iff in Hy as (m' & <- & Hm2).
    rewrite List.Forall_forall in Hx. specialize (Hx _ Hh').
    apply Hr in Hm1, Hm2. unfold hm_key. simpl. lia.
Qed.

Section Scan.
Context `{Cal : Calendar}.
Variable e : CronExpression.

(** The times of day the expression names. *)
Definition time_matches (hm : Z * Z) : Prop :=
  0 <= fst hm < 24 /\ 0 <= snd hm < 60
  /\ has (c_hour e) (fst hm) = true /\ has (c_minute e) (snd hm) = true.

Lemma candidates_backward : candidates e Backward = rev (candidates e Forward).
Proof. unfold candidates. reflexivity. Qed.

Lemma candidates_In dir hm : In hm (candidates e dir) <-> time_matches hm.
Proof.
  assert (In hm (candidates e dir) <-> In hm (candidates e Forward)) as ->.
  { destruct dir; [done|]. unfold candidates. symmetry. apply in_rev. }
  destruct hm as [h m]. unfold candidates, time_matches. rewrite in_flat_map. simpl.
  setoid_rewrite in_map_iff. unfold hours_of, minutes_of.
  setoid_rewrite filter_In. setoid_rewrite zseq_In. split.
  - intros (h' & [Hh Hbh] & m' & [= <- <-] & Hm & Hbm). split_and!; done || lia.
  - intros (Hh & Hm & Hbh & Hbm). exists h. split; [split; [lia|done]|].
    exists m. split; [done|]. split; [lia|done].
Qed.

Lemma minutes_range m : In m (minutes_of e) -> 0 <= m < 60.
Proof. unfold minutes_of. intros [Hm _]%filter_In. apply zseq_In in Hm. lia. Qed.

Lemma minutes_sorted : StronglySorted Z.lt (minutes_of e).
Proof. unfold minutes_of. apply filter_sorted, zseq_sorted. Qed.

Lemma hours_sorted : StronglySorted Z.lt (hours_of e).
Proof. unfold hours_of. apply filter_sorted, zseq_sorted. Qed.

Lemma candidates_forward_sorted :
  StronglySorted (fun a b => hm_key a < hm_key b) (candidates e Forward).
Proof.
  unfold candidates.
  pose proof hours_sorted as Hh. pose proof minutes_sorted as Hm. pose proof minutes_range as Hr.
  revert Hh Hm Hr. generalize (hours_of e) (minutes_of e). intros hs ms. apply grid_sorted.
Qed.

Lemma candidates_sorted dir : StronglySorted (cand_order dir) (candidates e dir).
Proof.
  pose proof candidates_forward_sorted as H.
  destruct dir; [|rewrite candidates_backward; apply rev_sorted in H];
    revert H; generalize (candidates e Forward); intros l; apply sorted_impl;
    unfold cand_order, sooner, sign; lia.
Qed.

(** A bound cuts the candidates by their key. *)
Definition within (dir : Direction) (bound : option (Z * Z)) (hm : Z * Z) : Prop :=
  match bound with None => True | Some b => sign dir * hm_key b <= sign dir * hm_key hm end.

Definition bound_ok (bound : option (Z * Z)) : Prop :=
  match bound with None => True | Some b => 0 <= snd b < 60 end.

Lemma past_bound_within dir bound hm :
  bound_ok bound -> 0 <= snd hm < 60 -> past_bound dir bound hm = false <-> within dir bound hm.
Proof.
  destruct bound as [[bh bm]|]; [|done]. destruct hm as [h m]. unfold within, past_bound, hm_lt, hm_key.
  simpl. intros Hb Hm.
  destruct dir; simpl;
    [destruct (Z.ltb_spec h bh), (Z.eqb_spec h bh), (Z.ltb_spec m bm)
    |destruct (Z.ltb_spec bh h), (Z.eqb_spec bh h), (Z.ltb_spec bm m)];
    simpl; split; intros; done || lia.
Qed.

Definition at_time (d : Z) (hm : Z * Z) : NaiveDateTime := mk_ndt d (fst hm) (snd hm) 0 0.

Lemma scan_candidates_spec zone d bound dir l :
  bound_ok bound -> StronglySorted (cand_order dir) l -> (forall hm, In hm l -> 0 <= snd hm < 60) ->
  match scan_candidates zone d bound dir l with
  | Some i => exists hm, In hm l /\ within dir bound hm /\ resolve_in zone (at_time d hm) = Some i
      /\ forall hm', In hm' l -> within dir bound hm' -> sooner dir (hm_key hm') (hm_key hm) ->
          resolve_in zone (at_time d hm') = None
  | None => forall hm, In hm l -> within dir bound hm -> resolve_in zone (at_time d hm) = None
  end.
Proof.
  intros Hb Hs Hl. induction Hs as [|[h m] l Hs IH Hx]; simpl; [done|].
  assert (forall hm, In hm l -> 0 <= snd hm < 60) as Hl' by (intros; apply Hl; simpl; auto).
  specialize (IH Hl'). rewrite List.Forall_forall in Hx.
  pose proof (past_bound_within dir bound (h, m) Hb (Hl _ (or_introl eq_refl))) as Hp.
  destruct (past_bound dir bound (h, m)) eqn:E.
  - assert (~ within dir bound (h, m)) as Hnot by (rewrite <- Hp; done).
    destruct (scan_candidates _ _ _ _ _) as [i|].
    + destruct IH as (hm & H1 & H2 & H3 & H4). exists hm. split_and!; auto.
      intros hm' [<-|Hin] Hw; [done|by apply H4].
    + intros hm [<-|Hin] Hw; [done|by apply IH].
  - assert (within dir bound (h, m)) as Hw by (by apply Hp).
    change (mk_ndt d h m 0 0) with (at_time d (h, m)).
    destruct (resolve_in zone (at_time d (h, m))) as [i|] eqn:Er.
    + exists (h, m). split_and!; auto. intros hm' [<-|Hin] _ Hsoon.
      * unfold sooner in Hsoon. lia.
      * specialize (Hx _ Hin). unfold cand_order, sooner in *. lia.
    + destruct (scan_candidates _ _ _ _ _) as [i|].
      * destruct IH as (hm & H1 & H2 & H3 & H4). exists hm. split_and!; auto.
        intros hm' [<-|Hin] Hw' Hso; [done|by apply H4].
      * intros hm [<-|Hin] Hw'; [done|by apply IH].
Qed.

Lemma scan_within_day_spec zone d bound dir :
  bound_ok bound ->
  match scan_within_day e zone d bound dir with
  | Some i => exists hm, time_matches hm /\ within dir bound hm
      /\ resolve_in zone (at_time d hm) = Some i
      /\ forall hm', time_matches hm' -> within dir bound hm' ->
          sooner dir (hm_key hm') (hm_key hm) -> resolve_in zone (at_time d hm') = None
  | None => forall hm, time_matches hm -> within dir bound hm ->
      resolve_in zone (at_time d hm) = None
  end.
Proof.
  intros Hb. pose proof (scan_candidates_spec zone d bound dir (candidates e dir) Hb
    (candidates_sorted dir)) as H. unfold scan_within_day.
  assert (forall hm, In hm (candidates e dir) -> 0 <= snd hm < 60) as Hr.
  { intros hm Hin. apply candidates_In in Hin. apply Hin. }
  specialize (H Hr). destruct (scan_candidates _ _ _ _ _) as [i|].
  - destruct H as (hm & Hin & Hw & Hi & Hmin). exists hm. rewrite <- (candidates_In dir).
    split_and!; try done. intros hm' Ht. apply Hmin. by apply candidates_In.
  - intros hm Ht. apply H. by apply candidates_In.
Qed.

(** ** Days *)

(** How many days into the scan a date is. *)
Definition dist (dir : Direction) (d d' : Z) : Z := sign dir * (d' - d).

Definition next_date (dir : Direction) (d : Z) : option Z :=
  match dir with Forward => succ_opt d | Backward => pred_opt d end.

(** A wall-clock minute the expression names, within the days scanned from [d]. *)
Definition reachable (dir : Direction) (d : Z) (bound : option (Z * Z)) (y : NaiveDateTime) : Prop :=
  matches e y = true /\ ndt_valid y /\ y = floor_minute y /\ 0 <= dist dir d (date y)
  /\ date_min <= date y <= date_max
  /\ (date y = d -> within dir bound (hour y, minute y)).

Lemma reachable_time dir d bound y :
  reachable dir d bound y ->
  time_matches (hour y, minute y) /\ day_matches e (date y) = true
  /\ y = at_time (date y) (hour y, minute y).
Proof.
  intros (Hm & Hv & He & _). unfold matches in Hm. bools. unfold ndt_valid in Hv.
  split; [unfold time_matches; simpl; naive_solver|]. split; [done|]. by rewrite He at 1.
Qed.

Lemma reachable_next dir d d' bound y :
  next_date dir d = Some d' -> reachable dir d bound y -> date y <> d -> reachable dir d' None y.
Proof.
  intros Hd (Hm & Hv & He & Hdist & Hr & _) Hne. unfold reachable. split_and!; try done; try lia.
  unfold dist in *. destruct dir; simpl in *; unfold succ_opt, pred_opt in Hd;
    repeat case_match; simplify_eq; bools; lia.
Qed.

Lemma next_date_None dir d y :
  next_date dir d = None -> 0 <= dist dir d (date y) -> date_min <= date y <= date_max ->
  date y = d.
Proof.
  unfold dist. destruct dir; simpl; unfold succ_opt, pred_opt; case_match; bools; done || lia.
Qed.

Lemma minute_index_time y : minute_index y = date y * 1440 + hm_key (hour y, minute y).
Proof. unfold minute_index, hm_key. simpl. lia. Qed.

Lemma hm_key_range hm : time_matches hm -> 0 <= hm_key hm < 1440.
Proof. unfold time_matches, hm_key. lia. Qed.

Lemma scan_days_spec zone dir n : forall d bound,
  bound_ok bound -> date_min <= d <= date_max ->
  match scan_days e zone n d bound dir with
  | Some i => exists x, reachable dir d bound x /\ resolve_in zone x = Some i
      /\ dist dir d (date x) < Z.of_nat n
      /\ forall y, reachable dir d bound y -> sooner dir (minute_index y) (minute_index x) ->
          resolve_in zone y = None
  | None => forall y, reachable dir d bound y -> dist dir d (date y) < Z.of_nat n ->
      resolve_in zone y = None
  end.
Proof.
  induction n as [|n IH]; intros d bound Hb Hd; cbn [scan_days].
  { intros y (_ & _ & _ & Hy & _) Hlt. lia. }
  (* the first day *)
  assert (match (if day_matches e d then scan_within_day e zone d bound dir else None) with
    | Some i => exists x, date x = d /\ reachable dir d bound x /\ resolve_in zone x = Some i
        /\ forall y, reachable dir d bound y -> date y = d ->
            sooner dir (minute_index y) (minute_index x) -> resolve_in zone y = None
    | None => forall y, reachable dir d bound y -> date y = d -> resolve_in zone y = None
    end) as Hday.
  { destruct (day_matches e d) eqn:Ed.
    - pose proof (scan_within_day_spec zone d bound dir Hb) as Hs.
      destruct (scan_within_day e zone d bound dir) as [i|].
      + destruct Hs as (hm & Ht & Hw & Hr & Hmin). exists (at_time d hm).
        split; [done|]. split.
        { unfold reachable, matches. simpl. destruct Ht as (Hh & Hm & -> & ->). rewrite Ed.
          unfold ndt_valid, ns_per_sec, dist.
          split_and!; cbn [date hour minute second nanosecond at_time];
            first [done|lia|by destruct hm]. }
        split; [done|]. intros y Hy Hyd Hso.
        destruct (reachable_time _ _ _ _ Hy) as (Hty & _ & Heq). rewrite Heq, Hyd.
        apply Hmin; [done|by apply Hy|].
        rewrite !minute_index_time in Hso. simpl in Hso. rewrite Hyd in Hso.
        destruct hm; unfold sooner in *; simpl in *. lia.
      + intros y Hy Hyd. destruct (reachable_time _ _ _ _ Hy) as (Hty & _ & Heq).
        rewrite Heq, Hyd. apply Hs; [done|by apply Hy].
    - intros y Hy Hyd. destruct (reachable_time _ _ _ _ Hy) as (_ & Hdm & _). congruence. }
  destruct (if day_matches e d then _ else None) as [i|] eqn:Efound.
  { destruct Hday as (x & Hxd & Hx & Hr & Hmin). exists x. split_and!; try done.
    { unfold dist. lia. }
    intros y Hy Hso. destruct (Z.eq_dec (date y) d) as [Hyd|Hne]; [by apply Hmin|].
    destruct (reachable_time _ _ _ _ Hy) as (Hty & _ & _).
    destruct (reachable_time _ _ _ _ Hx) as (Htx & _ & _).
    apply hm_key_range in Hty, Htx. rewrite !minute_index_time in Hso.
    destruct Hy as (_ & _ & _ & Hdist & _). unfold sooner, dist in *. destruct dir; cbn [sign] in *; lia. }
  fold (next_date dir d). destruct (next_date dir d) as [d'|] eqn:En.
  - assert (date_min <= d' <= date_max /\ dist dir d d' = 1) as (Hd' & Hstep).
    { unfold dist. destruct dir; simpl in *; unfold succ_opt, pred_opt in En;
        repeat case_match; simplify_eq; bools; lia. }
    specialize (IH d' None I Hd'). destruct (scan_days e zone n d' None dir) as [i|].
    + destruct IH as (x & Hx & Hr & Hdist & Hmin). exists x.
      assert (reachable dir d bound x) as Hx'.
      { destruct Hx as (A & B & C & D & F & _). unfold reachable. split_and!; try done; try lia.
        - unfold dist in *. destruct dir; cbn [sign] in *; lia.
        - intros Hxd. unfold dist in *. destruct dir; cbn [sign] in *; lia. }
      split_and!; [done|done|unfold dist in *; destruct dir; cbn [sign] in *; lia|].
      intros y Hy Hso. destruct (Z.eq_dec (date y) d) as [Hyd|Hne]; [by apply Hday|].
      apply Hmin; [|done]. by eapply reachable_next.
    + intros y Hy Hlt. destruct (Z.eq_dec (date y) d) as [Hyd|Hne]; [by apply Hday|].
      apply IH; [by eapply reachable_next|]. unfold dist in *. destruct dir; cbn [sign] in *; lia.
  - intros y Hy Hlt. apply Hday; [done|]. destruct Hy as (_ & _ & _ & Hdist & Hr & _).
    by eapply next_date_None.
Qed.
End Scan.

(** ** The scan, against wall-clock order *)

Section Window.
Context `{Cal : Calendar}.
Variable e : CronExpression.

Definition in_dates (y : NaiveDateTime) : Prop := date_min <= date y <= date_max.

(** A minute at or after [start], in the direction of the scan. *)
Definition from_start (dir : Direction) (start y : NaiveDateTime) : Prop :=
  sign dir * minute_index start <= sign dir * minute_index y.

Lemma reachable_iff dir start y :
  ndt_valid start ->
  reachable e dir (date start) (Some (hour start, minute start)) y <->
  matches e y = true /\ ndt_valid y /\ y = floor_minute y /\ in_dates y /\ from_start dir start y.
Proof.
  intros (Hh & Hm & _). unfold reachable, in_dates, from_start, within, dist.
  rewrite !minute_index_time. split.
  - intros (A & B & C & D & F & G). do 4 (split; [done|]).
    destruct (Z.eq_dec (date y) (date start)) as [E|E]; [specialize (G E)|clear G];
      destruct B as (B1 & B2 & _); unfold hm_key in *; cbn [fst snd] in *;
      destruct dir; cbn [sign] in *; lia.
  - intros (A & B & C & D & G). do 3 (split; [done|]). split; [|split; [done|]].
    + destruct B as (B1 & B2 & _). unfold hm_key in *. cbn [fst snd] in *.
      destruct dir; cbn [sign] in *; lia.
    + intros E. rewrite E in G. lia.
Qed.
End Window.

(** C26: in any zone, gaps and repeats included, the scan returns the instant of the
    first matching wall-clock minute (from [start], in its direction) that exists:
    every matching minute met sooner falls in a gap, and when the scan gives up,
    so does every matching minute of its 1600 days. *)
Theorem scan_finds_first `{Cal : Calendar} e zone start dir :
  ndt_valid start -> in_dates start ->
  match scan e zone start dir with
  | Some i => exists x,
      matches e x = true /\ ndt_valid x /\ x = floor_minute x /\ in_dates x
      /\ from_start dir start x /\ resolve_in zone x = Some i
      /\ forall y, matches e y = true -> ndt_valid y -> y = floor_minute y -> in_dates y ->
          from_start dir start y -> sooner dir (minute_index y) (minute_index x) ->
          resolve_in zone y = None
  | None => forall y, matches e y = true -> ndt_valid y -> y = floor_minute y -> in_dates y ->
      from_start dir start y -> Z.abs (date y - date start) < 1600 ->
      resolve_in zone y = None
  end.
Proof.
  intros Hv Hd. unfold scan.
  pose proof (scan_days_spec e zone dir MAX_SCAN_DAYS (date start)
    (Some (hour start, minute start))) as H.
  destruct (scan_days _ _ _ _ _ _) as [i|].
  - destruct H as (x & Hx & Hi & _ & Hmin); [simpl; apply Hv|done|].
    apply reachable_iff in Hx as (A & B & C & D & F); [|done].
    exists x. split_and!; try done. intros y H1 H2 H3 H4 H5. apply Hmin. by apply reachable_iff.
  - intros y H1 H2 H3 H4 H5 Hlt.
    assert (reachable e dir (date start) (Some (hour start, minute start)) y) as Hy
      by (by apply reachable_iff).
    apply H; [simpl; apply Hv|done|done|].
    change (Z.of_nat MAX_SCAN_DAYS) with 1600. unfold dist. destruct dir; cbn [sign]; lia.
Qed.

(** ** Zones whose clock does not jump *)

Section Fixed.
Context `{Cal : Calendar} {zone : TimeZone} {off : Z} `{Fix : !FixedOffset zone off}.

Definition wall (j : Z) : NaiveDateTime := wall_clock_in zone j.

Lemma wall_eq j : wall j = ndt_of_ns (j + off).
Proof. apply fixed_naive. Qed.

Lemma wall_valid j : ndt_valid (wall j).
Proof. rewrite wall_eq. apply ndt_of_ns_valid. Qed.

Lemma resolve_fixed x : ndt_valid x -> resolve_in zone x = Some (ndt_ns x - off).
Proof. intros Hx. unfold resolve_in. by rewrite fixed_from. Qed.

Lemma wall_resolved x : ndt_valid x -> wall (ndt_ns x - off) = x.
Proof. intros Hx. rewrite wall_eq. replace (ndt_ns x - off + off) with (ndt_ns x) by lia. by apply ndt_of_ns_ns. Qed.

Lemma floor_wall_valid j : ndt_valid (floor_minute (wall j)).
Proof. apply floor_minute_valid, wall_valid. Qed.

(** Order of minutes against order of instants. *)
Lemma wall_minute_lt j x :
  ndt_valid x -> x = floor_minute x ->
  minute_index (wall j) < minute_index x <-> j < ndt_ns x - off.
Proof.
  intros Hx He. rewrite wall_eq, minute_index_of_ns. rewrite He at 2. rewrite floor_minute_ns.
  pose proof ns_per_sec_pos. split.
  - intros Hlt. assert (j + off < minute_index x * (60 * ns_per_sec)); [|lia].
    pose proof (Z.mul_succ_div_gt (j + off) (60 * ns_per_sec) ltac:(lia)). nia.
  - intros Hlt. apply Z.div_lt_upper_bound; lia.
Qed.

Lemma wall_minute_mono i j : i <= j -> minute_index (wall i) <= minute_index (wall j).
Proof.
  intros H. rewrite !wall_eq, !minute_index_of_ns. apply Z.div_le_mono; [|lia].
  unfold ns_per_sec. lia.
Qed.

(** Where the clock does not jump (UTC, and local time without daylight
    saving), [next_after] is the first matching minute strictly after the given
    instant: it is later, it matches, it is a whole minute, and no minute
    between matches.  [None] means that none of the 1600 days scanned holds one;
    the only failure is a start past the last representable date. *)
Theorem next_after_nearest e after :
  in_dates (wall after) ->
  match next_after_in e zone after with
  | Val (Some i) =>
      after < i /\ matches e (wall i) = true /\ wall i = floor_minute (wall i)
      /\ forall j, minute_index (wall after) < minute_index (wall j) -> j < i ->
          matches e (wall j) = false
  | Val None =>
      forall j, minute_index (wall after) < minute_index (wall j) ->
        date (wall j) < date (wall after) + 1600 -> date (wall j) <= date_max ->
        matches e (wall j) = false
  | Panic => date_max < date (ndt_of_ns (ndt_ns (floor_minute (wall after)) + minutes 1))
  end.
Proof.
  intros Hd. unfold next_after_in. fold (wall after).
  destruct (plus_minute (floor_minute (wall after))) as [start|] eqn:Hp.
  2:{ unfold plus_minute in Hp. case_match eqn:E; [done|]. by bools. }
  pose proof (plus_minute_index _ _ (floor_wall_valid after) Hp) as Hidx.
  rewrite floor_minute_index in Hidx. pose proof (wall_valid after) as Hwv.
  apply plus_minute_Val in Hp as (Hv & _ & Hmax).
  assert (date (wall after) <= date start) as Hdate.
  { destruct Hwv as (? & ? & _), Hv as (? & ? & _). unfold minute_index in Hidx. lia. }
  assert (in_dates start) as Hds by (unfold in_dates in *; lia).
  pose proof (scan_finds_first e zone start Forward Hv Hds) as Hs.
  unfold from_start, sooner in Hs. cbn [sign] in Hs.
  destruct (scan e zone start Forward) as [i|].
  - destruct Hs as (x & Hm & Hxv & Hxf & Hxd & Hge & Hr & Hmin).
    rewrite resolve_fixed in Hr by done. injection Hr as <-. rewrite wall_resolved by done.
    split; [apply wall_minute_lt; [done|done|lia]|]. split; [done|]. split; [done|].
    intros j Hj Hlt. apply wall_minute_lt in Hlt; [|done|done].
    destruct (matches e (wall j)) eqn:E; [|done].
    pose proof (wall_valid j) as Hjv.
    assert (in_dates (floor_minute (wall j))) as Hdj.
    { destruct Hwv as (? & ? & _), Hjv as (? & ? & _), Hxv as (? & ? & _), Hv as (? & ? & _).
      unfold in_dates, minute_index in *. simpl. lia. }
    specialize (Hmin (floor_minute (wall j)) E (floor_wall_valid j) eq_refl Hdj).
    rewrite floor_minute_index in Hmin. rewrite resolve_fixed in Hmin by apply floor_wall_valid.
    discriminate Hmin; lia.
  - intros j Hj Hlt Hjmax. destruct (matches e (wall j)) eqn:E; [|done].
    pose proof (wall_valid j) as Hjv.
    assert (date start <= date (wall j)) as Hsj.
    { destruct Hjv as (? & ? & _), Hv as (? & ? & _). unfold minute_index in *. lia. }
    assert (in_dates (floor_minute (wall j))) as Hdj by (unfold in_dates in *; simpl; lia).
    specialize (Hs (floor_minute (wall j)) E (floor_wall_valid j) eq_refl Hdj).
    rewrite floor_minute_index in Hs. rewrite resolve_fixed in Hs by apply floor_wall_valid.
    discriminate Hs; simpl; lia.
Qed.

Lemma prev_at_or_before_spec e at_ :
  in_dates (wall at_) ->
  match prev_at_or_before_in e zone at_ with
  | Some i =>
      i <= at_ /\ matches e (wall i) = true /\ wall i = floor_minute (wall i)
      /\ forall j, minute_index (wall i) < minute_index (wall j) -> j <= at_ ->
          matches e (wall j) = false
  | None =>
      forall j, j <= at_ -> date (wall at_) - 1600 < date (wall j) -> date_min <= date (wall j) ->
        matches e (wall j) = false
  end.
Proof.
  intros Hd. unfold prev_at_or_before_in. fold (wall at_).
  set (start := floor_minute (wall at_)).
  assert (ndt_valid start) as Hv by apply floor_wall_valid.
  assert (in_dates start) as Hds by done.
  assert (minute_index start = minute_index (wall at_)) as Hidx by done.
  pose proof (scan_finds_first e zone start Backward Hv Hds) as Hs.
  unfold from_start, sooner in Hs. cbn [sign] in Hs.
  destruct (scan e zone start Backward) as [i|].
  - destruct Hs as (x & Hm & Hxv & Hxf & Hxd & Hge & Hr & Hmin).
    rewrite resolve_fixed in Hr by done. injection Hr as <-. rewrite wall_resolved by done.
    assert (~ at_ < ndt_ns x - off) as Hat.
    { intros Hlt. apply wall_minute_lt in Hlt; [|done|done]. lia. }
    split; [lia|]. split; [done|]. split; [done|].
    intros j Hj Hle. apply wall_minute_mono in Hle.
    destruct (matches e (wall j)) eqn:E; [|done]. pose proof (wall_valid j) as Hjv.
    assert (in_dates (floor_minute (wall j))) as Hdj.
    { pose proof (wall_valid at_) as (? & ? & _). destruct Hjv as (? & ? & _), Hxv as (? & ? & _).
      unfold in_dates, start, minute_index in *. simpl in *. lia. }
    specialize (Hmin (floor_minute (wall j)) E (floor_wall_valid j) eq_refl Hdj).
    rewrite floor_minute_index in Hmin. rewrite resolve_fixed in Hmin by apply floor_wall_valid.
    discriminate Hmin; lia.
  - intros j Hle Hlt Hjmin. apply wall_minute_mono in Hle.
    destruct (matches e (wall j)) eqn:E; [|done]. pose proof (wall_valid j) as Hjv.
    assert (date (wall j) <= date start) as Hsj.
    { destruct Hjv as (? & ? & _), Hv as (? & ? & _). unfold minute_index in *. lia. }
    assert (in_dates (floor_minute (wall j))) as Hdj by (unfold in_dates in *; simpl; lia).
    specialize (Hs (floor_minute (wall j)) E (floor_wall_valid j) eq_refl Hdj).
    rewrite floor_minute_index in Hs. rewrite resolve_fixed in Hs by apply floor_wall_valid.
    discriminate Hs; subst start; simpl in *; lia.
Qed.

(** Likewise [prev_at_or_before] is the most recent matching minute at or
    before the given instant — the question "did we miss a run" asks. *)
Theorem prev_at_or_before_nearest e at_ :
  in_dates (wall at_) ->
  match prev_at_or_before_in e zone at_ with
  | Some i =>
      i <= at_ /\ matches e (wall i) = true /\ wall i = floor_minute (wall i)
      /\ forall j, minute_index (wall i) < minute_index (wall j) -> j <= at_ ->
          matches e (wall j) = false
  | None =>
      forall j, j <= at_ -> date (wall at_) - 1600 < date (wall j) -> date_min <= date (wall j) ->
        matches e (wall j) = false
  end.
Proof. apply prev_at_or_before_spec. Qed.
End Fixed.

(** ** A repeated hour *)

(** A zone that falls back by one hour at [fall_back]: one hour ahead of UTC
    before it, at UTC after it. *)
Definition one_hour : Z := secs 3600.
Definition fall_back : Z := days 20000 + one_hour.

Definition autumn_zone : TimeZone := {|
  naive_local := fun t =>
    ndt_of_ns (t + days unix_epoch_day + (if t <? fall_back then one_hour else 0));
  from_local_datetime := fun n =>
    let w := ndt_ns n - days unix_epoch_day in
    if w <? fall_back then Single (w - one_hour)
    else if w <? fall_back + one_hour then Ambiguous (w - one_hour) w
    else Single w |}.

(** A zone's two directions agree: an instant is among the readings of its wall clock. *)
Definition zone_coherent (zone : TimeZone) : Prop :=
  forall t, match @from_local_datetime zone (@naive_local zone t) with
    | Single u => u = t
    | Ambiguous a b => t = a \/ t = b
    | LNone => False
    end.

Lemma autumn_zone_coherent : zone_coherent autumn_zone.
Proof.
  intros t. cbn [naive_local from_local_datetime autumn_zone]. rewrite ndt_ns_of_ns.
  assert (0 < one_hour) by (unfold one_hour, secs, ns_per_sec; lia).
  destruct (Z.ltb_spec t fall_back);
    match goal with |- context [?w <? fall_back] => destruct (Z.ltb_spec w fall_back) end; try lia;
    match goal with |- context [?w <? _] => destruct (Z.ltb_spec w (fall_back + one_hour)) end; lia.
Qed.

(** A parsed expression, or one that never matches. *)
Definition parsed (s : string) : CronExpression :=
  match cron_from_str s with Ok e => e | Err _ => mk_cron 0 0 0 0 0 false false "" end.

(** In a repeated hour neither answer is the nearest one, because an ambiguous
    wall clock is always read as its first pass.  Ten minutes into the second
    pass, [next_after] of an hourly expression returns an instant twenty minutes
    in the past of its argument plus twenty, and [prev_at_or_before] returns an
    instant of the day before although the expression matched 20 minutes ago. *)
Theorem repeated_hour_is_not_nearest :
  zone_coherent autumn_zone
  /\ next_after_in (parsed "30 * * * *") autumn_zone (fall_back + minutes 10)
     = Val (Some (fall_back - minutes 30))
  /\ prev_at_or_before_in (parsed "50 1 * * *") autumn_zone (fall_back + minutes 10)
     = Some (fall_back - minutes (24 * 60 + 10))
  /\ matches (parsed "50 1 * * *") (wall_clock_in autumn_zone (fall_back - minutes 10)) = true.
Proof. split; [apply autumn_zone_coherent|]. split_and!; vm_compute; reflexivity. Qed.

(** ** Witnesses *)

(** 2024-10-04 00:00 UTC. *)
Definition noon_ish : Z := days 20000.

Lemma utc_in_dates t :
  -1000000 <= (t + days unix_epoch_day) / days 1 <= 1000000 -> in_dates (wall (zone := utc_zone) t).
Proof.
  intros H. assert (date (wall (zone := utc_zone) t) = (t + days unix_epoch_day) / days 1) as E.
  { rewrite (wall_eq (off := days unix_epoch_day)). unfold ndt_of_ns, days, secs, ns_per_sec.
    cbn [date]. generalize (t + unix_epoch_day * 86400 * 1000000000). intros z. divlia. }
  unfold in_dates. rewrite E. cbn [date_min date_max gregorian]. lia.
Qed.

Lemma noon_in_dates : in_dates (wall (zone := utc_zone) noon_ish).
Proof. apply utc_in_dates. by vm_compute. Qed.

Lemma later_in_dates : in_dates (wall (zone := utc_zone) (noon_ish + minutes 20)).
Proof. apply utc_in_dates. by vm_compute. Qed.

Lemma scan_finds_first_witness :
  scan (parsed "30 2 * * 1") utc_zone (wall (zone := utc_zone) noon_ish) Forward
    = Some (noon_ish + days 3 + minutes 150)
  /\ exists x, matches (parsed "30 2 * * 1") x = true
      /\ resolve_in utc_zone x = Some (noon_ish + days 3 + minutes 150).
Proof.
  split; [vm_compute; reflexivity|].
  pose proof (scan_finds_first (parsed "30 2 * * 1") utc_zone (wall (zone := utc_zone) noon_ish)
    Forward (wall_valid noon_ish) noon_in_dates) as H.
  assert (scan (parsed "30 2 * * 1") utc_zone (wall (zone := utc_zone) noon_ish) Forward
    = Some (noon_ish + days 3 + minutes 150)) as E by (vm_compute; reflexivity).
  rewrite E in H. destruct H as (x & Hm & _ & _ & _ & _ & Hr & _). exists x. exact (conj Hm Hr).
Defined.

Lemma next_after_nearest_witness :
  next_after_in (parsed "0 0 29 2 *") utc_zone noon_ish = Val (Some (noon_ish + days 1243))
  /\ noon_ish < noon_ish + days 1243.
Proof.
  assert (next_after_in (parsed "0 0 29 2 *") utc_zone noon_ish
    = Val (Some (noon_ish + days 1243))) as E by (vm_compute; reflexivity).
  split; [exact E|].
  pose proof (next_after_nearest (zone := utc_zone) (parsed "0 0 29 2 *") noon_ish noon_in_dates) as H.
  rewrite E in H. exact (proj1 H).
Defined.

Lemma prev_at_or_before_nearest_witness :
  prev_at_or_before_in (parsed "*/15 * * * *") utc_zone (noon_ish + minutes 20)
    = Some (noon_ish + minutes 15)
  /\ noon_ish + minutes 15 <= noon_ish + minutes 20.
Proof.
  assert (prev_at_or_before_in (parsed "*/15 * * * *") utc_zone (noon_ish + minutes 20)
    = Some (noon_ish + minutes 15)) as E by (vm_compute; reflexivity).
  split; [exact E|].
  pose proof (prev_at_or_before_nearest (zone := utc_zone) (parsed "*/15 * * * *")
    (noon_ish + minutes 20) later_in_dates) as H.
  rewrite E in H. exact (proj1 H).
Defined.
