(* ===== verification/PipelineRun.v ===== *)
(** * PipelineRun: running a saved chain as one job ([run_pipeline] of engine/src/ops.rs)

    The chain is checked, every backup is resolved against its source and every
    masking step planned before the first step runs; then the steps are walked,
    each one handed what the most recent producer left in [Flow].  The
    operations the steps call are the interface [Ops.Operations]. *)

From Stdlib Require Import ZArith Lia Ascii String List Bool.
From stdpp Require Import base list gmap strings.
From S2P Require Import Prelude Text Domain Retention Backup Restore Verify Mask Plan Job Step Pipeline Ops.
Import ListNotations.

Open Scope string_scope.
Open Scope list_scope.
Open Scope Z_scope.

Record PipelineRunRequest := mk_run_request {
  typed_confirmations : list string;
  default_output_dir : string }.

Record PipelineOutcome := mk_outcome {
  po_artifacts : list string;
  po_databases : list string;
  po_verification : option VerificationReport;
  po_masking : option MaskingReport;
  po_offsite : list PushResult;
  po_removed_artifacts : list string }.

Definition no_outcome : PipelineOutcome := mk_outcome [] [] None None [] [].

(** [is_none_or(passed)]. *)
Definition none_or_passed (r : option VerificationReport) : bool :=
  match r with Some r => passed r | None => true end.

Definition fully_succeeded (o : PipelineOutcome) : bool :=
  none_or_passed (po_verification o) && forallb push_succeeded (po_offsite o).

(** [RunState]: what the steps so far have produced, with the outcome and the
    confirmations not yet used. *)
Record Flow := mk_flow {
  artifact : option string;
  flow_dir : option string;
  flow_backup : option BackupRequest;
  source : option ConnectionProfile;
  target : option string;
  dest : option ConnectionProfile;
  flow_coverage : option MaskingCoverage;
  outcome : PipelineOutcome;
  confirmations : list string }.

Definition start_flow (r : PipelineRunRequest) : Flow :=
  mk_flow None None None None None None None no_outcome (typed_confirmations r).

Definition after_backup (f : Flow) (src : ConnectionProfile) (r : BackupRequest) (file : string) : Flow :=
  let o := outcome f in
  mk_flow (Some file) (Some (output_dir (common r))) (Some r) (Some src) (target f) (dest f) (flow_coverage f)
    (mk_outcome (po_artifacts o ++ [file]) (po_databases o) (po_verification o) (po_masking o) (po_offsite o)
       (po_removed_artifacts o)) (confirmations f).

(** A destructive restore has used up one confirmation. *)
Definition after_restore (f : Flow) (d : ConnectionProfile) (db : string) (rest : list string) : Flow :=
  let o := outcome f in
  mk_flow (artifact f) (flow_dir f) (flow_backup f) (source f) (Some db) (Some d) (flow_coverage f)
    (mk_outcome (po_artifacts o) (po_databases o ++ [db]) (po_verification o) (po_masking o) (po_offsite o)
       (po_removed_artifacts o)) rest.

Definition after_mask (f : Flow) (c : MaskingCoverage) (r : MaskingReport) : Flow :=
  let o := outcome f in
  mk_flow (artifact f) (flow_dir f) (flow_backup f) (source f) (target f) (dest f) (Some c)
    (mk_outcome (po_artifacts o) (po_databases o) (po_verification o) (Some r) (po_offsite o)
       (po_removed_artifacts o)) (confirmations f).

Definition with_outcome (f : Flow) (o : PipelineOutcome) : Flow :=
  mk_flow (artifact f) (flow_dir f) (flow_backup f) (source f) (target f) (dest f) (flow_coverage f) o
    (confirmations f).

Definition after_verify (f : Flow) (r : VerificationReport) : Flow :=
  let o := outcome f in
  with_outcome f (mk_outcome (po_artifacts o) (po_databases o) (Some r) (po_masking o) (po_offsite o)
    (po_removed_artifacts o)).

Definition after_push (f : Flow) (l : list PushResult) : Flow :=
  let o := outcome f in
  with_outcome f (mk_outcome (po_artifacts o) (po_databases o) (po_verification o) (po_masking o) l
    (po_removed_artifacts o)).

Definition after_prune (f : Flow) (l : list string) : Flow :=
  let o := outcome f in
  with_outcome f (mk_outcome (po_artifacts o) (po_databases o) (po_verification o) (po_masking o) (po_offsite o)
    (po_removed_artifacts o ++ l)).

(** A drill's report counts only when there is none yet. *)
Definition after_drill (f : Flow) (r : VerificationReport) : Flow :=
  match po_verification (outcome f) with Some _ => f | None => after_verify f r end.

Section Run.
Context {W : Type} `{Operations W}.

Definition find_op (profiles : list ConnectionProfile) (id : Uuid) : Op W ConnectionProfile :=
  lift (ok_or (find_profile profiles id) (OpStore (ProfileNotFound id))).

Fixpoint warn_all (p : JobPhase) (l : list string) : Op W unit :=
  match l with
  | [] => ret tt
  | m :: l' => let* _ := emit_warning p m in warn_all p l'
  end.

(** [resolve_selections]: the table list comes from the source. *)
Definition resolve_now (profile : ConnectionProfile) (database : string) (saved : list TableSelection)
    : Op W (list TableSelection) :=
  let* tables := invoke (list_tables profile database) in
  let '(expanded, warnings) := resolve_selections saved tables in
  let* _ := warn_all Introspect warnings in
  ret expanded.

(** The selections a backup step starts from. *)
Definition saved_selections (n : Z) (b : BackupStep) : Op W (list TableSelection) :=
  match bs_plan_id b with
  | None => ret (bs_selections b)
  | Some id =>
      let* found := invoke (get_sync_plan id) in
      let* plan := lift (ok_or found (OpStore (SyncPlanNotFound id))) in
      if String.eqb (sp_database plan) (bs_database b) then ret (sp_selections plan)
      else fail (OpPipeline (TableSetMovedOn n (sp_name plan) (bs_database b) (sp_database plan)))
  end.

Definition resolve_backup (profiles : list ConnectionProfile) (r : PipelineRunRequest) (i : nat)
    (b : BackupStep) : Op W BackupRequest :=
  let* src := find_op profiles (bs_profile_id b) in
  let* saved := saved_selections (Z.of_nat i + 1) b in
  let* selections := resolve_now src (bs_database b) saved in
  ret (mk_backup
         (mk_common (bs_database b) selections (default (default_output_dir r) (bs_output_dir b))
            (bs_compress b) (bs_encrypt b) (bs_record_row_counts b))
         (bs_engine b)).

(** [BTreeMap<usize, BackupRequest>], in key order. *)
Fixpoint resolve_all (profiles : list ConnectionProfile) (r : PipelineRunRequest) (i : nat)
    (steps : list PipelineStep) : Op W (list (nat * BackupRequest)) :=
  match steps with
  | [] => ret []
  | PBackup b :: rest =>
      let* request := resolve_backup profiles r i b in
      let* others := resolve_all profiles r (S i) rest in
      ret ((i, request) :: others)
  | _ :: rest => resolve_all profiles r (S i) rest
  end.

(** ** Planning the masks *)

Definition count_text (n : nat) : string := show (Z.of_nat n).

Fixpoint warn_inert (l : list InertRule) : Op W unit :=
  match l with
  | [] => ret tt
  | i :: l' =>
      let* _ := emit_warning Initializing
                  ("masking rule for " ++ rule_table (inert_rule i) ++ "." ++ rule_column (inert_rule i)
                   ++ " will not run: " ++ reason i)%string in
      warn_inert l'
  end.

Definition plan_masking_for (src : ConnectionProfile) (database : string) (rules : list MaskRule)
    (selections : list TableSelection) : Op W (option MaskingCoverage) :=
  match rules with
  | [] => ret None
  | _ =>
      let data := names_with SchemaAndData selections in
      let wanted := btree_set (List.filter (fun t => mem t data) (map rule_table rules)) in
      let* _ := emit_info Initializing
                  ("checking " ++ count_text (length rules) ++ " masking rule(s) against the source schema")%string in
      let* columns := invoke (source_columns src database wanted) in
      let* coverage := lift (map_err (plan_coverage (profile_engine src) data columns rules) OpMask) in
      let* _ := warn_inert (inert coverage) in
      if coverage_is_empty coverage then
        let* _ := emit_warning Initializing
                    "no masking rule matches a table in this plan; nothing will be masked" in
        ret None
      else
        let* _ := emit_info Initializing
                    ("will mask " ++ count_text (length (effective coverage)) ++ " column(s) across "
                     ++ count_text (length (coverage_tables coverage)) ++ " table(s) after the restore. "
                     ++ "The backup artifact itself is NOT masked")%string in
        ret (Some coverage)
  end.

(** [resolved.range(..i).next_back()]. *)
Definition backup_before (resolved : list (nat * BackupRequest)) (i : nat) : option (nat * BackupRequest) :=
  last (List.filter (fun e => Nat.ltb e.1 i) resolved).

(** [BTreeMap<usize, Option<MaskingCoverage>>], in key order. *)
Fixpoint cover_all (profiles : list ConnectionProfile) (steps : list PipelineStep)
    (resolved : list (nat * BackupRequest)) (i : nat) (rest : list PipelineStep)
    : Op W (list (nat * option MaskingCoverage)) :=
  match rest with
  | [] => ret []
  | PMask rules :: rest =>
      match backup_before resolved i with
      | None => cover_all profiles steps resolved (S i) rest
      | Some (j, request) =>
          match steps !! j with
          | Some (PBackup b) =>
              let* src := find_op profiles (bs_profile_id b) in
              let* coverage := plan_masking_for src (co_database (common request)) rules
                                 (selections (common request)) in
              let* others := cover_all profiles steps resolved (S i) rest in
              ret ((i, coverage) :: others)
          | _ => stop (Panicked "resolved only holds backup steps")
          end
      end
  | _ :: rest => cover_all profiles steps resolved (S i) rest
  end.

(** ** Walking the steps *)

Definition bail : Op W unit :=
  ask (fun w => let '(c, w) := cancelled w in ((if c then Err OpCancelled else Ok tt), w)).

Definition get {A} (l : list (nat * A)) (i : nat) : option A :=
  option_map snd (List.find (fun e => Nat.eqb e.1 i) l).

Definition backup_step (profiles : list ConnectionProfile) (resolved : list (nat * BackupRequest)) (i : nat)
    (b : BackupStep) (f : Flow) : Op W Flow :=
  let* src := find_op profiles (bs_profile_id b) in
  let* request := expect (get resolved i) "every backup step was resolved above" in
  let* _ := note (Begun SBackup) in
  let* file := attempt (DidBackup src request) (backup src request) in
  let* _ := note (Finished (artifact_detail file)) in
  ret (after_backup f src request file).

Definition artifact_for (s : ArtifactSource) (f : Flow) : Op W string :=
  match s with
  | PreviousStep => expect (artifact f) "validation proved a backup precedes this"
  | ArtifactPath path => ret path
  | NewestInDirectory dir => invoke (newest_artifact dir)
  end.

(** The confirmation a restore takes, and what is left. *)
Definition take_confirmation (n : TargetNaming) (l : list string) : option string * list string :=
  if is_destructive n then (head l, tail l) else (None, l).

Definition restore_step (profiles : list ConnectionProfile) (r : RestoreStep) (f : Flow) : Op W Flow :=
  let* d := find_op profiles (rs_profile_id r) in
  let* file := artifact_for (rs_source r) f in
  let '(typed, rest) := take_confirmation (rs_naming r) (confirmations f) in
  let request := mk_restore file (rs_naming r) (rs_engine r) (rs_verify_checksum r) typed in
  let* _ := note (Begun SRestore) in
  let* db := attempt (DidRestore d request) (restore d request) in
  let* _ := note (Finished (database_detail db)) in
  ret (after_restore f d db rest).

Definition mask_step (coverages : list (nat * option MaskingCoverage)) (i : nat) (f : Flow) : Op W Flow :=
  match get coverages i, target f, dest f with
  | Some (Some coverage), Some db, Some d =>
      let* _ := note (Begun SMask) in
      let* report := attempt (DidMask d db coverage) (mask_destination d db coverage) in
      let* _ := note (Finished (add_note no_detail
                  (count_text (length (mr_columns report)) ++ " column(s) masked")%string)) in
      ret (after_mask f coverage report)
  | _, _, _ =>
      let* _ := note (Skipped_ SMask "no rule matches a table this pipeline copies") in
      ret f
  end.

(** [Some(n as u32)]. *)
Definition checked_detail (r : VerificationReport) : JobStepDetail :=
  mk_detail None None (Some (wrap 32 (Verify.tables_checked r))) None [].

Definition verify_step (deep : bool) (f : Flow) : Op W Flow :=
  match flow_backup f, source f, target f, dest f with
  | Some request, Some src, Some db, Some d =>
      let data := map sel_name (tables_with_data (common request)) in
      let schema := names_with SchemaOnly (selections (common request)) in
      let masked := match flow_coverage f with Some c => coverage_tables c | None => [] end in
      let vr := mk_verify_request src d (co_database (common request)) db data schema deep masked in
      let* _ := note (Begun SVerify) in
      let* report := attempt (DidVerify vr) (verify_restore vr) in
      let* _ := note (Finished (add_note (checked_detail report)
                  (if passed report then "every table matched"
                   else show (failures report) ++ " table(s) did not match")%string)) in
      ret (after_verify f report)
  | _, _, _, _ => stop (Panicked "validation proved a backup and a restore precede this")
  end.

Definition push_step (f : Flow) : Op W Flow :=
  let* file := expect (artifact f) "validation proved a backup precedes this" in
  let* _ := note (Begun SOffsite) in
  let* pushed := attempt (DidPush file) (push_offsite file) in
  let* _ := note (Finished (describe_offsite pushed)) in
  ret (after_push f pushed).

Definition retention_step (policy : RetentionPolicy) (f : Flow) : Op W Flow :=
  let* dir := expect (flow_dir f) "validation proved a backup precedes this" in
  let verified := none_or_passed (po_verification (outcome f)) in
  let copied := forallb push_succeeded (po_offsite (outcome f)) in
  if negb verified || negb copied then
    let reason := if verified then "the off-site copy failed" else "verification failed" in
    let* _ := note (Skipped_ SRetention (reason ++ "; every existing backup kept")%string) in
    ret f
  else
    let* _ := note (Begun SRetention) in
    let* removed := attempt (DidPrune dir policy) (apply_retention dir policy) in
    let* _ := note (Finished (add_note no_detail
                (count_text (length removed) ++ " artifact(s) removed")%string)) in
    ret (after_prune f removed).

Definition drill_step (profiles : list ConnectionProfile) (r : PipelineRunRequest) (d : DrillStep) (f : Flow)
    : Op W Flow :=
  let* target := find_op profiles (ds_profile_id d) in
  let dir := match ds_artifact_dir d with
             | Some dir => dir
             | None => default (default_output_dir r) (flow_dir f)
             end in
  let request := mk_drill_request dir (default_restore_options (profile_engine target)) (ds_deep d)
                   (ds_keep_on_failure d) in
  let* _ := note (Begun SDrill) in
  let* drilled := attempt (DidDrill target request) (drill target request) in
  let report := do_report drilled in
  let* _ := note (Finished (add_note
              (mk_detail (Some (do_artifact drilled)) None (Some (wrap 32 (Verify.tables_checked report))) None [])
              (if passed report then "the backup restores and holds what it claims"
               else show (failures report) ++ " table(s) did not match")%string)) in
  ret (after_drill f report).

Section Walk.
Variables (profiles : list ConnectionProfile) (request : PipelineRunRequest)
  (resolved : list (nat * BackupRequest)) (coverages : list (nat * option MaskingCoverage)).

Definition run_step (i : nat) (s : PipelineStep) (f : Flow) : Op W Flow :=
  let* _ := bail in
  match s with
  | PBackup b => backup_step profiles resolved i b f
  | PRestore r => restore_step profiles r f
  | PMask _ => mask_step coverages i f
  | PVerify deep => verify_step deep f
  | PPushOffsite => push_step f
  | PRetention policy => retention_step policy f
  | PDrill d => drill_step profiles request d f
  end.

Fixpoint walk (i : nat) (steps : list PipelineStep) (f : Flow) : Op W Flow :=
  match steps with
  | [] => ret f
  | s :: rest => let* f := run_step i s f in walk (S i) rest f
  end.
End Walk.

Definition step_plan (steps : list PipelineStep) (profiles : list ConnectionProfile) : StepPlan :=
  map (fun s => (step_kind s, step_label s profiles)) steps.

Definition run_pipeline (p : Pipeline) (request : PipelineRunRequest) : Op W PipelineOutcome :=
  let* profiles := invoke list_profiles in
  let* _ := lift (map_err (validate_against p profiles) OpPipeline) in
  let* resolved := resolve_all profiles request 0 (p_steps p) in
  let* coverages := cover_all profiles (p_steps p) resolved 0 (p_steps p) in
  let* _ := note (Planned (step_plan (p_steps p) profiles)) in
  let* f := walk profiles request resolved coverages 0 (p_steps p) (start_flow request) in
  ret (outcome f).
End Run.

(** ** What a walk does *)

Definition kind_of_entry (e : Entry) : option JobStepKind :=
  match e with Begun k | Skipped_ k _ => Some k | _ => None end.

(** The steps begun or skipped, in order. *)
Definition kinds (l : list Entry) : list JobStepKind := omap kind_of_entry l.

Definition restore_of_entry (e : Entry) : option (TargetNaming * option string) :=
  match e with DidRestore _ r => Some (naming r, typed_confirmation r) | _ => None end.

(** The restores attempted, each with the confirmation it was given. *)
Definition restores_of (l : list Entry) : list (TargetNaming * option string) := omap restore_of_entry l.

Definition masks (e : Entry) : bool := match e with DidMask _ _ _ => true | _ => false end.

(** The restore of one step, and the confirmations left after it. *)
Definition expected_of (s : PipelineStep) (conf : list string)
    : list (TargetNaming * option string) * list string :=
  match s with
  | PRestore r =>
      let '(typed, rest) := take_confirmation (rs_naming r) conf in ([(rs_naming r, typed)], rest)
  | _ => ([], conf)
  end.

Fixpoint expected_restores (steps : list PipelineStep) (conf : list string)
    : list (TargetNaming * option string) :=
  match steps with
  | [] => []
  | s :: rest => let '(here, conf) := expected_of s conf in here ++ expected_restores rest conf
  end.

(** What the steps before left for the ones that follow. *)
Definition flow_ok (pre : list PipelineStep) (f : Flow) : Prop :=
  (backs_up pre -> is_some (artifact f) = true /\ is_some (flow_dir f) = true
                   /\ is_some (flow_backup f) = true /\ is_some (source f) = true)
  /\ (restores pre -> is_some (target f) = true /\ is_some (dest f) = true).

(** The effect of one step: one recorder entry, one restore at most, no panic of
    its own. *)
Definition step_effect `{Operations W} (pre : list PipelineStep) (s : PipelineStep) (f : Flow) (l : list Entry)
    (r : result Flow Stop) : Prop :=
  no_panic r
  /\ match r with
     | Ok f' =>
         kinds l = [step_kind s] /\ restores_of l = (expected_of s (confirmations f)).1
         /\ confirmations f' = (expected_of s (confirmations f)).2 /\ flow_ok (pre ++ [s]) f'
     | Err _ =>
         kinds l `prefix_of` [step_kind s] /\ restores_of l `prefix_of` (expected_of s (confirmations f)).1
     end.

(** ** Lemmas *)

Lemma is_some_true {A} (o : option A) : is_some o = true -> exists a, o = Some a.
Proof. destruct o; [eauto|done]. Qed.

Lemma backs_up_snoc pre s : backs_up (pre ++ [s]) <-> backs_up pre \/ exists b, s = PBackup b.
Proof.
  unfold backs_up. setoid_rewrite in_app_iff. simpl. split.
  - intros (b & [Hb|[->|[]]]); eauto.
  - intros [[b Hb]|[b ->]]; eauto.
Qed.

Lemma restores_snoc pre s : restores (pre ++ [s]) <-> restores pre \/ exists r, s = PRestore r.
Proof.
  unfold restores. setoid_rewrite in_app_iff. simpl. split.
  - intros (b & [Hb|[->|[]]]); eauto.
  - intros [[b Hb]|[b ->]]; eauto.
Qed.

(** A step that produces nothing keeps what there was. *)
Lemma flow_ok_keep pre s f f' :
  flow_ok pre f -> (forall b, s <> PBackup b) -> (forall r, s <> PRestore r) ->
  artifact f' = artifact f -> flow_dir f' = flow_dir f -> flow_backup f' = flow_backup f ->
  source f' = source f -> target f' = target f -> dest f' = dest f -> flow_ok (pre ++ [s]) f'.
Proof.
  intros [Hb Hr] Nb Nr E1 E2 E3 E4 E5 E6. unfold flow_ok. rewrite E1, E2, E3, E4, E5, E6, backs_up_snoc, restores_snoc.
  split; [intros [?|[b ?]]|intros [?|[r ?]]]; [by apply Hb|by destruct (Nb b)|by apply Hr|by destruct (Nr r)].
Qed.

Lemma flow_ok_backup pre b f src r file : flow_ok pre f -> flow_ok (pre ++ [PBackup b]) (after_backup f src r file).
Proof.
  intros [_ Hr]. split; simpl; [done|]. rewrite restores_snoc. intros [?|[x [=]]]. by apply Hr.
Qed.

Lemma flow_ok_restore pre r f d db rest : flow_ok pre f -> flow_ok (pre ++ [PRestore r]) (after_restore f d db rest).
Proof.
  intros [Hb _]. split; simpl; [|done]. rewrite backs_up_snoc. intros [?|[x [=]]]. by apply Hb.
Qed.

Section Proofs.
Context {W : Type} `{Operations W}.

Lemma quiet_find profiles id : post (@find_op W profiles id) quiet.
Proof. apply quiet_lift. Qed.

Lemma quiet_warn_all p l : post (@warn_all W p l) quiet.
Proof. induction l; simpl; quiet. Qed.

Lemma quiet_warn_inert l : post (@warn_inert W l) quiet.
Proof. induction l; simpl; quiet. Qed.
Hint Resolve quiet_find quiet_warn_all quiet_warn_inert : quiet.

Lemma quiet_resolve profiles r i b : post (resolve_backup profiles r i b) quiet.
Proof.
  unfold resolve_backup, resolve_now, saved_selections. quiet.
Qed.

Lemma quiet_plan_masking src db rules l : post (plan_masking_for src db rules l) quiet.
Proof. unfold plan_masking_for. quiet. Qed.
Hint Resolve quiet_resolve quiet_plan_masking : quiet.

Lemma get_cons {A} k (a : A) l i : get ((k, a) :: l) i = if Nat.eqb k i then Some a else get l i.
Proof. unfold get. simpl. by destruct (Nat.eqb k i). Qed.

(** Every backup step is resolved, and nothing else is. *)
Definition resolved_ok (i : nat) (steps : list PipelineStep) (out : list (nat * BackupRequest)) : Prop :=
  (forall j b, steps !! j = Some (PBackup b) -> exists r, get out (i + j) = Some r)
  /\ (forall e, In e out -> exists j b, e.1 = (i + j)%nat /\ steps !! j = Some (PBackup b)).

Lemma resolved_ok_skip i s steps out :
  (forall b, s <> PBackup b) -> resolved_ok (S i) steps out -> resolved_ok i (s :: steps) out.
Proof.
  intros Hs [H1 H2]. split.
  - intros [|j] b E; [by injection E as ->; destruct (Hs b)|]. rewrite <- Nat.add_succ_comm. by apply (H1 j b).
  - intros e (j & b & -> & E)%H2. exists (S j), b. split; [lia|done].
Qed.

Lemma resolve_all_spec profiles r steps : forall i,
  post (resolve_all profiles r i steps)
    (fun l res => quiet l res /\ forall out, res = Ok out -> resolved_ok i steps out).
Proof.
  induction steps as [|s steps IH]; intros i; simpl.
  - apply post_ret. split; [apply quiet_ok|]. intros out [= <-]. split; [done|]. intros e [].
  - destruct s as [b|rs|deep|rules| |policy|d];
      try (eapply post_mono; [apply IH|]; intros l res [Hq Ho]; split; [done|];
           intros out Hout; apply resolved_ok_skip; [done|by apply Ho]).
    apply post_and with (Q := fun l res => forall out, res = Ok out -> resolved_ok i (PBackup b :: steps) out).
    + quiet. eapply post_mono; [apply IH|]. by intros ?? [? _].
    + apply post_bind. eapply post_mono; [apply quiet_resolve|]. intros l [request|e] _; [|done].
      apply post_bind. eapply post_mono; [apply IH|]. intros l' [others|e] [_ Ho]; [|done].
      apply post_ret. intros out [= <-]. destruct (Ho others eq_refl) as [H1 H2]. split.
      * intros [|j] b' E; rewrite get_cons.
        { rewrite Nat.add_0_r, Nat.eqb_refl. eauto. }
        replace (Nat.eqb i (i + S j)) with false by (symmetry; apply Nat.eqb_neq; lia).
        rewrite <- Nat.add_succ_comm. by apply (H1 j b').
      * intros e [<-|(j & b' & -> & E)%H2]; [by exists 0%nat, b; split; [simpl; lia|]|].
        exists (S j), b'. split; [lia|done].
Qed.

Lemma cover_all_quiet profiles steps resolved rest : forall i,
  (forall e, In e resolved -> exists b, steps !! e.1 = Some (PBackup b)) ->
  post (cover_all profiles steps resolved i rest) quiet.
Proof.
  induction rest as [|s rest IH]; intros i Hr; simpl; [quiet|].
  destruct s as [b|rs|deep|rules| |policy|d]; try (by apply IH).
  destruct (backup_before resolved i) as [[j request]|] eqn:E; [|by apply IH].
  apply last_Some_elem_of, list_elem_of_In, filter_In in E as [E _].
  destruct (Hr _ E) as [b Hb]. simpl in Hb. rewrite Hb.
  quiet.
Qed.

(** The leaves of a step. *)
Ltac leaf :=
  match goal with
  | |- post (bind _ _) _ => apply post_bind
  | |- post (note _) _ => apply post_note
  | |- post (ret _) _ => apply post_ret
  | |- post (stop _) _ => apply post_stop
  | |- post (find_op _ _) _ => unfold find_op; apply post_lift
  | |- post (ask _) _ => apply post_ask; intros ?
  | |- post (attempt _ _) _ => apply post_attempt; intros ?
  | |- post (invoke _) _ => apply post_invoke; intros ?
  | |- context [map_err ?r Failed_] => destruct r; cbn [map_err app]
  | |- context [fst (?f ?w)] => let E := fresh "E" in destruct (fst (f w)) eqn:E; cbn [app]
  end.

Lemma effect_failed pre s f l e :
  @no_panic _ _ Flow (Err e) ->
  kinds l `prefix_of` [step_kind s] -> restores_of l `prefix_of` (expected_of s (confirmations f)).1 ->
  step_effect pre s f l (Err e).
Proof. by split. Qed.

Lemma no_panic_Err {A B} e : @no_panic _ _ A (Err e) -> @no_panic _ _ B (Err e).
Proof. intros Hn why [= ->]. by apply Hn. Qed.

Lemma effect_done pre s f l f' :
  kinds l = [step_kind s] -> restores_of l = (expected_of s (confirmations f)).1 ->
  confirmations f' = (expected_of s (confirmations f)).2 -> flow_ok (pre ++ [s]) f' ->
  step_effect pre s f l (Ok f').
Proof. by split. Qed.

(** Failures leave a prefix of what the step does. *)
Ltac effects :=
  repeat leaf;
  try (apply effect_failed; [intros why Ewhy; simplify_eq/=; eauto with raises
                            |cbn; first [done | apply prefix_nil | reflexivity]..]).

Lemma artifact_for_spec src f :
  (src = PreviousStep -> is_some (artifact f) = true) ->
  post (artifact_for src f) (fun l r => l = [] /\ no_panic r).
Proof.
  intros Hs. destruct src as [|dir|path]; simpl.
  - destruct (is_some_true _ (Hs eq_refl)) as [a Ha]. by eapply post_expect.
  - apply post_invoke. intros w. split; [done|]. intros why. eauto with raises.
  - by apply post_ret.
Qed.

Lemma restore_step_effect profiles pre r f :
  step_ok pre (PRestore r) -> flow_ok pre f ->
  post (restore_step profiles r f) (step_effect pre (PRestore r) f).
Proof.
  intros Hs Hf. unfold restore_step. effects. eapply post_mono.
  { apply artifact_for_spec. intros E. by apply Hf, Hs. }
  intros l [file|e] [-> Hn]; [|apply effect_failed; [by eapply no_panic_Err|apply prefix_nil..]].
  destruct (take_confirmation (rs_naming r) (confirmations f)) as [typed rest] eqn:E. effects.
  - apply effect_done; cbn; rewrite ?E; [done..|]. by apply flow_ok_restore.
  - apply effect_failed; cbn; rewrite ?E; [|reflexivity..]. intros why [= ->]. eauto with raises.
Qed.

Lemma mask_step_effect coverages pre i rules f :
  flow_ok pre f -> post (mask_step coverages i f) (step_effect pre (PMask rules) f).
Proof.
  intros Hf. unfold mask_step.
  destruct (get coverages i) as [[c|]|], (target f), (dest f); effects;
    (apply effect_done; [done..|]; by eapply flow_ok_keep).
Qed.

Lemma verify_step_effect pre deep f :
  step_ok pre (PVerify deep) -> flow_ok pre f -> post (verify_step deep f) (step_effect pre (PVerify deep) f).
Proof.
  intros [Hr Hb] Hf. unfold verify_step. pose proof Hf as [Hfb Hfr].
  destruct (Hfb Hb) as (_ & _ & [b ->]%is_some_true & [s ->]%is_some_true).
  destruct (Hfr Hr) as ([t ->]%is_some_true & [d ->]%is_some_true). effects.
  apply effect_done; [done..|]. by eapply flow_ok_keep.
Qed.

Lemma push_step_effect pre f :
  step_ok pre PPushOffsite -> flow_ok pre f -> post (push_step f) (step_effect pre PPushOffsite f).
Proof.
  intros Hb Hf. unfold push_step. destruct (proj1 Hf Hb) as ([a Ha]%is_some_true & _).
  apply post_bind. eapply post_expect; [exact Ha|]. effects.
  apply effect_done; [done..|]. by eapply flow_ok_keep.
Qed.

Lemma retention_step_effect pre policy f :
  step_ok pre (PRetention policy) -> flow_ok pre f ->
  post (retention_step policy f) (step_effect pre (PRetention policy) f).
Proof.
  intros [Hb _] Hf. unfold retention_step. destruct (proj1 Hf Hb) as (_ & [a Ha]%is_some_true & _).
  apply post_bind. eapply post_expect; [exact Ha|]. destruct (_ || _); effects.
  - apply effect_done; [done..|]. by eapply flow_ok_keep.
  - apply effect_done; [done..|]. by eapply flow_ok_keep.
Qed.

Lemma drill_step_effect profiles request pre d f :
  flow_ok pre f -> post (drill_step profiles request d f) (step_effect pre (PDrill d) f).
Proof.
  intros Hf. unfold drill_step. effects. unfold after_drill.
  apply effect_done; [done..| |]; destruct (po_verification (outcome f)); try done; by eapply flow_ok_keep.
Qed.

Lemma run_step_effect profiles request resolved coverages pre i s f :
  step_ok pre s -> flow_ok pre f -> (forall b, s = PBackup b -> exists r, get resolved i = Some r) ->
  post (run_step profiles request resolved coverages i s f) (step_effect pre s f).
Proof.
  intros Hs Hf Hg. unfold run_step. apply post_bind. unfold bail. apply post_ask. intros w.
  destruct (cancelled w) as [[] w']; simpl; [by apply effect_failed; [|apply prefix_nil..]|].
  destruct s as [b|r|deep|rules| |policy|d].
  - unfold backup_step. effects. destruct (Hg b eq_refl) as [q Hq].
    eapply post_expect; [exact Hq|]. effects. by apply effect_done; [..|apply flow_ok_backup].
  - by apply restore_step_effect.
  - by apply verify_step_effect.
  - by apply mask_step_effect.
  - by apply push_step_effect.
  - by apply retention_step_effect.
  - by apply drill_step_effect.
Qed.

(** The recorder entries and restores of a run, against those of the chain. *)
Definition run_effect {A : Type} (steps : list PipelineStep) (conf : list string) (l : list Entry)
    (r : result A Stop) : Prop :=
  no_panic r
  /\ match r with
     | Ok _ => kinds l = map step_kind steps /\ restores_of l = expected_restores steps conf
     | Err _ => kinds l `prefix_of` map step_kind steps /\ restores_of l `prefix_of` expected_restores steps conf
     end.

Lemma walk_effect profiles request resolved coverages steps : forall pre i f,
  everywhere step_ok pre steps -> flow_ok pre f ->
  (forall j b, steps !! j = Some (PBackup b) -> exists r, get resolved (i + j) = Some r) ->
  post (walk profiles request resolved coverages i steps f) (run_effect steps (confirmations f)).
Proof.
  induction steps as [|s steps IH]; intros pre i f Hs Hf Hg; simpl.
  { apply post_ret. by split. }
  destruct Hs as [Hs Hrest]. apply post_bind. eapply post_mono.
  { apply (run_step_effect _ _ _ _ pre); [done..|]. intros b ->. rewrite <- (Nat.add_0_r i). by apply (Hg 0%nat b). }
  intros l [f'|e] [Hn He]; unfold run_effect; simpl.
  - destruct He as (Hk & Hr & Hc & Hf'). eapply post_mono.
    { apply (IH (pre ++ [s])); [done..|]. intros j b Hj. rewrite Nat.add_succ_comm. by apply (Hg (S j) b). }
    intros l' r [Hn' He']. split; [done|]. unfold kinds, restores_of in *. rewrite !omap_app, Hk, Hr, Hc in *.
    destruct (expected_of s (confirmations f)) as [here conf]. simpl in *.
    destruct r as [g|e]; destruct He' as [Hk' Hr']; [by rewrite Hk', Hr'|].
    split; [by apply prefix_cons|by apply prefix_app].
  - destruct He as [Hk Hr]. split; [intros why [= ->]; by apply (Hn why)|].
    destruct (expected_of s (confirmations f)) as [here conf]. simpl in *.
    split; [eapply prefix_app_r in Hk; exact Hk|by apply prefix_app_r].
Qed.

Lemma emitted_none l : Forall is_emitted l -> kinds l = [] /\ restores_of l = [] /\ forallb (fun e => negb (masks e)) l = true.
Proof.
  induction 1 as [|e l He _ IH]; [done|]. destruct e; simpl; try done.
Qed.

Lemma emitted_app l l' :
  Forall is_emitted l -> kinds (l ++ l') = kinds l' /\ restores_of (l ++ l') = restores_of l'.
Proof. intros (H1 & H2 & _)%emitted_none. unfold kinds, restores_of in *. by rewrite !omap_app, H1, H2. Qed.

(** A quiet stage before the rest of a run. *)
Lemma run_effect_quiet {A B} steps conf (m : Op W A) (k : A -> Op W B) :
  post m quiet -> (forall a s s', m s = (Ok a, s') -> post (k a) (run_effect steps conf)) ->
  post (bind m k) (run_effect steps conf).
Proof.
  intros Hm Hk s. destruct (Hm s) as (l & Hl & Hq & Hn). unfold bind.
  destruct (m s) as [[a|e] s1] eqn:E; simpl in *.
  - destruct (Hk a s s1 E s1) as (l' & Hl' & Hn' & He). exists (l ++ l').
    rewrite Hl', Hl, app_assoc. split; [done|]. split; [done|]. destruct (emitted_app l l' Hq) as [-> ->]. done.
  - exists l. split; [done|]. split; [intros why [= ->]; by apply (Hn why)|].
    destruct (emitted_none l Hq) as (-> & -> & _). split; apply prefix_nil.
Qed.

Lemma run_pipeline_effect p request :
  post (run_pipeline p request) (run_effect (p_steps p) (typed_confirmations request)).
Proof.
  unfold run_pipeline. apply run_effect_quiet; [quiet|]. intros profiles _ _ _.
  apply run_effect_quiet; [apply quiet_lift|]. intros [] s1 s1' E1.
  assert (everywhere step_ok [] (p_steps p)) as Hv.
  { unfold lift, validate_against in E1. destruct (validate p) as [[]|] eqn:Ev; [|done].
    apply each_step_iff. by apply validate_steps_Ok in Ev as (_ & _ & ? & _). }
  clear E1. apply run_effect_quiet.
  { eapply post_mono; [apply resolve_all_spec|]. by intros ?? [? _]. }
  intros resolved s2 s2' E2.
  destruct (post_run _ _ _ _ _ (resolve_all_spec _ _ _ _) E2) as (_ & _ & _ & Ho).
  destruct (Ho resolved eq_refl) as [Hg Hin]. clear E2 Ho. apply run_effect_quiet.
  { apply cover_all_quiet. intros e (j & b & -> & Hj)%Hin. simpl. eauto. }
  intros coverages _ _ _. apply post_bind, post_note, post_bind.
  eapply post_mono; [apply (walk_effect _ _ _ _ _ [] 0); [done| |done]|].
  { split; [by intros [? []]|by intros [? []]]. }
  intros l [f|e] [Hn He]; [apply post_ret; rewrite app_nil_r; by split|].
  split; [intros why [= ->]; by apply (Hn why)|exact He].
Qed.

(** ** Nothing to mask *)

Definition no_mask (l : list Entry) : Prop := forallb (fun e => negb (masks e)) l = true.

Lemma no_mask_app l l' : no_mask (l ++ l') <-> no_mask l /\ no_mask l'.
Proof. unfold no_mask. rewrite forallb_app, andb_true_iff. done. Qed.

(** A step that finds no coverage masks nothing. *)
Lemma run_step_unmasked profiles request resolved i s f :
  (forall b, s <> PBackup b) ->
  post (run_step profiles request resolved [] i s f)
    (fun l r => no_mask l /\ forall f', r = Ok f' -> po_masking (outcome f') = po_masking (outcome f)).
Proof.
  intros Hb. unfold run_step. apply post_bind. unfold bail. apply post_ask. intros w.
  destruct (cancelled w) as [[] w']; simpl; [done|].
  destruct s as [b|r|deep|rules| |policy|d]; [by destruct (Hb b)|..].
  - unfold restore_step, artifact_for.
    repeat leaf; try done. destruct (rs_source r), (artifact f); simpl; repeat leaf; try done;
      destruct (take_confirmation _ _); repeat leaf; try done; (split; [done|by intros ? [= <-]]).
  - unfold verify_step. destruct (flow_backup f), (source f), (target f), (dest f); repeat leaf; try done;
      (split; [done|by intros ? [= <-]]).
  - unfold mask_step. simpl. repeat leaf. split; [done|by intros ? [= <-]].
  - unfold push_step. destruct (artifact f); simpl; repeat leaf; try done; (split; [done|by intros ? [= <-]]).
  - unfold retention_step. destruct (flow_dir f); simpl; repeat leaf; try done.
    destruct (_ || _); repeat leaf; try done; (split; [done|by intros ? [= <-]]).
  - unfold drill_step, after_drill. repeat leaf; try done.
    split; [done|]. intros ? [= <-]. by destruct (po_verification (outcome f)).
Qed.

Lemma walk_unmasked profiles request resolved steps : forall i f,
  ~ backs_up steps ->
  post (walk profiles request resolved [] i steps f)
    (fun l r => no_mask l /\ forall f', r = Ok f' -> po_masking (outcome f') = po_masking (outcome f)).
Proof.
  induction steps as [|s steps IH]; intros i f Hb; simpl.
  { apply post_ret. split; [done|by intros ? [= <-]]. }
  apply post_bind. eapply post_mono.
  { apply run_step_unmasked. intros b ->. apply Hb. exists b. by left. }
  intros l [f'|e] [Hl Hf]; [|done]. eapply post_mono.
  { apply IH. intros [b Hi]. apply Hb. exists b. by right. }
  intros l' r [Hl' Hf']. split; [by apply no_mask_app|]. intros g Hg. rewrite (Hf' g Hg). by apply Hf.
Qed.

Lemma no_backup_unresolved profiles request steps : forall i,
  ~ backs_up steps -> resolve_all profiles request i steps = @ret W _ [].
Proof.
  induction steps as [|s steps IH]; intros i Hb; simpl; [done|].
  assert (~ backs_up steps) as Hr by (intros [b Hi]; apply Hb; exists b; by right).
  destruct s as [b|r|deep|rules| |policy|d]; try by apply IH. destruct Hb. exists b. by left.
Qed.

Lemma nothing_covered profiles all steps : forall i, cover_all profiles all [] i steps = @ret W _ [].
Proof. induction steps as [|s steps IH]; intros i; simpl; [done|]. destruct s; simpl; by apply IH. Qed.

(** ** The verdict of a run *)

Lemma run_step_keeps_verdict profiles request resolved coverages i s f v :
  (forall d, s <> PVerify d) -> po_verification (outcome f) = Some v ->
  post (run_step profiles request resolved coverages i s f)
    (fun _ r => forall f', r = Ok f' -> po_verification (outcome f') = Some v).
Proof.
  intros Hs Hv. unfold run_step. apply post_bind. unfold bail. apply post_ask. intros w.
  destruct (cancelled w) as [[] w']; simpl; [done|].
  destruct s as [b|r|deep|rules| |policy|d]; [..|by destruct (Hs deep)| | | |].
  - unfold backup_step. repeat leaf; try done. destruct (get resolved i); simpl; repeat leaf; try done.
    by intros ? [= <-].
  - unfold restore_step, artifact_for.
    repeat leaf; try done. destruct (rs_source r), (artifact f); simpl; repeat leaf; try done;
      destruct (take_confirmation _ _); repeat leaf; try done; by intros ? [= <-].
  - unfold mask_step. destruct (get coverages i) as [[c|]|], (target f), (dest f); repeat leaf; try done;
      by intros ? [= <-].
  - unfold push_step. destruct (artifact f); simpl; repeat leaf; try done; by intros ? [= <-].
  - unfold retention_step. destruct (flow_dir f); simpl; repeat leaf; try done.
    destruct (_ || _); repeat leaf; try done; by intros ? [= <-].
  - unfold drill_step, after_drill. repeat leaf; try done. rewrite Hv. by intros ? [= <-].
Qed.

Lemma walk_keeps_verdict profiles request resolved coverages steps v : forall i f,
  (forall d, ~ In (PVerify d) steps) -> po_verification (outcome f) = Some v ->
  post (walk profiles request resolved coverages i steps f)
    (fun _ r => forall f', r = Ok f' -> po_verification (outcome f') = Some v).
Proof.
  induction steps as [|s steps IH]; intros i f Hn Hv; simpl.
  { apply post_ret. by intros ? [= <-]. }
  apply post_bind. eapply post_mono.
  { apply run_step_keeps_verdict; [|exact Hv]. intros d ->. apply (Hn d). by left. }
  intros l [f'|e] Hf; [|done]. apply IH; [|by apply Hf]. intros d Hi. apply (Hn d). by right.
Qed.

(** A step in the middle of a walk that ended well. *)
Lemma walk_middle profiles request resolved coverages pre s post_ : forall i f st g st',
  walk profiles request resolved coverages i (pre ++ s :: post_) f st = (Ok g, st') ->
  exists f1 st1 f2 st2,
    run_step profiles request resolved coverages (i + length pre) s f1 st1 = (Ok f2, st2)
    /\ walk profiles request resolved coverages (S (i + length pre)) post_ f2 st2 = (Ok g, st').
Proof.
  induction pre as [|x pre IH]; intros i f st g st' E; simpl in E.
  - apply bind_Ok in E as (f2 & st2 & E1 & E2). rewrite Nat.add_0_r. by exists f, st, f2, st2.
  - apply bind_Ok in E as (f1 & st1 & _ & E2). apply IH in E2. simpl. by rewrite <- Nat.add_succ_comm.
Qed.

(** ** Theorems *)

(** C3: a run panics only when an operation it calls panics, with the message of
    that operation: what the steps expect of each other is always there.  It walks its steps in the order they are written, each recorded once, and attempts their restores in that order, each destructive
    one with the next confirmation; one that stops early has done so for a
    prefix of the steps. *)
Theorem run_follows_the_plan p request s res s' :
  run_pipeline p request s = (res, s') ->
  exists l, trace s' = trace s ++ l /\ (forall why, res = Err (Panicked why) -> raises why)
    /\ match res with
       | Ok _ => kinds l = map step_kind (p_steps p)
                 /\ restores_of l = expected_restores (p_steps p) (typed_confirmations request)
       | Err _ => kinds l `prefix_of` map step_kind (p_steps p)
                  /\ restores_of l `prefix_of` expected_restores (p_steps p) (typed_confirmations request)
       end.
Proof.
  intros E. destruct (post_run _ _ _ _ _ (run_pipeline_effect p request) E) as (l & Hl & Hn & He). eauto.
Qed.

(** C4: a run whose confirmations come from the acknowledgment of an armed
    pipeline drops a database only with that database's own name typed for it. *)
Theorem armed_run_confirms_each_drop p request s res s' :
  run_pipeline p request s = (res, s') ->
  is_armed p = true -> Forall one_line (destructive_targets p) ->
  typed_confirmations request = ack_confirmations p ->
  exists l, trace s' = trace s ++ l
    /\ forall naming typed, In (naming, typed) (restores_of l) ->
         typed = match naming with DropAndRecreate name => Some name | _ => None end.
Proof.
  intros E Ha Hl Hc. destruct (post_run _ _ _ _ _ (run_pipeline_effect p request) E) as (l & Htr & _ & He).
  exists l. split; [done|]. rewrite Hc, (armed_confirmations p Ha Hl) in He.
  assert (forall x, In x (restores_of l) -> In x (expected_restores (p_steps p) (destructive_targets p))) as Hin.
  { intros x Hx. destruct res as [o|e]; destruct He as [_ Hr]; [by rewrite <- Hr|].
    destruct Hr as [k ->]. apply in_app_iff. by left. }
  intros n t [k Hk]%Hin%In_nth_error. unfold destructive_targets in Hk. clear -Hk. revert k Hk.
  induction (p_steps p) as [|s steps IH]; intros k Hk; simpl in Hk; [by destruct k|].
  unfold targets_of in Hk. simpl in Hk.
  destruct s as [b|r|deep|rules| |policy|d]; simpl in Hk; try by eapply IH.
  unfold take_confirmation in Hk. destruct (rs_naming r) as [prefix|name|name] eqn:En; simpl in Hk;
    (destruct k as [|k]; [by injection Hk as <- <-|]); by eapply IH.
Qed.

(** A pipeline that backs up nothing masks nothing, whatever masking steps it
    has: it restores a file, records each masking step as skipped, and reports
    no masking. *)
Theorem restored_file_is_never_masked p request s res s' :
  run_pipeline p request s = (res, s') -> ~ backs_up (p_steps p) ->
  exists l, trace s' = trace s ++ l
    /\ (forall profile database coverage, ~ In (DidMask profile database coverage) l)
    /\ (forall o, res = Ok o -> po_masking o = None).
Proof.
  intros E Hb.
  assert (post (run_pipeline p request)
            (fun l r => no_mask l /\ forall o, r = Ok o -> po_masking o = None)) as Hp.
  { unfold run_pipeline. apply post_bind, post_invoke. intros w.
    destruct (list_profiles w).1 as [profiles|e]; simpl; [|done].
    apply post_bind, post_lift. destruct (validate_against p profiles) as [[]|e]; simpl; [|done].
    rewrite no_backup_unresolved by done. apply post_bind, post_ret.
    rewrite nothing_covered. apply post_bind, post_ret, post_bind, post_note, post_bind.
    eapply post_mono; [by apply walk_unmasked|]. intros l [f|e] [Hl Hf]; [|done].
    apply post_ret. rewrite app_nil_r. split; [done|]. intros o [= <-]. by rewrite (Hf f eq_refl). }
  destruct (post_run _ _ _ _ _ Hp E) as (l & Hl & Hm & Ho). exists l. split_and!; [done| |done].
  intros a b c Hi. unfold no_mask in Hm. rewrite forallb_forall in Hm. by specialize (Hm _ Hi).
Qed.

(** The verdict of a run that verifies is the report of its last verify step;
    what an earlier one or a later drill found is not in it. *)
Theorem verdict_is_the_last_verify p request s o s' pre deep rest :
  run_pipeline p request s = (Ok o, s') -> p_steps p = pre ++ PVerify deep :: rest ->
  (forall d, ~ In (PVerify d) rest) ->
  exists f1 s1 f2 s2 report,
    verify_step deep f1 s1 = (Ok f2, s2) /\ po_verification (outcome f2) = Some report
    /\ po_verification o = Some report.
Proof.
  intros E Hs Hn. unfold run_pipeline in E.
  apply bind_Ok in E as (profiles & t1 & _ & E). apply bind_Ok in E as ([] & t2 & _ & E).
  apply bind_Ok in E as (resolved & t3 & _ & E). apply bind_Ok in E as (coverages & t4 & _ & E).
  apply bind_Ok in E as ([] & t5 & _ & E). apply bind_Ok in E as (f & t6 & E & Eo).
  injection Eo as <- <-. rewrite Hs in E. apply walk_middle in E as (f1 & s1 & f2 & s2 & E1 & E2).
  unfold run_step in E1. apply bind_Ok in E1 as ([] & s1' & _ & E1).
  assert (exists report, po_verification (outcome f2) = Some report) as [report Hr].
  { unfold verify_step in E1. destruct (flow_backup f1), (source f1), (target f1), (dest f1); try done.
    apply bind_Ok in E1 as ([] & ? & _ & E1). apply bind_Ok in E1 as (report & ? & _ & E1).
    apply bind_Ok in E1 as ([] & ? & _ & E1). injection E1 as <- <-. by eexists. }
  exists f1, s1', f2, s2, report. split_and!; [done|done|].
  destruct (post_run _ _ _ _ _ (walk_keeps_verdict _ _ _ _ rest report _ f2 Hn Hr) E2) as (_ & _ & H2).
  by apply H2.
Qed.
End Proofs.

(** ** Witnesses *)

Definition server (id : Uuid) : ConnectionProfile :=
  mk_profile id "server" Mysql Dev None (mk_db "db" 3306 "root" None) no_tools 0 0.

Definition good_report : VerificationReport := mk_report [] 2 0 0.
Definition bad_report : VerificationReport := mk_report [] 2 1 0.

(** Operations that all go well, save that the verifications find what the world
    lists and every drill fails its check. *)
#[local] Instance calm : Operations (list VerificationReport) := {
  list_profiles w := (Ok [server 1; server 2], w);
  get_sync_plan _ w := (Ok None, w);
  list_tables _ _ w := (Ok [], w);
  source_columns _ _ _ w := (Ok ∅, w);
  backup _ _ w := (Ok "/backups/shop.sql.gz", w);
  restore _ r w := (Ok (match naming r with DropAndRecreate n => n | _ => "copy" end), w);
  mask_destination _ _ c w := (Ok (mk_mreport [] [] 0 [] true), w);
  verify_restore _ w := match w with r :: w => (Ok r, w) | [] => (Ok good_report, []) end;
  push_offsite _ w := (Ok [], w);
  apply_retention _ _ w := (Ok [], w);
  drill _ _ w := (Ok (mk_drill_outcome "shop.sql.gz" "dbsync_drill" true bad_report), w);
  newest_artifact _ w := (Ok "/backups/shop.sql.gz", w);
  cancelled w := (false, w) }.

Definition confirmed (l : list string) : PipelineRunRequest := mk_run_request l "/backups".

Definition nightly : Pipeline := sample_pipeline (Some "staging") 1.

Lemma nightly_runs :
  run_pipeline nightly (confirmed ["staging"]) (mk_op [good_report] []) =
  (Ok (mk_outcome ["/backups/shop.sql.gz"] ["staging"] (Some good_report) None [] []),
   (run_pipeline nightly (confirmed ["staging"]) (mk_op [good_report] [])).2).
Proof. vm_compute. reflexivity. Qed.

Lemma nightly_trace :
  trace (run_pipeline nightly (confirmed ["staging"]) (mk_op [good_report] [])).2 =
  [] ++ trace (run_pipeline nightly (confirmed ["staging"]) (mk_op [good_report] [])).2.
Proof. reflexivity. Qed.

Lemma run_follows_the_plan_witness :
  exists l, kinds l = [SBackup; SRestore; SVerify]
    /\ restores_of l = [(DropAndRecreate "staging", Some "staging")].
Proof.
  destruct (run_follows_the_plan _ _ _ _ _ nightly_runs) as (l & _ & _ & Hk & Hr). exists l. by split.
Defined.

Lemma armed_run_confirms_each_drop_witness :
  exists l, forall naming typed, In (naming, typed) (restores_of l) ->
    typed = match naming with DropAndRecreate name => Some name | _ => None end.
Proof.
  destruct (armed_run_confirms_each_drop _ _ _ _ _ nightly_runs) as (l & _ & H).
  - reflexivity.
  - repeat constructor. discriminate.
  - reflexivity.
  - exists l. exact H.
Defined.

(** Restore a file over staging, and mask it. *)
Definition from_file : Pipeline :=
  mk_pipeline 8 "refresh"
    [PRestore (mk_restore_step 2 (ArtifactPath "/tmp/prod.sql.gz") (DropAndRecreate "staging") (RMysql rmysql_default) true);
     PMask [mk_rule "users" "email" Email]] (Some "staging") 0 0.

Definition from_file_outcome : PipelineOutcome := mk_outcome [] ["staging"] None None [] [].

Lemma from_file_runs :
  run_pipeline from_file (confirmed ["staging"]) (mk_op [] []) =
  (Ok from_file_outcome, (run_pipeline from_file (confirmed ["staging"]) (mk_op [] [])).2).
Proof. vm_compute. reflexivity. Qed.

Lemma restored_file_is_never_masked_witness :
  fully_succeeded from_file_outcome = true
  /\ exists l, (forall profile database coverage, ~ In (DidMask profile database coverage) l)
       /\ po_masking from_file_outcome = None.
Proof.
  split; [reflexivity|]. destruct (restored_file_is_never_masked _ _ _ _ _ from_file_runs) as (l & _ & Hm & Ho).
  - intros [b [[=]|[[=]|[]]]].
  - exists l. split; [exact Hm|by apply Ho].
Defined.

(** The nightly chain, verified twice and drilled. *)
Definition checked_twice : Pipeline :=
  mk_pipeline 9 "checked" (sample_steps ++ [PVerify true; PDrill (mk_drill_step 2 None true false)])
    (Some "staging") 0 0.

Definition checked_outcome : PipelineOutcome :=
  mk_outcome ["/backups/shop.sql.gz"] ["staging"] (Some good_report) None [] [].

Lemma checked_runs :
  run_pipeline checked_twice (confirmed ["staging"]) (mk_op [bad_report; good_report] []) =
  (Ok checked_outcome,
   (run_pipeline checked_twice (confirmed ["staging"]) (mk_op [bad_report; good_report] [])).2).
Proof. vm_compute. reflexivity. Qed.

(** The first verification failed and so did the drill; the run succeeded. *)
Lemma verdict_is_the_last_verify_witness :
  passed bad_report = false /\ fully_succeeded checked_outcome = true
  /\ exists report, po_verification checked_outcome = Some report.
Proof.
  split; [reflexivity|]. split; [reflexivity|].
  destruct (verdict_is_the_last_verify _ _ _ _ _ sample_steps true [PDrill (mk_drill_step 2 None true false)]
              checked_runs) as (f1 & s1 & f2 & s2 & report & _ & _ & H).
  - reflexivity.
  - intros d [[=]|[]].
  - exists report. exact H.
Defined.
