(* ===== verification/Schedule.v ===== *)
(** * Schedule: what runs when nobody is there (engine/src/schedule.rs, and the schedule
      queries of engine/src/store.rs)

    [validate_parts] is the check on what a schedule may do, [due_at] decides
    whether it fires now, and the requests of a run are built from it.  Instants
    are nanoseconds.  The parser of the url crate is the parameter [parse_url];
    the local clock is a [TimeZone], as in Cron. *)

From Stdlib Require Import ZArith Lia Ascii String List Bool.
From stdpp Require Import base list gmap strings.
From S2P Require Import Prelude Text Time Domain Retention Backup Restore Mask Plan Job Step Pipeline Ops Cron CronScan.
Import ListNotations.

Open Scope string_scope.
Open Scope list_scope.
Open Scope Z_scope.

Inductive NotifyPolicy := NotifyNever | NotifyOnFailure | NotifyAlways.

Definition notify_as_str (n : NotifyPolicy) : string :=
  match n with NotifyNever => "never" | NotifyOnFailure => "on_failure" | NotifyAlways => "always" end.

Definition notify_parse (s : string) : option NotifyPolicy :=
  match_str s [("never", NotifyNever); ("on_failure", NotifyOnFailure); ("always", NotifyAlways)].

Definition wants (n : NotifyPolicy) (o : JobOutcome) : bool :=
  match n with
  | NotifyNever => false
  | NotifyAlways => true
  | NotifyOnFailure => match o with Success => false | _ => true end
  end.

Inductive ScheduleKind := KindSync | KindDrill | KindPipeline.

#[export] Instance ScheduleKind_eq : EqDecision ScheduleKind.
Proof. solve_decision. Defined.

Definition schedule_kind_as_str (k : ScheduleKind) : string :=
  match k with KindSync => "sync" | KindDrill => "drill" | KindPipeline => "pipeline" end.

Definition schedule_kind_parse (s : string) : option ScheduleKind :=
  match_str s [("sync", KindSync); ("drill", KindDrill); ("pipeline", KindPipeline)].

Record ScheduleRestore := mk_schedule_restore {
  sr_naming : TargetNaming;
  sr_options : EngineRestoreOptions }.

Record ScheduleAction := mk_action {
  a_output_dir : string;
  a_compress : bool;
  a_encrypt : bool;
  a_backup : EngineBackupOptions;
  a_restore : option ScheduleRestore;
  a_verify : bool;
  a_deep_verify : bool;
  a_retention : option RetentionPolicy;
  a_record_row_counts : bool;
  a_keep_on_failure : bool }.

Inductive ScheduleError :=
| NameRequired
| DestructiveTarget (naming : string)
| RestoreMismatch
| PlanRequired
| DrillTakesNoPlan
| DrillNeedsProfile
| DrillTakesNoTarget
| ScheduleEngineMismatch (plan_engine options : Engine)
| PipelineRequired
| PipelineTakesNothingElse
| PipelineNotArmed (name targets : string)
| BadWebhook (url why : string).

Record Schedule := mk_schedule {
  sch_id : Uuid;
  sch_name : string;
  sch_kind : ScheduleKind;
  plan_id : option Uuid;
  sch_dest_profile_id : option Uuid;
  pipeline_id : option Uuid;
  cron : CronExpression;
  timezone : ScheduleTimezone;
  sch_enabled : bool;
  action : ScheduleAction;
  webhook_url : option string;
  notify : NotifyPolicy;
  catch_up : bool;
  last_run_at : option Z;
  last_outcome : option JobOutcome;
  last_job_id : option Uuid;
  sch_created_at : Z;
  sch_updated_at : Z }.

Record ScheduleCreate := mk_schedule_create {
  scr_name : string;
  scr_kind : ScheduleKind;
  scr_plan_id : option Uuid;
  scr_dest_profile_id : option Uuid;
  scr_pipeline_id : option Uuid;
  scr_cron : CronExpression;
  scr_timezone : ScheduleTimezone;
  scr_action : ScheduleAction;
  scr_webhook_url : option string;
  scr_notify : NotifyPolicy;
  scr_catch_up : bool;
  scr_enabled : bool }.

(** A patch; [Some None] clears the webhook or the destination. *)
Record ScheduleUpdate := mk_schedule_update {
  sup_name : option string;
  sup_cron : option CronExpression;
  sup_timezone : option ScheduleTimezone;
  sup_enabled : option bool;
  sup_action : option ScheduleAction;
  sup_webhook_url : option (option string);
  sup_notify : option NotifyPolicy;
  sup_catch_up : option bool;
  sup_dest_profile_id : option (option Uuid) }.

(** 90 seconds. *)
Definition DEFAULT_GRACE : Z := secs 90.

Definition is_pipeline (s : Schedule) : bool := bool_decide (sch_kind s = KindPipeline).
Definition is_drill (s : Schedule) : bool := bool_decide (sch_kind s = KindDrill).
Definition is_sync (s : Schedule) : bool := bool_decide (sch_kind s = KindSync) && is_some (sch_dest_profile_id s).

(** The table of schedules, by primary key. *)
Abbreviation Schedules := (gmap Uuid Schedule).

(** ** Validation *)

Section Validate.
Variable str_debug : string -> string.
(** The scheme of a URL, and whether it has a host. *)
Variable parse_url : string -> result (string * bool) string.

(** [{:?}] of a naming strategy. *)
Definition naming_debug (n : TargetNaming) : string :=
  match n with
  | NewTimestamped prefix => "NewTimestamped { prefix: " ++ str_debug prefix ++ " }"
  | DropAndRecreate name => "DropAndRecreate { name: " ++ str_debug name ++ " }"
  | IntoExisting name => "IntoExisting { name: " ++ str_debug name ++ " }"
  end%string.

Definition schedule_error_text (e : ScheduleError) : string :=
  match e with
  | NameRequired => "a schedule needs a name"
  | DestructiveTarget n =>
      "a schedule cannot use the " ++ str_debug n ++ " strategy: it destroys an existing database, and there is "
      ++ "nobody present at the scheduled time to confirm that"
  | RestoreMismatch => "a schedule with a destination must say how to restore, and one without must not"
  | PlanRequired => "a sync schedule needs a plan; it is where the tables to back up come from"
  | DrillTakesNoPlan =>
      "a drill has no sync plan: it restores whatever artifact is newest, and the artifact "
      ++ "already fixes what it contains"
  | DrillNeedsProfile => "a drill needs a connection to restore into"
  | DrillTakesNoTarget =>
      "a drill chooses its own scratch database name and drops it afterwards, so it cannot be "
      ++ "given restore target options"
  | ScheduleEngineMismatch p o =>
      "the plan is for a " ++ engine_debug p ++ " source but the restore options are " ++ engine_debug o
  | PipelineRequired => "a pipeline schedule needs a pipeline; it is where the steps come from"
  | PipelineTakesNothingElse =>
      "a pipeline carries its own connections and table selections, so a pipeline schedule "
      ++ "takes no sync plan, no destination and no restore options"
  | PipelineNotArmed name targets =>
      str_debug name ++ " replaces " ++ targets ++ ", and nobody is present at the scheduled time to confirm "
      ++ "that. Authorise it for unattended runs on the Pipelines page first"
  | BadWebhook url why => str_debug url ++ " is not a usable webhook URL: " ++ why
  end%string.

Definition validate_webhook (raw : string) : result unit ScheduleError :=
  let? (scheme, has_host) := map_err (parse_url raw) (BadWebhook raw) in
  let? _ := guard (negb (String.eqb scheme "http" || String.eqb scheme "https"))
              (BadWebhook raw ("the scheme must be http or https, not " ++ str_debug scheme)%string) in
  guard (negb has_host) (BadWebhook raw "there is no host in the URL").

Definition validate_restore (a : ScheduleAction) : result unit ScheduleError :=
  match a_restore a with
  | None => Ok tt
  | Some r =>
      let? _ := guard (is_destructive (sr_naming r)) (DestructiveTarget (naming_debug (sr_naming r))) in
      guard (negb (bool_decide (restore_engine (sr_options r) = backup_engine (a_backup a))))
        (ScheduleEngineMismatch (backup_engine (a_backup a)) (restore_engine (sr_options r)))
  end.

Definition validate_parts (name : string) (kind : ScheduleKind) (plan dest pipeline : option Uuid)
    (a : ScheduleAction) (webhook : option string) : result unit ScheduleError :=
  let? _ := guard (String.eqb (trim name) "") NameRequired in
  let? _ := match webhook with Some url => validate_webhook url | None => Ok tt end in
  match kind with
  | KindPipeline =>
      let? _ := guard (negb (is_some pipeline)) PipelineRequired in
      guard (is_some plan || is_some dest || is_some (a_restore a)) PipelineTakesNothingElse
  | _ =>
      let? _ := guard (is_some pipeline) PipelineTakesNothingElse in
      match kind with
      | KindDrill =>
          let? _ := guard (is_some plan) DrillTakesNoPlan in
          let? _ := guard (negb (is_some dest)) DrillNeedsProfile in
          guard (is_some (a_restore a)) DrillTakesNoTarget
      | _ =>
          let? _ := guard (negb (is_some plan)) PlanRequired in
          let? _ := guard (negb (Bool.eqb (is_some dest) (is_some (a_restore a)))) RestoreMismatch in
          validate_restore a
      end
  end.

Definition schedule_validate (s : Schedule) : result unit ScheduleError :=
  validate_parts (sch_name s) (sch_kind s) (plan_id s) (sch_dest_profile_id s) (pipeline_id s) (action s)
    (webhook_url s).

Definition create_schedule_validate (c : ScheduleCreate) : result unit ScheduleError :=
  validate_parts (scr_name c) (scr_kind c) (scr_plan_id c) (scr_dest_profile_id c) (scr_pipeline_id c)
    (scr_action c) (scr_webhook_url c).

Definition not_armed (p : Pipeline) : ScheduleError :=
  PipelineNotArmed (p_name p) (join ", " (destructive_targets p)).

Definition validate_pipeline_target (p : Pipeline) : result unit ScheduleError :=
  if negb (pipeline_is_destructive p) || is_armed p then Ok tt else Err (not_armed p).

(** *** The table of schedules (store.rs) *)

Inductive ScheduleStoreError :=
| ScheduleNotFound (id : Uuid)
| SchedulePipelineNotFound (id : Uuid)
| InvalidSchedule (e : ScheduleError).

Definition check_pipeline_target (pipelines : gmap Uuid Pipeline) (kind : ScheduleKind) (pipeline : option Uuid)
    : result unit ScheduleStoreError :=
  if negb (bool_decide (kind = KindPipeline)) then Ok tt
  else match pipeline with
       | None => Ok tt
       | Some id =>
           let? p := ok_or (pipelines !! id) (SchedulePipelineNotFound id) in
           guard (pipeline_is_destructive p && negb (is_armed p)) (InvalidSchedule (not_armed p))
       end.

(** [id] is a fresh v4 value. *)
Definition create_schedule (pipelines : gmap Uuid Pipeline) (rows : Schedules) (id : Uuid) (now : Z)
    (c : ScheduleCreate) : result (Schedule * Schedules) ScheduleStoreError :=
  let? _ := map_err (create_schedule_validate c) InvalidSchedule in
  let? _ := check_pipeline_target pipelines (scr_kind c) (scr_pipeline_id c) in
  let s := mk_schedule id (scr_name c) (scr_kind c) (scr_plan_id c) (scr_dest_profile_id c) (scr_pipeline_id c)
             (scr_cron c) (scr_timezone c) (scr_enabled c) (scr_action c) (scr_webhook_url c) (scr_notify c)
             (scr_catch_up c) None None None now now in
  Ok (s, <[id := s]> rows).

Definition patch_schedule (s : Schedule) (p : ScheduleUpdate) (now : Z) : Schedule :=
  mk_schedule (sch_id s) (default (sch_name s) (sup_name p)) (sch_kind s) (plan_id s)
    (default (sch_dest_profile_id s) (sup_dest_profile_id p)) (pipeline_id s)
    (default (cron s) (sup_cron p)) (default (timezone s) (sup_timezone p))
    (default (sch_enabled s) (sup_enabled p)) (default (action s) (sup_action p))
    (default (webhook_url s) (sup_webhook_url p)) (default (notify s) (sup_notify p))
    (default (catch_up s) (sup_catch_up p)) (last_run_at s) (last_outcome s) (last_job_id s)
    (sch_created_at s) now.

(** The columns an update writes: the run columns stay as they are in the row. *)
Definition write_schedule (rows : Schedules) (id : Uuid) (s : Schedule) : Schedules :=
  match rows !! id with
  | None => rows
  | Some old =>
      <[id := mk_schedule (sch_id old) (sch_name s) (sch_kind old) (plan_id old) (sch_dest_profile_id s)
                (pipeline_id old) (cron s) (timezone s) (sch_enabled s) (action s) (webhook_url s) (notify s)
                (catch_up s) (last_run_at old) (last_outcome old) (last_job_id old) (sch_created_at old)
                (sch_updated_at s)]> rows
  end.

Definition update_schedule (rows : Schedules) (id : Uuid) (p : ScheduleUpdate) (now : Z)
    : result (Schedule * Schedules) ScheduleStoreError :=
  let? s := ok_or (rows !! id) (ScheduleNotFound id) in
  let s := patch_schedule s p now in
  let? _ := map_err (schedule_validate s) InvalidSchedule in
  Ok (s, write_schedule rows id s).
End Validate.

(** [mark_schedule_started] and [mark_schedule_finished]. *)
Definition started_mark (occurrence : Z) (job : Uuid) (s : Schedule) : Schedule :=
  mk_schedule (sch_id s) (sch_name s) (sch_kind s) (plan_id s) (sch_dest_profile_id s) (pipeline_id s) (cron s)
    (timezone s) (sch_enabled s) (action s) (webhook_url s) (notify s) (catch_up s) (Some occurrence) None
    (Some job) (sch_created_at s) (sch_updated_at s).

Definition finished_mark (o : JobOutcome) (s : Schedule) : Schedule :=
  mk_schedule (sch_id s) (sch_name s) (sch_kind s) (plan_id s) (sch_dest_profile_id s) (pipeline_id s) (cron s)
    (timezone s) (sch_enabled s) (action s) (webhook_url s) (notify s) (catch_up s) (last_run_at s) (Some o)
    (last_job_id s) (sch_created_at s) (sch_updated_at s).

Definition mark_schedule_started (rows : Schedules) (id : Uuid) (occurrence : Z) (job : Uuid) : Schedules :=
  match rows !! id with Some s => <[id := started_mark occurrence job s]> rows | None => rows end.

Definition mark_schedule_finished (rows : Schedules) (id : Uuid) (o : JobOutcome) : Schedules :=
  match rows !! id with Some s => <[id := finished_mark o s]> rows | None => rows end.

(** ** When it fires *)

Section Due.
Context `{Cal : Calendar}.
Variables local utc : TimeZone.

Definition baseline (s : Schedule) : Z := default (sch_created_at s) (last_run_at s).

Definition due_at (s : Schedule) (now grace : Z) : option Z :=
  if negb (sch_enabled s) then None
  else
    match prev_at_or_before local utc (cron s) (timezone s) now with
    | None => None
    | Some occurrence =>
        if occurrence <=? baseline s then None
        else if negb (catch_up s) && (grace <? now - occurrence) then None
        else Some occurrence
    end.

Definition next_run_at (s : Schedule) (now : Z) : exec (option Z) :=
  if sch_enabled s then next_after local utc (cron s) (timezone s) now else Val None.
End Due.

(** ** What it runs *)

Record SyncRequest := mk_sync_request {
  sy_backup : BackupRequest;
  sy_naming : TargetNaming;
  sy_restore : EngineRestoreOptions;
  sy_verify : bool;
  sy_deep_verify : bool;
  sy_masking : list MaskRule;
  sy_retention : option RetentionPolicy;
  sy_typed_confirmation : option string }.

Definition drill_request (s : Schedule) : option DrillRequest :=
  if negb (is_drill s) then None
  else
    let a := action s in
    Some (mk_drill_request (a_output_dir a)
            (match a_restore a with
             | Some r => sr_options r
             | None => default_restore_options (backup_engine (a_backup a))
             end)
            (a_deep_verify a) (a_keep_on_failure a)).

Definition backup_request (s : Schedule) (p : SyncPlan) : BackupRequest :=
  let a := action s in
  mk_backup
    (mk_common (sp_database p) (sp_selections p) (a_output_dir a) (a_compress a) (a_encrypt a)
       (a_record_row_counts a))
    (a_backup a).

Definition sync_request (s : Schedule) (p : SyncPlan) : option SyncRequest :=
  match a_restore (action s) with
  | None => None
  | Some r =>
      Some (mk_sync_request (backup_request s p) (sr_naming r) (sr_options r) (a_verify (action s))
              (a_deep_verify (action s)) (sp_masking p) (a_retention (action s)) None)
  end.

(** ** Lemmas *)

(** A URL this application will send to. *)
Definition usable_webhook (parse_url : string -> result (string * bool) string) (url : string) : Prop :=
  exists scheme, parse_url url = Ok (scheme, true) /\ (scheme = "http" \/ scheme = "https").

Lemma validate_webhook_Ok str_debug parse_url url :
  validate_webhook str_debug parse_url url = Ok tt <-> usable_webhook parse_url url.
Proof.
  unfold validate_webhook, usable_webhook. destruct (parse_url url) as [[scheme host]|e]; simpl.
  2:{ split; [done|]. by intros (? & ? & _). }
  rewrite unit_bind, !guard_Ok, !negb_false_iff, orb_true_iff, !String.eqb_eq. split.
  - intros [H ->]. eauto.
  - by intros (? & [= -> ->] & H).
Qed.

Lemma validate_restore_Ok str_debug a :
  validate_restore str_debug a = Ok tt <->
  forall r, a_restore a = Some r ->
    is_destructive (sr_naming r) = false /\ restore_engine (sr_options r) = backup_engine (a_backup a).
Proof.
  unfold validate_restore. destruct (a_restore a) as [r|]; [|split; [intros _ ? [=]|done]].
  rewrite unit_bind, !guard_Ok, negb_false_iff, bool_decide_eq_true. split.
  - by intros H ? [= <-].
  - intros H. by apply H.
Qed.

Lemma is_some_iff {A} (o : option A) : is_some o = true <-> o <> None.
Proof. by destruct o. Qed.

(** The clock a schedule is read against. *)
Definition zone_of (local utc : TimeZone) (z : ScheduleTimezone) : TimeZone :=
  match z with TzUtc => utc | TzLocal => local end.

Lemma due_at_Some `{Cal : Calendar} local utc s now grace o :
  due_at local utc s now grace = Some o ->
  sch_enabled s = true /\ prev_at_or_before local utc (cron s) (timezone s) now = Some o
  /\ baseline s < o /\ (catch_up s = true \/ now - o <= grace).
Proof.
  unfold due_at. destruct (sch_enabled s); [|done]. simpl.
  destruct (prev_at_or_before _ _ _ _ _) as [x|]; [|done].
  destruct (x <=? baseline s) eqn:E; [done|].
  destruct (negb (catch_up s) && (grace <? now - x)) eqn:E2; [done|]. intros [= ->]. bools.
  split_and!; try done. apply andb_false_iff in E2 as [?|?]; bools; auto.
Qed.

(** In a zone whose clock does not jump, the last matching minute at an instant
    within a matching minute is that minute. *)
Lemma prev_in_minute `{Cal : Calendar} (zone : TimeZone) off `{Fix : !FixedOffset zone off} e now m :
  in_dates (wall (zone := zone) now) -> matches e (wall (zone := zone) m) = true ->
  wall (zone := zone) m = floor_minute (wall (zone := zone) m) -> m <= now < m + minutes 1 ->
  prev_at_or_before_in e zone now = Some m.
Proof.
  intros Hd Hm Hf Hn. pose proof (prev_at_or_before_spec e now Hd) as H.
  assert (minute_index (wall (zone := zone) now) = minute_index (wall (zone := zone) m)) as Hidx.
  { rewrite !(wall_eq (off := off)) in *. rewrite !minute_index_of_ns.
    apply (f_equal ndt_ns) in Hf. rewrite floor_minute_ns, minute_index_of_ns, ndt_ns_of_ns in Hf.
    unfold minutes, secs in Hn. pose proof ns_per_sec_pos.
    set (q := (m + off) / (60 * ns_per_sec)) in *. symmetry.
    apply Z.div_unique_pos with (r := now + off - (60 * ns_per_sec) * q); nia. }
  pose proof (wall_valid (zone := zone) (off := off) now) as Hvn.
  pose proof (wall_valid (zone := zone) (off := off) m) as Hvm.
  destruct (prev_at_or_before_in e zone now) as [i|].
  - destruct H as (Hi & _ & Hif & Hno). f_equal.
    pose proof (wall_minute_mono (zone := zone) (off := off) i now Hi) as Hle.
    assert (~ minute_index (wall (zone := zone) i) < minute_index (wall (zone := zone) m)) as Hnl.
    { intros Hlt. rewrite (Hno m Hlt) in Hm; [done|lia]. }
    assert (minute_index (wall (zone := zone) i) = minute_index (wall (zone := zone) m)) as Heq by lia.
    apply (f_equal ndt_ns) in Hif, Hf. rewrite floor_minute_ns in Hif, Hf. rewrite Heq, <- Hf in Hif.
    rewrite !(wall_eq (off := off)), !ndt_ns_of_ns in Hif. lia.
  - assert (date (wall (zone := zone) m) = date (wall (zone := zone) now)) as Hdt.
    { destruct Hvn as (? & ? & _), Hvm as (? & ? & _). unfold minute_index in Hidx. lia. }
    unfold in_dates in Hd. rewrite H in Hm; [done|lia|lia|lia].
Qed.

(** ** Theorems *)

(** A schedule is accepted exactly when it has a name, a webhook that can be
    sent to, and describes one run that can happen unattended: a pipeline and
    nothing else; a drill of one connection, which chooses its own target; or a
    sync of a plan whose restore, if it has one, destroys nothing and is for the
    engine that is backed up. *)
Theorem validate_parts_iff str_debug parse_url name kind plan dest pipeline a webhook :
  validate_parts str_debug parse_url name kind plan dest pipeline a webhook = Ok tt <->
  trim name <> "" /\ (forall url, webhook = Some url -> usable_webhook parse_url url)
  /\ match kind with
     | KindPipeline => pipeline <> None /\ plan = None /\ dest = None /\ a_restore a = None
     | KindDrill => pipeline = None /\ plan = None /\ dest <> None /\ a_restore a = None
     | KindSync =>
         pipeline = None /\ plan <> None /\ (dest = None <-> a_restore a = None)
         /\ forall r, a_restore a = Some r ->
              is_destructive (sr_naming r) = false /\ restore_engine (sr_options r) = backup_engine (a_backup a)
     end.
Proof.
  unfold validate_parts. rewrite unit_bind, guard_Ok, String.eqb_neq, unit_bind.
  assert ((match webhook with Some url => validate_webhook str_debug parse_url url | None => Ok tt end) = Ok tt
          <-> forall url, webhook = Some url -> usable_webhook parse_url url) as ->.
  { destruct webhook as [url|]; [|by split]. rewrite validate_webhook_Ok. split; [by intros ? ? [= <-]|auto]. }
  do 2 apply and_iff_compat_l.
  destruct kind; rewrite !unit_bind, ?guard_Ok, ?validate_restore_Ok, ?orb_false_iff, ?negb_false_iff,
    ?is_some_iff, ?is_some_false; [|tauto|tauto].
  apply and_iff_compat_l, and_iff_compat_l, and_iff_compat_r.
  rewrite eqb_true_iff. destruct dest, (a_restore a); simpl; intuition congruence.
Qed.

(** In a zone whose clock does not jump, an enabled schedule is due at every
    instant of each of its matching minutes until that occurrence is marked as
    started; from then on only a later occurrence is due, so one that was missed
    is made up for at most once. *)
Theorem occurrence_is_due_until_marked `{Cal : Calendar} local utc off s now m job :
  FixedOffset (zone_of local utc (timezone s)) off ->
  in_dates (wall (zone := zone_of local utc (timezone s)) now) ->
  matches (cron s) (wall (zone := zone_of local utc (timezone s)) m) = true ->
  wall (zone := zone_of local utc (timezone s)) m
    = floor_minute (wall (zone := zone_of local utc (timezone s)) m) ->
  m <= now < m + minutes 1 -> sch_enabled s = true -> baseline s < m ->
  due_at local utc s now DEFAULT_GRACE = Some m
  /\ due_at local utc (started_mark m job s) now DEFAULT_GRACE = None
  /\ forall later grace o, due_at local utc (started_mark m job s) later grace = Some o -> m < o.
Proof.
  intros Hfix Hd Hm Hf Hn He Hb.
  assert (prev_at_or_before local utc (cron s) (timezone s) now = Some m) as Hp.
  { unfold prev_at_or_before. fold (zone_of local utc (timezone s)). by apply (prev_in_minute _ off). }
  assert (forall later grace o, due_at local utc (started_mark m job s) later grace = Some o -> m < o) as Hlater.
  { intros later grace o H. apply due_at_Some in H as (_ & _ & H & _). exact H. }
  split; [|split; [|exact Hlater]].
  - unfold due_at. rewrite He, Hp. simpl. replace (m <=? baseline s) with false by (symmetry; apply Z.leb_gt; lia).
    replace (DEFAULT_GRACE <? now - m) with false; [by rewrite andb_false_r|]. symmetry. apply Z.ltb_ge.
    unfold DEFAULT_GRACE, minutes, secs in *. pose proof ns_per_sec_pos. lia.
  - destruct (due_at local utc (started_mark m job s) now DEFAULT_GRACE) as [o|] eqn:E; [|done].
    pose proof (Hlater _ _ _ E) as Hlt. apply due_at_Some in E as (_ & E & _).
    change (prev_at_or_before local utc (cron s) (timezone s) now = Some o) in E. rewrite Hp in E.
    injection E as <-. lia.
Qed.

(** An update does not ask whether the pipeline it would run may drop a
    database unattended, so a schedule that [check_pipeline_target] refuses can
    be enabled; the run itself is then refused. *)
Theorem update_skips_the_arming_check str_debug parse_url pipelines rows id s pid p now :
  rows !! id = Some s -> schedule_validate str_debug parse_url s = Ok tt ->
  sch_kind s = KindPipeline -> pipeline_id s = Some pid -> pipelines !! pid = Some p ->
  pipeline_is_destructive p = true -> is_armed p = false ->
  check_pipeline_target pipelines (sch_kind s) (pipeline_id s) = Err (InvalidSchedule (not_armed p))
  /\ validate_pipeline_target p = Err (not_armed p)
  /\ exists s' rows', update_schedule str_debug parse_url rows id
        (mk_schedule_update None None None (Some true) None None None None None) now = Ok (s', rows')
      /\ sch_enabled s' = true /\ pipeline_id s' = Some pid.
Proof.
  intros Hr Hv Hk Hp Hpl Hd Ha. split_and!.
  - unfold check_pipeline_target. rewrite Hk, Hp, Hpl. simpl. by rewrite Hd, Ha.
  - unfold validate_pipeline_target. by rewrite Hd, Ha.
  - unfold update_schedule. rewrite Hr. simpl. unfold schedule_validate in *. simpl. rewrite Hv. simpl.
    by do 2 eexists.
Qed.

(** ** Witnesses *)

Definition sample_action : ScheduleAction :=
  mk_action "/backups" true false (BMysql mysql_default) None true false None false false.

Definition sample_schedule (kind : ScheduleKind) (pipeline : option Uuid) (enabled : bool) : Schedule :=
  mk_schedule 5 "nightly" kind (match kind with KindSync => Some 3%N | _ => None end) None pipeline
    (parsed "*/15 * * * *") TzUtc enabled sample_action None NotifyOnFailure false None None None noon_ish noon_ish.

Lemma due_in_dates : in_dates (wall (zone := utc_zone) (noon_ish + minutes 15 + secs 30)).
Proof. apply utc_in_dates. by vm_compute. Qed.

Lemma quarter_matches :
  matches (parsed "*/15 * * * *") (wall (zone := utc_zone) (noon_ish + minutes 15)) = true
  /\ wall (zone := utc_zone) (noon_ish + minutes 15)
     = floor_minute (wall (zone := utc_zone) (noon_ish + minutes 15)).
Proof. split; vm_compute; reflexivity. Qed.

Lemma quarter_within : noon_ish + minutes 15 <= noon_ish + minutes 15 + secs 30 < noon_ish + minutes 15 + minutes 1.
Proof. unfold minutes, secs, ns_per_sec. lia. Qed.

Lemma quarter_after : baseline (sample_schedule KindSync None true) < noon_ish + minutes 15.
Proof. unfold baseline. simpl. unfold minutes, secs, ns_per_sec. lia. Qed.

Lemma occurrence_is_due_until_marked_witness :
  due_at utc_zone utc_zone (sample_schedule KindSync None true) (noon_ish + minutes 15 + secs 30) DEFAULT_GRACE
  = Some (noon_ish + minutes 15).
Proof.
  exact (proj1 (occurrence_is_due_until_marked utc_zone utc_zone (days unix_epoch_day)
    (sample_schedule KindSync None true) (noon_ish + minutes 15 + secs 30) (noon_ish + minutes 15) 1
    utc_fixed due_in_dates (proj1 quarter_matches) (proj2 quarter_matches) quarter_within eq_refl
    quarter_after)).
Defined.

Definition disabled_rows : Schedules := {[5%N := sample_schedule KindPipeline (Some 7%N) false]}.

Definition no_url (raw : string) : result (string * bool) string := Err "not a URL".

Definition enable : ScheduleUpdate := mk_schedule_update None None None (Some true) None None None None None.

Lemma update_skips_the_arming_check_witness :
  exists s' rows', update_schedule id no_url disabled_rows 5%N enable 0 = Ok (s', rows')
    /\ sch_enabled s' = true /\ pipeline_id s' = Some 7%N.
Proof.
  apply (update_skips_the_arming_check id no_url (sample_rows None 0) disabled_rows 5%N
    (sample_schedule KindPipeline (Some 7%N) false) 7%N (sample_pipeline None 0) 0); vm_compute; reflexivity.
Defined.
