(* ===== verification/Scheduler.v ===== *)
(** * Scheduler: claims, runs and marks (engine/src/scheduler.rs)

    The loop of [run] reads the enabled schedules and walks them ([tick_once]);
    a schedule that is due is claimed and its run spawned; the run marks the
    occurrence, works, records the outcome and releases the claim ([execute]).
    Every await point is a place where another part may move, so the model is a
    step relation in which ticks, manual runs, running tasks and edits
    interleave; what a run does while it works is in ScheduledRun. *)

From Stdlib Require Import ZArith Lia Ascii String List Bool.
From stdpp Require Import base list gmap strings.
From S2P Require Import Prelude Text Time Domain Job Cron CronScan Schedule.
Import ListNotations.

Open Scope string_scope.
Open Scope list_scope.
Open Scope Z_scope.

(** Where a spawned run stands. *)
Inductive Phase :=
| Spawned      (* nothing written yet *)
| Working      (* the start is marked, or the mark failed, or there is none *)
| Settled.     (* the outcome is recorded *)

Record Task := mk_task {
  t_schedule : Schedule;
  t_occurrence : option Z;
  t_job : Uuid;
  t_phase : Phase }.

Definition t_id (t : Task) : Uuid := sch_id (t_schedule t).
Definition in_phase (t : Task) (p : Phase) : Task := mk_task (t_schedule t) (t_occurrence t) (t_job t) p.

Record SchedState := mk_sched {
  rows : Schedules;
  in_flight : gset Uuid;
  ticking : option (Z * list Schedule);     (* the tick under way, and what it has still to look at *)
  asked : list Schedule;                    (* manual runs that have read their schedule *)
  tasks : list Task;
  fired : list (Uuid * Z) }.                (* every occurrence a tick has spawned a run for *)

(** [list_enabled_schedules]. *)
Definition list_enabled (r : Schedules) : list Schedule :=
  sort_by (fun a b => String.leb (sch_name a) (sch_name b))
    (List.filter sch_enabled (map snd (map_to_list r))).

(** [claim]: [HashSet::insert]. *)
Definition claim (w : SchedState) (id : Uuid) : bool * gset Uuid :=
  (negb (bool_decide (id ∈ in_flight w)), {[id]} ∪ in_flight w).

(** [release]. *)
Definition release (w : SchedState) (id : Uuid) : gset Uuid := in_flight w ∖ {[id]}.

(** [spawn_run], after a claim. *)
Definition spawn_run (w : SchedState) (s : Schedule) (occurrence : option Z) (job : Uuid)
    (rest : option (Z * list Schedule)) (asked' : list Schedule) : SchedState :=
  mk_sched (rows w) (claim w (sch_id s)).2 rest asked' (mk_task s occurrence job Spawned :: tasks w)
    (match occurrence with Some o => (sch_id s, o) :: fired w | None => fired w end).

(** The start of [execute]: a due run writes its mark. *)
Definition mark_start (r : Schedules) (t : Task) : Schedules :=
  match t_occurrence t with
  | Some due => mark_schedule_started r (t_id t) due (t_job t)
  | None => r
  end.

Definition with_rows (w : SchedState) (r : Schedules) : SchedState :=
  mk_sched r (in_flight w) (ticking w) (asked w) (tasks w) (fired w).

Definition with_tasks (w : SchedState) (r : Schedules) (l : list Task) : SchedState :=
  mk_sched r (in_flight w) (ticking w) (asked w) l (fired w).

(** What a step may do to the memory of past occurrences: keep it, act on a
    schedule read before it was last marked, or lose a mark. *)
Inductive Label := Sound | Stale | LostMark.

#[export] Instance Label_eq : EqDecision Label.
Proof. solve_decision. Defined.

(** The schedule read is still the one in the table, as far as its mark goes. *)
Definition current (r : Schedules) (s : Schedule) : bool :=
  match r !! sch_id s with
  | Some row => bool_decide (last_run_at row = last_run_at s) && (sch_created_at row =? sch_created_at s)
  | None => false
  end.

Section Steps.
Context `{Cal : Calendar}.
Variables local utc : TimeZone.

Inductive SchedStep : Label -> SchedState -> SchedState -> Prop :=
| TickRead w now :
    ticking w = None ->
    SchedStep Sound w (mk_sched (rows w) (in_flight w) (Some (now, list_enabled (rows w))) (asked w) (tasks w) (fired w))
| TickNotDue w now s rest :
    ticking w = Some (now, s :: rest) -> due_at local utc s now DEFAULT_GRACE = None ->
    SchedStep Sound w (mk_sched (rows w) (in_flight w) (Some (now, rest)) (asked w) (tasks w) (fired w))
| TickBusy w now s rest due :
    ticking w = Some (now, s :: rest) -> due_at local utc s now DEFAULT_GRACE = Some due ->
    (claim w (sch_id s)).1 = false ->
    SchedStep Sound w (mk_sched (rows w) (in_flight w) (Some (now, rest)) (asked w) (tasks w) (fired w))
| TickClaim w now s rest due job :
    ticking w = Some (now, s :: rest) -> due_at local utc s now DEFAULT_GRACE = Some due ->
    (claim w (sch_id s)).1 = true ->
    SchedStep (if current (rows w) s then Sound else Stale) w
      (spawn_run w s (Some due) job (Some (now, rest)) (asked w))
| TickEnd w now :
    ticking w = Some (now, []) ->
    SchedStep Sound w (mk_sched (rows w) (in_flight w) None (asked w) (tasks w) (fired w))
| RunNowRead w id s :
    rows w !! id = Some s ->
    SchedStep Sound w (mk_sched (rows w) (in_flight w) (ticking w) (s :: asked w) (tasks w) (fired w))
| RunNowClaim w pre s post job :
    asked w = pre ++ s :: post -> (claim w (sch_id s)).1 = true ->
    SchedStep Sound w (spawn_run w s None job (ticking w) (pre ++ post))
| RunNowBusy w pre s post :
    asked w = pre ++ s :: post -> (claim w (sch_id s)).1 = false ->
    SchedStep Sound w (mk_sched (rows w) (in_flight w) (ticking w) (pre ++ post) (tasks w) (fired w))
| TaskMark w pre t post :
    tasks w = pre ++ t :: post -> t_phase t = Spawned ->
    SchedStep Sound w (with_tasks w (mark_start (rows w) t) (pre ++ in_phase t Working :: post))
| TaskMarkFails w pre t post :
    tasks w = pre ++ t :: post -> t_phase t = Spawned -> t_occurrence t <> None ->
    SchedStep LostMark w (with_tasks w (rows w) (pre ++ in_phase t Working :: post))
| TaskSettle w pre t post o :
    tasks w = pre ++ t :: post -> t_phase t = Working ->
    SchedStep Sound w (with_tasks w (mark_schedule_finished (rows w) (t_id t) o) (pre ++ in_phase t Settled :: post))
| TaskSettleFails w pre t post :
    tasks w = pre ++ t :: post -> t_phase t = Working ->
    SchedStep Sound w (with_tasks w (rows w) (pre ++ in_phase t Settled :: post))
| TaskRelease w pre t post :
    tasks w = pre ++ t :: post -> t_phase t = Settled ->
    SchedStep Sound w (mk_sched (rows w) (release w (t_id t)) (ticking w) (asked w) (pre ++ post) (fired w))
| TaskPanics w pre t post :
    tasks w = pre ++ t :: post -> t_phase t <> Spawned ->
    SchedStep Sound w (with_tasks w (rows w) (pre ++ post))
| Edit w id s s' :
    rows w !! id = Some s -> sch_id s' = sch_id s -> last_run_at s' = last_run_at s ->
    sch_created_at s' = sch_created_at s -> SchedStep Sound w (with_rows w (<[id := s']> (rows w)))
| Create w s :
    rows w !! sch_id s = None -> last_run_at s = None -> (forall o, ~ In (sch_id s, o) (fired w)) ->
    SchedStep Sound w (with_rows w (<[sch_id s := s]> (rows w)))
| Delete w id : SchedStep Sound w (with_rows w (base.delete id (rows w))).

Definition any_step (w w' : SchedState) : Prop := exists l, SchedStep l w w'.
Definition sound_step : SchedState -> SchedState -> Prop := SchedStep Sound.
End Steps.

(** A scheduler that has just started. *)
Definition idle (r : Schedules) : SchedState := mk_sched r ∅ None [] [] [].

(** The rows of a store are kept under their own keys. *)
Definition keyed (r : Schedules) : Prop := forall id s, r !! id = Some s -> sch_id s = id.

(** ** Lemmas *)

Definition ids (l : list Task) : list Uuid := map t_id l.

(** At most one run per schedule, each holding its claim. *)
Definition exclusive (w : SchedState) : Prop :=
  NoDup (ids (tasks w)) /\ forall id, In id (ids (tasks w)) -> id ∈ in_flight w.

Lemma claim_free w id : (claim w id).1 = true <-> id ∉ in_flight w.
Proof. unfold claim. simpl. by rewrite negb_true_iff, bool_decide_eq_false. Qed.

Lemma release_iff w id id' : id ∈ release w id' <-> id ∈ in_flight w /\ id <> id'.
Proof. unfold release. by rewrite elem_of_difference, elem_of_singleton. Qed.

Lemma ids_phase pre t p post : ids (pre ++ in_phase t p :: post) = ids (pre ++ t :: post).
Proof. unfold ids. by rewrite !map_app. Qed.

Lemma ids_app pre t post : ids (pre ++ t :: post) = ids pre ++ t_id t :: ids post.
Proof. unfold ids. by rewrite map_app. Qed.

Lemma exclusive_phase w r pre t p post :
  tasks w = pre ++ t :: post -> exclusive w -> exclusive (with_tasks w r (pre ++ in_phase t p :: post)).
Proof. intros E H. unfold exclusive in *. simpl. by rewrite ids_phase, <- E. Qed.

Lemma exclusive_spawn w s o job rest asked' :
  (claim w (sch_id s)).1 = true -> exclusive w -> exclusive (spawn_run w s o job rest asked').
Proof.
  rewrite claim_free. intros Hf [Hn Hi]. split; simpl.
  - apply NoDup_cons. split; [|done]. intros Hin%list_elem_of_In. by apply Hf, Hi.
  - intros id [<-|Hin]; [|apply elem_of_union_r; by apply Hi].
    by apply elem_of_union_l, elem_of_singleton.
Qed.

(** A task that ends leaves the others as they were. *)
Lemma ids_removed w pre t post :
  tasks w = pre ++ t :: post -> exclusive w ->
  NoDup (ids (pre ++ post)) /\ forall id, In id (ids (pre ++ post)) -> id ∈ in_flight w /\ id <> t_id t.
Proof.
  intros E [Hn Hi]. rewrite E, ids_app in Hn, Hi.
  apply NoDup_app in Hn as (Hpre & Hdis & Hpost). apply NoDup_cons in Hpost as [Ht Hpost].
  assert (ids (pre ++ post) = ids pre ++ ids post) as -> by (unfold ids; by rewrite map_app). split.
  - apply NoDup_app. split_and!; [done| |done]. intros x Hx Hx'. apply (Hdis x Hx). by right.
  - setoid_rewrite in_app_iff in Hi. setoid_rewrite in_app_iff. intros id Hid. split.
    + apply Hi. destruct Hid; [by left|by right; right].
    + intros ->. destruct Hid as [Hid|Hid]; apply list_elem_of_In in Hid; [|done].
      apply (Hdis _ Hid). by left.
Qed.

Section Invariants.
Context `{Cal : Calendar}.
Variables local utc : TimeZone.

Lemma step_exclusive l w w' : SchedStep local utc l w w' -> exclusive w -> exclusive w'.
Proof.
  intros Hs Hx. destruct Hs as [| | | ? now s rest due job Et Ed Hc| | |? pre s post job Ea Hc| |? pre t post E Hp
    |? pre t post E Hp Ho|? pre t post o E Hp|? pre t post E Hp|? pre t post E Hp|? pre t post E Hp| | |];
    try exact Hx; try (by apply exclusive_spawn); try (by eapply exclusive_phase).
  - destruct (ids_removed w pre t post E Hx) as [Hn Hi]. split; simpl; [done|].
    intros id Hid. apply release_iff. by apply Hi.
  - destruct (ids_removed w pre t post E Hx) as [Hn Hi]. split; simpl; [done|].
    intros id Hid. by apply Hi.
Qed.

Lemma steps_exclusive w w' : rtc (any_step local utc) w w' -> exclusive w -> exclusive w'.
Proof. induction 1 as [|x y z [l Hxy] _ IH]; [done|]. intros Hx. apply IH. by eapply step_exclusive. Qed.

Lemma idle_exclusive r : exclusive (idle r).
Proof. split; [constructor|done]. Qed.

(** *** Claims without a run *)

Definition orphaned (id : Uuid) (w : SchedState) : Prop := id ∈ in_flight w /\ ~ In id (ids (tasks w)).

Lemma step_orphaned id l w w' : SchedStep local utc l w w' -> orphaned id w -> orphaned id w'.
Proof.
  intros Hs [Hf Hn]. destruct Hs as [| | | ? now s rest due job Et Ed Hc| | |? pre s post job Ea Hc| |? pre t post E Hp
    |? pre t post E Hp Ho|? pre t post o E Hp|? pre t post E Hp|? pre t post E Hp|? pre t post E Hp| | |];
    try (by split); unfold orphaned; simpl.
  1,2: apply claim_free in Hc; split; [by apply elem_of_union_r|]; intros [<-|Hi]; [done|by apply Hn].
  1-4: rewrite ids_phase, <- E; by split.
  - rewrite E, ids_app, in_app_iff in Hn. unfold ids. rewrite map_app, in_app_iff. split.
    + apply release_iff. split; [done|]. intros ->. apply Hn. right. by left.
    + intros [Hi|Hi]; apply Hn; [by left|right; by right].
  - rewrite E, ids_app, in_app_iff in Hn. unfold ids. rewrite map_app, in_app_iff. split; [done|].
    intros [Hi|Hi]; apply Hn; [by left|right; by right].
Qed.

Lemma steps_orphaned id w w' : rtc (any_step local utc) w w' -> orphaned id w -> orphaned id w'.
Proof. induction 1 as [|x y z [l Hxy] _ IH]; [done|]. intros Hx. apply IH. by eapply step_orphaned. Qed.

(** A run of schedule [id] panicked on the way to [w]. *)
Definition panicked_before (r : Schedules) (id : Uuid) (w : SchedState) : Prop :=
  exists w1 pre t post, rtc (any_step local utc) (idle r) w1
    /\ tasks w1 = pre ++ t :: post /\ t_id t = id /\ t_phase t <> Spawned
    /\ rtc (any_step local utc) (with_tasks w1 (rows w1) (pre ++ post)) w.

(** Every claim has a run, or had one that panicked. *)
Definition accounted (r : Schedules) (w : SchedState) : Prop :=
  forall id, id ∈ in_flight w -> In id (ids (tasks w)) \/ panicked_before r id w.

Lemma panicked_before_step r id w w' :
  any_step local utc w w' -> panicked_before r id w -> panicked_before r id w'.
Proof.
  intros Hs (w1 & pre & t & post & H1 & E & Et & Ep & H2). exists w1, pre, t, post. split_and!; try done.
  eapply rtc_r; [exact H2|exact Hs].
Qed.

Lemma ids_dropped pre t post id : In id (ids (pre ++ t :: post)) -> id = t_id t \/ In id (ids (pre ++ post)).
Proof.
  rewrite ids_app. unfold ids. rewrite map_app, !in_app_iff. intros [H|[<-|H]]; auto.
Qed.

Lemma step_accounted r w w' :
  rtc (any_step local utc) (idle r) w -> any_step local utc w w' -> accounted r w -> accounted r w'.
Proof.
  intros Hr Hs Ha id Hid. pose proof Hs as [l Hl].
  assert (Hc : id ∈ in_flight w -> (In id (ids (tasks w)) -> In id (ids (tasks w'))) ->
    In id (ids (tasks w')) \/ panicked_before r id w').
  { intros Hf Hi. destruct (Ha id Hf) as [?|Hp]; [left; by apply Hi|right; by eapply panicked_before_step]. }
  destruct Hl as [| | | ? now s rest due job Et Ed Hcl| | |? pre s post job Ea Hcl| |? pre t post E Hp
    |? pre t post E Hp Ho|? pre t post o E Hp|? pre t post E Hp|? pre t post E Hp|? pre t post E Hp| | |];
    simpl in *; try (by apply Hc).
  1,2: apply elem_of_union in Hid as [->%elem_of_singleton|Hid]; [left; by left|apply Hc; [done|by right]].
  1-4: apply Hc; [done|]; by rewrite ids_phase, <- E.
  - apply release_iff in Hid as [Hid Hne]. apply Hc; [done|]. rewrite E. by intros [?|?]%ids_dropped.
  - destruct (decide (id = t_id t)) as [->|Hne].
    + right. by exists w, pre, t, post.
    + apply Hc; [done|]. rewrite E. by intros [?|?]%ids_dropped.
Qed.

Lemma steps_accounted r w : rtc (any_step local utc) (idle r) w -> accounted r w.
Proof.
  intros H. pattern w. revert w H. apply rtc_ind_r; [by intros id Hid%not_elem_of_empty|].
  intros y z Hy Hyz IH. by eapply step_accounted.
Qed.

(** *** The memory of past occurrences *)

Definition waits (t : Task) (o : Z) : Prop := t_phase t = Spawned /\ t_occurrence t = Some o.

(** The row, if it is still there, is marked at [o] or later. *)
Definition marked_past (r : Schedules) (id : Uuid) (o : Z) : Prop :=
  forall s, r !! id = Some s -> exists l, last_run_at s = Some l /\ o <= l.

Record remembers (w : SchedState) : Prop := {
  m_keyed : keyed (rows w);
  m_once : NoDup (fired w);
  m_marked : forall id o, In (id, o) (fired w) ->
    (exists t, In t (tasks w) /\ t_id t = id /\ waits t o) \/ marked_past (rows w) id o;
  m_latest : forall t due, In t (tasks w) -> waits t due ->
    forall o, In (t_id t, o) (fired w) -> o <= due }.

(** A change of rows that moves no mark. *)
Definition same_marks (w : SchedState) (r : Schedules) : Prop :=
  keyed r /\ forall id s', r !! id = Some s' ->
    (exists s, rows w !! id = Some s /\ last_run_at s' = last_run_at s) \/ forall o, ~ In (id, o) (fired w).

Lemma same_marks_refl w : keyed (rows w) -> same_marks w (rows w).
Proof. intros Hk. split; [done|]. intros id s0 Hs. left. eauto. Qed.

(** Rows that keep their marks, and tasks that keep the ones that wait. *)
Lemma remembers_keep w r fl tk ak l :
  same_marks w r -> (forall t, In t l -> t_phase t = Spawned -> In t (tasks w)) ->
  (forall t, In t (tasks w) -> t_phase t = Spawned -> In t l) ->
  remembers w -> remembers (mk_sched r fl tk ak l (fired w)).
Proof.
  intros [Hk Hr] Hl Hl' [_ Ho Hm Ht]. split; simpl; [done|done| |].
  - intros id o Hi. destruct (Hm id o Hi) as [(t & Hin & Hid & Hw)|Hp].
    + left. exists t. split; [|done]. apply Hl'; [done|apply Hw].
    + right. intros s' Hs'. destruct (Hr id s' Hs') as [(s & Hs & ->)|Hn]; [by apply Hp|by destruct (Hn o)].
  - intros t due Hin Hw. apply Ht; [|done]. apply Hl; [done|apply Hw].
Qed.

Lemma spawned_split {A} (P : A -> Prop) pre t t' post x :
  ~ P t -> ~ P t' -> P x -> In x (pre ++ t :: post) <-> In x (pre ++ t' :: post).
Proof.
  intros Ht Ht' Hx. rewrite !in_app_iff. simpl.
  split; (intros [H1|[H1|H1]]; [by left|subst; contradiction|by right; right]).
Qed.

Lemma spawned_drop {A} (P : A -> Prop) pre t post x :
  ~ P t -> P x -> In x (pre ++ t :: post) <-> In x (pre ++ post).
Proof.
  intros Ht Hx. rewrite !in_app_iff. simpl.
  split; [intros [H1|[H1|H1]]; [by left|subst; contradiction|by right]|tauto].
Qed.

Lemma remembers_phase w r pre t p post :
  tasks w = pre ++ t :: post -> t_phase t <> Spawned -> p <> Spawned -> same_marks w r ->
  remembers w -> remembers (with_tasks w r (pre ++ in_phase t p :: post)).
Proof.
  intros E Ht Hp Hr. apply remembers_keep; [done|..]; intros x Hx Hs; rewrite E in *;
    eapply (spawned_split (fun t => t_phase t = Spawned)); try exact Hx; done.
Qed.

Lemma remembers_drop w fl pre t post :
  tasks w = pre ++ t :: post -> t_phase t <> Spawned ->
  remembers w -> remembers (mk_sched (rows w) fl (ticking w) (asked w) (pre ++ post) (fired w)).
Proof.
  intros E Ht Hw. apply remembers_keep; [apply same_marks_refl, Hw| | |done]; intros x Hx Hs; rewrite E in *.
  - rewrite (spawned_drop (fun t => t_phase t = Spawned)) in *; [exact Hx|done|done].
  - rewrite (spawned_drop (fun t => t_phase t = Spawned)) in Hx; [exact Hx|done|done].
Qed.

Lemma keyed_insert r id s : keyed r -> sch_id s = id -> keyed (<[id := s]> r).
Proof. intros Hk E j s' [[<- <-]|[_ H]]%lookup_insert_Some; [done|by apply Hk]. Qed.

Lemma keyed_mark_start r t : keyed r -> keyed (mark_start r t).
Proof.
  unfold mark_start, mark_schedule_started. intros Hk. destruct (t_occurrence t); [|done].
  destruct (r !! t_id t) as [s|] eqn:E; [|done]. apply keyed_insert; [done|]. simpl. by apply Hk.
Qed.

(** A due run marks its own occurrence, and touches no other row. *)
Lemma mark_start_lookup r t id s :
  mark_start r t !! id = Some s ->
  (exists due, t_occurrence t = Some due /\ id = t_id t /\ last_run_at s = Some due)
  \/ (r !! id = Some s /\ (id = t_id t -> t_occurrence t = None)).
Proof.
  unfold mark_start, mark_schedule_started. destruct (t_occurrence t) as [due|]; [|by right].
  destruct (r !! t_id t) as [s0|] eqn:E.
  - intros [[<- <-]|[Hne Hs]]%lookup_insert_Some; [left; by exists due|]. right. split; [done|]. by intros ->.
  - intros Hs. right. split; [done|]. intros ->. by rewrite E in Hs.
Qed.

(** Every earlier occurrence of a schedule with no run in flight is marked. *)
Lemma idle_marked w id o :
  exclusive w -> remembers w -> id ∉ in_flight w -> In (id, o) (fired w) -> marked_past (rows w) id o.
Proof.
  intros [_ Hx] Hw Hf Hi. destruct (m_marked w Hw id o Hi) as [(t & Hin & <- & _)|Hp]; [|done].
  destruct Hf. apply Hx. by apply in_map.
Qed.

Lemma remembers_claim w s due now job rest :
  exclusive w -> remembers w -> (claim w (sch_id s)).1 = true ->
  due_at local utc s now DEFAULT_GRACE = Some due -> current (rows w) s = true ->
  remembers (spawn_run w s (Some due) job rest (asked w)).
Proof.
  intros Hx Hw Hc Hd Hcur. apply claim_free in Hc. apply due_at_Some in Hd as (_ & _ & Hb & _).
  assert (forall o, In (sch_id s, o) (fired w) -> o < due) as Hold.
  { intros o Hi. pose proof (idle_marked w _ _ Hx Hw Hc Hi) as Hp. unfold current in Hcur.
    destruct (rows w !! sch_id s) as [row|] eqn:E; [|done]. apply andb_true_iff in Hcur as [El%bool_decide_eq_true _].
    destruct (Hp row E) as (l & Hl & Hle). unfold baseline in Hb. rewrite <- El, Hl in Hb. simpl in Hb. lia. }
  destruct Hw as [Hk Ho Hm Ht]. split; simpl; [done| | |].
  - apply NoDup_cons. split; [|done]. intros Hi%list_elem_of_In. specialize (Hold _ Hi). lia.
  - intros id o [[= <- <-]|Hi].
    + left. eexists. split; [by left|]. by split.
    + destruct (Hm id o Hi) as [(t & Hin & Hid & Hwt)|Hp]; [|by right]. left. exists t. by split; [right|].
  - intros t d [<-|Hin] [Hp Hoc] o.
    + simpl in Hoc. injection Hoc as <-. intros [[= <-]|Hi]; [lia|]. apply Hold in Hi. lia.
    + intros [[= Hid <-]|Hi]; [|by apply (Ht t d Hin (conj Hp Hoc))].
      destruct Hc. destruct Hx as [_ Hx]. rewrite Hid. apply Hx. by apply in_map.
Qed.

Lemma remembers_manual w s job pre post :
  remembers w -> remembers (spawn_run w s None job (ticking w) (pre ++ post)).
Proof.
  intros [Hk Ho Hm Ht]. split; simpl; [done|done| |].
  - intros id o Hi. destruct (Hm id o Hi) as [(t & Hin & Hid & Hw)|Hp]; [|by right].
    left. exists t. by split; [right|].
  - intros t d [<-|Hin] Hw; [by destruct Hw|by apply Ht].
Qed.

Lemma remembers_mark w pre t post :
  tasks w = pre ++ t :: post -> t_phase t = Spawned -> remembers w ->
  remembers (with_tasks w (mark_start (rows w) t) (pre ++ in_phase t Working :: post)).
Proof.
  intros E Hp [Hk Ho Hm Ht].
  assert (In t (tasks w)) as Hin by (rewrite E; apply in_app_iff; right; by left).
  split; simpl; [by apply keyed_mark_start|done| |].
  - intros id o Hi.
    assert (forall s, mark_start (rows w) t !! id = Some s ->
              (id = t_id t /\ t_occurrence t <> None) \/ rows w !! id = Some s) as Hrows.
    { intros s [(due & Hd & -> & _)|[Hs _]]%mark_start_lookup; [left; split; congruence|by right]. }
    destruct (decide (id = t_id t /\ t_occurrence t <> None)) as [[-> Hne]|Hother].
    + right. intros s Hs. destruct (mark_start_lookup _ _ _ _ Hs) as [(due & Hd & _ & Hl)|[_ Hn]].
      * exists due. split; [done|]. by apply (Ht t due Hin (conj Hp Hd)).
      * by destruct Hne, Hn.
    + destruct (Hm id o Hi) as [(x & Hx & Hid & Hw)|Hmp].
      * left. exists x. split; [|done]. rewrite E in Hx. apply in_app_iff in Hx as [Hx|[<-|Hx]].
        { apply in_app_iff. by left. }
        { destruct Hother. split; [done|]. destruct Hw as [_ ->]. done. }
        { apply in_app_iff. right. by right. }
      * right. intros s Hs. destruct (Hrows s Hs) as [?|Hs']; [done|by apply Hmp].
  - intros x due Hx Hw. apply Ht; [|done]. rewrite E. apply in_app_iff in Hx as [Hx|[<-|Hx]].
    + apply in_app_iff. by left.
    + by destruct Hw.
    + apply in_app_iff. right. by right.
Qed.

Lemma same_marks_settle w id o : keyed (rows w) -> same_marks w (mark_schedule_finished (rows w) id o).
Proof.
  intros Hk. unfold mark_schedule_finished. destruct (rows w !! id) as [s|] eqn:E; [|by apply same_marks_refl].
  split; [apply keyed_insert; [done|simpl; by apply Hk]|].
  intros j s' [[<- <-]|[_ Hs]]%lookup_insert_Some; left; eauto.
Qed.

Lemma step_remembers w w' : sound_step local utc w w' -> exclusive w -> remembers w -> remembers w'.
Proof.
  intros Hs. remember Sound as l eqn:El. unfold sound_step in Hs. rewrite <- El in Hs. revert El.
  destruct Hs as [| | | ? now s rest due job Et Ed Hc| |? id s E|? pre s post job Ea Hc| |? pre t post E Hp
    |? pre t post E Hp Ho|? pre t post o E Hp|? pre t post E Hp|? pre t post E Hp|? pre t post E Hp
    |? id s s' E E1 E2 E3|? s E E1 E2|? id]; intros El Hx Hw; try done;
    try (apply remembers_keep; [apply same_marks_refl, Hw|done..]).
  - destruct (current (rows w) s) eqn:Ec; [|done]. by eapply remembers_claim.
  - by apply remembers_manual.
  - by apply remembers_mark.
  - eapply remembers_phase; try done; [congruence|apply same_marks_settle, Hw].
  - eapply remembers_phase; try done; [congruence|apply same_marks_refl, Hw].
  - eapply remembers_drop; [done|congruence|done].
  - eapply remembers_drop; [done|congruence|done].
  - apply remembers_keep; try done. split; [apply keyed_insert; [apply Hw|]|].
    + rewrite E1. by apply (m_keyed w Hw).
    + intros j x [[<- <-]|[_ Hj]]%lookup_insert_Some; left; eauto.
  - apply remembers_keep; try done. split; [apply keyed_insert; [apply Hw|done]|].
    intros j x [[<- <-]|[_ Hj]]%lookup_insert_Some; [by right|left; eauto].
  - apply remembers_keep; try done. split.
    + intros j x [_ Hj]%lookup_delete_Some. by apply (m_keyed w Hw).
    + intros j x [_ Hj]%lookup_delete_Some. left. eauto.
Qed.
End Invariants.

(** ** Theorems *)

Section Theorems.
Context `{Cal : Calendar}.
Variables local utc : TimeZone.


(** C6: as long as no mark is lost and no tick claims a schedule whose mark has
    moved since it read it, no occurrence is fired twice, and one whose
    start is marked is never due again, also after a restart. *)
Theorem occurrence_fires_once r w :
  keyed r -> rtc (sound_step local utc) (idle r) w ->
  NoDup (fired w)
  /\ forall id o, In (id, o) (fired w) ->
       (exists t, In t (tasks w) /\ t_id t = id /\ waits t o)
       \/ forall s now grace o', rows w !! id = Some s -> due_at local utc s now grace = Some o' -> o < o'.
Proof.
  intros Hk H.
  assert (exclusive w /\ remembers w) as [_ Hw].
  { remember (idle r) as w0 eqn:E. assert (exclusive w0 /\ remembers w0) as H0.
    { subst. split; [apply idle_exclusive|].
      split; [exact Hk|constructor|intros ? ? []|intros ? ? []]. }
    clear E. induction H as [|x y z Hxy _ IH]; [done|]. apply IH. destruct H0 as [Hx Hm].
    split; [exact (step_exclusive local utc Sound x y Hxy Hx)|exact (step_remembers local utc x y Hxy Hx Hm)]. }
  split; [apply Hw|]. intros id o Hi. destruct (m_marked w Hw id o Hi) as [Ht|Hp]; [by left|right].
  intros s now grace o' Hs Hd. destruct (Hp s Hs) as (l & Hl & Hle).
  apply due_at_Some in Hd as (_ & _ & Hb & _). unfold baseline in Hb. rewrite Hl in Hb. simpl in Hb. lia.
Qed.

(** A run that panics never releases its claim: its schedule does not run
    again, neither by the clock nor by hand, until the program is restarted. *)
Theorem panicked_schedule_never_runs_again r w pre t post w' :
  rtc (any_step local utc) (idle r) w -> tasks w = pre ++ t :: post ->
  rtc (any_step local utc) (with_tasks w (rows w) (pre ++ post)) w' ->
  t_id t ∈ in_flight w' /\ forall t', In t' (tasks w') -> t_id t' <> t_id t.
Proof.
  intros H E H'. pose proof (steps_exclusive local utc _ _ H (idle_exclusive r)) as Hx.
  destruct (ids_removed w pre t post E Hx) as [_ Hi].
  destruct (steps_orphaned local utc (t_id t) _ _ H') as [Hf Hn].
  - split; simpl; [|intros Hin; by destruct (Hi _ Hin)].
    apply Hx. rewrite E, ids_app. apply in_app_iff. right. by left.
  - split; [done|]. intros t' Ht' Eq. apply Hn. rewrite <- Eq. by apply in_map.
Qed.
End Theorems.

(** ** Witnesses *)

Definition quarter : Z := noon_ish + minutes 15.
Definition tick_at : Z := quarter + secs 30.
Definition nightly : Schedule := sample_schedule KindSync None true.
Definition one_row : Schedules := {[5%N := nightly]}.

Lemma nightly_due : due_at utc_zone utc_zone nightly tick_at DEFAULT_GRACE = Some quarter.
Proof. vm_compute. reflexivity. Qed.

Lemma one_row_enabled : list_enabled one_row = [nightly].
Proof. vm_compute. reflexivity. Qed.

Lemma one_row_current : current one_row nightly = true.
Proof. vm_compute. reflexivity. Qed.

Definition read_state : SchedState := mk_sched one_row ∅ (Some (tick_at, [nightly])) [] [] [].

(** The tick has spawned the run of the quarter. *)
Definition spawned_state : SchedState := spawn_run read_state nightly (Some quarter) 1 (Some (tick_at, [])) [].

Lemma spawned_reachable : rtc (sound_step utc_zone utc_zone) (idle one_row) spawned_state.
Proof.
  eapply rtc_l; [by apply TickRead with (now := tick_at)|]. simpl. rewrite one_row_enabled.
  fold read_state. eapply rtc_l; [|apply rtc_refl]. unfold sound_step.
  assert (SchedStep utc_zone utc_zone (if current one_row nightly then Sound else Stale) read_state spawned_state) as H.
  { apply (TickClaim utc_zone utc_zone read_state tick_at nightly [] quarter 1);
      [reflexivity|exact nightly_due|reflexivity]. }
  rewrite one_row_current in H. exact H.
Qed.

Lemma sound_any w w' : rtc (sound_step utc_zone utc_zone) w w' -> rtc (any_step utc_zone utc_zone) w w'.
Proof. induction 1 as [|x y z H _ IH]; [apply rtc_refl|]. eapply rtc_l; [by exists Sound|exact IH]. Qed.


Lemma one_row_keyed : keyed one_row.
Proof. intros id s H. unfold one_row in H. apply lookup_singleton_Some in H as [<- <-]. reflexivity. Qed.

Lemma occurrence_fires_once_witness : exists w, fired w = [(5%N, quarter)] /\ NoDup (fired w).
Proof.
  exists spawned_state. split; [reflexivity|].
  exact (proj1 (occurrence_fires_once _ _ _ _ one_row_keyed spawned_reachable)).
Defined.

Lemma panicked_schedule_never_runs_again_witness :
  5%N ∈ in_flight (with_tasks spawned_state one_row []).
Proof.
  exact (proj1 (panicked_schedule_never_runs_again utc_zone utc_zone one_row spawned_state []
    (mk_task nightly (Some quarter) 1 Spawned) [] (with_tasks spawned_state one_row [])
    (sound_any _ _ spawned_reachable) eq_refl (rtc_refl _ _))).
Defined.

(** *** A lost mark *)

Definition settled_nightly : Schedule := finished_mark Success nightly.
Definition settled_row : Schedules := {[5%N := settled_nightly]}.
Definition first_run (p : Phase) : Task := mk_task nightly (Some quarter) 1 p.

(** The first run has come and gone, and its mark was never written. *)
Definition after_first : SchedState := mk_sched settled_row ∅ None [] [] [(5%N, quarter)].
Lemma due_again : due_at utc_zone utc_zone settled_nightly (tick_at + secs 29) DEFAULT_GRACE = Some quarter.
Proof. vm_compute. reflexivity. Qed.

Lemma settled_enabled : list_enabled settled_row = [settled_nightly].
Proof. vm_compute. reflexivity. Qed.

Lemma first_run_gone : rtc (any_step utc_zone utc_zone) spawned_state after_first.
Proof.
  eapply rtc_l; [exists Sound; by apply TickEnd with (now := tick_at)|].
  eapply rtc_l; [exists LostMark; eapply (TaskMarkFails _ _ _ [] (first_run Spawned) []); done|].
  eapply rtc_l; [exists Sound; eapply (TaskSettle _ _ _ [] (first_run Working) [] Success); done|].
  eapply rtc_l; [exists Sound; eapply (TaskRelease _ _ _ [] (first_run Settled) []); done|].
  match goal with |- rtc _ ?a ?b => assert (a = b) as -> by (vm_compute; reflexivity) end.
  apply rtc_refl.
Qed.

Lemma fired_again :
  rtc (any_step utc_zone utc_zone) after_first
    (spawn_run (mk_sched settled_row ∅ (Some (tick_at + secs 29, [settled_nightly])) [] [] [(5%N, quarter)])
       settled_nightly (Some quarter) 2 (Some (tick_at + secs 29, [])) []).
Proof.
  eapply rtc_l; [exists Sound; by apply TickRead with (now := tick_at + secs 29)|].
  cbn [rows in_flight asked tasks fired after_first]. rewrite settled_enabled.
  eapply rtc_l; [|apply rtc_refl]. eexists.
  apply (TickClaim utc_zone utc_zone (mk_sched settled_row ∅ (Some (tick_at + secs 29, [settled_nightly])) [] []
    [(5%N, quarter)]) (tick_at + secs 29) settled_nightly [] quarter 2); [reflexivity|exact due_again|reflexivity].
Qed.

(** When the write that marks a start fails, the run goes on, and the next
    tick within the same minute fires the same occurrence a second time. *)
Theorem lost_mark_fires_twice :
  exists w, rtc (any_step utc_zone utc_zone) (idle one_row) w
    /\ fired w = [(5%N, quarter); (5%N, quarter)].
Proof.
  eexists. split.
  - etransitivity; [exact (sound_any _ _ spawned_reachable)|].
    etransitivity; [exact first_run_gone|exact fired_again].
  - reflexivity.
Qed.

(** *** A stale claim *)

(** A second tick has read the schedule before the run of the first marked it. *)
Definition second_tick : Z := tick_at + secs 29.
Definition marked_nightly : Schedule := finished_mark Success (started_mark quarter 1 nightly).
Definition marked_row : Schedules := {[5%N := marked_nightly]}.

Definition stale_state : SchedState :=
  mk_sched marked_row ∅ (Some (second_tick, [nightly])) [] [] [(5%N, quarter)].

Lemma due_still : due_at utc_zone utc_zone nightly second_tick DEFAULT_GRACE = Some quarter.
Proof. vm_compute. reflexivity. Qed.

(** Its run marks, works and releases while that tick has still to look at it. *)
Lemma stale_reachable :
  rtc (fun w w' => exists l, l <> LostMark /\ SchedStep utc_zone utc_zone l w w') spawned_state stale_state.
Proof.
  eapply rtc_l; [exists Sound; split; [done|]; by apply TickEnd with (now := tick_at)|].
  eapply rtc_l; [exists Sound; split; [done|]; by apply TickRead with (now := second_tick)|].
  eapply rtc_l; [exists Sound; split; [done|]; eapply (TaskMark _ _ _ [] (first_run Spawned) []); done|].
  eapply rtc_l; [exists Sound; split; [done|]; eapply (TaskSettle _ _ _ [] (first_run Working) [] Success); done|].
  eapply rtc_l; [exists Sound; split; [done|]; eapply (TaskRelease _ _ _ [] (first_run Settled) []); done|].
  match goal with |- rtc _ ?a ?b => assert (a = b) as -> by (vm_compute; reflexivity) end.
  apply rtc_refl.
Qed.

(** No mark is lost, and an occurrence still fires twice: a tick that read the
    schedule before the run of the tick before it was marked, and reaches it after
    that run has ended, finds it due and unclaimed. *)
Theorem stale_claim_fires_twice :
  exists w, rtc (fun w w' => exists l, l <> LostMark /\ SchedStep utc_zone utc_zone l w w') (idle one_row) w
    /\ fired w = [(5%N, quarter); (5%N, quarter)].
Proof.
  eexists. split; [etransitivity; [|etransitivity; [exact stale_reachable|]]|].
  - pose proof spawned_reachable as H. induction H as [|x y z Hxy _ IH]; [apply rtc_refl|].
    eapply rtc_l; [by exists Sound|exact IH].
  - eapply rtc_l; [|apply rtc_refl]. eexists. split; [|by apply (TickClaim utc_zone utc_zone stale_state second_tick nightly [] quarter 2 eq_refl due_still)].
    by vm_compute.
  - reflexivity.
Qed.
