(* ===== verification/ScheduledRun.v ===== *)
(** * ScheduledRun: what a scheduled run does while it works ([execute] and the [perform]
      functions of engine/src/scheduler.rs)

    A run looks up what its schedule points at, each missing thing having its
    own message, and goes through the operations the buttons call.  Its result
    says whether it did what it was for; [conclude] turns it into the outcome of
    the job and what the report says.  The operations, and [sync] with the store's
    lookups, are interfaces; the JSON of a request is a parameter. *)

From Stdlib Require Import ZArith Lia Ascii String List Bool.
From stdpp Require Import base list gmap strings.
From S2P Require Import Prelude Text Domain Retention Backup Restore Verify Mask Plan Job Step Pipeline Ops PipelineRun Cron CronScan Schedule.
Import ListNotations.

Open Scope string_scope.
Open Scope list_scope.
Open Scope Z_scope.

(** What [sync] reports, as far as a run reads it. *)
Record SyncOutcome := mk_sync_outcome {
  so_artifact_path : string;
  so_target_database : string;
  so_verification : option VerificationReport;
  so_masking : option MaskingReport;
  so_removed_artifacts : list string;
  so_offsite : list PushResult }.

Definition sync_fully_succeeded (o : SyncOutcome) : bool :=
  none_or_passed (so_verification o) && forallb push_succeeded (so_offsite o).

(** The rest of what a scheduled run calls. *)
Class SchedulerOps (W : Type) := {
  get_profile : Uuid -> W -> result (option ConnectionProfile) OpError * W;
  get_pipeline : Uuid -> W -> result (option Pipeline) OpError * W;
  sync : ConnectionProfile -> ConnectionProfile -> SyncRequest -> W -> result SyncOutcome Stop * W;
  record_start : JobKind -> Uuid -> option Uuid -> string -> W -> result unit OpError * W }.

Record RunResult := mk_run_result {
  rr_outcome : JobOutcome;
  rr_artifact : option string;
  rr_target_database : option string;
  rr_verification : option VerificationReport;
  rr_removed_artifacts : Z;
  rr_error : option string }.

(** How a run stops early: with a message for a user, or with a panic. *)
Inductive Halt := Message (m : string) | RunPanicked.

Section Perform.
Context {W : Type} `{Operations W} `{SchedulerOps W}.
Variable str_debug : string -> string.
Variable uuid_text : Uuid -> string.
Variable backup_json : BackupRequest -> string.
Variable sync_json : SyncRequest -> string.
Variable drill_json : DrillRequest -> string.
Variable pipeline_json : Pipeline -> string.

Definition Perf (A : Type) : Type := OpState W -> result A Halt * OpState W.

Definition pret {A} (a : A) : Perf A := fun s => (Ok a, s).
Definition pfail {A} (m : string) : Perf A := fun s => (Err (Message m), s).
Definition pbind {A B} (m : Perf A) (k : A -> Perf B) : Perf B :=
  fun s => match m s with (Ok a, s) => k a s | (Err e, s) => (Err e, s) end.

(** An operation whose error becomes a message. *)
Definition run {A} (m : Op W A) (text : OpError -> string) : Perf A :=
  fun s => match m s with
           | (Ok a, s) => (Ok a, s)
           | (Err (Failed_ e), s) => (Err (Message (text e)), s)
           | (Err (Panicked _), s) => (Err RunPanicked, s)
           end.

(** [ok_or]. *)
Definition found {A} (o : option A) (m : string) : Perf A :=
  match o with Some a => pret a | None => pfail m end.

Definition told (e : Entry) : Perf unit := run (note e) (fun _ => "").

Notation "'let+' x ':=' e 'in' k" := (pbind e (fun x => k)) (at level 10, x pattern, e at level 200, k at level 200).

Definition text (e : OpError) : string := op_error_text str_debug uuid_text e.
Definition prefixed (m : string) (e : OpError) : string := (m ++ ": " ++ text e)%string.

Definition look_up {A} (m : Op W (option A)) (unreadable missing : string) : Perf A :=
  let+ o := run m (prefixed unreadable) in
  found o missing.

(** Whether everything the schedule's backup promised happened. *)
Definition judged (problems : list string) : JobOutcome := match problems with [] => Success | _ => Failed end.

Definition backup_retention (s : Schedule) (offsite : list PushResult) : Perf (list string) :=
  match a_retention (action s) with
  | None => pret []
  | Some policy =>
      if match push_failures offsite with [] => true | _ => false end then
        run (attempt (DidPrune (a_output_dir (action s)) policy)
               (apply_retention (a_output_dir (action s)) policy)) text
      else
        let+ _ := told (Emitted Warn Cleanup "the off-site copy failed; keeping every existing backup") in
        pret []
  end.

Definition perform_backup (s : Schedule) (source : ConnectionProfile) (request : BackupRequest) : Perf RunResult :=
  let+ _ := run (ask (record_start Domain.KindBackup (profile_id source) None (backup_json request)))
              (prefixed "could not record the job") in
  let+ artifact := run (attempt (DidBackup source request) (backup source request)) text in
  let+ offsite := run (attempt (DidPush artifact) (push_offsite artifact)) text in
  let failures := push_failures offsite in
  let+ removed := backup_retention s offsite in
  let joined := join "; " failures in
  let+ _ := match failures with
            | [] => pret tt
            | _ => told (Emitted Error Done
                     ("the backup was written locally but did not reach " ++ show (Z.of_nat (length failures))
                      ++ " destination(s): " ++ joined)%string)
            end in
  pret (mk_run_result (judged failures) (Some artifact) None None (Z.of_nat (length removed))
          (match failures with [] => None | _ => Some ("off-site copy failed: " ++ joined)%string end)).

Definition sync_problems (o : SyncOutcome) : list string :=
  (if none_or_passed (so_verification o) then [] else ["verification found discrepancies"])
  ++ match push_failures (so_offsite o) with
     | [] => []
     | failures => [("off-site copy failed: " ++ join "; " failures)%string]
     end.

Definition perform_sync (s : Schedule) (source : ConnectionProfile) (plan : SyncPlan) (dest_id : Uuid)
    : Perf RunResult :=
  let+ dest := look_up (ask (get_profile dest_id)) "could not read the destination profile"
                 ("the destination profile for schedule " ++ str_debug (sch_name s)
                  ++ " has been deleted; nothing was backed up or restored")%string in
  let+ request := found (sync_request s plan) "this schedule has a destination but no restore options" in
  let+ _ := run (ask (record_start Domain.KindSync (profile_id source) (Some (profile_id dest)) (sync_json request)))
              (prefixed "could not record the job") in
  let+ out := run (invoke (sync source dest request)) text in
  let+ _ := (if none_or_passed (so_verification out) then pret tt
             else told (Emitted Error Done "the data was restored but verification found discrepancies")) in
  let+ _ := match push_failures (so_offsite out) with
            | [] => pret tt
            | failures => told (Emitted Error Done
                            ("the off-site copy did not happen: " ++ join "; " failures)%string)
            end in
  let problems := sync_problems out in
  pret (mk_run_result (judged problems) (Some (so_artifact_path out)) (Some (so_target_database out))
          (so_verification out) (Z.of_nat (length (so_removed_artifacts out)))
          (match problems with [] => None | _ => Some (join "; " problems) end)).

Definition perform_pipeline (s : Schedule) : Perf RunResult :=
  let+ id := found (pipeline_id s) "this pipeline schedule has no pipeline; it cannot run" in
  let+ p := look_up (ask (get_pipeline id)) "could not read the pipeline" "the pipeline this schedule runs has been deleted" in
  let+ _ := match validate_pipeline_target p with
            | Ok _ => pret tt
            | Err e => pfail (schedule_error_text str_debug e)
            end in
  let+ source := found (head (omap step_profile_id (p_steps p))) "this pipeline touches no connection" in
  let dest := last (omap step_profile_id (p_steps p)) in
  let+ _ := run (ask (record_start Domain.KindSync source dest (pipeline_json p)))
              (prefixed "could not record the job") in
  fun st =>
    match run_pipeline p (mk_run_request (ack_confirmations p) (a_output_dir (action s))) st with
    | (Ok done, st) =>
        let ok := fully_succeeded done in
        (Ok (mk_run_result (if ok then Success else Failed) (last (po_artifacts done)) (last (po_databases done))
               (po_verification done) (Z.of_nat (length (po_removed_artifacts done)))
               (if ok then None else Some "the pipeline ran but not every step did what it claimed")), st)
    | (Err (Failed_ e), st) => (Ok (mk_run_result Failed None None None 0 (Some (text e))), st)
    | (Err (Panicked _), st) => (Err RunPanicked, st)
    end.

Definition drill_failed_text (o : DrillOutcome) : string :=
  (do_artifact o ++ " did not restore cleanly (" ++ show (failures (do_report o)) ++ " problem(s))")%string.

Definition perform_drill (s : Schedule) : Perf RunResult :=
  let+ dest_id := found (sch_dest_profile_id s) "this drill has no connection to restore into" in
  let+ dest := look_up (ask (get_profile dest_id)) "could not read the profile to drill"
                 ("the connection drill " ++ str_debug (sch_name s)
                  ++ " restores into has been deleted; nothing was checked")%string in
  let+ request := found (drill_request s) "this schedule is not a drill" in
  let+ _ := run (ask (record_start Domain.KindRestore (profile_id dest) (Some (profile_id dest)) (drill_json request)))
              (prefixed "could not record the job") in
  let+ o := run (attempt (DidDrill dest request) (drill dest request)) text in
  let ok := passed (do_report o) in
  let+ _ := (if ok then pret tt
             else told (Emitted Error Done
               ("DRILL FAILED: " ++ drill_failed_text o ++ ". The backups in                      this folder cannot be relied on until this is understood")%string)) in
  pret (mk_run_result (if ok then Success else Failed) (Some (do_artifact o)) (Some (do_scratch_database o))
          (Some (do_report o)) 0 (if ok then None else Some (drill_failed_text o))).

Definition perform (s : Schedule) : Perf RunResult :=
  let+ _ := told (Emitted Info Initializing ("scheduled run of " ++ str_debug (sch_name s))%string) in
  if is_drill s then perform_drill s
  else if is_pipeline s then perform_pipeline s
  else
    let+ id := found (plan_id s) "this sync schedule has no plan; it cannot run" in
    let+ plan := look_up (invoke (get_sync_plan id)) "could not read the sync plan"
                   ("the sync plan this schedule uses no longer exists; re-point or delete the schedule "
                    ++ str_debug (sch_name s))%string in
    let+ source := look_up (ask (get_profile (sp_profile_id plan))) "could not read the source profile"
                     ("the source profile for plan " ++ str_debug (sp_name plan)
                      ++ " no longer exists; this schedule cannot run")%string in
    let request := backup_request s plan in
    let+ _ := match backup_validate request source with
              | Ok _ => pret tt
              | Err e => pfail ("this schedule's options are not valid: " ++ backup_error_text str_debug e)%string
              end in
    match sch_dest_profile_id s with
    | None => perform_backup s source request
    | Some dest_id => perform_sync s source plan dest_id
    end.
End Perform.

(** ** The end of a run *)

(** The kind the report gives. *)
Definition report_kind (s : Schedule) : JobKind :=
  if is_drill s then KindRestore else if is_sync s then Domain.KindSync else KindBackup.

(** The outcome of the job and the error of the report, given whether the job's
    token has been cancelled. *)
Definition conclude (r : result RunResult string) (is_cancelled : bool) : JobOutcome * option string :=
  match r with
  | Ok run => (rr_outcome run, rr_error run)
  | Err m => ((if is_cancelled then Cancelled else Failed), Some m)
  end.

(** ** Lemmas *)

Section Proofs.
Context {W : Type} `{Operations W} `{SchedulerOps W}.
Variable str_debug : string -> string.
Variable uuid_text : Uuid -> string.

Lemma pbind_Ok {A B} (m : Perf A) (k : A -> Perf (W := W) B) s b s' :
  pbind m k s = (Ok b, s') <-> exists a s1, m s = (Ok a, s1) /\ k a s1 = (Ok b, s').
Proof.
  unfold pbind. destruct (m s) as [[a|e] s1]; split.
  - intros E. eauto.
  - by intros (? & ? & [= <- <-] & E).
  - done.
  - by intros (? & ? & [=] & _).
Qed.

Lemma run_Ok {A} (m : Op W A) f s a s' : run m f s = (Ok a, s') <-> m s = (Ok a, s').
Proof. unfold run. destruct (m s) as [[x|[e|w]] s1]; split; try done; by intros [= <- <-]. Qed.

Lemma ask_Ok {A} (f : W -> result A OpError * W) s a s' :
  ask f s = (Ok a, s') <-> f (world s) = (Ok a, world s') /\ trace s' = trace s.
Proof.
  unfold ask. destruct s' as [w' t'], (f (world s)) as [[x|e] w]; simpl.
  - split; [by intros [= <- <- <-]|]. by intros [[= <- <-] ->].
  - split; [done|]. by intros [[=] _].
Qed.

Lemma attempt_Ok {A} e (f : W -> result A Stop * W) s a s' :
  attempt e f s = (Ok a, s') <-> f (world s) = (Ok a, world s') /\ trace s' = trace s ++ [e].
Proof.
  unfold attempt, bind, note, invoke. cbn [world trace]. destruct s' as [w' t'], (f (world s)) as [r w].
  split; [by intros [= -> -> <-]|]. simpl. by intros [[= -> ->] ->].
Qed.

Lemma note_Ok (e : Entry) (s : OpState W) u s' :
  note e s = (Ok u, s') <-> world s' = world s /\ trace s' = trace s ++ [e].
Proof.
  destruct u, s' as [w t]. unfold note. simpl. split; [by intros [= <- <-]|]. by intros [-> ->].
Qed.

Definition prunes (l : list Entry) : Prop := exists dir policy, In (DidPrune dir policy) l.

Lemma failures_none l : push_failures l = [] <-> forallb push_succeeded l = true.
Proof.
  unfold push_failures. induction l as [|r l IH]; simpl; [done|].
  destruct (push_succeeded r); simpl; [exact IH|done].
Qed.

Lemma backup_retention_spec s offsite st removed st' :
  backup_retention str_debug uuid_text s offsite st = (Ok removed, st') ->
  exists l, trace st' = trace st ++ l
    /\ (prunes l -> forallb push_succeeded offsite = true)
    /\ (forallb push_succeeded offsite = false -> removed = []).
Proof.
  unfold backup_retention. destruct (a_retention (action s)) as [policy|].
  2:{ intros [= <- <-]. exists []. rewrite app_nil_r. split_and!; [done|by intros (? & ? & [])|done]. }
  destruct (push_failures offsite) as [|f fs] eqn:E.
  - intros Hr%run_Ok%attempt_Ok. destruct Hr as [_ Ht]. eexists. split; [exact Ht|].
    apply failures_none in E. rewrite E. done.
  - intros (u & st1 & Hn & Hr)%pbind_Ok. injection Hr as <- <-. apply run_Ok, note_Ok in Hn as [_ Ht].
    eexists. split; [exact Ht|]. split; [|done]. intros (? & ? & [[=]|[]]).
Qed.
End Proofs.

(** ** Theorems *)

(** C24: a scheduled backup succeeds exactly when every off-site copy arrived; when
    one did not, it says so, and not one of the older local backups is removed. *)
Theorem backup_is_kept_until_copied {W} `{Operations W} `{SchedulerOps W} str_debug uuid_text backup_json
    s source request st run st' :
  perform_backup str_debug uuid_text backup_json s source request st = (Ok run, st') ->
  exists artifact offsite w w' l,
    push_offsite artifact w = (Ok offsite, w') /\ rr_artifact run = Some artifact
    /\ trace st' = trace st ++ l
    /\ (rr_outcome run = Success <-> forallb push_succeeded offsite = true)
    /\ (rr_outcome run = Success <-> rr_error run = None)
    /\ (rr_outcome run <> Success -> ~ prunes l /\ rr_removed_artifacts run = 0).
Proof.
  unfold perform_backup.
  intros (u1 & s1 & E1%run_Ok%ask_Ok & E)%pbind_Ok. destruct E1 as [_ T1].
  apply pbind_Ok in E as (artifact & s2 & E2%run_Ok%attempt_Ok & E). destruct E2 as [_ T2].
  apply pbind_Ok in E as (offsite & s3 & E3%run_Ok%attempt_Ok & E). destruct E3 as [Hpush T3].
  apply pbind_Ok in E as (removed & s4 & E4%backup_retention_spec & E).
  destruct E4 as (l4 & T4 & Hprune & Hnone).
  apply pbind_Ok in E as ([] & s5 & E5 & E). injection E as <- <-.
  assert (exists l5, trace s5 = trace s4 ++ l5 /\ ~ prunes l5) as (l5 & T5 & Hl5).
  { destruct (push_failures offsite) as [|f fs].
    - injection E5 as <-. exists []. rewrite app_nil_r. split; [done|by intros (? & ? & [])].
    - apply run_Ok, note_Ok in E5 as [_ T]. eexists. split; [exact T|]. by intros (? & ? & [[=]|[]]). }
  exists artifact, offsite, (world s2), (world s3),
    ([DidBackup source request] ++ [DidPush artifact] ++ l4 ++ l5).
  assert (rr_outcome (mk_run_result (judged (push_failures offsite)) (Some artifact) None None
    (Z.of_nat (length removed)) None) = Success <-> forallb push_succeeded offsite = true) as Hj.
  { rewrite <- failures_none. simpl. by destruct (push_failures offsite). }
  split_and!; try done.
  - by rewrite T5, T4, T3, T2, T1, !app_assoc.
  - simpl. by destruct (push_failures offsite).
  - intros Hf. simpl in Hf, Hj. assert (forallb push_succeeded offsite = false) as Ho.
    { apply not_true_iff_false. intros Ht. by apply Hf, Hj. }
    split; [|by rewrite (Hnone Ho)].
    intros (d & q & Hi). rewrite !in_app_iff in Hi. destruct Hi as [[[=]|[]]|[[[=]|[]]|[Hi|Hi]]].
    + rewrite Hprune in Ho; [done|by exists d, q].
    + apply Hl5. by exists d, q.
Qed.

(** A bucket that cannot be reached. *)
Definition refused_copy : PushResult := mk_push 9 "bucket" "s3" "k" "u" 0 (Some "403") [].

#[local] Instance unreachable : Operations unit := {
  list_profiles w := (Ok [server 1; server 2], w);
  get_sync_plan _ w := (Ok None, w);
  list_tables _ _ w := (Ok [], w);
  source_columns _ _ _ w := (Ok ∅, w);
  backup _ _ w := (Ok "/backups/shop.sql.gz", w);
  restore _ _ w := (Err (Failed_ OpCancelled), w);
  mask_destination _ _ _ w := (Err (Failed_ OpCancelled), w);
  verify_restore _ w := (Err (Failed_ OpCancelled), w);
  push_offsite _ w := (Ok [refused_copy], w);
  apply_retention _ _ w := (Ok ["/backups/old.sql.gz"], w);
  drill _ _ w := (Err (Failed_ OpCancelled), w);
  newest_artifact _ w := (Err (Failed_ OpCancelled), w);
  cancelled w := (false, w) }.

#[local] Instance recording : SchedulerOps unit := {
  get_profile id w := (Ok (Some (server id)), w);
  get_pipeline _ w := (Ok None, w);
  sync _ _ _ w := (Err (Failed_ OpCancelled), w);
  record_start _ _ _ _ w := (Ok tt, w) }.

(** A schedule that keeps one backup. *)
Definition keeps_one : Schedule :=
  mk_schedule 5 "nightly" KindSync (Some 3%N) None None (parsed "*/15 * * * *") TzUtc true
    (mk_action "/backups" true false (BMysql mysql_default) None true false (Some (mk_policy (Some 1) None)) false false)
    None NotifyOnFailure false None None None noon_ish noon_ish.

Definition the_request : BackupRequest := mk_backup (mk_common "shop" [] "/backups" true false false) (BMysql mysql_default).

Definition uncopied : result RunResult Halt * OpState unit :=
  perform_backup id (fun _ => "") (fun _ => "") keeps_one (server 1) the_request (mk_op tt []).

Lemma uncopied_ends : exists run st, uncopied = (Ok run, st) /\ rr_outcome run = Failed.
Proof. unfold uncopied. vm_compute. eexists _, _. split; reflexivity. Qed.

Lemma backup_is_kept_until_copied_witness :
  exists run st l, uncopied = (Ok run, st) /\ trace st = [] ++ l /\ ~ prunes l /\ rr_removed_artifacts run = 0.
Proof.
  destruct uncopied_ends as (run & st & E & Hf). exists run, st.
  destruct (backup_is_kept_until_copied id (fun _ => "") (fun _ => "") keeps_one (server 1) the_request
    (mk_op tt []) run st E) as (a & o & w & w' & l & _ & _ & Ht & _ & _ & Hkept).
  exists l. destruct Hkept as [Hp Hr]; [by rewrite Hf|]. split; [exact E|]. split; [exact Ht|]. by split.
Defined.

(** ** Cancelled runs *)

(** Everything is found, and everything is cancelled. *)
#[local] Instance cancelling : Operations unit := {
  list_profiles w := (Ok [server 1; server 2], w);
  get_sync_plan id w := (Ok (Some (mk_sync_plan id 1 "plan" "shop" [with_data "orders"] [] 0 0 0)), w);
  list_tables _ _ w := (Ok [], w);
  source_columns _ _ _ w := (Ok ∅, w);
  backup _ _ w := (Err (Failed_ OpCancelled), w);
  restore _ _ w := (Err (Failed_ OpCancelled), w);
  mask_destination _ _ _ w := (Err (Failed_ OpCancelled), w);
  verify_restore _ w := (Err (Failed_ OpCancelled), w);
  push_offsite _ w := (Err (Failed_ OpCancelled), w);
  apply_retention _ _ w := (Ok [], w);
  drill _ _ w := (Err (Failed_ OpCancelled), w);
  newest_artifact _ w := (Err (Failed_ OpCancelled), w);
  cancelled w := (true, w) }.

#[local] Instance cancelling_store : SchedulerOps unit := {
  get_profile id w := (Ok (Some (server id)), w);
  get_pipeline _ w := (Ok (Some nightly), w);
  sync _ _ _ w := (Err (Failed_ OpCancelled), w);
  record_start _ _ _ _ w := (Ok tt, w) }.

(** The outcome of a schedule whose job was cancelled while it ran. *)
Definition cancelled_outcome (s : Schedule) : option (JobOutcome * option string) :=
  match perform (H := cancelling) (H0 := cancelling_store) id (fun _ => "") (fun _ => "") (fun _ => "") (fun _ => "") (fun _ => "") s
          (mk_op tt []) with
  | (Ok run, _) => Some (conclude (Ok run) true)
  | (Err (Message m), _) => Some (conclude (Err m) true)
  | (Err RunPanicked, _) => None
  end.

(** The same cancellation is recorded as cancelled for a scheduled backup and
    as a failure for a scheduled pipeline. *)
Theorem cancelled_pipeline_is_recorded_failed :
  cancelled_outcome (sample_schedule KindSync None true) = Some (Cancelled, Some "job was cancelled")
  /\ cancelled_outcome (sample_schedule KindPipeline (Some 7%N) true) = Some (Failed, Some "job was cancelled").
Proof. split; vm_compute; reflexivity. Qed.
