(* ===== verification/Disk.v ===== *)
(** * Disk: files and paths, as the components that keep artifacts see them

    A disk is the nodes by their path, with the names each directory lists in the
    order the system gives them.  What can fail is in the node: a file whose
    metadata or contents cannot be read, or that cannot be removed.  The path
    functions are those of the standard library on Unix. *)

From Stdlib Require Import ZArith Lia Ascii String List Bool.
From stdpp Require Import base list gmap strings.
From S2P Require Import Prelude Text Exec Tools.
Import ListNotations.

Open Scope string_scope.
Open Scope list_scope.
Open Scope Z_scope.

(** ** Text *)

(** [str::ends_with]. *)
Fixpoint ends_with (suffix s : string) : bool :=
  String.eqb s suffix || match s with EmptyString => false | String _ r => ends_with suffix r end.

(** [str::contains]. *)
Fixpoint contains (needle s : string) : bool :=
  starts_with needle s || match s with EmptyString => false | String _ r => contains needle r end.

Lemma ends_with_iff suffix s : ends_with suffix s = true <-> exists p, s = (p ++ suffix)%string.
Proof.
  induction s as [|c s IH]; cbn [ends_with]; rewrite orb_true_iff, String.eqb_eq.
  - split; [intros [<-|?]; [by exists ""|done]|]. intros [[|] E]; [by left|done].
  - rewrite IH. split.
    + intros [->|[p ->]]; [by exists ""|by exists (String c p)].
    + intros [[|c' p] E]; [by left|]. right. exists p. by injection E.
Qed.

Lemma ends_with_app p suffix : ends_with suffix (p ++ suffix) = true.
Proof. apply ends_with_iff. eauto. Qed.

Lemma append_cancel_r (a b s : string) : (a ++ s)%string = (b ++ s)%string -> a = b.
Proof. intros E. by destruct (app_len_inj_r a b s s eq_refl E). Qed.

Lemma ends_with_trans a b s : ends_with a b = true -> ends_with b s = true -> ends_with a s = true.
Proof.
  intros [p ->]%ends_with_iff [q ->]%ends_with_iff. apply ends_with_iff. exists (q ++ p)%string.
  by rewrite append_assoc'.
Qed.

(** Two suffixes of one text: the shorter is a suffix of the longer. *)
Lemma ends_with_both s a b :
  ends_with a s = true -> ends_with b s = true -> (String.length a <= String.length b)%nat ->
  ends_with a b = true.
Proof.
  intros [p ->]%ends_with_iff. revert b. induction p as [|c p IH]; intros b Hb Hl; simpl in Hb.
  - apply ends_with_iff in Hb as [q ->]. rewrite length_append in Hl. destruct q; [|simpl in Hl; lia].
    apply ends_with_iff. by exists "".
  - apply orb_true_iff in Hb as [E|Hb]; [|by apply IH]. apply (String.eqb_eq (String c (p ++ a)) b) in E. subst b.
    apply ends_with_iff. by exists (String c p).
Qed.

(** A suffix no longer than the tail of a text is looked for in the tail. *)
Lemma ends_with_tail suffix p tail :
  (String.length suffix <= String.length tail)%nat -> ends_with suffix (p ++ tail) = ends_with suffix tail.
Proof.
  intros Hl. destruct (ends_with suffix tail) eqn:E.
  - eapply ends_with_trans; [exact E|apply ends_with_app].
  - destruct (ends_with suffix (p ++ tail)) eqn:E'; [|done].
    by rewrite (ends_with_both _ _ _ E' (ends_with_app p tail) Hl) in E.
Qed.

(** The last piece of a cut text. *)
Lemma split_on_snoc sep s t :
  contains_char sep t = false -> split_on sep (s ++ String sep t) = split_on sep s ++ [t].
Proof.
  intros Ht. induction s as [|c s IH].
  - simpl. rewrite Ascii.eqb_refl. by rewrite split_on_no_sep.
  - cbn [append split_on]. destruct (Ascii.eqb c sep); [by rewrite IH|].
    rewrite IH. destruct (split_on sep s) as [|p ps] eqn:E; [by apply split_on_nonempty in E|done].
Qed.

(** ** Paths *)

(** What is before the last component: trailing separators and [.] go, but a
    leading [.] stays. *)
Fixpoint drop_trivial (rev_parts : list string) : list string :=
  match rev_parts with
  | "" :: r => drop_trivial r
  | "." :: ((_ :: _) as r) => drop_trivial r
  | l => l
  end.

Definition parent (path : string) : string :=
  match drop_trivial (tl (drop_trivial (rev (split_on "/" path)))) with
  | [] => if starts_with "/" path then "/" else ""
  | l => join "/" (rev l)
  end.

(** [Path::with_file_name]. *)
Definition with_file_name (path name : string) : string :=
  path_join (match file_name path with Some _ => parent path | None => path end) name.

(** What [mount] refuses, in words. *)
Definition mount_error_text (e : MountError) : string :=
  match e with
  | NotSupported tool what =>
      (what ++ " has to be handed to " ++ tool ++ " as a file, and a tool borrowed from an "
       ++ "already-running container cannot be given one. Use an image-based tool source, "
       ++ "or install the client tools locally.")%string
  end.

(** ** The disk *)

Record File := mk_file {
  content : string;
  modified : option Z;             (* [None] when the metadata cannot be read *)
  read_error : option string;
  removable : bool }.

Inductive Node := NFile (f : File) | NDir.

Record Disk := mk_disk {
  nodes : gmap string Node;
  dirs : gmap string (list string) }.

Definition file_at (d : Disk) (p : string) : option File :=
  match nodes d !! p with Some (NFile f) => Some f | _ => None end.

(** [Path::exists], which is true of a directory too. *)
Definition exists_at (d : Disk) (p : string) : bool := is_some (nodes d !! p).

(** [fs::read_dir]: the paths of the entries that are still there. *)
Definition read_dir (d : Disk) (dir : string) : option (list string) :=
  match dirs d !! dir with
  | Some names => Some (List.filter (exists_at d) (map (path_join dir) names))
  | None => None
  end.

(** [fs::remove_file]. *)
Definition remove_file (d : Disk) (p : string) : bool * Disk :=
  match file_at d p with
  | Some f => if removable f then (true, mk_disk (base.delete p (nodes d)) (dirs d)) else (false, d)
  | None => (false, d)
  end.

(** [fs::write], of a file that may be created or replaced. *)
Definition write_file (d : Disk) (p text : string) (now : Z) : Disk :=
  mk_disk (<[p := NFile (mk_file text (Some now) None true)]> (nodes d)) (dirs d).

(** [fs::read_to_string], of text. *)
Definition read_text (d : Disk) (p : string) : result string string :=
  match nodes d !! p with
  | Some (NFile f) => match read_error f with Some e => Err e | None => Ok (content f) end
  | Some NDir => Err "Is a directory (os error 21)"
  | None => Err "No such file or directory (os error 2)"
  end.

Definition file_size (f : File) : Z := Z.of_nat (String.length (content f)).

(** ** Lemmas *)

Lemma path_join_ends dir name : ends_with name (path_join dir name) = true.
Proof.
  unfold path_join. case_match; [|case_match; [|case_match]]; apply ends_with_iff.
  - by exists "".
  - by exists "".
  - eauto.
  - exists (dir ++ "/")%string. by rewrite <- append_assoc'.
Qed.

Lemma remove_file_lookup d p ok d' q :
  remove_file d p = (ok, d') -> q <> p -> nodes d' !! q = nodes d !! q.
Proof.
  unfold remove_file. destruct (file_at d p) as [f|]; [destruct (removable f)|]; intros [= <- <-] Hq; simpl;
    try done. by rewrite lookup_delete_ne.
Qed.

Lemma remove_file_Ok d p d' : remove_file d p = (true, d') -> nodes d' !! p = None.
Proof.
  unfold remove_file. destruct (file_at d p) as [f|]; [destruct (removable f)|]; intros [= <-]; simpl.
  apply lookup_delete_eq.
Qed.

Lemma remove_file_at d p ok d' q :
  remove_file d p = (ok, d') -> nodes d' !! q = nodes d !! q \/ nodes d' !! q = None.
Proof.
  intros E. destruct (decide (q = p)) as [->|Hq]; [|left; by eapply remove_file_lookup].
  destruct ok; [right; by eapply remove_file_Ok|].
  unfold remove_file in E. destruct (file_at d p) as [f|]; [destruct (removable f)|]; try done;
    injection E as <-; by left.
Qed.

Lemma remove_file_dirs d p ok d' : remove_file d p = (ok, d') -> dirs d' = dirs d.
Proof. unfold remove_file. repeat case_match; by intros [= <- <-]. Qed.
