(* ===== verification/MongoMask.v ===== *)
(** * MongoMask: masking a document store (engine/src/mask/mongo.rs)

    A document store cannot hash, so the work is split: what the server can set is
    one update per collection, what needs the old value is read, computed here and
    written back document by document.  The read-back is one filter per rule.

    BSON values and the documents built with [doc!] are data; how the bson crate
    prints a number or an instant is the class [BsonText], and the server is the
    class [DocumentStore].  What a filter selects and what an update changes is
    MongoQuery; what a run achieves is MongoSafe. *)

From Stdlib Require Import ZArith Lia Ascii String List Bool.
From stdpp Require Import base list gmap strings.
From S2P Require Import Prelude Text Domain Sql Mask Ops MaskRun.
Import ListNotations.

Open Scope string_scope.
Open Scope list_scope.
Open Scope Z_scope.

(** ** BSON *)

#[local] Unset Elimination Schemes.

(** [Bson]; [BOther] stands for the kinds the program has no text for. *)
Inductive Bson :=
| BNull
| BUndefined
| BString (s : string)
| BInt32 (v : Z)
| BInt64 (v : Z)
| BDouble (bits : Z)
| BBoolean (b : bool)
| BObjectId (bytes : string)
| BDateTime (millis : Z)
| BDecimal128 (bytes : string)
| BDocument (fields : list (string * Bson))
| BArray (items : list Bson)
| BOther (kind : string).

#[local] Set Elimination Schemes.

(** [Document]: its fields in order, no name twice. *)
Definition Document := list (string * Bson).

Definition doc_get (d : Document) (key : string) : option Bson :=
  match List.find (fun kv => String.eqb kv.1 key) d with Some kv => Some kv.2 | None => None end.

(** [Document::insert]: in place when the name is there. *)
Fixpoint doc_insert (d : Document) (key : string) (v : Bson) : Document :=
  match d with
  | [] => [(key, v)]
  | (k, w) :: d' => if String.eqb k key then (k, v) :: d' else (k, w) :: doc_insert d' key v
  end.

(** How the bson crate prints. *)
Class BsonText := {
  double_text : Z -> string;
  object_id_hex : string -> string;
  rfc3339 : Z -> option string;
  decimal_text : string -> string }.

(** ** The plan *)

Definition REWRITE_BATCH : Z := 500.
Definition MIN_SERVER_MAJOR : Z := 4.
Definition MIN_SERVER_MINOR : Z := 2.

Record ServerUpdate := mk_supdate { su_collection : string; su_set : Document }.

Record ComputedUpdate := mk_cupdate {
  cu_collection : string;
  cu_field : string;
  cu_transform : MaskTransform }.

Record MaskPlan := mk_mplan { mp_server : list ServerUpdate; mp_computed : list ComputedUpdate }.

Definition is_empty (p : MaskPlan) : bool :=
  match mp_server p, mp_computed p with [], [] => true | _, _ => false end.

(** The rules of one collection: what the server sets, and what is computed here. *)
Fixpoint plan_collection (collection : string) (rules : list MaskRule) (set : Document)
    (computed : list ComputedUpdate) : Document * list ComputedUpdate :=
  match rules with
  | [] => (set, computed)
  | r :: rules' =>
      match transform r with
      | Null => plan_collection collection rules' (doc_insert set (rule_column r) BNull) computed
      | Constant value =>
          plan_collection collection rules' (doc_insert set (rule_column r) (BString value)) computed
      | Hash _ | Email | Phone =>
          plan_collection collection rules' set
            (computed ++ [mk_cupdate collection (rule_column r) (transform r)])
      end
  end.

Definition plan_entry (out : MaskPlan) (e : string * list MaskRule) : MaskPlan :=
  let '(set, computed) := plan_collection e.1 e.2 [] (mp_computed out) in
  mk_mplan (match set with [] => mp_server out | _ => mp_server out ++ [mk_supdate e.1 set] end) computed.

Definition plan (rules : list MaskRule) : MaskPlan :=
  fold_left plan_entry (by_table rules) (mk_mplan [] []).

(** ** Replacements *)

Definition is_maskable (v : Bson) : bool :=
  match v with BDocument _ | BArray _ => false | _ => true end.

(** Rust's [{}] of a [bool]. *)
Definition bool_text (b : bool) : string := if b then "true" else "false".

Definition scalar_to_text `{BsonText} (v : Bson) : option string :=
  match v with
  | BString s => Some s
  | BInt32 v | BInt64 v => Some (show_i64 v)
  | BDouble bits => Some (double_text bits)
  | BBoolean b => Some (bool_text b)
  | BObjectId bytes => Some (object_id_hex bytes)
  | BDateTime millis => rfc3339 millis
  | BDecimal128 bytes => Some (decimal_text bytes)
  | _ => None
  end.

(** [u64::from_str_radix(_, 16)], for text too short to overflow. *)
Fixpoint radix16_onto (acc : Z) (s : string) : option Z :=
  match s with
  | EmptyString => Some acc
  | String c r => match hex_value c with Some v => radix16_onto (acc * 16 + v) r | None => None end
  end.

Definition from_str_radix16 (s : string) : option Z :=
  match s with "" => None | _ => radix16_onto 0 s end.

(** What a digest becomes. *)
Definition masked_text (digest : string) (t : MaskTransform) : option string :=
  match t with
  | Hash l => Some (take_chars (Z.to_nat (default DEFAULT_HASH_LENGTH l)) digest)
  | Email => Some (take_chars 16 digest ++ "@" ++ FAKE_EMAIL_DOMAIN)%string
  | Phone =>
      let n := default 0 (from_str_radix16 (take_chars 7 digest)) mod 10000000 in
      Some (FAKE_PHONE_PREFIX ++ show_pad 7 n)%string
  | Null | Constant _ => None
  end.

Section Replacement.
Context `{BsonText}.
Variable sha256_hex : string -> string.

Definition replacement (value : option Bson) (t : MaskTransform) (salt : string) : option Bson :=
  match value with
  | None | Some BNull => None
  | Some v =>
      match scalar_to_text v with
      | None => None
      | Some text =>
          match masked_text (sha256_hex (salt ++ text)%string) t with
          | Some masked => Some (BString masked)
          | None => None
          end
      end
  end.
End Replacement.

(** The parts of a dotted path, from a document. *)
Fixpoint get_parts (d : Document) (parts : list string) : option Bson :=
  match parts with
  | [] => None
  | part :: parts' =>
      match doc_get d part with
      | None => None
      | Some v =>
          match parts' with
          | [] => Some v
          | _ => match v with BDocument d' => get_parts d' parts' | _ => None end
          end
      end
  end.

Definition get_path (d : Document) (path : string) : option Bson := get_parts d (split_on "." path).

(** ** The read-back *)

Definition UNCONVERTIBLE : string := String "000" "unmaskable".

Definition metacharacters : string := "\^$.|?*+()[]{}".

Fixpoint regex_escape (literal : string) : string :=
  match literal with
  | EmptyString => ""
  | String c r =>
      if contains_char c metacharacters then String "\" (String c (regex_escape r))
      else String c (regex_escape r)
  end.

(** [{ field: { $ne: null } }]. *)
Definition present (field : string) : Document := [(field, BDocument [("$ne", BNull)])].

Definition as_text_of (field : string) : Bson :=
  BDocument [("$convert", BDocument [("input", BString ("$" ++ field)); ("to", BString "string");
    ("onError", BString UNCONVERTIBLE); ("onNull", BString UNCONVERTIBLE)])].

(** [{ $and: [present, { $expr: { $not: { $regexMatch: … } } }] }]. *)
Definition not_matching (field pattern : string) : Document :=
  [("$and", BArray [BDocument (present field);
     BDocument [("$expr", BDocument [("$not", BDocument [("$regexMatch",
       BDocument [("input", as_text_of field); ("regex", BString pattern)])])])]])].

Definition hash_pattern (len : Z) : string := ("^[0-9a-f]{" ++ show len ++ "}$")%string.

Definition violation_filter (field : string) (t : MaskTransform) : Document :=
  match t with
  | Hash l => not_matching field (hash_pattern (default DEFAULT_HASH_LENGTH l))
  | Email => not_matching field ("@" ++ regex_escape FAKE_EMAIL_DOMAIN ++ "$")%string
  | Phone => not_matching field ("^" ++ regex_escape FAKE_PHONE_PREFIX)%string
  | Null => present field
  | Constant value =>
      [("$or", BArray [BDocument [(field, BNull)];
         BDocument [("$expr", BDocument [("$ne", BArray [as_text_of field; BString value])])]])]
  end.

Record CollectionCheck := mk_ccheck {
  cc_collection : string;
  cc_field : string;
  cc_transform : MaskTransform;
  cc_filter : Document }.

Definition check_filters (rules : list MaskRule) : list CollectionCheck :=
  map (fun r => mk_ccheck (rule_table r) (rule_column r) (transform r)
                  (violation_filter (rule_column r) (transform r))) rules.

(** ** Execution *)

(** What a cursor yields: a document, one that cannot be decoded, or an error of
    the cursor itself. *)
Inductive Item := Found (d : Document) | Undecodable (e : string) | Broken (e : string).

(** The server.  What the items of a cursor are is decided when they are read. *)
Class DocumentStore (S : Type) := {
  introspect : S -> result unit DbError;
  update_many : S -> string -> Document -> Document -> result Z string * S;
  find_docs : S -> string -> Document -> result (list (S -> Item)) string;
  update_one : S -> string -> Document -> Document -> result Z string * S;
  count_documents : S -> string -> Document -> result Z string }.

Definition masking_error (collection e : string) : MaskError :=
  MaskDb (Query ("masking " ++ collection ++ ": " ++ e)%string).
Definition reading_error (collection e : string) : MaskError :=
  MaskDb (Query ("reading " ++ collection ++ ": " ++ e)%string).

Section Execution.
Context `{BsonText} {S : Type} `{DocumentStore S}.
Variable sha256_hex : string -> string.
Variable salt : string.

(** The first loop of [apply]. *)
Fixpoint update_server (s : S) (updates : list ServerUpdate) (rewritten : Z)
    : result Z MaskError * S :=
  match updates with
  | [] => (Ok rewritten, s)
  | u :: updates' =>
      match update_many s (su_collection u) [] [("$set", BDocument (su_set u))] with
      | (Err e, s') => (Err (masking_error (su_collection u) e), s')
      | (Ok n, s') => update_server s' updates' (wrap 64 (rewritten + n))
      end
  end.

(** The new value of a document's field, and the document's name; [None] is a
    [continue]. *)
Definition rewrite_of (u : ComputedUpdate) (document : Document) : option (Bson * Bson) :=
  match get_path document (cu_field u) with
  | None => None
  | Some current =>
      if negb (is_maskable current) then None
      else
        match replacement sha256_hex (Some current) (cu_transform u) salt with
        | None => None
        | Some new_value =>
            match doc_get document "_id" with
            | None => None
            | Some id => Some (id, new_value)
            end
        end
  end.

(** The loop over a cursor. *)
Fixpoint rewrite_items (u : ComputedUpdate) (s : S) (items : list (S -> Item)) (rewritten : Z)
    : result Z MaskError * S :=
  match items with
  | [] => (Ok rewritten, s)
  | item :: items' =>
      match item s with
      | Broken e => (Err (reading_error (cu_collection u) e), s)
      | Undecodable e => (Err (MaskDb (Query ("decoding a document: " ++ e)%string)), s)
      | Found document =>
          match rewrite_of u document with
          | None => rewrite_items u s items' rewritten
          | Some (id, new_value) =>
              match update_one s (cu_collection u) [("_id", id)]
                      [("$set", BDocument [(cu_field u, new_value)])] with
              | (Err e, s') => (Err (masking_error (cu_collection u) e), s')
              | (Ok n, s') => rewrite_items u s' items' (wrap 64 (rewritten + n))
              end
          end
      end
  end.

(** The second loop of [apply]. *)
Fixpoint update_computed (s : S) (updates : list ComputedUpdate) (rewritten : Z)
    : result Z MaskError * S :=
  match updates with
  | [] => (Ok rewritten, s)
  | u :: updates' =>
      match find_docs s (cu_collection u) (present (cu_field u)) with
      | Err e => (Err (reading_error (cu_collection u) e), s)
      | Ok items =>
          match rewrite_items u s items rewritten with
          | (Err e, s') => (Err e, s')
          | (Ok n, s') => update_computed s' updates' n
          end
      end
  end.

Definition apply (s : S) (rules : list MaskRule) : result Z MaskError * S :=
  let plan := plan rules in
  match introspect s with
  | Err e => (Err (MaskDb e), s)
  | Ok _ =>
      match update_server s (mp_server plan) 0 with
      | (Err e, s') => (Err e, s')
      | (Ok n, s') => update_computed s' (mp_computed plan) n
      end
  end.

(** The loop of [verify]. *)
Fixpoint verify_checks (s : S) (checks : list CollectionCheck) (confirmed : list string)
    : result (list string) MaskError :=
  match checks with
  | [] => Ok confirmed
  | c :: checks' =>
      match count_documents s (cc_collection c) (cc_filter c) with
      | Err e => Err (MaskDb (Query ("checking " ++ cc_collection c ++ ": " ++ e)%string))
      | Ok unmasked =>
          if 0 <? unmasked then Err (NotMasked (cc_collection c) (cc_field c) unmasked)
          else verify_checks s checks' (confirmed ++ [(cc_collection c ++ "." ++ cc_field c)%string])
      end
  end.

Definition verify (s : S) (rules : list MaskRule) : result (list string) MaskError :=
  match introspect s with
  | Err e => Err (MaskDb e)
  | Ok _ => verify_checks s (check_filters rules) []
  end.

(** A destination whose documents [run_mongo_masking] masks: the part of its world
    that this file implements. *)
Definition document_world (w : World) (s : S) : World :=
  mk_world (Ok salt) (reach w) (connect w) (execute w) (fetch_one w)
    (fun rules => map_err (fst (apply s rules)) OpMask)
    (fun rules => map_err (verify (snd (apply s rules)) rules) OpMask)
    (drop_database w).
End Execution.
