(* ===== verification/MongoQuery.v ===== *)
(** * MongoQuery: what a document store promises

    Which documents a filter of [MongoMask] selects and what an update does to
    them, after MongoDB's manual: the classes [MongoQueries] and [StoreLaws].  The
    second half is a store in memory that obeys both, restricted to the filters
    the program sends. *)

From Stdlib Require Import ZArith Lia Ascii String List Bool.
From stdpp Require Import base list gmap strings.
From S2P Require Import Prelude Text Domain Sql Mask Ops MaskRun Disk MongoMask.
Import ListNotations.

Open Scope string_scope.
Open Scope list_scope.
Open Scope Z_scope.

(** ** What the server promises *)

(** The query and expression languages, as far as the filters use them: which
    documents a filter selects, what an expression gives on a document ([None]:
    missing), regular expressions, the conversion to a string and [$set]. *)
Class QuerySemantics := {
  matches : Document -> Document -> bool;
  eval : Document -> Bson -> option Bson;
  regex : string -> string -> bool;
  to_string : Bson -> option string;
  apply_set : Document -> Document -> Document }.

(** A name a rule may carry. *)
Definition field_name (f : string) : Prop := f <> "" /\ contains_char "$" f = false.

Definition is_null (v : Bson) : bool := match v with BNull | BUndefined => true | _ => false end.

(** A query for null finds null, and an array that holds one. *)
Definition holds_null (v : Bson) : bool :=
  match v with BArray items => existsb is_null items | _ => is_null v end.

(** Whether a path meets nothing but documents before its end. *)
Fixpoint resolves (d : Document) (parts : list string) : bool :=
  match parts with
  | [] | [_] => true
  | part :: parts' =>
      match doc_get d part with
      | None => true
      | Some (BDocument d') => resolves d' parts'
      | Some _ => false
      end
  end.

Definition absent (d : Document) (path : string) : Prop :=
  get_path d path = None /\ resolves d (split_on "." path) = true.

(** Whether a path meets an array before its end. *)
Fixpoint crosses_array (d : Document) (parts : list string) : bool :=
  match parts with
  | [] | [_] => false
  | part :: parts' =>
      match doc_get d part with
      | Some (BDocument d') => crosses_array d' parts'
      | Some (BArray _) => true
      | _ => false
      end
  end.

(** The text before the end of the subject: [$] also matches before a last newline. *)
Definition line (P : string -> Prop) (s : string) : Prop :=
  exists a, (s = a \/ s = (a ++ String newline "")%string) /\ P a.

Definition is_hex_lower (c : ascii) : bool := is_digit c || in_range 97 102 (code c).
Definition hex_run (n : Z) (s : string) : Prop :=
  Z.of_nat (String.length s) = n /\ all_chars is_hex_lower s = true.

Definition convert (input on_error on_null : string) : Bson :=
  BDocument [("$convert", BDocument [("input", BString input); ("to", BString "string");
    ("onError", BString on_error); ("onNull", BString on_null)])].

Class MongoQueries `{QuerySemantics} : Prop := {
  matches_all d : matches [] d = true;
  matches_and a b d :
    matches [("$and", BArray [BDocument a; BDocument b])] d = matches a d && matches b d;
  matches_or a b d :
    matches [("$or", BArray [BDocument a; BDocument b])] d = matches a d || matches b d;
  matches_ne f d : field_name f -> matches (present f) d = negb (matches [(f, BNull)] d);
  matches_null f d v : field_name f -> get_path d f = Some v -> matches [(f, BNull)] d = holds_null v;
  matches_absent f d : field_name f -> absent d f -> matches [(f, BNull)] d = true;
  matches_id d i : doc_get d "_id" = Some i -> matches [("_id", i)] d = true;
  matches_expr e d b : eval d e = Some (BBoolean b) -> matches [("$expr", e)] d = b;
  eval_literal d s : starts_with "$" s = false -> eval d (BString s) = Some (BString s);
  eval_field d f v : field_name f -> get_path d f = Some v -> eval d (BString ("$" ++ f)) = Some v;
  eval_missing d f : field_name f -> absent d f -> eval d (BString ("$" ++ f)) = None;
  eval_through d f : field_name f -> crosses_array d (split_on "." f) = true ->
    exists items, eval d (BString ("$" ++ f)) = Some (BArray items);
  eval_not d e b : eval d e = Some (BBoolean b) ->
    eval d (BDocument [("$not", e)]) = Some (BBoolean (negb b));
  eval_regex d e p s : eval d e = Some (BString s) -> starts_with "$" p = false ->
    eval d (BDocument [("$regexMatch", BDocument [("input", e); ("regex", BString p)])])
    = Some (BBoolean (regex p s));
  eval_convert d input on_error on_null v : eval d (BString input) = v ->
    starts_with "$" on_error = false -> starts_with "$" on_null = false ->
    eval d (convert input on_error on_null) = Some (BString
      match v with
      | None | Some BNull | Some BUndefined => on_null
      | Some v => default on_error (to_string v)
      end);
  eval_ne d a b s : eval d a = Some (BString s) ->
    eval d (BDocument [("$ne", BArray [a; b])]) = Some (BBoolean
      match eval d b with Some (BString t) => negb (String.eqb s t) | _ => true end);
  to_string_string s : to_string (BString s) = Some s;
  to_string_structure v : is_maskable v = false -> to_string v = None;
  regex_hex n s : 0 <= n < 65536 -> regex (hash_pattern n) s = true <-> line (hex_run n) s;
  regex_suffix l s :
    regex (regex_escape l ++ "$") s = true <-> line (fun a => exists b, a = (b ++ l)%string) s;
  regex_prefix l s : regex ("^" ++ regex_escape l) s = starts_with l s;
  set_there d f v w : field_name f -> get_path d f = Some w -> get_path (apply_set [(f, v)] d) f = Some v;
  set_new d f v : field_name f -> contains_char "." f = false ->
    get_path (apply_set [(f, v)] d) f = Some v;
  set_keeps_id d f v i : field_name f -> head (split_on "." f) <> Some "_id" ->
    matches [("_id", i)] (apply_set [(f, v)] d) = matches [("_id", i)] d;
  set_id d f v : field_name f -> head (split_on "." f) <> Some "_id" ->
    doc_get (apply_set [(f, v)] d) "_id" = doc_get d "_id" }.

(** The states of the server from [s] to another, one document of the collection set at
    a time. *)
Inductive since {S} `{DocumentStore S} (c : string) (s : S) : list S -> S -> Prop :=
| since_found : since c s [s] s
| since_set h s1 i u n s2 : since c s h s1 ->
    update_one s1 c [("_id", i)] [("$set", BDocument u)] = (Ok n, s2) -> since c s (h ++ [s2]) s2.

(** The documents of a collection, and what the server's operations do to them when
    nothing else writes.  A cursor is not a snapshot: while documents are set it may
    return one again, as it is by then or as it was at any time since the query.  What
    it promises is that what it returns was there, and that it does not miss a document
    that is as it was when its turn comes. *)
Class StoreLaws {S : Type} `{DocumentStore S, QuerySemantics} := {
  docs : S -> string -> list Document;
  count_law s c f n :
    count_documents s c f = Ok n -> n = Z.of_nat (length (List.filter (matches f) (docs s c)));
  cursor_reads s c f items : find_docs s c f = Ok items ->
    forall item h s1 d, In item items -> since c s h s1 -> item s1 = Found d ->
    exists s0, In s0 h /\ In d (docs s0 c);
  cursor_misses_none s c f items : find_docs s c f = Ok items ->
    forall d, In d (docs s c) -> matches f d = true ->
    exists item, In item items
      /\ forall h s1 x, since c s h s1 -> In d (docs s1 c) -> item s1 = Found x -> x = d;
  update_many_law s c f u n s' :
    update_many s c f [("$set", BDocument u)] = (Ok n, s') ->
    docs s' c = map (fun d => if matches f d then apply_set u d else d) (docs s c);
  update_one_law s c f u n s' :
    update_one s c f [("$set", BDocument u)] = (Ok n, s') ->
    (length (List.filter (matches f) (docs s c)) <= 1)%nat ->
    docs s' c = map (fun d => if matches f d then apply_set u d else d) (docs s c) }.

(** ** Lemmas *)

Lemma regex_escape_app a b : regex_escape (a ++ b) = (regex_escape a ++ regex_escape b)%string.
Proof. induction a as [|c a IH]; simpl; [done|]. case_match; by rewrite IH. Qed.

Lemma email_pattern :
  ("@" ++ regex_escape FAKE_EMAIL_DOMAIN ++ "$")%string
  = (regex_escape ("@" ++ FAKE_EMAIL_DOMAIN) ++ "$")%string.
Proof. reflexivity. Qed.

Lemma hash_pattern_literal n : starts_with "$" (hash_pattern n) = false.
Proof. reflexivity. Qed.

(** A masked value's text. *)
Definition masked_shape (t : MaskTransform) (s : string) : Prop :=
  match t with
  | Hash l => line (hex_run (default DEFAULT_HASH_LENGTH l)) s
  | Email => line (fun a => exists b, a = (b ++ "@" ++ FAKE_EMAIL_DOMAIN)%string) s
  | Phone => exists rest, s = (FAKE_PHONE_PREFIX ++ rest)%string
  | Null => False
  | Constant value => s = value
  end.

(** A length a hash rule can have: a [u16]. *)
Definition u16_length (t : MaskTransform) : Prop :=
  match t with Hash (Some n) => 0 <= n < 65536 | _ => True end.

(** A constant the check reads as the text it is. *)
Definition plain_constant (t : MaskTransform) : Prop :=
  match t with Constant value => starts_with "$" value = false /\ value <> UNCONVERTIBLE | _ => True end.

(** The pattern the check of a rule uses. *)
Definition pattern_of (t : MaskTransform) : string :=
  match t with
  | Hash l => hash_pattern (default DEFAULT_HASH_LENGTH l)
  | Email => "@" ++ regex_escape FAKE_EMAIL_DOMAIN ++ "$"
  | _ => "^" ++ regex_escape FAKE_PHONE_PREFIX
  end%string.

Definition is_computed (t : MaskTransform) : bool := preserves_null t.

Lemma violation_computed f t :
  is_computed t = true -> violation_filter f t = not_matching f (pattern_of t).
Proof. by destruct t. Qed.

Section Queries.
Context `{MongoQueries}.

Lemma pattern_shape t s :
  is_computed t = true -> u16_length t -> regex (pattern_of t) s = true <-> masked_shape t s.
Proof.
  destruct t as [l| | | |]; try done; cbn [pattern_of masked_shape]; intros _ Hl.
  - apply regex_hex. unfold DEFAULT_HASH_LENGTH. destruct l; simpl in *; lia.
  - rewrite email_pattern. apply regex_suffix.
  - rewrite regex_prefix. unfold starts_with. destruct (strip_prefix _ s) as [r|] eqn:E.
    + apply strip_prefix_Some in E. split; [eauto|done].
    + split; [done|]. intros [r Hr]. apply strip_prefix_Some in Hr. congruence.
Qed.

(** The text the check reads of a field. *)
Definition read_text (v : option Bson) : string :=
  match v with
  | None | Some BNull | Some BUndefined => UNCONVERTIBLE
  | Some v => default UNCONVERTIBLE (to_string v)
  end.

Lemma eval_as_text d f v :
  field_name f -> (get_path d f = Some v \/ absent d f) ->
  eval d (as_text_of f) = Some (BString (read_text (get_path d f))).
Proof.
  intros Hf Hp. apply (eval_convert d ("$" ++ f) UNCONVERTIBLE UNCONVERTIBLE); [|done..].
  destruct Hp as [Hp|Hp]; [rewrite Hp; by apply eval_field|].
  destruct (Hp) as [-> _]. by apply eval_missing.
Qed.

(** Beyond an array the check reads nothing. *)
Lemma eval_as_text_through d f : field_name f -> crosses_array d (split_on "." f) = true ->
  eval d (as_text_of f) = Some (BString UNCONVERTIBLE).
Proof.
  intros Hf Hc. destruct (eval_through d f Hf Hc) as [items Hi].
  erewrite (eval_convert d ("$" ++ f) UNCONVERTIBLE UNCONVERTIBLE (Some (BArray items))) by done.
  by rewrite to_string_structure.
Qed.

Lemma matches_not_matching d f p v :
  field_name f -> get_path d f = Some v -> starts_with "$" p = false ->
  matches (not_matching f p) d = negb (holds_null v) && negb (regex p (read_text (Some v))).
Proof.
  intros Hf Hv Hp. unfold not_matching.
  rewrite matches_and, matches_ne by done. rewrite (matches_null f d v) by done. f_equal.
  apply matches_expr, eval_not, eval_regex; [|done]. rewrite <- Hv. by apply (eval_as_text d f v); [|left].
Qed.

Lemma pattern_literal t : starts_with "$" (pattern_of t) = false.
Proof. by destruct t. Qed.

Lemma unconvertible_is_no_mask t :
  is_computed t = true -> u16_length t -> ~ masked_shape t UNCONVERTIBLE.
Proof.
  destruct t as [l| | | |]; try done; cbn [masked_shape]; intros _ _.
  - intros (a & Ha & _ & Hx). destruct a as [|c a]; [by destruct Ha|].
    assert (c = "000"%char) as -> by (destruct Ha as [Ha|Ha]; by injection Ha). done.
  - intros (a & Ha & b & ->). destruct Ha as [Ha|Ha]; apply (f_equal String.length) in Ha;
      rewrite ?length_append in Ha; simpl in Ha; lia.
  - by intros [r Hr].
Qed.

(** When a document passes the check of a rule. *)
Definition passes (t : MaskTransform) (v : Bson) : Prop :=
  match t with
  | Constant _ => exists s, to_string v = Some s /\ masked_shape t s
  | _ => holds_null v = true \/ (exists s, to_string v = Some s /\ masked_shape t s)
  end.

Lemma read_text_shape t v :
  is_computed t = true -> u16_length t -> is_null v = false -> masked_shape t (read_text (Some v)) ->
  exists s, to_string v = Some s /\ masked_shape t s.
Proof.
  intros Ht Hl Hn Hs. assert (masked_shape t (default UNCONVERTIBLE (to_string v))) as Hs'
    by (by destruct v).
  destruct (to_string v) as [s|]; [by exists s|]. by destruct (unconvertible_is_no_mask t Ht Hl).
Qed.

Lemma shape_read_text v s : is_null v = false -> to_string v = Some s -> read_text (Some v) = s.
Proof. intros Hn Hs. destruct v; try done; simpl; by rewrite Hs. Qed.

Lemma null_not_constant d f v value :
  field_name f -> get_path d f = Some v -> starts_with "$" value = false ->
  matches (violation_filter f (Constant value)) d
  = holds_null v || negb (String.eqb (read_text (Some v)) value).
Proof.
  intros Hf Hv Hc. cbn [violation_filter]. rewrite matches_or, (matches_null f d v) by done. f_equal.
  apply matches_expr. rewrite <- Hv. erewrite eval_ne by (apply (eval_as_text d f v); [done|by left]).
  by rewrite eval_literal.
Qed.

Lemma checked_value d f t v :
  field_name f -> u16_length t -> plain_constant t ->
  get_path d f = Some v -> matches (violation_filter f t) d = false -> passes t v.
Proof.
  intros Hf Hl Hc Hv Hm. destruct (is_computed t) eqn:Ht.
  - rewrite violation_computed, (matches_not_matching _ _ _ v) in Hm by (done || apply pattern_literal).
    apply andb_false_iff in Hm as [Hm|Hm]; apply negb_false_iff in Hm; [by destruct t; try done; left|].
    rewrite pattern_shape in Hm by done. destruct (is_null v) eqn:Hn.
    + assert (holds_null v = true) by (by destruct v). by destruct t; try done; left.
    + apply read_text_shape in Hm; [|done..]. by destruct t; try done; right.
  - destruct t as [| | | |value]; try done.
    + cbn [violation_filter] in Hm. rewrite matches_ne, (matches_null f d v) in Hm by done.
      left. by apply negb_false_iff.
    + destruct Hc as [Hc Hu]. rewrite (null_not_constant d f v) in Hm by done. bools.
      assert (is_null v = false) as Hn by (by destruct v). exists value. split; [|done].
      destruct (to_string v) as [s|] eqn:Es; [f_equal; by rewrite <- (shape_read_text v s) by done|].
      destruct Hu. etrans; [symmetry; eassumption|]. destruct v; try done; unfold read_text; by rewrite Es.
Qed.

(** A path through an array passes the check only if the query for null finds the
    document. *)
Lemma checked_through d f t :
  field_name f -> u16_length t -> plain_constant t -> crosses_array d (split_on "." f) = true ->
  matches (violation_filter f t) d = false -> matches [(f, BNull)] d = true /\ forall value, t <> Constant value.
Proof.
  intros Hf Hl Hc Hx Hm. destruct (is_computed t) eqn:Ht.
  - split; [|by intros value ->]. rewrite violation_computed in Hm by done. unfold not_matching in Hm.
    rewrite matches_and, matches_ne in Hm by done. apply andb_false_iff in Hm as [Hm|Hm]; [by apply negb_false_iff|].
    erewrite matches_expr in Hm
      by (eapply eval_not, eval_regex; [by apply eval_as_text_through|apply pattern_literal]).
    apply negb_false_iff, pattern_shape in Hm; [|done..]. by destruct (unconvertible_is_no_mask t Ht Hl).
  - destruct t as [| | | |value]; try done.
    + split; [|done]. cbn [violation_filter] in Hm. rewrite matches_ne in Hm by done. by apply negb_false_iff.
    + destruct Hc as [Hc Hu]. cbn [violation_filter] in Hm. rewrite matches_or in Hm. apply orb_false_iff in Hm as [_ Hm].
      erewrite matches_expr in Hm by (eapply eval_ne; by apply eval_as_text_through).
      rewrite eval_literal in Hm by done. apply negb_false_iff, String.eqb_eq in Hm. by destruct Hu.
Qed.

Lemma none_matching f l : length (List.filter (matches f) l) = 0%nat -> forall d, In d l -> matches f d = false.
Proof.
  intros Hl d Hd. destruct (matches f d) eqn:E; [|done].
  destruct (List.filter (matches f) l) as [|x r] eqn:Ef; [|done].
  assert (In d []) by (rewrite <- Ef; by apply filter_In). done.
Qed.
End Queries.

(** ** A store in memory

    The languages restricted to the filters above, with the reading MongoDB gives
    them, over collections held as lists. *)

(** Equality of values. *)
Fixpoint bson_eqb (a b : Bson) : bool :=
  match a, b with
  | BNull, BNull | BUndefined, BUndefined => true
  | BString s, BString t | BObjectId s, BObjectId t | BDecimal128 s, BDecimal128 t
  | BOther s, BOther t => String.eqb s t
  | BInt32 x, BInt32 y | BInt64 x, BInt64 y | BDouble x, BDouble y | BDateTime x, BDateTime y => x =? y
  | BBoolean x, BBoolean y => Bool.eqb x y
  | BDocument l, BDocument m =>
      (fix fields l m := match l, m with
         | [], [] => true
         | (k, v) :: l, (k', v') :: m => String.eqb k k' && bson_eqb v v' && fields l m
         | _, _ => false
         end) l m
  | BArray l, BArray m =>
      (fix items l m := match l, m with
         | [], [] => true
         | v :: l, v' :: m => bson_eqb v v' && items l m
         | _, _ => false
         end) l m
  | _, _ => false
  end.

Fixpoint bson_eqb_refl (a : Bson) : bson_eqb a a = true.
Proof.
  destruct a as [| | | | | | | | | |l|l|]; simpl; try reflexivity;
    try apply String.eqb_refl; try apply Z.eqb_refl; try apply eqb_reflx.
  - induction l as [|[k v] l IH]; [done|]. by rewrite String.eqb_refl, bson_eqb_refl, IH.
  - induction l as [|v l IH]; [done|]. by rewrite bson_eqb_refl, IH.
Qed.

(** The text before a last character. *)
Fixpoint strip_last (c : ascii) (s : string) : option string :=
  match s with
  | EmptyString => None
  | String a r =>
      match r with
      | EmptyString => if Ascii.eqb a c then Some "" else None
      | _ => match strip_last c r with Some t => Some (String a t) | None => None end
      end
  end.

Lemma strip_last_Some c s a : strip_last c s = Some a <-> s = (a ++ String c "")%string.
Proof.
  revert a. induction s as [|x s IH]; intros a; [split; [done|by destruct a]|].
  cbn [strip_last]. destruct s as [|y s].
  - destruct (Ascii.eqb_spec x c) as [->|Hne]; split.
    + by intros [= <-].
    + destruct a as [|z a]; [done|]. by destruct a.
    + done.
    + destruct a as [|z a]; [by intros [= ->]|]. by destruct a.
  - destruct (strip_last c (String y s)) as [t|] eqn:E.
    + pose proof (proj1 (IH t) eq_refl) as E'. split; [intros [= <-]; simpl; by rewrite E'|].
      destruct a as [|z a]; [done|]. simpl. intros [= -> Hr]. apply IH in Hr. by simplify_eq.
    + split; [done|]. destruct a as [|z a]; [done|]. simpl. intros [= -> Hr]. apply IH in Hr. congruence.
Qed.

Definition lineb (p : string -> bool) (s : string) : bool :=
  p s || match strip_last newline s with Some a => p a | None => false end.

Lemma lineb_iff p s : lineb p s = true <-> line (fun a => p a = true) s.
Proof.
  unfold lineb, line. rewrite orb_true_iff. split.
  - intros [Hp|Hp]; [eauto|]. destruct (strip_last _ _) as [a|] eqn:E; [|done].
    apply strip_last_Some in E. eauto.
  - intros (a & [->|Ha] & Hp); [by left|]. right. apply strip_last_Some in Ha. by rewrite Ha.
Qed.

Lemma line_ext (P Q : string -> Prop) s : (forall a, P a <-> Q a) -> line P s <-> line Q s.
Proof. unfold line. naive_solver. Qed.

Fixpoint regex_unescape (s : string) : string :=
  match s with
  | EmptyString => ""
  | String c r =>
      if Ascii.eqb c "\" then match r with String x r' => String x (regex_unescape r') | _ => "" end
      else String c (regex_unescape r)
  end.

Lemma unescape_regex_escape l : regex_unescape (regex_escape l) = l.
Proof.
  induction l as [|c l IH]; [done|]. cbn [regex_escape].
  destruct (contains_char c metacharacters) eqn:E; cbn [regex_unescape]; [by rewrite IH|].
  destruct (Ascii.eqb_spec c "\") as [->|_]; [done|by rewrite IH].
Qed.

Definition local_regex (p s : string) : bool :=
  match strip_prefix "^[0-9a-f]{" p with
  | Some q =>
      match split_once "}" q with
      | Some (n, _) =>
          match parse_uint 65535 n with
          | Some k => lineb (fun a => (Z.of_nat (String.length a) =? k) && all_chars is_hex_lower a) s
          | None => false
          end
      | None => false
      end
  | None =>
      match strip_prefix "^" p with
      | Some q => starts_with (regex_unescape q) s
      | None => match strip_last "$" p with Some q => lineb (ends_with (regex_unescape q)) s | None => false end
      end
  end.

Lemma escape_no_caret l t : starts_with "^" t = false -> strip_prefix "^" (regex_escape l ++ t) = None.
Proof.
  intros Ht. destruct l as [|c l]; [unfold starts_with in Ht; cbn [regex_escape append]; by destruct (strip_prefix "^" t)|].
  cbn [regex_escape]. destruct (contains_char c metacharacters) eqn:E; [done|].
  cbn [append strip_prefix]. destruct (Ascii.eqb_spec "^" c) as [<-|_]; done.
Qed.

Lemma escape_no_bracket l : strip_prefix "[0-9a-f]{" (regex_escape l) = None.
Proof.
  destruct l as [|c l]; [done|]. cbn [regex_escape].
  destruct (contains_char c metacharacters) eqn:E; [done|].
  cbn [append strip_prefix]. destruct (Ascii.eqb_spec "[" c) as [<-|_]; done.
Qed.

Lemma local_regex_prefix l s : local_regex ("^" ++ regex_escape l) s = starts_with l s.
Proof.
  unfold local_regex. assert (strip_prefix "^[0-9a-f]{" ("^" ++ regex_escape l) = None) as ->
    by (apply escape_no_bracket). cbn. by rewrite unescape_regex_escape.
Qed.

Lemma local_regex_suffix l s :
  local_regex (regex_escape l ++ "$") s = true <-> line (fun a => exists b, a = (b ++ l)%string) s.
Proof.
  unfold local_regex. pose proof (escape_no_caret l "$" eq_refl) as Hc.
  assert (strip_prefix "^[0-9a-f]{" (regex_escape l ++ "$") = None) as ->.
  { destruct (regex_escape l ++ "$")%string as [|c r]; [done|].
    cbn [strip_prefix] in *. by destruct (Ascii.eqb "^" c). }
  rewrite Hc, (proj2 (strip_last_Some "$" _ (regex_escape l)) eq_refl), unescape_regex_escape, lineb_iff.
  apply line_ext. intros a. apply ends_with_iff.
Qed.

Lemma local_regex_hex n s : 0 <= n < 65536 -> local_regex (hash_pattern n) s = true <-> line (hex_run n) s.
Proof.
  intros Hn. unfold local_regex, hash_pattern.
  rewrite (proj2 (strip_prefix_Some "^[0-9a-f]{" _ (show n ++ "}$"))) by done.
  rewrite (split_once_app "}" (show n) "$") by (by apply digits_no_char, show_all_digits).
  rewrite parse_uint_show by lia. rewrite lineb_iff. apply line_ext. intros a. unfold hex_run.
  by rewrite andb_true_iff, Z.eqb_eq.
Qed.

(** [$set] at a path. *)
Fixpoint set_parts (d : Document) (parts : list string) (v : Bson) : Document :=
  match parts with
  | [] => d
  | part :: parts' =>
      match parts' with
      | [] => doc_insert d part v
      | _ =>
          match doc_get d part with
          | None => doc_insert d part (BDocument (set_parts [] parts' v))
          | Some (BDocument d') => doc_insert d part (BDocument (set_parts d' parts' v))
          | Some _ => d
          end
      end
  end.

Definition set_fields (u d : Document) : Document :=
  fold_left (fun d kv => set_parts d (split_on "." kv.1) kv.2) u d.

(** Whether a query for null at a path finds a value: null or nothing at its end, or,
    in an array of documents, for one of them. *)
Fixpoint finds (v : Bson) (parts : list string) : bool :=
  match parts with
  | [] => holds_null v
  | part :: parts' =>
      let in_document d := match doc_get d part with Some w => finds w parts' | None => true end in
      match v with
      | BDocument d => in_document d
      | BArray items => existsb (fun i => match i with BDocument d => in_document d | _ => false end) items
      | _ => true
      end
  end.

Definition finds_null (d : Document) (f : string) : bool := finds (BDocument d) (split_on "." f).

(** The values at the end of a path, from a value. *)
Fixpoint ends (v : Bson) (parts : list string) : list Bson :=
  match parts with
  | [] => [v]
  | part :: parts' =>
      let in_document d := match doc_get d part with Some w => ends w parts' | None => [] end in
      match v with
      | BDocument d => in_document d
      | BArray items => flat_map (fun i => match i with BDocument d => in_document d | _ => [] end) items
      | _ => []
      end
  end.

Definition field_value (d : Document) (f : string) : option Bson :=
  if crosses_array d (split_on "." f) then Some (BArray (ends (BDocument d) (split_on "." f))) else get_path d f.

Lemma get_parts_finds parts : forall d v, get_parts d parts = Some v ->
  finds (BDocument d) parts = holds_null v /\ crosses_array d parts = false.
Proof.
  induction parts as [|part parts IH]; intros d v Hv; [done|]. cbn [get_parts finds crosses_array] in *.
  destruct (doc_get d part) as [w|]; [|done]. destruct parts as [|q parts]; [by injection Hv as ->|].
  destruct w; try done. by apply IH.
Qed.

Lemma absent_parts_finds parts : forall d, get_parts d parts = None -> resolves d parts = true -> parts <> [] ->
  finds (BDocument d) parts = true /\ crosses_array d parts = false.
Proof.
  induction parts as [|part parts IH]; intros d Hn Hr Hp; [done|]. cbn [get_parts resolves finds crosses_array] in *.
  destruct (doc_get d part) as [w|]; [|by destruct parts]. destruct parts as [|q parts]; [done|].
  destruct w; try done. by apply IH.
Qed.

Lemma split_on_some c s : split_on c s <> [].
Proof. destruct s as [|x s]; [done|]. cbn [split_on]. by repeat case_match. Qed.

Lemma field_value_there d f v : get_path d f = Some v -> field_value d f = Some v /\ finds_null d f = holds_null v.
Proof. intros Hv. destruct (get_parts_finds _ d v Hv) as [E C]. unfold field_value, finds_null. by rewrite C. Qed.

Lemma field_value_absent d f : absent d f -> field_value d f = None /\ finds_null d f = true.
Proof.
  intros [Hn Hr]. destruct (absent_parts_finds _ d Hn Hr (split_on_some _ _)) as [E C].
  unfold field_value, finds_null. by rewrite C.
Qed.

Section LocalQueries.
Context `{BsonText}.

Fixpoint local_eval (d : Document) (e : Bson) : option Bson :=
  match e with
  | BString s => match strip_prefix "$" s with Some f => field_value d f | None => Some e end
  | BDocument [(k, v)] =>
      if String.eqb k "$not" then
        match local_eval d v with Some (BBoolean b) => Some (BBoolean (negb b)) | _ => None end
      else if String.eqb k "$regexMatch" then
        match v with
        | BDocument [(_, i); (_, BString p)] =>
            match local_eval d i with Some (BString s) => Some (BBoolean (local_regex p s)) | _ => None end
        | _ => None
        end
      else if String.eqb k "$convert" then
        match v with
        | BDocument [(_, i); _; (_, BString on_error); (_, BString on_null)] =>
            Some (BString match local_eval d i with
                          | None | Some BNull | Some BUndefined => on_null
                          | Some v => default on_error (scalar_to_text v)
                          end)
        | _ => None
        end
      else if String.eqb k "$ne" then
        match v with
        | BArray [a; b] =>
            match local_eval d a with
            | Some (BString s) => Some (BBoolean
                match local_eval d b with Some (BString t) => negb (String.eqb s t) | _ => true end)
            | _ => None
            end
        | _ => None
        end
      else None
  | _ => Some e
  end.

Fixpoint local_matches (f : Bson) (d : Document) : bool :=
  match f with
  | BDocument [] => true
  | BDocument [(k, v)] =>
      if String.eqb k "$and" then
        match v with BArray [a; b] => local_matches a d && local_matches b d | _ => false end
      else if String.eqb k "$or" then
        match v with BArray [a; b] => local_matches a d || local_matches b d | _ => false end
      else if String.eqb k "$expr" then
        match local_eval d v with Some (BBoolean b) => b | _ => false end
      else
        match v with
        | BNull => finds_null d k
        | BDocument [(op, BNull)] =>
            if String.eqb op "$ne" then negb (finds_null d k)
            else match get_path d k with Some w => bson_eqb v w | None => false end
        | _ => match get_path d k with Some w => bson_eqb v w | None => false end
        end
  | _ => false
  end.

#[export] Instance local_semantics : QuerySemantics := {
  matches f d := local_matches (BDocument f) d;
  eval := local_eval;
  regex := local_regex;
  to_string := scalar_to_text;
  apply_set := set_fields }.

Lemma doc_get_insert d k v : doc_get (doc_insert d k v) k = Some v.
Proof.
  induction d as [|[k' w] d IH]; unfold doc_get in *; simpl; [by rewrite String.eqb_refl|].
  destruct (String.eqb k' k) eqn:E; simpl; by rewrite E.
Qed.

Lemma doc_get_insert_ne d k k' v : k <> k' -> doc_get (doc_insert d k v) k' = doc_get d k'.
Proof.
  intros Hne. induction d as [|[x w] d IH]; unfold doc_get in *; simpl.
  - by apply String.eqb_neq in Hne as ->.
  - destruct (String.eqb_spec x k) as [->|Hx]; simpl; [by apply String.eqb_neq in Hne as ->|].
    by destruct (String.eqb x k').
Qed.

Lemma get_set_parts parts : forall d v w,
  get_parts d parts = Some w -> get_parts (set_parts d parts v) parts = Some v.
Proof.
  induction parts as [|part parts IH]; intros d v w Hw; [done|]. cbn [get_parts set_parts] in *.
  destruct (doc_get d part) as [x|] eqn:E; [|done]. destruct parts as [|q parts]; [by rewrite doc_get_insert|].
  destruct x; try done. rewrite doc_get_insert. by eapply IH.
Qed.

Lemma set_parts_other d parts v k :
  head parts <> Some k -> doc_get (set_parts d parts v) k = doc_get d k.
Proof.
  destruct parts as [|part [|q parts]]; intros Hk; cbn [set_parts]; [done|..].
  - apply doc_get_insert_ne. by intros ->.
  - destruct (doc_get d part) as [[]|]; try done; apply doc_get_insert_ne; by intros ->.
Qed.

Lemma field_no_op f op : field_name f -> contains_char "$" op = true -> String.eqb f op = false.
Proof. intros [_ Hf] Ho. apply String.eqb_neq. intros ->. congruence. Qed.

Lemma local_field f v d : field_name f ->
  local_matches (BDocument [(f, v)]) d =
  match v with
  | BNull => finds_null d f
  | BDocument [(op, BNull)] =>
      if String.eqb op "$ne" then negb (finds_null d f)
      else match get_path d f with Some w => bson_eqb v w | None => false end
  | _ => match get_path d f with Some w => bson_eqb v w | None => false end
  end.
Proof. intros Hf. cbn [local_matches]. by rewrite !(field_no_op f) by done. Qed.

Lemma local_matches_id d i : doc_get d "_id" = Some i -> matches [("_id", i)] d = true.
Proof.
  intros Hi. assert (get_path d "_id" = Some i) as Hp by (unfold get_path; cbn; by rewrite Hi).
  cbn [matches local_semantics]. rewrite local_field by done. rewrite Hp, (proj2 (field_value_there d "_id" i Hp)).
  destruct i; try apply bson_eqb_refl; [done|].
  destruct fields as [|[op []] []]; try apply bson_eqb_refl. destruct (String.eqb op "$ne"); [done|apply bson_eqb_refl].
Qed.

Lemma dollar_field f : strip_prefix "$" ("$" ++ f) = Some f.
Proof. by apply strip_prefix_Some. Qed.

Lemma no_dollar s : starts_with "$" s = false -> strip_prefix "$" s = None.
Proof. unfold starts_with. by destruct (strip_prefix "$" s). Qed.

#[export] Instance local_queries : MongoQueries.
Proof.
  split; cbn [matches eval regex to_string apply_set local_semantics]; try done.
  - intros f d Hf. unfold present. by rewrite !local_field by done.
  - intros f d v Hf Hv. rewrite local_field by done. by apply field_value_there.
  - intros f d Hf Ha. rewrite local_field by done. by apply field_value_absent.
  - apply local_matches_id.
  - intros e d b He. cbn. by rewrite He.
  - intros d s Hs. cbn [local_eval]. by rewrite (no_dollar s Hs).
  - intros d f v Hf Hv. cbn [local_eval]. rewrite dollar_field. by apply field_value_there.
  - intros d f Hf Ha. cbn [local_eval]. rewrite dollar_field. by apply field_value_absent.
  - intros d f Hf Hc. cbn [local_eval]. rewrite dollar_field. unfold field_value. rewrite Hc. by eexists.
  - intros d e b He. cbn. by rewrite He.
  - intros d e p s He Hp. cbn. by rewrite He.
  - intros d i e1 e2 v Hv _ _. unfold convert. cbn [local_eval] in *. by rewrite <- Hv.
  - intros d a b s Ha. cbn. by rewrite Ha.
  - by intros [].
  - apply local_regex_hex.
  - apply local_regex_suffix.
  - apply local_regex_prefix.
  - intros d f v w _ Hw. unfold set_fields, get_path in *. cbn [fold_left fst snd]. by eapply get_set_parts.
  - intros d f v _ Hf. unfold set_fields, get_path. cbn [fold_left fst snd].
    rewrite split_on_no_sep by done. cbn. by rewrite doc_get_insert.
  - intros d f v i _ Hid. rewrite !local_field by done. unfold set_fields, finds_null, get_path.
    cbn [fold_left fst snd]. assert (split_on "." "_id" = ["_id"]) as -> by reflexivity.
    cbn [get_parts finds]. by rewrite set_parts_other.
  - intros d f v _ Hid. unfold set_fields. cbn [fold_left fst snd]. by apply set_parts_other.
Qed.
End LocalQueries.

(** ** The store in memory *)

Abbreviation Collections := (gmap string (list Document)).

Definition collection_docs (s : Collections) (c : string) : list Document := default [] (s !! c).

Lemma collection_insert s c l : collection_docs (<[c := l]> s) c = l.
Proof. unfold collection_docs. by rewrite lookup_insert_eq. Qed.

Section LocalStore.
Context `{QuerySemantics}.

Definition set_of (update : Document) : Document :=
  match update with [(_, BDocument u)] => u | _ => [] end.

Fixpoint update_first (f u : Document) (l : list Document) : list Document :=
  match l with
  | [] => []
  | d :: l' => if matches f d then apply_set u d :: l' else d :: update_first f u l'
  end.

#[export] Instance local_store : DocumentStore Collections := {
  introspect _ := Ok tt;
  update_many s c f u :=
    (Ok (Z.of_nat (length (List.filter (matches f) (collection_docs s c)))),
     <[c := map (fun d => if matches f d then apply_set (set_of u) d else d) (collection_docs s c)]> s);
  find_docs s c f := Ok (map (fun d _ => Found d) (List.filter (matches f) (collection_docs s c)));
  update_one s c f u :=
    (Ok (Z.of_nat (Nat.min 1 (length (List.filter (matches f) (collection_docs s c))))),
     <[c := update_first f (set_of u) (collection_docs s c)]> s);
  count_documents s c f := Ok (Z.of_nat (length (List.filter (matches f) (collection_docs s c)))) }.

Lemma update_first_map f u l :
  (length (List.filter (matches f) l) <= 1)%nat ->
  update_first f u l = map (fun d => if matches f d then apply_set u d else d) l.
Proof.
  induction l as [|d l IH]; [done|]. cbn [List.filter update_first map].
  destruct (matches f d); simpl; intros Hl; [|by rewrite IH].
  f_equal. destruct (List.filter (matches f) l) as [|x r] eqn:E; [|simpl in Hl; lia].
  clear IH Hl. induction l as [|y l IH]; [done|]. cbn [List.filter map] in *.
  destruct (matches f y); [done|]. by rewrite <- IH.
Qed.

Lemma since_first {S} `{DocumentStore S} c s h s1 : since c s h s1 -> In s h /\ In s1 h.
Proof. induction 1 as [|h s1 i u n s2 _ [I _] _]; [by split; left|]. rewrite !in_app_iff. split; [by left|by right; left]. Qed.

#[export] Instance local_laws : StoreLaws.
Proof.
  refine {| docs := collection_docs |}.
  all: intros s c f; cbn [count_documents find_docs update_many update_one local_store set_of].
  - by intros n [= <-].
  - intros items [= <-] item h s1 d (x & <- & [Hx _]%filter_In)%in_map_iff Hs [= <-]. exists s.
    split; [by apply (since_first c s h s1)|done].
  - intros items [= <-] d Hd Hm. exists (fun _ => Found d). split; [|by intros h s1 x _ _ [= <-]].
    apply in_map_iff. exists d. split; [done|]. by apply filter_In.
  - intros u n s' [= <- <-]. apply collection_insert.
  - intros u n s' [= <- <-] Hl. rewrite collection_insert. by apply update_first_map.
Defined.
End LocalStore.
