(* ===== verification/MongoSafe.v ===== *)
(** * MongoSafe: a masked document store

    What [verify] proves of the documents there are, what [apply] does to a
    collection, and where the two fall short of what the comments of
    engine/src/mask/mongo.rs say.  The store's own behaviour is MongoQuery. *)

From Stdlib Require Import ZArith Lia Ascii String List Bool.
From stdpp Require Import base list gmap strings.
From S2P Require Import Prelude Text Domain Sql Mask Ops MaskRun MongoMask MongoQuery.
Import ListNotations.

Open Scope string_scope.
Open Scope list_scope.
Open Scope Z_scope.

(** ** What a read-back says *)

Lemma verify_checks_Ok {S} `{DocumentStore S} (s : S) checks : forall confirmed out,
  verify_checks s checks confirmed = Ok out ->
  out = confirmed ++ map (fun c => (cc_collection c ++ "." ++ cc_field c)%string) checks
  /\ Forall (fun c => exists n, count_documents s (cc_collection c) (cc_filter c) = Ok n /\ n <= 0) checks.
Proof.
  induction checks as [|c checks IH]; intros confirmed out; cbn [verify_checks].
  - intros [= <-]. by rewrite app_nil_r.
  - destruct (count_documents _ _ _) as [n|] eqn:E; [|done]. destruct (0 <? n) eqn:En; [done|]. bools.
    intros Hv. destruct (IH _ _ Hv) as [-> Hf]. rewrite <- app_assoc. split; [done|]. constructor; eauto.
Qed.

Lemma verify_Ok {S} `{DocumentStore S} (s : S) rules out :
  verify s rules = Ok out ->
  out = map (fun r => (rule_table r ++ "." ++ rule_column r)%string) rules
  /\ Forall (fun r => exists n,
       count_documents s (rule_table r) (violation_filter (rule_column r) (transform r)) = Ok n /\ n <= 0) rules.
Proof.
  unfold verify, check_filters. destruct (introspect s); [|done]. intros Hv.
  apply verify_checks_Ok in Hv as [-> Hf]. rewrite map_map, List.Forall_map in *. done.
Qed.

(** A rule the check reads as it is meant. *)
Definition checkable (r : MaskRule) : Prop :=
  field_name (rule_column r) /\ u16_length (transform r) /\ plain_constant (transform r).

Section Verified.
Context {S : Type} `{MongoQueries, DocumentStore S, !StoreLaws}.

(** What a verified rule says of a document: the field is not there, its value passes,
    or its path runs through an array, and then the query for null finds something. *)
Inductive field_settled (t : MaskTransform) (f : string) (d : Document) : Prop :=
| not_there : get_path d f = None -> crosses_array d (split_on "." f) = false -> field_settled t f d
| value_passes v : get_path d f = Some v -> passes t v -> field_settled t f d
| beyond_array : crosses_array d (split_on "." f) = true -> matches [(f, BNull)] d = true ->
    (forall value, t <> Constant value) -> field_settled t f d.

(** What it says of the documents there are. *)
Definition no_readable (s : S) (r : MaskRule) : Prop :=
  forall d, In d (docs s (rule_table r)) -> field_settled (transform r) (rule_column r) d.

Lemma verify_proves s rules out :
  verify s rules = Ok out -> Forall checkable rules -> Forall (no_readable s) rules.
Proof.
  intros Hv Hc. apply verify_Ok in Hv as [_ Hf]. rewrite Forall_forall in *. intros r Hr d Hd.
  destruct (Hf _ Hr) as (n & Hn & Hz). destruct (Hc _ Hr) as (Hn' & Hl & Hp'). apply count_law in Hn.
  assert (Hm : matches (violation_filter (rule_column r) (transform r)) d = false) by (eapply none_matching; [|done]; lia).
  destruct (get_path d (rule_column r)) as [v|] eqn:Ev; [eapply value_passes; [done|by eapply checked_value]|].
  destruct (crosses_array d (split_on "." (rule_column r))) eqn:Ex; [|by apply not_there].
  destruct (checked_through d _ _ Hn' Hl Hp' Ex Hm). by apply beyond_array.
Qed.
End Verified.

(** ** Rewriting a collection *)

Lemma take_chars_plain f n s :
  (forall c, f c = true -> is_cont c = false) -> all_chars f s = true ->
  String.length (take_chars n s) = Nat.min n (String.length s) /\ all_chars f (take_chars n s) = true.
Proof.
  intros Hf. revert n. induction s as [|c s IH]; intros n Hs; simpl in *; [by rewrite Nat.min_0_r|].
  bools. rewrite Hf by done. destruct n as [|n]; [done|]. simpl.
  destruct (IH n) as [-> Hc]; [done|]. split; [done|]. apply andb_true_iff. by split.
Qed.

Lemma hex_not_cont c : is_hex_lower c = true -> is_cont c = false.
Proof. by destruct c as [[] [] [] [] [] [] [] []]. Qed.

(** Whether the digest is long enough for the rule. *)
Definition fits_digest (t : MaskTransform) : Prop :=
  match t with Hash (Some n) => 0 <= n <= 64 | _ => True end.

Lemma line_self (P : string -> Prop) s : P s -> line P s.
Proof. exists s. eauto. Qed.

(** A computed value has the masked shape. *)
Lemma masked_text_shape digest t s :
  hex_run 64 digest -> fits_digest t -> masked_text digest t = Some s -> masked_shape t s.
Proof.
  intros [Hlen Hhex] Ht Hs. destruct t as [l| | | |]; try done; injection Hs as <-; cbn [masked_shape].
  - apply line_self. edestruct (take_chars_plain is_hex_lower) as [Ha Hb]; [exact hex_not_cont|exact Hhex|].
    split; [|exact Hb]. assert (0 <= default DEFAULT_HASH_LENGTH l <= 64) by (by destruct l). rewrite Ha. lia.
  - apply line_self. by eexists.
  - by eexists.
Qed.

Lemma replacement_Some `{BsonText} sha v t salt b :
  replacement sha v t salt = Some b ->
  exists w text s, v = Some w /\ is_null w = false /\ scalar_to_text w = Some text
    /\ b = BString s /\ masked_text (sha (salt ++ text)%string) t = Some s.
Proof.
  unfold replacement. destruct v as [w|]; [|done].
  destruct w; try done; intros Hr; cases; simplify_eq; by eauto 10.
Qed.

Section Rewriting.
Context `{BsonText} {S : Type} `{MongoQueries, DocumentStore S, !StoreLaws}.
Variable sha256_hex : string -> string.
Variable salt : string.
Hypothesis sha256_len : forall s, hex_run 64 (sha256_hex s).

(** The versions of a document that the updates of one rule make: as it was, or with
    the field set to what replaces the value of some version.  The second is [true]. *)
Inductive version (u : ComputedUpdate) (d : Document) : bool -> Document -> Prop :=
| as_it_was : version u d false d
| set_again x a y b i v : version u d x a -> version u d y b -> rewrite_of sha256_hex salt u a = Some (i, v) ->
    version u d true (apply_set [(cu_field u, v)] b).

(** What a finished update leaves of a document. *)
Definition rewritten (u : ComputedUpdate) (d d' : Document) : Prop :=
  match rewrite_of sha256_hex salt u d with
  | None => d' = d
  | Some _ => version u d true d'
  end.

Definition has_id (d : Document) : Prop := exists i, doc_get d "_id" = Some i.

(** Every document has a name of its own. *)
Definition identified (l : list Document) : Prop :=
  NoDup l /\ Forall has_id l
  /\ forall d d' i, In d l -> In d' l -> doc_get d "_id" = Some i -> matches [("_id", i)] d' = true -> d' = d.

(** A field a rule may rewrite. *)
Definition rewritable (f : string) : Prop := field_name f /\ head (split_on "." f) <> Some "_id".

Lemma rewrite_of_Some u d i v :
  rewrite_of sha256_hex salt u d = Some (i, v) ->
  exists w, get_path d (cu_field u) = Some w /\ is_maskable w = true /\ doc_get d "_id" = Some i
    /\ replacement sha256_hex (Some w) (cu_transform u) salt = Some v.
Proof.
  unfold rewrite_of. destruct (get_path d (cu_field u)) as [w|]; [|done].
  destruct (is_maskable w) eqn:Hw; [|done]. destruct (replacement _ _ _ _) as [b|] eqn:Hb; [|done].
  destruct (doc_get d "_id"); [|done]. intros [= <- <-]. by exists w.
Qed.

Lemma one_match (l : list Document) (f : Document -> bool) d :
  NoDup l -> (forall x, In x l -> f x = true -> x = d) -> (length (List.filter f l) <= 1)%nat.
Proof.
  intros Hn Hf. induction Hn as [|x l Hx Hn IH]; simpl; [lia|].
  assert (forall y, In y l -> f y = true -> y = d) as Hf' by (intros; apply Hf; simpl; auto).
  destruct (f x) eqn:E; simpl; [|by apply IH]. assert (x = d) as -> by (apply Hf; simpl; auto).
  enough (List.filter f l = []) as -> by (simpl; lia). apply filter_none, Forall_forall. intros y Hy.
  destruct (f y) eqn:Ey; [|done]. rewrite (Hf' y) in Hy by (done || by apply list_elem_of_In).
  by destruct Hx.
Qed.

Lemma filter_alike {A B} (R : A -> B -> Prop) f g (l : list A) (l' : list B) :
  Forall2 R l l' -> (forall x y, R x y -> f x = g y) -> length (List.filter f l) = length (List.filter g l').
Proof. intros HR Hfg. induction HR as [|x y l l' Hxy _ IH]; simpl; [done|]. rewrite (Hfg x y Hxy). case_match; simpl; by rewrite IH. Qed.

Section OneCollection.
Variables (u : ComputedUpdate) (orig : list Document).
Hypothesis Hu : rewritable (cu_field u).
Hypothesis Horig : identified orig.

Abbreviation staged := (Forall2 (fun d b => exists x, version u d x b) orig).

Lemma version_matches d x b i : version u d x b -> matches [("_id", i)] b = matches [("_id", i)] d.
Proof. destruct Hu as [Hf Hi]. induction 1 as [|x a y b j v _ _ _ IH _]; [done|]. by rewrite set_keeps_id. Qed.

Lemma version_id d x b : version u d x b -> doc_get b "_id" = doc_get d "_id".
Proof. destruct Hu as [Hf Hi]. induction 1 as [|x a y b j v _ _ _ IH _]; [done|]. by rewrite set_id. Qed.

(** What has nothing to mask stays. *)
Lemma version_unchanged d x b : rewrite_of sha256_hex salt u d = None -> version u d x b -> x = false /\ b = d.
Proof. intros Hn. induction 1 as [|x a y b i v _ [_ ->] _ _ Hr]; [done|congruence]. Qed.

(** A version that was set holds a masked text. *)
Lemma version_value d x b w : get_path d (cu_field u) = Some w -> fits_digest (cu_transform u) -> version u d x b ->
  exists v, get_path b (cu_field u) = Some v
    /\ (x = true -> exists t, v = BString t /\ masked_shape (cu_transform u) t).
Proof.
  intros Hw Hl. destruct Hu as [Hf _]. induction 1 as [|x a y b i v _ _ _ (z & Hz & _) Hr]; [by exists w|].
  exists v. split; [by eapply set_there|]. intros _.
  destruct (rewrite_of_Some _ _ _ _ Hr) as (w' & _ & _ & _ & Hv).
  apply replacement_Some in Hv as (w2 & text & t & _ & _ & _ & -> & Ht). exists t. split; [done|].
  by eapply masked_text_shape.
Qed.

(** An update of one document by its name. *)
Lemma update_staged s i d v n s' :
  staged (docs s (cu_collection u)) -> In d orig -> doc_get d "_id" = Some i ->
  update_one s (cu_collection u) [("_id", i)] [("$set", BDocument [(cu_field u, v)])] = (Ok n, s') ->
  docs s' (cu_collection u)
  = map (fun b => if matches [("_id", i)] b then apply_set [(cu_field u, v)] b else b) (docs s (cu_collection u)).
Proof.
  intros Hst Hd Hi Hup. apply update_one_law in Hup as ->; [done|].
  destruct Horig as (Hn & _ & Hsame).
  rewrite <- (filter_alike _ (matches [("_id", i)]) (matches [("_id", i)]) _ _ Hst).
  - apply (one_match _ _ d); [done|]. intros x Hx Hm. by apply (Hsame d x i).
  - intros x y [z Hv]. symmetry. by eapply version_matches.
Qed.

Lemma forall2_in {A B} (R : A -> B -> Prop) l l' y : Forall2 R l l' -> In y l' -> exists x, In x l /\ R x y.
Proof. induction 1 as [|x z l l' Hxz _ IH]; [done|]. intros [->|Hy]; [exists x; split; [by left|done]|]. destruct (IH Hy) as (w & ? & ?). exists w. split; [by right|done]. Qed.

(** A document was set, has nothing to set, or its turn is still to come. *)
Definition due (s : S) (rest : list (S -> Item)) (d b : Document) : Prop :=
  version u d true b \/ (b = d /\ (rewrite_of sha256_hex salt u d = None
    \/ exists item, In item rest /\ forall h s1 x, since (cu_collection u) s h s1 -> In d (docs s1 (cu_collection u)) ->
         item s1 = Found x -> x = d)).

Definition pending (s : S) (rest : list (S -> Item)) (l : list Document) : Prop :=
  Forall2 (fun d b => In d orig /\ In b l /\ due s rest d b) orig l.

Lemma pending_staged s rest l : pending s rest l -> staged l.
Proof.
  intros Hp. eapply Forall2_impl; [exact Hp|]. intros d b (_ & _ & [Hv|[-> _]]); eexists; [exact Hv|apply as_it_was].
Qed.

Lemma pending_done s l : pending s [] l -> Forall2 (rewritten u) orig l.
Proof.
  intros Hp. eapply Forall2_impl; [exact Hp|]. intros d b (_ & _ & H'). unfold rewritten. destruct (rewrite_of _ _ _ d) as [[i v]|] eqn:Er.
  - destruct H' as [Hv|[-> [?|(item & [] & _)]]]; [done|congruence].
  - destruct H' as [Hv|[-> _]]; [|done]. by destruct (version_unchanged _ _ _ Er Hv).
Qed.

Lemma map_pending s item rest l f : pending s (item :: rest) l ->
  (forall d b, In d orig -> In b l -> due s (item :: rest) d b -> due s rest d (f b)) ->
  pending s rest (map f l).
Proof.
  intros Hp Hf. apply Forall2_fmap_r. eapply Forall2_impl; [exact Hp|]. intros d b (Hd & Hb & Hc).
  split; [done|]. split; [by apply in_map|by apply Hf].
Qed.

(** One item of the cursor takes its document's turn. *)
Lemma turn_taken s h s1 item rest a :
  since (cu_collection u) s h s1 -> pending s (item :: rest) (docs s1 (cu_collection u)) -> item s1 = Found a ->
  rewrite_of sha256_hex salt u a = None -> pending s rest (docs s1 (cu_collection u)).
Proof.
  intros Hs Hp Hi Hr. rewrite <- (map_id (docs s1 _)). eapply map_pending; [exact Hp|]. intros d b Hd Hb [Hv|[-> Hc]]; [by left|].
  right. split; [done|]. destruct Hc as [?|(it & [<-|Hin] & Hc)]; [by left| |right; by exists it].
  left. by rewrite <- (Hc h s1 a Hs Hb Hi).
Qed.

Lemma turn_set s h s1 s2 item rest a d0 x i v n :
  since (cu_collection u) s h s1 -> pending s (item :: rest) (docs s1 (cu_collection u)) -> item s1 = Found a ->
  In d0 orig -> version u d0 x a -> rewrite_of sha256_hex salt u a = Some (i, v) ->
  update_one s1 (cu_collection u) [("_id", i)] [("$set", BDocument [(cu_field u, v)])] = (Ok n, s2) ->
  pending s rest (docs s2 (cu_collection u)).
Proof.
  intros Hs Hp Hi Hd0 Hv Hr Hup. destruct (rewrite_of_Some _ _ _ _ Hr) as (_ & _ & _ & Hia & _).
  assert (Hid0 : doc_get d0 "_id" = Some i) by (by rewrite <- (version_id d0 x a)).
  rewrite (update_staged _ _ _ _ _ _ (pending_staged _ _ _ Hp) Hd0 Hid0 Hup).
  destruct Horig as (_ & _ & Hsame).
  eapply map_pending; [exact Hp|]. intros d b Hd Hb Hc.
  assert (Hb' : exists y, version u d y b) by (destruct Hc as [?|[-> _]]; eexists; [done|apply as_it_was]).
  destruct Hb' as [y Hb']. rewrite (version_matches d y b i Hb').
  destruct (matches [("_id", i)] d) eqn:Em.
  - rewrite (Hsame d0 d i Hd0 Hd Hid0 Em) in Hb' |- *. left. exact (set_again u d0 x a y b i v Hv Hb' Hr).
  - destruct Hc as [?|[-> Hc]]; [by left|right]. split; [done|].
    destruct Hc as [?|(it & [<-|Hin] & Hc)]; [by left| |right; by exists it].
    rewrite (Hc h s1 a Hs Hb Hi) in Hia. by rewrite (matches_id d i Hia) in Em.
Qed.

(** The loop over the cursor, which may return what it returned before. *)
Lemma rewrite_items_docs s items :
  (forall item h s1 d, In item items -> since (cu_collection u) s h s1 -> item s1 = Found d ->
     exists s0, In s0 h /\ In d (docs s0 (cu_collection u))) ->
  forall rest h s1 k n s', incl rest items -> since (cu_collection u) s h s1 ->
  Forall (fun s0 => staged (docs s0 (cu_collection u))) h -> pending s rest (docs s1 (cu_collection u)) ->
  rewrite_items sha256_hex salt u s1 rest k = (Ok n, s') ->
  Forall2 (rewritten u) orig (docs s' (cu_collection u)).
Proof.
  intros Hreads. induction rest as [|item rest IH]; intros h s1 k n s' Hin Hs Hst Hp; cbn [rewrite_items].
  { intros [= _ <-]. by eapply pending_done. }
  destruct (item s1) as [a|e|e] eqn:Ei; [|done..]. apply incl_cons_inv in Hin as [Hit Hin].
  destruct (rewrite_of sha256_hex salt u a) as [[i v]|] eqn:Er; [|by apply (IH h); [..|by eapply turn_taken]].
  destruct (update_one _ _ _ _) as [[m|e] s2] eqn:Eu; [|done].
  destruct (Hreads item h s1 a Hit Hs Ei) as (s0 & Hs0 & Ha). rewrite Forall_forall in Hst.
  destruct (forall2_in _ _ _ _ (Hst s0 (proj2 (list_elem_of_In _ _) Hs0)) Ha) as (d0 & Hd0 & x & Hv).
  assert (Hp' : pending s rest (docs s2 (cu_collection u))) by by eapply turn_set.
  apply (IH (h ++ [s2])); [done|by eapply since_set| |done].
  apply Forall_app. split; [by apply Forall_forall|]. constructor; [by eapply pending_staged|constructor].
Qed.

(** What there is to rewrite is found by the query for the field. *)
Lemma rewritten_present d i v : rewrite_of sha256_hex salt u d = Some (i, v) -> matches (present (cu_field u)) d = true.
Proof.
  intros Er. destruct (rewrite_of_Some _ _ _ _ Er) as (w & Hw & Hk & _ & Hr).
  apply replacement_Some in Hr as (w' & text & t & [= <-] & Hnull & _).
  destruct Hu as [Hf _]. rewrite matches_ne, (matches_null _ _ w) by done. by destruct w.
Qed.

(** A computed update masks each document of its collection. *)
Lemma computed_masks_each s items k n s' :
  docs s (cu_collection u) = orig ->
  find_docs s (cu_collection u) (present (cu_field u)) = Ok items ->
  rewrite_items sha256_hex salt u s items k = (Ok n, s') ->
  Forall2 (rewritten u) orig (docs s' (cu_collection u)).
Proof.
  intros Hs Hf. apply (rewrite_items_docs s items (cursor_reads _ _ _ _ Hf) items [s]); [apply incl_refl|apply since_found|..]; rewrite ?Hs.
  - constructor; [|constructor]. rewrite Hs. apply Forall_Forall2_diag, Forall_forall. intros d _. eexists. apply as_it_was.
  - apply Forall_Forall2_diag, Forall_forall. intros d Hd%list_elem_of_In. split_and!; [done..|]. right. split; [done|].
    destruct (rewrite_of _ _ _ d) as [[i v]|] eqn:Er; [right|by left].
    apply (cursor_misses_none _ _ _ _ Hf); [by rewrite Hs|by eapply rewritten_present].
Qed.

(** A document whose field the program can mask, or that has nothing there. *)
Definition maskable_at (f : string) (d : Document) : Prop :=
  absent d f \/ get_path d f = Some BNull
  \/ exists w text, get_path d f = Some w /\ is_null w = false /\ scalar_to_text w = Some text.

Lemma scalar_maskable w text : scalar_to_text w = Some text -> is_maskable w = true.
Proof. by destruct w. Qed.

Lemma scalar_replacement w text t : is_null w = false -> scalar_to_text w = Some text -> is_computed t = true ->
  exists s, replacement sha256_hex (Some w) t salt = Some (BString s)
    /\ masked_text (sha256_hex (salt ++ text)%string) t = Some s.
Proof.
  intros Hn Ht Hc. destruct (masked_text (sha256_hex (salt ++ text)%string) t) as [s|] eqn:E; [|by destruct t].
  exists s. split; [|done]. destruct w; try done; unfold replacement; by rewrite Ht, E.
Qed.

Lemma fits_u16 t : fits_digest t -> u16_length t.
Proof. destruct t as [[n|]| | | |]; simpl; lia. Qed.

Lemma rewritten_passes d b : has_id d -> maskable_at (cu_field u) d ->
  is_computed (cu_transform u) = true -> fits_digest (cu_transform u) -> rewritten u d b ->
  matches (violation_filter (cu_field u) (cu_transform u)) b = false.
Proof.
  intros [i Hi] Hm Ht Hl Hb. pose proof Hu as [Hf _]. rewrite violation_computed by done. unfold rewritten in Hb.
  destruct Hm as [Ha|[Hnull|(w & text & Hw & Hn & Hs)]].
  - assert (rewrite_of sha256_hex salt u d = None) as E by (unfold rewrite_of; by destruct Ha as [-> _]).
    rewrite E in Hb. subst b. unfold not_matching. rewrite matches_and, matches_ne by done. by rewrite (matches_absent _ d).
  - assert (rewrite_of sha256_hex salt u d = None) as E by (unfold rewrite_of; by rewrite Hnull).
    rewrite E in Hb. subst b. rewrite (matches_not_matching _ _ _ BNull); [done..|apply pattern_literal].
  - destruct (scalar_replacement w text (cu_transform u)) as (s & Hr & Hsh); [done..|].
    assert (rewrite_of sha256_hex salt u d = Some (i, BString s)) as E
      by (unfold rewrite_of; by rewrite Hw, (scalar_maskable w text Hs), Hr, Hi).
    rewrite E in Hb. destruct (version_value d true b w Hw Hl Hb) as (v & Hv & Hx). destruct (Hx eq_refl) as (t & -> & Hsp).
    rewrite (matches_not_matching _ _ _ (BString t)); [|done..|apply pattern_literal].
    unfold read_text. rewrite to_string_string. simpl. apply negb_false_iff, pattern_shape; [done|by apply fits_u16|done].
Qed.
End OneCollection.
End Rewriting.

Lemma by_table_one r : by_table [r] = [(rule_table r, [r])].
Proof.
  unfold by_table, entries. cbn [fold_left]. rewrite lookup_empty, insert_empty.
  by rewrite map_to_list_singleton.
Qed.

(** ** Properties *)

(** C35: what a masking of a document store that was not undone has shown, for rules
    whose field, length and constant the check reads as they are meant ([checkable]).
    The database was kept, every rule is reported, and of every document that is in a
    rule's collection when the run ends: the field is not there; or it is null or has
    the masked form of its rule, or is an array that holds a null, which the check
    takes for an absence (see [a_null_hides_its_array]); or its path runs through an
    array, and the check passed because the query for null finds the document, that
    is, some element lacks the field or has null there - then values of the other
    elements may still be readable. *)
Theorem a_masked_store_is_proven {S} `{BsonText, MongoQueries, DocumentStore S, !StoreLaws}
    sha256_hex salt str_debug uuid_text w (s : S) database coverage report trace :
  mask_destination str_debug uuid_text (document_world sha256_hex salt w s) Mongo database coverage
  = (Ok report, trace) ->
  Forall checkable (effective coverage) ->
  ~ In Dropped trace
  /\ mr_columns report = map (fun r => (rule_table r ++ "." ++ rule_column r)%string) (effective coverage)
  /\ Forall (no_readable (snd (apply sha256_hex salt s (effective coverage)))) (effective coverage).
Proof.
  unfold mask_destination, run_masking, document_world. cbn [MaskRun.salt map_err].
  unfold run_mongo_masking. cbn [reach mongo_apply mongo_verify drop_database].
  destruct (reach w); [|by destruct (drop_database w)]. cbn [map_err].
  destruct (fst (apply sha256_hex salt s _)) as [n|]; [|by destruct (drop_database w)]. cbn [map_err].
  destruct (verify _ _) as [columns|] eqn:Ev; [|by destruct (drop_database w)]. cbn [map_err].
  intros [= <- <-] Hc. split_and!.
  - simpl. intuition discriminate.
  - by apply verify_Ok in Ev as [-> _].
  - eapply verify_proves; eauto.
Qed.

(** C28: rewriting a collection does what its check asks for, although its cursor is not
    a snapshot.  When every document has a name of its own, the field of each is text, a
    number or another scalar with a text form, or is null or absent, and a hash is no
    longer than the digest: after a computed update that reports success, every
    document that had a value there holds the masked form of that value - or of a value
    masked before, where the server returned the document again - documents that had
    nothing there are as they were, and the check of the rule counts none. *)
Theorem a_rewritten_collection_passes {S} `{BsonText, MongoQueries, DocumentStore S, !StoreLaws}
    sha256_hex salt u (s : S) items k n s' :
  (forall t, hex_run 64 (sha256_hex t)) ->
  rewritable (cu_field u) -> identified (docs s (cu_collection u)) ->
  is_computed (cu_transform u) = true -> fits_digest (cu_transform u) ->
  Forall (maskable_at (cu_field u)) (docs s (cu_collection u)) ->
  find_docs s (cu_collection u) (present (cu_field u)) = Ok items ->
  rewrite_items sha256_hex salt u s items k = (Ok n, s') ->
  Forall2 (rewritten sha256_hex salt u) (docs s (cu_collection u)) (docs s' (cu_collection u))
  /\ forall m, count_documents s' (cu_collection u) (violation_filter (cu_field u) (cu_transform u)) = Ok m ->
       m = 0.
Proof.
  intros Hsha Hu Hid Ht Hl Hm Hf Hr.
  pose proof (computed_masks_each sha256_hex salt u _ Hu Hid s items k n s' eq_refl Hf Hr) as Hd.
  split; [done|]. intros m Hcount. apply count_law in Hcount as ->.
  rewrite filter_none; [done|]. apply Forall_forall. intros b Hb%list_elem_of_In.
  destruct (forall2_in _ _ _ _ Hd Hb) as (d & Hd' & Hdb). destruct Hid as (_ & Hid & _).
  rewrite Forall_forall in Hid, Hm. apply list_elem_of_In in Hd'.
  by apply (rewritten_passes sha256_hex salt Hsha u Hu d b); auto.
Qed.

(** An array that holds a null is taken for an absent field.  The comments say
    that an array is declined and that the read-back counts it; one that holds a
    null beside a readable value is neither rewritten nor counted, whatever rule
    computes its value: the query for it is [{ $ne: null }], and a query for null
    finds an array with a null in it. *)
Theorem a_null_hides_its_array `{MongoQueries} f t d items :
  field_name f -> is_computed t = true \/ t = Null ->
  get_path d f = Some (BArray items) -> In BNull items ->
  matches (violation_filter f t) d = false /\ matches (present f) d = false.
Proof.
  intros Hf Ht Hd Hin. assert (holds_null (BArray items) = true) as Hn
    by (apply existsb_exists; by exists BNull).
  assert (matches (present f) d = false) as Hp
    by (by rewrite matches_ne, (matches_null f d _ Hf Hd), Hn by done).
  split; [|done]. destruct Ht as [Ht| ->]; [|done].
  rewrite violation_computed by done. unfold not_matching. by rewrite matches_and, Hp.
Qed.

(** A constant that begins with a dollar sign can never be confirmed.  The
    check hands it to the server as an expression, where such a text is the path
    of a field: a document that holds exactly the constant is counted as not
    masked, and a correct masking is dropped. *)
Theorem a_dollar_constant_is_a_path `{MongoQueries} f other d :
  field_name f -> field_name other -> absent d other ->
  get_path d f = Some (BString ("$" ++ other)) ->
  matches (violation_filter f (Constant ("$" ++ other))) d = true.
Proof.
  intros Hf Ho Ha Hd. cbn [violation_filter]. rewrite matches_or. apply orb_true_iff. right.
  apply matches_expr. erewrite eval_ne by (eapply eval_as_text; eauto).
  by rewrite eval_missing.
Qed.

(** A rule that sets null adds its field.  The comment says a field that was
    absent stays absent; the update has an empty filter and [$set], which creates
    what is not there: after it every document has the field, null. *)
Theorem a_null_rule_adds_its_field {S} `{MongoQueries, DocumentStore S, !StoreLaws} (s : S) c f n s' :
  field_name f -> contains_char "." f = false ->
  update_server s (mp_server (plan [mk_rule c f Null])) 0 = (Ok n, s') ->
  Forall (fun d => get_path d f = Some BNull) (docs s' c).
Proof.
  intros Hf Hdot. assert (plan [mk_rule c f Null] = mk_mplan [mk_supdate c [(f, BNull)]] []) as ->.
  { unfold plan. by rewrite by_table_one. }
  cbn [mp_server update_server su_collection su_set].
  destruct (update_many s c [] _) as [[m|] s1] eqn:E; [|done]. intros [= _ <-].
  rewrite (update_many_law _ _ _ _ _ _ E). apply List.Forall_map, Forall_forall. intros d _.
  rewrite matches_all. by apply set_new.
Qed.

(** ** Witnesses *)

Module Sample.

#[export] Instance sample_text : BsonText := {
  double_text := show; object_id_hex := id; rfc3339 _ := None; decimal_text := id }.

(** A digest of the right form. *)
Definition digest (_ : string) : string :=
  "00112233445566778899aabbccddeeff00112233445566778899aabbccddeeff".

Definition users : list Document :=
  [[("_id", BString "u1"); ("email", BString "alice@corp.test")];
   [("_id", BString "u2"); ("email", BNull)]].

Definition before : Collections := {["users" := users]}.

Definition email_of : ComputedUpdate := mk_cupdate "users" "email" Email.

Definition coverage : MaskingCoverage := mk_coverage [email_rule "users" "email"] [].

Definition world : World := leaky_world (Ok tt).

Definition report : MaskingReport := mk_mreport ["users"] ["users.email"] 1 [] true.

Lemma run :
  mask_destination id (fun _ => "") (document_world digest "salt" world before) Mongo "dev" coverage
  = (Ok report, [MongoApplied; MongoVerified]).
Proof. vm_compute. reflexivity. Qed.

Lemma email_name : field_name "email".
Proof. by split. Qed.

Lemma digest_len t : hex_run 64 (digest t).
Proof. by split. Qed.

Lemma email_rewritable : rewritable "email".
Proof. split; [exact email_name|done]. Qed.

Lemma users_identified : identified users.
Proof.
  split_and!.
  - apply NoDup_cons. split; [|apply NoDup_singleton]. by intros ?%list_elem_of_singleton.
  - repeat constructor; by eexists.
  - intros d d' i Hd Hd'. destruct Hd as [<-|[<-|[]]], Hd' as [<-|[<-|[]]]; intros [= <-]; by vm_compute.
Qed.

Lemma users_maskable : Forall (maskable_at "email") users.
Proof.
  constructor; [|constructor; [|constructor]].
  - right. right. exists (BString "alice@corp.test"), "alice@corp.test". by split_and!.
  - by right; left.
Qed.

(** A server whose cursor returns every document twice, the second time as it is by
    then. *)
Definition again (c : string) (d : Document) (s : Collections) : Item :=
  match doc_get d "_id" with
  | Some i =>
      match List.find (matches [("_id", i)]) (collection_docs s c) with
      | Some x => Found x
      | None => Undecodable "gone"
      end
  | None => Undecodable "nameless"
  end.

Definition echo_store : DocumentStore Collections := {|
  introspect := introspect;
  update_many := update_many;
  find_docs s c f :=
    let found := List.filter (matches f) (collection_docs s c) in Ok (map (fun d _ => Found d) found ++ map (again c) found);
  update_one := update_one;
  count_documents := count_documents |}.

Lemma since_first_echo c s h s1 : since (H := echo_store) c s h s1 -> In s h /\ In s1 h.
Proof. induction 1 as [|h s1 i u n s2 _ [I _] _]; [by split; left|]. rewrite !in_app_iff. split; [by left|by right; left]. Qed.

Definition echo_laws : StoreLaws (H := echo_store).
Proof.
  refine (@Build_StoreLaws _ echo_store _ collection_docs _ _ _ _ _).
  - intros s c f n. apply (@count_law _ _ _ local_laws).
  - intros s c f items [= <-] item h s1 d Hin Hs Hd. destruct (since_first_echo c s h s1 Hs) as [I I1].
    apply in_app_iff in Hin as [(x & <- & [Hx _]%filter_In)%in_map_iff|(x & <- & _)%in_map_iff].
    + injection Hd as <-. by exists s.
    + unfold again in Hd. destruct (doc_get x "_id") as [i|]; [|done].
      destruct (List.find _ _) as [y|] eqn:E; [|done]. injection Hd as <-. exists s1. split; [done|].
      by apply List.find_some in E as [? _].
  - intros s c f items [= <-] d Hd Hm. exists (fun _ => Found d). split; [|by intros h s1 x _ _ [= <-]].
    apply in_app_iff. left. apply in_map_iff. exists d. split; [done|]. by apply filter_In.
  - intros s c f u n s'. apply (@update_many_law _ _ _ local_laws).
  - intros s c f u n s'. apply (@update_one_law _ _ _ local_laws).
Defined.

Definition email_items : list (Collections -> Item) :=
  match find_docs (DocumentStore := echo_store) before "users" (present "email") with Ok l => l | Err _ => [] end.

Definition masked_twice := rewrite_items (H0 := echo_store) digest "salt" email_of before email_items 0.

Lemma masked_twice_ok : masked_twice = (Ok 2, snd masked_twice).
Proof. by vm_compute. Qed.

Lemma users_docs : docs before "users" = users.
Proof. reflexivity. Qed.

Lemma users_found : find_docs (DocumentStore := echo_store) before "users" (present "email") = Ok email_items.
Proof. reflexivity. Qed.
End Sample.

Import Sample.

Lemma a_masked_store_is_proven_witness :
  ~ In Dropped [MongoApplied; MongoVerified] /\ mr_columns report = ["users.email"]
  /\ Forall (no_readable (snd (apply digest "salt" before (effective coverage)))) (effective coverage).
Proof.
  refine (a_masked_store_is_proven digest "salt" id (fun _ => "") world before "dev" coverage report _ run _).
  constructor; [|constructor]. split_and!; [exact email_name|exact I|exact I].
Defined.

(** The one address is masked twice. *)
Lemma a_rewritten_collection_passes_witness :
  Forall2 (rewritten digest "salt" email_of) users (collection_docs (snd masked_twice) "users")
  /\ forall m, count_documents (snd masked_twice) "users" (violation_filter "email" Email) = Ok m -> m = 0.
Proof.
  exact (@a_rewritten_collection_passes _ _ _ _ echo_store echo_laws digest "salt" email_of before email_items 0 2
    (snd masked_twice) digest_len email_rewritable users_identified eq_refl I users_maskable users_found masked_twice_ok).
Defined.

Definition mixed : Document := [("_id", BInt32 7); ("tags", BArray [BString "secret"; BNull])].

Lemma a_null_hides_its_array_witness :
  matches (violation_filter "tags" (Hash None)) mixed = false /\ matches (present "tags") mixed = false.
Proof.
  apply (a_null_hides_its_array "tags" (Hash None) mixed [BString "secret"; BNull]);
    [by split|by left|reflexivity|simpl; auto].
Defined.

Definition priced : Document := [("_id", BInt32 7); ("note", BString "$50")].

Lemma a_dollar_constant_is_a_path_witness : matches (violation_filter "note" (Constant "$50")) priced = true.
Proof. apply (a_dollar_constant_is_a_path "note" "50" priced); by split. Defined.

Lemma a_null_rule_adds_its_field_witness :
  Forall (fun d => get_path d "ssn" = Some BNull)
    (docs (snd (update_server before (mp_server (plan [mk_rule "users" "ssn" Null])) 0)) "users").
Proof.
  apply (a_null_rule_adds_its_field before "users" "ssn" 2); [by split|reflexivity|vm_compute; reflexivity].
Defined.
