(* ===== verification/Substring.v ===== *)
(** * Substring: finding, splitting and replacing text inside a string

    Rust's [str::find], [str::split] and [str::replace] for a pattern that is a
    non-empty string, each scanning from the left without overlaps, with the lemmas
    their users share. *)

From Stdlib Require Import ZArith Lia Ascii String List Bool.
From stdpp Require Import base list strings.
From S2P Require Import Prelude Text Disk.
Import ListNotations.

Open Scope string_scope.
Open Scope list_scope.

(** What comes before and after the first occurrence. *)
Fixpoint cut (needle s : string) : option (string * string) :=
  match strip_prefix needle s with
  | Some rest => Some ("", rest)
  | None =>
      match s with
      | EmptyString => None
      | String c r =>
          match cut needle r with
          | Some (a, b) => Some (String c a, b)
          | None => None
          end
      end
  end.

(** [skip] is what remains of the occurrence the scan is in. *)
Fixpoint split_skip (p : string) (skip : nat) (s : string) : list string :=
  match s with
  | EmptyString => [""]
  | String c r =>
      match skip with
      | S k => split_skip p k r
      | O =>
          if starts_with p s then "" :: split_skip p (String.length p - 1) r
          else match split_skip p 0 r with
               | x :: l => String c x :: l
               | [] => []
               end
      end
  end.

Definition split_str (p s : string) : list string := split_skip p 0 s.

Fixpoint replace_skip (p by_ : string) (skip : nat) (s : string) : string :=
  match s with
  | EmptyString => ""
  | String c r =>
      match skip with
      | S k => replace_skip p by_ k r
      | O =>
          if starts_with p s then (by_ ++ replace_skip p by_ (String.length p - 1) r)%string
          else String c (replace_skip p by_ 0 r)
      end
  end.

Definition replace (p by_ s : string) : string := replace_skip p by_ 0%nat s.

(** ** Lemmas *)

Lemma strip_prefix_app p s : strip_prefix p (p ++ s) = Some s.
Proof. by apply strip_prefix_Some. Qed.

Lemma starts_with_app p s : starts_with p (p ++ s) = true.
Proof. unfold starts_with. by rewrite strip_prefix_app. Qed.

Lemma starts_with_iff p s : starts_with p s = true <-> exists r, s = (p ++ r)%string.
Proof.
  unfold starts_with. destruct (strip_prefix p s) as [r|] eqn:E.
  - apply strip_prefix_Some in E. naive_solver.
  - split; [done|]. intros [r ->]. by rewrite strip_prefix_app in E.
Qed.

(** A pattern is not found where its first character is not. *)
Lemma starts_with_head a p c r : c <> a -> starts_with (String a p) (String c r) = false.
Proof. intros N. unfold starts_with. simpl. destruct (Ascii.eqb_spec a c); congruence. Qed.

Lemma cut_Some p s a b : cut p s = Some (a, b) -> s = (a ++ p ++ b)%string.
Proof.
  revert a b. induction s as [|c s IH]; intros a b; simpl; destruct (strip_prefix p _) as [r|] eqn:E.
  - intros [= <- <-]. by apply strip_prefix_Some in E.
  - done.
  - intros [= <- <-]. by apply strip_prefix_Some in E.
  - destruct (cut p s) as [[a' b']|]; [|done]. intros [= <- <-]. by rewrite (IH a' b') at 1.
Qed.

Lemma contains_char_cons a c s : contains_char a (String c s) = false -> c <> a /\ contains_char a s = false.
Proof. simpl. intros [Hc Hn]%orb_false_elim. split; [|done]. intros ->. by rewrite Ascii.eqb_refl in Hc. Qed.

(** An occurrence after text without the pattern's first character is the first. *)
Lemma cut_app a p pre s :
  contains_char a pre = false -> cut (String a p) (pre ++ String a p ++ s) = Some (pre, s).
Proof.
  induction pre as [|c pre IH]; intros Hn.
  - simpl. by rewrite Ascii.eqb_refl, strip_prefix_app.
  - apply contains_char_cons in Hn as [N Hn]. simpl in *.
    destruct (Ascii.eqb_spec a c); [congruence|]. by rewrite IH.
Qed.

Lemma cut_none a p s : contains_char a s = false -> cut (String a p) s = None.
Proof.
  induction s as [|c s IH]; intros Hn; [done|].
  apply contains_char_cons in Hn as [N Hn]. simpl in *.
  destruct (Ascii.eqb_spec a c); [congruence|]. by rewrite IH.
Qed.

Lemma replace_skip_app p by_ q s : replace_skip p by_ (String.length q) (q ++ s) = replace_skip p by_ 0%nat s.
Proof. by induction q. Qed.

Lemma replace_hit a p by_ s : replace (String a p) by_ (String a p ++ s) = (by_ ++ replace (String a p) by_ s)%string.
Proof.
  unfold replace. cbn [replace_skip append]. change (String a (p ++ s)) with (String a p ++ s)%string.
  rewrite starts_with_app. f_equal. simpl. rewrite Nat.sub_0_r. apply replace_skip_app.
Qed.

Lemma replace_miss p by_ c s :
  starts_with p (String c s) = false -> replace p by_ (String c s) = String c (replace p by_ s).
Proof. unfold replace. cbn [replace_skip]. by intros ->. Qed.

Lemma split_skip_app p q s : split_skip p (String.length q) (q ++ s) = split_skip p 0 s.
Proof. by induction q. Qed.

Lemma split_skip_nonempty p k s : split_skip p k s <> [].
Proof.
  revert k. induction s as [|c s IH]; intros [|k]; simpl; try done.
  case_match; [done|]. specialize (IH 0%nat). by destruct (split_skip p 0 s).
Qed.

Lemma split_str_hit a p s : split_str (String a p) (String a p ++ s) = "" :: split_str (String a p) s.
Proof.
  unfold split_str. cbn [split_skip append]. change (String a (p ++ s)) with (String a p ++ s)%string.
  rewrite starts_with_app. f_equal. simpl. rewrite Nat.sub_0_r.
  apply split_skip_app.
Qed.

(** Pieces the pattern's first character is not in are found again. *)
Lemma split_str_plain a p s : contains_char a s = false -> split_str (String a p) s = [s].
Proof.
  unfold split_str. induction s as [|c s IH]; intros Hn; [done|].
  apply contains_char_cons in Hn as [N Hn]. cbn [split_skip]. by rewrite starts_with_head, IH.
Qed.

Lemma split_str_app a p pre s :
  contains_char a pre = false ->
  split_str (String a p) (pre ++ String a p ++ s) = pre :: split_str (String a p) s.
Proof.
  induction pre as [|c pre IH]; intros Hn; [by apply split_str_hit|].
  apply contains_char_cons in Hn as [N Hn]. specialize (IH Hn). unfold split_str in *.
  change ((String c pre ++ String a p ++ s)%string) with (String c (pre ++ String a p ++ s)).
  cbn [split_skip]. by rewrite starts_with_head, IH.
Qed.

Lemma contains_char_app c s t : contains_char c (s ++ t) = contains_char c s || contains_char c t.
Proof. induction s as [|d s IH]; simpl; [done|]. by rewrite IH, orb_assoc. Qed.
