(* ===== verification/S3Xml.v ===== *)
(** * S3Xml: reading and writing the XML of an object store (engine/src/s3/xml.rs)

    Text between two tags, and the five entities, replaced one after the other. *)

From Stdlib Require Import ZArith Lia Ascii String List Bool.
From stdpp Require Import base list strings.
From S2P Require Import Prelude Text Disk Substring.
Import ListNotations.

Open Scope string_scope.
Open Scope list_scope.

Definition open_tag (tag : string) : string := ("<" ++ tag ++ ">")%string.
Definition close_tag (tag : string) : string := ("</" ++ tag ++ ">")%string.

Definition quote_char : ascii := "034".
Definition apos_char : ascii := "039".

Definition unescape (s : string) : string :=
  replace "&amp;" "&" (replace "&apos;" (String apos_char "") (replace "&quot;" (String quote_char "")
    (replace "&gt;" ">" (replace "&lt;" "<" s)))).

Definition escape (s : string) : string :=
  replace_char apos_char "&apos;" (replace_char quote_char "&quot;" (replace_char ">" "&gt;"
    (replace_char "<" "&lt;" (replace_char "&" "&amp;" s)))).

Definition first (xml tag : string) : option string :=
  match cut (open_tag tag) xml with
  | Some (_, rest) =>
      match cut (close_tag tag) rest with
      | Some (text, _) => Some (unescape text)
      | None => None
      end
  | None => None
  end.

(** Every element; each one read leaves less to read. *)
Fixpoint all_from (fuel : nat) (rest tag : string) : list string :=
  match fuel with
  | O => []
  | S fuel =>
      match cut (open_tag tag) rest with
      | Some (_, from) =>
          match cut (close_tag tag) from with
          | Some (text, rest) => unescape text :: all_from fuel rest tag
          | None => []
          end
      | None => []
      end
  end.

Definition all (xml tag : string) : list string := all_from (S (String.length xml)) xml tag.

Record S3ErrorBody := mk_error_body { eb_code : string; eb_message : string }.

Definition parse_error (body : string) : option S3ErrorBody :=
  match first body "Code" with
  | Some code => Some (mk_error_body code (default "" (first body "Message")))
  | None => None
  end.

(** ** Escaping

    Text with the characters of [S] written as entities: [escape] reaches the five
    of them one by one, [unescape] undoes them one by one, and the ampersand is
    the first written and the last undone. *)

Definition entity (c : ascii) : string :=
  if Ascii.eqb c "&" then "&amp;" else if Ascii.eqb c "<" then "&lt;" else if Ascii.eqb c ">" then "&gt;"
  else if Ascii.eqb c quote_char then "&quot;" else if Ascii.eqb c apos_char then "&apos;" else String c "".

Definition special : list ascii := ["&"; "<"; ">"; quote_char; apos_char]%char.

Definition among (l : list ascii) (c : ascii) : bool := existsb (Ascii.eqb c) l.

Fixpoint enc (l : list ascii) (s : string) : string :=
  match s with
  | EmptyString => ""
  | String c r => ((if among l c then entity c else String c "") ++ enc l r)%string
  end.

Lemma enc_nil s : enc [] s = s.
Proof. induction s as [|c s IH]; simpl; [done|]. by rewrite IH. Qed.

Lemma replace_char_app c e s t : replace_char c e (s ++ t) = (replace_char c e s ++ replace_char c e t)%string.
Proof. induction s as [|d s IH]; simpl; [done|]. rewrite IH. case_match; [by rewrite append_assoc'|done]. Qed.

Lemma special_cases c : among special c = true ->
  c = "&"%char \/ c = "<"%char \/ c = ">"%char \/ c = quote_char \/ c = apos_char.
Proof. unfold among, special. simpl. rewrite !orb_true_iff, !Ascii.eqb_eq. naive_solver. Qed.

Lemma among_special l d : forallb (among special) l = true -> among l d = true -> among special d = true.
Proof.
  intros Hl (d' & Hd & ->%Ascii.eqb_eq)%existsb_exists. rewrite forallb_forall in Hl. by apply Hl.
Qed.

(** One step of [escape]: the next special character joins the written ones. *)
Lemma enc_step l c s :
  among special c = true -> forallb (among special) l = true -> among l c = false -> Ascii.eqb c "&" = false ->
  replace_char c (entity c) (enc l s) = enc (c :: l) s.
Proof.
  intros Hc Hl Hn Ha. induction s as [|d s IH]; [done|].
  cbn [enc]. rewrite replace_char_app, IH. f_equal. unfold among at 2. cbn [existsb].
  change (existsb (Ascii.eqb d) l) with (among l d).
  destruct (Ascii.eqb_spec d c) as [->|N].
  - rewrite Hn. simpl. by rewrite Ascii.eqb_refl, append_nil_r.
  - destruct (among l d) eqn:E; cbn [orb].
    + apply (among_special l d Hl), special_cases in E. apply special_cases in Hc.
      destruct Hc as [->|[->|[->|[->| ->]]]]; [done|..]; destruct E as [->|[->|[->|[->| ->]]]]; done.
    + simpl. by destruct (Ascii.eqb_spec d c).
Qed.

Lemma enc_first s : replace_char "&" "&amp;" s = enc ["&"%char] s.
Proof. induction s as [|c s IH]; simpl; [done|]. rewrite IH. destruct (Ascii.eqb_spec c "&") as [->|N]; done. Qed.

Definition escaped : list ascii := [apos_char; quote_char; ">"; "<"; "&"]%char.

Lemma escape_enc s : escape s = enc escaped s.
Proof.
  unfold escape. rewrite enc_first.
  change "&lt;" with (entity "<"). change "&gt;" with (entity ">").
  change "&quot;" with (entity quote_char). change "&apos;" with (entity apos_char).
  by rewrite !enc_step by reflexivity.
Qed.

(** One step of [unescape]: a character stops being written as an entity. *)
Lemma dec_step l c s :
  among special c = true -> forallb (among special) l = true -> among l c = false -> among (c :: l) "&" = true ->
  replace (entity c) (String c "") (enc (c :: l) s) = enc l s.
Proof.
  intros Hc Hl Hn Ha. apply special_cases in Hc. induction s as [|d s IH]; [by destruct (entity c)|].
  cbn [enc]. unfold among at 1. cbn [existsb]. change (existsb (Ascii.eqb d) l) with (among l d).
  destruct (Ascii.eqb_spec d c) as [->|N]; cbn [orb].
  - rewrite Hn. assert (exists e, entity c = String "&" e) as [e He].
    { destruct Hc as [->|[->|[->|[->| ->]]]]; by eexists. }
    by rewrite He in *; rewrite replace_hit, IH.
  - destruct (among l d) eqn:E.
    + apply (among_special l d Hl), special_cases in E.
      destruct Hc as [->|[->|[->|[->| ->]]]]; destruct E as [->|[->|[->|[->| ->]]]]; try done;
        rewrite <- IH; reflexivity.
    + cbn [append]. rewrite replace_miss, IH; [done|].
      assert (d <> "&"%char) as Hd.
      { intros ->. apply orb_true_iff in Ha as [Ha|Ha].
        - by apply Ascii.eqb_eq in Ha.
        - change (among l "&" = true) in Ha. by rewrite E in Ha. }
      by destruct Hc as [->|[->|[->|[->| ->]]]]; apply starts_with_head.
Qed.

Lemma enc_ext l l' s : (forall c, among l c = among l' c) -> enc l s = enc l' s.
Proof. intros E. induction s as [|c s IH]; simpl; [done|]. by rewrite E, IH. Qed.

Lemma unescape_escape s : unescape (escape s) = s.
Proof.
  rewrite escape_enc. rewrite (enc_ext _ ["<"; ">"; quote_char; apos_char; "&"]%char).
  2: { intros c. unfold escaped, among. cbn [existsb].
       repeat match goal with |- context [Ascii.eqb c ?d] => destruct (Ascii.eqb c d) end; done. }
  unfold unescape.
  change "&lt;" with (entity "<"). change "&gt;" with (entity ">").
  change "&quot;" with (entity quote_char). change "&apos;" with (entity apos_char).
  change "&amp;" with (entity "&").
  rewrite !dec_step by reflexivity. apply enc_nil.
Qed.

(** Escaped text holds no tag. *)
Lemma escape_no_tag s : contains_char "<" (escape s) = false.
Proof.
  rewrite escape_enc. induction s as [|c s IH]; [done|]. cbn [enc]. rewrite contains_char_app, IH, orb_false_r.
  destruct (among escaped c) eqn:E.
  - assert (among special c = true) as H%special_cases.
    { revert E. unfold among, escaped, special. cbn [existsb].
      repeat match goal with |- context [Ascii.eqb c ?d] => destruct (Ascii.eqb c d) end; done. }
    by destruct H as [->|[->|[->|[->| ->]]]].
  - cbn [append contains_char]. rewrite orb_false_r. apply not_true_is_false. intros <-%Ascii.eqb_eq. done.
Qed.

(** An element after text without a tag is the first, and is read back. *)
Lemma first_element pre tag s post :
  contains_char "<" pre = false ->
  first (pre ++ open_tag tag ++ escape s ++ close_tag tag ++ post) tag = Some s.
Proof.
  intros Hp. unfold first.
  change (open_tag tag) with (String "<" (tag ++ ">")). rewrite cut_app by done.
  change (close_tag tag) with (String "<" ("/" ++ tag ++ ">")).
  rewrite cut_app by apply escape_no_tag. by rewrite unescape_escape.
Qed.

(** Looking past what does not open the element. *)
Lemma first_step c s tag : starts_with (open_tag tag) (String c s) = false -> first (String c s) tag = first s tag.
Proof.
  unfold first, starts_with. cbn [cut]. destruct (strip_prefix _ _); [done|]. intros _.
  by destruct (cut (open_tag tag) s) as [[a b]|].
Qed.

Lemma first_text t s tag : contains_char "<" t = false -> first (t ++ s) tag = first s tag.
Proof.
  induction t as [|c t IH]; [done|]. intros [N Hn]%contains_char_cons. cbn [append].
  rewrite first_step by (by apply starts_with_head). by apply IH.
Qed.
