(* ===== verification/Paging.v ===== *)
(** * Paging: one page of a table, newest first (the ORDER BY, LIMIT and OFFSET of
      engine/src/store.rs)

    The database answers each query with some order of the rows that its ORDER BY
    allows.  When the order tells every two rows apart there is one such answer, and
    the pages of separate queries fit together. *)

From Stdlib Require Import ZArith Lia Ascii String List Bool Sorted.
From stdpp Require Import base list strings.
From S2P Require Import Prelude Text.
Import ListNotations.
Open Scope Z_scope.

Section Paging.
Context {A : Type} (at_text id_text : A -> string).

(** [ORDER BY at DESC, id DESC]: both columns are text. *)
Definition newest_first (a b : A) : bool := pair_leb (at_text b, id_text b) (at_text a, id_text a).

(** [LIMIT ?1 OFFSET ?2]: a negative limit is none. *)
Definition take_page (limit offset : Z) (l : list A) : list A :=
  let rest := skipn (Z.to_nat offset) l in
  if limit <? 0 then rest else firstn (Z.to_nat limit) rest.

Definition in_order (rows : list A) : list A := sort_by newest_first rows.

Definition answers (rows l : list A) : Prop :=
  Permutation l rows /\ Sorted (fun a b => newest_first a b = true) l.

Lemma newest_total a b : newest_first a b = true \/ newest_first b a = true.
Proof. apply pair_leb_total. Qed.

Lemma newest_trans a b c : newest_first a b = true -> newest_first b c = true -> newest_first a c = true.
Proof. unfold newest_first. intros Hab Hbc. by eapply pair_leb_trans. Qed.

Lemma in_order_answers rows : answers rows (in_order rows).
Proof. split; [apply sort_by_perm|apply sort_by_sorted, newest_total]. Qed.

Lemma id_text_inj rows a b : NoDup (map id_text rows) -> In a rows -> In b rows -> id_text a = id_text b -> a = b.
Proof.
  induction rows as [|x l IH]; intros Hn Ha Hb E; [done|]. simpl in Hn. apply NoDup_cons in Hn as [Hni Hn].
  assert (Hx : forall y, In y l -> id_text x <> id_text y).
  { intros y Hy E'. apply Hni. rewrite E'. apply list_elem_of_In, in_map_iff. by exists y. }
  destruct Ha as [->|Ha], Hb as [Hb|Hb]; [done|by destruct (Hx b Hb)| |by apply IH].
  subst b. by destruct (Hx a Ha).
Qed.

(** The id settles what the time leaves open: there is one answer. *)
Lemma one_answer rows l : NoDup (map id_text rows) -> answers rows l -> l = in_order rows.
Proof.
  intros Hn [P S]. destruct (in_order_answers rows) as [P' S'].
  apply (sorted_unique newest_first); [apply newest_trans| |done|done|by rewrite P, P'].
  intros a b Ha Hb Hab Hba. apply (id_text_inj rows); [done|by apply (Permutation_in _ P)|by apply (Permutation_in _ P)|].
  pose proof (pair_leb_antisym _ _ Hab Hba) as E. by injection E.
Qed.

Lemma pages_concat (k : nat) (l : list A) n :
  concat (map (fun i => firstn k (skipn (i * k) l)) (seq 0 n)) = firstn (n * k) l.
Proof.
  induction n as [|n IH]; [done|].
  rewrite seq_S, map_app, concat_app, IH. cbn [map concat]. rewrite app_nil_r. simpl Nat.add.
  rewrite <- (firstn_skipn (n * k) (firstn (S n * k) l)) at 1. rewrite firstn_firstn, Nat.min_l by lia.
  f_equal. rewrite firstn_skipn_comm. do 2 f_equal. lia.
Qed.

(** Separate queries, each answered as the database likes: the pages are the list in
    order, cut into pieces. *)
Lemma pages_fit rows (answer : nat -> list A) limit n :
  NoDup (map id_text rows) -> (forall i, answers rows (answer i)) -> 0 < limit ->
  concat (map (fun i => take_page limit (Z.of_nat i * limit) (answer i)) (seq 0 n))
  = firstn (n * Z.to_nat limit) (in_order rows).
Proof.
  intros Hn Ha Hl. rewrite <- pages_concat. f_equal. apply map_ext. intros i.
  rewrite (one_answer rows (answer i) Hn (Ha i)). unfold take_page.
  replace (limit <? 0) with false by lia. repeat f_equal. lia.
Qed.
End Paging.
