(* ===== verification/S3Sign.v ===== *)
(** * S3Sign: signing a request to an object store (engine/src/s3/sign.rs)

    Percent-encoding, canonical queries and requests, and the chain of keyed hashes
    of AWS Signature Version 4.  The hash and the keyed hash are parameters; bytes
    are the characters of a string. *)

From Stdlib Require Import ZArith Lia Ascii String List Bool Permutation Sorting.Sorted.
From stdpp Require Import base list sorting strings.
From S2P Require Import Prelude Text Time Disk Substring.
Import ListNotations.

Open Scope string_scope.
Open Scope list_scope.
Open Scope Z_scope.

(** ** Percent-encoding *)

Definition unreserved (c : ascii) : bool :=
  is_alnum c || existsb (Ascii.eqb c) ["-"; "."; "_"; "~"]%char.

(** [{:X}] of a number below sixteen. *)
Definition HEX_digit (n : Z) : ascii := chr (if n <? 10 then 48 + n else 55 + n).

Definition encode_byte (encode_slash : bool) (c : ascii) : string :=
  if unreserved c then String c ""
  else if Ascii.eqb c "/" && negb encode_slash then "/"
  else String "%" (String (HEX_digit (code c / 16)) (String (HEX_digit (code c mod 16)) "")).

Fixpoint uri_encode (input : string) (encode_slash : bool) : string :=
  match input with
  | EmptyString => ""
  | String c r => (encode_byte encode_slash c ++ uri_encode r encode_slash)%string
  end.

Definition encode_pair (p : string * string) : string * string :=
  (uri_encode (fst p) true, uri_encode (snd p) true).

Definition query_text (l : list (string * string)) : string :=
  join "&" (map (fun p => fst p ++ "=" ++ snd p)%string l).

Definition canonical_query (params : list (string * string)) : string :=
  query_text (sort_by pair_leb (map encode_pair params)).

(** ** Requests *)

Record Header := mk_header { h_name : string; h_value : string }.

Definition new_header (name value : string) : Header := mk_header (to_lower name) (trim value).

Record CanonicalRequest := mk_canonical {
  cr_method : string;
  cr_path : string;
  cr_query : string;
  cr_headers : list Header;
  payload_hash : string }.

Definition NL : string := String newline "".

Definition signed_headers (r : CanonicalRequest) : string :=
  join ";" (sort_by String.leb (map h_name (cr_headers r))).

Definition header_leb (a b : Header) : bool := String.leb (h_name a) (h_name b).

Definition header_line (h : Header) : string := (h_name h ++ ":" ++ h_value h ++ NL)%string.

Definition concat_str (l : list string) : string := foldr String.append "" l.

Definition to_canonical_string (r : CanonicalRequest) : string :=
  (cr_method r ++ NL ++ cr_path r ++ NL ++ cr_query r ++ NL
   ++ concat_str (map header_line (sort_by header_leb (cr_headers r))) ++ NL
   ++ signed_headers r ++ NL ++ payload_hash r)%string.

(** ** Signatures *)

Definition ALGORITHM : string := "AWS4-HMAC-SHA256".
Definition AWS4_REQUEST : string := "aws4_request".

Fixpoint hex (bytes : string) : string :=
  match bytes with
  | EmptyString => ""
  | String c r => String (hex_digit (code c / 16)) (String (hex_digit (code c mod 16)) (hex r))
  end.

Definition scope (date region service : string) : string :=
  (date ++ "/" ++ region ++ "/" ++ service ++ "/" ++ AWS4_REQUEST)%string.

Definition authorization_header (access_key_id scope signed signature : string) : string :=
  (ALGORITHM ++ " Credential=" ++ access_key_id ++ "/" ++ scope ++ ", SignedHeaders=" ++ signed
   ++ ", Signature=" ++ signature)%string.

(** [&s[..n]]: a panic when the text is shorter, or when the cut falls inside a character. *)
Fixpoint slice_to (n : nat) (s : string) : exec string :=
  match n, s with
  | O, String c _ => if is_cont c then Panic else Val ""
  | O, EmptyString => Val ""
  | S n, String c r => match slice_to n r with Val t => Val (String c t) | Panic => Panic end
  | S _, EmptyString => Panic
  end.

Class Crypto := {
  sha256_digest : string -> string;
  hmac : string -> string -> string }.

Section Signing.
Context `{Crypto}.

Definition sha256_hex (bytes : string) : string := hex (sha256_digest bytes).

Definition string_to_sign (timestamp scope canonical_request : string) : string :=
  (ALGORITHM ++ NL ++ timestamp ++ NL ++ scope ++ NL ++ sha256_hex canonical_request)%string.

Definition signing_key (secret date region service : string) : string :=
  hmac (hmac (hmac (hmac ("AWS4" ++ secret) date) region) service) AWS4_REQUEST.

Definition signature (key string_to_sign : string) : string := hex (hmac key string_to_sign).

Definition sign (request : CanonicalRequest) (access_key_id secret timestamp region service : string)
    : exec string :=
  match slice_to 8 timestamp with
  | Panic => Panic
  | Val date =>
      let scope := scope date region service in
      let sts := string_to_sign timestamp scope (to_canonical_string request) in
      let key := signing_key secret date region service in
      Val (authorization_header access_key_id scope (signed_headers request) (signature key sts))
  end.
End Signing.

(** [%Y%m%dT%H%M%SZ]. *)
Definition amz_date `{Calendar} (t : Z) : string :=
  let n := ndt_of_ns (t + days unix_epoch_day) in
  (fmt_year (year_of (date n)) ++ show_pad 2 (month_of (date n)) ++ show_pad 2 (day_of (date n))
   ++ "T" ++ show_pad 2 (hour n) ++ show_pad 2 (minute n) ++ show_pad 2 (second n) ++ "Z")%string.

(** ** Reading back

    What a server makes of an encoded text and of a query. *)

Definition HEX_value (c : ascii) : option Z :=
  if is_digit c then Some (code c - 48)
  else if in_range 65 70 (code c) then Some (code c - 55) else None.

Fixpoint percent_decode (s : string) : option string :=
  match s with
  | EmptyString => Some ""
  | String c r =>
      if Ascii.eqb c "%" then
        match r with
        | String a (String b r) =>
            match HEX_value a, HEX_value b, percent_decode r with
            | Some x, Some y, Some t => Some (String (chr (16 * x + y)) t)
            | _, _, _ => None
            end
        | _ => None
        end
      else option_map (String c) (percent_decode r)
  end.

Definition read_pair (s : string) : option (string * string) :=
  match split_once "=" s with
  | Some (a, b) =>
      match percent_decode a, percent_decode b with
      | Some x, Some y => Some (x, y)
      | _, _ => None
      end
  | None => None
  end.

Definition read_query (q : string) : option (list (string * string)) :=
  if String.eqb q "" then Some [] else mapM read_pair (split_on "&" q).

(** ** Lemmas *)

Lemma HEX_value_digit n : 0 <= n < 16 -> HEX_value (HEX_digit n) = Some n.
Proof.
  intros Hn. assert (Z.of_nat (Z.to_nat n) = n) as <- by lia.
  assert (Z.to_nat n < 16)%nat as H by lia. revert H. generalize (Z.to_nat n). intros k Hk.
  do 16 (destruct k as [|k]; [reflexivity|]). lia.
Qed.

Lemma chr_code c : chr (code c) = c.
Proof. unfold chr, code. by rewrite N2Z.id, ascii_N_embedding. Qed.

Lemma percent_decode_byte b c s :
  percent_decode (encode_byte b c ++ s) = option_map (String c) (percent_decode s).
Proof.
  unfold encode_byte. destruct (unreserved c) eqn:U.
  - cbn [append percent_decode]. destruct (Ascii.eqb_spec c "%") as [->|]; [by vm_compute in U|done].
  - destruct (Ascii.eqb_spec c "/") as [->|]; destruct b; cbn [andb negb]; try done;
      pose proof (code_range c); cbn [append percent_decode];
      rewrite ?HEX_value_digit by divlia; cbn [Ascii.eqb Bool.eqb];
      replace (16 * (code c / 16) + code c mod 16) with (code c) by divlia; rewrite chr_code;
      by destruct (percent_decode s).
Qed.

Lemma percent_decode_encode s b : percent_decode (uri_encode s b) = Some s.
Proof. induction s as [|c s IH]; simpl; [done|]. by rewrite percent_decode_byte, IH. Qed.

(** What an encoded text is made of. *)
Definition encoded_char (c : ascii) : bool := unreserved c || Ascii.eqb c "%".

Lemma encode_byte_chars c : all_chars encoded_char (encode_byte true c) = true.
Proof. destruct c as [b0 b1 b2 b3 b4 b5 b6 b7]. by destruct b0, b1, b2, b3, b4, b5, b6, b7. Qed.

Lemma uri_encode_chars s : all_chars encoded_char (uri_encode s true) = true.
Proof. induction s as [|c s IH]; simpl; [done|]. by rewrite all_chars_app, encode_byte_chars, IH. Qed.

Lemma all_chars_no_char f c s : all_chars f s = true -> f c = false -> contains_char c s = false.
Proof.
  intros H Hc. induction s as [|d s IH]; simpl in *; [done|].
  apply andb_true_iff in H as [Hd H]. rewrite IH by done.
  destruct (Ascii.eqb_spec c d) as [->|]; [congruence|done].
Qed.

Lemma uri_encode_no c s : encoded_char c = false -> contains_char c (uri_encode s true) = false.
Proof. apply all_chars_no_char, uri_encode_chars. Qed.

Lemma pair_text_no_amp p : contains_char "&" (fst (encode_pair p) ++ "=" ++ snd (encode_pair p)) = false.
Proof. unfold encode_pair. cbn [fst snd]. by rewrite !contains_char_app, !uri_encode_no. Qed.

Lemma read_pair_text p : read_pair (fst (encode_pair p) ++ "=" ++ snd (encode_pair p)) = Some p.
Proof.
  unfold read_pair. cbn [append]. rewrite split_once_app by (by apply uri_encode_no).
  cbn [fst snd encode_pair]. rewrite !percent_decode_encode. by destruct p.
Qed.

Lemma mapM_map_id {A B} (f : A -> option B) g l : (forall x, f (g x) = Some x) -> mapM f (map g l) = Some l.
Proof. intros H. induction l as [|x l IH]; simpl; [done|]. by rewrite H; simpl; rewrite IH. Qed.

Lemma read_query_text l : read_query (query_text (map encode_pair l)) = Some l.
Proof.
  unfold read_query, query_text. rewrite map_map. destruct l as [|p l]; [done|].
  destruct (String.eqb_spec (join "&" (map (fun p => fst (encode_pair p) ++ "=" ++ snd (encode_pair p))%string (p :: l))) "")
    as [E|_].
  - exfalso. apply (f_equal (contains_char "=")) in E. simpl in E.
    destruct (map _ l); rewrite ?contains_char_app in E; simpl in E; by rewrite orb_true_r in E.
  - rewrite split_on_join.
    + apply mapM_map_id, read_pair_text.
    + done.
    + apply List.Forall_forall. intros x (q & <- & _)%in_map_iff. apply pair_text_no_amp.
Qed.

(** ** The lines of a canonical request *)

Definition one_line (s : string) : Prop := contains_char newline s = false.

Definition plain_header (h : Header) : Prop :=
  one_line (h_name h) /\ one_line (h_value h) /\ contains_char ":" (h_name h) = false.

Record plain_request (r : CanonicalRequest) : Prop := {
  plain_method : one_line (cr_method r);
  plain_path : one_line (cr_path r);
  plain_query : one_line (cr_query r);
  plain_hash : one_line (payload_hash r);
  plain_headers : Forall plain_header (cr_headers r) }.

Definition header_text (h : Header) : string := (h_name h ++ ":" ++ h_value h)%string.

Definition canonical_lines (r : CanonicalRequest) : list string :=
  cr_method r :: cr_path r :: cr_query r
  :: map header_text (sort_by header_leb (cr_headers r)) ++ [""; signed_headers r; payload_hash r].

Lemma split_line s t : one_line s -> split_on newline (s ++ NL ++ t) = s :: split_on newline t.
Proof. intros Hs. apply split_on_app. done. Qed.

Lemma join_one_line sep l : one_line sep -> Forall one_line l -> one_line (join sep l).
Proof.
  intros Hs. induction 1 as [|x l Hx Hl IH]; [done|]. destruct l as [|y l]; [done|].
  unfold one_line in *. change (join sep (x :: y :: l)) with (x ++ sep ++ join sep (y :: l))%string.
  by rewrite !contains_char_app, Hx, Hs, IH.
Qed.

Lemma signed_one_line r : Forall plain_header (cr_headers r) -> one_line (signed_headers r).
Proof.
  intros H. apply join_one_line; [done|]. apply List.Forall_forall. intros x Hx.
  apply sort_by_in, in_map_iff in Hx as (h & <- & Hh).
  rewrite List.Forall_forall in H. by apply H.
Qed.

Lemma split_headers l t : Forall plain_header l ->
  split_on newline (concat_str (map header_line l) ++ t) = map header_text l ++ split_on newline t.
Proof.
  induction 1 as [|h l (Hn & Hv & _) Hl IH]; [done|]. cbn [map concat_str foldr].
  change (foldr String.append "" (map header_line l)) with (concat_str (map header_line l)).
  unfold header_line at 1. rewrite !append_assoc'.
  replace (h_name h ++ ":" ++ h_value h ++ NL ++ concat_str (map header_line l) ++ t)%string
    with (header_text h ++ NL ++ (concat_str (map header_line l) ++ t))%string
    by (unfold header_text; by rewrite !append_assoc').
  rewrite split_line, IH; [done|]. unfold one_line, header_text in *. by rewrite !contains_char_app, Hn, Hv.
Qed.

Lemma canonical_split r : plain_request r -> split_on newline (to_canonical_string r) = canonical_lines r.
Proof.
  intros [Hm Hp Hq Hh Hl]. unfold to_canonical_string, canonical_lines. rewrite !split_line by done.
  rewrite split_headers.
  - do 4 f_equal. change (NL ++ signed_headers r ++ NL ++ payload_hash r)%string
      with ("" ++ NL ++ (signed_headers r ++ NL ++ payload_hash r))%string.
    rewrite !split_line by (done || by apply signed_one_line). by rewrite split_on_no_sep.
  - apply List.Forall_forall. intros h Hi%sort_by_in. rewrite List.Forall_forall in Hl. by apply Hl.
Qed.

Lemma header_text_inj l l' : Forall plain_header l -> Forall plain_header l' ->
  map header_text l = map header_text l' -> l = l'.
Proof.
  intros Hl. revert l'. induction Hl as [|h l (_ & _ & Hc) Hl IH]; intros [|h' l'] Hl' E; try done.
  inversion Hl' as [|?? (_ & _ & Hc') Hl'']; subst. simpl in E. injection E as E El.
  f_equal; [|by apply IH]. apply (f_equal (split_once ":")) in E. unfold header_text in E. cbn [append] in E.
  rewrite !split_once_app in E by done. destruct h, h'. simpl in *. congruence.
Qed.

(** C31: two requests are signed alike only when they agree on everything the service
    acts on: method, path, query, body hash, and headers up to their order. *)
Theorem canonical_request_is_unambiguous r r' :
  plain_request r -> plain_request r' -> to_canonical_string r = to_canonical_string r' ->
  cr_method r = cr_method r' /\ cr_path r = cr_path r' /\ cr_query r = cr_query r'
  /\ payload_hash r = payload_hash r' /\ Permutation (cr_headers r) (cr_headers r').
Proof.
  intros Hr Hr' E. apply (f_equal (split_on newline)) in E. rewrite !canonical_split in E by done.
  unfold canonical_lines in E. injection E as Em Ep Eq E.
  apply app_inj_2 in E as [Eh [= _ Ed]]; [|done]. split_and!; try done.
  apply header_text_inj in Eh.
  - by rewrite <- (sort_by_perm header_leb (cr_headers r)), Eh, sort_by_perm.
  - apply List.Forall_forall. intros h Hi%sort_by_in. destruct Hr as [_ _ _ _ Hl]. rewrite List.Forall_forall in Hl. by apply Hl.
  - apply List.Forall_forall. intros h Hi%sort_by_in. destruct Hr' as [_ _ _ _ Hl]. rewrite List.Forall_forall in Hl. by apply Hl.
Qed.

(** A query is signed in one form whatever the order of its parameters, and a
    server reads back from it exactly the parameters given. *)
Theorem canonical_query_round_trip params :
  (forall params', Permutation params params' -> canonical_query params' = canonical_query params)
  /\ exists l, read_query (canonical_query params) = Some l /\ Permutation l params.
Proof.
  split.
  - intros params' P. unfold canonical_query. f_equal. symmetry. apply sort_by_unique.
    + apply pair_leb_total.
    + apply pair_leb_trans.
    + intros a b _ _. apply pair_leb_antisym.
    + by apply Permutation_map.
  - destruct (Permutation_map_inv encode_pair _ (sort_by_perm pair_leb (map encode_pair params))) as (l & E & P).
    exists l. split; [|by symmetry]. unfold canonical_query. rewrite E. apply read_query_text.
Qed.

Lemma NoDup_map_inj {A B} (f : A -> B) l a b :
  NoDup (map f l) -> In a l -> In b l -> f a = f b -> a = b.
Proof.
  induction l as [|x l IH]; [done|]. simpl. intros [Hx Hl]%NoDup_cons. rewrite list_elem_of_In in Hx.
  intros [->|Ha] [->|Hb] E; [done| | |by apply IH]; destruct Hx.
  - rewrite E. by apply in_map.
  - rewrite <- E. by apply in_map.
Qed.

(** The signature does not depend on the order the headers are listed in. *)
Lemma signature_ignores_header_order `{Crypto} r r' key secret timestamp region service :
  NoDup (map h_name (cr_headers r)) -> Permutation (cr_headers r) (cr_headers r') ->
  cr_method r = cr_method r' -> cr_path r = cr_path r' -> cr_query r = cr_query r' ->
  payload_hash r = payload_hash r' ->
  sign r key secret timestamp region service = sign r' key secret timestamp region service.
Proof.
  intros Hn P Em Ep Eq Eh. unfold sign.
  assert (signed_headers r = signed_headers r') as Es.
  { unfold signed_headers. f_equal. apply sort_by_unique; [apply String.leb_total|apply string_leb_trans| |by apply Permutation_map].
    intros a b _ _. apply String.leb_antisym. }
  assert (to_canonical_string r = to_canonical_string r') as ->; [|by rewrite Es].
  unfold to_canonical_string. rewrite Em, Ep, Eq, Eh, Es. do 6 f_equal.
  f_equal. f_equal. f_equal. apply sort_by_unique; [intros; apply String.leb_total|intros ???; apply string_leb_trans| |done].
  intros a b Ha Hb La Lb. eapply NoDup_map_inj; [exact Hn|done|done|]. by apply String.leb_antisym.
Qed.


Definition sample_request (headers : list Header) : CanonicalRequest :=
  mk_canonical "GET" "/" "list-type=2" headers "e3b0".

Lemma sample_plain a b : plain_header a -> plain_header b -> plain_request (sample_request [a; b]).
Proof. intros Ha Hb. split; try done. constructor; [done|]. by constructor. Qed.

Lemma canonical_request_is_unambiguous_witness :
  cr_method (sample_request [mk_header "host" "s3"; mk_header "x-amz-date" "d"]) = "GET"
  /\ Permutation [mk_header "host" "s3"; mk_header "x-amz-date" "d"] [mk_header "x-amz-date" "d"; mk_header "host" "s3"].
Proof.
  split; [done|].
  exact (proj2 (proj2 (proj2 (proj2 (canonical_request_is_unambiguous
    (sample_request [mk_header "host" "s3"; mk_header "x-amz-date" "d"])
    (sample_request [mk_header "x-amz-date" "d"; mk_header "host" "s3"])
    (sample_plain (mk_header "host" "s3") (mk_header "x-amz-date" "d") (conj eq_refl (conj eq_refl eq_refl)) (conj eq_refl (conj eq_refl eq_refl)))
    (sample_plain (mk_header "x-amz-date" "d") (mk_header "host" "s3") (conj eq_refl (conj eq_refl eq_refl)) (conj eq_refl (conj eq_refl eq_refl)))
    eq_refl))))).
Defined.
