(* ===== verification/S3Client.v ===== *)
(** * S3Client: talking to an object store (engine/src/s3/client.rs)

    Addresses, one signed exchange, and the operations built from it: listing page
    by page, reading a size back, deleting, and uploading in one request or in parts.
    What the network answers is a function of the request and of a world it may
    change; every request that was sent and every report of progress is kept. *)

From Stdlib Require Import ZArith Lia Ascii String List Bool.
From stdpp Require Import base list strings.
From S2P Require Import Prelude Text Time Disk Substring S3Xml S3Sign.
Import ListNotations.

Open Scope string_scope.
Open Scope list_scope.
Open Scope Z_scope.

Definition MULTIPART_THRESHOLD : Z := 64 * 1024 * 1024.
Definition PART_SIZE : Z := 16 * 1024 * 1024.
Definition LIST_PAGE_SIZE : Z := 1000.
Definition SERVICE : string := "s3".

Record S3Config := mk_s3_config {
  endpoint : string;
  region : string;
  bucket : string;
  prefix : string;
  path_style : bool;
  access_key_id : string;
  secret_access_key : string }.

Inductive S3Error :=
| Api (operation code message : string)
| Unexpected (operation : string) (status : Z) (body : string)
| Transport (endpoint source : string)
| S3Invalid (why : string)
| S3Io (path source : string)
| S3Cancelled.

Definition s3_error_text (e : S3Error) : string :=
  match e with
  | Api op code message => op ++ " failed: " ++ code ++ ": " ++ message
  | Unexpected op status body =>
      op ++ " returned " ++ show status ++ ", and the body was not an S3 error: " ++ body
  | Transport endpoint source => "could not reach " ++ endpoint ++ ": " ++ source
  | S3Invalid why => why
  | S3Io path source => "io error reading " ++ path ++ ": " ++ source
  | S3Cancelled => "upload was cancelled"
  end%string.

Record ObjectInfo := mk_object {
  ob_key : string;
  ob_size : Z;
  last_modified : option Z }.

(** A request before it is signed. *)
Record Request := mk_request {
  rq_operation : string;
  rq_method : string;
  rq_key : string;
  rq_query : string;
  rq_headers : list Header;
  rq_body : string;
  rq_hash : option string }.

Definition new_request (operation method key : string) : Request :=
  mk_request operation method key "" [] "" None.
Definition with_query (r : Request) (q : string) : Request :=
  mk_request (rq_operation r) (rq_method r) (rq_key r) q (rq_headers r) (rq_body r) (rq_hash r).
Definition with_body (r : Request) (body : string) : Request :=
  mk_request (rq_operation r) (rq_method r) (rq_key r) (rq_query r)
    (rq_headers r ++ [new_header "content-length" (show (Z.of_nat (String.length body)))]) body (rq_hash r).
Definition with_hash (r : Request) (h : string) : Request :=
  mk_request (rq_operation r) (rq_method r) (rq_key r) (rq_query r) (rq_headers r) (rq_body r) (Some h).

(** What goes over the wire. *)
Record HttpRequest := mk_http {
  http_method : string;
  http_url : string;
  http_headers : list Header;
  http_body : string }.

Record HttpResponse := mk_response {
  rs_status : Z;
  rs_headers : list Header;
  rs_text : string }.

(** *** Addresses *)

Definition trim_slashes (s : string) : string := trim_start_matches "/" (trim_end_matches "/" s).

Definition client_key_for (c : S3Config) (filename : string) : string :=
  let p := trim_slashes (prefix c) in
  if String.eqb p "" then filename else (p ++ "/" ++ filename)%string.

(** [split_once("://")]. *)
Definition scheme_split (base : string) : option (string * string) := cut "://" base.

Definition address (c : S3Config) (key : string) : string * string :=
  let base := trim_end_matches "/" (endpoint c) in
  let encoded := uri_encode key false in
  let rest := match scheme_split base with Some (_, r) => r | None => base end in
  if path_style c then (rest, ("/" ++ bucket c ++ "/" ++ encoded)%string)
  else ((bucket c ++ "." ++ rest)%string, ("/" ++ encoded)%string).

Definition url (c : S3Config) (path query : string) : string :=
  let base := trim_end_matches "/" (endpoint c) in
  let '(scheme, rest) := default ("https", base) (scheme_split base) in
  let host := if path_style c then rest else (bucket c ++ "." ++ rest)%string in
  if String.eqb query "" then (scheme ++ "://" ++ host ++ path)%string
  else (scheme ++ "://" ++ host ++ path ++ "?" ++ query)%string.

Definition new_client (str_debug : string -> string) (c : S3Config) : result S3Config S3Error :=
  let? _ := guard (String.eqb (trim (bucket c)) "") (S3Invalid "no bucket configured") in
  let? _ := guard (negb (starts_with "http://" (endpoint c)) && negb (starts_with "https://" (endpoint c)))
              (S3Invalid ("endpoint " ++ str_debug (endpoint c)
                 ++ " needs a scheme, e.g. https://s3.eu-west-1.amazonaws.com")) in
  Ok c.

(** *** One page of a listing *)

Definition parse_u64 (s : string) : option Z := parse_uint (2 ^ 64 - 1) s.

Definition parse_entry (rfc3339 : string -> option Z) (chunk : string) : option ObjectInfo :=
  let entry := default chunk (head (split_str "</Contents>" chunk)) in
  match first entry "Key" with
  | Some key =>
      Some (mk_object key
        (match first entry "Size" with Some s => default 0 (parse_u64 s) | None => 0 end)
        (match first entry "LastModified" with Some s => rfc3339 s | None => None end))
  | None => None
  end.

Definition parse_listing (rfc3339 : string -> option Z) (body : string) : list ObjectInfo :=
  omap (parse_entry rfc3339) (tail (split_str "<Contents>" body)).

(** [HeaderValue::to_str]. *)
Definition visible (s : string) : bool := all_chars (fun c => in_range 32 126 (code c) || (code c =? 9)) s.

Definition header_str (headers : list Header) (name : string) : option string :=
  match List.find (fun h => String.eqb (h_name h) name) headers with
  | Some h => if visible (h_value h) then Some (h_value h) else None
  | None => None
  end.

(** ** Filling a part

    The pieces are what reads of the file give when nothing bounds them; a read for
    less gets the beginning of a piece, and an empty piece is the end of the file. *)
Fixpoint fill (room : Z) (pieces : list (result string string)) : result (string * list (result string string)) string :=
  match pieces with
  | [] => Ok ("", [])
  | Err e :: _ => if room <=? 0 then Ok ("", pieces) else Err e
  | Ok p :: rest =>
      if room <=? 0 then Ok ("", pieces)
      else if String.eqb p "" then Ok ("", pieces)
      else
        let n := Z.of_nat (String.length p) in
        if n <=? room then
          match fill (room - n) rest with
          | Ok (filled, rest) => Ok ((p ++ filled)%string, rest)
          | Err e => Err e
          end
        else Ok (String.substring 0 (Z.to_nat room) p,
                 Ok (String.substring (Z.to_nat room) (Z.to_nat (n - room)) p) :: rest)
  end.

Section Client.
Context `{Crypto} `{Calendar} {W : Type}.
Variable http : HttpRequest -> W -> result HttpResponse string * W.
Variable now : W -> Z.
Variable cancelled : W -> bool.
Variable rfc3339 : string -> option Z.
Variable str_debug : string -> string.
Variable metadata_len : string -> result Z string.
Variable read_file : string -> result string string.
Variable open_file : string -> result (list (result string string)) string.

Record Net := mk_net {
  world : W;
  requests : list HttpRequest;
  reported : list (Z * Z) }.

Definition S3 (A : Type) : Type := Net -> result A S3Error * Net.

Definition sret {A} (a : A) : S3 A := fun s => (Ok a, s).
Definition sfail {A} (e : S3Error) : S3 A := fun s => (Err e, s).
Definition slift {A} (r : result A S3Error) : S3 A := fun s => (r, s).
Definition sbind {A B} (m : S3 A) (k : A -> S3 B) : S3 B := fun s =>
  match m s with
  | (Ok a, s) => k a s
  | (Err e, s) => (Err e, s)
  end.
Definition progress (sent total : Z) : S3 unit := fun s =>
  (Ok tt, mk_net (world s) (requests s) (reported s ++ [(sent, total)])).

Notation "'let!' x ':=' e 'in' k" := (sbind e (fun x => k))
  (at level 10, x pattern, e at level 100, k at level 200).

(** [amz_date] is never too short to be cut. *)
Definition authorize (c : S3Config) (r : CanonicalRequest) (timestamp : string) : string :=
  match sign r (access_key_id c) (secret_access_key c) timestamp (region c) SERVICE with
  | Val a => a
  | Panic => ""
  end.

Definition signed_request (c : S3Config) (r : Request) (t : Z) : HttpRequest :=
  let '(host, path) := address c (rq_key r) in
  let timestamp := amz_date t in
  let hash := default (sha256_hex (rq_body r)) (rq_hash r) in
  let headers := [new_header "host" host; new_header "x-amz-date" timestamp;
                  new_header "x-amz-content-sha256" hash] ++ rq_headers r in
  let canonical := mk_canonical (rq_method r) path (rq_query r) headers hash in
  mk_http (rq_method r) (url c path (rq_query r))
    (headers ++ [mk_header "authorization" (authorize c canonical timestamp)]) (rq_body r).

Definition is_success (status : Z) : bool := in_range 200 299 status.

Definition send (c : S3Config) (r : Request) : S3 HttpResponse := fun s =>
  let q := signed_request c r (now (world s)) in
  let '(answer, w) := http q (world s) in
  let s := mk_net w (requests s ++ [q]) (reported s) in
  match answer with
  | Err source => (Err (Transport (endpoint c) source), s)
  | Ok response =>
      if is_success (rs_status response) then (Ok response, s)
      else match parse_error (rs_text response) with
           | Some e => (Err (Api (rq_operation r) (eb_code e) (eb_message e)), s)
           | None => (Err (Unexpected (rq_operation r) (rs_status response) (take_chars 300 (rs_text response))), s)
           end
  end.

Definition check_access (c : S3Config) : S3 unit :=
  let! _ := send c (with_query (new_request "checking bucket access" "GET" "")
                      (canonical_query [("list-type", "2"); ("max-keys", "1")])) in
  sret tt.

Definition create_bucket (c : S3Config) : S3 unit := fun s =>
  let body := if String.eqb (region c) "us-east-1" then ""
              else ("<CreateBucketConfiguration><LocationConstraint>" ++ escape (region c)
                    ++ "</LocationConstraint></CreateBucketConfiguration>")%string in
  let r := new_request "creating the bucket" "PUT" "" in
  match send c (if String.eqb body "" then r else with_body r body) s with
  | (Ok _, s) => (Ok tt, s)
  | (Err (Api op code message), s) =>
      if String.eqb code "BucketAlreadyOwnedByYou" || String.eqb code "BucketAlreadyExists" then (Ok tt, s)
      else (Err (Api op code message), s)
  | (Err e, s) => (Err e, s)
  end.

Definition head_object (c : S3Config) (key : string) : S3 (option Z) := fun s =>
  match send c (new_request "reading object metadata" "HEAD" key) s with
  | (Ok response, s) =>
      (Ok (match header_str (rs_headers response) "content-length" with
           | Some v => parse_u64 v
           | None => None
           end), s)
  | (Err (Unexpected op status body), s) =>
      if status =? 404 then (Ok None, s) else (Err (Unexpected op status body), s)
  | (Err (Api op code message), s) =>
      if String.eqb code "NoSuchKey" || String.eqb code "404" then (Ok None, s)
      else (Err (Api op code message), s)
  | (Err e, s) => (Err e, s)
  end.

(** *** Listing *)

Definition page_query (prefix : string) (page_size : Z) (token : option string) : string :=
  canonical_query ([("list-type", "2"); ("max-keys", show page_size); ("prefix", prefix)]
                   ++ match token with Some t => [("continuation-token", t)] | None => [] end).

Definition clamp (lo hi x : Z) : Z := if x <? lo then lo else if hi <? x then hi else x.

(** Pages until one is the last.  The loop ends when the server says so: the fuel
    bounds how many pages are followed here, and [None] is running out of it. *)
Fixpoint list_loop (fuel : nat) (c : S3Config) (prefix : string) (page_size : Z)
    (token : option string) (out : list ObjectInfo) (s : Net) : option (result (list ObjectInfo) S3Error * Net) :=
  match fuel with
  | O => None
  | S fuel =>
      match send c (with_query (new_request "listing objects" "GET" "") (page_query prefix page_size token)) s with
      | (Err e, s) => Some (Err e, s)
      | (Ok response, s) =>
          let body := rs_text response in
          let out := out ++ parse_listing rfc3339 body in
          let truncated := match first body "IsTruncated" with Some t => String.eqb t "true" | None => false end in
          match truncated, first body "NextContinuationToken" with
          | true, Some t => list_loop fuel c prefix page_size (Some t) out s
          | true, None =>
              Some (Err (S3Invalid ("the listing of " ++ str_debug prefix ++ " is incomplete: the server reported more "
                                    ++ "results but sent no continuation token")), s)
          | false, _ => Some (Ok out, s)
          end
      end
  end.

Definition list_paged (fuel : nat) (c : S3Config) (prefix : string) (page_size : Z) (s : Net) :=
  list_loop fuel c prefix (clamp 1 LIST_PAGE_SIZE page_size) None [] s.

Definition list_objects (fuel : nat) (c : S3Config) (prefix : string) (s : Net) :=
  list_paged fuel c prefix LIST_PAGE_SIZE s.

Definition delete_object (c : S3Config) (key : string) : S3 unit :=
  let! _ := send c (new_request "deleting an object" "DELETE" key) in
  sret tt.

(** *** Uploading *)

Definition put_small_file (c : S3Config) (path key : string) (total : Z) : S3 unit :=
  let! body := slift (map_err (read_file path) (S3Io path)) in
  let! _ := send c (with_body (new_request "uploading" "PUT" key) body) in
  progress total total.

Definition part_request (key upload_id : string) (part_number : Z) (buffer : string) : Request :=
  with_hash
    (with_body
       (with_query (new_request "uploading a part" "PUT" key)
          (canonical_query [("partNumber", show part_number); ("uploadId", upload_id)]))
       buffer)
    (sha256_hex buffer).

Definition etag_of (part_number : Z) (response : HttpResponse) : result string S3Error :=
  ok_or (header_str (rs_headers response) "etag")
    (S3Invalid ("part " ++ show part_number ++ " was stored without an ETag")).

(** One turn of the loop sends one part; [fuel] bounds the turns. *)
Fixpoint parts_loop (fuel : nat) (c : S3Config) (path key upload_id : string) (total : Z)
    (pieces : list (result string string)) (etags : list string) (sent part_number : Z) : S3 (list string) :=
  match fuel with
  | O => sfail (S3Invalid "")
  | S fuel => fun s =>
      if cancelled (world s) then (Err S3Cancelled, s)
      else
        (let! (buffer, pieces) := slift (map_err (fill PART_SIZE pieces) (S3Io path)) in
         if String.eqb buffer "" then sret etags
         else
           let! response := send c (part_request key upload_id part_number buffer) in
           let! etag := slift (etag_of part_number response) in
           let sent := wrap 64 (sent + Z.of_nat (String.length buffer)) in
           let! _ := progress sent total in
           parts_loop fuel c path key upload_id total pieces (etags ++ [etag]) sent (wrap 32 (part_number + 1))) s
  end.

Definition piece_len (p : result string string) : nat := match p with Ok t => String.length t | Err _ => O end.
Definition bytes_left (pieces : list (result string string)) : nat := list_sum (map piece_len pieces).

Definition upload_parts (c : S3Config) (path key upload_id : string) (total : Z) : S3 (list string) :=
  let! pieces := slift (map_err (open_file path) (S3Io path)) in
  parts_loop (S (bytes_left pieces)) c path key upload_id total pieces [] 0 1.

Fixpoint part_list (i : Z) (etags : list string) : string :=
  match etags with
  | [] => ""
  | etag :: rest =>
      ("<Part><PartNumber>" ++ show i ++ "</PartNumber><ETag>" ++ escape etag ++ "</ETag></Part>"
       ++ part_list (i + 1) rest)%string
  end.

Definition completion_body (etags : list string) : string :=
  ("<CompleteMultipartUpload>" ++ part_list 1 etags ++ "</CompleteMultipartUpload>")%string.

Definition complete_multipart (c : S3Config) (key upload_id : string) (etags : list string) : S3 unit :=
  let! response := send c (with_body
    (with_query (new_request "completing a multipart upload" "POST" key) (canonical_query [("uploadId", upload_id)]))
    (completion_body etags)) in
  match parse_error (rs_text response) with
  | Some e => sfail (Api "completing a multipart upload" (eb_code e) (eb_message e))
  | None => sret tt
  end.

Definition abort_multipart (c : S3Config) (key upload_id : string) : S3 unit :=
  let! _ := send c (with_query (new_request "aborting a multipart upload" "DELETE" key)
                      (canonical_query [("uploadId", upload_id)])) in
  sret tt.

Definition start_multipart (c : S3Config) (key : string) : S3 string :=
  let! response := send c (with_query (new_request "starting a multipart upload" "POST" key)
                             (canonical_query [("uploads", "")])) in
  slift (ok_or (first (rs_text response) "UploadId") (S3Invalid "the server did not return an upload id")).

(** Only a failure while sending the parts is followed by an abort. *)
Definition put_multipart (c : S3Config) (path key : string) (total : Z) : S3 unit :=
  let! upload_id := start_multipart c key in
  fun s =>
    match upload_parts c path key upload_id total s with
    | (Ok etags, s) => complete_multipart c key upload_id etags s
    | (Err e, s) => (Err e, snd (abort_multipart c key upload_id s))
    end.

(** What reading the object back proves. *)
Definition check_stored (key : string) (total : Z) (stored : option Z) : result Z S3Error :=
  match stored with
  | Some n =>
      if n =? total then Ok total
      else Err (S3Invalid ("uploaded " ++ show total ++ " bytes to " ++ key ++ " but the object reads back as " ++ show n))
  | None => Err (S3Invalid ("uploaded " ++ key ++ " but it is not there when read back"))
  end.

Definition upload_file (c : S3Config) (path key : string) : S3 Z :=
  let! total := slift (map_err (metadata_len path) (S3Io path)) in
  let! _ := (if total <? MULTIPART_THRESHOLD then put_small_file c path key total
             else put_multipart c path key total) in
  let! stored := head_object c key in
  slift (check_stored key total stored).
End Client.

(** ** Lemmas: the parts of a file *)

(** What the file holds: its pieces up to the end, or up to an error. *)
Fixpoint text_of (pieces : list (result string string)) : string :=
  match pieces with
  | Ok p :: rest => if String.eqb p "" then "" else (p ++ text_of rest)%string
  | _ => ""
  end.

Definition str_len (s : string) : Z := Z.of_nat (String.length s).

Lemma str_len_app s t : str_len (s ++ t) = str_len s + str_len t.
Proof. unfold str_len. rewrite length_append. lia. Qed.

Lemma str_len_nonneg s : 0 <= str_len s.
Proof. unfold str_len. lia. Qed.

Lemma str_len_zero s : str_len s = 0 -> s = "".
Proof. by destruct s. Qed.

Lemma substring_split n s : (n <= String.length s)%nat ->
  (String.substring 0 n s ++ String.substring n (String.length s - n) s)%string = s
  /\ String.length (String.substring 0 n s) = n.
Proof.
  revert n. induction s as [|c s IH]; intros n Hn; simpl in Hn.
  - by replace n with O by lia.
  - destruct n as [|n]; cbn [String.substring append].
    + split; [|done]. destruct (IH O ltac:(lia)) as [E _]. simpl in *. f_equal.
      rewrite Nat.sub_0_r in E. by destruct s.
    + destruct (IH n ltac:(lia)) as [E El]. simpl. by rewrite E, El.
Qed.

Lemma bytes_left_Ok p l : Z.of_nat (bytes_left (Ok p :: l)) = str_len p + Z.of_nat (bytes_left l).
Proof. unfold str_len, bytes_left. simpl. lia. Qed.

Lemma fill_spec room pieces b rest : fill room pieces = Ok (b, rest) ->
  text_of pieces = (b ++ text_of rest)%string /\ str_len b <= Z.max 0 room
  /\ (room <= str_len b \/ text_of rest = "") /\ (str_len b + Z.of_nat (bytes_left rest) = Z.of_nat (bytes_left pieces)).
Proof.
  assert (str_len "" = 0) as H0 by done.
  revert room b rest. induction pieces as [|[p|e] pieces IH]; intros room b rest; simpl.
  - intros [= <- <-]. split_and!; [done|lia|by right|lia].
  - destruct (Z.leb_spec room 0); [intros [= <- <-]; split_and!; [done|lia|left; lia|lia]|].
    destruct (String.eqb_spec p "") as [->|Np]; [intros [= <- <-]; split_and!; [done|lia|by right|lia]|].
    fold (str_len p). destruct (Z.leb_spec (str_len p) room).
    + destruct (fill (room - str_len p) pieces) as [[f r]|] eqn:E; [|done]. intros [= <- <-].
      apply IH in E as (Et & Hl & Hs & Hb). rewrite str_len_app. split_and!.
      * by rewrite Et, append_assoc'.
      * pose proof (str_len_nonneg p). lia.
      * destruct Hs; [left; lia|by right].
      * rewrite bytes_left_Ok. lia.
    + intros [= <- <-]. destruct (substring_split (Z.to_nat room) p) as [E El]; [unfold str_len in *; lia|].
      fold (str_len p). assert (str_len p - room = Z.of_nat (String.length p - Z.to_nat room)) as Hn by (unfold str_len in *; lia).
      rewrite Hn, !Nat2Z.id. revert E El. generalize (String.substring 0 (Z.to_nat room) p) as a.
      generalize (String.substring (Z.to_nat room) (String.length p - Z.to_nat room) p) as q. intros q a E El.
      assert (str_len a = room) as Ha by (unfold str_len; lia).
      assert (str_len p = str_len a + str_len q) as Hpq by (by rewrite <- str_len_app, E).
      split_and!.
      * cbn [text_of]. destruct (String.eqb_spec q "") as [Eq|_]; [exfalso; rewrite Eq in Hpq; cbn in Hpq; lia|].
        by rewrite <- append_assoc', E.
      * lia.
      * left. lia.
      * rewrite !bytes_left_Ok. lia.
  - destruct (Z.leb_spec room 0); [|done]. intros [= <- <-]. split_and!; [done|lia|left; lia|lia].
Qed.

(** How a text is cut: parts of exactly [PART_SIZE], the last one possibly shorter. *)
Inductive parts_of : string -> list string -> Prop :=
| parts_none : parts_of "" []
| parts_last b : b <> "" -> str_len b <= PART_SIZE -> parts_of b [b]
| parts_more b t l : str_len b = PART_SIZE -> parts_of t l -> parts_of (b ++ t) (b :: l).

Lemma parts_concat t l : parts_of t l -> concat_str l = t.
Proof.
  induction 1 as [|b _ _|b t l _ _ IH]; [done|apply append_nil_r|].
  change (concat_str (b :: l)) with (b ++ concat_str l)%string. by rewrite IH.
Qed.

Lemma parts_count t l : parts_of t l ->
  Z.of_nat (length l) = (str_len t + PART_SIZE - 1) / PART_SIZE.
Proof.
  induction 1 as [|b Hb Hl|b t l Hl _ IH].
  - done.
  - simpl. pose proof (str_len_nonneg b). assert (str_len b <> 0) by (by intros ?%str_len_zero).
    unfold PART_SIZE in *. divlia.
  - rewrite str_len_app, Hl. simpl length. rewrite Nat2Z.inj_succ, IH. unfold PART_SIZE in *. divlia.
Qed.

Lemma parts_nothing l : parts_of "" l -> l = [].
Proof.
  inversion 1 as [|b Hb|b t l' Hb Hl E]; [done|done|]. apply (f_equal str_len) in E.
  rewrite str_len_app, Hb in E. pose proof (str_len_nonneg t). unfold PART_SIZE in E. change (str_len "") with 0 in E. lia.
Qed.

(** One fill and the parts of what it leaves are the parts of the whole. *)
Lemma parts_fill pieces b rest l :
  fill PART_SIZE pieces = Ok (b, rest) -> b <> "" -> parts_of (text_of rest) l ->
  parts_of (text_of pieces) (b :: l) /\ (bytes_left rest < bytes_left pieces)%nat.
Proof.
  intros (E & Hl & Hs & Hb)%fill_spec Hne Hp. assert (0 < str_len b) as Hpos.
  { pose proof (str_len_nonneg b). assert (str_len b <> 0) by (by intros ?%str_len_zero). lia. }
  split; [|lia]. rewrite E. unfold PART_SIZE in Hl. destruct Hs as [Hs|Hs].
  - apply parts_more; [|done]. unfold PART_SIZE in *. lia.
  - rewrite Hs in *. apply parts_nothing in Hp as ->. rewrite append_nil_r. apply parts_last; [done|]. unfold PART_SIZE. lia.
Qed.

Section Uploads.
Context `{Crypto} `{Calendar} {W : Type}.
Variable http : HttpRequest -> W -> result HttpResponse string * W.
Variable now : W -> Z.
Variable c : S3Config.

Abbreviation send := (send http now).

Lemma signed_body r t : http_body (signed_request c r t) = rq_body r.
Proof. unfold signed_request. by destruct (address c (rq_key r)). Qed.

Lemma signed_method r t : http_method (signed_request c r t) = rq_method r.
Proof. unfold signed_request. by destruct (address c (rq_key r)). Qed.

(** A request that was sent is kept, whatever became of it. *)
Lemma send_requests r s x s' : send c r s = (x, s') ->
  requests s' = requests s ++ [signed_request c r (now (world s))].
Proof.
  unfold S3Client.send. destruct (http _ _) as [answer w].
  intros E. repeat case_match; by simplify_eq.
Qed.

Lemma send_sent r s x s' : send c r s = (x, s') ->
  exists q, requests s' = requests s ++ [q] /\ http_method q = rq_method r /\ http_body q = rq_body r.
Proof.
  intros E%send_requests. eexists. split_and!; [exact E|apply signed_method|apply signed_body].
Qed.

Lemma send_success r s rs w :
  http (signed_request c r (now (world s))) (world s) = (Ok rs, w) -> is_success (rs_status rs) = true ->
  send c r s = (Ok rs, mk_net w (requests s ++ [signed_request c r (now (world s))]) (reported s)).
Proof. intros E Hs. unfold S3Client.send. by rewrite E, Hs. Qed.

Lemma send_error r s e s' : send c r s = (Err e, s') -> forall why, e <> S3Invalid why.
Proof.
  unfold S3Client.send. destruct (http _ _) as [answer w].
  intros E. repeat case_match; by simplify_eq.
Qed.

Lemma sbind_Ok {A B} (m : S3 (W := W) A) (k : A -> S3 B) s b s' :
  sbind m k s = (Ok b, s') -> exists a s1, m s = (Ok a, s1) /\ k a s1 = (Ok b, s').
Proof. unfold sbind. destruct (m s) as [[a|e] s1]; [|done]. eauto. Qed.

End Uploads.

(** ** A small store *)

#[local] Instance toy_crypto : Crypto := { sha256_digest := fun s => s; hmac := fun k s => s }.

Definition toy_config : S3Config :=
  mk_s3_config "https://s3.example.com/" "eu-west-1" "backups" "" true "AK" "secret".

(** Answers an upload in parts; joining the parts gives [joined]. *)
Definition part_store (joined : HttpResponse) (q : HttpRequest) (w : unit) : result HttpResponse string * unit :=
  (Ok (if String.eqb (http_method q) "POST" then
         if String.eqb (http_body q) "" then mk_response 200 [] "<UploadId>u1</UploadId>" else joined
       else if String.eqb (http_method q) "PUT" then mk_response 200 [new_header "etag" "e1"] ""
       else mk_response 200 [new_header "content-length" (show MULTIPART_THRESHOLD)] ""), w).

Definition uploading (joined : HttpResponse) : result Z S3Error * Net :=
  upload_file (part_store joined) (fun _ => 0) (fun _ => false) (fun _ => Ok MULTIPART_THRESHOLD)
    (fun _ => Ok "") (fun _ => Ok [Ok "ab"; Ok "c"]) toy_config "/b/a.sql.gz" "a.sql.gz" (mk_net tt [] []).

(** An upload whose parts were all stored and that the store then would not join
    fails with nothing said to the store about the parts it keeps. *)
Theorem failed_completion_is_not_aborted :
  let '(r, s') := uploading (mk_response 500 [] "<Error><Code>InternalError</Code><Message>m</Message></Error>") in
  r = Err (Api "completing a multipart upload" "InternalError" "m")
  /\ map http_method (requests s') = ["POST"; "PUT"; "POST"].
Proof. vm_compute. done. Qed.
