(* ===== verification/S3Protocol.v ===== *)
(** * S3Protocol: the client against a store that answers as the protocol says
      (engine/src/s3/client.rs)

    How a server reads a request and what it sends for a page of objects; that the
    client reads exactly those objects back from it, and that following the pages gives
    every object.  Then what went over the wire when an upload in parts succeeds: which
    part each request carried and under which number, which ETag the answer gave it, and
    what was asked to be joined. *)

From Stdlib Require Import ZArith Lia Ascii String List Bool Permutation.
From stdpp Require Import base list strings.
From S2P Require Import Prelude Text Time Disk Substring S3Xml S3Sign S3Client.
Import ListNotations.

Open Scope string_scope.
Open Scope list_scope.
Open Scope Z_scope.

(** ** A request as a server reads it

    From the method, the address and the query alone, by the decoders of a server. *)

(** Where the bucket's objects are: below a path of the endpoint, or on a host of their
    own. *)
Definition bucket_root (c : S3Config) : string :=
  let base := trim_end_matches "/" (endpoint c) in
  let '(scheme, host) := default ("https", base) (scheme_split base) in
  if path_style c then (scheme ++ "://" ++ host ++ "/" ++ bucket c ++ "/")%string
  else (scheme ++ "://" ++ bucket c ++ "." ++ host ++ "/")%string.

(** [q] asks for [method] on the object [key], with these parameters in some order. *)
Definition asks (c : S3Config) (q : HttpRequest) (method key : string) (params : list (string * string)) : Prop :=
  http_method q = method
  /\ exists path query, http_url q = (bucket_root c ++ path ++ query)%string
     /\ contains_char "?" path = false /\ percent_decode path = Some key
     /\ match params with
        | [] => query = ""
        | _ => exists text l, query = ("?" ++ text)%string /\ read_query text = Some l /\ Permutation l params
        end.

(** A parameter of a query. *)
Definition param (params : list (string * string)) (name : string) : option string :=
  option_map snd (List.find (fun p => String.eqb (fst p) name) params).

Lemma param_in l name v : NoDup (map fst l) -> param l name = Some v <-> In (name, v) l.
Proof.
  intros Hn. unfold param. induction l as [|[n x] l IH]; [done|]. cbn [map fst] in Hn. apply NoDup_cons in Hn as [Hx Hn].
  cbn [List.find fst]. destruct (String.eqb_spec n name) as [->|N]; cbn [option_map snd].
  - split; [intros [= ->]; by left|]. intros [[= ->]|Hi]; [done|]. destruct Hx. apply list_elem_of_In, in_map_iff. by exists (name, v).
  - rewrite (IH Hn). split; [by right|]. by intros [[= -> ->]|].
Qed.

Lemma param_permutation l l' name : NoDup (map fst l') -> Permutation l l' -> param l name = param l' name.
Proof.
  intros Hn P. apply option_eq. intros v. rewrite !param_in; [by rewrite P|done|]. by rewrite P.
Qed.

Section Requests.
Context `{Crypto} `{Calendar}.

Lemma request_url c r t : http_url (signed_request c r t)
  = (bucket_root c ++ uri_encode (rq_key r) false ++ (if String.eqb (rq_query r) "" then "" else "?" ++ rq_query r))%string.
Proof.
  unfold signed_request, address. destruct (path_style c) eqn:Ep; unfold url, bucket_root; rewrite Ep; cbn [http_url];
    destruct (default _ (scheme_split _)) as [scheme host]; destruct (String.eqb (rq_query r) "");
    rewrite ?append_nil_r, ?append_assoc'; done.
Qed.

Lemma uri_encode_no_mark s : contains_char "?" (uri_encode s false) = false.
Proof.
  induction s as [|x s IH]; [done|]. cbn [uri_encode]. rewrite contains_char_app, IH, orb_false_r.
  destruct x as [b0 b1 b2 b3 b4 b5 b6 b7]. by destruct b0, b1, b2, b3, b4, b5, b6, b7.
Qed.

Lemma canonical_query_empty params : canonical_query params = "" -> params = [].
Proof.
  destruct params as [|p params]; [done|]. intros E. destruct (proj2 (canonical_query_round_trip (p :: params))) as (l & Hl & P).
  rewrite E in Hl. injection Hl as <-. by apply Permutation_nil_l in P.
Qed.

(** What the client signs is what a server reads. *)
Lemma signed_asks c r t params : rq_query r = canonical_query params -> asks c (signed_request c r t) (rq_method r) (rq_key r) params.
Proof.
  intros Hq. split; [by unfold signed_request; destruct (address c (rq_key r))|].
  exists (uri_encode (rq_key r) false), (if String.eqb (rq_query r) "" then "" else "?" ++ rq_query r)%string.
  split_and!; [apply request_url|apply uri_encode_no_mark|apply percent_decode_encode|].
  destruct (String.eqb_spec (rq_query r) "") as [E|N].
  - rewrite E in Hq. symmetry in Hq. by apply canonical_query_empty in Hq as ->.
  - destruct params as [|p params]; [by destruct N|]. destruct (proj2 (canonical_query_round_trip (p :: params))) as (l & Hl & P).
    exists (rq_query r), l. split; [done|]. by rewrite Hq.
Qed.
End Requests.

(** ** The pages of a store *)

Section Pages.
Variable show_time : Z -> string.

Definition element (tag text : string) : string := (open_tag tag ++ escape text ++ close_tag tag)%string.

Definition entry_text (o : ObjectInfo) : string :=
  (element "Key" (ob_key o)
   ++ match last_modified o with Some t => element "LastModified" (show_time t) | None => "" end
   ++ element "Size" (show (ob_size o)))%string.

Definition render_entry (o : ObjectInfo) : string :=
  ("<Contents>" ++ entry_text o ++ "</Contents>")%string.

(** A page, and the token to ask for the next one with when there is one. *)
Definition render_page (objects : list ObjectInfo) (next : option string) : string :=
  ("<ListBucketResult>"
   ++ match next with
      | Some token => element "IsTruncated" "true" ++ element "NextContinuationToken" token
      | None => element "IsTruncated" "false"
      end
   ++ concat_str (map render_entry objects) ++ "</ListBucketResult>")%string.

(** ** Reading a page back *)

Definition prepend_first (t : string) (l : list string) : list string :=
  match l with x :: l => (t ++ x)%string :: l | [] => [] end.

(** Text the pattern neither occurs in nor straddles. *)
Definition passes (p t : string) : Prop := forall s, split_str p (t ++ s) = prepend_first t (split_str p s).

Lemma prepend_first_app s t l : prepend_first (s ++ t) l = prepend_first s (prepend_first t l).
Proof. destruct l as [|x l]; simpl; [done|]. by rewrite append_assoc'. Qed.

Lemma passes_app p s t : passes p s -> passes p t -> passes p (s ++ t).
Proof. intros Hs Ht u. by rewrite append_assoc', Hs, Ht, prepend_first_app. Qed.

Lemma passes_step p c : (forall s, starts_with p (String c s) = false) -> passes p (String c "").
Proof.
  intros Hn s. unfold split_str. cbn [append split_skip]. rewrite Hn.
  by destruct (split_skip p 0 s).
Qed.

Lemma passes_nil p : passes p "".
Proof. intros s. cbn [append]. by destruct (split_str p s). Qed.

Lemma passes_plain a p t : contains_char a t = false -> passes (String a p) t.
Proof.
  induction t as [|c t IH]; intros Hn; [apply passes_nil|]. apply contains_char_cons in Hn as [N Hn].
  change (String c t) with (String c "" ++ t)%string. apply passes_app; [|by apply IH].
  apply passes_step. intros s. by apply starts_with_head.
Qed.

(** [p] and [s] differ before either ends. *)
Fixpoint differ (p s : string) : bool :=
  match p, s with
  | String a p, String b s => negb (Ascii.eqb a b) || differ p s
  | _, _ => false
  end.

(** No end of [t] could begin the pattern. *)
Fixpoint clear (p t : string) : bool :=
  match t with
  | EmptyString => true
  | String _ r => differ p t && clear p r
  end.

Lemma differ_starts p s t : differ p s = true -> starts_with p (s ++ t) = false.
Proof.
  revert s. induction p as [|a p IH]; intros [|b s] Hd; try done. cbn [differ] in Hd. unfold starts_with in *.
  cbn [append strip_prefix]. destruct (Ascii.eqb_spec a b) as [->|]; [|done]. by apply IH.
Qed.

Lemma clear_passes p t : clear p t = true -> passes p t.
Proof.
  induction t as [|c t IH]; intros Hc; [apply passes_nil|]. cbn [clear] in Hc. apply andb_true_iff in Hc as [Hd Hc].
  intros s. specialize (IH Hc s). unfold split_str in *. cbn [append split_skip].
  assert (starts_with p (String c (t ++ s)) = false) as -> by exact (differ_starts p (String c t) s Hd). rewrite IH.
  destruct (split_skip p 0 s) eqn:Es; [by apply split_skip_nonempty in Es|done].
Qed.

Lemma passes_element a p tag text :
  clear (String a p) (open_tag tag) = true -> clear (String a p) (close_tag tag) = true ->
  a = "<"%char -> passes (String a p) (element tag text).
Proof.
  intros Ho Hc ->. unfold element.
  apply passes_app; [by apply clear_passes|apply passes_app; [apply passes_plain, escape_no_tag|by apply clear_passes]].
Qed.

Lemma passes_entry p o :
  clear (String "<" p) "<Key>" = true -> clear (String "<" p) "</Key>" = true ->
  clear (String "<" p) "<LastModified>" = true -> clear (String "<" p) "</LastModified>" = true ->
  clear (String "<" p) "<Size>" = true -> clear (String "<" p) "</Size>" = true ->
  passes (String "<" p) (entry_text o).
Proof.
  intros. unfold entry_text. apply passes_app; [by apply passes_element|].
  apply passes_app; [|by apply passes_element].
  destruct (last_modified o); [by apply passes_element|apply passes_nil].
Qed.

(** *** Elements of an entry *)

Lemma first_skip tag t s : clear (open_tag tag) t = true -> first (t ++ s) tag = first s tag.
Proof.
  induction t as [|c t IH]; [done|]. cbn [clear append]. intros [Hd Hc]%andb_true_iff.
  rewrite first_step by (by exact (differ_starts _ (String c t) s Hd)). by apply IH.
Qed.

Lemma first_skip_element tag other text s :
  clear (open_tag tag) (open_tag other) = true -> clear (open_tag tag) (close_tag other) = true ->
  first (element other text ++ s) tag = first s tag.
Proof.
  intros Ho Hc. unfold element. rewrite !append_assoc', first_skip by done.
  rewrite first_text by apply escape_no_tag. by rewrite first_skip.
Qed.

Lemma first_of_element tag text s : first (element tag text ++ s) tag = Some text.
Proof.
  unfold element. rewrite !append_assoc'. by apply (first_element "" tag text s).
Qed.
(** *** Entries and pages *)

Variable rfc3339 : string -> option Z.

Definition readable (o : ObjectInfo) : Prop :=
  0 <= ob_size o <= 2 ^ 64 - 1
  /\ match last_modified o with Some t => rfc3339 (show_time t) = Some t | None => True end.

Lemma parse_entry_text o rest :
  readable o -> parse_entry rfc3339 (entry_text o ++ "</Contents>" ++ rest) = Some o.
Proof.
  intros [Hs Ht]. unfold parse_entry.
  assert (forall d, default d (head (split_str "</Contents>" (entry_text o ++ "</Contents>" ++ rest))) = entry_text o) as ->.
  { intros d. rewrite (passes_entry "/Contents>") by reflexivity.
    change ("</Contents>" ++ rest)%string with (String "<" "/Contents>" ++ rest)%string.
    rewrite split_str_hit. apply append_nil_r. }
  assert (first (entry_text o) "Key" = Some (ob_key o)) as -> by (unfold entry_text; apply first_of_element).
  assert (first (entry_text o) "Size" = Some (show (ob_size o))) as ->.
  { unfold entry_text. rewrite first_skip_element by done.
    rewrite <- (append_nil_r (element "Size" _)).
    destruct (last_modified o); [rewrite first_skip_element by done|]; apply first_of_element. }
  unfold parse_u64. rewrite parse_uint_show by done.
  unfold entry_text. rewrite first_skip_element by done.
  destruct o as [k n [t|]]; cbn [ob_key ob_size last_modified default] in *.
  - by rewrite first_of_element, Ht.
  - cbn [append]. rewrite <- (append_nil_r (element "Size" _)). by rewrite first_skip_element by done.
Qed.

Lemma parse_entries objects tl :
  Forall readable objects -> passes "<Contents>" tl ->
  exists l, split_str "<Contents>" (concat_str (map render_entry objects) ++ tl) = l
    /\ omap (parse_entry rfc3339) (tail l) = objects /\ l <> [].
Proof.
  intros Ho Ht. induction Ho as [|o objects Ho _ IH]; (eexists; split; [reflexivity|]).
  - simpl. rewrite <- (append_nil_r tl), Ht. done.
  - cbn [map concat_str foldr]. change (foldr String.append "" (map render_entry objects))
      with (concat_str (map render_entry objects)). unfold render_entry at 1. rewrite !append_assoc'.
    change ("<Contents>" ++ entry_text o ++ "</Contents>" ++ concat_str (map render_entry objects) ++ tl)%string
      with (String "<" "Contents>" ++ entry_text o ++ "</Contents>" ++ concat_str (map render_entry objects) ++ tl)%string.
    rewrite split_str_hit. rewrite (passes_entry "Contents>") by reflexivity.
    rewrite (clear_passes "<Contents>" "</Contents>") by reflexivity.
    destruct IH as (l & -> & Hl & Hne). destruct l as [|x l]; [done|]. cbn [tail prepend_first].
    split; [|done]. cbn [omap list_omap].
    rewrite parse_entry_text by done. f_equal. exact Hl.
Qed.

Lemma parse_page objects next :
  Forall readable objects -> parse_listing rfc3339 (render_page objects next) = objects.
Proof.
  intros Ho. unfold parse_listing, render_page.
  destruct (parse_entries objects "</ListBucketResult>" Ho) as (l & E & Hl & Hne); [by apply clear_passes|].
  rewrite (clear_passes "<Contents>" "<ListBucketResult>") by reflexivity.
  assert (forall t, passes "<Contents>" t -> tail (prepend_first "<ListBucketResult>"
            (split_str "<Contents>" (t ++ concat_str (map render_entry objects) ++ "</ListBucketResult>"))) = tail l) as Ht.
  { intros t Hp. rewrite Hp, E. by destruct l. }
  rewrite Ht; [done|]. destruct next; [apply passes_app|]; by apply passes_element.
Qed.

Lemma page_truncated objects next :
  first (render_page objects next) "IsTruncated" = Some (if is_some next then "true" else "false").
Proof.
  unfold render_page. rewrite first_skip by done. destruct next; rewrite ?append_assoc'; apply first_of_element.
Qed.

Lemma page_token objects token :
  first (render_page objects (Some token)) "NextContinuationToken" = Some token.
Proof.
  unfold render_page. rewrite first_skip, append_assoc', first_skip_element by done. apply first_of_element.
Qed.

(** ** ListObjectsV2

    What Amazon documents of the operation.  A listing for a prefix is cut into pages of
    at most [max-keys] objects, some of which may be shorter or hold nothing although
    there are more; a page that is not the last says so and carries a token, a text that
    means something to the server only, and the request with that token is answered with
    the page after it. *)

Record Cut := mk_cut {
  pages : string -> Z -> list (list ObjectInfo);
  token : string -> Z -> nat -> string }.

(** The pages for a prefix are the objects under it, in order. *)
Definition cuts (store : list ObjectInfo) (k : Cut) : Prop := forall prefix n, 1 <= n ->
  pages k prefix n <> []
  /\ concat (pages k prefix n) = List.filter (fun o => starts_with prefix (ob_key o)) store
  /\ Forall (fun page => Z.of_nat (length page) <= n) (pages k prefix n).

Definition page_at (k : Cut) (prefix : string) (n : Z) (i : nat) : string :=
  render_page (nth i (pages k prefix n) [])
    (if Nat.ltb (S i) (length (pages k prefix n)) then Some (token k prefix n i) else None).

(** The page a request is for. *)
Definition resumes_at (k : Cut) (prefix : string) (n : Z) (sent : option string) (i : nat) : Prop :=
  match sent with
  | None => i = O
  | Some t => exists j, i = S j /\ t = token k prefix n j
  end.

Definition lists_objects {W} (http : HttpRequest -> W -> result HttpResponse string * W) (root : string) (k : Cut) : Prop :=
  forall q w query params prefix n i,
    http_method q = "GET" -> http_url q = (root ++ "?" ++ query)%string -> read_query query = Some params ->
    param params "list-type" = Some "2" ->
    default "" (param params "prefix") = prefix ->
    param params "max-keys" = Some (show n) -> 1 <= n <= 1000 ->
    resumes_at k prefix n (param params "continuation-token") i -> (i < length (pages k prefix n))%nat ->
    exists headers w', http q w = (Ok (mk_response 200 headers (page_at k prefix n i)), w').

(** ** Following the pages *)

Section Follow.
Context `{Crypto} `{Calendar} {W : Type}.
Variable http : HttpRequest -> W -> result HttpResponse string * W.
Variable now : W -> Z.
Variable str_debug : string -> string.
Variable c : S3Config.
Variable prefix : string.
Variable k : Cut.
Variable n : Z.
Hypothesis Hn : 1 <= n <= 1000.
Hypothesis Hlists : lists_objects http (bucket_root c) k.

Definition list_request (t : option string) : Request :=
  with_query (new_request "listing objects" "GET" "") (page_query prefix n t).

(** The parameters of a request for a page, as sent. *)
Definition list_params (t : option string) : list (string * string) :=
  [("list-type", "2"); ("max-keys", show n); ("prefix", prefix)]
  ++ match t with Some t => [("continuation-token", t)] | None => [] end.

Lemma page_answered t i s : resumes_at k prefix n t i -> (i < length (pages k prefix n))%nat ->
  exists headers w', send http now c (list_request t) s
    = (Ok (mk_response 200 headers (page_at k prefix n i)),
       mk_net w' (requests s ++ [signed_request c (list_request t) (now (world s))]) (reported s)).
Proof.
  intros Ht Hi. pose proof (signed_asks c (list_request t) (now (world s)) (list_params t) eq_refl) as [Hm (path & text & Hu & _ & Hp & Hq)].
  cbn [list_request with_query new_request rq_method rq_key] in Hm, Hp.
  assert (Hu' : http_url (signed_request c (list_request t) (now (world s))) = (bucket_root c ++ "?" ++ page_query prefix n t)%string).
  { rewrite request_url. cbn [list_request with_query new_request rq_key rq_query uri_encode append].
    destruct (String.eqb_spec (page_query prefix n t) "") as [E|_]; [|done].
    by apply canonical_query_empty in E. }
  destruct (proj2 (canonical_query_round_trip (list_params t))) as (l & Hl & P).
  assert (Hd : NoDup (map fst (list_params t))).
  { destruct t; by apply (bool_decide_eq_true_1 (NoDup _)). }
  destruct (Hlists _ (world s) (page_query prefix n t) l prefix n i Hm Hu' Hl) as (headers & w' & E); try done.
  - by rewrite (param_permutation l (list_params t)).
  - by rewrite (param_permutation l (list_params t)).
  - by rewrite (param_permutation l (list_params t)).
  - rewrite (param_permutation l (list_params t)) by done. by destruct t.
  - exists headers, w'. by apply send_success.
Qed.

Lemma list_loop_pages : Forall (Forall readable) (pages k prefix n) ->
  forall fuel i t out s, (length (pages k prefix n) - i <= fuel)%nat -> (i < length (pages k prefix n))%nat ->
    resumes_at k prefix n t i ->
    exists s', list_loop http now rfc3339 str_debug fuel c prefix n t out s
      = Some (Ok (out ++ concat (skipn i (pages k prefix n))), s').
Proof.
  intros Ho. induction fuel as [|fuel IH]; intros i t out s Hf Hi Ht; [lia|]. cbn [list_loop].
  destruct (page_answered t i s Ht Hi) as (headers & w' & E). unfold list_request in E. rewrite E. clear E.
  cbn [rs_text]. unfold page_at.
  destruct (lookup_lt_is_Some_2 (pages k prefix n) i Hi) as [page Hpage].
  assert (Hnth : nth i (pages k prefix n) [] = page) by (by apply nth_lookup_Some).
  rewrite Hnth, page_truncated, parse_page by (by eapply Forall_lookup_1).
  rewrite (drop_S (pages k prefix n) page i Hpage). cbn [concat]. rewrite app_assoc.
  destruct (Nat.ltb_spec (S i) (length (pages k prefix n))) as [Hlt|Hge]; cbn [is_some].
  - rewrite page_token. apply IH; [lia|done|]. by exists i.
  - eexists. rewrite drop_ge by lia. cbn [concat]. by rewrite app_nil_r.
Qed.
End Follow.
End Pages.

(** C29: against a store that lists its objects as Amazon documents it - by prefix, in
    pages of at most the asked number of objects, some shorter or empty, each but the
    last with a token the client cannot interpret - a listing ends and gives every
    object under the prefix and no other, in order, with its size and its date, however
    many pages that takes and whatever characters are in the keys and tokens. *)
Theorem listing_sees_everything `{Crypto} `{Calendar} {W} (http : HttpRequest -> W -> result HttpResponse string * W)
    show_time rfc3339 now str_debug c prefix page_size store k fuel s :
  lists_objects show_time http (bucket_root c) k -> cuts store k -> Forall (readable show_time rfc3339) store ->
  (length (pages k prefix (Z.max 1 (Z.min page_size 1000))) <= fuel)%nat ->
  exists s', list_paged http now rfc3339 str_debug fuel c prefix page_size s
    = Some (Ok (List.filter (fun o => starts_with prefix (ob_key o)) store), s').
Proof.
  intros Hl Hc Ho Hf. set (n := Z.max 1 (Z.min page_size 1000)) in Hf.
  assert (Hn : 1 <= n <= 1000) by (unfold n; lia). destruct (Hc prefix n) as (Hne & Hcat & _); [lia|].
  unfold list_paged. assert (clamp 1 LIST_PAGE_SIZE page_size = n) as ->.
  { unfold clamp, LIST_PAGE_SIZE, n. destruct (Z.ltb_spec page_size 1); [lia|]. destruct (Z.ltb_spec 1000 page_size); lia. }
  destruct (list_loop_pages show_time rfc3339 http now str_debug c prefix k n Hn Hl) with (fuel := fuel) (i := O)
    (t := @None string) (out := @nil ObjectInfo) (s := s) as [s' E].
  - apply Forall_forall. intros page Hp. apply Forall_forall. intros o Hin. rewrite Forall_forall in Ho. apply Ho.
    apply list_elem_of_In. apply (proj1 (filter_In (fun o => starts_with prefix (ob_key o)) o store)). rewrite <- Hcat.
    apply in_concat. exists page. by rewrite <- !list_elem_of_In.
  - lia.
  - destruct (pages k prefix n); [done|simpl; lia].
  - done.
  - exists s'. rewrite <- Hcat. exact E.
Qed.

(** ** Small stores *)

#[local] Existing Instance toy_crypto.

Definition show_stamp (t : Z) : string := show t.
Definition read_stamp (s : string) : option Z := parse_digits s.

(** A server that puts one object on a page, and nothing on the first. *)
Definition slow_cut (store : list ObjectInfo) : Cut := {|
  pages prefix _ := [] :: map (fun o => [o]) (List.filter (fun o => starts_with prefix (ob_key o)) store);
  token _ _ i := ("<" ++ show (Z.of_nat i) ++ "&=+")%string |}.

Lemma slow_cuts store : cuts store (slow_cut store).
Proof.
  intros prefix n Hn. cbn [pages slow_cut]. split; [done|]. split.
  - induction (List.filter _ store) as [|o l IH]; [done|]. cbn in *. by rewrite IH.
  - constructor; [cbn; lia|]. apply Forall_forall. intros page (o & -> & _)%list_elem_of_fmap. cbn. lia.
Qed.

(** Which page a token is for. *)
Definition resumed (k : Cut) (prefix : string) (n : Z) (sent : option string) : nat :=
  match sent with
  | None => O
  | Some t =>
      match List.find (fun j => String.eqb (token k prefix n j) t) (seq 0 (length (pages k prefix n))) with
      | Some j => S j
      | None => O
      end
  end.

(** The query of an address. *)
Definition query_of (q : HttpRequest) : list (string * string) :=
  match cut "?" (http_url q) with
  | Some (_, query) => default [] (read_query query)
  | None => []
  end.

Definition store_of (store : list ObjectInfo) (q : HttpRequest) (w : unit) : result HttpResponse string * unit :=
  let params := query_of q in
  let prefix := default "" (param params "prefix") in
  let n := default 0 (match param params "max-keys" with Some t => parse_digits t | None => None end) in
  let i := resumed (slow_cut store) prefix n (param params "continuation-token") in
  (Ok (mk_response 200 [] (page_at show_stamp (slow_cut store) prefix n i)), tt).

Lemma find_seq (f : nat -> bool) j m : (j < m)%nat -> (forall i, f i = true <-> i = j) -> List.find f (seq 0 m) = Some j.
Proof.
  intros Hj Hf. destruct (List.find f (seq 0 m)) as [i|] eqn:E.
  - apply List.find_some in E as [_ E]. f_equal. by apply Hf.
  - exfalso. assert (f j = false) by (eapply List.find_none; [exact E|apply in_seq; lia]).
    assert (f j = true) by (by apply Hf). congruence.
Qed.

Lemma slow_token_inj store prefix n m i j : token (slow_cut store) prefix n i = token (slow_cut store) prefix m j -> i = j.
Proof.
  cbn [token slow_cut]. intros E. apply (f_equal (fun s => strip_prefix "<" s)) in E.
  rewrite !strip_prefix_app in E. injection E as E. apply (f_equal (split_once "&")) in E. change ("&=+") with ("&" ++ "=+")%string in E.
  rewrite !(split_once_app "&" _ "=+") in E by (by apply digits_no_char, show_all_digits). injection E as E.
  apply (f_equal (parse_uint (Z.of_nat i + Z.of_nat j))) in E. rewrite !parse_uint_show in E by lia. injection E as E. lia.
Qed.

Lemma store_lists store root : contains_char "?" root = false -> lists_objects show_stamp (store_of store) root (slow_cut store).
Proof.
  intros Hroot q [] query params prefix n i _ Hu Hq _ Hp Hn _ Hi Hl. exists [], tt.
  assert (Hquery : query_of q = params).
  { unfold query_of. rewrite Hu. change ("?" ++ query)%string with (String "?" "" ++ query)%string.
    rewrite (cut_app "?" "" root query Hroot). by rewrite Hq. }
  unfold store_of. rewrite Hquery, Hp, Hn. do 3 f_equal.
  unfold page_at. cbn [pages token slow_cut].
  assert (resumed (slow_cut store) prefix (default 0 (parse_digits (show n))) (param params "continuation-token") = i) as ->; [|done].
  unfold resumed. destruct (param params "continuation-token") as [t|]; cbn [resumes_at] in Hi; [|done].
  destruct Hi as (j & -> & ->). rewrite (find_seq _ j); [done| |].
  - cbn [pages slow_cut length] in *. rewrite length_map in *. lia.
  - intros i. rewrite String.eqb_eq. split; [apply slow_token_inj|by intros ->].
Qed.

Definition four_objects : list ObjectInfo :=
  [mk_object "dev/old.sql.gz" 1 None; mk_object "prod/a&b <1>.sql.gz" 10 (Some 5); mk_object "prod/b.dump" 20 None;
   mk_object "prod/c.sql.gz" 30 (Some 7)].

Lemma four_readable : Forall (readable show_stamp read_stamp) four_objects.
Proof. repeat constructor; try (cbn; lia); by vm_compute. Qed.

Lemma listing_sees_everything_witness :
  exists s', list_paged (store_of four_objects) (fun _ => 0) read_stamp (fun s => s) 4 toy_config "prod/" 2
               (mk_net tt [] []) = Some (Ok (tail four_objects), s').
Proof.
  exact (listing_sees_everything (store_of four_objects) show_stamp read_stamp (fun _ => 0) (fun s => s)
    toy_config "prod/" 2 four_objects (slow_cut four_objects) 4 (mk_net tt [] [])
    (store_lists four_objects (bucket_root toy_config) eq_refl) (slow_cuts four_objects) four_readable
    ltac:(vm_compute; lia)).
Defined.

(** ** The body that joins parts, as a server reads it *)

Definition read_part (chunk : string) : option (string * string) :=
  match first chunk "PartNumber", first chunk "ETag" with
  | Some number, Some etag => Some (number, etag)
  | _, _ => None
  end.

Definition read_parts (body : string) : list (string * string) := omap read_part (tail (split_str "<Part>" body)).

(** Parts numbered from [i]. *)
Fixpoint numbered_parts (i : Z) (etags : list string) : list (string * string) :=
  match etags with
  | [] => []
  | etag :: rest => (show i, etag) :: numbered_parts (i + 1) rest
  end.

Lemma replace_char_same c e s : contains_char c s = false -> replace_char c e s = s.
Proof.
  induction s as [|x s IH]; [done|]. intros [N Hs]%contains_char_cons. cbn [replace_char].
  destruct (Ascii.eqb_spec x c) as [->|]; [done|]. by rewrite IH.
Qed.

Lemma escape_digits s : all_chars is_digit s = true -> escape s = s.
Proof.
  intros Hs. assert (forall c, is_digit c = false -> contains_char c s = false) as Hc by (intros; by apply digits_no_char).
  unfold escape. rewrite (replace_char_same "&"), (replace_char_same "<"), (replace_char_same ">") by (by apply Hc).
  rewrite (replace_char_same quote_char), (replace_char_same apos_char) by (by apply Hc). done.
Qed.

Lemma split_part_list tl : passes "<Part>" tl ->
  forall etags i, exists l, split_str "<Part>" (part_list i etags ++ tl) = l
    /\ omap read_part (tail l) = numbered_parts i etags /\ l <> [].
Proof.
  intros Ht. induction etags as [|etag etags IH]; intros i; (eexists; split; [reflexivity|]).
  - cbn [part_list append numbered_parts]. rewrite <- (append_nil_r tl), Ht. done.
  - cbn [part_list]. rewrite !append_assoc'.
    change ("<Part><PartNumber>" ++ show i ++ "</PartNumber><ETag>" ++ escape etag ++ "</ETag></Part>" ++ part_list (i + 1) etags ++ tl)%string
      with (String "<" "Part>" ++ "<PartNumber>" ++ show i ++ "</PartNumber><ETag>" ++ escape etag ++ "</ETag></Part>"
            ++ part_list (i + 1) etags ++ tl)%string.
    rewrite split_str_hit, (clear_passes "<Part>" "<PartNumber>") by reflexivity.
    rewrite (passes_plain "<" "Part>" (show i)) by (by apply digits_no_char, show_all_digits).
    rewrite (clear_passes "<Part>" "</PartNumber><ETag>") by reflexivity.
    rewrite (passes_plain "<" "Part>" (escape etag)) by apply escape_no_tag.
    rewrite (clear_passes "<Part>" "</ETag></Part>") by reflexivity.
    destruct (IH (i + 1)) as (l & -> & Hl & Hne). destruct l as [|x l]; [done|]. cbn [prepend_first tail].
    split; [|done]. cbn [omap list_omap numbered_parts].
    assert (read_part ("<PartNumber>" ++ show i ++ "</PartNumber><ETag>" ++ escape etag ++ "</ETag></Part>" ++ x)
      = Some (show i, etag)) as Hr.
    { assert ("<PartNumber>" ++ show i ++ "</PartNumber><ETag>" ++ escape etag ++ "</ETag></Part>" ++ x
        = element "PartNumber" (show i) ++ element "ETag" etag ++ "</Part>" ++ x)%string as ->.
      { unfold element. by rewrite (escape_digits (show i)), !append_assoc' by apply show_all_digits. }
      unfold read_part. by rewrite first_of_element, first_skip_element, first_of_element by done. }
    rewrite Hr. by rewrite <- Hl.
Qed.

Lemma read_completion etags : read_parts (completion_body etags) = numbered_parts 1 etags.
Proof.
  unfold read_parts, completion_body. rewrite (clear_passes "<Part>" "<CompleteMultipartUpload>") by reflexivity.
  destruct (split_part_list "</CompleteMultipartUpload>" (clear_passes "<Part>" "</CompleteMultipartUpload>" eq_refl) etags 1) as (l & -> & Hl & Hne).
  by destruct l.
Qed.

(** ** What went over the wire *)

Section Uploads.
Context `{Crypto} `{Calendar} {W : Type}.
Variable http : HttpRequest -> W -> result HttpResponse string * W.
Variable now : W -> Z.
Variable cancelled : W -> bool.
Variable metadata_len : string -> result Z string.
Variable read_file : string -> result string string.
Variable open_file : string -> result (list (result string string)) string.
Variable c : S3Config.

Abbreviation send := (send http now).
Abbreviation parts_loop := (parts_loop http now cancelled).
Abbreviation put_multipart := (put_multipart http now cancelled open_file).
Abbreviation upload_file := (upload_file http now cancelled metadata_len read_file open_file).

(** Requests with the answers they got, one after the other. *)
Inductive exchanged : W -> list (HttpRequest * HttpResponse) -> W -> Prop :=
| exchanged_none w : exchanged w [] w
| exchanged_one w q rs w1 l w2 : http q w = (Ok rs, w1) -> exchanged w1 l w2 -> exchanged w ((q, rs) :: l) w2.

Lemma exchanged_app w l w1 l' w2 : exchanged w l w1 -> exchanged w1 l' w2 -> exchanged w (l ++ l') w2.
Proof. induction 1 as [|w q rs w0 l w1 Hq _ IH]; [done|]. intros Hl. eapply exchanged_one; [exact Hq|by apply IH]. Qed.

(** [l] is what was exchanged between two states. *)
Definition wire (s s' : Net) (l : list (HttpRequest * HttpResponse)) : Prop :=
  exchanged (world s) l (world s') /\ requests s' = requests s ++ map fst l.

Lemma wire_app s l s1 l' s2 : wire s s1 l -> wire s1 s2 l' -> wire s s2 (l ++ l').
Proof.
  intros [E1 R1] [E2 R2]. split; [by eapply exchanged_app|]. by rewrite R2, R1, map_app, <- app_assoc.
Qed.

Lemma wire_nil s : wire s s [].
Proof. split; [apply exchanged_none|by rewrite app_nil_r]. Qed.

Lemma send_wire r s rs s' params : send c r s = (Ok rs, s') -> rq_query r = canonical_query params ->
  exists q, wire s s' [(q, rs)] /\ asks c q (rq_method r) (rq_key r) params /\ http_body q = rq_body r.
Proof.
  intros E Hq. exists (signed_request c r (now (world s))).
  split_and!; [|by apply signed_asks|by unfold signed_request; destruct (address c (rq_key r))].
  unfold S3Client.send in E. destruct (http _ _) as [answer w] eqn:Eh. repeat case_match; simplify_eq.
  split; [|done]. eapply exchanged_one; [exact Eh|apply exchanged_none].
Qed.

(** Each part was sent under its number and the upload's id, and its answer gave it its
    ETag; [step] is what comes after a number. *)
Fixpoint stored_as (key upload_id : string) (step : Z -> Z) (number : Z)
    (parts : list (HttpRequest * HttpResponse)) (etags : list string) : Prop :=
  match parts, etags with
  | [], [] => True
  | (q, rs) :: parts, etag :: etags =>
      asks c q "PUT" key [("partNumber", show number); ("uploadId", upload_id)]
      /\ header_str (rs_headers rs) "etag" = Some etag
      /\ stored_as key upload_id step (step number) parts etags
  | _, _ => False
  end.

Definition bodies (parts : list (HttpRequest * HttpResponse)) : list string := map (fun p => http_body (fst p)) parts.

Lemma parts_loop_spec fuel path key upload_id total : forall pieces etags sent k s l s',
  (bytes_left pieces < fuel)%nat ->
  parts_loop fuel c path key upload_id total pieces etags sent k s = (Ok l, s') ->
  exists parts more, l = etags ++ more /\ wire s s' parts
    /\ stored_as key upload_id (fun k => wrap 32 (k + 1)) k parts more /\ parts_of (text_of pieces) (bodies parts).
Proof.
  induction fuel as [|fuel IH]; intros pieces etags sent k s l s' Hf; [lia|]. simpl.
  destruct (cancelled (world s)); [done|]. unfold sbind, slift.
  destruct (fill PART_SIZE pieces) as [[b rest]|e] eqn:Ef; simpl; [|done].
  destruct (String.eqb_spec b "") as [->|Hb].
  { intros [= <- <-]. exists [], []. split_and!; [by rewrite app_nil_r|apply wire_nil|done|].
    apply fill_spec in Ef as (E & _ & [Hs|Hs] & _); [unfold PART_SIZE, str_len in Hs; simpl in Hs; lia|].
    rewrite E, Hs. constructor. }
  destruct (send c _ s) as [[response|e] s1] eqn:Es; [|done]. simpl.
  destruct (send_wire _ _ _ _ [("partNumber", show k); ("uploadId", upload_id)] Es eq_refl) as (q & Hw & Hq & Hbody).
  unfold etag_of. destruct (header_str (rs_headers response) "etag") as [etag|] eqn:Ee; simpl; [|done].
  intros Hrec. apply IH in Hrec as (parts & more & -> & Hw' & Hst & Hp).
  - exists ((q, response) :: parts), (etag :: more). split_and!; [by rewrite <- app_assoc| |by split_and!|].
    + apply (wire_app s [(q, response)] s1 parts s'); [done|]. exact Hw'.
    + cbn [bodies map fst]. rewrite Hbody. by eapply parts_fill.
  - apply fill_spec in Ef as (_ & _ & _ & Hl). assert (str_len b <> 0) by (by intros ?%str_len_zero).
    pose proof (str_len_nonneg b). lia.
Qed.

(** Numbers do not wrap while there are fewer parts than a [u32] counts. *)
Lemma stored_plain key upload_id parts etags : forall k, 0 < k -> k + Z.of_nat (length parts) <= 2 ^ 32 ->
  stored_as key upload_id (fun k => wrap 32 (k + 1)) k parts etags -> stored_as key upload_id Z.succ k parts etags.
Proof.
  revert etags. induction parts as [|[q rs] parts IH]; intros [|etag etags] k Hk Hl; cbn [stored_as length] in *; try done.
  intros (Hq & He & Hs). split_and!; [done..|]. rewrite Nat2Z.inj_succ in Hl.
  destruct parts as [|p parts]; [by destruct etags|]. cbn [length] in *. rewrite Nat2Z.inj_succ in Hl.
  assert (wrap 32 (k + 1) = Z.succ k) as E by (unfold wrap; rewrite Z.mod_small; lia).
  cbv beta in Hs. rewrite E in Hs. apply IH; [lia|cbn [length]; lia|exact Hs].
Qed.

(** An upload in parts, as the server saw it: it was started, and gave an id; the parts
    of the text came under that id, numbered from one, and each was given an ETag; it
    was asked to join exactly those, each number with its part's ETag, and did not
    answer with an error. *)
Record multipart_sent (key : string) (s s' : Net) (text : string) : Prop := {
  ms_wire : exists start begun upload_id parts etags complete joined,
    wire s s' ((start, begun) :: parts ++ [(complete, joined)])
    /\ asks c start "POST" key [("uploads", "")] /\ first (rs_text begun) "UploadId" = Some upload_id
    /\ parts_of text (bodies parts) /\ stored_as key upload_id Z.succ 1 parts etags
    /\ asks c complete "POST" key [("uploadId", upload_id)]
    /\ read_parts (http_body complete) = numbered_parts 1 etags /\ parse_error (rs_text joined) = None }.

Lemma put_multipart_spec path key total s s' pieces :
  open_file path = Ok pieces -> str_len (text_of pieces) < 2 ^ 55 ->
  put_multipart c path key total s = (Ok tt, s') -> multipart_sent key s s' (text_of pieces).
Proof.
  intros Ho Hlen. unfold S3Client.put_multipart. intros (upload_id & s1 & Hs & Hp)%sbind_Ok.
  unfold start_multipart in Hs. apply sbind_Ok in Hs as (begun & s1' & Hs & Hl).
  destruct (send_wire _ _ _ _ [("uploads", "")] Hs eq_refl) as (start & Hw1 & Ha1 & _).
  unfold slift, ok_or in Hl. destruct (first (rs_text begun) "UploadId") as [id|] eqn:Eid; [|done]. injection Hl as <- <-.
  destruct (upload_parts http now cancelled open_file c path key id total s1') as [[etags|e] s2] eqn:Eu; [|done].
  unfold upload_parts in Eu. apply sbind_Ok in Eu as (ps & s1'' & Ho' & Eu). unfold slift in Ho'. rewrite Ho in Ho'.
  injection Ho' as <- <-. apply parts_loop_spec in Eu as (parts & more & -> & Hw2 & Hst & Hparts); [|lia].
  unfold complete_multipart in Hp. apply sbind_Ok in Hp as (joined & s3 & Hc & Hd).
  destruct (send_wire _ _ _ _ [("uploadId", id)] Hc eq_refl) as (complete & Hw3 & Ha3 & Hb3).
  destruct (parse_error (rs_text joined)) eqn:Ee; [done|]. injection Hd as <-.
  assert (Hcount : Z.of_nat (length parts) <= 2 ^ 32 - 1).
  { apply parts_count in Hparts. unfold bodies in Hparts. rewrite length_map in Hparts. rewrite Hparts.
    pose proof (str_len_nonneg (text_of pieces)). unfold PART_SIZE. divlia. }
  constructor. exists start, begun, id, parts, more, complete, joined. split_and!; try done.
  - apply (wire_app s [(start, begun)] s1'); [done|]. by eapply wire_app.
  - apply stored_plain; [lia|lia|done].
  - rewrite Hb3. apply read_completion.
Qed.

(** C30: an upload in parts that succeeds has sent the file whole.  For a file of up to
    2^55 bytes, and by what a server reads from the requests: the object's address was
    asked to begin an upload and answered with an id; the file's bytes came in order
    under that id, cut into parts of one fixed size with only the last one shorter and
    none empty, numbered from one, each answered with an ETag; exactly those parts were
    asked to be joined, each number with the ETag its part was given, which was not
    answered with an error; and then the object's size was asked for and is the
    file's. *)
Theorem upload_in_parts_sends_the_file path key s n s' :
  upload_file c path key s = (Ok n, s') -> MULTIPART_THRESHOLD <= n ->
  (forall pieces, open_file path = Ok pieces -> str_len (text_of pieces) < 2 ^ 55) ->
  exists pieces s1 head answer, metadata_len path = Ok n /\ open_file path = Ok pieces
    /\ multipart_sent key s s1 (text_of pieces)
    /\ wire s1 s' [(head, answer)] /\ asks c head "HEAD" key []
    /\ (exists text, header_str (rs_headers answer) "content-length" = Some text /\ parse_u64 text = Some n).
Proof.
  unfold S3Client.upload_file. intros (total & s0 & Hm & Hk)%sbind_Ok Hn Hsmall.
  injection Hm as Hm <-. destruct (metadata_len path) as [len|] eqn:El; [|done]. injection Hm as <-.
  apply sbind_Ok in Hk as ([] & s1 & Hu & Hk). apply sbind_Ok in Hk as (stored & s2 & Hh & Hc). injection Hc as Hc <-.
  unfold check_stored in Hc. destruct stored as [m|]; [|done].
  destruct (Z.eqb_spec m len) as [->|]; [|done]. injection Hc as ->.
  destruct (Z.ltb_spec n MULTIPART_THRESHOLD); [lia|].
  destruct (open_file path) as [pieces|e] eqn:Eo.
  2: { unfold S3Client.put_multipart, upload_parts in Hu. apply sbind_Ok in Hu as (id & s3 & _ & Hu).
       unfold sbind, slift in Hu. by rewrite Eo in Hu. }
  pose proof (put_multipart_spec path key n s s1 pieces Eo (Hsmall _ eq_refl) Hu) as Hms.
  unfold head_object in Hh. destruct (send c _ s1) as [[answer|e] s3] eqn:Es.
  2: { repeat case_match; simplify_eq. }
  destruct (send_wire _ _ _ _ [] Es eq_refl) as (head & Hw & Ha & _).
  destruct (header_str (rs_headers answer) "content-length") as [text|] eqn:Et; [|by simplify_eq].
  injection Hh as Hp <-. exists pieces, s1, head, answer. split_and!; try done. by exists text.
Qed.
End Uploads.

(** ** Against a small store *)

#[local] Existing Instance toy_crypto.

Lemma uploading_works : exists s', uploading (mk_response 200 [] "") = (Ok MULTIPART_THRESHOLD, s').
Proof. eexists. vm_compute. reflexivity. Qed.

Lemma upload_in_parts_sends_the_file_witness :
  exists s' s1, uploading (mk_response 200 [] "") = (Ok MULTIPART_THRESHOLD, s')
    /\ multipart_sent (part_store (mk_response 200 [] "")) toy_config "a.sql.gz" (mk_net tt [] []) s1 "abc".
Proof.
  destruct uploading_works as [s' E]. exists s'.
  destruct (upload_in_parts_sends_the_file (part_store (mk_response 200 [] "")) (fun _ => 0) (fun _ => false)
    (fun _ => Ok MULTIPART_THRESHOLD) (fun _ => Ok "") (fun _ => Ok [Ok "ab"; Ok "c"]) toy_config
    "/b/a.sql.gz" "a.sql.gz" (mk_net tt [] []) MULTIPART_THRESHOLD s' E (Z.le_refl _))
    as (pieces & s1 & _ & _ & _ & Ho & Hs & _); [by intros pieces [= <-]|].
  exists s1. split; [exact E|]. injection Ho as <-. exact Hs.
Defined.
