(* ===== verification/BackupPostgres.v ===== *)
(** * BackupPostgres: dumping a PostgreSQL database (engine/src/backup/postgres.rs)

    One [pg_dump], with its argument list, the worker that runs it - into a file
    the tool writes itself, or through the artifact sink for plain SQL - and the
    roles dumped beside it by [pg_dumpall].  The world of the worker is that of
    the MySQL one, and the reports of the thread that watches the file grow are
    an input. *)

From Stdlib Require Import ZArith Lia Ascii String List Bool.
From stdpp Require Import base list gmap strings.
From S2P Require Import Prelude Text Time Domain Exec Tools Definer BackupMysql Backup Disk.
Import ListNotations.

Open Scope string_scope.
Open Scope list_scope.
Open Scope Z_scope.

Record PgDumpPlan := mk_pg_plan {
  pg_dump : ResolvedTool;
  pg_dumpall : option ResolvedTool;
  pg_endpoint : Endpoint;
  pg_database : string;
  pg_options : PostgresBackupOptions;
  pg_schema_only : list string;
  pg_excluded : list string;
  pg_artifact : string;
  globals_path : option string;
  pg_recipients : list string }.

Inductive PgProgress :=
| PgPhase (phase : JobPhase) (message : string)
| PgWarn (phase : JobPhase) (message : string)
| PgSize (bytes : Z).

(** ** Command lines *)

Definition pg_connection_args (e : Endpoint) : list string :=
  [("--host=" ++ host e)%string; ("--port=" ++ show (port e))%string;
   ("--username=" ++ user e)%string; "--no-password"].

Definition pg_with_password (cmd : ToolCommand) (e : Endpoint) : ToolCommand :=
  match password e with Some pw => add_secret_env cmd "PGPASSWORD" pw | None => cmd end.

Definition pg_dump_args (plan : PgDumpPlan) (file : option string) : list string :=
  let o := pg_options plan in
  pg_connection_args (pg_endpoint plan)
  ++ [pg_flag (pg_format o)]
  ++ flag (no_owner o) "--no-owner"
  ++ flag (no_privileges o) "--no-privileges"
  ++ flag (blobs o) "--large-objects"
  ++ flag (serializable_deferrable o) "--serializable-deferrable"
  ++ map (String.append "--schema=") (schemas o)
  ++ match parallel_jobs o with
     | Some jobs => flag (supports_parallel_dump (pg_format o)) ("--jobs=" ++ show jobs)%string
     | None => []
     end
  ++ map (String.append "--exclude-table-data=") (pg_schema_only plan)
  ++ map (String.append "--exclude-table=") (pg_excluded plan)
  ++ pg_extra_flags o
  ++ match file with Some path => [("--file=" ++ path)%string] | None => [] end
  ++ [("--dbname=" ++ pg_database plan)%string].

Definition globals_args (plan : PgDumpPlan) : list string :=
  pg_connection_args (pg_endpoint plan)
  ++ ["--globals-only"] ++ flag (no_privileges (pg_options plan)) "--no-privileges".

Definition pg_dump_command `{Host} (tool : ResolvedTool) (plan : PgDumpPlan) (file : option string) : ToolCommand :=
  pg_with_password (add_args (command tool) (pg_dump_args plan file)) (pg_endpoint plan).

Definition globals_command `{Host} (plan : PgDumpPlan) (tool : ResolvedTool) : ToolCommand :=
  pg_with_password (add_args (command tool) (globals_args plan)) (pg_endpoint plan).

Definition artifact_suffix (f : PgDumpFormat) : string :=
  match f with Custom => ".dump" | Directory => ".dumpdir" | Plain => ".sql.gz" end.

Definition pg_filename `{Calendar} (database : string) (now : Z) (f : PgDumpFormat) : string :=
  (database ++ "_" ++ utc_stamp now ++ artifact_suffix f)%string.

(** What the file system says of a path: the sizes of a directory's entries, or of a file. *)
Inductive Stat :=
| StatDir (entries : option (list (option Z)))
| StatFile (len : option Z).

Definition artifact_size (s : Stat) : Z :=
  match s with
  | StatDir (Some entries) => fold_left (fun a n => wrap 64 (a + n)) (somes entries) 0
  | StatDir None => 0
  | StatFile len => default 0 len
  end.

Section Worker.
Context `{Host} {W : Type}.
Variable write_all : W -> bytes -> result unit string * W.
Variable spawn : nat -> ToolCommand -> result Child ExecError.
Variable create_file : string -> result unit string.
Variable new_sink : list string -> result W string.
Variable finish_sink flush_sink sync_all : W -> result unit string.
Variable write_globals : bytes -> result unit string.
Variable watched : list Z.
Variable stat : string -> Stat.
Variable str_debug : string -> string.

(** The state of the worker: what was started, what was sent, the side files it removed. *)
Record PgWorker := mk_pg_worker {
  pg_started : list ToolCommand;
  pg_progress : list PgProgress;
  pg_removed : list string }.

Definition pg_send (s : PgWorker) (p : PgProgress) : PgWorker :=
  mk_pg_worker (pg_started s) (pg_progress s ++ [p]) (pg_removed s).
Definition pg_start (s : PgWorker) (cmd : ToolCommand) : PgWorker :=
  mk_pg_worker (pg_started s ++ [cmd]) (pg_progress s) (pg_removed s).
Definition pg_remove (s : PgWorker) (p : string) : PgWorker :=
  mk_pg_worker (pg_started s) (pg_progress s) (pg_removed s ++ [p]).

Definition pg_spawn (s : PgWorker) (cmd : ToolCommand) : result Child BackupError * PgWorker :=
  (map_err (spawn (length (pg_started s)) cmd) (fun e => Exec (exec_error_text e)), pg_start s cmd).

Definition pg_wait (cmd : ToolCommand) (c : Child) : result unit BackupError :=
  let? _ := map_err (wait_checked (program cmd) (exit c) (stderr c) (token_set c)) exec_error_to_backup in
  Ok tt.

Definition run_and_watch (s : PgWorker) (cmd : ToolCommand) : result unit BackupError * PgWorker :=
  match pg_spawn s cmd with
  | (Err e, s) => (Err e, s)
  | (Ok c, s) => (pg_wait cmd c, fold_left pg_send (map PgSize watched) s)
  end.

Definition finish_plain (w : W) : result unit BackupError :=
  let? _ := io_error "could not finish compression: " (finish_sink w) in
  let? _ := io_error "could not flush the artifact: " (flush_sink w) in
  io_error "could not sync the artifact: " (sync_all w).

Definition plain_dump (s : PgWorker) (plan : PgDumpPlan) (cmd : ToolCommand) : result unit BackupError * PgWorker :=
  match (let? _ := io_error "could not create the artifact: " (create_file (pg_artifact plan)) in
         map_err (new_sink (pg_recipients plan)) Io) with
  | Err e => (Err e, s)
  | Ok w =>
      match pg_spawn s cmd with
      | (Err e, s) => (Err e, s)
      | (Ok c, s) =>
          let '(copied, w) := copy write_all w c in
          (let? _ := io_error "streaming the dump failed: " copied in
           let? _ := pg_wait cmd c in
           finish_plain w, s)
      end
  end.

(** The globals: only a bad exit of [pg_dumpall] is forgiven. *)
Definition dump_globals (s : PgWorker) (plan : PgDumpPlan) (tool : ResolvedTool) (path : string)
    : result unit BackupError * PgWorker :=
  let s := pg_send s (PgPhase DumpSchema "dumping roles and globals") in
  let cmd := globals_command plan tool in
  match pg_spawn s cmd with
  | (Err e, s) => (Err e, s)
  | (Ok c, s) =>
      match (let? _ := io_error "could not create the globals file: " (create_file path) in
             let? _ := io_error "writing globals failed: " (write_globals (stdout c)) in
             match stdout_error c with
             | Some e => Err (Io ("writing globals failed: " ++ e))
             | None => Ok tt
             end) with
      | Err e => (Err e, s)
      | Ok _ =>
          match wait_checked (program cmd) (exit c) (stderr c) (token_set c) with
          | Ok _ => (Ok tt, s)
          | Err e =>
              let s := pg_send s (PgPhase DumpSchema
                         ("globals dump failed and was skipped: " ++ exec_error_text e)%string) in
              (Ok tt, pg_remove s path)
          end
      end
  end.

(** The path handed to [pg_dump], and the tool with its directory mounted. *)
Definition artifact_arg (plan : PgDumpPlan) : result (option string * ResolvedTool) BackupError :=
  match pg_format (pg_options plan) with
  | Plain => Ok (None, pg_dump plan)
  | _ =>
      let? name := ok_or (file_name (pg_artifact plan)) (Io "artifact has no file name") in
      let? (dir, tool) := map_err (mount (pg_dump plan) (parent (pg_artifact plan)) ReadWrite)
                            (fun e => Io (mount_error_text e)) in
      Ok (Some (path_join dir name), tool)
  end.

Definition pg_run_dump (plan : PgDumpPlan) : result Z BackupError * PgWorker :=
  let s := pg_send (mk_pg_worker [] [] []) (PgPhase DumpSchema ("dumping " ++ pg_database plan)%string) in
  match artifact_arg plan with
  | Err e => (Err e, s)
  | Ok (arg, tool) =>
      let cmd := pg_dump_command tool plan arg in
      let s := pg_send s (PgPhase DumpSchema (display str_debug cmd)) in
      match (match pg_format (pg_options plan) with
             | Plain => plain_dump s plan cmd
             | _ => run_and_watch s cmd
             end) with
      | (Err e, s) => (Err e, s)
      | (Ok _, s) =>
          match pg_dumpall plan, globals_path plan with
          | Some all, Some path =>
              match dump_globals s plan all path with
              | (Err e, s) => (Err e, s)
              | (Ok _, s) => (Ok (artifact_size (stat (pg_artifact plan))), s)
              end
          | _, _ => (Ok (artifact_size (stat (pg_artifact plan))), s)
          end
      end
  end.

(** ** The whole backup *)

Variable create_dir : string -> result unit string.
Variable probe : ResolvedTool -> option Version.
Variable sha256_file : string -> result string string.
Variable to_json : EngineBackupOptions -> string.
Variable write_manifest : BackupManifest -> result unit string.
Context `{Calendar}.

Definition names_of (mode : TableMode) (l : list TableSelection) : list string :=
  map sel_name (List.filter (fun s => mode_eqb (sel_mode s) mode) l).

(** What a run leaves: its result, the manifest it wrote, the files it removed, and the
    progress of the job. *)
Record PgOutcome := mk_pg_outcome {
  pgo_result : result string BackupError;
  pgo_manifest : option BackupManifest;
  pgo_removed : list string;
  pgo_commands : list ToolCommand;
  pgo_events : list PgProgress }.

Definition compatibility (client server : option Version) : CompatibilityVerdict :=
  match client, server with
  | Some c, Some s => check_pg_dump_compatibility c s
  | _, _ => CompatOk
  end.

Definition pg_plan (run : BackupRun) (o : PostgresBackupOptions) (dump : ResolvedTool)
    (all : option ResolvedTool) (now : Z) : PgDumpPlan :=
  let c := common (run_request run) in
  let e := run_endpoint run in
  let artifact := path_join (output_dir c) (pg_filename (co_database c) now (pg_format o)) in
  mk_pg_plan dump all (mk_endpoint (rewrite_host (run_tools run) (host e)) (port e) (user e) (password e))
    (co_database c) o (names_of SchemaOnly (selections c)) (names_of Exclude (selections c)) artifact
    (if include_globals o
     then Some (path_join (output_dir c) (pg_filename (co_database c) now (pg_format o) ++ ".globals.sql")%string)
     else None)
    (run_recipients run).

Definition pg_manifest (run : BackupRun) (o : PostgresBackupOptions) (tool_version : option Version)
    (id : Uuid) (created_at size : Z) (filename digest : string) : BackupManifest :=
  let c := common (run_request run) in
  mk_manifest MANIFEST_VERSION id (profile_id (run_profile run)) (profile_name (run_profile run))
    Postgres (run_server_version run) "pg_dump" (version_text tool_version)
    (co_database c) created_at (pg_artifact_format (pg_format o)) (map sel_name (included_tables c))
    (map sel_name (tables_with_data c)) (run_row_counts run) (to_json (engine (run_request run)))
    filename size digest (negb (Nat.eqb (length (run_recipients run)) 0)) (run_recipients run).

(** Hash the artifact, a directory excepted, and describe it. *)
Definition pg_publish (run : BackupRun) (o : PostgresBackupOptions) (plan : PgDumpPlan)
    (tool_version : option Version) (id : Uuid) (created_at size : Z) (filename : string)
    : result BackupManifest BackupError :=
  let? digest := (match pg_format o with
                  | Directory => Ok ""
                  | _ => io_error "could not hash the artifact: " (sha256_file (pg_artifact plan))
                  end) in
  let m := pg_manifest run o tool_version id created_at size filename digest in
  let? _ := io_error "could not write the manifest: " (write_manifest m) in
  Ok m.

Definition run_postgres_backup (run : BackupRun) (id : Uuid) (now created_at : Z)
    (cancelled_at_end : bool) : PgOutcome :=
  let stop e events := mk_pg_outcome (Err e) None [] [] events in
  let c := common (run_request run) in
  let overrides := tool_overrides (run_profile run) in
  match backup_validate (run_request run) (run_profile run) with
  | Err e => stop e []
  | Ok _ =>
      match engine (run_request run) with
      | BMysql _ | BMongo _ =>
          stop (EngineMismatch (profile_engine (run_profile run)) (backup_engine (engine (run_request run)))) []
      | BPostgres o =>
          match resolve PgDump (run_tools run) (t_pg_dump overrides) with
          | None => stop (ToolMissing "pg_dump") []
          | Some dump =>
              let tool_version := probe dump in
              match compatibility tool_version (parse_first (run_server_version run)) with
              | CompatBlocked reason => stop (Invalid (InvalidText reason)) []
              | verdict =>
                  let warned := match verdict with CompatWarn r => [PgWarn Initializing r] | _ => [] end in
                  match io_error "could not create the output directory: " (create_dir (output_dir c)) with
                  | Err e => stop e warned
                  | Ok _ =>
                      let all := if include_globals o
                                 then resolve PgDumpall (run_tools run) (t_pg_dumpall overrides) else None in
                      let missing := if include_globals o && negb (is_some all)
                                     then [PgWarn Initializing "pg_dumpall not found; roles and globals will not be captured"]
                                     else [] in
                      let plan := pg_plan run o dump all now in
                      let init := PgPhase Initializing
                        ("pg_dump " ++ version_text tool_version ++ " (" ++ pg_format_debug (pg_format o)
                         ++ " format) → " ++ pg_artifact plan)%string in
                      let '(r, w) := pg_run_dump plan in
                      let events := warned ++ missing ++ [init] ++ pg_progress w in
                      match r with
                      | Err e =>
                          mk_pg_outcome (Err e) None
                            (pg_removed w ++ [pg_artifact plan] ++ match globals_path plan with Some g => [g] | None => [] end)
                            (pg_started w) events
                      | Ok size =>
                          if cancelled_at_end
                          then mk_pg_outcome (Err BackupCancelled) None (pg_removed w) (pg_started w) events
                          else
                            let events := events ++ match pg_format o with
                                                    | Directory => []
                                                    | _ => [PgPhase Compress "computing checksum"]
                                                    end in
                            match pg_publish run o plan tool_version id created_at size
                                    (pg_filename (co_database c) now (pg_format o)) with
                            | Err e => mk_pg_outcome (Err e) None (pg_removed w) (pg_started w) events
                            | Ok m =>
                                mk_pg_outcome (Ok (pg_artifact plan)) (Some m) (pg_removed w) (pg_started w)
                                  (events ++ [PgPhase Done ("backup complete: " ++ pg_artifact plan ++ " ("
                                     ++ show size ++ " bytes)")%string])
                            end
                      end
                  end
              end
          end
      end
  end.
End Worker.

(** ** Row filters *)

Definition without_filter (s : TableSelection) : TableSelection := mk_sel (sel_name s) (sel_mode s) None.

Definition without_filters (run : BackupRun) : BackupRun :=
  let r := run_request run in
  let c := common r in
  mk_run (run_profile run)
    (mk_backup (mk_common (co_database c) (map without_filter (selections c)) (output_dir c) (compress c)
                  (encrypt c) (record_row_counts c)) (engine r))
    (run_endpoint run) (run_server_version run) (run_recipients run) (run_row_counts run) (run_tools run).

Lemma names_without_filter f l :
  map sel_name (List.filter (fun s => f (sel_mode s)) (map without_filter l))
  = map sel_name (List.filter (fun s => f (sel_mode s)) l).
Proof. induction l as [|s l IH]; simpl; [done|]. destruct (f (sel_mode s)); simpl; by rewrite IH. Qed.

(** PostgreSQL row filters do nothing.  A request that asks for some of the rows
    of its tables is accepted, and its backup - the commands, the artifact, the
    manifest and what the job reports - is that of the request without filters. *)
Theorem postgres_ignores_row_filters `{Host} {W} `{Calendar} (write_all : W -> bytes -> result unit string * W)
    spawn create_file new_sink finish_sink flush_sink sync_all write_globals watched stat str_debug create_dir
    probe sha256_file to_json write_manifest run id now created_at cancelled (o : PostgresBackupOptions) :
  engine (run_request run) = BPostgres o ->
  backup_validate (run_request run) (run_profile run) = Ok tt ->
  let backup r := run_postgres_backup write_all spawn create_file new_sink finish_sink flush_sink sync_all
    write_globals watched stat str_debug create_dir probe sha256_file to_json write_manifest r id now
    created_at cancelled in
  backup run = backup (without_filters run).
Proof.
  intros He Hv backup.
  assert (backup_validate (run_request (without_filters run)) (run_profile run) = Ok tt) as Hv'.
  { unfold backup_validate in *. cbn [run_request without_filters common engine]. rewrite He in *.
    autorewrite with guards in *. simpl in *. destruct Hv as (H1 & H2 & H3 & H4 & H5 & H6 & H7 & H8).
    split_and!; try done.
    - rewrite <- H3. f_equal. unfold included_tables. simpl.
      pose proof (names_without_filter (fun m => negb (mode_eqb m Exclude)) (selections (common (run_request run)))) as Hn.
      apply (f_equal (@length _)) in Hn. by rewrite !length_map in Hn.
    - clear. induction (selections (common (run_request run))) as [|s l IH]; simpl; by constructor. }
  unfold backup, run_postgres_backup. change (run_profile (without_filters run)) with (run_profile run).
  rewrite Hv, Hv'. change (engine (run_request (without_filters run))) with (engine (run_request run)). rewrite He.
  assert (forall dump all, pg_plan (without_filters run) o dump all now = pg_plan run o dump all now) as Hplan.
  { intros dump all. unfold pg_plan, names_of. cbn [run_request without_filters common selections].
    by rewrite !(names_without_filter (fun m => mode_eqb m _)). }
  assert (forall v size f d, pg_manifest to_json (without_filters run) o v id created_at size f d
                             = pg_manifest to_json run o v id created_at size f d) as Hm.
  { intros v size f d. unfold pg_manifest, included_tables, tables_with_data.
    cbn [run_request without_filters common selections].
    by rewrite (names_without_filter (fun m => negb (mode_eqb m Exclude))), (names_without_filter (fun m => mode_eqb m _)). }
  assert (forall plan v size f, pg_publish sha256_file to_json write_manifest (without_filters run) o plan v id
      created_at size f = pg_publish sha256_file to_json write_manifest run o plan v id created_at size f) as Hpub.
  { intros plan v size f. unfold pg_publish. destruct (match pg_format o with Directory => _ | _ => _ end); [|done].
    simpl. by rewrite Hm. }
  cbn [without_filters run_tools run_server_version run_request common output_dir co_database] in *.
  destruct (resolve _ _ _) as [dump|]; [|done]. cbv zeta.
  destruct (compatibility _ _); try done; (destruct (io_error _ (create_dir _)); [|done]);
    rewrite Hplan; (destruct (pg_run_dump _ _ _ _ _ _ _ _ _ _ _ _) as [[size|e] w]; [|done]);
    (destruct cancelled; [done|]); by rewrite Hpub.
Qed.

(** ** A run *)

Module PgSample.
(** A machine that has the PostgreSQL tools, on which [pg_dumpall] cannot be started. *)
Definition machine : Host :=
  {| is_file _ := true; exec_mode _ := true; path_var := Some ["/usr/bin"]; home_var := None;
     Exec.read_dir _ := None |}.

Definition child (out : string) : Child :=
  mk_child (byte_string out) None (Ok (mk_exit true "exit status: 0")) (Some []) false.

Definition server (dumpall : bool) (_ : nat) (cmd : ToolCommand) : result Child ExecError :=
  if ends_with "pg_dumpall" (program cmd) && negb dumpall
  then Err (Spawn (program cmd) "Too many open files (os error 24)") else Ok (child "DATA").

Definition request (globals : bool) : BackupRequest :=
  mk_backup (mk_common "app" [mk_sel "public.orders" SchemaAndData (Some "id > 5"); schema_only "public.logs"] "/out"
    true false false) (BPostgres (mk_postgres Custom true true true [] false None globals [])).

Definition run (globals : bool) : BackupRun :=
  mk_run (sample_profile Postgres Dev) (request globals) (mk_endpoint "db" 5432 "app" (Some "secret")) "16.2" [] ∅ Local.

Definition ok_unit {A} (_ : A) : result unit string := Ok tt.

Definition backup_of (dumpall : bool) (r : BackupRun) : PgOutcome :=
  run_postgres_backup (H := machine) (W := bytes) (fun w s => (Ok tt, w ++ s)) (server dumpall) ok_unit
    (fun _ => Ok []) ok_unit ok_unit ok_unit ok_unit [10; 20] (fun _ => StatFile (Some 20)) (fun s => s) ok_unit
    (fun _ => Some (mk_version 16 2 0)) (fun _ => Ok "digest") (fun _ => "{}") ok_unit r 7%N 0 0 false.
End PgSample.

(** The roles are called supplementary, but not being able to dump them costs
    the backup: when [pg_dumpall] cannot be started, a dump that has succeeded is
    removed and the backup fails. *)
Theorem missing_globals_discard_the_dump :
  pgo_result (PgSample.backup_of true (PgSample.run true)) = Ok "/out/app_19700101_000000.dump"
  /\ pgo_result (PgSample.backup_of false (PgSample.run true))
     = Err (Exec "could not start /usr/bin/pg_dumpall: Too many open files (os error 24)")
  /\ pgo_removed (PgSample.backup_of false (PgSample.run true))
     = ["/out/app_19700101_000000.dump"; "/out/app_19700101_000000.dump.globals.sql"]
  /\ pgo_result (PgSample.backup_of false (PgSample.run false)) = Ok "/out/app_19700101_000000.dump".
Proof. vm_compute. done. Qed.

Lemma sample_accepted :
  backup_validate (run_request (PgSample.run false)) (run_profile (PgSample.run false)) = Ok tt.
Proof. vm_compute. reflexivity. Qed.

Lemma postgres_ignores_row_filters_witness :
  PgSample.backup_of true (PgSample.run false) = PgSample.backup_of true (without_filters (PgSample.run false)).
Proof.
  exact (postgres_ignores_row_filters (H := PgSample.machine) (W := bytes) (fun w s => (Ok tt, w ++ s))
    (PgSample.server true) PgSample.ok_unit (fun _ => Ok []) PgSample.ok_unit PgSample.ok_unit PgSample.ok_unit
    PgSample.ok_unit [10; 20] (fun _ => StatFile (Some 20)) (fun s => s) PgSample.ok_unit
    (fun _ => Some (mk_version 16 2 0)) (fun _ => Ok "digest") (fun _ => "{}") PgSample.ok_unit
    (PgSample.run false) 7%N 0 0 false (mk_postgres Custom true true true [] false None false [])
    eq_refl sample_accepted).
Defined.
