(* ===== verification/BackupMongo.v ===== *)
(** * BackupMongo: dumping a MongoDB database (engine/src/backup/mongo.rs)

    One [mongodump] streaming an archive into the artifact sink.  Its password is
    neither an argument nor a variable but a line of a credentials file, written
    as a quoted scalar; creating that file is an input of the worker, and its
    text is [password_line]. *)

From Stdlib Require Import ZArith Lia Ascii String List Bool.
From stdpp Require Import base list gmap strings.
From S2P Require Import Prelude Text Time Domain Sql Exec Tools Definer BackupMysql Backup Disk Substring.
Import ListNotations.

Open Scope string_scope.
Open Scope list_scope.
Open Scope Z_scope.

(** ** The credentials file *)

(** The escape of one character; those above U+007F are left as their bytes. *)
Definition yaml_char (c : ascii) : string :=
  let x := code c in
  if x =? 92 then String "092" (String "092" "")
  else if x =? 34 then String "092" (String "034" "")
  else if x =? 10 then String "092" "n"
  else if x =? 13 then String "092" "r"
  else if x =? 9 then String "092" "t"
  else if x <? 32 then String "092" (String "x" (String (hex_digit (x / 16)) (String (hex_digit (x mod 16)) "")))
  else String c "".

Fixpoint yaml_chars (s : string) : string :=
  match s with EmptyString => "" | String c r => (yaml_char c ++ yaml_chars r)%string end.

Definition yaml_quote (value : string) : string := (String "034" (yaml_chars value) ++ String "034" "")%string.

Definition password_line (password : string) : string :=
  ("password: " ++ yaml_quote password ++ String newline "")%string.

(** ** Plans and command lines *)

Definition MONGO_AUTH_SOURCE : string := "admin".

Record MongoDumpPlan := mk_mongo_plan {
  mongodump : ResolvedTool;
  mo_endpoint : Endpoint;
  mo_database : string;
  mo_options : MongoBackupOptions;
  mo_excluded : list string;
  mo_compress : bool;
  mo_artifact : string;
  mo_recipients : list string }.

Inductive MongoProgress :=
| MoPhase (phase : JobPhase) (message : string)
| MoWarn (phase : JobPhase) (message : string).

Definition mongo_args (plan : MongoDumpPlan) (config : option string) : list string :=
  let o := mo_options plan in
  let e := mo_endpoint plan in
  [("--host=" ++ host e)%string; ("--port=" ++ show (port e))%string; ("--db=" ++ mo_database plan)%string;
   "--archive"; "--readPreference=primaryPreferred"]
  ++ (if String.eqb (user e) "" then []
      else [("--username=" ++ user e)%string; ("--authenticationDatabase=" ++ MONGO_AUTH_SOURCE)%string])
  ++ match config with Some path => [("--config=" ++ path)%string] | None => [] end
  ++ flag (mo_compress plan) "--gzip"
  ++ flag (oplog o) "--oplog"
  ++ flag (dump_users_and_roles o) "--dumpDbUsersAndRoles"
  ++ match parallel_collections o with
     | Some n => [("--numParallelCollections=" ++ show n)%string]
     | None => []
     end
  ++ map (String.append "--excludeCollection=") (mo_excluded plan)
  ++ mo_extra_flags o.

Definition mongo_command `{Host} (tool : ResolvedTool) (plan : MongoDumpPlan) (config : option string) : ToolCommand :=
  add_args (command tool) (mongo_args plan config).

Definition mongo_suffix (compress : bool) (recipients : list string) : string :=
  match compress, recipients with
  | true, [] => "archive.gz"
  | true, _ => "archive.gz.age"
  | false, [] => "archive"
  | false, _ => "archive.age"
  end.

Definition mongo_filename `{Calendar} (database : string) (now : Z) (compress : bool) (recipients : list string) : string :=
  (database ++ "_" ++ utc_stamp now ++ "." ++ mongo_suffix compress recipients)%string.

(** ** The worker *)

Section Worker.
Context `{Host} {W : Type}.
Variable write_all : W -> bytes -> result unit string * W.
Variable spawn : ToolCommand -> result Child ExecError.
Variable create_file : string -> result unit string.
Variable new_sink : list string -> result W string.
Variable metadata_len : W -> result Z string.
Variable finish_sink flush_sink sync_all : W -> result unit string.
Variable credentials_file : string -> result string string.
Variable str_debug : string -> string.

Definition notice (line : string) : list MongoProgress :=
  if contains "Failed:" line || contains "error:" line
  then [MoWarn DumpData ("mongodump: " ++ line)%string] else [].

(** The path of the credentials file, kept until the child has exited. *)
Definition credentials (plan : MongoDumpPlan) : result (option string) BackupError :=
  match password (mo_endpoint plan) with
  | Some pw => let? path := map_err (credentials_file (password_line pw)) Io in Ok (Some path)
  | None => Ok None
  end.

Definition mount_config (plan : MongoDumpPlan) (file : option string)
    : result (option string * ResolvedTool) BackupError :=
  match file with
  | Some path =>
      let? (p, tool) := map_err (mount (mongodump plan) path ReadOnly) (fun e => Io (mount_error_text e)) in
      Ok (Some p, tool)
  | None => Ok (None, mongodump plan)
  end.

Definition mongo_prepare (plan : MongoDumpPlan) : result (W * ToolCommand) BackupError :=
  let? _ := io_error "could not create the artifact: " (create_file (mo_artifact plan)) in
  let? w := map_err (new_sink (mo_recipients plan)) Io in
  let? file := credentials plan in
  let? (config, tool) := mount_config plan file in
  Ok (w, mongo_command tool plan config).

(** What happened to the stream goes before how the child exited. *)
Definition mongo_stream (w : W) (cmd : ToolCommand) (c : Child) : result (W * list MongoProgress) BackupError :=
  let '(copied, w) := copy write_all w c in
  let waited := wait_checked (program cmd) (exit c) (stderr c) (token_set c) in
  let? _ := io_error "streaming the archive failed: " copied in
  let? notices := map_err waited exec_error_to_backup in
  Ok (w, flat_map notice notices).

Definition mongo_run_dump (plan : MongoDumpPlan) : result Z BackupError * list MongoProgress :=
  match mongo_prepare plan with
  | Err e => (Err e, [])
  | Ok (w, cmd) =>
      let sent := [MoPhase DumpData (display str_debug cmd)] in
      match map_err (spawn cmd) (fun e => Exec (exec_error_text e)) with
      | Err e => (Err e, sent)
      | Ok c =>
          match mongo_stream w cmd c with
          | Err e => (Err e, sent)
          | Ok (w, notices) => (finish_dump metadata_len finish_sink flush_sink sync_all w, sent ++ notices)
          end
      end
  end.

(** ** The whole backup *)

Variable create_dir : string -> result unit string.
Variable probe : ResolvedTool -> option Version.
Variable sha256_file : string -> result string string.
Variable to_json : EngineBackupOptions -> string.
Variable write_manifest : BackupManifest -> result unit string.
Context `{Calendar}.

Record MongoOutcome := mk_mongo_outcome {
  moo_result : result string BackupError;
  moo_manifest : option BackupManifest;
  moo_removed : bool;
  moo_events : list MongoProgress }.

Definition mongo_plan (run : BackupRun) (o : MongoBackupOptions) (tool : ResolvedTool) (now : Z) : MongoDumpPlan :=
  let c := common (run_request run) in
  let e := run_endpoint run in
  mk_mongo_plan tool
    (mk_endpoint (rewrite_host (run_tools run) (host e)) (port e) (user e) (password e))
    (co_database c) o (map sel_name (List.filter (fun s => mode_eqb (sel_mode s) Exclude) (selections c)))
    (compress c)
    (path_join (output_dir c) (mongo_filename (co_database c) now (compress c) (run_recipients run)))
    (run_recipients run).

Definition mongo_manifest (run : BackupRun) (tool_version : option Version) (id : Uuid)
    (created_at size : Z) (filename digest : string) : BackupManifest :=
  let c := common (run_request run) in
  let included := map sel_name (included_tables c) in
  mk_manifest MANIFEST_VERSION id (profile_id (run_profile run)) (profile_name (run_profile run))
    Mongo (run_server_version run) "mongodump" (version_text tool_version)
    (co_database c) created_at MongoArchive included included (run_row_counts run)
    (to_json (engine (run_request run))) filename size digest
    (negb (Nat.eqb (length (run_recipients run)) 0)) (run_recipients run).

Definition mongo_publish (run : BackupRun) (plan : MongoDumpPlan) (v : option Version) (id : Uuid)
    (created_at size : Z) (filename : string) : result BackupManifest BackupError :=
  let? digest := io_error "could not hash the artifact: " (sha256_file (mo_artifact plan)) in
  let m := mongo_manifest run v id created_at size filename digest in
  let? _ := io_error "could not write the manifest: " (write_manifest m) in
  Ok m.

Definition inconsistent_text : string :=
  "this dump is consistent within each collection but not across them. Turn on oplog capture (needs a replica set) for a point-in-time copy.".

(** What is said before anything is touched. *)
Definition mongo_opening (run : BackupRun) (o : MongoBackupOptions) (v : option Version) : list MongoProgress :=
  match v, parse_first (run_server_version run) with
  | Some c, Some s =>
      match check_mongodump_compatibility c s with CompatWarn m => [MoWarn Initializing m] | _ => [] end
  | _, _ => []
  end
  ++ [MoPhase Initializing ("mongodump " ++ version_text v ++ " → " ++ output_dir (common (run_request run)))%string]
  ++ (if oplog o then [] else [MoWarn Initializing inconsistent_text]).

Definition run_mongo_backup (run : BackupRun) (id : Uuid) (now created_at : Z) (cancelled_at_end : bool)
    : MongoOutcome :=
  let c := common (run_request run) in
  let stop e events := mk_mongo_outcome (Err e) None false events in
  match backup_validate (run_request run) (run_profile run) with
  | Err e => stop e []
  | Ok _ =>
      match engine (run_request run) with
      | BMysql _ | BPostgres _ =>
          stop (EngineMismatch (profile_engine (run_profile run)) (backup_engine (engine (run_request run)))) []
      | BMongo o =>
          match resolve Mongodump (run_tools run) (t_mongodump (tool_overrides (run_profile run))) with
          | None => stop (ToolMissing "mongodump") []
          | Some tool =>
              let v := probe tool in
              let opening := mongo_opening run o v in
              match io_error "could not create the output directory: " (create_dir (output_dir c)) with
              | Err e => stop e opening
              | Ok _ =>
                  let plan := mongo_plan run o tool now in
                  let '(r, sent) := mongo_run_dump plan in
                  let events := opening ++ sent in
                  match r with
                  | Err e => mk_mongo_outcome (Err e) None true events
                  | Ok size =>
                      if cancelled_at_end then stop BackupCancelled events
                      else
                        let events := events ++ [MoPhase Compress "computing checksum"] in
                        match mongo_publish run plan v id created_at size
                                (mongo_filename (co_database c) now (compress c) (run_recipients run)) with
                        | Err e => stop e events
                        | Ok m =>
                            mk_mongo_outcome (Ok (mo_artifact plan)) (Some m) false
                              (events ++ [MoPhase Done ("backup complete: " ++ mo_artifact plan ++ " ("
                                 ++ show size ++ " bytes)")%string])
                        end
                  end
              end
          end
      end
  end.
End Worker.

(** ** Reading a quoted scalar

    What a YAML reader makes of a double-quoted scalar on one line: the value and
    what follows the closing quote. *)

Definition prepend (c : ascii) (r : option (string * string)) : option (string * string) :=
  match r with Some (v, rest) => Some (String c v, rest) | None => None end.

Fixpoint yaml_read (s : string) : option (string * string) :=
  match s with
  | EmptyString => None
  | String c r =>
      let x := code c in
      if x =? 34 then Some ("", r)
      else if (x =? 10) || (x =? 13) then None
      else if x =? 92 then
        match r with
        | String e r =>
            let y := code e in
            if y =? 92 then prepend e (yaml_read r)
            else if y =? 34 then prepend e (yaml_read r)
            else if y =? 110 then prepend "010" (yaml_read r)
            else if y =? 114 then prepend "013" (yaml_read r)
            else if y =? 116 then prepend "009" (yaml_read r)
            else if y =? 120 then
              match r with
              | String h (String l r) =>
                  match hex_value h, hex_value l with
                  | Some h, Some l => prepend (chr (16 * h + l)) (yaml_read r)
                  | _, _ => None
                  end
              | _ => None
              end
            else None
        | EmptyString => None
        end
      else prepend c (yaml_read r)
  end.

Definition yaml_scalar (s : string) : option (string * string) :=
  match s with String c r => if code c =? 34 then yaml_read r else None | EmptyString => None end.

Lemma yaml_read_char c s : yaml_read (yaml_char c ++ s) = prepend c (yaml_read s).
Proof. destruct c as [[] [] [] [] [] [] [] []]; reflexivity. Qed.

Lemma yaml_char_one_line c : contains_char newline (yaml_char c) = false /\ contains_char "013" (yaml_char c) = false.
Proof. destruct c as [[] [] [] [] [] [] [] []]; split; reflexivity. Qed.

Lemma yaml_chars_one_line s : contains_char newline (yaml_chars s) = false /\ contains_char "013" (yaml_chars s) = false.
Proof.
  induction s as [|c s [IH1 IH2]]; [done|]. destruct (yaml_char_one_line c) as [H1 H2].
  cbn [yaml_chars]. rewrite !contains_char_app, H1, H2, IH1, IH2. done.
Qed.

Lemma yaml_read_chars s rest : yaml_read (yaml_chars s ++ String "034" rest) = Some (s, rest).
Proof.
  induction s as [|c s IH]; [done|]. cbn [yaml_chars]. by rewrite append_assoc', yaml_read_char, IH.
Qed.

Lemma yaml_quote_one_line s : contains_char newline (yaml_quote s) = false /\ contains_char "013" (yaml_quote s) = false.
Proof.
  destruct (yaml_chars_one_line s) as [H1 H2]. unfold yaml_quote. split; rewrite contains_char_app; simpl.
  - by rewrite H1.
  - by rewrite H2.
Qed.

Lemma strip_cr_none s : contains_char "013" s = false -> strip_cr s = s.
Proof.
  induction s as [|c s IH]; [done|]. cbn [contains_char strip_cr]. intros [Hc Hs]%orb_false_iff.
  rewrite Ascii.eqb_sym in Hc. rewrite Hc, IH by done. by destruct s.
Qed.

(** The lines of a text that is one line. *)
Lemma lines_one s :
  s <> "" -> contains_char newline s = false -> contains_char "013" s = false ->
  lines (s ++ String newline "") = [s].
Proof.
  intros Hs Hn Hc. unfold lines. rewrite split_on_app by done. simpl. by rewrite strip_cr_none.
Qed.

Definition with_mongo_password (plan : MongoDumpPlan) (p : option string) : MongoDumpPlan :=
  let e := mo_endpoint plan in
  mk_mongo_plan (mongodump plan) (mk_endpoint (host e) (port e) (user e) p) (mo_database plan) (mo_options plan)
    (mo_excluded plan) (mo_compress plan) (mo_artifact plan) (mo_recipients plan).

(** A MongoDB password travels in its file and nowhere else.  The file is one
    line, whatever the password holds, and reading the scalar on it gives the
    password back; the command of a dump, with its arguments and environment,
    depends on the path of that file and not on the password. *)
Theorem mongo_password_only_in_its_file `{Host} plan config p :
  lines (password_line p) = ["password: " ++ yaml_quote p]%string
  /\ (forall rest, yaml_scalar (yaml_quote p ++ rest) = Some (p, rest))
  /\ (forall tool, mongo_command tool (with_mongo_password plan (Some p)) config = mongo_command tool plan config
        /\ secret_env (mongo_command tool plan config) = secret_env (command tool)).
Proof.
  split_and!.
  - unfold password_line. rewrite <- append_assoc'. destruct (yaml_quote_one_line p) as [H1 H2].
    apply lines_one; [done|by rewrite contains_char_app, H1|by rewrite contains_char_app, H2].
  - intros rest. unfold yaml_quote. cbn [append yaml_scalar]. rewrite append_assoc'. apply yaml_read_chars.
  - intros tool. done.
Qed.
