(* ===== verification/Library.v ===== *)
(** * Library: artifacts on disk and their manifests (engine/src/library.rs and
      the file operations of engine/src/manifest.rs)

    A manifest lies beside its artifact under the artifact's name with a suffix.
    Listing describes the artifacts of a directory; cleaning up deletes what a
    retention plan selects, manifests with it.  JSON and SHA-256 are parameters:
    printing and parsing a manifest, and a hasher fed piece by piece. *)

From Stdlib Require Import ZArith Lia Ascii String List Bool Permutation Sorted.
From stdpp Require Import base list gmap strings.
From S2P Require Import Prelude Text Time Domain Exec Tools Retention BackupMysql BackupPostgres BackupMongo Disk.
Import ListNotations.

Open Scope string_scope.
Open Scope list_scope.
Open Scope Z_scope.

(** ** Manifest files *)

Definition MANIFEST_SUFFIX : string := ".manifest.json".

Inductive ManifestError :=
| NotFound (path : string)
| MIo (source : string)
| Malformed (source : string)
| UnsupportedVersion (found supported : Z)
| ChecksumMismatch (expected actual : string).

Definition manifest_error_text (e : ManifestError) : string :=
  match e with
  | NotFound p => "manifest not found: " ++ p
  | MIo source => "manifest is unreadable: " ++ source
  | Malformed source => "manifest is malformed: " ++ source
  | UnsupportedVersion found supported =>
      "manifest version " ++ show found ++ " is newer than supported version " ++ show supported
      ++ "; upgrade DBSync Studio"
  | ChecksumMismatch expected actual =>
      "artifact checksum mismatch: manifest says " ++ expected ++ ", file is " ++ actual
  end%string.

Definition path_for (artifact_path : string) : string :=
  with_file_name artifact_path (default "" (file_name artifact_path) ++ MANIFEST_SUFFIX)%string.

(** *** Hashing a file *)

Section Hash.
Context {H : Type}.
Variable hasher_new : H.
Variable hasher_update : H -> string -> H.
Variable finalize : H -> string.

(** The pieces [read] gives until it gives none, and an error if it ends in one. *)
Fixpoint hash_pieces (h : H) (pieces : list (result string string)) : result H string :=
  match pieces with
  | [] => Ok h
  | Ok "" :: _ => Ok h
  | Ok piece :: rest => hash_pieces (hasher_update h piece) rest
  | Err e :: _ => Err e
  end.

Definition sha256_reader (open : result (list (result string string)) string) : result string string :=
  let? pieces := open in
  let? h := hash_pieces hasher_new pieces in
  Ok (finalize h).
End Hash.

(** The library reads the manifest by its JSON and hashes a file's contents. *)
Class Codec := {
  to_json : BackupManifest -> string;
  from_json : string -> result BackupManifest string;
  sha256_of : string -> string }.

Section Manifest.
Context `{Codec}.

(** Hashing what is in the file. *)
Definition sha256_file (d : Disk) (path : string) : result string string :=
  let? text := read_text d path in
  Ok (sha256_of text).

Definition write (d : Disk) (m : BackupManifest) (artifact_path : string) (now : Z) : string * Disk :=
  let path := path_for artifact_path in
  (path, write_file d path (to_json m) now).

Definition read (d : Disk) (artifact_path : string) : result BackupManifest ManifestError :=
  let path := path_for artifact_path in
  let? _ := guard (negb (exists_at d path)) (NotFound path) in
  let? raw := map_err (read_text d path) MIo in
  let? m := map_err (from_json raw) Malformed in
  let? _ := guard (MANIFEST_VERSION <? manifest_version m)
              (UnsupportedVersion (manifest_version m) MANIFEST_VERSION) in
  Ok m.

Definition verify_artifact (d : Disk) (m : BackupManifest) (artifact_path : string)
    : result unit ManifestError :=
  let? actual := map_err (sha256_file d artifact_path) MIo in
  guard (negb (String.eqb actual (sha256 m))) (ChecksumMismatch (sha256 m) actual).

(** ** Listing *)

Record Artifact := mk_artifact {
  a_path : string;
  a_filename : string;
  a_size_bytes : Z;
  a_modified_at : Z;
  a_database : option string;
  a_engine : option Engine;
  a_source_profile_name : option string;
  a_table_count : option Z;
  a_tables_with_data : option Z;
  a_format : option ArtifactFormat;
  a_tables : list string;
  a_source_profile_id : option Uuid;
  has_manifest : bool }.

Definition is_artifact_name (name : string) : bool :=
  negb (ends_with MANIFEST_SUFFIX name) && (ends_with ".sql.gz" name || ends_with ".dump" name).

Definition is_artifact (d : Disk) (path : string) : bool :=
  is_some (file_at d path) && is_artifact_name (default "" (file_name path)).

(** [l.len() as u32]. *)
Definition len_u32 {A} (l : list A) : Z := wrap 32 (Z.of_nat (length l)).

Definition describe (d : Disk) (path : string) : option Artifact :=
  match file_at d path with
  | Some f =>
      match modified f, file_name path with
      | Some at_, Some name =>
          let m := result_ok (read d path) in
          Some (mk_artifact path name (file_size f) at_
                  (option_map manifest_database m) (option_map manifest_engine m)
                  (option_map source_profile_name m)
                  (option_map (fun m => len_u32 (manifest_tables m)) m)
                  (option_map (fun m => len_u32 (manifest_tables_with_data m)) m)
                  (option_map manifest_format m)
                  (default [] (option_map manifest_tables m))
                  (option_map source_profile_id m) (is_some m))
      | _, _ => None
      end
  | None => None
  end.

Definition list_artifacts (d : Disk) (dir : string) : list Artifact :=
  match read_dir d dir with
  | None => []
  | Some entries => sort_desc a_modified_at (omap (describe d) (List.filter (is_artifact d) entries))
  end.

(** ** Integrity *)

Inductive IntegrityCheck :=
| Intact
| Mismatch (expected actual : string)
| NoManifest
| Unreadable (detail : string).

Definition check_integrity (d : Disk) (path : string) : IntegrityCheck :=
  match read d path with
  | Err _ => NoManifest
  | Ok m =>
      match sha256_file d path with
      | Ok actual => if String.eqb actual (sha256 m) then Intact else Mismatch (sha256 m) actual
      | Err e => Unreadable e
      end
  end.

(** ** Cleaning up *)

Definition as_candidate (a : Artifact) : RetentionCandidate :=
  mk_candidate (a_path a) (a_modified_at a) (a_size_bytes a).

Context `{Calendar}.

Definition plan_cleanup (d : Disk) (dir : string) (policy : RetentionPolicy) (now : Z)
    : exec RetentionPlan :=
  plan_retention (map as_candidate (list_artifacts d dir)) policy now.
End Manifest.

Fixpoint remove_all (candidates : list RetentionCandidate) (d : Disk) : list string * Disk :=
  match candidates with
  | [] => ([], d)
  | c :: rest =>
      match remove_file d (path c) with
      | (true, d1) =>
          let '(_, d2) := remove_file d1 (path_for (path c)) in
          let '(removed, d3) := remove_all rest d2 in
          (path c :: removed, d3)
      | (false, d1) => remove_all rest d1
      end
  end.

Definition apply_cleanup (plan : RetentionPlan) (d : Disk) : list string * Disk :=
  remove_all (delete plan) d.

(** ** Analytics

    A size as a floating-point number is the nearest with a 53-bit significand,
    ties to even; halving one is exact.  A rate is left as the difference it
    divides and the seconds it is divided by. *)

Definition as_f64 (n : Z) : Z :=
  let e := Z.log2 n - 52 in
  if e <=? 0 then n
  else
    let q := n / 2 ^ e in
    let r := n mod 2 ^ e in
    let up := (2 ^ (e - 1) <? r) || ((r =? 2 ^ (e - 1)) && Z.odd q) in
    (if up then q + 1 else q) * 2 ^ e.

Definition SHRINK_FLOOR_BYTES : Z := 64 * 1024.

Record SizePoint := mk_point { pt_at : Z; pt_bytes : Z; pt_filename : string }.

Record ShrinkWarning := mk_shrink {
  sh_filename : string;
  sh_at : Z;
  sh_bytes : Z;
  sh_previous_filename : string;
  sh_previous_bytes : Z }.

Record DatabaseStats := mk_dbstats {
  st_database : string;
  st_engine : option Engine;
  st_artifacts : Z;
  st_total_bytes : Z;
  st_newest_bytes : Z;
  st_newest_at : Z;
  st_oldest_at : Z;
  st_series : list SizePoint;
  st_rate : option (Z * Z);
  st_shrinks : list ShrinkWarning }.

Record LibraryStats := mk_libstats {
  total_artifacts : Z;
  total_bytes : Z;
  unattributed : Z;
  unattributed_bytes : Z;
  databases : list DatabaseStats }.

Definition sum_u64 (l : list Z) : Z := fold_left (fun a n => wrap 64 (a + n)) l 0.

(** Less than [SHRINK_RATIO], a half, of the one before. *)
Definition shrank (previous current : Artifact) : bool :=
  negb (a_size_bytes previous <? SHRINK_FLOOR_BYTES)
  && (2 * as_f64 (a_size_bytes current) <? as_f64 (a_size_bytes previous)).

Definition shrink_warning (previous current : Artifact) : ShrinkWarning :=
  mk_shrink (a_filename current) (a_modified_at current) (a_size_bytes current)
    (a_filename previous) (a_size_bytes previous).

Fixpoint shrinks_of (l : list Artifact) : list ShrinkWarning :=
  match l with
  | previous :: ((current :: _) as rest) =>
      (if shrank previous current then [shrink_warning previous current] else []) ++ shrinks_of rest
  | _ => []
  end.

Definition chronological (l : list Artifact) : list Artifact :=
  sort_by (fun a b => a_modified_at a <=? a_modified_at b) l.

Definition rate (oldest newest : Artifact) (n : nat) : option (Z * Z) :=
  let seconds := Z.quot (a_modified_at newest - a_modified_at oldest) ns_per_sec in
  if Nat.ltb 1 n && (0 <? seconds)
  then Some (as_f64 (a_size_bytes newest) - as_f64 (a_size_bytes oldest), seconds) else None.

(** A group is never empty: the code panics on one that is. *)
Definition database_stats (database : string) (group : list Artifact) : exec DatabaseStats :=
  let group := chronological group in
  match head group, last group with
  | Some oldest, Some newest =>
      Val (mk_dbstats database (a_engine newest) (Z.of_nat (length group))
             (sum_u64 (map a_size_bytes group)) (a_size_bytes newest) (a_modified_at newest)
             (a_modified_at oldest)
             (map (fun a => mk_point (a_modified_at a) (a_size_bytes a) (a_filename a)) group)
             (rate oldest newest (length group)) (shrinks_of group))
  | _, _ => Panic
  end.

Definition group_push (m : gmap string (list Artifact)) (a : Artifact) : gmap string (list Artifact) :=
  match a_database a with
  | Some db => <[db := default [] (m !! db) ++ [a]]> m
  | None => m
  end.

Fixpoint all_stats (l : list (string * list Artifact)) : exec (list DatabaseStats) :=
  match l with
  | [] => Val []
  | (db, group) :: rest =>
      match database_stats db group, all_stats rest with
      | Val s, Val more => Val (s :: more)
      | _, _ => Panic
      end
  end.

Definition summarise (artifacts : list Artifact) : exec LibraryStats :=
  let loose := List.filter (fun a => negb (is_some (a_database a))) artifacts in
  match all_stats (entries (fold_left group_push artifacts ∅)) with
  | Panic => Panic
  | Val databases =>
      Val (mk_libstats (Z.of_nat (length artifacts)) (sum_u64 (map a_size_bytes artifacts))
             (Z.of_nat (length loose)) (sum_u64 (map a_size_bytes loose))
             (sort_desc st_total_bytes databases))
  end.

Definition stats `{Codec} (d : Disk) (dir : string) : exec LibraryStats := summarise (list_artifacts d dir).

Definition all_shrinks (s : LibraryStats) : list ShrinkWarning :=
  sort_desc sh_at (flat_map st_shrinks (databases s)).

(** ** Lemmas: paths of a directory *)

(** What [read_dir] gives: single names, none twice. *)
Definition plain (name : string) : Prop :=
  name <> "" /\ name <> "." /\ name <> ".." /\ contains_char "/" name = false.

Definition dir_ok (d : Disk) (dir : string) : Prop :=
  forall names, dirs d !! dir = Some names -> NoDup names /\ Forall plain names.

Lemma plain_no_slash name : plain name -> starts_with "/" name = false.
Proof.
  intros (Hn & _ & _ & Hs). destruct name as [|c name]; [done|]. cbn [contains_char] in Hs.
  apply orb_false_iff in Hs as [Hc _]. unfold starts_with. cbn [strip_prefix].
  by destruct (Ascii.eqb "/" c).
Qed.

Lemma path_join_plain dir name :
  plain name -> exists p, path_join dir name = (p ++ name)%string
    /\ forall other, plain other -> path_join dir other = (p ++ other)%string.
Proof.
  intros Hn. unfold path_join. rewrite (plain_no_slash _ Hn).
  destruct (String.eqb dir ""); [|destruct (ends_with_slash dir)].
  - exists "". split; [done|]. intros o Ho. by rewrite (plain_no_slash _ Ho).
  - exists dir. split; [done|]. intros o Ho. by rewrite (plain_no_slash _ Ho).
  - exists (dir ++ "/")%string. rewrite append_assoc'. split; [done|]. intros o Ho.
    by rewrite (plain_no_slash _ Ho), append_assoc'.
Qed.

Lemma path_join_inj dir a b : plain a -> plain b -> path_join dir a = path_join dir b -> a = b.
Proof.
  intros Ha Hb E. destruct (path_join_plain dir a Ha) as (p & E1 & E2). rewrite E1, (E2 b Hb) in E.
  by apply append_inj_l in E.
Qed.

Lemma ends_with_slash_app dir : ends_with_slash dir = true -> exists p, dir = (p ++ "/")%string.
Proof.
  induction dir as [|c dir IH]; [done|]. simpl. destruct dir as [|c' dir].
  - intros ->%Ascii.eqb_eq. by exists "".
  - intros [p ->]%IH. by exists (String c p).
Qed.

Lemma file_name_join dir name : plain name -> file_name (path_join dir name) = Some name.
Proof.
  intros Hn. pose proof Hn as (H0 & H1 & H2 & Hs).
  assert (exists l, split_on "/" (path_join dir name) = l ++ [name]) as [l E].
  { unfold path_join. rewrite (plain_no_slash _ Hn). destruct (String.eqb dir "") eqn:E0.
    { exists []. by apply split_on_no_sep. }
    destruct (ends_with_slash dir) eqn:E1.
    - apply ends_with_slash_app in E1 as [p ->]. exists (split_on "/" p).
      rewrite append_assoc'. exact (split_on_snoc _ _ _ Hs).
    - exists (split_on "/" dir). exact (split_on_snoc _ _ _ Hs). }
  unfold file_name. rewrite E, List.filter_app, rev_app_distr. simpl.
  apply String.eqb_neq in H0, H1, H2. rewrite H0, H1. simpl. by rewrite H2.
Qed.

Lemma path_for_suffix p : ends_with MANIFEST_SUFFIX (path_for p) = true.
Proof.
  unfold path_for, with_file_name. set (n := (_ ++ MANIFEST_SUFFIX)%string).
  apply ends_with_iff. destruct (proj1 (ends_with_iff _ _) (path_join_ends
    match file_name p with Some _ => parent p | None => p end n)) as [q ->].
  exists (q ++ default "" (file_name p))%string. unfold n. by rewrite append_assoc'.
Qed.

(** An artifact is nobody's manifest. *)
Lemma artifact_not_manifest dir name q :
  plain name -> is_artifact_name name = true -> path_join dir name <> path_for q.
Proof.
  intros Hn Ha E. unfold is_artifact_name in Ha. bools.
  destruct (path_join_plain dir name Hn) as (p & Ep & _).
  assert (ends_with name (path_for q) = true) as H1 by (rewrite <- E, Ep; apply ends_with_app).
  pose proof (path_for_suffix q) as H2.
  destruct (Nat.le_ge_cases (String.length name) (String.length MANIFEST_SUFFIX)) as [Hl|Hl].
  - pose proof (ends_with_both _ _ _ H1 H2 Hl) as Hx.
    apply orb_true_iff in H0 as [H0|H0]; by pose proof (ends_with_trans _ _ _ H0 Hx).
  - pose proof (ends_with_both _ _ _ H2 H1 Hl) as Hx. congruence.
Qed.

(** ** Lemmas: what is listed *)

Section Listed.
Context `{Codec}.

Lemma describe_path d p a :
  describe d p = Some a ->
  a_path a = p /\ file_name p = Some (a_filename a)
  /\ exists f, file_at d p = Some f /\ modified f = Some (a_modified_at a) /\ a_size_bytes a = file_size f.
Proof.
  unfold describe. destruct (file_at d p) as [f|]; [|done]. destruct (modified f) eqn:Em; [|done].
  destruct (file_name p) eqn:En; [|done]. intros [= <-]. simpl. eauto 10.
Qed.

Lemma described_paths d l : NoDup l -> NoDup (map a_path (omap (describe d) l)).
Proof.
  induction 1 as [|p l Hp Hl IH]; simpl; [constructor|]. destruct (describe d p) as [a|] eqn:E; [|done].
  simpl. constructor; [|done]. rewrite list_elem_of_In, in_map_iff. intros (b & Eb & Hb). apply Hp.
  apply list_elem_of_In, list_elem_of_omap in Hb as (q & Hq & Eq).
  apply describe_path in E as [E _], Eq as [Eq _]. congruence.
Qed.

Lemma joined_NoDup dir names : NoDup names -> Forall plain names -> NoDup (map (path_join dir) names).
Proof.
  induction 1 as [|n l Hn Hl IH]; intros Hp; simpl; [constructor|].
  apply Forall_cons in Hp as [Hpn Hpl]. constructor; [|by apply IH].
  rewrite list_elem_of_In, in_map_iff. intros (m & E & Hm). apply Hn.
  apply list_elem_of_In in Hm. rewrite Forall_forall in Hpl.
  by rewrite <- (path_join_inj dir m n (Hpl m Hm) Hpn E).
Qed.

Lemma filter_NoDup {A} (f : A -> bool) l : NoDup l -> NoDup (List.filter f l).
Proof.
  induction 1 as [|x l Hx Hl IH]; simpl; [constructor|]. destruct (f x); [|done]. constructor; [|done].
  rewrite list_elem_of_In, filter_In. intros [Hi _]. by apply Hx, list_elem_of_In.
Qed.

Lemma listed_NoDup d dir : dir_ok d dir -> NoDup (map a_path (list_artifacts d dir)).
Proof.
  intros Hd. unfold list_artifacts, read_dir. destruct (dirs d !! dir) as [names|] eqn:E; [|constructor].
  destruct (Hd _ E) as [Hn Hp]. rewrite (Permutation_map a_path (sort_desc_perm a_modified_at _)).
  by apply described_paths, filter_NoDup, filter_NoDup, joined_NoDup.
Qed.

(** A listed artifact is a file of the directory with an artifact's name. *)
Lemma listed_iff d dir a :
  dir_ok d dir ->
  In a (list_artifacts d dir) <->
  exists names name, dirs d !! dir = Some names /\ In name names /\ is_artifact_name name = true
    /\ describe d (path_join dir name) = Some a.
Proof.
  intros Hd. unfold list_artifacts, read_dir. destruct (dirs d !! dir) as [names|] eqn:E.
  2:{ split; [done|]. by intros (? & ? & [=] & _). }
  destruct (Hd _ E) as [_ Hp]. rewrite Forall_forall in Hp.
  rewrite <- list_elem_of_In, (sort_desc_perm a_modified_at _), list_elem_of_omap. split.
  - intros (p & Hi & Ea). apply list_elem_of_In, filter_In in Hi as [Hi Hart].
    apply filter_In in Hi as [(name & <- & Hi)%in_map_iff _].
    exists names, name. split_and!; [done|done| |done].
    unfold is_artifact in Hart. apply andb_true_iff in Hart as [_ Hart].
    by rewrite file_name_join in Hart by (by apply Hp, list_elem_of_In).
  - intros (? & name & [= <-] & Hi & Hart & Ea). exists (path_join dir name). split; [|done].
    apply list_elem_of_In, filter_In. destruct (describe_path _ _ _ Ea) as (_ & _ & f & Hf & _). split.
    + apply filter_In. split; [by apply in_map|]. unfold exists_at, file_at in *.
      by destruct (nodes d !! path_join dir name).
    + unfold is_artifact. rewrite Hf, file_name_join by (by apply Hp, list_elem_of_In). done.
Qed.

Lemma listed_sorted d dir : desc a_modified_at (list_artifacts d dir).
Proof. unfold list_artifacts. destruct (read_dir d dir); [apply sort_desc_sorted|constructor]. Qed.

Lemma listed_path_for d dir a q : dir_ok d dir -> In a (list_artifacts d dir) -> a_path a <> path_for q.
Proof.
  intros Hd Ha. apply listed_iff in Ha as (names & name & E & Hi & Hart & Ha); [|done].
  apply describe_path in Ha as (-> & _). destruct (Hd _ E) as [_ Hp]. rewrite Forall_forall in Hp.
  by apply artifact_not_manifest; [apply Hp, list_elem_of_In|].
Qed.
End Listed.

(** ** Lemmas: removing *)

Lemma remove_all_spec l : forall d removed d',
  remove_all l d = (removed, d') ->
  (forall p, In p removed -> In p (map path l) /\ nodes d' !! p = None)
  /\ (forall p, nodes d' !! p = nodes d !! p
       \/ nodes d' !! p = None /\ (In p removed \/ exists a, In a removed /\ p = path_for a)).
Proof.
  induction l as [|c l IH]; intros d removed d'; simpl.
  { intros [= <- <-]. split; [by intros p []|by left]. }
  destruct (remove_file d (path c)) as [ok d1] eqn:E1. destruct ok.
  2:{ intros Hr. destruct (IH _ _ _ Hr) as [Ha Hb]. split; [intros p Hp; destruct (Ha p Hp); eauto|].
      assert (d1 = d) as -> by (unfold remove_file in E1; repeat case_match; by injection E1). exact Hb. }
  destruct (remove_file d1 (path_for (path c))) as [ok2 d2] eqn:E2.
  destruct (remove_all l d2) as [rest d3] eqn:E3. intros [= <- <-].
  destruct (IH _ _ _ E3) as [Ha Hb].
  assert (nodes d3 !! path c = None) as Hc.
  { destruct (Hb (path c)) as [Hx|[Hx _]]; [|done]. rewrite Hx.
    destruct (remove_file_at _ _ _ _ (path c) E2) as [Hy|Hy]; rewrite Hy; [|done]. by eapply remove_file_Ok. }
  split.
  - intros p [<-|Hp]; [by split; [left|]|]. destruct (Ha p Hp). by split; [right|].
  - intros p. destruct (Hb p) as [Hp|[Hp Hwhy]].
    + destruct (decide (p = path c)) as [->|Hne]; [right; split; [done|]; left; by left|].
      destruct (decide (p = path_for (path c))) as [->|Hnm].
      * destruct (remove_file_at _ _ _ _ (path_for (path c)) E2) as [Hs|Hs].
        -- left. by rewrite Hp, Hs, (remove_file_lookup _ _ _ _ _ E1 Hne).
        -- right. split; [by rewrite Hp|]. right. exists (path c). by split; [left|].
      * left. by rewrite Hp, (remove_file_lookup _ _ _ _ _ E2 Hnm), (remove_file_lookup _ _ _ _ _ E1 Hne).
    + right. split; [done|]. destruct Hwhy as [Hi|(a & Hi & ->)]; [by left; right|].
      right. exists a. by split; [right|].
Qed.

(** ** Lemmas: what a plan keeps *)

Section Kept.
Context `{Codec} `{Calendar}.

Lemma kept_artifact d dir policy now plan :
  dir_ok d dir -> plan_cleanup d dir policy now = Val plan ->
  forall c, In c (keep plan) ->
  exists a, In a (list_artifacts d dir) /\ a_path a = path c /\ ~ In (path c) (map path (delete plan)).
Proof.
  intros Hd Hp c Hc. assert (NoDup (map path (map as_candidate (list_artifacts d dir)))) as Hnd
    by (rewrite map_map; by apply listed_NoDup).
  pose proof (planned_in _ _ _ _ c Hp (or_introl Hc)) as Hi. apply in_map_iff in Hi as (a & Ec & Ha).
  exists a. subst c. split_and!; [done|done|]. by eapply kept_not_deleted.
Qed.

Lemma newest_kept d dir policy now plan :
  plan_cleanup d dir policy now = Val plan -> list_artifacts d dir <> [] ->
  exists a, In a (list_artifacts d dir)
    /\ (forall b, In b (list_artifacts d dir) -> a_modified_at b <= a_modified_at a)
    /\ exists c, In c (keep plan) /\ path c = a_path a.
Proof.
  intros Hp Hne. destruct (newest_is_kept (map as_candidate (list_artifacts d dir)) policy now plan)
    as (c & Hc & Hmax); [by destruct (list_artifacts d dir)|done|].
  assert (In c (keep plan)) as Hk by (destruct (keep plan); simplify_eq/=; by left).
  assert (In c (map as_candidate (list_artifacts d dir))) as Hi.
  { eapply planned_in; [exact Hp|by left]. }
  apply in_map_iff in Hi as (a & <- & Ha). exists a. split_and!; [done| |by exists (as_candidate a)].
  intros b Hb. apply (Hmax (as_candidate b)). by apply in_map.
Qed.
End Kept.

(** ** Lemmas: the summary *)

Definition sum (l : list Z) : Z := foldr Z.add 0 l.

Lemma sum_u64_mod l : sum_u64 l = sum l mod 2 ^ 64.
Proof.
  unfold sum_u64. assert (forall acc, 0 <= acc < 2 ^ 64 ->
    fold_left (fun a n => wrap 64 (a + n)) l acc = (acc + sum l) mod 2 ^ 64) as Hx; [|by apply Hx].
  induction l as [|n l IH]; intros acc Hacc; cbn [fold_left].
  - unfold sum. simpl. rewrite Z.add_0_r. symmetry. by apply Z.mod_small.
  - unfold wrap at 2. rewrite IH by (apply Z.mod_pos_bound; lia). rewrite Z.add_mod_idemp_l by lia.
    f_equal. unfold sum. cbn [foldr]. lia.
Qed.

Lemma sum_app l l' : sum (l ++ l') = sum l + sum l'.
Proof. unfold sum. induction l as [|n l IH]; cbn [foldr app]; lia. Qed.

#[global] Instance sum_Permutation : Proper (Permutation ==> eq) sum.
Proof. intros l l' Hp. unfold sum. induction Hp; cbn [foldr]; lia. Qed.

Definition of_database (db : string) (a : Artifact) : bool :=
  match a_database a with Some d => String.eqb d db | None => false end.

Lemma groups_lookup l db : forall m,
  fold_left group_push l m !! db =
  match m !! db, List.filter (of_database db) l with
  | None, [] => None
  | g, here => Some (default [] g ++ here)
  end.
Proof.
  induction l as [|a l IH]; intros m; cbn [fold_left List.filter].
  { destruct (m !! db); simpl; by rewrite ?app_nil_r. }
  rewrite IH. unfold group_push. destruct (of_database db a) eqn:Eo; unfold of_database in Eo;
    destruct (a_database a) as [d|]; try done.
  - apply String.eqb_eq in Eo as ->. rewrite lookup_insert_eq.
    destruct (m !! db); simpl; by rewrite <- ?app_assoc.
  - apply String.eqb_neq in Eo. by rewrite lookup_insert_ne.
Qed.

Definition members (m : gmap string (list Artifact)) : list Artifact := concat (map snd (map_to_list m)).

Lemma members_push m db a :
  Permutation (members (<[db := default [] (m !! db) ++ [a]]> m)) (a :: members m).
Proof.
  unfold members. destruct (m !! db) as [g|] eqn:E; simpl.
  - rewrite <- (insert_delete_eq m db), map_to_list_insert by apply lookup_delete_eq. simpl.
    assert (Permutation (map_to_list m) ((db, g) :: map_to_list (base.delete db m))) as ->.
    { rewrite <- (map_to_list_insert _ db g) by apply lookup_delete_eq.
      rewrite insert_delete_eq, insert_id; done. }
    simpl. rewrite <- app_assoc. simpl. by rewrite <- Permutation_middle.
  - rewrite map_to_list_insert by done. done.
Qed.

Lemma groups_members l : forall m,
  Permutation (members (fold_left group_push l m)
                 ++ List.filter (fun a => negb (is_some (a_database a))) l) (members m ++ l).
Proof.
  induction l as [|a l IH]; intros m; simpl; [done|].
  unfold group_push at 2. destruct (a_database a) as [db|]; simpl.
  - rewrite IH, members_push. simpl. apply Permutation_middle.
  - rewrite <- !Permutation_middle. apply Permutation_cons; [done|apply IH].
Qed.

Lemma chronological_perm l : Permutation (chronological l) l.
Proof. apply sort_by_perm. Qed.

(** The statistics of a group, which holds at least one artifact. *)
Record stats_of (db : string) (group : list Artifact) (s : DatabaseStats) : Prop := {
  so_database : st_database s = db;
  so_artifacts : st_artifacts s = Z.of_nat (length group);
  so_total : st_total_bytes s = sum (map a_size_bytes group) mod 2 ^ 64;
  so_series : st_series s = map (fun a => mk_point (a_modified_at a) (a_size_bytes a) (a_filename a))
                              (chronological group);
  so_shrinks : st_shrinks s = shrinks_of (chronological group) }.

Lemma database_stats_spec db group :
  group <> [] -> exists s, database_stats db group = Val s /\ stats_of db group s.
Proof.
  intros Hg. unfold database_stats. pose proof (chronological_perm group) as Hp.
  destruct (chronological group) as [|a l] eqn:E; [by apply Permutation_nil in Hp|].
  destruct (last (a :: l)) as [z|] eqn:El; [|by apply last_None in El].
  eexists. split; [reflexivity|]. split; simpl; try done; rewrite ?E; try done.
  - by rewrite <- (Permutation_length Hp).
  - rewrite sum_u64_mod. f_equal. apply (sum_Permutation (_ :: _)). exact (Permutation_map a_size_bytes Hp).
Qed.

Lemma all_stats_spec l :
  Forall (fun e => e.2 <> []) l ->
  exists ss, all_stats l = Val ss /\ Forall2 (fun e s => stats_of e.1 e.2 s) l ss.
Proof.
  induction 1 as [|[db g] l Hg Hl (ss & E & IH)]; simpl; [by exists []|].
  destruct (database_stats_spec db g Hg) as (s & -> & Hs). rewrite E. exists (s :: ss). by split; [|constructor].
Qed.

Lemma stats_sums l ss :
  Forall2 (fun e s => stats_of e.1 e.2 s) l ss ->
  sum (map st_artifacts ss) = Z.of_nat (length (concat (map snd l)))
  /\ sum (map st_total_bytes ss) mod 2 ^ 64 = sum (map a_size_bytes (concat (map snd l))) mod 2 ^ 64.
Proof.
  induction 1 as [|[db g] s l ss [_ Ha Ht _ _] Hl [IH1 IH2]]; [done|]. simpl in Ha, Ht. cbn [map concat snd].
  rewrite length_app, map_app, sum_app. change (sum (?x :: ?r)) with (x + sum r). split; [lia|].
  rewrite Ht, Z.add_mod_idemp_l by lia. rewrite Z.add_mod, IH2 by lia. by rewrite <- Z.add_mod by lia.
Qed.

(** ** Theorems *)

(** A summary always exists and hides nothing: every artifact is counted once,
    under its database or as unattributed, in number and in bytes; there is an
    entry for exactly the databases the artifacts name, the largest first, whose
    series is that database's artifacts, oldest first, and whose warnings are
    those of each artifact against the one before it. *)
Theorem summary_accounts_for_everything l :
  exists s, summarise l = Val s
  /\ total_artifacts s = Z.of_nat (length l)
  /\ total_artifacts s = unattributed s + sum (map st_artifacts (databases s))
  /\ total_bytes s = (unattributed_bytes s + sum (map st_total_bytes (databases s))) mod 2 ^ 64
  /\ desc st_total_bytes (databases s)
  /\ forall db, (exists a, In a l /\ a_database a = Some db) <->
       exists x, In x (databases s) /\ stats_of db (List.filter (of_database db) l) x.
Proof.
  unfold summarise. set (m := fold_left group_push l ∅).
  assert (forall db, m !! db = match List.filter (of_database db) l with [] => None | here => Some here end) as Hm.
  { intros db. unfold m. rewrite groups_lookup, lookup_empty. by destruct (List.filter _ l). }
  pose proof (groups_members l ∅) as Hperm. fold m in Hperm. unfold members at 2 in Hperm.
  rewrite map_to_list_empty in Hperm. simpl in Hperm.
  assert (Forall (fun e => e.2 <> []) (entries m)) as Hne.
  { rewrite Forall_forall. intros [db g] Hi. apply list_elem_of_In, entries_spec in Hi. simpl.
    rewrite Hm in Hi. intros ->. by destruct (List.filter (of_database db) l). }
  destruct (all_stats_spec _ Hne) as (ss & -> & Hss). eexists. split; [reflexivity|]. simpl.
  pose proof (sort_desc_perm st_total_bytes ss) as Hs.
  destruct (stats_sums _ _ Hss) as [H1 H2].
  assert (Permutation (concat (map snd (entries m))) (members m)) as He.
  { unfold members, entries. by rewrite sort_by_perm. }
  rewrite <- (Permutation_length Hperm), length_app, !(Permutation_map _ Hs), H1, He.
  split_and!; [done|lia| |apply sort_desc_sorted|].
  - rewrite <- Z.add_mod_idemp_r, H2, He, !sum_u64_mod, <- Z.add_mod by lia.
    rewrite <- (Permutation_map a_size_bytes Hperm), map_app, sum_app. f_equal. lia.
  - intros db. transitivity (exists g, m !! db = Some g).
    + rewrite Hm. split.
      * intros (a & Ha & E). destruct (List.filter (of_database db) l) eqn:Ef; [|eauto].
        assert (In a (List.filter (of_database db) l)) as Hi.
        { apply filter_In. split; [done|]. unfold of_database. rewrite E. apply String.eqb_refl. }
        by rewrite Ef in Hi.
      * intros [g Hg]. destruct (List.filter (of_database db) l) as [|a f] eqn:Ef; [done|].
        assert (In a (List.filter (of_database db) l)) as [Hi Hd]%filter_In by (rewrite Ef; by left).
        exists a. split; [done|]. unfold of_database in Hd. destruct (a_database a); [|done].
        by apply String.eqb_eq in Hd as ->.
    + split.
      * intros [g Hg]. pose proof Hg as Hi. apply entries_spec, list_elem_of_In, list_elem_of_lookup in Hi as [i Hi].
        destruct (Forall2_lookup_l _ _ _ _ _ Hss Hi) as (x & Hx & Hst). simpl in Hst.
        rewrite Hm in Hg. exists x. split.
        -- apply (Permutation_in _ (Permutation_sym Hs)), list_elem_of_In. by eapply list_elem_of_lookup_2.
        -- destruct (List.filter (of_database db) l); [done|]. by injection Hg as ->.
      * intros (x & Hx & [Hdb _ _ _ _]). apply (Permutation_in _ Hs), list_elem_of_In, list_elem_of_lookup in Hx as [i Hx].
        destruct (Forall2_lookup_r _ _ _ _ _ Hss Hx) as ([db' g] & Hi & [Hdb' _ _ _ _]). simpl in Hdb'.
        exists g. apply entries_spec, list_elem_of_In. apply list_elem_of_lookup_2 in Hi. by rewrite <- Hdb, Hdb'.
Qed.


(** Cleaning up a folder keeps its newest artifact and every artifact the plan
    keeps, and touches nothing but artifacts the plan deletes and their manifests;
    what it reports as removed is gone. *)
Theorem cleanup_keeps_the_newest `{Codec} `{Calendar} d dir policy now plan removed d' :
  dir_ok d dir -> list_artifacts d dir <> [] ->
  plan_cleanup d dir policy now = Val plan -> apply_cleanup plan d = (removed, d') ->
  (exists a, In a (list_artifacts d dir)
     /\ (forall b, In b (list_artifacts d dir) -> a_modified_at b <= a_modified_at a)
     /\ nodes d' !! a_path a = nodes d !! a_path a)
  /\ (forall c, In c (keep plan) -> nodes d' !! path c = nodes d !! path c)
  /\ (forall p, In p removed -> In p (map path (delete plan)) /\ nodes d' !! p = None)
  /\ (forall p, nodes d' !! p <> nodes d !! p ->
        nodes d' !! p = None /\ (In p removed \/ exists a, In a removed /\ p = path_for a)).
Proof.
  intros Hd Hne Hp Hr. apply remove_all_spec in Hr as [Hr1 Hr2].
  assert (forall c, In c (keep plan) -> nodes d' !! path c = nodes d !! path c) as Hkeep.
  { intros c Hc. destruct (kept_artifact _ _ _ _ _ Hd Hp c Hc) as (a & Ha & Ea & Hdel).
    destruct (Hr2 (path c)) as [?|[_ [Hi|(q & _ & E)]]]; [done| |].
    - destruct (Hr1 _ Hi) as [Hi' _]. by destruct Hdel.
    - rewrite <- Ea in E. by destruct (listed_path_for d dir a q Hd Ha). }
  split_and!; [|exact Hkeep|exact Hr1|].
  - destruct (newest_kept _ _ _ _ _ Hp Hne) as (a & Ha & Hmax & c & Hc & Ec). exists a.
    split_and!; [done|done|]. rewrite <- Ec. by apply Hkeep.
  - intros p Hch. by destruct (Hr2 p) as [?|?].
Qed.

(** *** Manifests *)

Lemma plain_manifest name : plain name -> plain (name ++ MANIFEST_SUFFIX)%string.
Proof.
  intros (_ & _ & _ & Hs). assert (14 <= String.length (name ++ MANIFEST_SUFFIX))%nat as Hl.
  { rewrite length_append. simpl. lia. }
  split_and!; [intros E; rewrite E in Hl; simpl in Hl; lia..|].
  clear -Hs. induction name as [|c name IH]; [done|]. cbn [append contains_char] in *.
  apply orb_false_iff in Hs as [-> Hs]. by apply IH.
Qed.

Lemma path_for_other dir name : plain name -> path_for (path_join dir name) <> path_join dir name.
Proof.
  intros Hn E. apply (f_equal file_name) in E. unfold path_for, with_file_name in E.
  rewrite (file_name_join dir name Hn) in E. simpl in E.
  rewrite file_name_join in E by (by apply plain_manifest). injection E as E.
  apply (f_equal String.length) in E. rewrite length_append in E. simpl in E. lia.
Qed.

(** A manifest written beside an artifact is the one read back, and from then
    on the artifact passes the integrity check exactly while its contents hash to
    what the manifest records; a change of the contents is reported with both
    hashes. *)
Theorem manifest_round_trip `{Codec} d m dir name now f :
  from_json (to_json m) = Ok m -> manifest_version m <= MANIFEST_VERSION -> plain name ->
  file_at d (path_join dir name) = Some f -> read_error f = None ->
  let p := path_join dir name in
  let d' := snd (write d m p now) in
  read d' p = Ok m
  /\ check_integrity d' p = (if String.eqb (sha256_of (content f)) (sha256 m) then Intact
                             else Mismatch (sha256 m) (sha256_of (content f)))
  /\ (verify_artifact d' m p = Ok tt <-> check_integrity d' p = Intact).
Proof.
  intros Hj Hv Hn Hf He p d'. pose proof (path_for_other dir name Hn) as Hne. fold p in Hne.
  assert (read d' p = Ok m) as Hr.
  { unfold read, d', write, write_file, exists_at, read_text. simpl. rewrite lookup_insert_eq. simpl.
    rewrite Hj. simpl. rewrite (proj2 (Z.ltb_ge _ _)) by lia. done. }
  assert (sha256_file d' p = Ok (sha256_of (content f))) as Hs.
  { unfold sha256_file, read_text, d', write, write_file, file_at in *. simpl. rewrite lookup_insert_ne by done.
    fold p in Hf. destruct (nodes d !! p) as [[g|]|]; simplify_eq. by rewrite He. }
  unfold verify_artifact, check_integrity. rewrite Hr, Hs. simpl. split_and!; [done|done|].
  rewrite guard_Ok, negb_false_iff. by destruct (String.eqb (sha256_of (content f)) (sha256 m)).
Qed.

(** *** Names the library does not know *)

Lemma listed_name `{Codec} d dir a : In a (list_artifacts d dir) -> is_artifact_name (a_filename a) = true.
Proof.
  unfold list_artifacts. destruct (Disk.read_dir d dir) as [l|]; [|done]. intros Hi.
  apply (Permutation_in _ (sort_desc_perm a_modified_at _)), list_elem_of_In, list_elem_of_omap in Hi as (p & Hp & E).
  apply list_elem_of_In, filter_In in Hp as [_ Hp]. apply describe_path in E as (_ & En & _).
  unfold is_artifact in Hp. rewrite En in Hp. by apply andb_true_iff in Hp as [_ Hp].
Qed.

(** The name of a backup with a suffix the library does not look for. *)
Lemma unknown_suffix p suffix :
  ends_with ".sql.gz" suffix = false -> ends_with ".dump" suffix = false ->
  (7 <= String.length suffix)%nat -> is_artifact_name (p ++ suffix) = false.
Proof.
  intros H1 H2 Hl. unfold is_artifact_name.
  rewrite (ends_with_tail ".sql.gz" p), (ends_with_tail ".dump" p) by (simpl; lia). rewrite H1, H2. apply andb_false_r.
Qed.

(** The library, and with it drills and retention, sees only two of the kinds of
    artifact the backups write.  An encrypted MySQL backup, a PostgreSQL directory
    and every MongoDB archive is never listed, whatever folder it is in. *)
Theorem other_artifacts_are_invisible `{Codec} `{Calendar} d dir database now :
  let listed := map a_filename (list_artifacts d dir) in
  (forall r rs, ~ In (artifact_name database now (r :: rs)) listed)
  /\ ~ In (pg_filename database now Backup.Directory) listed
  /\ (forall compress rs, ~ In (mongo_filename database now compress rs) listed).
Proof.
  intros listed.
  assert (forall p suffix, ends_with ".sql.gz" suffix = false -> ends_with ".dump" suffix = false ->
    Nat.leb 7 (String.length suffix) = true -> ~ In (p ++ suffix)%string listed) as Hno.
  { intros p suffix H1 H2 Hl%Nat.leb_le (a & Ea & Ha)%in_map_iff. apply listed_name in Ha. rewrite Ea in Ha.
    by rewrite unknown_suffix in Ha. }
  unfold artifact_name, pg_filename, mongo_filename. split_and!.
  - intros r rs. rewrite <- !append_assoc'. by apply Hno.
  - rewrite <- !append_assoc'. by apply Hno.
  - intros compress rs. rewrite <- !append_assoc'. destruct compress, rs; by apply Hno.
Qed.

(** ** A folder of two databases *)

Definition sample_manifest (db : string) : BackupManifest :=
  mk_manifest 1 1 1 "prod" Mysql "8.0" "mysqldump" "8.0" db 0 SqlGz ["t"] ["t"] ∅ "{}" "f" 0 "" false [].

(** A codec that keeps the database only. *)
#[local] Instance toy_codec : Codec := {
  to_json := manifest_database;
  from_json s := Ok (sample_manifest s);
  sha256_of s := s }.

Definition plain_file (text : string) (at_ : Z) : Node := NFile (mk_file text (Some at_) None true).

Definition shared_folder : Disk := {|
  nodes := list_to_map [
    ("/b/shop_1.sql.gz", plain_file "rows" (days 1)); ("/b/shop_1.sql.gz.manifest.json", plain_file "shop" (days 1));
    ("/b/crm_1.sql.gz", plain_file "more rows" (days 2)); ("/b/crm_1.sql.gz.manifest.json", plain_file "crm" (days 2))];
  dirs := {["/b" := ["crm_1.sql.gz"; "crm_1.sql.gz.manifest.json"; "shop_1.sql.gz"; "shop_1.sql.gz.manifest.json"]]} |}.

Definition keep_one : RetentionPolicy := mk_policy (Some 1) None.

Definition cleaned : list string * Disk :=
  match plan_cleanup shared_folder "/b" keep_one (days 3) with
  | Val plan => apply_cleanup plan shared_folder
  | Panic => ([], shared_folder)
  end.

(** One policy covers the folder, not each database in it: keeping the newest
    artifact removes the only backup of another database. *)
Theorem cleanup_may_remove_the_only_backup :
  map a_database (list_artifacts shared_folder "/b") = [Some "crm"; Some "shop"]
  /\ fst cleaned = ["/b/shop_1.sql.gz"]
  /\ map a_database (list_artifacts (snd cleaned) "/b") = [Some "crm"].
Proof. vm_compute. done. Qed.

Lemma shared_folder_ok : dir_ok shared_folder "/b".
Proof.
  intros names [= <-]. split; [by apply (bool_decide_unpack _); vm_compute|].
  repeat constructor; by vm_compute.
Qed.

Definition shared_plan : RetentionPlan :=
  match plan_cleanup shared_folder "/b" keep_one (days 3) with Val p => p | Panic => Retention.mk_plan [] [] 0 end.

Lemma shared_planned : plan_cleanup shared_folder "/b" keep_one (days 3) = Val shared_plan.
Proof. vm_compute. reflexivity. Qed.

Lemma shared_listed : list_artifacts shared_folder "/b" <> [].
Proof. intros E. apply (f_equal (@length _)) in E. by vm_compute in E. Qed.

Lemma cleanup_keeps_the_newest_witness :
  exists a, In a (list_artifacts shared_folder "/b")
    /\ (forall b, In b (list_artifacts shared_folder "/b") -> a_modified_at b <= a_modified_at a)
    /\ nodes (snd (apply_cleanup shared_plan shared_folder)) !! a_path a = nodes shared_folder !! a_path a.
Proof.
  exact (proj1 (cleanup_keeps_the_newest shared_folder "/b" keep_one (days 3) shared_plan _ _
    shared_folder_ok shared_listed shared_planned (surjective_pairing _))).
Defined.

Lemma manifest_round_trip_witness :
  read (snd (write shared_folder (sample_manifest "shop") (path_join "/b" "crm_1.sql.gz") 0))
    (path_join "/b" "crm_1.sql.gz") = Ok (sample_manifest "shop").
Proof.
  refine (proj1 (manifest_round_trip shared_folder (sample_manifest "shop") "/b" "crm_1.sql.gz" 0
    (mk_file "more rows" (Some (days 2)) None true) eq_refl _ _ _ _)); by vm_compute.
Defined.
