(* ===== verification/Destination.v ===== *)
(** * Destination: where the second copy of an artifact goes (engine/src/destination.rs)

    What a destination may be, the keys and URLs of its objects, and the rule that
    only an endpoint on this machine may be reached in the clear - which needs the
    standard library's reading of IP addresses. *)

From Stdlib Require Import ZArith Lia Ascii String List Bool.
From stdpp Require Import base list gmap strings.
From S2P Require Import Prelude Text Time Domain Disk Substring Retention S3Xml S3Sign S3Client S3Protocol Library.
Import ListNotations.

Open Scope string_scope.
Open Scope list_scope.
Open Scope Z_scope.

(** ** IP addresses

    [str::parse::<IpAddr>]: each reader gives what it read and what follows, or
    nothing, leaving the text where it was. *)

Definition to_digit (radix : Z) (c : ascii) : option Z :=
  let d := if is_digit c then Some (code c - 48)
           else if is_lower c then Some (code c - 87)
           else if is_upper c then Some (code c - 55) else None in
  match d with Some v => if v <? radix then Some v else None | None => None end.

(** Digits, their number, their value, and the rest. *)
Fixpoint digit_run (radix acc : Z) (count : nat) (s : string) : Z * nat * string :=
  match s with
  | String c r =>
      match to_digit radix c with
      | Some d => digit_run radix (acc * radix + d) (S count) r
      | None => (acc, count, s)
      end
  | EmptyString => (acc, count, s)
  end.

Definition read_number (radix max : Z) (max_digits : nat) (zero_prefix : bool) (s : string) : option (Z * string) :=
  let '(value, count, rest) := digit_run radix 0 0 s in
  if Nat.ltb max_digits count then None
  else if Nat.eqb count 0 then None
  else if negb zero_prefix && starts_with "0" s && Nat.ltb 1 count then None
  else if value <=? max then Some (value, rest) else None.

(** [read_separator]: the separator comes before every group but the first. *)
Definition after_separator (sep : ascii) (i : nat) (s : string) : option string :=
  if Nat.eqb i 0 then Some s
  else match s with String c r => if Ascii.eqb c sep then Some r else None | EmptyString => None end.

Fixpoint read_octets (n i : nat) (s : string) : option (list Z * string) :=
  match n with
  | O => Some ([], s)
  | S n =>
      match after_separator "." i s with
      | Some r =>
          match read_number 10 255 3 false r with
          | Some (v, r) =>
              match read_octets n (S i) r with
              | Some (l, r) => Some (v :: l, r)
              | None => None
              end
          | None => None
          end
      | None => None
      end
  end.

Definition read_ipv4 (s : string) : option (list Z * string) := read_octets 4 0 s.

(** Groups from number [i] on, [left] at most; and whether the last two were an
    address of version four. *)
Fixpoint read_groups (left i : nat) (s : string) : list Z * bool * string :=
  match left with
  | O => ([], false, s)
  | S left' =>
      let embedded := if Nat.ltb 1 left then
                        match after_separator ":" i s with Some r => read_ipv4 r | None => None end
                      else None in
      match embedded with
      | Some ([a; b; c; d], r) => ([a * 256 + b; c * 256 + d], true, r)
      | _ =>
          match after_separator ":" i s with
          | Some r =>
              match read_number 16 65535 4 true r with
              | Some (g, r) =>
                  let '(l, v4, r) := read_groups left' (S i) r in
                  (g :: l, v4, r)
              | None => ([], false, s)
              end
          | None => ([], false, s)
          end
      end
  end.

Definition read_ipv6 (s : string) : option (list Z * string) :=
  let '(front, v4, r) := read_groups 8 0 s in
  if Nat.eqb (length front) 8 then Some (front, r)
  else if v4 then None
  else match strip_prefix "::" r with
       | Some r =>
           let '(back, _, r) := read_groups (7 - length front) 0 r in
           Some (front ++ repeat 0 (8 - length front - length back) ++ back, r)
       | None => None
       end.

Inductive IpAddr := V4 (octets : list Z) | V6 (groups : list Z).

Definition parse_ip (s : string) : option IpAddr :=
  match (match read_ipv4 s with
         | Some (l, r) => Some (V4 l, r)
         | None => match read_ipv6 s with Some (l, r) => Some (V6 l, r) | None => None end
         end) with
  | Some (ip, r) => if String.eqb r "" then Some ip else None
  | None => None
  end.

Definition ip_is_loopback (ip : IpAddr) : bool :=
  match ip with
  | V4 octets => match octets with a :: _ => a =? 127 | [] => false end
  | V6 groups => bool_decide (groups = [0; 0; 0; 0; 0; 0; 0; 1])
  end.

(** ** Destinations *)

Inductive DestinationError :=
| NoName
| DInvalid (why : string)
| InsecureEndpoint (endpoint : string).

Definition destination_error_text (e : DestinationError) : string :=
  match e with
  | NoName => "a destination needs a name"
  | DInvalid why => why
  | InsecureEndpoint endpoint =>
      endpoint ++ " is a plaintext http:// endpoint on a remote host, so the backup and the "
      ++ "credentials signing it would both cross the network in the clear. Use https://, or "
      ++ "point at a loopback address if this is a local object store"
  end%string.

Record S3Destination := mk_s3 {
  s3_endpoint : string;
  s3_region : string;
  s3_bucket : string;
  s3_prefix : string;
  s3_path_style : bool;
  s3_access_key_id : string }.

Inductive DestinationKind := DS3 (s3 : S3Destination).

Record Destination := mk_destination {
  dst_id : Uuid;
  dst_name : string;
  dst_kind : DestinationKind;
  dst_enabled : bool;
  dst_retention : RetentionPolicy;
  dst_created_at : Z;
  dst_updated_at : Z }.

Record DestinationCreate := mk_dst_create {
  dc_name : string;
  dc_kind : DestinationKind;
  dc_enabled : bool;
  dc_retention : RetentionPolicy }.

Record DestinationUpdate := mk_dst_update {
  du_name : option string;
  du_kind : option DestinationKind;
  du_enabled : option bool;
  du_retention : option RetentionPolicy }.

(** The piece before the first of the separators. *)
Fixpoint until (seps : list ascii) (s : string) : string :=
  match s with
  | EmptyString => ""
  | String c r => if existsb (Ascii.eqb c) seps then "" else String c (until seps r)
  end.

(** [rsplit(c).next()]: what follows the last [c], or all of it. *)
Definition after_last (c : ascii) (s : string) : string := List.last (split_on c s) "".

Definition is_loopback (after_scheme : string) : bool :=
  let authority := after_last "@" (until ["/"; "?"; "#"]%char after_scheme) in
  let host := match strip_prefix "[" authority with
              | Some rest => until ["]"]%char rest
              | None => until [":"]%char authority
              end in
  match parse_ip host with
  | Some ip => ip_is_loopback ip
  | None => eq_ignore_case host "localhost"
  end.

Definition blank (s : string) : bool := String.eqb (trim s) "".

Definition s3_validate (str_debug : string -> string) (d : S3Destination) : result unit DestinationError :=
  let? _ := guard (blank (s3_bucket d)) (DInvalid "a bucket name is required") in
  let? _ := guard (blank (s3_region d))
              (DInvalid "a region is required; use us-east-1 if the provider does not use regions") in
  let? _ := guard (blank (s3_access_key_id d)) (DInvalid "an access key id is required") in
  let endpoint := trim (s3_endpoint d) in
  let? _ := guard (negb (starts_with "http://" endpoint) && negb (starts_with "https://" endpoint))
              (DInvalid ("endpoint " ++ str_debug endpoint ++ " needs a scheme, e.g. https://s3.eu-west-1.amazonaws.com")) in
  guard (match strip_prefix "http://" endpoint with Some rest => negb (is_loopback rest) | None => false end)
    (InsecureEndpoint endpoint).

Definition kind_validate (str_debug : string -> string) (k : DestinationKind) : result unit DestinationError :=
  match k with DS3 s3 => s3_validate str_debug s3 end.

Definition destination_validate (str_debug : string -> string) (d : Destination) : result unit DestinationError :=
  let? _ := guard (blank (dst_name d)) NoName in
  kind_validate str_debug (dst_kind d).

Definition kind_describe (k : DestinationKind) : string :=
  match k with
  | DS3 s3 =>
      let prefix := trim_slashes (s3_prefix s3) in
      if String.eqb prefix "" then ("s3://" ++ s3_bucket s3)%string
      else ("s3://" ++ s3_bucket s3 ++ "/" ++ prefix)%string
  end.

Definition to_config (d : S3Destination) (secret : string) : S3Config :=
  mk_s3_config (trim (s3_endpoint d)) (trim (s3_region d)) (trim (s3_bucket d)) (trim_slashes (s3_prefix d))
    (s3_path_style d) (trim (s3_access_key_id d)) secret.

Definition key_for (d : Destination) (filename : string) : string :=
  match dst_kind d with
  | DS3 s3 =>
      let prefix := trim_slashes (s3_prefix s3) in
      if String.eqb prefix "" then filename else (prefix ++ "/" ++ filename)%string
  end.

Definition object_url (d : Destination) (key : string) : string :=
  match dst_kind d with DS3 s3 => ("s3://" ++ s3_bucket s3 ++ "/" ++ key)%string end.

Definition list_prefix (d : Destination) : string :=
  match dst_kind d with
  | DS3 s3 =>
      let prefix := trim_slashes (s3_prefix s3) in
      if String.eqb prefix "" then "" else (prefix ++ "/")%string
  end.

(** The rule for keys is the one for file names. *)
Definition is_artifact_key (key : string) : bool := is_artifact_name key.

(** ** The rows of the store *)

Inductive StoredError :=
| InvalidDestination (e : DestinationError)
| DestinationDuplicate (name : string)
| DestinationNotFound (id : Uuid).

Section Rows.
Variable str_debug : string -> string.

Definition Rows := gmap Uuid Destination.

Definition taken (rows : Rows) (name : string) (id : Uuid) : bool :=
  existsb (fun r => String.eqb (dst_name (snd r)) name && negb (bool_decide (fst r = id))) (map_to_list rows).

Definition create_destination (rows : Rows) (id : Uuid) (now : Z) (input : DestinationCreate)
    : result Destination StoredError * Rows :=
  let d := mk_destination id (trim (dc_name input)) (dc_kind input) (dc_enabled input) (dc_retention input) now now in
  match destination_validate str_debug d with
  | Err e => (Err (InvalidDestination e), rows)
  | Ok _ => if taken rows (dst_name d) id then (Err (DestinationDuplicate (dst_name d)), rows) else (Ok d, <[id := d]> rows)
  end.

Definition patch_destination (d : Destination) (p : DestinationUpdate) (now : Z) : Destination :=
  mk_destination (dst_id d)
    (match du_name p with Some v => trim v | None => dst_name d end)
    (default (dst_kind d) (du_kind p)) (default (dst_enabled d) (du_enabled p))
    (default (dst_retention d) (du_retention p)) (dst_created_at d) now.

Definition update_destination (rows : Rows) (id : Uuid) (now : Z) (p : DestinationUpdate)
    : result Destination StoredError * Rows :=
  match rows !! id with
  | None => (Err (DestinationNotFound id), rows)
  | Some d =>
      let d := patch_destination d p now in
      match destination_validate str_debug d with
      | Err e => (Err (InvalidDestination e), rows)
      | Ok _ => if taken rows (dst_name d) id then (Err (DestinationDuplicate (dst_name d)), rows) else (Ok d, <[id := d]> rows)
      end
  end.

Definition delete_destination (rows : Rows) (id : Uuid) : bool * Rows :=
  (is_some (rows !! id), base.delete id rows).

Definition list_destinations (rows : Rows) : list Destination :=
  sort_by (fun a b => String.leb (dst_name a) (dst_name b)) (map snd (map_to_list rows)).

Definition list_enabled_destinations (rows : Rows) : list Destination :=
  List.filter dst_enabled (list_destinations rows).

(** What the store lets happen to its rows. *)
Inductive RowStep : Rows -> Rows -> Prop :=
| row_create rows id now input : rows !! id = None -> RowStep rows (snd (create_destination rows id now input))
| row_update rows id now p : RowStep rows (snd (update_destination rows id now p))
| row_delete rows id : RowStep rows (snd (delete_destination rows id)).

Inductive Reachable : Rows -> Prop :=
| reach_empty : Reachable ∅
| reach_step rows rows' : Reachable rows -> RowStep rows rows' -> Reachable rows'.

(** ** Theorems *)

Definition well_formed (rows : Rows) : Prop := forall id d, rows !! id = Some d ->
  dst_id d = id /\ destination_validate str_debug d = Ok tt
  /\ trim (dst_name d) = dst_name d
  /\ (forall id' d', rows !! id' = Some d' -> dst_name d' = dst_name d -> id' = id).

Lemma taken_false rows name id :
  taken rows name id = false <-> forall id' d, rows !! id' = Some d -> dst_name d = name -> id' = id.
Proof.
  unfold taken. rewrite <- not_true_iff_false, existsb_exists. split.
  - intros Hn id' d Hd Hname. destruct (decide (id' = id)) as [->|N]; [done|]. exfalso. apply Hn.
    exists (id', d). split; [by apply list_elem_of_In, elem_of_map_to_list|]. simpl.
    rewrite Hname, String.eqb_refl. by rewrite bool_decide_false.
  - intros Hall ([id' d] & Hin & Hb). simpl in Hb. apply andb_true_iff in Hb as [He%String.eqb_eq Hd].
    apply list_elem_of_In, elem_of_map_to_list in Hin. apply negb_true_iff, bool_decide_eq_false in Hd.
    by apply Hd, (Hall id' d).
Qed.

Lemma well_formed_insert rows id d :
  well_formed rows -> dst_id d = id -> destination_validate str_debug d = Ok tt -> trim (dst_name d) = dst_name d ->
  taken rows (dst_name d) id = false -> well_formed (<[id := d]> rows).
Proof.
  intros Hw Hid Hv Ht Hf id' d' Hd. rewrite taken_false in Hf.
  apply lookup_insert_Some in Hd as [[<- <-]|[N Hd]].
  - split_and!; try done. intros id' d' [[-> _]|[_ Hd']]%lookup_insert_Some Hn; [done|by eapply Hf].
  - destruct (Hw id' d' Hd) as (H1 & H2 & H3 & H4). split_and!; try done.
    intros id'' d'' [[<- <-]|[_ Hd'']]%lookup_insert_Some Hn; [|by eapply H4].
    by apply (Hf id' d') in Hd.
Qed.

Lemma row_step_keeps rows rows' : well_formed rows -> RowStep rows rows' -> well_formed rows'.
Proof.
  intros IH Hs. destruct Hs as [rows id now input Hnew|rows id now p|rows id].
  - unfold create_destination. destruct (destination_validate _ _) as [[]|] eqn:Ev; [|done].
    destruct (taken _ _ _) eqn:Et; [done|]. by apply well_formed_insert; [| | |apply trim_idem|].
  - unfold update_destination. destruct (rows !! id) as [d|] eqn:Ed; [|done].
    destruct (destination_validate _ _) as [[]|] eqn:Ev; [|done].
    destruct (taken _ _ _) eqn:Et; [done|]. destruct (IH id d Ed) as (H1 & _ & H3 & _).
    apply well_formed_insert; try done. simpl. destruct (du_name p); [apply trim_idem|done].
  - unfold delete_destination. cbn [snd]. intros id' d' [N Hd]%lookup_delete_Some. destruct (IH id' d' Hd) as (H1 & H2 & H3 & H4).
    split_and!; try done. intros id'' d'' [_ Hd'']%lookup_delete_Some. by eapply H4.
Qed.

(** C37: in every state the store can reach, each destination kept has a name no other
    one has, without blanks around it, and is one that validation accepts. *)
Theorem stored_destinations_are_valid rows : Reachable rows -> well_formed rows.
Proof. induction 1 as [|rows rows' _ IH Hs]; [by intros id d|by eapply row_step_keeps]. Qed.
End Rows.

(** ** Where a request goes *)

Definition seps : list ascii := ["/"; "?"; "#"]%char.

Definition no_sep (s : string) : bool := all_chars (fun c => negb (existsb (Ascii.eqb c) seps)) s.

Lemma until_app s t : no_sep s = false -> until seps (s ++ t) = until seps s.
Proof.
  unfold no_sep. induction s as [|c s IH]; [done|]. cbn [append until all_chars].
  destruct (existsb (Ascii.eqb c) seps); [done|]. intros Hs. f_equal. by apply IH.
Qed.

Lemma until_all s t : no_sep s = true -> until seps (s ++ t) = (s ++ until seps t)%string.
Proof.
  unfold no_sep. induction s as [|c s IH]; [done|]. cbn [append until all_chars].
  destruct (existsb (Ascii.eqb c) seps); [done|]. intros Hs. f_equal. by apply IH.
Qed.

(** A slash after a text ends its authority as the end of the text does. *)
Lemma until_end s t : until seps (s ++ String "/" t) = until seps s.
Proof.
  destruct (no_sep s) eqn:E; [|by apply until_app].
  rewrite until_all by done. rewrite <- (append_nil_r s) at 2. by rewrite until_all.
Qed.

Lemma is_loopback_until s t : until seps s = until seps t -> is_loopback s = is_loopback t.
Proof. unfold is_loopback, seps. by intros ->. Qed.

Lemma trim_end_slashes s : exists k, s = (trim_end_matches "/" s ++ k)%string /\ all_chars (Ascii.eqb "/") k = true.
Proof.
  induction s as [|c s (k & E & Hk)]; [by exists ""|]. cbn [trim_end_matches].
  destruct (trim_end_matches "/" s) as [|d t] eqn:Et.
  - destruct (Ascii.eqb_spec c "/") as [->|N].
    + exists (String "/" k). simpl in E. rewrite E. split; [done|]. exact Hk.
    + exists k. by rewrite E at 1.
  - exists k. by rewrite E at 1.
Qed.

(** Trailing slashes say nothing of the host. *)
Lemma loopback_trim s t : is_loopback (trim_end_matches "/" s ++ String "/" t) = is_loopback s.
Proof.
  apply is_loopback_until. rewrite until_end.
  destruct (trim_end_slashes s) as (k & E & Hk). rewrite E at 2.
  destruct k as [|c k]; [by rewrite append_nil_r|]. cbn [all_chars] in Hk. apply andb_true_iff in Hk as [Hc _].
  apply Ascii.eqb_eq in Hc as <-. by rewrite until_end.
Qed.

Lemma cut_scheme t : cut "://" ("http://" ++ t) = Some ("http", t).
Proof. done. Qed.

Lemma trim_end_app c s t : trim_end_matches c t <> "" -> trim_end_matches c (s ++ t) = (s ++ trim_end_matches c t)%string.
Proof.
  intros Ht. induction s as [|d s IH]; [done|]. cbn [append trim_end_matches]. rewrite IH.
  destruct (s ++ trim_end_matches c t)%string eqn:E; [|done].
  destruct s; [by cbn [append] in E|done].
Qed.

Lemma loopback_not_blank rest : is_loopback rest = true -> trim_end_matches "/" rest <> "".
Proof.
  intros Hl E. rewrite <- (loopback_trim rest "") in Hl. by rewrite E in Hl.
Qed.

Lemma http_or_https d str_debug : s3_validate str_debug d = Ok tt ->
  (exists rest, trim (s3_endpoint d) = ("http://" ++ rest)%string /\ is_loopback rest = true)
  \/ starts_with "https://" (trim (s3_endpoint d)) = true.
Proof.
  unfold s3_validate. rewrite !unit_bind, !guard_Ok. intros (_ & _ & _ & Hs & Hp).
  destruct (starts_with "https://" (trim (s3_endpoint d))) eqn:E; [by right|left].
  rewrite andb_true_r in Hs. apply negb_false_iff, starts_with_iff in Hs as [rest Er].
  exists rest. split; [done|]. rewrite Er, strip_prefix_app in Hp. by apply negb_false_iff.
Qed.

Lemma https_scheme e path query c :
  endpoint c = e -> path_style c = true -> starts_with "https://" e = true ->
  exists rest, url c path query = ("https://" ++ rest)%string.
Proof.
  intros He Hs Hp. apply starts_with_iff in Hp as [t Et]. unfold url. rewrite He, Hs, Et.
  destruct (trim_end_matches "/" t) as [|x r] eqn:E.
  - assert (trim_end_matches "/" ("https://" ++ t) = "https:") as -> by (cbn; rewrite E; done).
    cbn. destruct (String.eqb query ""); by eexists.
  - rewrite trim_end_app by (by rewrite E). rewrite E.
    change (scheme_split ("https://" ++ String x r)) with (Some ("https", String x r)).
    cbn [default from_option]. destruct (String.eqb query ""); by eexists.
Qed.

(** With path-style addressing, whatever is asked of an accepted destination goes
    out encrypted, or to this machine. *)
Theorem plaintext_stays_on_the_machine `{Crypto} `{Calendar} str_debug d secret r t :
  s3_validate str_debug d = Ok tt -> s3_path_style d = true ->
  exists rest, http_url (signed_request (to_config d secret) r t) = ("https://" ++ rest)%string
               \/ http_url (signed_request (to_config d secret) r t) = ("http://" ++ rest)%string
                  /\ is_loopback rest = true.
Proof.
  intros Hv Hp. unfold signed_request.
  destruct (address (to_config d secret) (rq_key r)) as [host path] eqn:Ea. cbn [http_url].
  destruct (http_or_https d str_debug Hv) as [(rest & Er & Hl)|Hs].
  - assert (exists more, path = String "/" more) as [more ->].
    { unfold address in Ea. cbn [path_style to_config] in Ea. rewrite Hp in Ea. injection Ea as _ <-. by eexists. }
    pose proof (loopback_not_blank rest Hl) as Hne.
    unfold url. cbn [endpoint path_style to_config]. rewrite Hp, Er, trim_end_app by done.
    change (scheme_split ("http://" ++ trim_end_matches "/" rest)) with (Some ("http", trim_end_matches "/" rest)).
    cbn [default from_option]. destruct (String.eqb (rq_query r) "").
    + exists (trim_end_matches "/" rest ++ String "/" more)%string. right. split; [done|]. by rewrite loopback_trim.
    + exists (trim_end_matches "/" rest ++ String "/" (more ++ "?" ++ rq_query r))%string. right. split; [done|].
      by rewrite loopback_trim.
  - destruct (https_scheme (trim (s3_endpoint d)) path (rq_query r) (to_config d secret)) as [rest E]; [done..|].
    exists rest. by left.
Qed.

Definition local_store : S3Destination :=
  mk_s3 "http://127.0.0.1:9000/" "eu-west-1" "backups" "prod" true "AK".

(** The same store addressed by virtual host, with a bucket that is not one label. *)
Definition remote_bucket : S3Destination :=
  mk_s3 "http://127.0.0.1:9000" "eu-west-1" "evil.example/x" "" false "AK".

(** The rule looks at the endpoint and not at what the bucket makes of it: an
    accepted destination can send a backup and its signature in the clear to another
    machine. *)
Theorem plaintext_can_leave_the_machine `{Crypto} `{Calendar} t :
  s3_validate (fun s => s) remote_bucket = Ok tt
  /\ http_url (signed_request (to_config remote_bucket "secret") (new_request "uploading" "PUT" "shop.sql.gz") t)
     = "http://evil.example/x.127.0.0.1:9000/shop.sql.gz"
  /\ is_loopback "evil.example/x.127.0.0.1:9000/shop.sql.gz" = false.
Proof. split_and!; [by vm_compute|reflexivity|by vm_compute]. Qed.

Lemma plaintext_stays_on_the_machine_witness :
  exists rest,
    http_url (signed_request (H := toy_crypto) (H0 := gregorian) (to_config local_store "secret") (new_request "uploading" "PUT" "shop.sql.gz") 0)
      = ("https://" ++ rest)%string
    \/ http_url (signed_request (H := toy_crypto) (H0 := gregorian) (to_config local_store "secret") (new_request "uploading" "PUT" "shop.sql.gz") 0)
      = ("http://" ++ rest)%string /\ is_loopback rest = true.
Proof.
  exact (@plaintext_stays_on_the_machine toy_crypto gregorian (fun s => s) local_store "secret"
    (new_request "uploading" "PUT" "shop.sql.gz") 0 eq_refl eq_refl).
Defined.

Definition nas : DestinationCreate := mk_dst_create "  nas " (DS3 local_store) true (mk_policy None None).

Definition one_row : Rows := snd (create_destination (fun s => s) ∅ 1%N 0 nas).

Definition two_rows : Rows :=
  snd (create_destination (fun s => s) one_row 2%N 0 (mk_dst_create "nas 2" (DS3 local_store) false (mk_policy None None))).

Lemma two_rows_reachable : Reachable (fun s => s) two_rows.
Proof.
  apply reach_step with one_row; [apply reach_step with ∅; [constructor|]|]; apply row_create; by vm_compute.
Qed.

Lemma stored_destinations_are_valid_witness :
  map dst_name (list_destinations two_rows) = ["nas"; "nas 2"] /\ well_formed (fun s => s) two_rows.
Proof.
  split; [vm_compute; reflexivity|]. exact (stored_destinations_are_valid (fun s => s) two_rows two_rows_reachable).
Defined.
