(* ===== verification/Vault.v ===== *)
(** * Vault: the keychain, the settings and the backup key
      (engine/src/secrets.rs, settings.rs, backupkey.rs)

    The keychain belongs to the machine and the settings to a store; a call to either
    may fail.  The backup key has its secret half in the one and its public half,
    with whether it was exported, in the other. *)

From Stdlib Require Import ZArith Lia Ascii String List Bool.
From stdpp Require Import base list gmap strings.
From S2P Require Import Prelude Text Domain Disk Substring Tools.
Import ListNotations.

Open Scope string_scope.
Open Scope list_scope.

(** ** Secrets *)

Inductive SecretKind := DbPassword | SshKeyPassphrase | BackupKey | ObjectStoreSecret.

Definition suffix (k : SecretKind) : string :=
  match k with
  | DbPassword => "db" | SshKeyPassphrase => "ssh" | BackupKey => "backup-key" | ObjectStoreSecret => "object-store"
  end.

Definition APP_SCOPE : Uuid := 0%N.

(** The override is honoured in builds with debug assertions only. *)
Definition app_scope (debug : bool) (override : option string) (parse_uuid : string -> option Uuid) : Uuid :=
  if debug then
    match override with
    | Some raw => default APP_SCOPE (parse_uuid raw)
    | None => APP_SCOPE
    end
  else APP_SCOPE.

(** The keychain, the settings of the store, and which of the next calls fail. *)
Record Vault := mk_vault {
  keychain : gmap string string;
  settings : gmap string string;
  faults : list bool }.

Inductive KeyError :=
| KeyCrypto (why : string)
| KeySecrets
| KeyStore
| NotExported
| Missing
| KeyMismatch (stored : string).

Definition key_error_text (e : KeyError) : string :=
  match e with
  | KeyCrypto why => why
  | KeySecrets => "keychain unavailable"
  | KeyStore => "store error"
  | NotExported =>
      "the backup key has not been exported yet. Export it and store it somewhere safe before "
      ++ "taking an encrypted backup — if this machine's keychain is lost, an artifact encrypted "
      ++ "to a key you do not have a copy of can never be read again"
  | Missing =>
      "no backup key exists on this machine, but this artifact is encrypted. Import the key it "
      ++ "was encrypted to, or restore from an unencrypted backup"
  | KeyMismatch stored =>
      "the stored public key does not match the key in the keychain. One of them was replaced "
      ++ "out from under the other; artifacts encrypted to " ++ stored ++ " need that key back"
  end%string.

Definition V (A : Type) : Type := Vault -> result A KeyError * Vault.

Definition vret {A} (a : A) : V A := fun v => (Ok a, v).
Definition vfail {A} (e : KeyError) : V A := fun v => (Err e, v).
Definition vbind {A B} (m : V A) (k : A -> V B) : V B := fun v =>
  match m v with
  | (Ok a, v) => k a v
  | (Err e, v) => (Err e, v)
  end.

Notation "'let^' x ':=' e 'in' k" := (vbind e (fun x => k))
  (at level 10, x pattern, e at level 100, k at level 200).

(** A call: it fails when the next fault says so, and changes nothing then. *)
Definition call {A} (e : KeyError) (f : Vault -> A * Vault) : V A := fun v =>
  match faults v with
  | true :: rest => (Err e, mk_vault (keychain v) (settings v) rest)
  | _ =>
      let '(a, v') := f v in
      (Ok a, mk_vault (keychain v') (settings v') (tail (faults v)))
  end.

Section Secrets.
Variable uuid_text : Uuid -> string.

Definition account (id : Uuid) (k : SecretKind) : string := (uuid_text id ++ "#" ++ suffix k)%string.

Definition with_keychain (v : Vault) (m : gmap string string) : Vault := mk_vault m (settings v) (faults v).
Definition with_settings (v : Vault) (m : gmap string string) : Vault := mk_vault (keychain v) m (faults v).

(** An empty value deletes the entry. *)
Definition set_secret (id : Uuid) (k : SecretKind) (value : string) : V unit :=
  call KeySecrets (fun v =>
    (tt, with_keychain v (if String.eqb value "" then base.delete (account id k) (keychain v)
                          else <[account id k := value]> (keychain v)))).

Definition get_secret (id : Uuid) (k : SecretKind) : V (option string) :=
  call KeySecrets (fun v => (keychain v !! account id k, v)).

Definition has_secret (id : Uuid) (k : SecretKind) : V bool :=
  let^ s := get_secret id k in vret (is_some s).

Definition delete_all_for_profile (id : Uuid) : V unit :=
  let^ _ := call KeySecrets (fun v => (tt, with_keychain v (base.delete (account id DbPassword) (keychain v)))) in
  call KeySecrets (fun v => (tt, with_keychain v (base.delete (account id SshKeyPassphrase) (keychain v)))).

Definition delete_for_destination (id : Uuid) : V unit := set_secret id ObjectStoreSecret "".

(** ** Settings *)

Definition parse_flag (raw : option string) (dflt : bool) : bool :=
  match raw with
  | Some s =>
      if String.eqb s "true" || String.eqb s "1" then true
      else if String.eqb s "false" || String.eqb s "0" then false
      else dflt
  | None => dflt
  end.

Definition flag_str (value : bool) : string := if value then "true" else "false".

Definition parse_tool_source (from_json : string -> option ToolSource) (raw : option string) : ToolSource :=
  match raw with Some s => default Local (from_json s) | None => Local end.

Definition get_setting (key : string) : V (option string) := call KeyStore (fun v => (settings v !! key, v)).
Definition set_setting (key value : string) : V unit :=
  call KeyStore (fun v => (tt, with_settings v (<[key := value]> (settings v)))).
Definition set_flag (key : string) (value : bool) : V unit := set_setting key (flag_str value).

(** ** The backup key *)

Definition PUBLIC_KEY : string := "backup_key_public".
Definition KEY_EXPORTED : string := "backup_key_exported".
Definition EXTRA_RECIPIENTS : string := "backup_key_extra_recipients".

Record KeyStatus := mk_status {
  ks_exists : bool;
  ks_public : option string;
  ks_exported : bool;
  ks_extra : list string }.

Variable scope_id : Uuid.
Variable public_from_identity : string -> result string string.
Variable parse_recipient : string -> result unit string.

Definition recipient_lines (raw : string) : list string :=
  List.filter (fun l => negb (String.eqb l "")) (map trim (lines raw)).

Definition extra_recipients : V (list string) :=
  let^ raw := get_setting EXTRA_RECIPIENTS in
  vret (default [] (option_map recipient_lines raw)).

Definition status : V KeyStatus :=
  let^ public := get_setting PUBLIC_KEY in
  let^ flag := get_setting KEY_EXPORTED in
  let exported := parse_flag flag false in
  let^ exists_ := (if is_some public then has_secret scope_id BackupKey else vret false) in
  let^ extra := extra_recipients in
  vret (mk_status exists_ public exported extra).

(** [generated] is what generating an identity gives: its secret and public halves. *)
Definition ensure_exists (generated : string * string) : V KeyStatus :=
  let^ current := status in
  if ks_exists current then vret current
  else
    let^ _ := set_secret scope_id BackupKey (fst generated) in
    let^ _ := set_setting PUBLIC_KEY (snd generated) in
    let^ _ := set_flag KEY_EXPORTED false in
    status.

Definition of_result {A} (r : result A string) : V A := fun v => (map_err r KeyCrypto, v).

Definition export : V string :=
  let^ found := get_secret scope_id BackupKey in
  let^ secret := (match found with Some s => vret s | None => vfail Missing end) in
  let^ derived := of_result (public_from_identity secret) in
  let^ stored := get_setting PUBLIC_KEY in
  let^ _ := (match stored with
             | Some s => if String.eqb s derived then vret tt else vfail (KeyMismatch s)
             | None => vret tt
             end) in
  let^ _ := set_flag KEY_EXPORTED true in
  vret secret.

Definition import (secret : string) : V KeyStatus :=
  let secret := trim secret in
  let^ public := of_result (public_from_identity secret) in
  let^ _ := set_secret scope_id BackupKey secret in
  let^ _ := set_setting PUBLIC_KEY public in
  let^ _ := set_flag KEY_EXPORTED true in
  status.

Fixpoint check_recipients (keys : list string) : result unit string :=
  match keys with
  | [] => Ok tt
  | k :: rest => let? _ := parse_recipient k in check_recipients rest
  end.

Definition set_extra_recipients (keys : list string) : V unit :=
  let^ _ := of_result (check_recipients keys) in
  set_setting EXTRA_RECIPIENTS (join (String newline "") keys).

Definition recipients : V (list string) :=
  let^ st := status in
  match ks_public st with
  | Some own => vret (own :: ks_extra st)
  | None => vfail Missing
  end.

Definition ensure_ready_for_encryption (generated : string * string) : V (list string) :=
  let^ st := ensure_exists generated in
  if ks_exported st then recipients else vfail NotExported.

Definition identity : V string :=
  let^ found := get_secret scope_id BackupKey in
  match found with Some s => vret s | None => vfail Missing end.
End Secrets.

(** ** A store and the machine's keychain over time

    What has been in somebody's hands is kept beside the vault: keys exported to
    them, and keys they brought. *)

Section Escrow.
Variable uuid_text : Uuid -> string.
Variable scope_id : Uuid.
Variable public_from_identity : string -> result string string.
Variable parse_recipient : string -> result unit string.

Abbreviation acct := (account uuid_text scope_id BackupKey).
Abbreviation status := (status uuid_text scope_id).
Abbreviation ensure_exists := (ensure_exists uuid_text scope_id).
Abbreviation export := (export uuid_text scope_id public_from_identity).
Abbreviation import := (import uuid_text scope_id public_from_identity).
Abbreviation set_extra := (set_extra_recipients parse_recipient).
Abbreviation ready := (ensure_ready_for_encryption uuid_text scope_id).

Definition quiet_vault (k s : gmap string string) : Vault := mk_vault k s [].

Definition status_of (k s : gmap string string) : KeyStatus :=
  mk_status (is_some (s !! PUBLIC_KEY) && is_some (k !! acct)) (s !! PUBLIC_KEY)
    (parse_flag (s !! KEY_EXPORTED) false) (default [] (option_map recipient_lines (s !! EXTRA_RECIPIENTS))).

Lemma status_quiet k s : status (quiet_vault k s) = (Ok (status_of k s), quiet_vault k s).
Proof.
  unfold Vault.status, status_of, extra_recipients, vbind, get_setting, has_secret, get_secret, call, vret, quiet_vault.
  simpl. by destruct (s !! PUBLIC_KEY).
Qed.

(** A key made by the installation belongs to its public half. *)
Definition pair_ok (generated : string * string) : Prop :=
  fst generated <> "" /\ public_from_identity (fst generated) = Ok (snd generated).

(** A call that ended well, or changed nothing. *)
Definition whole {A} (v : Vault) (r : result A KeyError * Vault) : Prop :=
  is_ok (fst r) = true \/ keychain (snd r) = keychain v /\ Vault.settings (snd r) = Vault.settings v.

(** Any call to the keychain or the settings may fail; setting a key up and
    importing one do not stop between two of their writes. *)
Inductive KeyStep : Vault * list string -> Vault * list string -> Prop :=
| key_ensure v seen generated : pair_ok generated -> whole v (ensure_exists generated v) ->
    KeyStep (v, seen) (snd (ensure_exists generated v), seen)
| key_export v seen : KeyStep (v, seen)
    (snd (export v), match fst (export v) with Ok secret => secret :: seen | Err _ => seen end)
| key_import v seen secret : whole v (import secret v) -> KeyStep (v, seen) (snd (import secret v), trim secret :: seen)
| key_extra v seen keys : KeyStep (v, seen) (snd (set_extra keys v), seen)
| key_lost v seen : KeyStep (v, seen) (mk_vault (base.delete acct (keychain v)) (Vault.settings v) (faults v), seen)
| key_failing v seen l : KeyStep (v, seen) (mk_vault (keychain v) (Vault.settings v) l, seen).

(** From a new store, with whatever the keychain holds. *)
Inductive KeyReachable : Vault * list string -> Prop :=
| key_start k : KeyReachable (quiet_vault k ∅, [])
| key_next a b : KeyReachable a -> KeyStep a b -> KeyReachable b.

(** The recorded public key is that of the keychain's key, and under the flag that
    key has been seen. *)
Definition key_inv (a : Vault * list string) : Prop :=
  let '(v, seen) := a in
  (forall p s, Vault.settings v !! PUBLIC_KEY = Some p -> keychain v !! acct = Some s -> public_from_identity s = Ok p)
  /\ (forall s, parse_flag (Vault.settings v !! KEY_EXPORTED) false = true -> keychain v !! acct = Some s -> In s seen).

(** Nothing was written. *)
Definition same (v v' : Vault) : Prop := keychain v' = keychain v /\ Vault.settings v' = Vault.settings v.

Lemma same_refl v : same v v.
Proof. done. Qed.

Lemma same_trans v v1 v2 : same v v1 -> same v1 v2 -> same v v2.
Proof. unfold same. by intros [-> ->]. Qed.

Lemma key_inv_same v v' seen : same v v' -> key_inv (v, seen) -> key_inv (v', seen).
Proof. unfold same, key_inv. by intros [-> ->]. Qed.

Lemma key_inv_seen v seen s : key_inv (v, seen) -> key_inv (v, s :: seen).
Proof. intros [H1 H2]. split; [done|]. intros s' Hf Hs. right. by apply H2. Qed.

(** *** What a call did *)

Lemma vbind_Ok {A B} (m : V A) (k : A -> V B) v b v' :
  vbind m k v = (Ok b, v') -> exists a v1, m v = (Ok a, v1) /\ k a v1 = (Ok b, v').
Proof. unfold vbind. destruct (m v) as [[a|e] v1]; [by exists a, v1|done]. Qed.

Lemma vbind_Err {A B} (m : V A) (k : A -> V B) v e v' :
  vbind m k v = (Err e, v') -> m v = (Err e, v') \/ exists a v1, m v = (Ok a, v1) /\ k a v1 = (Err e, v').
Proof. unfold vbind. destruct (m v) as [[a|e'] v1]; [right; by exists a, v1|]. intros [= -> ->]. by left. Qed.

Lemma call_Ok {A} e (g : Vault -> A * Vault) v a v' :
  call e g v = (Ok a, v') ->
  a = fst (g v) /\ keychain v' = keychain (snd (g v)) /\ Vault.settings v' = Vault.settings (snd (g v)).
Proof. unfold call. destruct (faults v) as [|[] l], (g v) as [x w]; by intros [= <- <-]. Qed.

Lemma call_Err {A} e (g : Vault -> A * Vault) v e' v' :
  call e g v = (Err e', v') -> same v v'.
Proof. unfold call. destruct (faults v) as [|[] l], (g v) as [x w]; by intros [= <- <-]. Qed.

Lemma get_setting_Ok key v o v' :
  get_setting key v = (Ok o, v') ->
  o = Vault.settings v !! key /\ same v v'.
Proof. by intros H%call_Ok. Qed.

Lemma get_secret_Ok id kind v o v' :
  get_secret uuid_text id kind v = (Ok o, v') ->
  o = keychain v !! account uuid_text id kind /\ same v v'.
Proof. by intros H%call_Ok. Qed.

Lemma set_setting_Ok key value v u v' :
  set_setting key value v = (Ok u, v') ->
  keychain v' = keychain v /\ Vault.settings v' = <[key := value]> (Vault.settings v).
Proof. by intros (_ & H)%call_Ok. Qed.

Lemma set_secret_Ok id kind value v u v' :
  value <> "" -> set_secret uuid_text id kind value v = (Ok u, v') ->
  keychain v' = <[account uuid_text id kind := value]> (keychain v) /\ Vault.settings v' = Vault.settings v.
Proof. intros Hne (_ & Hk & Hs)%call_Ok. simpl in *. by destruct (String.eqb_spec value ""). Qed.

Lemma status_Ok v st v' :
  status v = (Ok st, v') ->
  st = status_of (keychain v) (Vault.settings v) /\ same v v'.
Proof.
  unfold Vault.status, status_of. intros H.
  apply vbind_Ok in H as (public & v1 & (-> & K1 & S1)%get_setting_Ok & H).
  apply vbind_Ok in H as (flag & v2 & (-> & K2 & S2)%get_setting_Ok & H).
  apply vbind_Ok in H as (held & v3 & H3 & H).
  apply vbind_Ok in H as (extra & v4 & H4 & H). injection H as <- <-.
  unfold extra_recipients in H4. apply vbind_Ok in H4 as (raw & v5 & (-> & K4 & S4)%get_setting_Ok & H4).
  injection H4 as <- <-.
  assert (held = is_some (Vault.settings v !! PUBLIC_KEY) && is_some (keychain v !! acct)
    /\ same v2 v3) as (-> & K3 & S3).
  { destruct (is_some (Vault.settings v !! PUBLIC_KEY)); [|by injection H3 as <- <-].
    apply vbind_Ok in H3 as (o & v6 & (-> & K & S)%get_secret_Ok & H3). injection H3 as <- <-. by rewrite K2, K1. }
  unfold same. by rewrite S4, S3, S2, K4, K3, K2, S1, K1.
Qed.

Lemma ensure_Ok generated v st v' :
  fst generated <> "" -> ensure_exists generated v = (Ok st, v') ->
  st = status_of (keychain v') (Vault.settings v')
  /\ ((ks_exists st = true /\ keychain v' = keychain v /\ Vault.settings v' = Vault.settings v)
      \/ (keychain v' = <[acct := fst generated]> (keychain v)
          /\ Vault.settings v' = <[KEY_EXPORTED := "false"]> (<[PUBLIC_KEY := snd generated]> (Vault.settings v)))).
Proof.
  intros Hne H. unfold Vault.ensure_exists in H. apply vbind_Ok in H as (current & v1 & (-> & K1 & S1)%status_Ok & H).
  destruct (ks_exists (status_of (keychain v) (Vault.settings v))) eqn:E.
  - injection H as <- <-. rewrite K1, S1. split; [done|]. by left.
  - apply vbind_Ok in H as (u & v2 & (K2 & S2)%set_secret_Ok & H); [|done].
    apply vbind_Ok in H as (u' & v3 & (K3 & S3)%set_setting_Ok & H).
    apply vbind_Ok in H as (u'' & v4 & (K4 & S4)%set_setting_Ok & (-> & K5 & S5)%status_Ok).
    rewrite K5, S5. split; [done|]. right. by rewrite K4, S4, K3, S3, K2, S2, K1, S1.
Qed.

Lemma export_Err v e v' : export v = (Err e, v') -> same v v'.
Proof.
  unfold Vault.export. intros H.
  apply vbind_Err in H as [H%call_Err|(o & v1 & (-> & H1)%get_secret_Ok & H)]; [done|]. eapply same_trans; [exact H1|clear H1].
  apply vbind_Err in H as [H|(secret & v2 & H2 & H)].
  { destruct (keychain v !! _); [done|]. by injection H as _ <-. }
  destruct (keychain v !! _) as [x|]; [|done]. injection H2 as <- <-.
  apply vbind_Err in H as [H|(derived & v2 & H2 & H)]; [by injection H as _ <-|]. injection H2 as H2 <-.
  apply vbind_Err in H as [H%call_Err|(stored & v3 & (-> & H3)%get_setting_Ok & H)]; [done|]. eapply same_trans; [exact H3|clear H3].
  apply vbind_Err in H as [H|(u & v4 & H4 & H)].
  { destruct (Vault.settings v1 !! PUBLIC_KEY); [destruct (String.eqb _ _)|]; by injection H as _ <-. }
  assert (v4 = v3) as -> by (destruct (Vault.settings v1 !! PUBLIC_KEY); [destruct (String.eqb _ _)|]; by injection H4 as _ <-).
  apply vbind_Err in H as [H%call_Err|(u' & v5 & _ & [=])]. done.
Qed.

Lemma export_Ok v secret v' :
  export v = (Ok secret, v') ->
  exists p, keychain v !! acct = Some secret /\ public_from_identity secret = Ok p
    /\ (forall q, Vault.settings v !! PUBLIC_KEY = Some q -> q = p)
    /\ keychain v' = keychain v /\ Vault.settings v' = <[KEY_EXPORTED := "true"]> (Vault.settings v).
Proof.
  unfold Vault.export. intros H.
  apply vbind_Ok in H as (o & v1 & (-> & K1 & S1)%get_secret_Ok & H).
  apply vbind_Ok in H as (x & v2 & H2 & H). destruct (keychain v !! acct) as [x'|]; [|done]. injection H2 as <- <-.
  apply vbind_Ok in H as (p & v2 & H2 & H). unfold of_result in H2. injection H2 as H2 <-. apply map_err_Ok in H2.
  apply vbind_Ok in H as (stored & v3 & (-> & K3 & S3)%get_setting_Ok & H).
  apply vbind_Ok in H as (u & v4 & H4 & H).
  apply vbind_Ok in H as (u' & v5 & (K5 & S5)%set_setting_Ok & H). injection H as <- <-.
  assert (v4 = v3 /\ forall q, Vault.settings v1 !! PUBLIC_KEY = Some q -> q = p) as [-> Hq].
  { destruct (Vault.settings v1 !! PUBLIC_KEY) as [q|]; [destruct (String.eqb_spec q p)|]; try done;
      injection H4 as _ <-; (split; [done|]); by intros ? [= <-]. }
  exists p. rewrite S1 in Hq. split_and!; try done; [congruence|]. rewrite S5, S3, S1. done.
Qed.

Lemma key_inv_export v seen :
  key_inv (v, seen) ->
  key_inv (snd (export v), match fst (export v) with Ok secret => secret :: seen | Err _ => seen end).
Proof.
  intros Hi. destruct (export v) as [[secret|e] v'] eqn:E; simpl.
  - apply export_Ok in E as (p & Hs & Hp & Hq & Hk & Hw). unfold key_inv. rewrite Hk, Hw. split.
    + intros q s. rewrite lookup_insert_ne by done. apply Hi.
    + intros s _. rewrite Hs. intros [= ->]. by left.
  - eapply key_inv_same; [by eapply export_Err|done].
Qed.

Lemma key_inv_import v seen secret :
  whole v (import secret v) -> key_inv (v, seen) -> key_inv (snd (import secret v), trim secret :: seen).
Proof.
  intros Hw Hi. apply key_inv_seen with (s := trim secret) in Hi.
  destruct (import secret v) as [[st|e] v'] eqn:E; [|destruct Hw as [Hw|Hw]; [done|by eapply key_inv_same]].
  clear Hw. unfold Vault.import in E. cbv zeta in E. simpl.
  apply vbind_Ok in E as (p & v1 & E1 & E). unfold of_result in E1. injection E1 as E1 <-. apply map_err_Ok in E1.
  apply vbind_Ok in E as (u & v2 & (_ & K2 & S2)%call_Ok & E).
  apply vbind_Ok in E as (u' & v3 & (K3 & S3)%set_setting_Ok & E).
  apply vbind_Ok in E as (u'' & v4 & (K4 & S4)%set_setting_Ok & (_ & K5 & S5)%status_Ok).
  simpl in K2, S2. unfold key_inv. rewrite K5, S5, K4, S4, K3, S3, K2, S2.
  destruct (String.eqb_spec (trim secret) "").
  - split; intros; simplify_map_eq.
  - split; intros; simplify_map_eq; [done|by left].
Qed.

Lemma key_inv_extra v seen keys : key_inv (v, seen) -> key_inv (snd (set_extra keys v), seen).
Proof.
  intros Hi. destruct (set_extra keys v) as [r v'] eqn:E. unfold set_extra_recipients, vbind, of_result in E. simpl.
  destruct (check_recipients _ keys) as [u|]; cbn [map_err] in E; [|by injection E as <- <-].
  destruct r as [u'|e]; [|apply call_Err in E; by eapply key_inv_same].
  apply set_setting_Ok in E as [K S]. unfold key_inv. rewrite K, S. by rewrite !lookup_insert_ne.
Qed.

Lemma key_inv_ensure v seen generated :
  pair_ok generated -> whole v (ensure_exists generated v) -> key_inv (v, seen) ->
  key_inv (snd (ensure_exists generated v), seen).
Proof.
  intros [Hne Hp] Hw Hi. destruct (ensure_exists generated v) as [[st|e] v'] eqn:E;
    [|destruct Hw as [Hw|Hw]; [done|by eapply key_inv_same]].
  clear Hw. simpl. apply ensure_Ok in E as (_ & [(_ & K & S)|[K S]]); [|..|done]; [by eapply key_inv_same|].
  unfold key_inv. rewrite K, S. split; intros; simplify_map_eq; done.
Qed.

Lemma key_inv_reachable a : KeyReachable a -> key_inv a.
Proof.
  induction 1 as [k|a b _ IH Hs]; [split; intros; simpl in *; by rewrite lookup_empty in *|].
  destruct Hs as [v seen generated Hp Hw|v seen|v seen secret Hw|v seen keys|v seen|v seen l].
  - by apply key_inv_ensure.
  - by apply key_inv_export.
  - by apply key_inv_import.
  - by apply key_inv_extra.
  - split; simpl; intros; simplify_map_eq.
  - exact IH.
Qed.

Lemma ensure_exists_quiet generated k s :
  ensure_exists generated (quiet_vault k s) =
  if is_some (s !! PUBLIC_KEY) && is_some (k !! acct) then (Ok (status_of k s), quiet_vault k s)
  else
    let k' := if String.eqb (fst generated) "" then base.delete acct k else <[acct := fst generated]> k in
    let s' := <[KEY_EXPORTED := "false"]> (<[PUBLIC_KEY := snd generated]> s) in
    (Ok (status_of k' s'), quiet_vault k' s').
Proof.
  unfold Vault.ensure_exists. unfold vbind at 1. rewrite status_quiet. cbn [ks_exists status_of].
  destruct (is_some (s !! PUBLIC_KEY) && is_some (k !! acct)); [done|]. cbn zeta.
  rewrite <- status_quiet. done.
Qed.

(** C7: with one store on the machine, whichever calls to the keychain and to the
    settings fail - as long as setting up a key and importing one do not stop between
    their writes - an encrypted backup is let through only under a key that is in the
    keychain, is the one recorded as public, and was handed out by an export or
    brought in by an import. *)
Theorem encryption_waits_for_escrow v seen generated l v' :
  KeyReachable (v, seen) -> pair_ok generated -> ready generated v = (Ok l, v') ->
  exists secret own extra, keychain v' !! acct = Some secret /\ l = own :: extra
    /\ public_from_identity secret = Ok own /\ In secret seen.
Proof.
  intros Hi%key_inv_reachable [Hne _] Hr. unfold ensure_ready_for_encryption in Hr.
  apply vbind_Ok in Hr as (st & v1 & (-> & He)%ensure_Ok & Hr); [|done].
  cbn [ks_exported status_of] in Hr.
  destruct (parse_flag (Vault.settings v1 !! KEY_EXPORTED) false) eqn:Ef; [|done].
  destruct He as [(Hex & K1 & S1)|[K1 S1]]; [|by rewrite S1, lookup_insert_eq in Ef].
  unfold recipients in Hr. apply vbind_Ok in Hr as (st & v2 & (-> & K2 & S2)%status_Ok & Hr).
  cbn [ks_public status_of ks_extra ks_exists] in Hr, Hex.
  destruct (Vault.settings v1 !! PUBLIC_KEY) as [own|] eqn:Ep; [|done].
  destruct (keychain v1 !! acct) as [secret|] eqn:Ek; [|done]. injection Hr as <- <-.
  rewrite K1 in Ek. rewrite S1 in Ep, Ef. exists secret, own. eexists. split_and!.
  - by rewrite K2, K1.
  - done.
  - by eapply Hi.
  - by eapply Hi.
Qed.

(** Making sure a key exists replaces the machine's key whenever this store does
    not know of it: the keychain entry is overwritten, unasked. *)
Theorem new_store_replaces_the_key k s generated old :
  s !! PUBLIC_KEY = None -> k !! acct = Some old -> fst generated <> "" ->
  exists st k' s', ensure_exists generated (quiet_vault k s) = (Ok st, quiet_vault k' s')
    /\ k' !! acct = Some (fst generated) /\ (forall id kind, account uuid_text id kind <> acct -> k' !! account uuid_text id kind = k !! account uuid_text id kind).
Proof.
  intros Hs Hk Hne. rewrite ensure_exists_quiet, Hs. cbn [is_some andb].
  destruct (String.eqb_spec (fst generated) ""); [done|]. eexists _, _, _. split; [done|].
  split; [by rewrite lookup_insert_eq|]. intros id kind N. by rewrite lookup_insert_ne.
Qed.
End Escrow.

(** *** Instances *)

Definition plain_uuid (_ : Uuid) : string := "00000000-0000-0000-0000-000000000000".
Definition plain_public (secret : string) : result string string :=
  if String.eqb secret "" then Err "bad identity" else Ok ("age1" ++ secret)%string.
Definition key_a : string * string := ("AGE-SECRET-A", "age1AGE-SECRET-A").
Definition key_b : string * string := ("AGE-SECRET-B", "age1AGE-SECRET-B").

Definition after_export : Vault :=
  snd (Vault.export plain_uuid APP_SCOPE plain_public
    (snd (Vault.ensure_exists plain_uuid APP_SCOPE key_a (quiet_vault ∅ ∅)))).

Lemma after_export_reachable : KeyReachable plain_uuid APP_SCOPE plain_public (fun _ => Ok tt) (after_export, ["AGE-SECRET-A"]).
Proof.
  eapply key_next; [eapply key_next; [apply (key_start _ _ _ _ ∅)|]|].
  - apply (key_ensure _ _ _ _ _ _ key_a); [by split|]. by left.
  - assert (["AGE-SECRET-A"] = match fst (Vault.export plain_uuid APP_SCOPE plain_public
      (snd (Vault.ensure_exists plain_uuid APP_SCOPE key_a (quiet_vault ∅ ∅)))) with
      | Ok secret => [secret] | Err _ => [] end) as -> by (by vm_compute).
    apply key_export.
Qed.

Lemma key_b_ok : pair_ok plain_public key_b.
Proof. by split. Qed.

Lemma after_export_ready :
  ensure_ready_for_encryption plain_uuid APP_SCOPE key_b after_export = (Ok ["age1AGE-SECRET-A"], after_export).
Proof. by vm_compute. Qed.

Lemma after_export_secret : keychain after_export !! account plain_uuid APP_SCOPE BackupKey = Some "AGE-SECRET-A".
Proof. by vm_compute. Qed.

Lemma encryption_waits_for_escrow_witness :
  exists secret own extra, keychain after_export !! account plain_uuid APP_SCOPE BackupKey = Some secret
    /\ ["age1AGE-SECRET-A"] = own :: extra /\ plain_public secret = Ok own /\ In secret ["AGE-SECRET-A"].
Proof.
  exact (encryption_waits_for_escrow plain_uuid APP_SCOPE plain_public (fun _ => Ok tt) after_export ["AGE-SECRET-A"]
    key_b ["age1AGE-SECRET-A"] after_export after_export_reachable
    key_b_ok after_export_ready).
Defined.

Lemma new_store_replaces_the_key_witness :
  exists st k' s', Vault.ensure_exists plain_uuid APP_SCOPE key_b (quiet_vault (keychain after_export) ∅) = (Ok st, quiet_vault k' s')
    /\ k' !! account plain_uuid APP_SCOPE BackupKey = Some (fst key_b)
    /\ (forall id kind, account plain_uuid id kind <> account plain_uuid APP_SCOPE BackupKey ->
          k' !! account plain_uuid id kind = keychain after_export !! account plain_uuid id kind).
Proof.
  exact (new_store_replaces_the_key plain_uuid APP_SCOPE (keychain after_export) ∅ key_b "AGE-SECRET-A"
    (lookup_empty PUBLIC_KEY) after_export_secret (proj1 key_b_ok)).
Defined.

(** The key was exported once and its keychain entry is lost.  A new one is made, and
    the write that says it was not exported fails. *)
Definition lost_then_failed : Vault :=
  snd (Vault.ensure_exists plain_uuid APP_SCOPE key_b
    (mk_vault ∅ (Vault.settings after_export) [false; false; false; false; false; false; true])).

(** After one failed write, an encrypted backup is let through under a key nobody
    has ever seen. *)
Theorem failed_write_skips_the_escrow :
  fst (Vault.ensure_exists plain_uuid APP_SCOPE key_b
    (mk_vault ∅ (Vault.settings after_export) [false; false; false; false; false; false; true])) = Err KeyStore
  /\ fst (ensure_ready_for_encryption plain_uuid APP_SCOPE key_a lost_then_failed) = Ok ["age1AGE-SECRET-B"]
  /\ keychain lost_then_failed !! account plain_uuid APP_SCOPE BackupKey = Some "AGE-SECRET-B".
Proof. vm_compute. done. Qed.
