(* ===== verification/Offsite.v ===== *)
(** * Offsite: sending an artifact to its destinations
      (engine/src/ops.rs: push_offsite and what it calls)

    The operations are proved against an interface of the object store, the keychain
    and the disk; a client built on S3Client is one instance of it. *)

From Stdlib Require Import ZArith Lia Ascii String List Bool.
From stdpp Require Import base list gmap strings.
From S2P Require Import Prelude Text Time Domain Tools Disk Substring Sql Retention Backup Restore Verify.
From S2P Require Import Mask Plan Job S3Sign S3Client S3Protocol Library Destination Vault Step Pipeline Ops.
Import ListNotations.

Open Scope string_scope.
Open Scope list_scope.
Open Scope Z_scope.
Open Scope dbsync_scope.

Class ObjectStore (W : Type) := {
  os_new : S3Config -> W -> result S3Config S3Error * W;
  os_check : S3Config -> W -> result unit S3Error * W;
  os_upload : S3Config -> string -> string -> W -> result Z S3Error * list (Z * Z) * W;
  os_list : S3Config -> string -> W -> result (list ObjectInfo) S3Error * W;
  os_delete : S3Config -> string -> W -> result unit S3Error * W;
  os_secret : Uuid -> W -> result (option string) string * W;
  os_exists : string -> W -> bool;
  os_now : W -> Z }.

Section Offsite.
Context `{Calendar} {W : Type} `{ObjectStore W}.
Variable str_debug : string -> string.

(** A call whose failure is a value. *)
Definition try_ {A E} (f : W -> result A E * W) : Op W (result A E) := fun s =>
  let '(r, w) := f (world s) in (Ok r, mk_op w (trace s)).

Definition on_ok {A B E} (m : Op W (result A E)) (k : A -> Op W (result B E)) : Op W (result B E) :=
  bind m (fun r => match r with Ok a => k a | Err e => ret (Err e) end).

Notation "'let$' x ':=' e 'in' k" := (on_ok e (fun x => k))
  (at level 10, x pattern, e at level 100, k at level 200).

Definition err_as {A E F} (m : Op W (result A E)) (f : E -> F) : Op W (result A F) :=
  bind m (fun r => ret (map_err r f)).

Definition emit_failure (p : JobPhase) (m : string) : Op W unit := note (Emitted Error p m).

(** ** Retention at a destination *)

Definition as_offsite_candidate (o : ObjectInfo) : option RetentionCandidate :=
  match last_modified o with
  | Some t => Some (mk_candidate (ob_key o) t (ob_size o))
  | None => None
  end.

Definition offsite_candidates (objects : list ObjectInfo) : list RetentionCandidate :=
  omap as_offsite_candidate (List.filter (fun o => is_artifact_key (ob_key o)) objects).

Fixpoint delete_each (c : S3Config) (candidates : list RetentionCandidate) (removed : list string) : Op W (list string) :=
  match candidates with
  | [] => ret removed
  | candidate :: rest =>
      let key := path candidate in
      let* _ := emit_info Cleanup ("off-site retention will remove " ++ key)%string in
      let* gone := try_ (os_delete c key) in
      match gone with
      | Err e =>
          let* _ := emit_warning Cleanup ("could not remove " ++ key ++ ": " ++ s3_error_text e)%string in
          delete_each c rest removed
      | Ok _ =>
          let* _ := try_ (os_delete c (key ++ MANIFEST_SUFFIX)%string) in
          delete_each c rest (removed ++ [key])
      end
  end.

Definition now_ : Op W Z := fun s => (Ok (os_now (world s)), s).

Definition apply_offsite_retention (c : S3Config) (d : Destination) : Op W (list string) :=
  if negb (policy_is_enabled (dst_retention d)) then ret []
  else
    let* listed := try_ (os_list c (list_prefix d)) in
    match listed with
    | Err e =>
        let* _ := emit_warning Cleanup ("could not list " ++ dst_name d
          ++ " to apply its retention policy, so nothing was removed: " ++ s3_error_text e)%string in
        ret []
    | Ok objects =>
        let* now := now_ in
        match plan_retention (offsite_candidates objects) (dst_retention d) now with
        | Panic => stop (Panicked "date arithmetic")
        | Val plan =>
            match delete plan with
            | [] => ret []
            | _ =>
                let* removed := delete_each c (delete plan) [] in
                let* _ := emit_info Cleanup ("off-site retention removed " ++ show (Z.of_nat (length removed))
                  ++ " artifact(s) from " ++ dst_name d)%string in
                ret removed
            end
        end
    end.

(** ** Sending *)

Definition upload (c : S3Config) (artifact key : string) : Op W (result Z S3Error * list (Z * Z)) := fun s =>
  let '(r, reported, w) := os_upload c artifact key (world s) in (Ok (r, reported), mk_op w (trace s)).

Fixpoint emit_progress (key : string) (reported : list (Z * Z)) : Op W unit :=
  match reported with
  | [] => ret tt
  | _ :: rest => let* _ := emit_info Transfer ("uploading " ++ key)%string in emit_progress key rest
  end.

Definition secret_of (d : Destination) : Op W (result string string) :=
  let$ found := err_as (try_ (os_secret (dst_id d)))
                  (fun e => ("could not read the credential from the keychain: " ++ e)%string) in
  ret (ok_or found ("no secret access key is stored for " ++ str_debug (dst_name d)
                    ++ "; set one before it is relied on")%string).

(** The manifest goes after the artifact, when there is one beside it. *)
Definition upload_manifest (c : S3Config) (artifact key : string) : Op W (result unit string) := fun s =>
  let manifest := path_for artifact in
  if os_exists manifest (world s) then
    (let* r := upload c manifest (key ++ MANIFEST_SUFFIX)%string in
     ret (match fst r with
          | Ok _ => Ok tt
          | Err e => Err ("the artifact uploaded but its manifest did not: " ++ s3_error_text e)%string
          end)) s
  else (Ok (Ok tt), s).

Definition upload_to (artifact : string) (d : Destination) (key : string) : Op W (result (Z * list string) string) :=
  let 'DS3 config := dst_kind d in
  let$ secret := secret_of d in
  let$ c := err_as (try_ (os_new (to_config config secret))) s3_error_text in
  let$ _ := err_as (try_ (os_check c)) (fun e => ("the destination is not usable: " ++ s3_error_text e)%string) in
  let* r := upload c artifact key in
  let* _ := emit_progress key (snd r) in
  let$ uploaded := ret (map_err (fst r) s3_error_text) in
  let$ _ := upload_manifest c artifact key in
  let* removed := apply_offsite_retention c d in
  ret (Ok (uploaded, removed)).

Definition push_one (artifact : string) (d : Destination) : Op W PushResult :=
  let filename := default "" (file_name artifact) in
  let key := key_for d filename in
  let result bytes error removed :=
    mk_push (dst_id d) (dst_name d) (kind_describe (dst_kind d)) key (object_url d key) bytes error removed in
  let* sent := upload_to artifact d key in
  match sent with
  | Ok (bytes, removed) =>
      let* _ := emit_info Transfer (filename ++ " is now at " ++ object_url d key ++ " (" ++ show bytes ++ " bytes)")%string in
      ret (result bytes None removed)
  | Err e =>
      let* _ := emit_failure Transfer ("off-site copy to " ++ kind_describe (dst_kind d) ++ " FAILED: " ++ e
        ++ ". The local artifact at " ++ artifact ++ " is unaffected")%string in
      ret (result 0 (Some e) [])
  end.

Fixpoint push_each (artifact : string) (destinations : list Destination) : Op W (list PushResult) :=
  match destinations with
  | [] => ret []
  | d :: rest =>
      let* r := push_one artifact d in
      let* more := push_each artifact rest in
      ret (r :: more)
  end.

Variable enabled_destinations : W -> result (list Destination) OpError * W.

Definition push_offsite (artifact : string) : Op W (list PushResult) :=
  let* destinations := ask enabled_destinations in
  match destinations with
  | [] => ret []
  | _ =>
      let* _ := emit_info Transfer ("sending " ++ default "" (file_name artifact) ++ " to "
        ++ show (Z.of_nat (length destinations)) ++ " off-site destination(s)")%string in
      push_each artifact destinations
  end.

(** ** Checking and forgetting *)

Definition test_destination (d : Destination) : Op W unit :=
  let 'DS3 config := dst_kind d in
  let* found := try_ (os_secret (dst_id d)) in
  let* found := lift (map_err found (fun e => OpConnect e)) in
  let* secret := lift (ok_or found
    (OpDestination ("no secret access key is stored for " ++ str_debug (dst_name d))%string)) in
  let* c := try_ (os_new (to_config config secret)) in
  let* c := lift (map_err c (fun e => OpDestination (s3_error_text e))) in
  let* r := try_ (os_check c) in
  lift (map_err r (fun e => OpDestination (s3_error_text e))).
End Offsite.

Lemma bind_note {W A} e (k : unit -> Op W A) s : bind (note e) k s = k tt (mk_op (world s) (trace s ++ [e])).
Proof. done. Qed.

Lemma bind_try {W A B E} (f : W -> result A E * W) (k : result A E -> Op W B) s :
  bind (try_ f) k s = k (fst (f (world s))) (mk_op (snd (f (world s))) (trace s)).
Proof. unfold bind, try_. by destruct (f (world s)). Qed.

(** ** What an object store promises *)

(** One call to the store or to the keychain. *)
Inductive called `{ObjectStore W} : W -> W -> Prop :=
| called_new c w : called w (snd (os_new c w))
| called_check c w : called w (snd (os_check c w))
| called_upload c f k w : called w (snd (os_upload c f k w))
| called_secret id w : called w (snd (os_secret id w)).

Class StoreLaws (W : Type) `{ObjectStore W} := {
  bucket_of : S3Config -> W -> gmap string ObjectInfo;
  law_list : forall c p w r w', os_list c p w = (r, w') ->
    bucket_of c w' = bucket_of c w
    /\ forall l, r = Ok l -> NoDup (map ob_key l)
         /\ forall o, In o l <-> bucket_of c w !! ob_key o = Some o /\ starts_with p (ob_key o) = true;
  law_delete : forall c k w r w', os_delete c k w = (r, w') ->
    bucket_of c w' = base.delete k (bucket_of c w)
    \/ (exists e, r = Err e) /\ bucket_of c w' = bucket_of c w;
  law_upload : forall c f k w r reported w', os_upload c f k w = (r, reported, w') ->
    (exists o, bucket_of c w' = <[k := o]> (bucket_of c w) /\ forall n, r = Ok n -> ob_size o = n)
    \/ (exists e, r = Err e) /\ bucket_of c w' = bucket_of c w;
  law_local : forall f w w', called w w' -> os_exists f w' = os_exists f w }.

Section Promised.
Context `{Calendar} {W : Type} `{StoreLaws W}.

Definition bucket (c : S3Config) (s : OpState W) : gmap string ObjectInfo := bucket_of c (world s).

(** The keys a list of candidates may cost the bucket. *)
Definition condemned (l : list RetentionCandidate) (k : string) : Prop :=
  exists x, In x l /\ (k = path x \/ k = (path x ++ MANIFEST_SUFFIX)%string).

Definition only_loses (P : string -> Prop) (b b' : gmap string ObjectInfo) : Prop :=
  forall k, b' !! k = b !! k \/ b' !! k = None /\ P k.

Lemma only_loses_refl P b : only_loses P b b.
Proof. intros k. by left. Qed.

Lemma only_loses_trans P b1 b2 b3 : only_loses P b1 b2 -> only_loses P b2 b3 -> only_loses P b1 b3.
Proof. intros H12 H23 k. destruct (H12 k) as [E|[E Hp]], (H23 k) as [E'|[E' Hp']]; rewrite ?E', ?E; auto. Qed.

Lemma only_loses_mono (P Q : string -> Prop) b b' : (forall k, P k -> Q k) -> only_loses P b b' -> only_loses Q b b'.
Proof. intros HPQ Hl k. destruct (Hl k) as [|[? ?]]; auto. Qed.

Lemma delete_loses (P : string -> Prop) c k w r w' :
  P k -> os_delete c k w = (r, w') -> only_loses P (bucket_of c w) (bucket_of c w').
Proof.
  intros HP E. destruct (law_delete _ _ _ _ _ E) as [->|[_ ->]]; [|apply only_loses_refl].
  intros k'. destruct (decide (k' = k)) as [->|N]; [right; by rewrite lookup_delete_eq|left; by rewrite lookup_delete_ne].
Qed.

Lemma delete_each_spec c l : forall removed s r s', delete_each c l removed s = (r, s') ->
  (exists gone, r = Ok gone) /\ only_loses (condemned l) (bucket c s) (bucket c s').
Proof.
  induction l as [|x l IH]; intros removed s r s'; simpl.
  { intros [= <- <-]. split; [eauto|apply only_loses_refl]. }
  assert (forall k, condemned l k -> condemned (x :: l) k) as Hmono by (intros k (y & ? & ?); exists y; simpl; eauto).
  unfold emit_info. rewrite bind_note, bind_try. cbn [world trace].
  destruct (os_delete c (path x) (world s)) as [gone w1] eqn:E1. cbn [fst snd].
  assert (only_loses (condemned (x :: l)) (bucket c s) (bucket_of c w1)) as H1'.
  { eapply delete_loses; [|exact E1]. exists x. simpl. eauto. }
  destruct gone as [u|e].
  - rewrite bind_try. cbn [world]. destruct (os_delete c (path x ++ MANIFEST_SUFFIX) w1) as [gone2 w2] eqn:E2.
    intros E. apply IH in E as [? H3]. split; [done|].
    eapply only_loses_trans; [exact H1'|]. eapply only_loses_trans; [|eapply only_loses_mono; [exact Hmono|exact H3]].
    eapply delete_loses; [|exact E2]. exists x. simpl. eauto.
  - unfold emit_warning. rewrite bind_note. intros E. apply IH in E as [? H3]. split; [done|].
    eapply only_loses_trans; [exact H1'|]. eapply only_loses_mono; [exact Hmono|exact H3].
Qed.

(** An artifact of a destination, with the date the store gives it. *)
Definition ours (c : S3Config) (d : Destination) (s : OpState W) (o : ObjectInfo) (t : Z) : Prop :=
  bucket c s !! ob_key o = Some o /\ starts_with (list_prefix d) (ob_key o) = true
  /\ is_artifact_key (ob_key o) = true /\ last_modified o = Some t.

Lemma offsite_candidates_in l x : In x (offsite_candidates l) <->
  exists o t, In o l /\ is_artifact_key (ob_key o) = true /\ last_modified o = Some t
    /\ x = mk_candidate (ob_key o) t (ob_size o).
Proof.
  unfold offsite_candidates. rewrite <- list_elem_of_In, list_elem_of_omap. split.
  - intros (o & Ho & E). apply list_elem_of_In, filter_In in Ho as [Ho Ha]. unfold as_offsite_candidate in E.
    destruct (last_modified o) as [t|] eqn:Et; [|done]. injection E as <-. by exists o, t.
  - intros (o & t & Ho & Ha & Et & ->). exists o. split; [by apply list_elem_of_In, filter_In|].
    unfold as_offsite_candidate. by rewrite Et.
Qed.

Lemma offsite_candidates_NoDup l : NoDup (map ob_key l) -> NoDup (map path (offsite_candidates l)).
Proof.
  induction l as [|o l IH]; [done|]. cbn [map]. intros [Hn Hl]%NoDup_cons. specialize (IH Hl).
  unfold offsite_candidates in *. cbn [List.filter]. destruct (is_artifact_key (ob_key o)); [|done].
  cbn [omap list_omap]. unfold as_offsite_candidate at 1. destruct (last_modified o) as [t|]; [|done].
  cbn [map path]. apply NoDup_cons. split; [|done]. rewrite list_elem_of_In in *. intros Hin. apply Hn.
  apply in_map_iff in Hin as (x & Ex & Hx).
  change (omap as_offsite_candidate _) with (offsite_candidates l) in Hx.
  apply offsite_candidates_in in Hx as (o' & t' & Ho' & _ & _ & ->). simpl in Ex. rewrite <- Ex. by apply in_map.
Qed.

Lemma artifact_key_no_manifest k x : is_artifact_key k = true -> k <> (x ++ MANIFEST_SUFFIX)%string.
Proof.
  unfold is_artifact_key, is_artifact_name. intros [Hn _]%andb_true_iff ->.
  by rewrite ends_with_app in Hn.
Qed.

(** A kept candidate's object is not among what the deleted ones may cost. *)
Lemma kept_not_condemned objects policy now p x :
  NoDup (map ob_key objects) -> plan_retention (offsite_candidates objects) policy now = Val p ->
  In x (keep p) -> ~ condemned (delete p) (path x).
Proof.
  intros Hnd Hp Hx (y & Hy & [E|E]).
  - eapply kept_not_deleted; [by apply offsite_candidates_NoDup|exact Hp|exact Hx|].
    rewrite E. by apply in_map.
  - apply (planned_in _ _ _ _ x) in Hp; [|by left]. apply offsite_candidates_in in Hp as (o & t & _ & Ha & _ & ->).
    by eapply artifact_key_no_manifest.
Qed.

(** What retention at a destination may do to the bucket. *)
Lemma offsite_retention_spec c d s r s' : apply_offsite_retention c d s = (r, s') ->
  bucket c s' = bucket c s
  \/ exists objects p now,
       (NoDup (map ob_key objects) /\ forall o, In o objects <-> bucket c s !! ob_key o = Some o
          /\ starts_with (list_prefix d) (ob_key o) = true)
       /\ plan_retention (offsite_candidates objects) (dst_retention d) now = Val p
       /\ only_loses (condemned (delete p)) (bucket c s) (bucket c s').
Proof.
  unfold apply_offsite_retention. destruct (negb _); [intros [= _ <-]; by left|].
  rewrite bind_try. destruct (os_list c (list_prefix d) (world s)) as [listed w1] eqn:El. cbn [fst snd].
  destruct (law_list _ _ _ _ _ El) as [Hb Hl].
  destruct listed as [objects|e]; [|unfold emit_warning; rewrite bind_note; intros [= _ <-]; by left].
  specialize (Hl objects eq_refl). unfold bind at 1, now_. cbn [world].
  destruct (plan_retention _ _ _) as [p|] eqn:Ep; [|intros [= _ <-]; by left].
  destruct (delete p) as [|x l] eqn:Ed; [intros [= _ <-]; by left|]. rewrite <- Ed in *.
  unfold bind at 1. destruct (delete_each c (delete p) [] _) as [gone s2] eqn:Eg.
  apply delete_each_spec in Eg as [[l' ->] Hloss]. unfold emit_info. rewrite bind_note. intros [= _ <-].
  right. exists objects, p. eexists. split_and!; [apply Hl|apply Hl|exact Ep|].
  unfold bucket in *. cbn [world] in *. by rewrite <- Hb.
Qed.

Lemma greatest {A} (key : A -> Z) l : l <> [] -> exists x, In x l /\ forall y, In y l -> key y <= key x.
Proof.
  induction l as [|x l IH]; [done|]. intros _. destruct l as [|y l]; [exists x; split; [by left|intros ? [->|[]]; lia]|].
  destruct IH as (z & Hz & Hmax); [done|]. destruct (Z.le_gt_cases (key z) (key x)).
  - exists x. split; [by left|]. intros w [->|Hw]; [lia|]. specialize (Hmax w Hw). lia.
  - exists z. split; [by right|]. intros w [->|Hw]; [lia|by apply Hmax].
Qed.

Definition our_entry (d : Destination) (e : string * ObjectInfo) : option (ObjectInfo * Z) :=
  if String.eqb (ob_key (snd e)) (fst e) && starts_with (list_prefix d) (fst e) && is_artifact_key (fst e)
  then option_map (pair (snd e)) (last_modified (snd e)) else None.

Lemma our_newest c d s : (exists o t, ours c d s o t) ->
  exists o t, ours c d s o t /\ forall o' t', ours c d s o' t' -> t' <= t.
Proof.
  set (l := omap (our_entry d) (map_to_list (bucket c s))).
  assert (forall o t, In (o, t) l <-> ours c d s o t) as Hl.
  { intros o t. unfold l. rewrite <- list_elem_of_In, list_elem_of_omap. unfold ours. split.
    - intros ([k o'] & Hin & E). apply elem_of_map_to_list in Hin. unfold our_entry in E. cbn [fst snd] in E.
      destruct (String.eqb_spec (ob_key o') k) as [<-|]; [|done]. cbn [andb] in E.
      destruct (starts_with _ _) eqn:Es; [|done]. destruct (is_artifact_key _) eqn:Ea; [|done]. cbn [andb] in E.
      destruct (last_modified o') eqn:Et; simplify_eq/=. done.
    - intros (Hb & Hs & Ha & Ht). exists (ob_key o, o). split; [by apply elem_of_map_to_list|].
      unfold our_entry. cbn [fst snd]. by rewrite String.eqb_refl, Hs, Ha, Ht. }
  intros (o0 & t0 & H0'). destruct (greatest snd l) as ([o t] & Hin & Hmax).
  - intros E. apply Hl in H0'. by rewrite E in H0'.
  - exists o, t. split; [by apply Hl|]. intros o' t' Ho'. apply Hl in Ho'. by apply (Hmax (o', t')).
Qed.

(** Retention at a destination removes nothing but dated artifacts under the
    destination's prefix and their manifests, and the newest of them stays. *)
Theorem offsite_cleanup_keeps_the_newest c d s r s' :
  apply_offsite_retention c d s = (r, s') ->
  (forall k, bucket c s' !! k <> bucket c s !! k ->
     bucket c s' !! k = None
     /\ exists o t, ours c d s o t /\ (k = ob_key o \/ k = (ob_key o ++ MANIFEST_SUFFIX)%string))
  /\ ((exists o t, ours c d s o t) ->
      exists o t, ours c d s o t /\ bucket c s' !! ob_key o = Some o
        /\ forall o' t', ours c d s o' t' -> t' <= t).
Proof.
  intros [E|(objects & p & now & [Hnd Hin] & Hp & Hloss)]%offsite_retention_spec.
  - rewrite E. split; [done|]. intros (o & t & Ho & Hmax)%our_newest. exists o, t. split_and!; [done|by destruct Ho|done].
  - assert (forall x, In x (offsite_candidates objects) <-> exists o t, ours c d s o t /\ x = mk_candidate (ob_key o) t (ob_size o)) as Hc.
    { intros x. rewrite offsite_candidates_in. unfold ours. setoid_rewrite Hin. naive_solver. }
    split.
    + intros k Hk. destruct (Hloss k) as [?|[Hn (x & Hx & Ek)]]; [done|]. split; [done|].
      apply (planned_in _ _ _ _ x) in Hp; [|by right]. apply Hc in Hp as (o & t & Ho & ->). exists o, t. by split.
    + intros (o0 & t0 & Ho0).
      destruct (newest_is_kept (offsite_candidates objects) (dst_retention d) now p) as (x & Hx & Hmax); [|exact Hp|].
      { intros E. assert (In (mk_candidate (ob_key o0) t0 (ob_size o0)) []) as []. rewrite <- E. apply Hc. eauto. }
      assert (In x (keep p)) as Hk by (destruct (keep p); simplify_eq/=; by left).
      pose proof (kept_not_condemned _ _ _ _ _ Hnd Hp Hk) as Hnc.
      apply (planned_in _ _ _ _ x) in Hp; [|by left]. apply Hc in Hp as (o & t & Ho & ->). exists o, t.
      split_and!; [done| |].
      * destruct (Hloss (ob_key o)) as [->|[_ Hcon]]; [by destruct Ho|by destruct Hnc].
      * intros o' t' Ho'. apply (Hmax (mk_candidate (ob_key o') t' (ob_size o'))). apply Hc. eauto.
Qed.
(** ** Sending *)

Variable str_debug : string -> string.

Lemma on_ok_eq {A B E} (m : Op W (result A E)) (k : A -> Op W (result B E)) s x s1 :
  m s = (Ok x, s1) -> on_ok m k s = match x with Ok a => k a s1 | Err e => (Ok (Err e), s1) end.
Proof. unfold on_ok, bind. intros ->. by destruct x. Qed.

Lemma err_as_try {A E F} (f : W -> result A E * W) (g : E -> F) s :
  err_as (try_ f) g s = (Ok (map_err (fst (f (world s))) g), mk_op (snd (f (world s))) (trace s)).
Proof. unfold err_as. by rewrite bind_try. Qed.

Lemma secret_of_eq d s : exists x,
  secret_of str_debug d s = (Ok x, mk_op (snd (os_secret (dst_id d) (world s))) (trace s)).
Proof.
  unfold secret_of. rewrite (on_ok_eq _ _ _ _ _ (err_as_try _ _ _)).
  destruct (fst _); cbn [map_err ret]; eauto.
Qed.

Lemma emit_progress_world key l : forall s, exists s', emit_progress (W := W) key l s = (Ok tt, s') /\ world s' = world s.
Proof.
  induction l as [|p l IH]; intros s; [by exists s|]. cbn [emit_progress]. unfold emit_info. rewrite bind_note.
  destruct (IH (mk_op (world s) (trace s ++ [Emitted Info Transfer ("uploading " ++ key)%string]))) as (s' & E & Hw).
  by exists s'.
Qed.

Lemma upload_manifest_spec c artifact key s r s' : upload_manifest c artifact key s = (r, s') ->
  (exists e, r = Ok (Err e))
  \/ r = Ok (Ok tt) /\ (forall k, k <> (key ++ MANIFEST_SUFFIX)%string -> bucket c s' !! k = bucket c s !! k)
     /\ (os_exists (path_for artifact) (world s) = true -> is_Some (bucket c s' !! (key ++ MANIFEST_SUFFIX)%string)).
Proof.
  unfold upload_manifest. destruct (os_exists _ _); [|intros [= <- <-]; right; by split_and!].
  unfold bind, upload. destruct (os_upload _ _ _ _) as [[r1 reported] w1] eqn:Eu. cbn [fst ret].
  intros [= <- <-]. destruct r1 as [n|e]; [|left; eauto]. right. split; [done|].
  destruct (law_upload _ _ _ _ _ _ _ Eu) as [(o & Eb & _)|[[e He] _]]; [|done].
  unfold bucket. cbn [world]. rewrite Eb. split; [|by rewrite lookup_insert_eq].
  intros k Nk. by rewrite lookup_insert_ne.
Qed.

Lemma suffix_differs k : k <> (k ++ MANIFEST_SUFFIX)%string.
Proof. intros E. apply (f_equal String.length) in E. rewrite length_append in E. simpl in E. lia. Qed.

(** What an upload that succeeded left in the bucket, when nothing is retired. *)
Lemma upload_to_spec artifact d key s r s' :
  policy_is_enabled (dst_retention d) = false -> upload_to str_debug artifact d key s = (r, s') ->
  (exists e, r = Ok (Err e))
  \/ exists n c o, r = Ok (Ok (n, [])) /\ bucket c s' !! key = Some o /\ ob_size o = n
       /\ (os_exists (path_for artifact) (world s) = true -> is_Some (bucket c s' !! (key ++ MANIFEST_SUFFIX)%string)).
Proof.
  intros Hp E. unfold upload_to in E. destruct (dst_kind d) as [config].
  destruct (secret_of_eq d s) as [x Es]. rewrite (on_ok_eq _ _ _ _ _ Es) in E. clear Es.
  destruct x as [secret|e]; [|injection E as <- _; eauto].
  rewrite (on_ok_eq _ _ _ _ _ (err_as_try _ _ _)) in E. cbn [world trace] in E.
  set (w1 := snd (os_secret _ _)) in E. destruct (fst (os_new _ w1)) as [c|e]; [cbn [map_err] in E|injection E as <- _; eauto].
  rewrite (on_ok_eq _ _ _ _ _ (err_as_try _ _ _)) in E. cbn [world trace] in E.
  set (w2 := snd (os_new _ w1)) in E. destruct (fst (os_check c w2)) as [u|e]; [cbn [map_err] in E|injection E as <- _; eauto].
  set (w3 := snd (os_check c w2)) in E.
  assert (os_exists (path_for artifact) w3 = os_exists (path_for artifact) (world s)) as Hf3.
  { unfold w3, w2, w1. by rewrite !(law_local _ _ _ (called_check _ _)), !(law_local _ _ _ (called_new _ _)),
      !(law_local _ _ _ (called_secret _ _)). }
  unfold bind at 1, upload in E. cbn [world trace] in E.
  destruct (os_upload c artifact key w3) as [[up reported] w4] eqn:Eu. cbn [fst snd] in E.
  assert (os_exists (path_for artifact) w4 = os_exists (path_for artifact) (world s)) as Hf4.
  { rewrite <- Hf3. pose proof (law_local (path_for artifact) _ _ (called_upload c artifact key w3)) as Hl. by rewrite Eu in Hl. }
  destruct (emit_progress_world key reported (mk_op w4 (trace s))) as (s5 & E5 & Hw5). cbn [world] in Hw5.
  unfold bind at 1 in E. rewrite E5 in E. rewrite (on_ok_eq _ _ _ (map_err up s3_error_text) s5 eq_refl) in E.
  destruct up as [n|e]; cbn [map_err] in E; [|injection E as <- _; eauto].
  destruct (law_upload _ _ _ _ _ _ _ Eu) as [(o & Eb & Ho)|[[e He] _]]; [|done]. specialize (Ho n eq_refl).
  destruct (upload_manifest c artifact key s5) as [m s6] eqn:Em.
  apply upload_manifest_spec in Em as Hm. destruct Hm as [[e ->]|(-> & Hkeep & Hman)].
  { rewrite (on_ok_eq _ _ _ _ _ Em) in E. injection E as <- _. eauto. }
  rewrite (on_ok_eq _ _ _ _ _ Em) in E. unfold bind, apply_offsite_retention in E. rewrite Hp in E. cbn [negb ret] in E.
  injection E as <- <-. right. exists n, c, o. split_and!; [done| |done|].
  - rewrite Hkeep by apply suffix_differs. unfold bucket. rewrite Hw5, Eb. apply lookup_insert_eq.
  - intros Hx. apply Hman. by rewrite Hw5, Hf4.
Qed.

(** With no retention at the destination, a push always ends with a report: of a
    failure that copied nothing it claims, or of a copy that is there under its key,
    at its size, with its manifest beside it when the artifact has one. *)
Theorem push_reports_the_truth artifact d s r s' :
  policy_is_enabled (dst_retention d) = false -> push_one str_debug artifact d s = (r, s') ->
  exists p, r = Ok p /\ pr_destination_id p = dst_id d /\ pr_key p = key_for d (default "" (file_name artifact))
    /\ match pr_error p with
       | Some _ => pr_bytes p = 0 /\ pr_removed p = []
       | None => exists c o, bucket c s' !! pr_key p = Some o /\ ob_size o = pr_bytes p
                   /\ (os_exists (path_for artifact) (world s) = true ->
                       is_Some (bucket c s' !! (pr_key p ++ MANIFEST_SUFFIX)%string))
       end.
Proof.
  intros Hp. unfold push_one. unfold bind at 1.
  destruct (upload_to _ artifact d _ s) as [sent s1] eqn:Eu.
  apply upload_to_spec in Eu as [[e ->]|(n & c & o & -> & Hb & Ho & Hm)]; [| |done].
  - unfold emit_failure. rewrite bind_note. intros [= <- <-]. eexists. by split_and!.
  - unfold emit_info. rewrite bind_note. intros [= <- <-]. eexists. split_and!; [done..|].
    cbn [pr_error pr_key pr_bytes]. by exists c, o.
Qed.
End Promised.

(** ** A bucket in memory *)

Record Shelf := mk_shelf {
  shelf_objects : gmap string ObjectInfo;
  shelf_files : list string;
  shelf_clock : Z }.

Definition shelf_with (w : Shelf) (m : gmap string ObjectInfo) : Shelf := mk_shelf m (shelf_files w) (shelf_clock w).

Definition shelf_entry (p : string) (e : string * ObjectInfo) : option ObjectInfo :=
  if String.eqb (ob_key (snd e)) (fst e) && starts_with p (fst e) then Some (snd e) else None.

Definition shelf_list (p : string) (m : gmap string ObjectInfo) : list ObjectInfo := omap (shelf_entry p) (map_to_list m).

#[local] Instance shelf_store : ObjectStore Shelf := {
  os_new c w := (Ok c, w);
  os_check _ w := (Ok tt, w);
  os_upload _ _ k w := (Ok 5, [(5, 5)], shelf_with w (<[k := mk_object k 5 (Some (shelf_clock w))]> (shelf_objects w)));
  os_list _ p w := (Ok (shelf_list p (shelf_objects w)), w);
  os_delete _ k w := (Ok tt, shelf_with w (base.delete k (shelf_objects w)));
  os_secret _ w := (Ok (Some "secret"), w);
  os_exists f w := existsb (String.eqb f) (shelf_files w);
  os_now w := shelf_clock w }.

Lemma shelf_list_in p m o : In o (shelf_list p m) <-> m !! ob_key o = Some o /\ starts_with p (ob_key o) = true.
Proof.
  unfold shelf_list. rewrite <- list_elem_of_In, list_elem_of_omap. split.
  - intros ([k o'] & Hin & E). apply elem_of_map_to_list in Hin. unfold shelf_entry in E. cbn [fst snd] in E.
    destruct (String.eqb_spec (ob_key o') k) as [<-|]; [|done]. cbn [andb] in E.
    destruct (starts_with p _) eqn:Es; simplify_eq/=. done.
  - intros [Hm Hs]. exists (ob_key o, o). split; [by apply elem_of_map_to_list|].
    unfold shelf_entry. cbn [fst snd]. by rewrite String.eqb_refl, Hs.
Qed.

Lemma shelf_list_NoDup p m : NoDup (map ob_key (shelf_list p m)).
Proof.
  unfold shelf_list. pose proof (NoDup_fst_map_to_list m) as Hn. revert Hn.
  induction (map_to_list m) as [|[k o] l IH]; intros Hn; [constructor|]. cbn [fmap list_fmap fst] in Hn.
  apply NoDup_cons in Hn as [Hk Hn]. specialize (IH Hn). cbn [omap list_omap]. unfold shelf_entry at 1. cbn [fst snd].
  destruct (String.eqb_spec (ob_key o) k) as [<-|]; [|done]. destruct (starts_with _ _); [|done]. cbn [andb map].
  apply NoDup_cons. split; [|done]. intros Hin. apply Hk. clear -Hin.
  apply list_elem_of_In, in_map_iff in Hin as (o' & E & Hin). apply list_elem_of_In, list_elem_of_omap in Hin as ([k' o2] & Hl & E').
  unfold shelf_entry in E'. cbn [fst snd] in E'. destruct (String.eqb_spec (ob_key o2) k') as [<-|]; [|done].
  destruct (starts_with _ _); simplify_eq/=. rewrite <- E. by apply (list_elem_of_fmap_2 fst l (ob_key o', o')).
Qed.

#[local] Instance shelf_laws : StoreLaws Shelf.
Proof.
  refine {| bucket_of := fun (_ : S3Config) w => shelf_objects w |}.
  - intros c p w r w' [= <- <-]. split; [done|]. intros l [= <-]. split; [apply shelf_list_NoDup|].
    intros o. apply shelf_list_in.
  - intros c k w r w' [= <- <-]. by left.
  - intros c f k w r reported w' [= <- _ <-]. left. eexists. split; [done|]. by intros n [= <-].
  - intros f w w' []; done.
Defined.

(** One bucket for two sources, as the key prefix is there for; the first one has none. *)
Definition whole_bucket (keep : option Z) : Destination :=
  mk_destination 1 "shop" (DS3 (mk_s3 "https://s3.example.com" "eu-west-1" "backups" "" true "AK")) true
    (mk_policy keep None) 0 0.

Definition two_sources : OpState Shelf :=
  mk_op (mk_shelf {["crm/crm_1.sql.gz" := mk_object "crm/crm_1.sql.gz" 7 (Some 1)]}
           ["/b/shop_2.sql.gz"; "/b/shop_2.sql.gz.manifest.json"] 2) [].

(** A destination without a prefix counts as its own, and deletes, the artifacts
    other destinations keep in the bucket under theirs. *)
Theorem empty_prefix_retires_other_sources :
  match push_one (fun s => s) "/b/shop_2.sql.gz" (whole_bucket (Some 1)) two_sources with
  | (Ok p, s) => pr_error p = None /\ pr_removed p = ["crm/crm_1.sql.gz"]
                 /\ shelf_objects (world s) !! "crm/crm_1.sql.gz" = None
  | (Err _, _) => False
  end.
Proof. vm_compute. done. Qed.

Lemma whole_bucket_kept : policy_is_enabled (dst_retention (whole_bucket None)) = false.
Proof. done. Qed.

Lemma push_reports_the_truth_witness :
  exists p, fst (push_one (fun s => s) "/b/shop_2.sql.gz" (whole_bucket None) two_sources) = Ok p
    /\ pr_destination_id p = dst_id (whole_bucket None)
    /\ pr_key p = key_for (whole_bucket None) (default "" (file_name "/b/shop_2.sql.gz"))
    /\ match pr_error p with
       | Some _ => pr_bytes p = 0 /\ pr_removed p = []
       | None => exists c o,
           bucket c (snd (push_one (fun s => s) "/b/shop_2.sql.gz" (whole_bucket None) two_sources)) !! pr_key p = Some o
           /\ ob_size o = pr_bytes p
           /\ (os_exists (path_for "/b/shop_2.sql.gz") (world two_sources) = true ->
               is_Some (bucket c (snd (push_one (fun s => s) "/b/shop_2.sql.gz" (whole_bucket None) two_sources))
                          !! (pr_key p ++ MANIFEST_SUFFIX)%string))
       end.
Proof.
  exact (push_reports_the_truth (fun s => s) "/b/shop_2.sql.gz" (whole_bucket None) two_sources _ _
    whole_bucket_kept (surjective_pairing _)).
Defined.

Lemma whole_bucket_has_one : exists o t, ours toy_config (whole_bucket (Some 1)) two_sources o t.
Proof. exists (mk_object "crm/crm_1.sql.gz" 7 (Some 1)), 1. by vm_compute. Qed.

Lemma offsite_cleanup_keeps_the_newest_witness :
  exists o t, ours toy_config (whole_bucket (Some 1)) two_sources o t
    /\ bucket toy_config (snd (apply_offsite_retention toy_config (whole_bucket (Some 1)) two_sources)) !! ob_key o = Some o
    /\ forall o' t', ours toy_config (whole_bucket (Some 1)) two_sources o' t' -> t' <= t.
Proof.
  exact (proj2 (offsite_cleanup_keeps_the_newest toy_config (whole_bucket (Some 1)) two_sources _ _
    (surjective_pairing _)) whole_bucket_has_one).
Defined.
