(* ===== verification/Checking.v ===== *)
(** * Checking: reaching servers, and the operations made of an engine's work
      (engine/src/ops.rs: reach, backup, restore, resolve_target, verify_restore)

    A server is asked through an interface: each question may fail and may change the
    world.  The engines' own backups and restores are the operations of another
    interface. *)

From Stdlib Require Import ZArith Lia Ascii String List Bool.
From stdpp Require Import base list gmap strings.
From S2P Require Import Prelude Text Time Domain Sql Exec Tools Retention Backup Restore.
From S2P Require Import Verify Mask Plan Job BackupMysql Step Pipeline Ops PipelineRun.
Import ListNotations.

Open Scope string_scope.
Open Scope list_scope.
Open Scope Z_scope.
Open Scope dbsync_scope.

Record ConnectParams := mk_params {
  cp_engine : Engine;
  cp_host : string;
  cp_port : Z;
  cp_user : string;
  cp_password : option string;
  cp_database : option string }.

(** A restore as an engine is given it. *)
Record RestoreRun := mk_restore_run {
  rr_profile : ConnectionProfile;
  rr_request : RestoreRequest;
  rr_target : string;
  rr_endpoint : Endpoint;
  rr_tools : ToolSource }.

Class Server (W : Type) := {
  open_tunnel : ConnectionProfile -> W -> result (option Z) OpError * W;
  password_of : Uuid -> W -> result (option string) OpError * W;
  connect : ConnectParams -> W -> result unit OpError * W;
  server_info : ConnectParams -> W -> result string OpError * W;
  list_databases : ConnectParams -> W -> result (list string) OpError * W;
  exact_row_count : ConnectParams -> string -> string -> W -> result Z OpError * W;
  table_digest : ConnectParams -> string -> string -> W -> result (option string) OpError * W;
  column_names : ConnectParams -> string -> string -> W -> result (list string) OpError * W;
  drop_database : ConnectParams -> string -> W -> result unit OpError * W;
  encryption_keys : W -> result (list string) string * W;
  clock : W -> Z }.

Class Engines (W : Type) := {
  engine_backup : BackupRun -> W -> result string BackupError * W;
  engine_restore : RestoreRun -> W -> result string RestoreError * W }.

Section Checking.
Context {W : Type} `{Server W}.

(** A call whose failure is a value. *)
Definition outcome_of {A E} (f : W -> result A E * W) : Op W (result A E) := fun s =>
  let '(r, w) := f (world s) in (Ok r, mk_op w (trace s)).

Definition reach (profile : ConnectionProfile) : Op W Endpoint :=
  let* tunnel := ask (open_tunnel profile) in
  let db := db profile in
  let '(host, port) := match tunnel with
                       | Some local_port => ("127.0.0.1", local_port)
                       | None => (db_host db, db_port db)
                       end in
  let* password := ask (password_of (profile_id profile)) in
  ret (mk_endpoint host port (db_user db) password).

Definition params_for (profile : ConnectionProfile) (e : Endpoint) (database : option string) : ConnectParams :=
  mk_params (profile_engine profile) (host e) (port e) (user e) (password e) database.

Definition server_version (profile : ConnectionProfile) (e : Endpoint) (database : option string) : Op W string :=
  let params := params_for profile e database in
  let* _ := ask (connect params) in
  ask (server_info params).

(** ** Counting and reading tables *)

Fixpoint count_each (params : ConnectParams) (database : string) (tables : list string) (counts : gmap string Z)
    : Op W (gmap string Z) :=
  match tables with
  | [] => ret counts
  | t :: rest =>
      let* n := outcome_of (exact_row_count params database t) in
      count_each params database rest (match n with Ok n => <[t := n]> counts | Err _ => counts end)
  end.

Definition count_tables (profile : ConnectionProfile) (e : Endpoint) (database : string) (tables : list string)
    : Op W (gmap string Z) :=
  let params := params_for profile e (Some database) in
  let* _ := ask (connect params) in
  count_each params database tables ∅.

Definition read_columns (params : ConnectParams) (database t : string) (columns : gmap string (list string))
    : Op W (gmap string (list string)) :=
  let* cols := outcome_of (column_names params database t) in
  ret (match cols with Ok l => <[t := l]> columns | Err _ => columns end).

(** A masked table is never digested; one that cannot be is recorded as such. *)
Fixpoint digest_each (params : ConnectParams) (database : string) (masked tables : list string)
    (digests : gmap string (option string)) (columns : gmap string (list string))
    : Op W (gmap string (option string) * gmap string (list string)) :=
  match tables with
  | [] => ret (digests, columns)
  | t :: rest =>
      if existsb (fun m => String.eqb m t) masked then
        let* columns := read_columns params database t columns in
        digest_each params database masked rest (<[t := None]> digests) columns
      else
        let* d := outcome_of (table_digest params database t) in
        let digests := <[t := match d with Ok d => d | Err _ => None end]> digests in
        let* columns := read_columns params database t columns in
        digest_each params database masked rest digests columns
  end.

Definition digest_tables (profile : ConnectionProfile) (e : Endpoint) (database : string) (tables masked : list string)
    : Op W (gmap string (option string) * gmap string (list string)) :=
  let params := params_for profile e (Some database) in
  let* _ := ask (connect params) in
  digest_each params database masked tables ∅ ∅.

(** ** Verification *)

Definition emit_error_ (p : JobPhase) (m : string) : Op W unit := note (Emitted Error p m).

Definition deep_compare (r : VerifyRequest) (expected : gmap string Z) : Op W DeepComparison :=
  let tables := vr_tables_with_data r ++ vr_schema_only r in
  let* source := reach (vr_source_profile r) in
  let* (source_digests, source_columns) :=
    digest_tables (vr_source_profile r) source (vr_source_database r) tables (vr_masked_tables r) in
  let* dest := reach (vr_dest_profile r) in
  let* (dest_digests, dest_columns) :=
    digest_tables (vr_dest_profile r) dest (vr_dest_database r) tables (vr_masked_tables r) in
  ret (mk_deep source_digests dest_digests source_columns dest_columns expected).

(** An error is a value here, a panic is not. *)
Definition caught {A} (m : Op W A) : Op W (result A OpError) := fun s =>
  match m s with
  | (Ok a, s) => (Ok (Ok a), s)
  | (Err (Failed_ e), s) => (Ok (Err e), s)
  | (Err (Panicked why), s) => (Err (Panicked why), s)
  end.

Variable error_text : OpError -> string.

Definition deepened (r : VerifyRequest) (expected : gmap string Z) (report : VerificationReport) : Op W VerificationReport :=
  if negb (vr_deep r) then ret report
  else
    let* _ := emit_info PhaseVerify "comparing table contents" in
    let* deep := caught (deep_compare r expected) in
    match deep with
    | Ok deep => ret (refine_with_contents report deep)
    | Err e =>
        let* _ := emit_warning PhaseVerify ("could not compare table contents: " ++ error_text e)%string in
        ret report
    end.

Definition announce (report : VerificationReport) : Op W unit :=
  if passed report
  then emit_info Done ("verification passed for " ++ show (tables_checked report) ++ " tables")%string
  else emit_error_ PhaseVerify ("verification found " ++ show (failures report) ++ " problem(s)")%string.

Definition verify_restore (r : VerifyRequest) : Op W VerificationReport :=
  let* _ := emit_info PhaseVerify "counting rows on the source" in
  let* source := reach (vr_source_profile r) in
  let* expected := count_tables (vr_source_profile r) source (vr_source_database r) (vr_tables_with_data r) in
  let* _ := emit_info PhaseVerify "counting rows on the destination" in
  let* dest := reach (vr_dest_profile r) in
  let* actual := count_tables (vr_dest_profile r) dest (vr_dest_database r)
                   (vr_tables_with_data r ++ vr_schema_only r) in
  let* report := deepened r expected (build_report expected actual (vr_schema_only r) ∅) in
  let* _ := announce report in
  ret report.
End Checking.

(** ** Backups and restores end to end *)

Section Operations.
Context {W : Type} `{Server W} `{Engines W} `{Operations W} `{Host} `{Calendar}.

Definition dump_tool_for (profile : ConnectionProfile) : Tool * option string :=
  let o := tool_overrides profile in
  match profile_engine profile with
  | Mysql => (Mysqldump, t_mysqldump o)
  | Postgres => (PgDump, t_pg_dump o)
  | Mongo => (Mongodump, t_mongodump o)
  end.

Definition with_selections (r : BackupRequest) (l : list TableSelection) : BackupRequest :=
  let c := common r in
  mk_backup (mk_common (co_database c) l (output_dir c) (compress c) (encrypt c) (record_row_counts c)) (engine r).

Definition recipients_for (r : BackupRequest) : Op W (list string) :=
  if encrypt (common r) then
    let* _ := emit_info Initializing "resolving encryption recipients" in
    let* keys := outcome_of encryption_keys in
    let* keys := lift (map_err keys (fun e => OpBackup (Invalid (InvalidText e)))) in
    let* _ := emit_info Initializing ("encrypting to " ++ show (Z.of_nat (length keys)) ++ " recipient(s)")%string in
    ret keys
  else ret [].

Definition counts_for (profile : ConnectionProfile) (e : Endpoint) (r : BackupRequest) : Op W (gmap string Z) :=
  let c := common r in
  if record_row_counts c then
    let wanted := map sel_name (tables_with_data c) in
    let* _ := emit_info Introspect ("counting rows in " ++ show (Z.of_nat (length wanted)) ++ " table(s)")%string in
    count_tables profile e (co_database c) wanted
  else ret ∅.

Definition backup (profile : ConnectionProfile) (request : BackupRequest) (tools : ToolSource) : Op W string :=
  let* _ := lift (map_err (preflight tools) ToolSourceUnavailable) in
  let '(dump_tool, override_path) := dump_tool_for profile in
  let* _ := lift (guard (negb (is_some (Tools.resolve dump_tool tools override_path)))
                    (OpBackup (ToolMissing (binary_name dump_tool)))) in
  let* _ := emit_info SshConnect "connecting to the source" in
  let* endpoint := reach profile in
  let* _ := emit_info Introspect "reading server version" in
  let* version := server_version profile endpoint (Some (co_database (common request))) in
  let* selections := resolve_now profile (co_database (common request)) (selections (common request)) in
  let request := with_selections request selections in
  let* recipients := recipients_for request in
  let* row_counts := counts_for profile endpoint request in
  let* r := outcome_of (engine_backup (BackupMysql.mk_run profile request endpoint version recipients row_counts tools)) in
  lift (map_err r OpBackup).

Definition utc_now : Op W Z := fun s => (Ok (clock (world s)), s).

(** Which database a restore writes to, looked up once. *)
Definition resolve_target (profile : ConnectionProfile) (request : RestoreRequest) (e : Endpoint) : Op W string :=
  let* now := utc_now in
  let target := Restore.resolve (naming request) now in
  let params := params_for profile e (bootstrap_database (profile_engine profile)) in
  let* _ := ask (connect params) in
  let* databases := outcome_of (list_databases params) in
  match databases with
  | Err _ =>
      let* _ := emit_warning Introspect "could not list databases, so the target was not checked in advance" in
      ret target
  | Ok taken =>
      let* _ := lift (match naming request with
                      | IntoExisting name => guard (negb (existsb (fun t => String.eqb t name) taken)) (TargetMissing name)
                      | _ => Ok tt
                      end) in
      let* resolved := lift (ok_or (resolve_free (naming request) now taken) (TargetCollision target)) in
      let* _ := (if is_timestamped (naming request) && negb (String.eqb resolved target)
                 then emit_info Introspect (target ++ " already exists, so this restore goes into " ++ resolved)%string
                 else ret tt) in
      ret resolved
  end.

Definition restore (profile : ConnectionProfile) (request : RestoreRequest) (tools : ToolSource) : Op W string :=
  let* _ := lift (map_err (preflight tools) ToolSourceUnavailable) in
  let* _ := emit_info SshConnect "connecting to the destination" in
  let* endpoint := reach profile in
  let* target := resolve_target profile request endpoint in
  let* r := outcome_of (engine_restore (mk_restore_run profile request target endpoint tools)) in
  lift (map_err r OpRestore).
End Operations.


(** ** Lemmas *)

Section Counting.
Context {W : Type} `{Server W}.

(** What a count is worth to its caller. *)
Definition counted (r : result Z OpError) : option Z := match r with Ok n => Some n | Err _ => None end.

Variable rows_of : ConnectParams -> string -> string -> option Z.
Hypothesis steady : forall p db t w, counted (exact_row_count p db t w).1 = rows_of p db t.

Lemma count_each_spec p db ts counts s :
  exists counts' s', count_each p db ts counts s = (Ok counts', s')
    /\ forall t, counts' !! t =
         if decide (t ∈ ts) then match rows_of p db t with Some n => Some n | None => counts !! t end
         else counts !! t.
Proof.
  revert counts s. induction ts as [|u ts IH]; intros counts s; [by exists counts, s|].
  cbn [count_each]. unfold bind at 1, outcome_of at 1.
  pose proof (steady p db u (world s)) as Hu. destruct (exact_row_count p db u (world s)) as [r w]. cbn [fst] in Hu.
  match goal with |- context [count_each p db ts ?c ?s1] => destruct (IH c s1) as (counts' & s' & E & Hc) end.
  exists counts', s'. split; [exact E|]. intros t. rewrite Hc.
  assert (Hi : (match r with Ok n => <[u:=n]> counts | Err _ => counts end) !! t =
               if decide (u = t) then match rows_of p db u with Some n => Some n | None => counts !! t end
               else counts !! t).
  { rewrite <- Hu. destruct r as [n|e]; cbn [counted]; [|by repeat case_decide].
    case_decide; [by subst; rewrite lookup_insert_eq|by rewrite lookup_insert_ne]. }
  rewrite Hi. destruct (decide (u = t)) as [->|Hne].
  - rewrite (decide_True (P := t ∈ t :: ts)) by (by left). repeat case_match; done.
  - destruct (decide (t ∈ ts)) as [Hin|Hin].
    + rewrite decide_True by (by right). done.
    + rewrite decide_False by (intros [?|?]%elem_of_cons; congruence). done.
Qed.

Lemma count_tables_spec profile e db ts s counts s' :
  count_tables profile e db ts s = (Ok counts, s') ->
  forall t, counts !! t = if decide (t ∈ ts) then rows_of (params_for profile e (Some db)) db t else None.
Proof.
  unfold count_tables. intros (? & s1 & _ & E)%bind_Ok t.
  destruct (count_each_spec (params_for profile e (Some db)) db ts ∅ s1) as (counts' & s2 & E' & Hc).
  rewrite E' in E. injection E as <- <-. rewrite Hc, lookup_empty. repeat case_match; done.
Qed.

Lemma deepened_shallow text r expected report s :
  vr_deep r = false -> deepened text r expected report s = (Ok report, s).
Proof. unfold deepened. by intros ->. Qed.

(** Comparing contents only adds failures. *)
Lemma deepened_passed text r expected report s report' s' :
  deepened text r expected report s = (Ok report', s') -> passed report' = true ->
  failures report = count is_failure (tables report) -> passed report = true.
Proof.
  unfold deepened. destruct (vr_deep r); cbn [negb]; [|by intros [= <- <-]].
  intros (? & s1 & _ & (d & s2 & _ & E)%bind_Ok)%bind_Ok Hp Hf. destruct d as [deep|e].
  - injection E as <- <-. unfold passed in *. rewrite Hf. apply Z.eqb_eq, count_zero. intros t Ht.
    apply Z.eqb_eq in Hp. cbn [failures refine_with_contents] in Hp.
    pose proof (proj1 (count_zero _ _) Hp (refine_entry deep t)) as Hr.
    by destruct (proj1 (refine_entry_failure deep t) (Hr (in_map _ _ _ Ht))).
  - apply bind_Ok in E as (? & ? & _ & [= <- <-]). done.
Qed.
End Counting.

(** ** What holds whenever the outside is called *)

Section Guards.
Context {W : Type} (P : W -> Prop).

(** [m] keeps [P], and its result satisfies [Q]. *)
Definition keeps {A} (m : Op W A) (Q : A -> Prop) : Prop :=
  forall s, P (world s) -> P (world (m s).2) /\ forall a, (m s).1 = Ok a -> Q a.

Lemma keeps_mono {A} (m : Op W A) (Q R : A -> Prop) : keeps m Q -> (forall a, Q a -> R a) -> keeps m R.
Proof. intros H HQR s Hs. destruct (H s Hs) as [? HQ]. eauto. Qed.

Lemma keeps_ret {A} (a : A) (Q : A -> Prop) : Q a -> keeps (ret a) Q.
Proof. intros H s Hs. split; [done|]. by intros ? [= <-]. Qed.

Lemma keeps_bind {A B} (m : Op W A) (k : A -> Op W B) (Q : A -> Prop) (R : B -> Prop) :
  keeps m Q -> (forall a, Q a -> keeps (k a) R) -> keeps (bind m k) R.
Proof.
  intros Hm Hk s Hs. destruct (Hm s Hs) as [H1 H2]. unfold bind. destruct (m s) as [[a|e] s1]; cbn in *.
  - apply Hk; [by apply H2|done].
  - by split.
Qed.

Lemma keeps_ask {A} (f : W -> result A OpError * W) (Q : A -> Prop) :
  (forall w, P w -> P (f w).2 /\ forall a, (f w).1 = Ok a -> Q a) -> keeps (ask f) Q.
Proof.
  intros H s Hs. unfold ask. destruct (H _ Hs) as [H1 H2]. destruct (f (world s)) as [[a|e] w]; cbn in *.
  - split; [done|]. intros ? [= <-]. by apply H2.
  - by split.
Qed.

Lemma keeps_outcome {A E} (f : W -> result A E * W) (Q : result A E -> Prop) :
  (forall w, P w -> P (f w).2 /\ Q (f w).1) -> keeps (outcome_of f) Q.
Proof.
  intros H s Hs. unfold outcome_of. destruct (H _ Hs) as [H1 H2]. destruct (f (world s)) as [r w]; cbn in *.
  split; [done|]. by intros ? [= <-].
Qed.

Lemma keeps_lift {A} (r : result A OpError) (Q : A -> Prop) : (forall a, r = Ok a -> Q a) -> keeps (lift r) Q.
Proof. intros H. destruct r as [a|e]; [by apply keeps_ret, H|]. intros s Hs. by split. Qed.

Lemma keeps_note e (Q : unit -> Prop) : Q tt -> keeps (note e) Q.
Proof. intros H s Hs. split; [done|]. by intros [] _. Qed.

Lemma keeps_then {A B} (m : Op W A) (k : A -> Op W B) (R : B -> Prop) :
  keeps m (fun _ => True) -> (forall a, keeps (k a) R) -> keeps (bind m k) R.
Proof. intros Hm Hk. by apply keeps_bind with (1 := Hm). Qed.
End Guards.

Create HintDb keeps.
#[export] Hint Resolve keeps_note keeps_ret keeps_lift : keeps.

(** Binds and announcements; what a call must keep is left. *)
Ltac keeps :=
  repeat first
    [ match goal with |- forall _, _ => intros ? end
    | solve [eauto 3 with keeps]
    | apply keeps_then ].

(** Nothing the questions to a server do breaks [P]. *)
Record Undisturbed {W} `{Server W} (P : W -> Prop) : Prop := {
  u_tunnel : forall p w, P w -> P (open_tunnel p w).2;
  u_password : forall i w, P w -> P (password_of i w).2;
  u_connect : forall p w, P w -> P (connect p w).2;
  u_info : forall p w, P w -> P (server_info p w).2;
  u_databases : forall p w, P w -> P (list_databases p w).2;
  u_rows : forall p d t w, P w -> P (exact_row_count p d t w).2;
  u_digest : forall p d t w, P w -> P (table_digest p d t w).2;
  u_columns : forall p d t w, P w -> P (column_names p d t w).2;
  u_keys : forall w, P w -> P (encryption_keys w).2 }.

Section Kept.
Context {W : Type} `{Server W}.
Variable P : W -> Prop.
Hypothesis calm : Undisturbed P.

Lemma keeps_question {A} (f : W -> result A OpError * W) :
  (forall w, P w -> P (f w).2) -> keeps P (ask f) (fun _ => True).
Proof. intros Hf. apply keeps_ask. eauto. Qed.

Lemma keeps_invoke {A} (f : W -> result A Stop * W) :
  (forall w, P w -> P (f w).2) -> keeps P (invoke f) (fun _ => True).
Proof. intros Hf s Hs. unfold invoke. specialize (Hf _ Hs). destruct (f (world s)) as [[a|e] w]; by split. Qed.

Lemma keeps_reach profile : keeps P (reach profile) (fun _ => True).
Proof.
  apply keeps_then; [apply keeps_question, calm|]. intros tunnel.
  destruct tunnel; (apply keeps_then; [apply keeps_question, calm|keeps]).
Qed.

Lemma keeps_count_each p db ts counts : keeps P (count_each p db ts counts) (fun _ => True).
Proof.
  revert counts. induction ts as [|t ts IH]; intros counts; [by apply keeps_ret|].
  apply keeps_then; [|intros n; apply IH]. apply keeps_outcome. intros w Hw. split; [by apply calm|done].
Qed.

Lemma keeps_count_tables profile e db ts : keeps P (count_tables profile e db ts) (fun _ => True).
Proof. apply keeps_then; [apply keeps_question, calm|]. intros _. apply keeps_count_each. Qed.

Lemma keeps_version profile e db : keeps P (server_version profile e db) (fun _ => True).
Proof. apply keeps_then; [apply keeps_question, calm|]. intros _. apply keeps_question, calm. Qed.

Lemma keeps_warn_all phase l : keeps P (warn_all phase l) (fun _ => True).
Proof. induction l as [|m l IH]; [by apply keeps_ret|]. apply keeps_then; [by apply keeps_note|done]. Qed.

Lemma keeps_read_columns p db t columns : keeps P (read_columns p db t columns) (fun _ => True).
Proof. apply keeps_then; [|keeps]. apply keeps_outcome. intros w Hw. split; [by apply calm|done]. Qed.

Lemma keeps_digest_each p db masked ts digests columns :
  keeps P (digest_each p db masked ts digests columns) (fun _ => True).
Proof.
  revert digests columns. induction ts as [|t ts IH]; intros digests columns; [by apply keeps_ret|].
  cbn [digest_each]. destruct (existsb _ masked).
  - apply keeps_then; [apply keeps_read_columns|intros ?; apply IH].
  - apply keeps_then.
    + apply keeps_outcome. intros w Hw. split; [by apply calm|done].
    + intros d. apply keeps_then; [apply keeps_read_columns|intros ?; apply IH].
Qed.

Lemma keeps_digest_tables profile e db ts masked : keeps P (digest_tables profile e db ts masked) (fun _ => True).
Proof. apply keeps_then; [apply keeps_question, calm|]. intros _. apply keeps_digest_each. Qed.

Lemma keeps_resolve_now `{Operations W} profile db saved :
  (forall w, P w -> P (list_tables profile db w).2) -> keeps P (resolve_now profile db saved) (fun _ => True).
Proof.
  intros Ht. apply keeps_then; [by apply keeps_invoke|]. intros tables.
  destruct (resolve_selections saved tables). apply keeps_then; [apply keeps_warn_all|keeps].
Qed.
End Kept.

(** Does [e] reach the database of [profile]? *)
Definition reached {W} `{Server W} (profile : ConnectionProfile) (e : Endpoint) : Prop :=
  exists s s', reach profile s = (Ok e, s').

(** ** Properties *)

(** A restore that verification passes has, in every table that was to carry
    rows and that the source could count, exactly the number of rows of the
    source, and every schema-only table is there and empty; without the deep
    comparison the report passes exactly then.  A table the source could not
    count is not looked at. *)
Theorem verify_restore_compares_rows {W} `{Server W} (text : OpError -> string)
    (rows_of : ConnectParams -> string -> string -> option Z) r s report s' :
  (forall p db t w, counted (exact_row_count p db t w).1 = rows_of p db t) ->
  verify_restore text r s = (Ok report, s') ->
  exists source dest,
    reached (vr_source_profile r) source /\ reached (vr_dest_profile r) dest
    /\ let at_source := rows_of (params_for (vr_source_profile r) source (Some (vr_source_database r))) (vr_source_database r) in
       let at_dest := rows_of (params_for (vr_dest_profile r) dest (Some (vr_dest_database r))) (vr_dest_database r) in
       let restored := (forall t n, In t (vr_tables_with_data r) -> at_source t = Some n -> at_dest t = Some n)
                       /\ (forall t, In t (vr_schema_only r) -> at_dest t = Some 0) in
       (passed report = true -> restored) /\ (vr_deep r = false -> restored -> passed report = true).
Proof.
  intros steady (? & s1 & _ & (source & s2 & Hsource & (expected & s3 & Hexpected &
    (? & s4 & _ & (dest & s5 & Hdest & (actual & s6 & Hactual & (report' & s7 & Hdeep & E)
      %bind_Ok)%bind_Ok)%bind_Ok)%bind_Ok)%bind_Ok)%bind_Ok)%bind_Ok.
  apply bind_Ok in E as (? & ? & _ & [= -> <-]).
  exists source, dest. split_and!; [by do 2 eexists..|]. intros at_source at_dest restored.
  pose proof (count_tables_spec rows_of steady _ _ _ _ _ _ _ Hexpected) as He.
  pose proof (count_tables_spec rows_of steady _ _ _ _ _ _ _ Hactual) as Ha.
  set (plain := build_report expected actual (vr_schema_only r) ∅) in *.
  assert (Hplain : passed plain = true <-> restored).
  { unfold plain. rewrite build_report_passes_iff. setoid_rewrite lookup_empty.
    split; intros [H1 H2]; split.
    - intros t n Ht Hn. specialize (H1 t n). rewrite He, Ha in H1.
      rewrite !decide_True in H1; [by apply H1|rewrite elem_of_app; left|]; by apply list_elem_of_In.
    - intros t Ht. specialize (H2 t Ht). rewrite Ha in H2. case_decide; [done|discriminate].
    - intros t n Hn _. rewrite He in Hn. rewrite Ha. case_decide as Hin; [|done].
      rewrite decide_True by (apply elem_of_app; by left). apply H1; [by apply list_elem_of_In|done].
    - intros t Ht. rewrite Ha, decide_True; [by apply H2|].
      apply elem_of_app. right. by apply list_elem_of_In. }
  split.
  - intros Hp. apply Hplain. eapply deepened_passed; [exact Hdeep|exact Hp|done].
  - intros Hs Hr. rewrite deepened_shallow in Hdeep by done. injection Hdeep as <- <-. by apply Hplain.
Qed.

(** What every dump an operation starts was checked for first: the tools, and the
    recipients the escrow check answered. *)
Definition prepared {W} `{Server W} `{Host} (profile : ConnectionProfile) (request : BackupRequest) (tools : ToolSource)
    (run : BackupRun) : Prop :=
  let '(tool, override_path) := dump_tool_for profile in
  preflight tools = Ok tt
  /\ is_some (Tools.resolve tool tools override_path) = true
  /\ run_profile run = profile /\ run_tools run = tools
  /\ (exists l, run_request run = with_selections request l)
  /\ (if encrypt (common request) then exists w, (encryption_keys w).1 = Ok (run_recipients run)
      else run_recipients run = [])
  /\ (record_row_counts (common request) = false -> run_row_counts run = ∅).

(** A dump starts only once the client tools are found, the server has been
    reached and, for an encrypted backup, the escrow check has handed over the
    recipients it encrypts to: a run that was not so prepared never reaches an
    engine, whatever fails before. *)
Theorem backup_prepares_every_dump {W} `{Server W} `{Engines W} `{Operations W} `{Host} `{Calendar}
    (P : W -> Prop) profile request tools :
  Undisturbed P -> (forall p d w, P w -> P (list_tables p d w).2) ->
  (forall run w, prepared profile request tools run -> P w -> P (engine_backup run w).2) ->
  keeps P (backup profile request tools)
    (fun artifact => exists run w, prepared profile request tools run /\ (engine_backup run w).1 = Ok artifact).
Proof.
  intros calm Htables Hrun. unfold backup, prepared in *.
  apply keeps_bind with (Q := fun _ => preflight tools = Ok tt).
  { apply keeps_lift. intros []. by destruct (preflight tools) as [[]|]. }
  intros _ Hpre. destruct (dump_tool_for profile) as [tool over].
  apply keeps_bind with (Q := fun _ => is_some (Tools.resolve tool tools over) = true).
  { apply keeps_lift. intros [] Hg. by destruct (is_some _). }
  intros _ Htool. apply keeps_then; [keeps|intros _].
  apply keeps_then; [by apply keeps_reach|intros e]. apply keeps_then; [keeps|intros _].
  apply keeps_then; [by apply keeps_version|intros version].
  apply keeps_then; [apply keeps_resolve_now, Htables|intros l].
  apply keeps_bind with (Q := fun keys => if encrypt (common request) then exists w, (encryption_keys w).1 = Ok keys
                                          else keys = []).
  { unfold recipients_for, with_selections. cbn [common encrypt]. destruct (encrypt (common request)); [|by apply keeps_ret].
    apply keeps_then; [keeps|intros _].
    apply keeps_bind with (Q := fun keys => exists w, (encryption_keys w).1 = keys).
    { apply keeps_outcome. intros w Hw. split; [by apply calm|eauto]. }
    intros keys (w & Hw).
    apply keeps_bind with (Q := fun k => keys = Ok k).
    { apply keeps_lift. intros k. by destruct keys; intros [= ->]. }
    intros k ->. apply keeps_then; [keeps|intros _]. apply keeps_ret. eauto. }
  intros keys Hkeys.
  apply keeps_bind with (Q := fun counts => record_row_counts (common request) = false -> counts = ∅).
  { unfold counts_for, with_selections. cbn [common record_row_counts]. destruct (record_row_counts (common request)); [|by apply keeps_ret].
    apply keeps_then; [keeps|intros _]. eapply keeps_mono; [by apply keeps_count_tables|done]. }
  intros counts Hcounts. set (run := BackupMysql.mk_run _ _ _ _ _ _ _).
  apply keeps_bind with (Q := fun r => exists w, (engine_backup run w).1 = r).
  { apply keeps_outcome. intros w Hw. split; [|eauto]. apply Hrun; [|done]. split_and!; try done. by exists l. }
  intros r (w & <-). apply keeps_lift. intros artifact. destruct (engine_backup run w) as [[a|] w'] eqn:E; [|done].
  intros [= ->]. exists run, w. rewrite E. split_and!; try done. by exists l.
Qed.

(** The name a restore writes to, as the server's list of databases allows it; a
    server that will not list them settles nothing. *)
Definition settled {W} `{Server W} `{Calendar} (request : RestoreRequest) (target : string) : Prop :=
  (exists params w e now,
     (list_databases params w).1 = Err e /\ target = Restore.resolve (naming request) now)
  \/ (exists params w taken, (list_databases params w).1 = Ok taken
      /\ match naming request with
         | NewTimestamped _ => ~ In target taken
         | IntoExisting name => target = name /\ In name taken
         | DropAndRecreate name => target = name
         end).

(** What a restore hands its engine. *)
Definition sound_restore {W} `{Server W} `{Host} `{Calendar} (profile : ConnectionProfile) (request : RestoreRequest)
    (tools : ToolSource) (run : RestoreRun) : Prop :=
  preflight tools = Ok tt /\ rr_profile run = profile /\ rr_request run = request
  /\ rr_tools run = tools /\ settled request (rr_target run).

Lemma keeps_restore {W} `{Server W} `{Engines W} `{Host} `{Calendar} (P : W -> Prop) profile request tools :
  Undisturbed P ->
  (forall run w, sound_restore profile request tools run -> P w -> P (engine_restore run w).2) ->
  keeps P (restore profile request tools)
    (fun db => exists run w, sound_restore profile request tools run /\ (engine_restore run w).1 = Ok db).
Proof.
  intros calm Hrun. unfold restore.
  apply keeps_bind with (Q := fun _ => preflight tools = Ok tt).
  { apply keeps_lift. intros []. by destruct (preflight tools) as [[]|]. }
  intros _ Hpre. apply keeps_then; [keeps|intros _]. apply keeps_then; [by apply keeps_reach|intros e].
  apply keeps_bind with (Q := settled request).
  - unfold resolve_target. apply keeps_then; [by intros s Hs|intros now].
    apply keeps_then; [by apply keeps_question, calm|intros _].
    apply keeps_bind with (Q := fun l => exists w, (list_databases (params_for profile e (bootstrap_database (profile_engine profile))) w).1 = l).
    { apply keeps_outcome. intros w Hw. split; [by apply calm|eauto]. }
    intros [taken|err] (w & Hw).
    + apply keeps_bind with (Q := fun _ => match naming request with IntoExisting name => In name taken | _ => True end).
      { apply keeps_lift. intros [] Hg. destruct (naming request) as [| |name]; [done..|].
        apply existsb_eqb. by destruct (existsb _ taken). }
      intros _ Hthere.
      apply keeps_bind with (Q := fun name => resolve_free (naming request) now taken = Some name).
      { apply keeps_lift. intros name. destruct (resolve_free _ _ taken); [|done]. by intros [= ->]. }
      intros name Hname. apply keeps_then; [by destruct (_ && _); keeps|intros _].
      apply keeps_ret. right. do 3 eexists. split; [exact Hw|]. apply resolve_free_settles in Hname.
      by destruct (naming request).
    + apply keeps_then; [keeps|intros _]. apply keeps_ret. left. eauto 10.
  - intros target Ht. set (run := mk_restore_run _ _ _ _ _). assert (sound_restore profile request tools run) as Hs by done.
    apply keeps_bind with (Q := fun r => exists w, (engine_restore run w).1 = r).
    { apply keeps_outcome. intros w Hw. split; [by apply Hrun|eauto]. }
    intros r (w & <-). apply keeps_lift. intros db. destruct (engine_restore run w) as [[a|] w'] eqn:E; [|done].
    intros [= ->]. exists run, w. by rewrite E.
Qed.

(** C19: A restore starts only with the tools in place and its target settled once:
    a fresh name the server does not already have, an existing database that is
    there, or, when the server will not say, the name as asked. *)
Theorem restore_settles_its_target {W} `{Server W} `{Engines W} `{Host} `{Calendar} (P : W -> Prop)
    profile request tools s :
  Undisturbed P ->
  (forall run w, sound_restore profile request tools run -> P w -> P (engine_restore run w).2) ->
  P (world s) ->
  P (world (restore profile request tools s).2)
  /\ forall db, (restore profile request tools s).1 = Ok db ->
       exists run w, sound_restore profile request tools run /\ (engine_restore run w).1 = Ok db.
Proof. intros calm Hrun. by apply keeps_restore. Qed.

(** A server that answers from a list of ports, tables and counts. *)
Fixpoint rows_at (port : Z) (t : string) (l : list (Z * string * Z)) : option Z :=
  match l with
  | [] => None
  | (q, u, n) :: l => if (q =? port) && String.eqb u t then Some n else rows_at port t l
  end.

Definition known_rows : list (Z * string * Z) := [(1, "users", 3); (2, "users", 3); (2, "logs", 0)].

Definition toy_server {W : Type} : Server W := {|
  open_tunnel _ w := (Ok None, w);
  password_of _ w := (Ok None, w);
  connect _ w := (Ok tt, w);
  server_info _ w := (Ok "8.0.36", w);
  list_databases _ w := (Ok ["app"; "copy"], w);
  exact_row_count p _ t w :=
    (match rows_at (cp_port p) t known_rows with
     | Some n => Ok n
     | None => Err (OpDb (Query "SELECT command denied"))
     end, w);
  table_digest _ _ _ w := (Ok None, w);
  column_names _ _ _ w := (Ok [], w);
  drop_database _ _ w := (Ok tt, w);
  encryption_keys w := (Ok ["age1"], w);
  clock _ := 0 |}.

Definition at_port (port : Z) : ConnectionProfile :=
  mk_profile 1%N "p" Mysql Dev None (mk_db "127.0.0.1" port "root" None) no_tools 0 0.

Definition asked (tables : list string) (deep : bool) : VerifyRequest :=
  mk_verify_request (at_port 1) (at_port 2) "app" "copy" tables ["logs"] deep [].

Definition verified (tables : list string) (deep : bool) : result VerificationReport Stop :=
  (@verify_restore unit toy_server (fun _ => "") (asked tables deep) (mk_op tt [])).1.

Lemma toy_steady p db t w :
  counted ((@exact_row_count unit toy_server p db t w).1) = rows_at (cp_port p) t known_rows.
Proof. cbn [exact_row_count toy_server fst]. by destruct (rows_at (cp_port p) t known_rows). Qed.

Lemma toy_reach port e : @reached unit toy_server (at_port port) e -> e = mk_endpoint "127.0.0.1" port "root" None.
Proof. intros (s & s' & E). cbv in E. congruence. Qed.

Lemma toy_verified :
  exists report s', @verify_restore unit toy_server (fun _ => "") (asked ["users"] false) (mk_op tt []) = (Ok report, s').
Proof. do 2 eexists. vm_compute. reflexivity. Qed.

Lemma verify_restore_compares_rows_witness :
  exists report s',
    @verify_restore unit toy_server (fun _ => "") (asked ["users"] false) (mk_op tt []) = (Ok report, s')
    /\ passed report = true.
Proof.
  destruct toy_verified as (report & s' & E). exists report, s'. split; [exact E|].
  destruct (@verify_restore_compares_rows unit toy_server (fun _ => "")
              (fun p _ t => rows_at (cp_port p) t known_rows) (asked ["users"] false) (mk_op tt []) report s'
              toy_steady E) as (source & dest & Hs & Hd & _ & Hback).
  apply toy_reach in Hs as ->, Hd as ->. apply Hback; [reflexivity|]. split.
  - intros t n [<-|[]]. exact id.
  - intros t [<-|[]]. reflexivity.
Defined.

(** A table the source would not count, and that the restore lost, is not in
    the report, whether or not contents are compared: the report passes. *)
Theorem uncounted_table_is_not_checked (deep : bool) :
  exists report, verified ["users"; "orders"] deep = Ok report /\ passed report = true
    /\ map Verify.table (tables report) = ["logs"; "users"].
Proof. destruct deep; eexists; (split; [vm_compute; reflexivity|done]). Qed.

(** Engines that keep every run they were given. *)
Definition Runs : Type := list (BackupRun + RestoreRun).

Definition toy_engines : Engines Runs := {|
  engine_backup run w := (Ok "/backups/app.sql.gz.age", w ++ [inl run]);
  engine_restore run w := (Ok (rr_target run), w ++ [inr run]) |}.

Definition toy_operations : Operations Runs := {|
  list_profiles w := (Ok [], w);
  get_sync_plan _ w := (Ok None, w);
  list_tables _ _ w := (Ok [], w);
  source_columns _ _ _ w := (Ok ∅, w);
  Ops.backup _ _ w := (Err (Failed_ OpCancelled), w);
  Ops.restore _ _ w := (Err (Failed_ OpCancelled), w);
  mask_destination _ _ _ w := (Err (Failed_ OpCancelled), w);
  Ops.verify_restore _ w := (Err (Failed_ OpCancelled), w);
  push_offsite _ w := (Ok [], w);
  apply_retention _ _ w := (Ok [], w);
  drill _ _ w := (Err (Failed_ OpCancelled), w);
  newest_artifact _ w := (Err (Failed_ OpCancelled), w);
  cancelled w := (false, w) |}.

Lemma toy_undisturbed (P : Runs -> Prop) : @Undisturbed Runs toy_server P.
Proof. by constructor. Qed.

(** Every dump started is encrypted; every restore goes where nothing is. *)
Definition encrypted_runs (w : Runs) : Prop :=
  Forall (fun r => match r with inl run => run_recipients run = ["age1"] | inr _ => True end) w.
Definition fresh_runs (w : Runs) : Prop :=
  Forall (fun r => match r with inl _ => True | inr run => ~ In (rr_target run) ["app"; "copy"] end) w.

Definition encrypted_request : BackupRequest :=
  mk_backup (mk_common "app" [with_data "orders"] "/backups" true true false) (engine sample_request).

Definition shop : ConnectionProfile :=
  mk_profile 1%N "shop" Mysql Dev None (mk_db "127.0.0.1" 3306 "root" None)
    (mk_tools (Some "/opt/mysqldump") None None None None None None None None None) 0 0.

Definition furnished : Host :=
  {| is_file _ := true; exec_mode _ := true; path_var := None; home_var := None; read_dir _ := None |}.

Definition toy_backup : Op Runs string :=
  @backup Runs toy_server toy_engines toy_operations furnished shop encrypted_request Local.

Definition into_copy : RestoreRequest :=
  mk_restore "/backups/app.sql.gz" (NewTimestamped "restore") (RMysql rmysql_default) true None.

Definition toy_restore : Op Runs string :=
  @restore Runs toy_server toy_engines furnished gregorian shop into_copy Local.

Lemma toy_backup_runs : exists run, (toy_backup (mk_op [] [])).2 = mk_op [inl run] (trace (toy_backup (mk_op [] [])).2).
Proof. eexists. vm_compute. reflexivity. Qed.

Lemma toy_restore_runs : exists run, (toy_restore (mk_op [] [])).2 = mk_op [inr run] (trace (toy_restore (mk_op [] [])).2).
Proof. eexists. vm_compute. reflexivity. Qed.

Lemma prepared_is_encrypted run w :
  @prepared Runs toy_server furnished shop encrypted_request Local run -> encrypted_runs w ->
  encrypted_runs (@engine_backup Runs toy_engines run w).2.
Proof.
  intros (_ & _ & _ & _ & _ & (w' & Hw) & _) Hr. apply Forall_app. split; [done|].
  repeat constructor. by injection Hw.
Qed.

Lemma backup_prepares_every_dump_witness : encrypted_runs (world (toy_backup (mk_op [] [])).2).
Proof.
  exact (proj1 (@backup_prepares_every_dump Runs toy_server toy_engines toy_operations furnished gregorian
    encrypted_runs shop encrypted_request Local (toy_undisturbed _) (fun _ _ _ Hw => Hw) prepared_is_encrypted
    (mk_op [] []) (List.Forall_nil _))).
Defined.

Lemma settled_is_fresh target :
  @settled Runs toy_server gregorian into_copy target -> ~ In target ["app"; "copy"].
Proof. intros [(? & ? & ? & ? & [=] & _)|(? & ? & ? & [= <-] & ?)]. done. Qed.

Lemma restore_settles_its_target_witness : fresh_runs (world (toy_restore (mk_op [] [])).2).
Proof.
  refine (proj1 (@restore_settles_its_target Runs toy_server toy_engines furnished gregorian
    fresh_runs shop into_copy Local (mk_op [] []) (toy_undisturbed _) _ (List.Forall_nil _))).
  intros run w (_ & _ & _ & _ & Ht) Hw. apply List.Forall_app. split; [exact Hw|].
  apply List.Forall_cons; [exact (settled_is_fresh _ Ht)|apply List.Forall_nil].
Defined.
