(* ===== verification/Introspect.v ===== *)
(** * Introspect: what the engine asks a server (engine/src/db.rs)

    The three introspectors: how each connects, the statements and commands it
    sends, and what it makes of the answers; and dropping a database.  The drivers
    are the class [Drivers]: a pool is known by its options, a row by its cells.  A
    row that lacks what [get] reads ends the task, which is [Panicked].

    What the digests that a deeper verification compares can tell is Digests. *)

From Stdlib Require Import ZArith Lia Ascii String List Bool Permutation.
From stdpp Require Import base list gmap strings.
From S2P Require Import Prelude Text Domain Sql Exec Tools Verify Backup BackupMysql BackupMongo Mask MongoMask Ops Checking.
Import ListNotations.

Open Scope string_scope.
Open Scope list_scope.
Open Scope Z_scope.

Record DatabaseInfo := mk_dbinfo {
  di_name : string;
  charset : option string;
  collation : option string }.

Record ServerInfo := mk_sinfo {
  si_engine : Engine;
  version : string;
  can_read_catalog : bool }.

(** ** Connecting *)

Record PoolOptions := mk_pool {
  po_host : string;
  po_port : Z;
  po_user : string;
  po_charset : option string;
  po_password : option string;
  po_database : option string;
  max_connections : Z;
  acquire_timeout : Z }.

Inductive Pool := MysqlPool (o : PoolOptions) | PgPool (o : PoolOptions).

Definition mysql_pool (p : ConnectParams) : Pool :=
  MysqlPool (mk_pool (cp_host p) (cp_port p) (cp_user p) (Some "utf8mb4") (cp_password p)
               (cp_database p) 4 15).

Definition pg_pool (p : ConnectParams) : Pool :=
  PgPool (mk_pool (cp_host p) (cp_port p) (cp_user p) None (cp_password p)
            (Some (default "postgres" (cp_database p))) 4 15).

Record Credential := mk_credential { cr_user : string; cr_password : option string; cr_source : string }.

Record ClientOptions := mk_client {
  co_host : string;
  co_port : Z;
  direct_connection : bool;
  app_name : string;
  connect_timeout : Z;
  server_selection_timeout : Z;
  max_pool_size : Z;
  credential : option Credential }.

Definition credential_of (p : ConnectParams) : option Credential :=
  match cp_password p, String.eqb (cp_user p) "" with
  | Some pw, _ => Some (mk_credential (cp_user p) (Some pw) MONGO_AUTH_SOURCE)
  | None, false => Some (mk_credential (cp_user p) None MONGO_AUTH_SOURCE)
  | None, true => None
  end.

Definition mongo_client (p : ConnectParams) : ClientOptions :=
  mk_client (cp_host p) (cp_port p) true "DBSync Studio" 15 15 4 (credential_of p).

(** ** The drivers *)

(** A cell of a row: a signed integer, an unsigned one, and what decodes as neither
    a number nor text. *)
Inductive Cell := CNull | CText (s : string) | CInt (n : Z) | CUnsigned (n : Z) | COpaque.

Definition Row := list (string * Cell).

Class Drivers (W : Type) := {
  open_pool : Pool -> W -> result unit string * W;
  fetch_all : Pool -> string -> list string -> W -> result (list Row) string * W;
  execute_sql : Pool -> string -> W -> result unit string * W;
  with_options : ClientOptions -> result unit string;
  run_command : ClientOptions -> string -> Document -> W -> result Document string * W;
  list_database_names : ClientOptions -> W -> result (list string) string * W;
  list_collection_names : ClientOptions -> string -> W -> result (list string) string * W;
  aggregate : ClientOptions -> string -> string -> list Document -> W -> result (list Item) string * W;
  find_all : ClientOptions -> string -> string -> W -> result (list Item) string * W;
  count_all : ClientOptions -> string -> string -> W -> result Z string * W;
  drop_whole : ClientOptions -> string -> W -> result unit string * W;
  to_vec : Document -> result string string;
  decode_error : option Cell -> string;
  value_error : string -> option Bson -> string;
  bson_debug : Bson -> string }.

(** How an operation ends. *)
Inductive DbAnswer (A : Type) := Answered (a : A) | Failed (e : DbError) | Panicked.
Arguments Answered {A} a.
Arguments Failed {A} e.
Arguments Panicked {A}.

Definition row_not_found : string :=
  "no rows returned by a query that expected to return at least one row".

Section Introspectors.
Context {W : Type} `{Drivers W}.

Definition Run (A : Type) : Type := W -> DbAnswer A * W.

Definition answer {A} (a : A) : Run A := fun w => (Answered a, w).
Definition fail {A} (e : DbError) : Run A := fun w => (Failed e, w).
Definition panic {A} : Run A := fun w => (Panicked, w).

Definition run_bind {A B} (m : Run A) (k : A -> Run B) : Run B := fun w =>
  match m w with
  | (Answered a, w') => k a w'
  | (Failed e, w') => (Failed e, w')
  | (Panicked, w') => (Panicked, w')
  end.

Notation "'let!' x ':=' e 'in' k" := (run_bind e (fun x => k))
  (at level 10, x pattern, e at level 200, k at level 200).

(** A call of a driver, its error put into words. *)
Definition call {A} (f : W -> result A string * W) (e : string -> DbError) : Run A := fun w =>
  match f w with (Ok a, w') => (Answered a, w') | (Err t, w') => (Failed (e t), w') end.

(** A call whose failure is a value. *)
Definition call_ok {A} (f : W -> result A string * W) : Run (option A) := fun w =>
  match f w with (Ok a, w') => (Answered (Some a), w') | (Err _, w') => (Answered None, w') end.

Definition lift_db {A} (r : result A DbError) : Run A :=
  match r with Ok a => answer a | Err e => fail e end.

(** ** Rows *)

Definition cell (r : Row) (column : string) : option Cell :=
  match List.find (fun kv => String.eqb kv.1 column) r with Some kv => Some kv.2 | None => None end.

Definition first_cell (r : Row) : option Cell := match r with (_, c) :: _ => Some c | [] => None end.

(** [try_get::<String>(..).ok()]; [try_get::<Option<u64>>(..).ok().flatten()];
    [try_get::<i64>(..).ok()]. *)
Definition text_of (c : option Cell) : option string := match c with Some (CText s) => Some s | _ => None end.
Definition unsigned_of (c : option Cell) : option Z := match c with Some (CUnsigned n) => Some n | _ => None end.
Definition signed_of (c : option Cell) : option Z := match c with Some (CInt n) => Some n | _ => None end.

(** [fetch_one]. *)
Definition fetch_one (p : Pool) (sql : string) (w : W) : result Row string * W :=
  match fetch_all p sql [] w with
  | (Ok (r :: _), w') => (Ok r, w')
  | (Ok [], w') => (Err row_not_found, w')
  | (Err e, w') => (Err e, w')
  end.

(** [query_scalar]: the first cell at its type. *)
Definition scalar {A} (as_ : option Cell -> option A) (r : Row) : result A string :=
  match as_ (first_cell r) with Some a => Ok a | None => Err (decode_error (first_cell r)) end.

Definition fetch_scalar {A} (as_ : option Cell -> option A) (p : Pool) (sql : string) (w : W)
    : result A string * W :=
  match fetch_one p sql w with
  | (Ok r, w') => (scalar as_ r, w')
  | (Err e, w') => (Err e, w')
  end.

Definition fetch_texts (p : Pool) (sql : string) (binds : list string) (w : W) : result (list string) string * W :=
  match fetch_all p sql binds w with
  | (Ok rows, w') => (try_map (scalar text_of) rows, w')
  | (Err e, w') => (Err e, w')
  end.

(** Every row, or a panic at the first that cannot be read. *)
Fixpoint map_rows {A} (f : Row -> option A) (rows : list Row) : Run (list A) :=
  match rows with
  | [] => answer []
  | r :: rows' =>
      match f r with
      | None => panic
      | Some a => let! rest := map_rows f rows' in answer (a :: rest)
      end
  end.

(** A count: [COUNT] is signed, and never negative. *)
Definition fetch_count (p : Pool) (sql what : string) : Run Z :=
  let! n := call (fetch_scalar signed_of p sql) (fun e => Query ("counting " ++ what ++ ": " ++ e)%string) in
  answer (Z.max n 0).

(** ** MySQL *)

Definition mysql_server_info (p : Pool) : Run ServerInfo :=
  let! version := call (fetch_scalar text_of p "SELECT VERSION()") Query in
  let! catalog := call_ok (fetch_scalar signed_of p "SELECT COUNT(*) FROM information_schema.TABLES LIMIT 1") in
  answer (mk_sinfo Mysql version (is_some catalog)).

Definition mysql_databases_sql : string :=
  "SELECT CONVERT(SCHEMA_NAME USING utf8mb4) AS name, CONVERT(DEFAULT_CHARACTER_SET_NAME USING utf8mb4) AS charset, CONVERT(DEFAULT_COLLATION_NAME USING utf8mb4) AS collation FROM information_schema.SCHEMATA WHERE SCHEMA_NAME NOT IN ('information_schema','mysql','performance_schema','sys') ORDER BY SCHEMA_NAME".

(** The row of a database: its name, and two texts that may be unreadable. *)
Definition database_row (name charset collation : string) (r : Row) : option DatabaseInfo :=
  match text_of (cell r name) with
  | Some n => Some (mk_dbinfo n (text_of (cell r charset)) (text_of (cell r collation)))
  | None => None
  end.

Definition mysql_list_databases (p : Pool) : Run (list DatabaseInfo) :=
  let! rows := call (fetch_all p mysql_databases_sql []) Query in
  map_rows (database_row "name" "charset" "collation") rows.

Definition mysql_tables_sql : string :=
  "SELECT CONVERT(TABLE_NAME USING utf8mb4) AS name, CONVERT(ENGINE USING utf8mb4) AS storage_engine, TABLE_ROWS, DATA_LENGTH, INDEX_LENGTH FROM information_schema.TABLES WHERE TABLE_SCHEMA = ? AND TABLE_TYPE = 'BASE TABLE' ORDER BY TABLE_NAME".

Definition mysql_table_row (r : Row) : option TableInfo :=
  match text_of (cell r "name") with
  | Some n => Some (new_table_info None n (text_of (cell r "storage_engine"))
                      (unsigned_of (cell r "TABLE_ROWS")) (unsigned_of (cell r "DATA_LENGTH"))
                      (unsigned_of (cell r "INDEX_LENGTH")))
  | None => None
  end.

Definition mysql_list_tables (p : Pool) (database : string) : Run (list TableInfo) :=
  let! rows := call (fetch_all p mysql_tables_sql [database]) Query in
  map_rows mysql_table_row rows.

Definition mysql_table (database table : string) : result string DbError :=
  let? d := quote_mysql_ident database in
  let? t := quote_mysql_ident table in
  Ok (d ++ "." ++ t)%string.

Definition mysql_row_count (p : Pool) (database table : string) : Run Z :=
  let! t := lift_db (mysql_table database table) in
  fetch_count p ("SELECT COUNT(*) FROM " ++ t)%string (database ++ "." ++ table)%string.

Definition mysql_columns_sql : string :=
  "SELECT CONVERT(COLUMN_NAME USING utf8mb4) FROM information_schema.COLUMNS WHERE TABLE_SCHEMA = ? AND TABLE_NAME = ? ORDER BY ORDINAL_POSITION".

Definition mysql_column_names (p : Pool) (database table : string) : Run (list string) :=
  call (fetch_texts p mysql_columns_sql [database; table])
    (fun e => Query ("reading columns of " ++ database ++ "." ++ table ++ ": " ++ e)%string).

Definition mysql_projection (columns : list string) : result string DbError :=
  let? parts := try_map (fun c => let? q := quote_mysql_ident c in
                           Ok ("COALESCE(CAST(" ++ q ++ " AS CHAR), '\0NULL')")%string) columns in
  Ok (join ", " parts).

Definition mysql_digest_sql (projection table : string) : string :=
  "SELECT COALESCE(CAST(BIT_XOR(CAST(CONV(SUBSTRING(MD5(CONCAT_WS('\0', " ++ projection
  ++ ")), 1, 16), 16, 10) AS UNSIGNED)) AS CHAR), '0')              FROM " ++ table.

Definition mysql_table_digest (p : Pool) (database table : string) : Run (option string) :=
  let! columns := mysql_column_names p database table in
  match columns with
  | [] => answer None
  | _ =>
      let! projection := lift_db (mysql_projection columns) in
      let! t := lift_db (mysql_table database table) in
      let! digest := call (fetch_scalar text_of p (mysql_digest_sql projection t))
                       (fun e => Query ("digesting " ++ database ++ "." ++ table ++ ": " ++ e)%string) in
      answer (Some digest)
  end.

(** ** PostgreSQL *)

Definition pg_server_info (p : Pool) : Run ServerInfo :=
  let! version := call (fetch_scalar text_of p "SHOW server_version") Query in
  let! catalog := call_ok (fetch_scalar signed_of p "SELECT COUNT(*) FROM pg_catalog.pg_class") in
  answer (mk_sinfo Postgres version (is_some catalog)).

Definition pg_databases_sql : string :=
  "SELECT d.datname, pg_encoding_to_char(d.encoding) AS charset, d.datcollate FROM pg_database d WHERE d.datistemplate = false AND d.datallowconn = true ORDER BY d.datname".

Definition pg_list_databases (p : Pool) : Run (list DatabaseInfo) :=
  let! rows := call (fetch_all p pg_databases_sql []) Query in
  map_rows (database_row "datname" "charset" "datcollate") rows.

Definition pg_tables_sql : string :=
  "SELECT n.nspname AS schema_name, c.relname AS table_name, c.reltuples::bigint AS estimated_rows, pg_table_size(c.oid) AS data_bytes, pg_indexes_size(c.oid) AS index_bytes FROM pg_class c JOIN pg_namespace n ON n.oid = c.relnamespace WHERE c.relkind = 'r' AND n.nspname NOT IN ('pg_catalog', 'information_schema') AND n.nspname NOT LIKE 'pg_toast%' ORDER BY n.nspname, c.relname".

(** An estimate below zero is unknown; a size below zero is none. *)
Definition pg_table_row (r : Row) : option TableInfo :=
  match text_of (cell r "schema_name"), text_of (cell r "table_name") with
  | Some schema, Some name =>
      Some (new_table_info (Some schema) name None
              (match signed_of (cell r "estimated_rows") with
               | Some v => if 0 <=? v then Some v else None
               | None => None
               end)
              (option_map (Z.max 0) (signed_of (cell r "data_bytes")))
              (option_map (Z.max 0) (signed_of (cell r "index_bytes"))))
  | _, _ => None
  end.

Definition other_database (str_debug : string -> string) (current database : string) : DbError :=
  Query ("connected to " ++ str_debug current ++ " but asked for tables in " ++ str_debug database
         ++ "; PostgreSQL needs a separate connection per database")%string.

Definition pg_list_tables (str_debug : string -> string) (p : Pool) (database : string) : Run (list TableInfo) :=
  let! current := call (fetch_scalar text_of p "SELECT current_database()") Query in
  if negb (String.eqb current database) then fail (other_database str_debug current database)
  else
    let! rows := call (fetch_all p pg_tables_sql []) Query in
    map_rows pg_table_row rows.

(** A table by its qualified name. *)
Definition pg_table (table : string) : result string DbError :=
  let '(schema, name) := split_qualified table "public" in
  let? s := quote_pg_ident schema in
  let? n := quote_pg_ident name in
  Ok (s ++ "." ++ n)%string.

Definition pg_row_count (p : Pool) (table : string) : Run Z :=
  let! t := lift_db (pg_table table) in
  fetch_count p ("SELECT COUNT(*) FROM " ++ t)%string table.

Definition pg_digest_sql (table : string) : string :=
  "SELECT COALESCE(SUM(('x' || substr(md5(t::text), 1, 16))::bit(64)::bigint::numeric), 0)::text FROM "
  ++ table ++ " AS t".

Definition pg_table_digest (p : Pool) (table : string) : Run (option string) :=
  let! t := lift_db (pg_table table) in
  let! digest := call (fetch_scalar text_of p (pg_digest_sql t))
                   (fun e => Query ("digesting " ++ table ++ ": " ++ e)%string) in
  answer (Some digest).

Definition pg_columns_sql : string :=
  "SELECT column_name FROM information_schema.columns WHERE table_schema = $1 AND table_name = $2 ORDER BY ordinal_position".

Definition pg_column_names (p : Pool) (table : string) : Run (list string) :=
  let '(schema, name) := split_qualified table "public" in
  call (fetch_texts p pg_columns_sql [schema; name])
    (fun e => Query ("reading columns of " ++ table ++ ": " ++ e)%string).

(** ** MongoDB *)

Definition MONGO_SYSTEM_DATABASES : list string := ["admin"; "local"; "config"].
Definition MONGO_DIGEST_BATCH : Z := 1000.

(** [Document::get_str]. *)
Definition get_str (d : Document) (key : string) : result string string :=
  match doc_get d key with Some (BString s) => Ok s | v => Err (value_error key v) end.

Definition mongo_server_info (c : ClientOptions) : Run ServerInfo :=
  let! build_info := call (run_command c MONGO_AUTH_SOURCE [("buildInfo", BInt32 1)]) Query in
  let! version := lift_db (map_err (get_str build_info "version")
                    (fun e => Query ("buildInfo carried no version: " ++ e)%string)) in
  let! catalog := call_ok (list_database_names c) in
  answer (mk_sinfo Mongo version (is_some catalog)).

Definition mongo_list_databases (c : ClientOptions) : Run (list DatabaseInfo) :=
  let! names := call (list_database_names c) Query in
  answer (sort_by (fun a b => String.leb (di_name a) (di_name b))
            (map (fun n => mk_dbinfo n None None)
               (List.filter (fun n => negb (mem n MONGO_SYSTEM_DATABASES)) names))).

(** [v.max(0.0) as u64] of the bits of an [f64]. *)
Definition f64_as_u64 (bits : Z) : Z :=
  let e := (bits / 2 ^ 52) mod 2 ^ 11 in
  let m := bits mod 2 ^ 52 in
  if bits / 2 ^ 63 =? 1 then 0
  else if e =? 2047 then (if m =? 0 then 2 ^ 64 - 1 else 0)
  else if e =? 0 then 0
  else
    let mantissa := m + 2 ^ 52 in
    Z.min (2 ^ 64 - 1)
      (if 1075 <=? e then mantissa * 2 ^ (e - 1075) else mantissa / 2 ^ (1075 - e)).

Record MongoStorageStats := mk_stats {
  st_count : option Z;
  st_size : option Z;
  st_index_size : option Z }.

Definition number (stats : Document) (key : string) : option Z :=
  match doc_get stats key with
  | Some (BInt32 v) | Some (BInt64 v) => Some (Z.max v 0)
  | Some (BDouble bits) => Some (f64_as_u64 bits)
  | _ => None
  end.

Definition storage_stats_of (items : list Item) : option MongoStorageStats :=
  match items with
  | Found d :: _ =>
      match doc_get d "storageStats" with
      | Some (BDocument stats) =>
          Some (mk_stats (number stats "count") (number stats "size") (number stats "totalIndexSize"))
      | _ => None
      end
  | _ => None
  end.

Definition collection_storage_stats (c : ClientOptions) (database name : string) : Run (option MongoStorageStats) :=
  let! items := call_ok (aggregate c database name
                  [[("$collStats", BDocument [("storageStats", BDocument [])])]]) in
  answer (match items with Some l => storage_stats_of l | None => None end).

Definition collection_row (name : string) (stats : option MongoStorageStats) : TableInfo :=
  new_table_info None name None
    (match stats with Some s => st_count s | None => None end)
    (match stats with Some s => st_size s | None => None end)
    (match stats with Some s => st_index_size s | None => None end).

Fixpoint size_each (c : ClientOptions) (database : string) (names : list string) : Run (list TableInfo) :=
  match names with
  | [] => answer []
  | name :: names' =>
      let! stats := collection_storage_stats c database name in
      let! rest := size_each c database names' in
      answer (collection_row name stats :: rest)
  end.

Definition mongo_list_tables (c : ClientOptions) (database : string) : Run (list TableInfo) :=
  let! names := call (list_collection_names c database)
                  (fun e => Query ("listing collections in " ++ database ++ ": " ++ e)%string) in
  size_each c database (sort_strings names).

Definition mongo_row_count (c : ClientOptions) (database table : string) : Run Z :=
  call (count_all c database table) (fun e => Query ("counting " ++ database ++ "." ++ table ++ ": " ++ e)%string).

(** The names of a document's fields sorted, all the way down. *)
Definition field_leb (a b : string * string * Bson) : bool :=
  pair_leb (fst a) (fst b).

Definition insert_all (fields : list (string * string * Bson)) : Document :=
  fold_left (fun out f => doc_insert out f.1.1 f.2) fields [].

Fixpoint canon_value (v : Bson) : Bson :=
  match v with
  | BDocument d =>
      BDocument (insert_all (sort_by field_leb
        (map (fun kv => match kv with (k, w) => (k, bson_debug w, canon_value w) end) d)))
  | BArray items => BArray (map canon_value items)
  | other => other
  end.

Definition canonicalise (d : Document) : Document :=
  match canon_value (BDocument d) with BDocument out => out | _ => [] end.

(** [slot ^= byte], slot by slot. *)
Fixpoint xor_into (fold hash : list Z) : list Z :=
  match fold, hash with
  | a :: fold', b :: hash' => Z.lxor a b :: xor_into fold' hash'
  | _, _ => fold
  end.

(** [{:02x}] of a byte. *)
Definition hex2 (b : Z) : string := String (hex_digit (b / 16)) (String (hex_digit (b mod 16)) "").

Definition hex_bytes (l : list Z) : string := String.concat "" (map hex2 l).

Section Digest.
Variable sha256 : string -> list Z.

Fixpoint fold_documents (database table : string) (items : list Item) (fold : list Z) : result (list Z) DbError :=
  match items with
  | [] => Ok fold
  | Broken e :: _ => Err (Query ("reading " ++ database ++ "." ++ table ++ ": " ++ e)%string)
  | Undecodable e :: _ => Err (Query ("decoding a document: " ++ e)%string)
  | Found d :: items' =>
      match to_vec (canonicalise d) with
      | Err e => Err (Query ("encoding a document: " ++ e)%string)
      | Ok bytes => fold_documents database table items' (xor_into fold (sha256 bytes))
      end
  end.

Definition mongo_table_digest (c : ClientOptions) (database table : string) : Run (option string) :=
  let! items := call (find_all c database table)
                  (fun e => Query ("reading " ++ database ++ "." ++ table ++ ": " ++ e)%string) in
  let! fold := lift_db (fold_documents database table items (repeat 0 32)) in
  answer (Some (hex_bytes fold)).
End Digest.

Definition fields_pipeline : list Document :=
  [[("$project", BDocument [("kv", BDocument [("$objectToArray", BString "$$ROOT")])])];
   [("$unwind", BString "$kv")];
   [("$group", BDocument [("_id", BString "$kv.k")])];
   [("$sort", BDocument [("_id", BInt32 1)])]].

Fixpoint field_names (database table : string) (items : list Item) : result (list string) DbError :=
  match items with
  | [] => Ok []
  | Broken e :: _ => Err (Query ("reading fields of " ++ database ++ "." ++ table ++ ": " ++ e)%string)
  | Undecodable e :: _ => Err (Query ("decoding a field name: " ++ e)%string)
  | Found d :: items' =>
      let? rest := field_names database table items' in
      Ok (match get_str d "_id" with Ok name => name :: rest | Err _ => rest end)
  end.

Definition mongo_column_names (c : ClientOptions) (database table : string) : Run (list string) :=
  let! items := call (aggregate c database table fields_pipeline)
                  (fun e => Query ("reading fields of " ++ database ++ "." ++ table ++ ": " ++ e)%string) in
  lift_db (field_names database table items).

(** ** By engine *)

(** An introspector: what a connection of each engine is. *)
Inductive Introspector := SqlPool (p : Pool) | MongoClient (c : ClientOptions).

Definition connect_mysql (p : ConnectParams) : Run Pool :=
  let! _ := call (open_pool (mysql_pool p)) DbConnect in answer (mysql_pool p).
Definition connect_postgres (p : ConnectParams) : Run Pool :=
  let! _ := call (open_pool (pg_pool p)) DbConnect in answer (pg_pool p).
Definition connect_mongo (p : ConnectParams) : Run ClientOptions :=
  let! _ := lift_db (map_err (with_options (mongo_client p)) DbConnect) in
  let! _ := call (run_command (mongo_client p) MONGO_AUTH_SOURCE [("ping", BInt32 1)]) DbConnect in
  answer (mongo_client p).

Definition db_connect (p : ConnectParams) : Run Introspector :=
  match cp_engine p with
  | Mysql => let! pool := connect_mysql p in answer (SqlPool pool)
  | Postgres => let! pool := connect_postgres p in answer (SqlPool pool)
  | Mongo => let! c := connect_mongo p in answer (MongoClient c)
  end.

Definition count_rows (i : Introspector) (database table : string) : Run Z :=
  match i with
  | SqlPool (MysqlPool o) => mysql_row_count (MysqlPool o) database table
  | SqlPool (PgPool o) => pg_row_count (PgPool o) table
  | MongoClient c => mongo_row_count c database table
  end.

Definition digest_table (sha256 : string -> list Z) (i : Introspector) (database table : string)
    : Run (option string) :=
  match i with
  | SqlPool (MysqlPool o) => mysql_table_digest (MysqlPool o) database table
  | SqlPool (PgPool o) => pg_table_digest (PgPool o) table
  | MongoClient c => mongo_table_digest sha256 c database table
  end.

Definition executing (e : string) : DbError := Query ("executing statement: " ++ e)%string.

Definition execute_raw (p : ConnectParams) (sql : string) : Run unit :=
  match cp_engine p with
  | Mysql => let! pool := connect_mysql p in call (execute_sql pool sql) executing
  | Postgres => let! pool := connect_postgres p in call (execute_sql pool sql) executing
  | Mongo => fail (NotSql Mongo)
  end.

Definition drop_database_now (p : ConnectParams) (name : string) : Run unit :=
  match cp_engine p with
  | Mysql =>
      let! quoted := lift_db (quote_mysql_ident name) in
      execute_raw p ("DROP DATABASE IF EXISTS " ++ quoted)%string
  | Postgres =>
      let! quoted := lift_db (quote_pg_ident name) in
      execute_raw p ("DROP DATABASE IF EXISTS " ++ quoted)%string
  | Mongo =>
      if contains_char "000" name then fail (InvalidIdentifier "database name contains a null byte")
      else
        let! c := connect_mongo p in
        call (drop_whole c name) (fun e => Query ("dropping " ++ name ++ ": " ++ e)%string)
  end.
End Introspectors.

(** ** Lemmas *)

Lemma quoted_reads_back q ident :
  contains_char "000" ident = false ->
  exists body, quote_with q ident = Ok (String q body) /\ read_quoted q body = Some (ident, "").
Proof.
  intros Hn. unfold quote_with. rewrite Hn. eexists. split; [reflexivity|].
  by apply (read_quoted_replace q ident "").
Qed.

Lemma name_leb_total a b : String.leb (di_name a) (di_name b) = true \/ String.leb (di_name b) (di_name a) = true.
Proof. apply String.leb_total. Qed.

Lemma clamped x : 0 <= x -> 0 <= Z.min (2 ^ 64 - 1) x < 2 ^ 64.
Proof. lia. Qed.

(** ** Properties *)

(** Dropping a database names that database and nothing else.  On a relational
    engine the one statement sent is [DROP DATABASE IF EXISTS] and an identifier
    that a server reads back as exactly the name given; on MongoDB the name goes to
    the driver as it is.  A name with a null byte is refused before anything is
    opened. *)
Theorem a_drop_names_its_database {W} `{Drivers W} p name w :
  (contains_char "000" name = true ->
     exists e, drop_database_now p name w = (Failed (InvalidIdentifier e), w))
  /\ (contains_char "000" name = false ->
      match cp_engine p with
      | Mysql => exists body, read_quoted "`" body = Some (name, "")
          /\ drop_database_now p name w =
             run_bind (connect_mysql p)
               (fun pool => call (execute_sql pool ("DROP DATABASE IF EXISTS `" ++ body)%string) executing) w
      | Postgres => exists body, read_quoted dquote body = Some (name, "")
          /\ drop_database_now p name w =
             run_bind (connect_postgres p)
               (fun pool => call (execute_sql pool ("DROP DATABASE IF EXISTS " ++ String dquote body)%string)
                              executing) w
      | Mongo => drop_database_now p name w =
          run_bind (connect_mongo p)
            (fun c => call (drop_whole c name) (fun e => Query ("dropping " ++ name ++ ": " ++ e)%string)) w
      end).
Proof.
  unfold drop_database_now. split; intros Hn.
  - destruct (cp_engine p); unfold quote_mysql_ident, quote_pg_ident, quote_with; rewrite Hn; by eexists.
  - destruct (cp_engine p) eqn:E.
    + destruct (quoted_reads_back "`" name Hn) as (body & Hq & Hr). exists body. split; [done|].
      unfold quote_mysql_ident. rewrite Hq. unfold execute_raw. by rewrite E.
    + destruct (quoted_reads_back dquote name Hn) as (body & Hq & Hr). exists body. split; [done|].
      unfold quote_pg_ident. rewrite Hq. unfold execute_raw. by rewrite E.
    + by rewrite Hn.
Qed.

(** The driver and the tools authenticate in one place.  When a user is named,
    the credentials the driver is given are checked against the database that
    mongodump is told to use, for the same user; when none is named and there is no
    password, neither says anything.  A password without a user is the one case in
    which they differ: the driver presents it, mongodump is not told of a user. *)
Theorem driver_and_tools_authenticate_alike p plan config :
  user (mo_endpoint plan) = cp_user p ->
  (cp_user p <> "" ->
     exists c, credential_of p = Some c /\ cr_user c = cp_user p
       /\ In ("--username=" ++ cr_user c)%string (mongo_args plan config)
       /\ In ("--authenticationDatabase=" ++ cr_source c)%string (mongo_args plan config))
  /\ (cp_user p = "" -> cp_password p = None -> credential_of p = None)
  /\ (cp_user p = "" -> forall pw, cp_password p = Some pw ->
        credential_of p = Some (mk_credential "" (Some pw) MONGO_AUTH_SOURCE)).
Proof.
  intros Hu. unfold credential_of. split_and!.
  - intros Hne. apply String.eqb_neq in Hne as Hb. rewrite Hb.
    exists (mk_credential (cp_user p) (cp_password p) MONGO_AUTH_SOURCE).
    split_and!; [by destruct (cp_password p)|done|..]; cbn [cr_user cr_source];
      unfold mongo_args; rewrite Hu, Hb; simpl; tauto.
  - by intros -> ->.
  - by intros -> pw ->.
Qed.

(** The databases offered are the user's.  A listing of a MongoDB server holds
    each database it names, in order, except the three the server keeps for
    itself. *)
Theorem listed_databases_are_the_users {W} `{Drivers W} c w names w' :
  list_database_names c w = (Ok names, w') ->
  exists l, mongo_list_databases c w = (Answered l, w')
    /\ Permutation (map di_name l) (List.filter (fun n => negb (mem n MONGO_SYSTEM_DATABASES)) names)
    /\ Sorted.Sorted (fun a b => String.leb (di_name a) (di_name b) = true) l.
Proof.
  intros Hn. unfold mongo_list_databases, run_bind, call. rewrite Hn. eexists. split_and!; [reflexivity|..].
  - rewrite sort_by_perm, map_map. by rewrite map_id.
  - apply sort_by_sorted. apply name_leb_total.
Qed.

(** A table of a schema without a dot is found again by its qualified name, and
    one of a schema with a dot is not.  Its name is split at the first dot, so that
    its rows are counted, and its contents digested, in a table of another name in
    another schema. *)
Theorem a_qualified_name_splits_at_its_first_dot t schema :
  ti_schema t = Some schema ->
  (contains_char "." schema = false ->
     split_qualified (qualified_name t) "public" = (schema, ti_name t))
  /\ (forall a b, schema = (a ++ "." ++ b)%string -> contains_char "." a = false ->
        split_qualified (qualified_name t) "public" = (a, (b ++ "." ++ ti_name t)%string)).
Proof.
  intros Hs. unfold split_qualified, qualified_name. rewrite Hs. split.
  - intros Hd. change ("." ++ ti_name t)%string with (String "." (ti_name t)). by rewrite split_once_app.
  - intros a b -> Ha. rewrite !append_assoc'. simpl. by rewrite (split_once_app "." a).
Qed.

(** A size reported as a double fits the unsigned integer it is turned into,
    whatever its bits: an infinity is the greatest one, and what is negative or not
    a number is zero. *)
Theorem a_double_size_is_in_range bits : 0 <= bits < 2 ^ 64 ->
  0 <= f64_as_u64 bits < 2 ^ 64 /\ (2 ^ 63 <= bits -> f64_as_u64 bits = 0).
Proof.
  intros Hb. assert (0 <= bits mod 2 ^ 52 < 2 ^ 52) as Hm by (apply Z.mod_pos_bound; lia).
  assert (0 <= (bits / 2 ^ 52) mod 2 ^ 11 < 2 ^ 11) as He by (apply Z.mod_pos_bound; lia).
  split.
  - unfold f64_as_u64. repeat case_match; bools; try lia; apply clamped.
    all: first [apply Z.mul_nonneg_nonneg; [lia|apply Z.pow_nonneg; lia]
               |apply Z.div_pos; [lia|apply Z.pow_pos_nonneg; lia]].
  - intros Hn. unfold f64_as_u64. assert (bits / 2 ^ 63 = 1) as -> by divlia. done.
Qed.

(** ** Witnesses *)

Definition sample_plan : MongoDumpPlan :=
  mk_mongo_plan (mk_resolved Mongodump (LLocal "/usr/bin/mongodump") []) (mk_endpoint "db.internal" 27017 "backup" None)
    "shop" mongo_default [] false "/tmp/shop.archive" [].

Definition sample_params : ConnectParams := mk_params Mongo "db.internal" 27017 "backup" (Some "pw") (Some "shop").

Lemma driver_and_tools_authenticate_alike_witness :
  exists c, credential_of sample_params = Some c /\ cr_user c = "backup"
    /\ In ("--username=" ++ cr_user c)%string (mongo_args sample_plan None)
    /\ In ("--authenticationDatabase=" ++ cr_source c)%string (mongo_args sample_plan None).
Proof. by apply (driver_and_tools_authenticate_alike sample_params sample_plan None eq_refl). Defined.

Definition dotted : TableInfo := new_table_info (Some "reports.eu") "orders" None None None None.

Lemma a_qualified_name_splits_at_its_first_dot_witness :
  split_qualified (qualified_name dotted) "public" = ("reports", "eu.orders").
Proof.
  apply (proj2 (a_qualified_name_splits_at_its_first_dot dotted "reports.eu" eq_refl) "reports" "eu"); reflexivity.
Defined.

Lemma a_double_size_is_in_range_witness : 0 <= f64_as_u64 4652007308841189376 < 2 ^ 64.
Proof. apply (a_double_size_is_in_range 4652007308841189376); lia. Defined.

(** A server that answers nothing of interest, and names its databases. *)
#[local] Instance named : Drivers unit := {
  open_pool _ w := (Ok tt, w);
  fetch_all _ _ _ w := (Ok [], w);
  execute_sql _ _ w := (Ok tt, w);
  with_options _ := Ok tt;
  run_command _ _ _ w := (Ok [], w);
  list_database_names _ w := (Ok ["shop"; "admin"; "app"], w);
  list_collection_names _ _ w := (Ok [], w);
  aggregate _ _ _ _ w := (Ok [], w);
  find_all _ _ _ w := (Ok [], w);
  count_all _ _ _ w := (Ok 0, w);
  drop_whole _ _ w := (Ok tt, w);
  to_vec _ := Ok "";
  decode_error _ := "error occurred while decoding column 0";
  value_error key _ := key;
  bson_debug _ := "" }.

Lemma listed_databases_are_the_users_witness :
  exists l, mongo_list_databases (mongo_client sample_params) tt = (Answered l, tt)
    /\ Permutation (map di_name l) ["shop"; "app"]
    /\ Sorted.Sorted (fun a b => String.leb (di_name a) (di_name b) = true) l.
Proof.
  exact (listed_databases_are_the_users (mongo_client sample_params) tt ["shop"; "admin"; "app"] tt eq_refl).
Defined.

Lemma a_drop_names_its_database_witness :
  exists e, drop_database_now sample_params (String "000" "") tt = (Failed (InvalidIdentifier e), tt).
Proof. exact (proj1 (a_drop_names_its_database sample_params (String "000" "") tt) eq_refl). Defined.
