(* ===== verification/Digests.v ===== *)
(** * Digests: what a digest of a table can tell (engine/src/db.rs)

    MongoDB's digest is computed by the engine from documents brought to one form;
    it does not depend on the order of documents or of fields, and the form tells
    apart what differs in anything else.  MySQL's is computed by the server from
    the statement of [mysql_digest_sql]; [mysql_digest] is what that statement
    means, and two ways in which it cannot tell tables apart are theorems. *)

From Stdlib Require Import ZArith Lia Ascii String List Bool Permutation Sorted.
From stdpp Require Import base list gmap strings.
From S2P Require Import Prelude Text Domain Sql Verify Backup BackupMongo Mask MongoMask Ops Checking Introspect.
Import ListNotations.

Open Scope string_scope.
Open Scope list_scope.
Open Scope Z_scope.

(** ** Documents up to the order of their fields *)

(** Induction on a value, through documents and arrays. *)
Section BsonInd.
Variable P : Bson -> Prop.
Hypothesis P_document : forall d, Forall (fun kv => P kv.2) d -> P (BDocument d).
Hypothesis P_array : forall l, Forall P l -> P (BArray l).
Hypothesis P_scalar : forall v, is_maskable v = true -> P v.

Fixpoint bson_induction (v : Bson) : P v.
Proof.
  destruct v as [| | | | | | | | | |d|l|]; try (apply P_scalar; reflexivity).
  - apply P_document. induction d as [|[k w] d IH]; constructor; [apply bson_induction|exact IH].
  - apply P_array. induction l as [|w l IH]; constructor; [apply bson_induction|exact IH].
Qed.
End BsonInd.

#[local] Unset Elimination Schemes.

(** The same data, the fields of documents in any order. *)
Inductive same_data : Bson -> Bson -> Prop :=
| same_scalar v : is_maskable v = true -> same_data v v
| same_array l l' : Forall2 same_data l l' -> same_data (BArray l) (BArray l')
| same_document d e d' : Forall2 (fun a b => a.1 = b.1 /\ same_data a.2 b.2) d e ->
    Permutation e d' -> same_data (BDocument d) (BDocument d').

(** No document names a field twice, as in the bson crate's [Document]. *)
Inductive distinct : Bson -> Prop :=
| distinct_scalar v : is_maskable v = true -> distinct v
| distinct_array l : Forall distinct l -> distinct (BArray l)
| distinct_document d : NoDup d.*1 -> Forall (fun kv => distinct kv.2) d -> distinct (BDocument d).

#[local] Set Elimination Schemes.

Section Canonical.
Context {W : Type} `{Drivers W}.

Definition tagged (kv : string * Bson) : string * string * Bson := (kv.1, bson_debug kv.2, canon_value kv.2).
Definition canon_field (kv : string * Bson) : string * Bson := (kv.1, canon_value kv.2).
Definition untag (f : string * string * Bson) : string * Bson := (f.1.1, f.2).

Lemma canon_document d :
  canon_value (BDocument d) = BDocument (insert_all (sort_by field_leb (map tagged d))).
Proof. cbn [canon_value]. do 3 f_equal. apply map_ext. by intros [k v]. Qed.

Lemma doc_insert_new d k v : ~ In k (map fst d) -> doc_insert d k v = d ++ [(k, v)].
Proof.
  induction d as [|[k' w] d IH]; intros Hk; [done|]. simpl in *.
  destruct (String.eqb_spec k' k) as [->|_]; [naive_solver|]. rewrite IH; naive_solver.
Qed.

Lemma insert_all_new l : forall out, List.NoDup (map fst out ++ map (fun f => f.1.1) l) ->
  fold_left (fun out f => doc_insert out f.1.1 f.2) l out = out ++ map untag l.
Proof.
  induction l as [|f l IH]; intros out Hn; cbn [fold_left map]; [by rewrite app_nil_r|].
  cbn [map] in Hn. pose proof (NoDup_remove_2 _ _ _ Hn) as Hf. rewrite in_app_iff in Hf.
  rewrite doc_insert_new by tauto. rewrite IH; [by rewrite <- app_assoc|].
  rewrite map_app, <- app_assoc. exact Hn.
Qed.

Lemma keys_tagged d : map (fun f => f.1.1) (map tagged d) = map fst d.
Proof. rewrite map_map. by apply map_ext. Qed.

Lemma untag_tagged d : map untag (map tagged d) = map canon_field d.
Proof. rewrite map_map. by apply map_ext. Qed.

(** The canonical fields: those of the document, by name. *)
Definition canon_fields (d : Document) : Document := map untag (sort_by field_leb (map tagged d)).

Lemma canon_distinct d : NoDup d.*1 -> canon_value (BDocument d) = BDocument (canon_fields d).
Proof.
  intros Hn%NoDup_ListNoDup. rewrite canon_document. f_equal. unfold insert_all, canon_fields.
  rewrite insert_all_new; [done|]. simpl.
  eapply Permutation_NoDup; [apply Permutation_map; symmetry; apply sort_by_perm|]. by rewrite keys_tagged.
Qed.

Lemma canon_fields_perm d : Permutation (canon_fields d) (map canon_field d).
Proof. unfold canon_fields. by rewrite sort_by_perm, untag_tagged. Qed.

Definition key_leb (a b : string * Bson) : bool := String.leb a.1 b.1.

Lemma field_leb_key a b : field_leb a b = true -> key_leb (untag a) (untag b) = true.
Proof.
  unfold field_leb, key_leb. rewrite pair_leb_iff. simpl. intros [[? _]|[-> _]]; [done|].
  destruct (String.leb_total b.1.1 b.1.1); done.
Qed.

Lemma sorted_map {A B} (f : A -> B) (R : A -> A -> Prop) (Q : B -> B -> Prop) l :
  (forall a b, R a b -> Q (f a) (f b)) -> Sorted R l -> Sorted Q (map f l).
Proof.
  intros HR. induction 1 as [|a l Hl IH Ha]; simpl; constructor; [done|].
  destruct Ha; simpl; constructor; auto.
Qed.

Lemma canon_fields_sorted d : Sorted (fun a b => key_leb a b = true) (canon_fields d).
Proof.
  unfold canon_fields. eapply sorted_map; [intros a b; apply field_leb_key|].
  apply sort_by_sorted. intros a b. apply pair_leb_total.
Qed.

(** Sorted fields with distinct names are told apart by their names. *)
Lemma canon_fields_unique d d' : NoDup d.*1 ->
  Permutation (map canon_field d) (map canon_field d') -> canon_fields d = canon_fields d'.
Proof.
  intros Hn P. apply (sorted_unique key_leb).
  - intros a b c. apply string_leb_trans.
  - intros a b Ha Hb Hab Hba. assert (a.1 = b.1) as Hk by (by apply String.leb_antisym).
    apply (Permutation_in _ (canon_fields_perm d)), in_map_iff in Ha as ([k v] & <- & Ha).
    apply (Permutation_in _ (canon_fields_perm d)), in_map_iff in Hb as ([k' v'] & <- & Hb).
    simpl in Hk. subst k'. f_equal. f_equal.
    apply list_elem_of_In in Ha, Hb.
    apply list_elem_of_lookup in Ha as [i Hi], Hb as [j Hj].
    assert (i = j) as ->; [|congruence].
    apply (NoDup_lookup _ _ _ k Hn); rewrite list_lookup_fmap; [by rewrite Hi|by rewrite Hj].
  - apply canon_fields_sorted.
  - apply canon_fields_sorted.
  - by rewrite !canon_fields_perm.
Qed.

Lemma canon_scalar v : is_maskable v = true -> canon_value v = v.
Proof. by destruct v. Qed.

Lemma canon_maskable v : is_maskable (canon_value v) = is_maskable v.
Proof. by destruct v. Qed.

Lemma distinct_document_inv d : distinct (BDocument d) -> NoDup d.*1 /\ Forall (fun kv => distinct kv.2) d.
Proof. by inversion 1. Qed.

Lemma distinct_array_inv l : distinct (BArray l) -> Forall distinct l.
Proof. by inversion 1. Qed.
Lemma Forall2_map_eq {A B} (f : A -> B) (R : A -> A -> Prop) l l' :
  (forall a b, In a l -> R a b -> f a = f b) -> Forall2 R l l' -> map f l = map f l'.
Proof.
  intros HR. induction 1 as [|a b l l' Hab Hl IH]; [done|]. simpl.
  rewrite (HR a b) by (done || by left). f_equal. apply IH. intros x y Hx. apply HR. by right.
Qed.

Lemma map_eq_Forall2 {A B} (f : A -> B) (R : A -> A -> Prop) l : forall l',
  (forall a b, In a l -> In b l' -> f a = f b -> R a b) -> map f l = map f l' -> Forall2 R l l'.
Proof.
  induction l as [|a l IH]; intros [|b l'] HR; try done. simpl. intros [= Hab Hl].
  constructor; [by apply HR; [left|left|]|]. apply IH; [|done]. intros x y Hx Hy. apply HR; by right.
Qed.

Lemma same_canon v : distinct v -> forall v', same_data v v' -> canon_value v = canon_value v'.
Proof.
  induction v as [d IH|l IH|v Hv] using bson_induction; intros Hd v' Hs.
  - inversion Hs as [? Hm| |? e d' Hf Hp]; subst; [done|].
    destruct (distinct_document_inv d Hd) as [Hn Hds]. rewrite List.Forall_forall in IH, Hds.
    assert (map canon_field d = map canon_field e) as He.
    { eapply Forall2_map_eq; [|exact Hf]. intros [k a] [k' b] Hin [Hk Hab]. simpl in *. subst.
      unfold canon_field. simpl. f_equal. by apply (IH (k', a)); [|apply (Hds (k', a))|]. }
    assert (NoDup d'.*1) as Hn'.
    { rewrite <- Hp. assert (e.*1 = d.*1) as ->; [|done]. symmetry.
      eapply (Forall2_map_eq fst); [|exact Hf]. by intros ?? _ [-> _]. }
    rewrite !canon_distinct by done. f_equal. apply canon_fields_unique; [done|]. by rewrite He, Hp.
  - inversion Hs as [? Hm|? l' Hf|]; subst; [done|]. simpl. f_equal.
    rewrite List.Forall_forall in IH. pose proof (distinct_array_inv l Hd) as Hds.
    rewrite List.Forall_forall in Hds. eapply Forall2_map_eq; [|exact Hf]. intros a b Ha. auto.
  - inversion Hs; subst; try done.
Qed.

Lemma canon_same v : distinct v -> forall v', distinct v' -> canon_value v = canon_value v' -> same_data v v'.
Proof.
  induction v as [d IH|l IH|v Hv] using bson_induction; intros Hd v' Hd' Hc.
  - destruct v' as [| | | | | | | | | |d'|l'|]; try done. destruct (distinct_document_inv d Hd) as [Hn Hds], (distinct_document_inv d' Hd') as [Hn' Hds'].
    rewrite !canon_distinct in Hc by done. injection Hc as Hc.
    rewrite List.Forall_forall in IH, Hds, Hds'.
    assert (Permutation (map canon_field d) (map canon_field d')) as Hp
      by (by rewrite <- !canon_fields_perm, Hc).
    apply Permutation_map_inv in Hp as (e & He & Hp). symmetry in Hp.
    apply (same_document d e d'); [|done]. eapply map_eq_Forall2; [|exact He].
    intros [k a] [k' b] Ha Hb [= -> Hab]. split; [done|]. simpl.
    apply (IH (k', a)); [done|by apply (Hds (k', a))| |done].
    apply (Hds' (k', b)). by apply (Permutation_in _ Hp).
  - destruct v' as [| | | | | | | | | |d'|l'|]; try done. constructor. rewrite List.Forall_forall in IH.
    pose proof (distinct_array_inv l Hd) as Hds. pose proof (distinct_array_inv l' Hd') as Hds'.
    rewrite List.Forall_forall in Hds, Hds'. injection Hc as Hc.
    eapply map_eq_Forall2; [|exact Hc]. intros a b Ha Hb. auto.
  - assert (is_maskable v' = true) as Hv' by (rewrite <- canon_maskable, <- Hc, canon_maskable; done).
    rewrite !canon_scalar in Hc by done. subst. by constructor.
Qed.

Lemma canonicalise_spec d : canon_value (BDocument d) = BDocument (canonicalise d).
Proof. unfold canonicalise. by rewrite canon_document. Qed.

Lemma same_all (l e : list Document) :
  Forall (fun d => distinct (BDocument d)) l ->
  Forall2 (fun d d' => same_data (BDocument d) (BDocument d')) l e ->
  Forall2 (fun d d' => canonicalise d = canonicalise d') l e.
Proof.
  intros Hd Hs. induction Hs as [|a b l e Hab Hs IH]; [apply List.Forall2_nil|].
  apply List.Forall_cons_iff in Hd as [Ha Hd]. apply List.Forall2_cons; [|by apply IH].
  apply same_canon in Hab; [|done]. rewrite !canonicalise_spec in Hab. by injection Hab.
Qed.

(** ** The fold *)

Lemma xor_into_comm fold : forall a b, xor_into (xor_into fold a) b = xor_into (xor_into fold b) a.
Proof.
  induction fold as [|x fold IH]; intros [|a l] [|b m]; try done. simpl. rewrite IH. f_equal.
  by rewrite !Z.lxor_assoc, (Z.lxor_comm a b).
Qed.

Section Fold.
Variable sha256 : string -> list Z.

Definition folded (database table : string) (l : list Document) (fold : list Z) : result (list Z) DbError :=
  fold_documents sha256 database table (map Found l) fold.

Lemma folded_perm database table l l' : Permutation l l' -> forall fold out,
  folded database table l fold = Ok out -> folded database table l' fold = Ok out.
Proof.
  unfold folded. induction 1 as [|d l l' P IH|d e l|l l' l'' P IH P' IH']; intros fold out; cbn [map fold_documents].
  - done.
  - destruct (to_vec (canonicalise d)); [apply IH|done].
  - destruct (to_vec (canonicalise d)) as [x|], (to_vec (canonicalise e)) as [y|]; try done.
    by rewrite xor_into_comm.
  - auto.
Qed.

Lemma folded_same database table l l' :
  Forall2 (fun d e => canonicalise d = canonicalise e) l l' -> forall fold,
  folded database table l fold = folded database table l' fold.
Proof.
  unfold folded. induction 1 as [|d e l l' Hd Hl IH]; intros fold; cbn [map fold_documents]; [done|].
  rewrite Hd. by destruct (to_vec (canonicalise e)).
Qed.
End Fold.
End Canonical.

(** ** MySQL's digest

    What [mysql_digest_sql] asks the server for, of rows whose columns are the cast
    values, [None] for NULL: the values joined by a null byte, a NULL written as a
    sentinel, hashed, and the first 64 bits of the hashes folded together. *)

Definition NUL : string := String "000" "".
Definition NULL_SENTINEL : string := (NUL ++ "NULL")%string.

Definition row_text (row : list (option string)) : string := join NUL (map (default NULL_SENTINEL) row).

Section Mysql.
Variable md5 : string -> string.

Definition row_hash (row : list (option string)) : Z :=
  default 0 (from_str_radix16 (take_chars 16 (md5 (row_text row)))).

Definition mysql_digest (rows : list (list (option string))) : string :=
  show (fold_left (fun a r => Z.lxor a (row_hash r)) rows 0).

Lemma fold_lxor_acc l : forall a, fold_left (fun a r => Z.lxor a (row_hash r)) l a
  = Z.lxor a (fold_left (fun a r => Z.lxor a (row_hash r)) l 0).
Proof.
  induction l as [|r l IH]; intros a; simpl; [by rewrite Z.lxor_0_r|].
  rewrite IH, (IH (Z.lxor 0 (row_hash r))). by rewrite Z.lxor_0_l, Z.lxor_assoc.
Qed.

Lemma fold_lxor_perm l l' : Permutation l l' ->
  fold_left (fun a r => Z.lxor a (row_hash r)) l 0 = fold_left (fun a r => Z.lxor a (row_hash r)) l' 0.
Proof.
  induction 1 as [|r l l' P IH|r q l|l l' l'' P IH P' IH']; simpl.
  - done.
  - by rewrite fold_lxor_acc, IH, <- fold_lxor_acc.
  - by rewrite (Z.lxor_comm (row_hash r)).
  - congruence.
Qed.

Lemma twice_is_none r l : mysql_digest (r :: r :: l) = mysql_digest l.
Proof. unfold mysql_digest. simpl. by rewrite Z.lxor_nilpotent. Qed.

Lemma digest_perm l l' : Permutation l l' -> mysql_digest l = mysql_digest l'.
Proof. intros P. unfold mysql_digest. by rewrite (fold_lxor_perm l l'). Qed.

Lemma doubled_is_none l : mysql_digest (l ++ l) = mysql_digest [].
Proof.
  induction l as [|r l IH]; [done|]. rewrite <- IH, <- (twice_is_none r (l ++ l)).
  apply digest_perm. simpl. by rewrite <- Permutation_middle.
Qed.
End Mysql.

(** ** Properties *)

(** C33: the canonical form of a document is its data.  Two documents are brought to
    one form exactly when they differ in nothing but the order of fields, at any
    depth: reordering is forgiven, and nothing else is - not the order of an array,
    not a value, not a name. *)
Theorem canonical_form_is_the_data {W} `{Drivers W} d d' :
  distinct (BDocument d) -> distinct (BDocument d') ->
  canonicalise d = canonicalise d' <-> same_data (BDocument d) (BDocument d').
Proof.
  intros Hd Hd'. split.
  - intros Hc. apply canon_same; [done..|]. by rewrite !canonicalise_spec, Hc.
  - intros Hs%same_canon; [|done]. rewrite !canonicalise_spec in Hs. by injection Hs.
Qed.

(** A collection's digest does not depend on how it is stored.  When a digest
    was computed of one collection, and another - of any name, on any server -
    yields the same documents in any order, each with its fields in any order, the
    digest of the other is the same. *)
Theorem a_digest_is_of_the_documents {W} `{Drivers W} sha256 c database table w l w1 h w2
    c' database' table' w' l' e w1' :
  find_all c database table w = (Ok (map Found l), w1) ->
  find_all c' database' table' w' = (Ok (map Found l'), w1') ->
  Forall (fun d => distinct (BDocument d)) l ->
  Forall2 (fun d d' => same_data (BDocument d) (BDocument d')) l e -> Permutation e l' ->
  mongo_table_digest sha256 c database table w = (Answered h, w2) ->
  fst (mongo_table_digest sha256 c' database' table' w') = Answered h.
Proof.
  intros Hf Hf' Hd Hs Hp. unfold mongo_table_digest, run_bind, call. rewrite Hf, Hf'.
  change (fold_documents sha256 database table (map Found l)) with (folded sha256 database table l).
  destruct (folded sha256 database table l (repeat 0 32)) as [out|] eqn:E; [|done].
  cbn [lift_db answer]. intros [= <- _].
  assert (folded sha256 database' table' l (repeat 0 32) = Ok out) as E'.
  { revert E. unfold folded. generalize (repeat 0 32). clear. induction l as [|d l IH]; intros f; [done|].
    cbn [map fold_documents]. destruct (to_vec (canonicalise d)); [apply IH|done]. }
  rewrite (folded_same sha256 database' table' l e) in E'.
  2:{ by apply same_all. }
  apply (folded_perm sha256 database' table' _ _ Hp) in E'. unfold folded in E'. by rewrite E'.
Qed.

(** C18: rows that occur twice are invisible to a MySQL digest.  Whatever the hash,
    equal rows cancel: a table of rows that each occur twice has the digest of an
    empty one, so when every row is replaced by another, twice, the deeper
    verification of two such tables with as many rows still ends in a match. *)
Theorem doubled_rows_always_match md5 rows rows' deep t :
  source_digests deep !! t = Some (Some (mysql_digest md5 (rows ++ rows))) ->
  dest_digests deep !! t = Some (Some (mysql_digest md5 (rows' ++ rows'))) ->
  schema_difference deep t = None ->
  refine_entry deep (mk_tv t Match) = mk_tv t Match.
Proof.
  intros Hs Hd Hc. unfold refine_entry, content_difference. cbn [verdict table].
  by rewrite Hc, Hs, Hd, !doubled_is_none, String.eqb_refl.
Qed.

(** A MySQL digest runs columns together.  The comment calls the separator and
    the sentinel something that cannot appear in real data, but a text column may
    hold a null byte: a value that holds the separator moves its border with the
    next column, and the text of the sentinel is a NULL, whatever the hash. *)
Theorem columns_run_together md5 a b c rest other :
  mysql_digest md5 ((Some (a ++ NUL ++ b)%string :: Some c :: rest) :: other)
  = mysql_digest md5 ((Some a :: Some (b ++ NUL ++ c)%string :: rest) :: other)
  /\ mysql_digest md5 ((None :: rest) :: other) = mysql_digest md5 ((Some NULL_SENTINEL :: rest) :: other).
Proof.
  assert (row_text (Some (a ++ NUL ++ b)%string :: Some c :: rest)
          = row_text (Some a :: Some (b ++ NUL ++ c)%string :: rest)) as Ht.
  { unfold row_text. cbn [map default from_option id join].
    destruct (map _ rest); rewrite !append_assoc'; done. }
  unfold mysql_digest, row_hash. cbn [fold_left]. by rewrite Ht.
Qed.

(** ** Witnesses *)

Module Sample.

(** A server with two copies of one collection, stored differently. *)
Definition stored : list Document :=
  [[("_id", BInt32 1); ("at", BDocument [("x", BInt32 1); ("y", BNull)])]; [("_id", BInt32 2)]].
Definition restored_docs : list Document :=
  [[("_id", BInt32 2)]; [("at", BDocument [("y", BNull); ("x", BInt32 1)]); ("_id", BInt32 1)]].

(** An encoding and a hash that tell the documents apart. *)
Definition encoded (d : Document) : string :=
  String.concat "," (map (fun kv => kv.1 ++ match kv.2 with
    | BInt32 n => show n
    | BDocument e => String.concat ";" (map fst e)
    | _ => ""
    end)%string d).

Definition bytes_of (s : string) : list Z := map code (list_ascii_of_string s).

#[export] Instance copies : Drivers unit := {
  open_pool _ w := (Ok tt, w);
  fetch_all _ _ _ w := (Ok [], w);
  execute_sql _ _ w := (Ok tt, w);
  with_options _ := Ok tt;
  run_command _ _ _ w := (Ok [], w);
  list_database_names _ w := (Ok [], w);
  list_collection_names _ _ w := (Ok [], w);
  aggregate _ _ _ _ w := (Ok [], w);
  find_all _ database _ w :=
    (Ok (map Found (if String.eqb database "source" then stored else restored_docs)), w);
  count_all _ _ _ w := (Ok 2, w);
  drop_whole _ _ w := (Ok tt, w);
  to_vec d := Ok (encoded d);
  decode_error _ := "error occurred while decoding column 0";
  value_error key _ := key;
  bson_debug _ := "" }.

Definition client : ClientOptions := mongo_client (mk_params Mongo "localhost" 27017 "" None None).

Lemma scalar_distinct v : is_maskable v = true -> distinct v.
Proof. apply distinct_scalar. Qed.

Lemma stored_distinct : Forall (fun d => distinct (BDocument d)) stored.
Proof.
  assert (forall n, distinct (BInt32 n)) as Hi by (intros; by apply scalar_distinct).
  constructor; [|constructor; [|constructor]]; apply distinct_document;
    try (apply (bool_decide_unpack _); by vm_compute).
  - constructor; [apply Hi|]. constructor; [|constructor]. apply distinct_document.
    + apply (bool_decide_unpack _); by vm_compute.
    + constructor; [apply Hi|]. constructor; [by apply scalar_distinct|constructor].
  - constructor; [apply Hi|constructor].
Qed.

Definition reordered : list Document := [nth 1 restored_docs []; nth 0 restored_docs []].

Lemma stored_same : Forall2 (fun d d' => same_data (BDocument d) (BDocument d')) stored reordered.
Proof.
  assert (forall v, is_maskable v = true -> same_data v v) as Hv by (by constructor).
  constructor; [|constructor; [|constructor]].
  - eapply (same_document _ [("_id", BInt32 1); ("at", BDocument [("y", BNull); ("x", BInt32 1)])]);
      [|apply perm_swap].
    constructor; [by split; [|apply Hv]|]. constructor; [|constructor]. split; [done|].
    eapply (same_document _ [("x", BInt32 1); ("y", BNull)]); [|apply perm_swap].
    constructor; [by split; [|apply Hv]|]. constructor; [by split; [|apply Hv]|constructor].
  - eapply same_document; [|done]. constructor; [by split; [|apply Hv]|constructor].
Qed.

Definition digest_of (database : string) : DbAnswer (option string) :=
  fst (mongo_table_digest bytes_of client database "events" tt).

Definition hexadecimal : string := match digest_of "source" with Answered (Some h) => h | _ => "" end.

Lemma digested : mongo_table_digest bytes_of client "source" "events" tt = (Answered (Some hexadecimal), tt).
Proof. vm_compute. reflexivity. Qed.

Definition rows_before : list (list (option string)) := [[Some "paid"; Some "10"]].
Definition rows_after : list (list (option string)) := [[Some "void"; None]].

Definition md5 (s : string) : string := hex_bytes (bytes_of s).

Definition deep : DeepComparison :=
  mk_deep {["payments" := Some (mysql_digest md5 (rows_before ++ rows_before))]}
    {["payments" := Some (mysql_digest md5 (rows_after ++ rows_after))]}
    {["payments" := ["state"; "amount"]]} {["payments" := ["state"; "amount"]]} {["payments" := 2]}.
End Sample.

Import Sample.

Lemma canonical_form_is_the_data_witness :
  canonicalise (nth 0 stored []) = canonicalise (nth 0 reordered [])
  <-> same_data (BDocument (nth 0 stored [])) (BDocument (nth 0 reordered [])).
Proof.
  apply (canonical_form_is_the_data (nth 0 stored []) (nth 0 reordered [])).
  - exact (Forall_inv stored_distinct).
  - apply distinct_document; [apply (bool_decide_unpack _); by vm_compute|].
    assert (forall v, is_maskable v = true -> distinct v) as Hv by apply scalar_distinct.
    constructor; [|constructor; [by apply Hv|constructor]]. apply distinct_document.
    + apply (bool_decide_unpack _); by vm_compute.
    + constructor; [by apply Hv|]. constructor; [by apply Hv|constructor].
Defined.

Lemma a_digest_is_of_the_documents_witness :
  fst (mongo_table_digest bytes_of client "copy" "events" tt) = Answered (Some hexadecimal).
Proof.
  apply (a_digest_is_of_the_documents bytes_of client "source" "events" tt stored tt (Some hexadecimal) tt
           client "copy" "events" tt restored_docs reordered tt);
    [reflexivity|reflexivity|exact stored_distinct|exact stored_same|apply perm_swap|exact digested].
Defined.

Lemma doubled_rows_always_match_witness : refine_entry deep (mk_tv "payments" Match) = mk_tv "payments" Match.
Proof. apply (doubled_rows_always_match md5 rows_before rows_after); vm_compute; reflexivity. Defined.
