(* ===== verification/Drill.v ===== *)
(** * Drill: restoring the newest backup to prove that it restores
      (engine/src/ops.rs: drill, check_against_manifest, drop_scratch_database)

    A drill restores into a database whose name it makes up, compares it with the
    manifest of the artifact, and drops it.  Dropping is refused for any name a
    drill would not have made up. *)

From Stdlib Require Import ZArith Lia Ascii String List Bool.
From stdpp Require Import base list gmap strings.
From S2P Require Import Prelude Text Time Domain Sql Exec Tools Retention Backup Restore Verify Mask Plan.
From S2P Require Import Job BackupMysql BackupPostgres BackupMongo Step Pipeline Ops PipelineRun Disk Library Substring S3Sign Checking.
Import ListNotations.

Open Scope string_scope.
Open Scope list_scope.
Open Scope Z_scope.
Open Scope dbsync_scope.

(** ** Names of scratch databases *)

Definition DRILL_PREFIX : string := "dbsync_drill".
Definition DISCRIMINATOR_LEN : nat := 6.

Definition is_hexdigit (c : ascii) : bool :=
  is_digit c || in_range 97 102 (code c) || in_range 65 70 (code c).

Fixpoint stamp_chars (i : Z) (s : string) : bool :=
  match s with
  | EmptyString => true
  | String c r => (if i =? 8 then Ascii.eqb c "_" else is_digit c) && stamp_chars (i + 1) r
  end.

(** [YYYYMMDD_HHMMSS]. *)
Definition is_drill_stamp (stamp : string) : bool := Nat.eqb (String.length stamp) 15 && stamp_chars 0 stamp.

Definition is_drill_database (name : string) : bool :=
  match (match strip_prefix DRILL_PREFIX name with Some rest => strip_prefix "_" rest | None => None end) with
  | None => false
  | Some rest =>
      let stamp := match split_once "_" rest with
                   | Some (head, tail) =>
                       if Nat.eqb (String.length head) DISCRIMINATOR_LEN && all_chars is_hexdigit head
                          && is_drill_stamp tail
                       then tail else rest
                   | None => rest
                   end in
      is_drill_stamp stamp
  end.

(** The prefix of one run, from a fresh uuid in hexadecimal. *)
Definition drill_prefix (simple : string) : exec string :=
  match slice_to DISCRIMINATOR_LEN simple with
  | Val d => Val (DRILL_PREFIX ++ "_" ++ d)%string
  | Panic => Panic
  end.

(** ** The check *)

Definition empty_reason : string :=
  "restored empty, and this backup did not record source row counts — so an empty table cannot be told apart from one that lost its rows. Turn on row counts for the backup to compare exactly".

Definition data_verdict (counts recorded : gmap string Z) (name : string) : TableVerdict :=
  match counts !! name, recorded !! name with
  | None, _ => MissingAtDestination
  | Some actual, Some source =>
      if negb (actual =? source) then RowCountMismatch source actual else Match
  | Some actual, None => if actual =? 0 then Skipped empty_reason else Match
  end.

Definition structure_verdict (counts : gmap string Z) (name : string) : TableVerdict :=
  if is_some (counts !! name) then Match else MissingAtDestination.

Definition schema_only_of (m : BackupManifest) : list string :=
  List.filter (fun t => negb (existsb (String.eqb t) (manifest_tables_with_data m))) (manifest_tables m).

Definition manifest_report (m : BackupManifest) (counts : gmap string Z) : VerificationReport :=
  let tables :=
    map (fun name => mk_tv name (data_verdict counts (source_row_counts m) name)) (manifest_tables_with_data m)
    ++ map (fun name => mk_tv name (structure_verdict counts name)) (schema_only_of m) in
  mk_report tables (Z.of_nat (length tables)) (count is_failure tables) (count is_skipped tables).

(** A match that could not be read to the end is not compared. *)
Definition unread (digests : gmap string (option string)) (columns : gmap string (list string)) (e : TableVerification)
    : TableVerification :=
  match verdict e, digests !! Verify.table e, columns !! Verify.table e with
  | Match, Some None, Some (_ :: _) => mk_tv (Verify.table e) (Skipped "could not be read end to end")
  | _, _, _ => e
  end.

Definition read_report (r : VerificationReport) (digests : gmap string (option string))
    (columns : gmap string (list string)) : VerificationReport :=
  let tables := map (unread digests columns) (tables r) in
  mk_report tables (tables_checked r) (failures r) (count is_skipped tables).

Section Drill.
Context {W : Type} `{Server W} `{Engines W} `{Host} `{Calendar} `{Codec}.
Variable disk : W -> Disk.
Variable new_uuid : W -> string * W.                 (* [Uuid::new_v4().simple()] *)
Variable rfc3339 : Z -> string.
Variable str_debug : string -> string.

Definition check_against_manifest (dest : ConnectionProfile) (m : BackupManifest) (scratch : string) (deep : bool)
    : Op W VerificationReport :=
  let* _ := emit_info PhaseVerify "checking the restored database" in
  let* e := reach dest in
  let* counts := count_tables dest e scratch (manifest_tables m) in
  let report := manifest_report m counts in
  if deep then
    let* _ := emit_info PhaseVerify "reading every row" in
    let* (digests, columns) := digest_tables dest e scratch (manifest_tables m) [] in
    ret (read_report report digests columns)
  else ret report.

Definition drop_scratch_database (dest : ConnectionProfile) (name : string) : Op W unit :=
  if negb (is_drill_database name) then
    let* _ := emit_error_ Cleanup ("refusing to drop " ++ str_debug name ++ ": it is not a drill database")%string in
    fail (OpRestore (RInvalid ("refusing to drop " ++ str_debug name
            ++ ": only databases created by a drill may be dropped")%string))
  else
    let* e := reach dest in
    let params := params_for dest e (bootstrap_database (profile_engine dest)) in
    let* _ := ask (drop_database params name) in
    emit_info Cleanup ("dropped " ++ name)%string.

Definition newest (dir : string) : Op W Artifact := fun s =>
  match list_artifacts (disk (world s)) dir with
  | a :: _ => (Ok a, s)
  | [] => fail (OpBackup (Invalid (InvalidText
            ("no backups found in " ++ dir ++ "; a drill needs something to restore")%string))) s
  end.

Definition read_manifest (a : Artifact) : Op W BackupManifest := fun s =>
  lift (map_err (Library.read (disk (world s)) (a_path a))
    (fun e => OpBackup (Invalid (InvalidText
       (a_filename a ++ " has no readable manifest, so there is nothing to check the restore against: "
        ++ manifest_error_text e)%string)))) s.

Definition fresh_prefix : Op W string := fun s =>
  let '(simple, w) := new_uuid (world s) in
  match drill_prefix simple with
  | Val p => (Ok p, mk_op w (trace s))
  | Panic => (Err (Panicked "byte index 6 is out of bounds"), mk_op w (trace s))
  end.

Definition drill_plan (filename : string) : StepPlan :=
  add_step (add_step (add_step [] SRestore ("Restore " ++ filename ++ " to a scratch database")%string)
              SVerify "Check it against its manifest")
    SCleanup "Drop the scratch database".

Definition drill (dest : ConnectionProfile) (request : DrillRequest) (tools : ToolSource) : Op W DrillOutcome :=
  let* _ := emit_info Initializing "looking for the newest backup" in
  let* artifact := newest (dr_artifact_dir request) in
  let* m := read_manifest artifact in
  let* _ := emit_info PhaseRestore ("drilling " ++ a_filename artifact ++ " (" ++ show (Z.of_nat (length (manifest_tables m)))
              ++ " tables, taken " ++ rfc3339 (manifest_created_at m) ++ ")")%string in
  let* _ := note (Planned (drill_plan (a_filename artifact))) in
  let* prefix := fresh_prefix in
  let restore_request := mk_restore (a_path artifact) (NewTimestamped prefix) (dr_restore request) true None in
  let* _ := note (Begun SRestore) in
  let* scratch := restore dest restore_request tools in
  let* _ := note (Finished (database_detail scratch)) in
  let* _ := note (Begun SVerify) in
  let* report := check_against_manifest dest m scratch (dr_deep_verify request) in
  let* _ := note (Finished (add_note (checked_detail report)
              (if passed report then "the backup restores and holds what it claims"
               else show (failures report) ++ " table(s) did not match the manifest")%string)) in
  let keep := negb (passed report) && dr_keep_on_failure request in
  let* _ := (if keep then
               let* _ := emit_warning Cleanup ("drill failed; leaving " ++ scratch ++ " in place for inspection")%string in
               note (Skipped_ SCleanup (scratch ++ " left in place for inspection")%string)
             else
               let* _ := note (Begun SCleanup) in
               let* _ := drop_scratch_database dest scratch in
               note (Finished (database_detail scratch))) in
  ret (mk_drill_outcome (a_filename artifact) scratch (negb keep) report).
End Drill.

(** ** What the names look like *)

Definition digits_of (n : nat) (s : string) : Prop := String.length s = n /\ all_chars is_digit s = true.

Definition stamped (s : string) : Prop :=
  exists date time, s = (date ++ "_" ++ time)%string /\ digits_of 8 date /\ digits_of 6 time.

Lemma string_head n (s : string) :
  String.length s = S n -> exists c r, s = String c r /\ String.length r = n.
Proof. destruct s as [|c r]; [done|]. intros [= H]. by exists c, r. Qed.

Lemma stamp_chars_app i s t :
  stamp_chars i (s ++ t) = stamp_chars i s && stamp_chars (i + Z.of_nat (String.length s)) t.
Proof.
  revert i. induction s as [|c s IH]; intros i; cbn [append stamp_chars String.length]; [by rewrite Z.add_0_r|].
  rewrite IH, andb_assoc. do 2 f_equal. lia.
Qed.

(** Away from the eighth place, all digits. *)
Lemma stamp_chars_digits i s :
  (i + Z.of_nat (String.length s) <= 8 \/ 8 < i) -> stamp_chars i s = all_chars is_digit s.
Proof.
  revert i. induction s as [|c s IH]; intros i Hi; cbn [stamp_chars all_chars String.length] in *; [done|].
  rewrite (proj2 (Z.eqb_neq i 8)) by lia. by rewrite IH by lia.
Qed.

Lemma is_drill_stamp_iff s : is_drill_stamp s = true <-> stamped s.
Proof.
  unfold is_drill_stamp, stamped, digits_of. rewrite andb_true_iff, Nat.eqb_eq. split.
  - intros [Hl Hs]. do 8 (apply string_head in Hl as (? & ? & -> & Hl)).
    apply string_head in Hl as (u & time & -> & Hl).
    match type of Hs with stamp_chars 0 ?s = true =>
      match s with String ?a (String ?b (String ?c (String ?d (String ?e (String ?f (String ?g (String ?h (String u time)))))))) =>
        set (date := String a (String b (String c (String d (String e (String f (String g (String h ""))))))));
        change s with (date ++ String u time)%string in * end end.
    rewrite stamp_chars_app in Hs. apply andb_true_iff in Hs as [Hd Ht].
    rewrite stamp_chars_digits in Hd by (left; done). cbn [stamp_chars] in Ht.
    apply andb_true_iff in Ht as [Hu Ht]. cbn in Hu. apply Ascii.eqb_eq in Hu as ->.
    rewrite stamp_chars_digits in Ht by (right; done). exists date, time. by split_and!.
  - intros (date & time & -> & [Hd Hdd] & [Ht Htd]). rewrite !length_append, Hd, Ht. split; [done|].
    rewrite stamp_chars_app, (stamp_chars_digits 0) by (left; lia). rewrite Hdd, Hd. cbn [append stamp_chars andb].
    rewrite stamp_chars_digits by (right; lia). by rewrite Htd.
Qed.

(** A name a drill makes up, with or without the discriminator of a run. *)
Definition made_up (name : string) : Prop :=
  exists stamp, stamped stamp
    /\ (name = (DRILL_PREFIX ++ "_" ++ stamp)%string
        \/ exists run, String.length run = DISCRIMINATOR_LEN /\ all_chars is_hexdigit run = true
             /\ name = (DRILL_PREFIX ++ "_" ++ run ++ "_" ++ stamp)%string).

Lemma is_drill_database_shape name : is_drill_database name = true <-> made_up name.
Proof.
  unfold is_drill_database, made_up. split.
  - destruct (strip_prefix DRILL_PREFIX name) as [r|] eqn:E; [|done]. apply strip_prefix_Some in E as ->.
    destruct (strip_prefix "_" r) as [rest|] eqn:E; [|done]. apply strip_prefix_Some in E as ->.
    destruct (split_once "_" rest) as [[head tail]|] eqn:E.
    + destruct (_ && _ && _) eqn:C.
      * intros Hs%is_drill_stamp_iff. exists tail. split; [done|]. right. exists head. bools.
        apply split_once_Some in E as ->. by split_and!; [apply Nat.eqb_eq|..].
      * intros Hs%is_drill_stamp_iff. exists rest. auto.
    + intros Hs%is_drill_stamp_iff. exists rest. auto.
  - intros (stamp & Hs & [->|(run & Hl & Hh & ->)]);
      rewrite !strip_prefix_app.
    + destruct (split_once "_" stamp) as [[head tail]|]; [|by apply is_drill_stamp_iff].
      destruct (_ && _ && _) eqn:C; [by apply andb_true_iff in C as [_ ?]|by apply is_drill_stamp_iff].
    + change ("_" ++ stamp)%string with (String "_" stamp). rewrite split_once_app.
      * by rewrite Hl, Hh, (proj2 (is_drill_stamp_iff stamp) Hs); cbn [Nat.eqb andb DISCRIMINATOR_LEN];
          apply is_drill_stamp_iff.
      * by apply (chars_no_char is_hexdigit).
Qed.

(** *** The names made up now *)

Definition padded (w : nat) (bound : Z) : bool :=
  forallb (fun n => Nat.eqb (String.length (show_pad w n)) w && all_chars is_digit (show_pad w n)) (seqZ 0 bound).

Lemma padded_digits w bound n : padded w bound = true -> 0 <= n < bound -> digits_of w (show_pad w n).
Proof.
  intros H Hn. unfold padded in H. rewrite forallb_forall in H.
  specialize (H n ltac:(apply list_elem_of_In, elem_of_seqZ; lia)).
  apply andb_true_iff in H as [Hl Hd]. split; [by apply Nat.eqb_eq|done].
Qed.

Lemma padded_two : padded 2 100 = true.
Proof. vm_compute. reflexivity. Qed.

Lemma padded_four : padded 4 10000 = true.
Proof. vm_compute. reflexivity. Qed.

#[global] Opaque padded.

Lemma two_digits n : 0 <= n < 100 -> digits_of 2 (show_pad 2 n).
Proof. exact (padded_digits 2 100 n padded_two). Qed.

Lemma four_digits n : 0 <= n < 10000 -> digits_of 4 (show_pad 4 n).
Proof. exact (padded_digits 4 10000 n padded_four). Qed.

Lemma digits_app n m s t : digits_of n s -> digits_of m t -> digits_of (n + m) (s ++ t).
Proof. intros [Hs Hs'] [Ht Ht']. split; [by rewrite length_append, Hs, Ht|by rewrite all_chars_app, Hs', Ht']. Qed.

Lemma utc_stamp_stamped `{C : Calendar} `{!CalendarOk C} t :
  0 <= year_of (date (ndt_of_ns (t + days unix_epoch_day))) <= 9999 -> stamped (utc_stamp t).
Proof.
  intros Hy. set (n := ndt_of_ns (t + days unix_epoch_day)) in *.
  destruct (ndt_of_ns_valid (t + days unix_epoch_day)) as (Hh & Hm & Hs & _). fold n in Hh, Hm, Hs.
  pose proof (month_range (date n)). pose proof (day_range (date n)).
  exists (fmt_year (year_of (date n)) ++ show_pad 2 (month_of (date n)) ++ show_pad 2 (day_of (date n)))%string.
  exists (show_pad 2 (hour n) ++ show_pad 2 (minute n) ++ show_pad 2 (second n))%string.
  split_and!.
  - unfold utc_stamp. fold n. by rewrite !append_assoc'.
  - unfold fmt_year. replace (in_range 0 9999 _) with true by (unfold in_range; symmetry; apply andb_true_iff; lia).
    apply (digits_app 4 4); [apply four_digits; lia|]. apply (digits_app 2 2); apply two_digits; lia.
  - apply (digits_app 2 4); [apply two_digits; lia|]. apply (digits_app 2 2); apply two_digits; lia.
Qed.

Lemma slice_to_hex k s :
  all_chars is_hexdigit s = true -> (k <= String.length s)%nat ->
  exists t, slice_to k s = Val t /\ String.length t = k /\ all_chars is_hexdigit t = true.
Proof.
  revert s. induction k as [|k IH]; intros s Hs Hk.
  - exists "". split_and!; try done. destruct s as [|c s]; [done|]. cbn [slice_to].
    destruct (is_cont c) eqn:E; [|done]. exfalso. cbn [all_chars] in Hs. apply andb_true_iff in Hs as [Hc _].
    unfold is_hexdigit, is_digit, is_cont, in_range in *. bools; lia.
  - destruct s as [|c s]; cbn [String.length all_chars slice_to] in *; [lia|].
    apply andb_true_iff in Hs as [Hc Hs]. destruct (IH s Hs ltac:(lia)) as (t & -> & Hl & Ht).
    exists (String c t). split_and!; [done|by rewrite <- Hl|]. cbn [all_chars]. by rewrite Hc.
Qed.

(** The name a drill makes up is one it will agree to drop, in every year that
    is written with four digits. *)
Theorem made_up_names_are_recognised `{C : Calendar} `{!CalendarOk C} simple t :
  String.length simple = 32%nat -> all_chars is_hexdigit simple = true ->
  0 <= year_of (date (ndt_of_ns (t + days unix_epoch_day))) <= 9999 ->
  exists prefix, drill_prefix simple = Val prefix
    /\ is_drill_database (Restore.resolve (NewTimestamped prefix) t) = true.
Proof.
  intros Hl Hh Hy. unfold drill_prefix.
  destruct (slice_to_hex DISCRIMINATOR_LEN simple Hh ltac:(unfold DISCRIMINATOR_LEN; lia)) as (run & -> & Hr & Hrh).
  eexists. split; [done|]. apply is_drill_database_shape.
  exists (utc_stamp t). split; [by apply utc_stamp_stamped|]. right. exists run. split_and!; [done..|].
  cbn [Restore.resolve]. by rewrite !append_assoc'.
Qed.

(** ** What a drill does *)

Section Drilled.
Context {W : Type} `{Server W} `{Engines W} `{Host} `{Calendar} `{Codec}.
Variables (disk : W -> Disk) (new_uuid : W -> string * W) (rfc3339 : Z -> string) (str_debug : string -> string).
Variable P : W -> Prop.
Hypothesis calm : Undisturbed P.

Lemma keeps_check dest m scratch deep : keeps P (check_against_manifest dest m scratch deep) (fun _ => True).
Proof.
  unfold check_against_manifest. apply keeps_then; [keeps|intros _]. apply keeps_then; [by apply keeps_reach|intros e].
  apply keeps_then; [by apply keeps_count_tables|intros counts]. destruct deep; [|keeps].
  apply keeps_then; [keeps|intros _]. apply keeps_then; [by apply keeps_digest_tables|]. intros []. keeps.
Qed.

(** The server was asked, outside the database, to drop it, and did. *)
Definition dropped_from (dest : ConnectionProfile) (name : string) : Prop :=
  exists e w, reached dest e
    /\ (drop_database (params_for dest e (bootstrap_database (profile_engine dest))) name w).1 = Ok tt.

Lemma keeps_reached dest : keeps P (reach dest) (reached dest).
Proof.
  intros s Hs. split; [by apply keeps_reach|]. intros e He. exists s, (reach dest s).2.
  destruct (reach dest s) as [r s2]. simpl in *. by subst r.
Qed.

(** Only a name of the right shape reaches the server, and a drop that ends well is done. *)
Lemma keeps_drop dest name :
  (is_drill_database name = true -> forall params w, P w -> P (drop_database params name w).2) ->
  keeps P (drop_scratch_database str_debug dest name) (fun _ => made_up name /\ dropped_from dest name).
Proof.
  intros Hdrop. unfold drop_scratch_database. destruct (is_drill_database name) eqn:En; cbn [negb].
  - eapply keeps_bind; [apply keeps_reached|intros e He].
    apply keeps_bind with (Q := fun _ => dropped_from dest name).
    + apply keeps_ask. intros w Hw. split; [by apply Hdrop|]. intros [] Hd. by exists e, w.
    + intros _ Hd. apply keeps_note. split; [by apply is_drill_database_shape|done].
  - apply keeps_then; [keeps|]. intros _ s Hs. split; [done|]. by intros a [=].
Qed.

Lemma keeps_newest dir : keeps P (newest disk dir) (fun _ => True).
Proof. intros s Hs. unfold newest. by destruct (list_artifacts _ dir). Qed.

Lemma keeps_read_manifest a : keeps P (read_manifest disk a) (fun _ => True).
Proof. intros s Hs. unfold read_manifest. by destruct (Library.read _ _). Qed.

Lemma keeps_fresh_prefix : (forall w, P w -> P (new_uuid w).2) -> keeps P (fresh_prefix new_uuid) (fun _ => True).
Proof.
  intros Hu s Hs. unfold fresh_prefix. specialize (Hu _ Hs). destruct (new_uuid (world s)) as [simple w].
  by destruct (drill_prefix simple).
Qed.

(** The scratch database of a drill: one its own restore wrote, under a new name
    settled against the list of the server, or without one if the server gave none. *)
Definition restored_by_drill (dest : ConnectionProfile) (name : string) : Prop :=
  exists run w, (engine_restore run w).1 = Ok name /\ rr_profile run = dest
    /\ is_timestamped (naming (rr_request run)) = true /\ settled (rr_request run) (rr_target run).

(** What a drill that ends well says of its scratch database. *)
Definition cleaned_up (dest : ConnectionProfile) (request : DrillRequest) (out : DrillOutcome) : Prop :=
  restored_by_drill dest (do_scratch_database out)
  /\ do_dropped out = passed (do_report out) || negb (dr_keep_on_failure request)
  /\ (do_dropped out = true -> made_up (do_scratch_database out) /\ dropped_from dest (do_scratch_database out)).

(** C20: A drill drops only a database whose name has the shape of a drill's and
    that its own restore has just written, under a new name which was not in the
    list of the server's databases, if the server gave one.  A drill that ends well
    has had the server drop the database it restored, unless its check failed and
    it was asked to keep it then. *)
Theorem drill_only_drops_its_own dest request tools :
  (forall w, P w -> P (new_uuid w).2) ->
  (forall run w, P w -> P (engine_restore run w).2) ->
  (forall name, made_up name -> restored_by_drill dest name ->
     forall params w, P w -> P (drop_database params name w).2) ->
  keeps P (drill disk new_uuid rfc3339 str_debug dest request tools) (cleaned_up dest request).
Proof.
  intros Huuid Hrestore Hdrop. unfold drill.
  apply keeps_then; [keeps|intros _]. apply keeps_then; [apply keeps_newest|intros a].
  apply keeps_then; [apply keeps_read_manifest|intros m].
  apply keeps_then; [keeps|intros _]. apply keeps_then; [keeps|intros _].
  apply keeps_then; [by apply keeps_fresh_prefix|intros prefix]. apply keeps_then; [keeps|intros _].
  eapply keeps_bind; [by apply keeps_restore; [|intros; apply Hrestore]|].
  intros scratch (run & w & (_ & Hp & Hr & _ & Ht) & Hw).
  assert (Hmine : restored_by_drill dest scratch) by (exists run, w; rewrite Hr; by split_and!).
  apply keeps_then; [keeps|intros _]. apply keeps_then; [keeps|intros _].
  apply keeps_then; [apply keeps_check|intros report]. apply keeps_then; [keeps|intros _].
  cbv zeta. set (keep := negb (passed report) && dr_keep_on_failure request).
  apply keeps_bind with (Q := fun _ => keep = false -> made_up scratch /\ dropped_from dest scratch).
  - destruct keep; [apply keeps_then; [keeps|]; intros _; by apply keeps_note|].
    apply keeps_then; [keeps|intros _]. eapply keeps_bind; [apply keeps_drop|intros ? Hd; by apply keeps_note].
    intros Hshape. apply Hdrop; [by apply is_drill_database_shape|done].
  - intros _ Hd. apply keeps_ret. unfold cleaned_up. cbn [do_dropped do_report do_scratch_database].
    split_and!; [done|unfold keep; by rewrite negb_andb, negb_involutive|].
    intros Hk%negb_true_iff. by apply Hd.
Qed.
End Drilled.

(** *** What passes *)

(** A drill passes exactly when every table the manifest gives rows to is
    there, with the recorded number of rows where a number was recorded, and every
    other table of the manifest is there.  Reading every row changes nothing to
    that verdict. *)
Theorem drill_report_passes_iff {W} `{Server W} (rows_of : ConnectParams -> string -> string -> option Z)
    dest m scratch deep s report s' :
  (forall p db t w, counted (exact_row_count p db t w).1 = rows_of p db t) ->
  check_against_manifest dest m scratch deep s = (Ok report, s') ->
  exists e, reached dest e
    /\ let rows := rows_of (params_for dest e (Some scratch)) scratch in
       (passed report = true <->
          (forall t, In t (manifest_tables_with_data m) ->
             In t (manifest_tables m)
             /\ exists n, rows t = Some n /\ forall n', source_row_counts m !! t = Some n' -> n = n')
          /\ (forall t, In t (manifest_tables m) -> rows t <> None)).
Proof.
  intros steady (? & s1 & _ & (e & s2 & He & (counts & s3 & Hc & E)%bind_Ok)%bind_Ok)%bind_Ok.
  exists e. split; [by do 2 eexists|]. intros rows.
  pose proof (count_tables_spec rows_of steady _ _ _ _ _ _ _ Hc) as Hcounts. fold rows in Hcounts.
  assert (Hf : failures report = failures (manifest_report m counts)).
  { destruct deep; [|by injection E as <- _]. apply bind_Ok in E as (? & ? & _ & ([ds cs] & ? & _ & E)%bind_Ok).
    by injection E as <- _. }
  unfold passed. rewrite Hf. cbn [manifest_report failures]. rewrite Z.eqb_eq, count_zero. split.
  - intros Hall.
    assert (Hdata : forall t, In t (manifest_tables_with_data m) ->
              is_failure (data_verdict counts (source_row_counts m) t) = false).
    { intros t Ht. apply (Hall (mk_tv t _)), in_app_iff. left. apply in_map_iff. eauto. }
    split.
    + intros t Ht. specialize (Hdata t Ht). unfold data_verdict in Hdata. rewrite Hcounts in Hdata.
      case_decide as Hin; [|done]. split; [by apply list_elem_of_In|].
      destruct (rows t) as [n|]; [|done]. exists n. split; [done|]. intros n' Hn'. rewrite Hn' in Hdata.
      destruct (Z.eqb_spec n n'); [done|]. done.
    + intros t Ht Hr. destruct (existsb (String.eqb t) (manifest_tables_with_data m)) eqn:Ed.
      * apply existsb_exists in Ed as (u & Hu & ->%String.eqb_eq). specialize (Hdata u Hu). unfold data_verdict in Hdata.
        rewrite Hcounts, Hr in Hdata. by case_decide.
      * specialize (Hall (mk_tv t (structure_verdict counts t))). unfold structure_verdict in Hall.
        rewrite Hcounts, Hr in Hall.
        assert (is_failure MissingAtDestination = false); [|done].
        replace (if decide (t ∈ manifest_tables m) then None else None) with (@None Z) in Hall by by case_decide.
        apply Hall, in_app_iff. right. apply in_map_iff. exists t. split.
        { f_equal. unfold structure_verdict. rewrite Hcounts, Hr. by case_decide. }
        apply filter_In. by rewrite Ed.
  - intros [Hdata Hall] tv [(t & <- & Ht)%in_map_iff|(t & <- & Ht)%in_map_iff]%in_app_iff; cbn [verdict].
    + destruct (Hdata t Ht) as (Hin & n & Hn & Hrec). unfold data_verdict.
      rewrite Hcounts, decide_True by (by apply list_elem_of_In). rewrite Hn.
      destruct (source_row_counts m !! t) as [n'|]; [|by destruct (n =? 0)].
      by rewrite (Hrec n' eq_refl), Z.eqb_refl.
    + apply filter_In in Ht as [Ht _]. specialize (Hall t Ht). unfold structure_verdict.
      rewrite Hcounts, decide_True by (by apply list_elem_of_In). by destruct (rows t).
Qed.

(** ** A drill on a toy server *)

(** The world is what was restored and dropped, the newest first. *)
Definition Log : Type := list string.

(** A server whose only table has rows, that cannot read it to the end, and that,
    unless [up], lets nobody into a named database. *)
Definition drill_server (up : bool) : Server Log := {|
  open_tunnel _ w := (Ok None, w);
  password_of _ w := (Ok None, w);
  connect p w := (if is_some (cp_database p) && negb up then Err (OpDb (DbConnect "refused")) else Ok tt, w);
  server_info _ w := (Ok "8.0.36", w);
  list_databases _ w := (Ok ["app"], w);
  exact_row_count _ _ t w := (if String.eqb t "t" then Ok 5 else Err (OpDb (Query "no such table")), w);
  table_digest _ _ _ w := (Err (OpDb (Query "Incorrect key file for table")), w);
  column_names _ _ _ w := (Ok ["id"], w);
  drop_database _ name w := (Ok tt, ("drop " ++ name)%string :: w);
  encryption_keys w := (Ok [], w);
  clock _ := 0 |}.

Definition drill_engines : Engines Log := {|
  engine_backup _ w := (Ok "", w);
  engine_restore run w := (Ok (rr_target run), ("restore " ++ rr_target run)%string :: w) |}.

Definition drill_codec : Codec := {|
  Library.to_json m := manifest_database m;
  from_json s := Ok (sample_manifest s);
  sha256_of s := s |}.

Definition drilling (up deep : bool) : Op Log DrillOutcome :=
  @drill Log (drill_server up) drill_engines furnished gregorian drill_codec (fun _ => shared_folder)
    (fun w => ("0123456789abcdef0123456789abcdef", w)) (fun _ => "") (fun s => s)
    shop (mk_drill_request "/b" (RMysql rmysql_default) deep false) Local.

Definition toy_scratch : string := "dbsync_drill_012345_19700101_000000".

(** A drill told to read every row passes although the table could not be read
    to its end: it becomes a table that was not compared. *)
Theorem unreadable_table_passes_the_drill :
  exists out, (drilling true true (mk_op [] [])).1 = Ok out /\ passed (do_report out) = true
    /\ tables (do_report out) = [mk_tv "t" (Skipped "could not be read end to end")].
Proof. eexists. split_and!; vm_compute; reflexivity. Qed.

(** A drill whose check cannot be made, whatever it was asked to keep, ends in
    the error and leaves behind the database it restored. *)
Theorem failed_check_leaves_the_scratch_database :
  (drilling false false (mk_op [] [])).1 = Err (Failed_ (OpDb (DbConnect "refused")))
  /\ world (drilling false false (mk_op [] [])).2 = ["restore " ++ toy_scratch]%string.
Proof. split; vm_compute; reflexivity. Qed.

Definition shape_of (e : string) : Prop := forall name, e = ("drop " ++ name)%string -> made_up name.
Definition only_drills_dropped (w : Log) : Prop := Forall shape_of w.

Lemma drill_server_undisturbed up (P : Log -> Prop) : @Undisturbed Log (drill_server up) P.
Proof. by constructor. Qed.

Lemma drill_only_drops_its_own_witness :
  world (drilling true false (mk_op [] [])).2 = ["drop " ++ toy_scratch; "restore " ++ toy_scratch]%string
  /\ only_drills_dropped (world (drilling true false (mk_op [] [])).2).
Proof.
  split; [vm_compute; reflexivity|].
  refine (proj1 (@drill_only_drops_its_own Log (drill_server true) drill_engines furnished gregorian drill_codec
    (fun _ => shared_folder) (fun w => ("0123456789abcdef0123456789abcdef", w)) (fun _ => "") (fun s => s)
    only_drills_dropped (drill_server_undisturbed _ _) shop (mk_drill_request "/b" (RMysql rmysql_default) false false)
    Local (fun _ Hw => Hw) _ _ (mk_op [] []) (List.Forall_nil _))).
  - intros run w Hw. apply List.Forall_cons; [intros name E; discriminate E|exact Hw].
  - intros name Hname _ params w Hw. apply List.Forall_cons; [|exact Hw]. intros n E.
    apply (append_inj_l "drop ") in E. rewrite <- E. exact Hname.
Defined.

Lemma made_up_names_are_recognised_witness :
  exists prefix, drill_prefix "0123456789abcdef0123456789abcdef" = Val prefix
    /\ is_drill_database (Restore.resolve (NewTimestamped prefix) 0) = true.
Proof.
  refine (made_up_names_are_recognised "0123456789abcdef0123456789abcdef" 0 eq_refl eq_refl _).
  vm_compute. split; intros X; discriminate X.
Defined.

Definition toy_check : result VerificationReport Stop * OpState Log :=
  @check_against_manifest Log (drill_server true) shop (sample_manifest "shop") toy_scratch true (mk_op [] []).

Definition toy_rows (_ : ConnectParams) (_ t : string) : option Z := if String.eqb t "t" then Some 5 else None.

Lemma toy_rows_steady p db t w :
  counted (@exact_row_count Log (drill_server true) p db t w).1 = toy_rows p db t.
Proof. unfold toy_rows. cbn [exact_row_count drill_server fst]. by destruct (String.eqb t "t"). Qed.

Lemma toy_checked : exists report s', toy_check = (Ok report, s').
Proof. do 2 eexists. vm_compute. reflexivity. Qed.

Lemma drill_report_passes_iff_witness : exists report s', toy_check = (Ok report, s') /\ passed report = true.
Proof.
  destruct toy_checked as (report & s' & E). exists report, s'. split; [exact E|].
  destruct (@drill_report_passes_iff Log (drill_server true) toy_rows shop (sample_manifest "shop") toy_scratch true
    (mk_op [] []) report s' toy_rows_steady E) as (e & _ & Hiff).
  apply Hiff. split.
  - intros t [<-|[]]. split; [left; reflexivity|]. exists 5. split; [reflexivity|]. intros n' Hn. discriminate Hn.
  - intros t [<-|[]]. discriminate.
Defined.
