(* ===== verification/Sync.v ===== *)
(** * Sync: from one server to another as one job ([sync] of engine/src/ops.rs, with
      the operations that stand on a server or a folder alone)

    A sync is a fixed chain over the operations a saved pipeline is made of, and
    is compared with that pipeline here. *)

From Stdlib Require Import ZArith Lia Ascii String List Bool.
From stdpp Require Import base list gmap strings.
From S2P Require Import Prelude Text Time Domain Sql Disk Library Checking Retention Backup Restore Verify Mask Plan Job.
From S2P Require Import Step Pipeline Cron CronScan Schedule ScheduledRun Ops PipelineRun.
Import ListNotations.

Open Scope string_scope.
Open Scope list_scope.
Open Scope Z_scope.
Open Scope dbsync_scope.

(** ** The run *)

Definition validate_masking (r : SyncRequest) : result unit MaskError :=
  match sy_masking r with
  | [] => Ok tt
  | _ =>
      match sy_naming r with
      | IntoExisting name => Err (UnsafeNaming ("restoring into the existing database " ++ name)%string)
      | _ => Ok tt
      end
  end.

Definition describe_target (n : TargetNaming) : string :=
  match n with
  | NewTimestamped prefix => "Restore into a new " ++ prefix ++ "_" ++ ellipsis ++ " database"
  | DropAndRecreate name => "Replace " ++ name
  | IntoExisting name => "Restore into the existing " ++ name
  end%string.

Definition with_backup (r : SyncRequest) (b : BackupRequest) : SyncRequest :=
  mk_sync_request b (sy_naming r) (sy_restore r) (sy_verify r) (sy_deep_verify r) (sy_masking r) (sy_retention r)
    (sy_typed_confirmation r).

Definition sync_plan (r : SyncRequest) (masked : bool) : StepPlan :=
  let plan := add_step (add_step (add_step [] SBackup ("Back up " ++ co_database (common (sy_backup r)))%string)
                          SOffsite "Copy off-site")
                SRestore (describe_target (sy_naming r)) in
  let plan := if masked then add_step plan SMask "Mask the destination" else plan in
  let plan := if sy_verify r then add_step plan SVerify "Compare against the source" else plan in
  if is_some (sy_retention r) then add_step plan SRetention "Apply retention" else plan.

Section Sync.
Context {W : Type} `{Operations W}.
Variables src dst : ConnectionProfile.

Definition plan_masking (r : SyncRequest) : Op W (option MaskingCoverage) :=
  match sy_masking r with
  | [] => ret None
  | _ =>
      let* _ := lift (map_err (validate_masking r) OpMask) in
      plan_masking_for src (co_database (common (sy_backup r))) (sy_masking r) (selections (common (sy_backup r)))
  end.

Definition backup_stage (r : SyncRequest) : Op W string :=
  let* _ := note (Begun SBackup) in
  let* file := attempt (DidBackup src (sy_backup r)) (backup src (sy_backup r)) in
  let* _ := note (Finished (artifact_detail file)) in
  let* _ := bail in
  ret file.

Definition offsite_stage (file : string) : Op W (list PushResult) :=
  let* _ := note (Begun SOffsite) in
  let* pushed := attempt (DidPush file) (push_offsite file) in
  let* _ := note (Finished (describe_offsite pushed)) in
  ret pushed.

Definition restore_stage (r : SyncRequest) (file : string) : Op W string :=
  let request := mk_restore file (sy_naming r) (sy_restore r) true (sy_typed_confirmation r) in
  let* _ := note (Begun SRestore) in
  let* db := attempt (DidRestore dst request) (restore dst request) in
  let* _ := note (Finished (database_detail db)) in
  let* _ := bail in
  ret db.

Definition mask_stage (coverage : option MaskingCoverage) (db : string) : Op W (option MaskingReport) :=
  match coverage with
  | Some coverage =>
      let* _ := note (Begun SMask) in
      let* report := attempt (DidMask dst db coverage) (mask_destination dst db coverage) in
      let n := length (mr_columns report) in
      let* _ := note (Finished (add_note no_detail
                  (count_text n ++ " column" ++ (if Nat.eqb n 1 then "" else "s") ++ " masked")%string)) in
      ret (Some report)
  | None => ret None
  end.

Definition verify_request_of (r : SyncRequest) (coverage : option MaskingCoverage) (db : string) : VerifyRequest :=
  let c := common (sy_backup r) in
  mk_verify_request src dst (co_database c) db (map sel_name (tables_with_data c)) (names_with SchemaOnly (selections c))
    (sy_deep_verify r) (match coverage with Some c => coverage_tables c | None => [] end).

Definition verify_stage (r : SyncRequest) (coverage : option MaskingCoverage) (db : string)
    : Op W (option VerificationReport) :=
  if sy_verify r then
    let vr := verify_request_of r coverage db in
    let* _ := note (Begun SVerify) in
    let* report := attempt (DidVerify vr) (verify_restore vr) in
    let* _ := note (Finished (add_note (checked_detail report)
                (if passed report then "every table matched"
                 else show (failures report) ++ " table(s) did not match")%string)) in
    ret (Some report)
  else ret None.

Definition retention_stage (r : SyncRequest) (verification : option VerificationReport) (offsite : list PushResult)
    : Op W (list string) :=
  let verified := none_or_passed verification in
  let copied := forallb push_succeeded offsite in
  match sy_retention r with
  | None => ret []
  | Some policy =>
      if verified && copied then
        let dir := output_dir (common (sy_backup r)) in
        let* _ := note (Begun SRetention) in
        let* removed := attempt (DidPrune dir policy) (apply_retention dir policy) in
        let* _ := note (Finished (add_note no_detail (count_text (length removed) ++ " artifact(s) removed")%string)) in
        ret removed
      else
        let reason := if verified then "the off-site copy failed" else "verification failed" in
        let* _ := emit_warning Cleanup (reason ++ "; keeping every existing backup")%string in
        let* _ := note (Skipped_ SRetention (reason ++ "; every existing backup kept")%string) in
        ret []
  end.

(** What is left once the plan is written down. *)
Definition carry_out (r : SyncRequest) (coverage : option MaskingCoverage) : Op W SyncOutcome :=
  let* file := backup_stage r in
  let* pushed := offsite_stage file in
  let* db := restore_stage r file in
  let* masking := mask_stage coverage db in
  let* verification := verify_stage r coverage db in
  let* removed := retention_stage r verification pushed in
  ret (mk_sync_outcome file db verification masking removed pushed).

Definition sync (r : SyncRequest) : Op W SyncOutcome :=
  let* _ := lift (guard (negb (bool_decide (profile_engine src = profile_engine dst)))
                    (OpEngineMismatch (profile_engine src) (profile_engine dst))) in
  let* l := resolve_now src (co_database (common (sy_backup r))) (selections (common (sy_backup r))) in
  let r := with_backup r (with_selections (sy_backup r) l) in
  let* coverage := plan_masking r in
  let* _ := note (Planned (sync_plan r (is_some coverage))) in
  carry_out r coverage.
End Sync.

(** ** Operations on a server or a folder alone *)

Section Ground.
Context {W : Type} `{Server W} `{Codec} `{Calendar}.
Variable disk : W -> Disk.
Variable set_disk : Disk -> W -> W.

Fixpoint columns_each (params : ConnectParams) (database : string) (tables : list string)
    (out : gmap string (list string)) : Op W (gmap string (list string)) :=
  match tables with
  | [] => ret out
  | t :: rest =>
      let* out := read_columns params database t out in
      columns_each params database rest out
  end.

(** A table that cannot be read is left absent. *)
Definition source_columns_at (profile : ConnectionProfile) (database : string) (tables : list string)
    : Op W (gmap string (list string)) :=
  match tables with
  | [] => ret ∅
  | _ =>
      let* e := reach profile in
      let params := params_for profile e (Some database) in
      let* _ := ask (Checking.connect params) in
      columns_each params database tables ∅
  end.

Definition drop_database_at (profile : ConnectionProfile) (name : string) : Op W unit :=
  let* e := reach profile in
  ask (Checking.drop_database (params_for profile e (Sql.bootstrap_database (profile_engine profile))) name).

Definition newest_artifact_at (dir : string) : Op W string := fun s =>
  match list_artifacts (disk (world s)) dir with
  | a :: _ => (Ok (a_path a), s)
  | [] => fail (OpBackup (Invalid (InvalidText
            ("no backups found in " ++ dir ++ "; this step has nothing to restore")%string))) s
  end.

Fixpoint announce_each (l : list RetentionCandidate) : Op W unit :=
  match l with
  | [] => ret tt
  | c :: rest => let* _ := emit_info Cleanup ("retention will remove " ++ path c)%string in announce_each rest
  end.

Definition remove_planned (plan : RetentionPlan) : Op W (list string) := fun s =>
  let '(removed, d) := apply_cleanup plan (disk (world s)) in
  (Ok removed, mk_op (set_disk d (world s)) (trace s)).

Definition apply_retention_at (dir : string) (policy : RetentionPolicy) : Op W (list string) :=
  if negb (policy_is_enabled policy) then ret []
  else fun s =>
    match plan_cleanup (disk (world s)) dir policy (clock (world s)) with
    | Panic => stop (Panicked "the cutoff of the policy is out of range") s
    | Val plan =>
        match Retention.delete plan with
        | [] => (let* _ := emit_info Cleanup "retention: nothing to remove" in ret []) s
        | _ =>
            (let* _ := announce_each (Retention.delete plan) in
             let* removed := remove_planned plan in
             let* _ := emit_info Cleanup
                         ("retention removed " ++ count_text (length removed) ++ " artifact(s), reclaiming "
                          ++ show (bytes_reclaimed plan) ++ " bytes")%string in
             ret removed) s
        end
    end.
End Ground.

(** ** Two computations that make the same calls *)

Definition is_call (e : Entry) : bool :=
  match e with
  | DidBackup _ _ | DidRestore _ _ | DidMask _ _ _ | DidVerify _ | DidPush _ | DidPrune _ _ | DidDrill _ _ => true
  | _ => false
  end.

(** The operations attempted, with what they were given. *)
Definition calls (l : list Entry) : list Entry := List.filter is_call l.

Section Agree.
Context {W : Type}.

(** From the same world: the same calls, the same world, and the same failure or
    results related by [R]. *)
Definition agrees {A B} (m : Op W A) (n : Op W B) (R : A -> B -> Prop) : Prop :=
  forall s t, world s = world t ->
  exists l k, trace (m s).2 = trace s ++ l /\ trace (n t).2 = trace t ++ k /\ calls l = calls k
    /\ world (m s).2 = world (n t).2
    /\ match (m s).1, (n t).1 with
       | Ok a, Ok b => R a b
       | Err e, Err e' => e = e'
       | _, _ => False
       end.

Lemma agrees_bind {A B A' B'} (m : Op W A) (n : Op W B) (k : A -> Op W A') (j : B -> Op W B')
    (R : A -> B -> Prop) (S : A' -> B' -> Prop) :
  agrees m n R -> (forall a b, R a b -> agrees (k a) (j b) S) -> agrees (bind m k) (bind n j) S.
Proof.
  intros Hm Hk s t E. destruct (Hm s t E) as (l & l' & Hl & Hl' & Hc & Hw & HR). unfold bind.
  destruct (m s) as [[a|e] s1], (n t) as [[b|e'] t1]; cbn in *; try done.
  - destruct (Hk a b HR s1 t1 Hw) as (l1 & l1' & Hl1 & Hl1' & Hc1 & Hw1 & HS). exists (l ++ l1), (l' ++ l1').
    split_and!; [by rewrite Hl1, Hl, app_assoc|by rewrite Hl1', Hl', app_assoc| |done|done].
    unfold calls in *. by rewrite !List.filter_app, Hc, Hc1.
  - exists l, l'. by split_and!.
Qed.

Lemma agrees_mono {A B} (m : Op W A) (n : Op W B) (R S : A -> B -> Prop) :
  agrees m n R -> (forall a b, R a b -> S a b) -> agrees m n S.
Proof.
  intros H HRS s t E. destruct (H s t E) as (l & k & ? & ? & ? & ? & HR). exists l, k. split_and!; try done.
  destruct (m s).1, (n t).1; auto.
Qed.

Lemma agrees_ret {A B} (a : A) (b : B) (R : A -> B -> Prop) : R a b -> agrees (ret a) (ret b) R.
Proof. intros HR s t E. exists [], []. by rewrite !app_nil_r. Qed.

Lemma agrees_ask {A} (f : W -> result A OpError * W) : agrees (ask f) (ask f) eq.
Proof.
  intros s t E. exists [], []. unfold ask. rewrite E. destruct (f (world t)) as [r w]. cbn.
  rewrite !app_nil_r. split_and!; try done. by destruct r.
Qed.

Lemma agrees_note e : agrees (@note W e) (note e) eq.
Proof. intros s t E. exists [e], [e]. by split_and!. Qed.

Lemma agrees_invoke {A} (f : W -> result A Stop * W) : agrees (invoke f) (invoke f) eq.
Proof.
  intros s t E. exists [], []. unfold invoke. rewrite E. destruct (f (world t)) as [r w]. cbn.
  rewrite !app_nil_r. split_and!; try done. by destruct r.
Qed.

Lemma agrees_attempt {A} e (f : W -> result A Stop * W) : agrees (attempt e f) (attempt e f) eq.
Proof. eapply agrees_bind; [apply agrees_note|]. intros ? ? _. apply agrees_invoke. Qed.

(** What is only said on one side. *)
Lemma agrees_say_l {A B} e (m : Op W A) (n : Op W B) R : is_call e = false -> agrees m n R -> agrees (bind (note e) (fun _ => m)) n R.
Proof.
  intros He H s t E. destruct (H (mk_op (world s) (trace s ++ [e])) t E) as (l & k & Hl & Hk & Hc & Hw & HR).
  exists ([e] ++ l), k. unfold bind, note. split_and!; try done; [rewrite Hl; cbn [trace]; by rewrite <- app_assoc|].
  unfold calls in *. cbn. by rewrite He.
Qed.

Lemma agrees_say_r {A B} e (m : Op W A) (n : Op W B) R : is_call e = false -> agrees m n R -> agrees m (bind (note e) (fun _ => n)) R.
Proof.
  intros He H s t E. destruct (H s (mk_op (world t) (trace t ++ [e])) E) as (l & k & Hl & Hk & Hc & Hw & HR).
  exists l, ([e] ++ k). unfold bind, note. split_and!; try done; [rewrite Hk; cbn [trace]; by rewrite <- app_assoc|].
  unfold calls in *. cbn. by rewrite He.
Qed.

Lemma agrees_silent_r {A B C} (m : Op W A) (n : Op W C) (c : C) (k : C -> Op W B) R :
  (forall t, n t = (Ok c, t)) -> agrees m (k c) R -> agrees m (bind n k) R.
Proof. intros Hn Hm s t E. unfold bind. rewrite Hn. by apply Hm. Qed.

(** More is only done on the right. *)
Lemma agrees_more_r {A B C} (m : Op W A) (n : Op W B) (k : B -> Op W C) (R : A -> B -> Prop) (S : A -> C -> Prop) :
  agrees m n R -> (forall a b, R a b -> agrees (ret a) (k b) S) -> agrees m (bind n k) S.
Proof.
  intros Hm Hk s t E. destruct (agrees_bind m n (fun a => ret a) k R S Hm Hk s t E) as (l & l' & H).
  exists l, l'. revert H. unfold bind, ret. by destruct (m s) as [[a|e] s'].
Qed.

Lemma agrees_ret_r {A B C} (m : Op W A) (c : C) (n : C -> Op W B) R : agrees m (n c) R -> agrees m (bind (ret c) n) R.
Proof. done. Qed.

Lemma agrees_ret_l {A B C} (m : C -> Op W A) (c : C) (n : Op W B) R : agrees (m c) n R -> agrees (bind (ret c) m) n R.
Proof. done. Qed.
End Agree.

Section Equivalence.
Context {W : Type} `{Operations W}.

Lemma agrees_warn_all p l : agrees (@warn_all W p l) (warn_all p l) eq.
Proof.
  induction l as [|m l IH]; [by apply agrees_ret|]. eapply agrees_bind; [apply agrees_note|]. intros ? ? _. apply IH.
Qed.

Lemma agrees_resolve_now profile db saved : agrees (resolve_now profile db saved) (resolve_now profile db saved) eq.
Proof.
  eapply agrees_bind; [apply agrees_invoke|]. intros tables ? <-. destruct (resolve_selections saved tables) as [l warnings].
  eapply agrees_bind; [apply agrees_warn_all|]. intros ? ? _. by apply agrees_ret.
Qed.

Lemma agrees_warn_inert l : agrees (@warn_inert W l) (warn_inert l) eq.
Proof.
  induction l as [|m l IH]; [by apply agrees_ret|]. eapply agrees_bind; [apply agrees_note|]. intros ? ? _. apply IH.
Qed.

Lemma agrees_lift {A} (r : result A OpError) : agrees (@lift W A r) (lift r) eq.
Proof. destruct r; [by apply agrees_ret|]. intros s t E. exists [], []. by rewrite !app_nil_r. Qed.

Lemma agrees_plan_masking_for p db rules l : agrees (plan_masking_for p db rules l) (plan_masking_for p db rules l) eq.
Proof.
  unfold plan_masking_for. destruct rules as [|r rules]; [by apply agrees_ret|].
  eapply agrees_bind; [apply agrees_note|]. intros ? ? _.
  eapply agrees_bind; [apply agrees_invoke|]. intros columns ? <-.
  eapply agrees_bind; [apply agrees_lift|]. intros coverage ? <-.
  eapply agrees_bind; [apply agrees_warn_inert|]. intros ? ? _.
  destruct (coverage_is_empty coverage); (eapply agrees_bind; [apply agrees_note|]; intros ? ? _; by apply agrees_ret).
Qed.

(** Nobody cancels. *)
Hypothesis undisturbed : forall w, cancelled w = (false, w).

Lemma bail_ok s : bail s = (Ok tt, s).
Proof. unfold bail, ask. rewrite undisturbed. by destruct s. Qed.

Lemma agrees_bail_l {A B} (m : Op W A) (n : Op W B) R : agrees m n R -> agrees (bind bail (fun _ => m)) n R.
Proof. intros Hm s t E. unfold bind. rewrite bail_ok. by apply Hm. Qed.

Lemma agrees_bail_r {A B} (m : Op W A) (n : Op W B) R : agrees m n R -> agrees m (bind bail (fun _ => n)) R.
Proof. intros Hm s t E. unfold bind. rewrite bail_ok. by apply Hm. Qed.

Variables src dst : ConnectionProfile.
Variables (profiles : list ConnectionProfile) (run : PipelineRunRequest)
  (resolved : list (nat * BackupRequest)) (coverages : list (nat * option MaskingCoverage)).

Abbreviation stage := (run_step profiles run resolved coverages).

(** Each stage of a sync, and the step of a pipeline that does it. *)

Lemma backup_agrees b r f :
  find_profile profiles (bs_profile_id b) = Some src -> get resolved 0 = Some (sy_backup r) ->
  agrees (backup_stage src r) (stage 0 (PBackup b) f) (fun file f' => f' = after_backup f src (sy_backup r) file).
Proof.
  intros Hp Hg. unfold backup_stage, run_step, backup_step, find_op. rewrite Hp, Hg. apply agrees_bail_r.
  apply (agrees_bind (note (Begun SBackup)) _ _ _ eq); [apply agrees_note|]. intros ? ? _.
  eapply agrees_bind; [apply agrees_attempt|]. intros file ? <-.
  eapply agrees_bind; [apply agrees_note|]. intros ? ? _. apply agrees_bail_l. by apply agrees_ret.
Qed.

Lemma offsite_agrees i file f :
  artifact f = Some file ->
  agrees (offsite_stage file) (stage i PPushOffsite f) (fun pushed f' => f' = after_push f pushed).
Proof.
  intros Hf. unfold offsite_stage, run_step, push_step. rewrite Hf. apply agrees_bail_r.
  apply (agrees_bind (note (Begun SOffsite)) _ _ _ eq); [apply agrees_note|]. intros ? ? _.
  eapply agrees_bind; [apply agrees_attempt|]. intros pushed ? <-.
  eapply agrees_bind; [apply agrees_note|]. intros ? ? _. by apply agrees_ret.
Qed.

Lemma restore_agrees i r s f file :
  find_profile profiles (rs_profile_id s) = Some dst -> rs_source s = PreviousStep ->
  rs_naming s = sy_naming r -> rs_engine s = sy_restore r -> rs_verify_checksum s = true ->
  artifact f = Some file -> (take_confirmation (sy_naming r) (confirmations f)).1 = sy_typed_confirmation r ->
  agrees (restore_stage dst r file) (stage i (PRestore s) f)
    (fun db f' => f' = after_restore f dst db (take_confirmation (sy_naming r) (confirmations f)).2).
Proof.
  intros Hp Hs Hn He Hv Hf Hc. unfold restore_stage, run_step, restore_step, find_op, artifact_for.
  rewrite Hp, Hs, Hn, He, Hv, Hf. destruct (take_confirmation _ _) as [typed rest]. cbn in Hc. subst typed. apply agrees_bail_r.
  apply (agrees_bind (note (Begun SRestore)) _ _ _ eq); [apply agrees_note|]. intros ? ? _.
  eapply agrees_bind; [apply agrees_attempt|]. intros db ? <-.
  eapply agrees_bind; [apply agrees_note|]. intros ? ? _. apply agrees_bail_l. by apply agrees_ret.
Qed.

Definition masked_flow (f : Flow) (coverage : option MaskingCoverage) (report : option MaskingReport) : Flow :=
  match coverage, report with Some c, Some r => after_mask f c r | _, _ => f end.

Lemma mask_agrees i rules coverage db f :
  get coverages i = Some coverage -> target f = Some db -> dest f = Some dst ->
  agrees (mask_stage dst coverage db) (stage i (PMask rules) f)
    (fun report f' => f' = masked_flow f coverage report /\ is_some report = is_some coverage).
Proof.
  intros Hg Ht Hd. unfold mask_stage, run_step, mask_step. rewrite Hg, Ht, Hd. apply agrees_bail_r.
  destruct coverage as [c|]; [|apply agrees_say_r; [done|by apply agrees_ret]].
  apply (agrees_bind (note (Begun SMask)) _ _ _ eq); [apply agrees_note|]. intros ? ? _.
  eapply agrees_bind; [apply agrees_attempt|]. intros report ? <-.
  apply agrees_say_l; [done|]. apply agrees_say_r; [done|]. by apply agrees_ret.
Qed.

Lemma verify_agrees i r coverage db f :
  flow_backup f = Some (sy_backup r) -> source f = Some src -> target f = Some db -> dest f = Some dst ->
  flow_coverage f = coverage -> sy_verify r = true ->
  agrees (verify_stage src dst r coverage db) (stage i (PVerify (sy_deep_verify r)) f)
    (fun v f' => exists report, v = Some report /\ f' = after_verify f report).
Proof.
  intros Hb Hs Ht Hd Hc Hv. unfold verify_stage, run_step, verify_step. rewrite Hb, Hs, Ht, Hd, Hc, Hv. apply agrees_bail_r.
  apply (agrees_bind (note (Begun SVerify)) _ _ _ eq); [apply agrees_note|]. intros ? ? _.
  eapply agrees_bind; [apply agrees_attempt|]. intros report ? <-.
  eapply agrees_bind; [apply agrees_note|]. intros ? ? _. apply agrees_ret. eauto.
Qed.

Lemma retention_agrees i r policy verification offsite f :
  sy_retention r = Some policy -> flow_dir f = Some (output_dir (common (sy_backup r))) ->
  po_verification (outcome f) = verification -> po_offsite (outcome f) = offsite ->
  po_removed_artifacts (outcome f) = [] ->
  agrees (retention_stage r verification offsite) (stage i (PRetention policy) f)
    (fun removed f' => outcome f' = outcome (after_prune f removed)).
Proof.
  intros Hr Hd Hv Ho Hn. unfold retention_stage, run_step, retention_step. rewrite Hr, Hd, Hv, Ho. apply agrees_bail_r.
  cbn [expect]. apply agrees_ret_r. destruct (none_or_passed verification), (forallb push_succeeded offsite); cbn [negb orb andb];
    [|(apply agrees_say_l; [done|]; eapply agrees_bind; [apply agrees_note|]; intros ? ? _; apply agrees_ret;
       destruct f as [? ? ? ? ? ? ? o ?], o; cbn in *; by rewrite Hn)..].
  eapply agrees_bind; [apply agrees_note|]. intros ? ? _.
  eapply agrees_bind; [apply agrees_attempt|]. intros removed ? <-.
  eapply agrees_bind; [apply agrees_note|]. intros ? ? _. by apply agrees_ret.
Qed.

(** A part of a walk, and what follows it. *)
Lemma agrees_walk {A B} (m : Op W A) (k : A -> Op W B) i xs ys f (R : A -> Flow -> Prop) S :
  agrees m (walk profiles run resolved coverages i xs f) R ->
  (forall a f', R a f' -> agrees (k a) (walk profiles run resolved coverages (i + length xs) ys f') S) ->
  agrees (bind m k) (walk profiles run resolved coverages i (xs ++ ys) f) S.
Proof.
  intros Hm Hk s t E.
  assert (Hw : forall i f t, walk profiles run resolved coverages i (xs ++ ys) f t
            = bind (walk profiles run resolved coverages i xs f) (walk profiles run resolved coverages (i + length xs) ys) t).
  { clear. induction xs as [|x xs IH]; intros i f t.
    - cbn [app length]. by rewrite Nat.add_0_r.
    - cbn [app walk length]. unfold bind. destruct (run_step _ _ _ _ i x f t) as [[f'|e] t']; [|done].
      rewrite IH, Nat.add_succ_comm. done. }
  rewrite Hw. by apply (agrees_bind _ _ _ _ R).
Qed.

Lemma agrees_step {A} (m : Op W A) i s f (R : A -> Flow -> Prop) :
  agrees m (stage i s f) R -> agrees m (walk profiles run resolved coverages i [s] f) R.
Proof.
  intros Hm. intros s1 t E. cbn [walk]. destruct (Hm s1 t E) as (l & k & ? & ? & ? & ? & ?). exists l, k.
  unfold bind, ret. by destruct (run_step _ _ _ _ i s f t) as [[f'|e] t'].
Qed.
End Equivalence.

(** ** A sync is a pipeline *)

(** The saved chain that does what a sync request asks. *)
Definition steps_of (src dst : ConnectionProfile) (r : SyncRequest) : list PipelineStep :=
  let c := common (sy_backup r) in
  [PBackup (mk_backup_step (profile_id src) (co_database c) None (selections c) (Some (output_dir c)) (compress c)
     (encrypt c) (record_row_counts c) (engine (sy_backup r)));
   PPushOffsite;
   PRestore (mk_restore_step (profile_id dst) PreviousStep (sy_naming r) (sy_restore r) true)]
  ++ (match sy_masking r with [] => [] | rules => [PMask rules] end)
  ++ (if sy_verify r then [PVerify (sy_deep_verify r)] else [])
  ++ (match sy_retention r with Some policy => [PRetention policy] | None => [] end).

Definition pipeline_of (src dst : ConnectionProfile) (r : SyncRequest) (name : string) : Pipeline :=
  mk_pipeline 0 name (steps_of src dst r) None 0 0.

(** What both report of a run. *)
Definition same_outcome (o : SyncOutcome) (p : PipelineOutcome) : Prop :=
  po_artifacts p = [so_artifact_path o] /\ po_databases p = [so_target_database o]
  /\ po_verification p = so_verification o /\ po_masking p = so_masking o
  /\ po_removed_artifacts p = so_removed_artifacts o /\ po_offsite p = so_offsite o.

Section Same.
Context {W : Type} `{Operations W}.
Hypothesis undisturbed : forall w, cancelled w = (false, w).
Variables src dst : ConnectionProfile.
Variables (profiles : list ConnectionProfile) (run : PipelineRunRequest).
Hypothesis src_found : find_profile profiles (profile_id src) = Some src.
Hypothesis dst_found : find_profile profiles (profile_id dst) = Some dst.

Definition confirmed_by (r : SyncRequest) (l : list string) : Prop :=
  (take_confirmation (sy_naming r) l).1 = sy_typed_confirmation r.

(** From the written plan to the end. *)
Lemma carry_out_agrees r0 b resolved coverages coverage f :
  let r := with_backup r0 b in
  get resolved 0 = Some b ->
  match sy_masking r0 with [] => coverage = None | _ => get coverages 3 = Some coverage end ->
  confirmed_by r0 (confirmations f) -> outcome f = no_outcome -> flow_coverage f = None ->
  agrees (carry_out src dst r coverage) (walk profiles run resolved coverages 0 (steps_of src dst r0) f)
    (fun o f' => same_outcome o (outcome f')).
Proof.
  intros r Hg Hcov Hconf Ho Hf. unfold carry_out, steps_of.
  change ([?a; ?b; ?c] ++ ?l) with ([a] ++ [b] ++ [c] ++ l).
  eapply agrees_walk; [apply agrees_step; by eapply (backup_agrees undisturbed src) with (r := r)|]. intros file ? ->. cbn [length Nat.add].
  eapply agrees_walk; [apply agrees_step; by apply offsite_agrees|]. intros pushed ? ->. cbn [length Nat.add].
  eapply agrees_walk; [apply agrees_step; by eapply (restore_agrees undisturbed dst) with (r := r)|]. intros db ? ->. cbn [length Nat.add].
  set (f3 := after_restore _ _ _ _).
  apply agrees_walk with (R := fun report f' => f' = masked_flow f3 coverage report /\ is_some report = is_some coverage).
  { destruct (sy_masking r0) as [|rule rules]; [|apply agrees_step; by apply mask_agrees].
    subst coverage. by apply agrees_ret. }
  intros report ? [-> Hrep]. set (f4 := masked_flow f3 coverage report).
  assert (H4 : flow_backup f4 = Some (sy_backup r) /\ source f4 = Some src /\ target f4 = Some db /\ dest f4 = Some dst
            /\ flow_coverage f4 = coverage /\ flow_dir f4 = Some (output_dir (common (sy_backup r)))
            /\ outcome f4 = mk_outcome [file] [db] None report pushed []).
  { unfold f4, masked_flow. destruct coverage as [c|], report as [m|]; try done; cbn;
      rewrite Ho; cbn; split_and!; try done. }
  destruct H4 as (Hb & Hs & Ht & Hd & Hc & Hdir & Hout).
  apply agrees_walk with (R := fun v f' => f' = match v with Some x => after_verify f4 x | None => f4 end).
  { destruct (sy_verify r0) eqn:Ev.
    - eapply agrees_mono; [apply agrees_step; by eapply (verify_agrees undisturbed src dst) with (r := r)|]. by intros v ? (x & -> & ->).
    - unfold verify_stage. cbn [sy_verify with_backup r]. rewrite Ev. by apply agrees_ret. }
  intros v ? ->. set (f5 := match v with Some x => after_verify f4 x | None => f4 end).
  assert (H5 : outcome f5 = mk_outcome [file] [db] v report pushed [] /\ flow_dir f5 = flow_dir f4).
  { unfold f5. destruct v; cbn; by rewrite ?Hout. }
  destruct H5 as [Ho5 Hd5].
  rewrite <- (app_nil_r (match sy_retention r0 with Some _ => _ | None => _ end)).
  apply agrees_walk with (R := fun removed f' => outcome f' = mk_outcome [file] [db] v report pushed removed).
  { destruct (sy_retention r0) as [policy|] eqn:Er.
    - eapply agrees_mono.
      + apply agrees_step, retention_agrees with (policy := policy); rewrite ?Ho5; try done. by rewrite Hd5.
      + intros removed f' ->. cbn. by rewrite Ho5.
    - unfold retention_stage. cbn [sy_retention with_backup r]. rewrite Er. by apply agrees_ret. }
  intros removed f' E. apply agrees_ret. by rewrite E.
Qed.

Lemma resolve_agrees r :
  agrees (resolve_now src (co_database (common (sy_backup r))) (selections (common (sy_backup r))))
    (resolve_all profiles run 0 (steps_of src dst r))
    (fun l resolved => resolved = [(0%nat, with_selections (sy_backup r) l)]).
Proof.
  unfold steps_of. cbn [app resolve_all].
  eapply agrees_more_r with (R := fun l request => request = with_selections (sy_backup r) l).
  - unfold resolve_backup, find_op, saved_selections. cbn [bs_profile_id bs_plan_id bs_selections bs_database]. rewrite src_found.
    cbn [ok_or lift]. apply agrees_ret_r, agrees_ret_r. eapply agrees_more_r; [apply agrees_resolve_now|].
    intros l ? <-. by apply agrees_ret.
  - intros l request ->. rewrite no_backup_unresolved; [by apply agrees_ret|].
    intros [b Hb]. revert Hb. destruct (sy_masking r), (sy_verify r), (sy_retention r); cbn; naive_solver.
Qed.

Lemma unmasked_steps all resolved rest : forall i,
  (forall rules, ~ In (PMask rules) rest) -> cover_all profiles all resolved i rest = @ret W _ [].
Proof.
  induction rest as [|s rest IH]; intros i Hn; [done|].
  destruct s; cbn [cover_all]; try (apply IH; intros rules Hi; apply (Hn rules); by right). destruct (Hn rules). by left.
Qed.

Lemma cover_agrees r l :
  validate_masking r = Ok tt ->
  let r' := with_backup r (with_selections (sy_backup r) l) in
  agrees (plan_masking src r')
    (cover_all profiles (steps_of src dst r) [(0%nat, with_selections (sy_backup r) l)] 0 (steps_of src dst r))
    (fun coverage coverages =>
       match sy_masking r with [] => coverage = None | _ => get coverages 3 = Some coverage end).
Proof.
  intros Hv r'. unfold plan_masking. change (validate_masking r') with (validate_masking r).
  rewrite Hv. change (sy_masking r') with (sy_masking r).
  assert (Hrest : forall all resolved i,
    cover_all profiles all resolved i ((if sy_verify r then [PVerify (sy_deep_verify r)] else [])
       ++ (match sy_retention r with Some policy => [PRetention policy] | None => [] end)) = @ret W _ []).
  { intros all resolved i. apply unmasked_steps. intros rules. rewrite in_app_iff.
    destruct (sy_verify r), (sy_retention r); cbn; intros [[]|[]]; done. }
  set (all := steps_of src dst r) at 1. unfold steps_of. cbn [app cover_all].
  destruct (sy_masking r) as [|rule rules]; cbn [app cover_all].
  - rewrite Hrest. by apply agrees_ret.
  - apply agrees_ret_l. unfold backup_before. cbn [List.filter fst Nat.ltb Nat.leb last].
    assert (Ha : all !! 0%nat = Some (PBackup (mk_backup_step (profile_id src) (co_database (common (sy_backup r))) None
        (selections (common (sy_backup r))) (Some (output_dir (common (sy_backup r)))) (compress (common (sy_backup r)))
        (encrypt (common (sy_backup r))) (record_row_counts (common (sy_backup r))) (engine (sy_backup r))))) by done.
    rewrite Ha. unfold find_op. cbn [bs_profile_id]. rewrite src_found. cbn [ok_or lift]. apply agrees_ret_r.
    eapply agrees_more_r; [apply agrees_plan_masking_for|]. intros coverage ? <-. rewrite Hrest. apply agrees_ret_r.
    by apply agrees_ret.
Qed.

(** C8: A sync and the saved pipeline of the same steps, run with the same
    confirmation by somebody who does not cancel, attempt the same operations with
    the same arguments in the same order, leave the same world, and fail alike or
    report alike. *)
Theorem sync_is_a_pipeline r name :
  (forall w, list_profiles w = (Ok profiles, w)) ->
  validate_against (pipeline_of src dst r name) profiles = Ok tt ->
  profile_engine src = profile_engine dst -> validate_masking r = Ok tt ->
  confirmed_by r (typed_confirmations run) ->
  agrees (sync src dst r) (run_pipeline (pipeline_of src dst r name) run) same_outcome.
Proof.
  intros Hl Hv He Hm Hc. unfold sync, run_pipeline. rewrite bool_decide_true by done. cbn [negb guard lift].
  apply agrees_ret_l. apply (agrees_silent_r _ _ profiles).
  { intros t. unfold invoke. rewrite Hl. by destruct t. }
  rewrite Hv. cbn [map_err lift]. apply agrees_ret_r. cbn [p_steps pipeline_of].
  eapply agrees_bind; [apply resolve_agrees|]. intros l ? ->. cbv zeta.
  eapply agrees_bind; [by apply cover_agrees|]. intros coverage coverages Hcov.
  apply agrees_say_l; [done|]. apply agrees_say_r; [done|].
  apply agrees_more_r with (R := fun o f => same_outcome o (outcome f)); [|intros o f Ho; by apply agrees_ret].
  apply (carry_out_agrees r (with_selections (sy_backup r) l)); done.
Qed.
End Same.

(** ** What a sync leaves behind *)

Ltac leaf :=
  match goal with
  | |- post (bind _ _) _ => apply post_bind
  | |- post (note _) _ => apply post_note
  | |- post (emit_info _ _) _ => apply post_note
  | |- post (emit_warning _ _) _ => apply post_note
  | |- post (ret _) _ => apply post_ret
  | |- post (ask _) _ => apply post_ask; intros ?
  | |- post (attempt _ _) _ => apply post_attempt; intros ?
  | |- post (invoke _) _ => apply post_invoke; intros ?
  | |- context [map_err ?r Failed_] => destruct r; cbn [map_err app]
  | |- context [fst (?f ?w)] => let E := fresh "E" in destruct (fst (f w)) eqn:E; cbn [app]
  end.

Definition nothing_masked : Entry :=
  Emitted Warn Initializing "no masking rule matches a table in this plan; nothing will be masked".

Section Left.
Context {W : Type} `{Operations W}.
Variables src dst : ConnectionProfile.

Lemma quiet_all {A} (m : Op W A) (Q : list Entry -> result A Stop -> Prop) :
  post m quiet -> post m Q -> post m (fun l r => quiet l r /\ Q l r).
Proof. apply post_and. Qed.

(** The rules that will run: those of the request on what it selected.  None is
    planned only when none was asked for, or with a warning. *)
Definition planned_from (r : SyncRequest) (l : list Entry) (coverage : option MaskingCoverage) : Prop :=
  match coverage with
  | Some c => exists columns,
      plan_coverage (profile_engine src) (names_with SchemaAndData (selections (common (sy_backup r)))) columns
        (sy_masking r) = Ok c
  | None => sy_masking r = [] \/ In nothing_masked l
  end.

Lemma planned_from_more r l1 l l2 c : planned_from r l c -> planned_from r (l1 ++ l ++ l2) c.
Proof. destruct c; [done|]. intros [Hs|Hi]; [by left|right]. rewrite !in_app_iff. auto. Qed.

Lemma plan_masking_spec r :
  post (plan_masking src r) (fun l res => quiet l res /\ forall c, res = Ok c ->
    validate_masking r = Ok tt /\ planned_from r l c).
Proof.
  apply quiet_all.
  { unfold plan_masking. destruct (sy_masking r); [quiet|]. apply quiet_bind; [quiet|]. intros _. apply quiet_plan_masking. }
  unfold plan_masking. destruct (sy_masking r) as [|rule rules] eqn:Er.
  { apply post_ret. intros c [= <-]. unfold validate_masking. rewrite Er. split; [done|by left]. }
  apply post_bind, post_lift. destruct (validate_masking r) as [[]|e]; cbn [map_err]; [|done].
  unfold plan_masking_for. repeat leaf; try done. apply post_lift.
  destruct (plan_coverage _ _ _ _) as [cov|] eqn:Ec; cbn [map_err]; [|done].
  apply post_bind. eapply post_mono; [apply quiet_warn_inert|]. intros l [[]|e] _; [|done].
  destruct (coverage_is_empty _); repeat leaf; intros c [= <-]; (split; [done|]); unfold planned_from; rewrite Er; [|by eexists].
  right. repeat (cbn; rewrite ?in_app_iff). auto 10.
Qed.

Lemma post_bail (Q : list Entry -> result unit Stop -> Prop) :
  Q [] (Ok tt) -> Q [] (Err (Failed_ OpCancelled)) -> post (@bail W _) Q.
Proof. intros Ho He. unfold bail. apply post_ask. intros w. by destruct (cancelled w) as [[] w']. Qed.

(** The calls of one stage that ended well, what one of them answered, and that
    the stage gives what was answered. *)
Lemma backup_stage_spec r :
  post (backup_stage src r) (fun l res => forall file, res = Ok file ->
    calls l = [DidBackup src (sy_backup r)] /\ exists w, (backup src (sy_backup r) w).1 = Ok file).
Proof.
  unfold backup_stage. repeat leaf; try done. apply post_bail; [|done]. repeat leaf. intros ? [= <-]. eauto.
Qed.

Lemma offsite_stage_spec file :
  post (offsite_stage file) (fun l res => forall pushed, res = Ok pushed ->
    calls l = [DidPush file] /\ exists w, (push_offsite file w).1 = Ok pushed).
Proof. unfold offsite_stage. repeat leaf; try done. intros ? [= <-]. eauto. Qed.

Definition restore_of_file (r : SyncRequest) (file : string) : RestoreRequest :=
  mk_restore file (sy_naming r) (sy_restore r) true (sy_typed_confirmation r).

Lemma restore_stage_spec r file :
  post (restore_stage dst r file) (fun l res => forall db, res = Ok db ->
    calls l = [DidRestore dst (restore_of_file r file)] /\ exists w, (restore dst (restore_of_file r file) w).1 = Ok db).
Proof.
  unfold restore_stage. repeat leaf; try done. apply post_bail; [|done]. repeat leaf. intros ? [= <-]. eauto.
Qed.

Definition mask_calls (coverage : option MaskingCoverage) (db : string) : list Entry :=
  match coverage with Some c => [DidMask dst db c] | None => [] end.

Lemma mask_stage_spec coverage db :
  post (mask_stage dst coverage db) (fun l res => forall m, res = Ok m ->
    calls l = mask_calls coverage db
    /\ match coverage with
       | Some c => exists w report, (mask_destination dst db c w).1 = Ok report /\ m = Some report
       | None => m = None
       end).
Proof. unfold mask_stage, mask_calls. destruct coverage; repeat leaf; try done; intros ? [= <-]; eauto. Qed.

Definition verify_calls (r : SyncRequest) (coverage : option MaskingCoverage) (db : string) : list Entry :=
  if sy_verify r then [DidVerify (verify_request_of src dst r coverage db)] else [].

Lemma verify_stage_spec r coverage db :
  post (verify_stage src dst r coverage db) (fun l res => forall v, res = Ok v ->
    calls l = verify_calls r coverage db
    /\ if sy_verify r
       then exists w report, (verify_restore (verify_request_of src dst r coverage db) w).1 = Ok report /\ v = Some report
       else v = None).
Proof.
  unfold verify_stage, verify_calls. destruct (sy_verify r); repeat leaf; try done; intros ? [= <-]; eauto.
Qed.

Definition prune_calls (r : SyncRequest) (succeeded : bool) : list Entry :=
  match sy_retention r with
  | Some policy => if succeeded then [DidPrune (output_dir (common (sy_backup r))) policy] else []
  | None => []
  end.

(** What retention removed: what it answered, where it was applied. *)
Definition removal_answered (r : SyncRequest) (succeeded : bool) (removed : list string) : Prop :=
  match sy_retention r with
  | Some policy =>
      if succeeded then exists w, (apply_retention (output_dir (common (sy_backup r))) policy w).1 = Ok removed
      else removed = []
  | None => removed = []
  end.

Lemma retention_stage_spec r v pushed :
  let succeeded := none_or_passed v && forallb push_succeeded pushed in
  post (retention_stage r v pushed) (fun l res => forall removed, res = Ok removed ->
    calls l = prune_calls r succeeded /\ removal_answered r succeeded removed).
Proof.
  unfold retention_stage, prune_calls, removal_answered. destruct (sy_retention r) as [policy|]; [|repeat leaf; intros ? [= <-]; eauto].
  destruct (none_or_passed v && forallb push_succeeded pushed); repeat leaf; try done; intros ? [= <-]; eauto 10.
Qed.

(** What a run of the written plan called, with what, and what it reports: each
    call is on what the calls before it answered. *)
Record faithful (r : SyncRequest) (coverage : option MaskingCoverage) (l : list Entry) (o : SyncOutcome) : Prop := {
  f_calls : calls l =
    [DidBackup src (sy_backup r); DidPush (so_artifact_path o); DidRestore dst (restore_of_file r (so_artifact_path o))]
    ++ mask_calls coverage (so_target_database o) ++ verify_calls r coverage (so_target_database o)
    ++ prune_calls r (sync_fully_succeeded o);
  f_artifact : exists w, (backup src (sy_backup r) w).1 = Ok (so_artifact_path o);
  f_pushed : exists w, (push_offsite (so_artifact_path o) w).1 = Ok (so_offsite o);
  f_restored : exists w, (restore dst (restore_of_file r (so_artifact_path o)) w).1 = Ok (so_target_database o);
  f_masked : match coverage with
    | Some c => exists w report,
        (mask_destination dst (so_target_database o) c w).1 = Ok report /\ so_masking o = Some report
    | None => so_masking o = None
    end;
  f_verified : if sy_verify r
    then exists w report, (verify_restore (verify_request_of src dst r coverage (so_target_database o)) w).1 = Ok report
                          /\ so_verification o = Some report
    else so_verification o = None;
  f_removed : removal_answered r (sync_fully_succeeded o) (so_removed_artifacts o) }.

Lemma calls_app l l' : calls (l ++ l') = calls l ++ calls l'.
Proof. apply List.filter_app. Qed.

Lemma carry_out_spec r coverage :
  post (carry_out src dst r coverage) (fun l res => forall o, res = Ok o -> faithful r coverage l o).
Proof.
  unfold carry_out.
  apply post_bind. eapply post_mono; [apply backup_stage_spec|]. intros l1 [file|e] H1; [|done].
  destruct (H1 file eq_refl) as [C1 A1].
  apply post_bind. eapply post_mono; [apply offsite_stage_spec|]. intros l2 [pushed|e] H2; [|done].
  destruct (H2 pushed eq_refl) as [C2 A2].
  apply post_bind. eapply post_mono; [apply restore_stage_spec|]. intros l3 [db|e] H3; [|done].
  destruct (H3 db eq_refl) as [C3 A3].
  apply post_bind. eapply post_mono; [apply mask_stage_spec|]. intros l4 [m|e] H4; [|done].
  destruct (H4 m eq_refl) as [C4 A4].
  apply post_bind. eapply post_mono; [apply verify_stage_spec|]. intros l5 [v|e] H5; [|done].
  destruct (H5 v eq_refl) as [C5 A5].
  apply post_bind. eapply post_mono; [apply retention_stage_spec|]. intros l6 [removed|e] H6; [|done].
  destruct (H6 removed eq_refl) as [C6 A6].
  apply post_ret. intros o [= <-]. constructor; cbn; try done.
  by rewrite !calls_app, C1, C2, C3, C4, C5, C6, app_nil_r.
Qed.

(** What a run attempted, said and reported. *)
Definition truthful (r : SyncRequest) (l : list Entry) (res : result SyncOutcome Stop) : Prop :=
  (forall e, In e l -> is_call e = true -> profile_engine src = profile_engine dst /\ validate_masking r = Ok tt)
  /\ (forall o, res = Ok o -> exists selected coverage,
        let r := with_backup r (with_selections (sy_backup r) selected) in
        planned_from r l coverage /\ faithful r coverage l o).

(** C9: A sync attempts nothing on servers of two kinds or with a masking it could
    not undo.  One that ends well made exactly these calls, in this order: the
    backup of the tables it selected; the push and the restore of the very file
    that backup answered; the masking, unless none was asked for or it said that
    no rule applies, and the verification, if asked for, of the database that
    restore answered; and the retention it was asked for, exactly when the
    verification passed and every copy arrived.  Its outcome is what they answered. *)
Theorem sync_reports_the_truth r s res s' :
  sync src dst r s = (res, s') -> exists l, trace s' = trace s ++ l /\ truthful r l res.
Proof.
  intros E. eapply post_run; [clear E|exact E]. unfold truthful.
  assert (Hquiet : forall l, Forall is_emitted l -> calls l = []).
  { induction 1 as [|e l He _ IH]; [done|]. unfold calls in *. simpl. by destruct e. }
  assert (Hnone : forall l e, calls l = [] -> In e l -> is_call e = true -> False).
  { intros l e Hl Hi Hc. assert (In e (calls l)) as Hin by by apply filter_In. by rewrite Hl in Hin. }
  unfold sync. apply post_bind, post_lift. destruct (bool_decide _) eqn:Ee; cbn [negb guard map_err]; [|split; [by intros ? []|done]].
  apply bool_decide_eq_true in Ee. apply post_bind.
  eapply post_mono; [unfold resolve_now; quiet; apply quiet_warn_all|]. intros l [sels|e] [Hl _];
    [|split; [intros x Hx Hc; by destruct (Hnone l x (Hquiet l Hl) Hx Hc)|done]].
  cbv zeta. set (r' := with_backup r _). apply post_bind. eapply post_mono; [apply (plan_masking_spec r')|].
  assert (Hsay : forall l1, Forall is_emitted l1 -> calls ([] ++ l ++ l1) = []).
  { intros l1 Hl1. apply Hquiet. cbn [app]. by apply Forall_app. }
  intros l1 [coverage|e] [[Hl1 _] Hp]; [|split; [intros x Hx Hc; by destruct (Hnone _ x (Hsay l1 Hl1) Hx Hc)|done]].
  destruct (Hp coverage eq_refl) as [Hv Hn]. apply post_bind, post_note.
  eapply post_mono; [apply carry_out_spec|]. intros l2 res' Ho. split; [intros x _ _; done|].
  intros o Hres. exists sels, coverage. split.
  - change ([] ++ l ++ l1 ++ [Planned (sync_plan r' (is_some coverage))] ++ l2) with (l ++ l1 ++ ([Planned (sync_plan r' (is_some coverage))] ++ l2)).
    by apply planned_from_more.
  - pose proof (Ho o Hres) as [Hc ? ? ? ? ? ?]. constructor; try done.
    etransitivity; [|exact Hc]. rewrite !calls_app. change (calls [Planned _]) with (@nil Entry). by rewrite (Hquiet l Hl), (Hquiet l1 Hl1).
Qed.
End Left.

(** ** Witnesses *)

Definition nightly_copy : SyncRequest :=
  mk_sync_request (mk_backup (mk_common "shop" [with_data "orders"] "/backups" true false false) (BMysql mysql_default))
    (DropAndRecreate "staging") (RMysql rmysql_default) true false [] (Some (mk_policy (Some 3) None)) (Some "staging").

Lemma copy_accepted :
  validate_against (pipeline_of (server 1) (server 2) nightly_copy "copy") [server 1; server 2] = Ok tt.
Proof. vm_compute. reflexivity. Qed.

Definition copied : result SyncOutcome Stop * OpState (list VerificationReport) :=
  @sync _ calm (server 1) (server 2) nightly_copy (mk_op [good_report] []).

Definition chained : result PipelineOutcome Stop * OpState (list VerificationReport) :=
  @run_pipeline _ calm (pipeline_of (server 1) (server 2) nightly_copy "copy") (confirmed ["staging"]) (mk_op [good_report] []).

Lemma sync_is_a_pipeline_witness :
  is_ok copied.1 = true /\ exists l k, trace copied.2 = l /\ trace chained.2 = k /\ calls l = calls k.
Proof.
  split; [vm_compute; reflexivity|].
  destruct (@sync_is_a_pipeline _ calm (fun w => eq_refl) (server 1) (server 2) [server 1; server 2] (confirmed ["staging"])
    eq_refl eq_refl nightly_copy "copy" (fun w => eq_refl) copy_accepted eq_refl eq_refl eq_refl
    (mk_op [good_report] []) (mk_op [good_report] []) eq_refl) as (l & k & Hl & Hk & Hc & _).
  exists l, k. split; [exact Hl|]. split; [exact Hk|exact Hc].
Defined.

Lemma copied_runs : exists o s', copied = (Ok o, s').
Proof. do 2 eexists. vm_compute. reflexivity. Qed.

Lemma sync_reports_the_truth_witness :
  exists o s' l, copied = (Ok o, s') /\ is_some (so_verification o) = true /\ @truthful _ calm (server 1) (server 2) nightly_copy l (Ok o).
Proof.
  destruct copied_runs as (o & s' & E).
  destruct (@sync_reports_the_truth _ calm (server 1) (server 2) nightly_copy _ _ _ E) as (l & _ & Ht).
  exists o, s', l. split; [exact E|]. split; [|exact Ht].
  destruct (proj2 Ht o eq_refl) as (selected & coverage & _ & F).
  destruct (f_verified _ _ _ _ _ _ F) as (w & report & _ & ->). reflexivity.
Defined.
