(* ===== verification/Crypto.v ===== *)
(** * Crypto: how an artifact is written and read (engine/src/crypto.rs)

    Compression and encryption are libraries; they are interfaces here, as
    machines that turn what is written to them into what they pass on. *)

From Stdlib Require Import ZArith Lia Ascii String List Bool.
From stdpp Require Import base list gmap strings.
From S2P Require Import Prelude Text Disk Definer.
Import ListNotations.

Open Scope string_scope.
Open Scope list_scope.
Open Scope Z_scope.

Inductive CryptoError :=
| BadRecipient (raw : string)
| BadIdentity
| NoIdentity
| Encrypt (why : string)
| NoMatchingIdentity (recipients : string)
| Decrypt (why : string)
| CryptoIo (why : string).

Definition crypto_error_text (e : CryptoError) : string :=
  match e with
  | BadRecipient raw => raw ++ " is not a valid age recipient (public keys look like `age1...`)"
  | BadIdentity => "the stored backup key is not a valid age identity"
  | NoIdentity => "no backup key is configured; generate one in Settings before taking an encrypted backup"
  | Encrypt why => "encryption failed: " ++ why
  | NoMatchingIdentity recipients =>
      "this artifact cannot be decrypted with the backup key on this machine. It was encrypted to: " ++ recipients
  | Decrypt why => "decryption failed: " ++ why
  | CryptoIo why => "io error: " ++ why
  end%string.

(** ** The libraries *)

(** A layer over a writer: what it passes on as it is written to, flushed and
    finished. *)
Record Layer := mk_layer {
  layer_state : Type;
  take_in : layer_state -> bytes -> layer_state * bytes;
  drain : layer_state -> layer_state * bytes;
  close : layer_state -> bytes }.

(** What reading to the end gives: the bytes, and an error where it breaks. *)
Record Stream := mk_stream { delivered : bytes; broken : option string }.

Inductive DecryptError := NoMatchingKeys | OtherDecrypt (why : string).

Class Libraries := {
  gzip : Layer;
  gzip_new : layer_state gzip;
  gunzip : Stream -> Stream;
  Recipient : Type;
  Identity : Type;
  parse_x25519 : string -> option Recipient;
  show_recipient : Recipient -> string;
  parse_identity : string -> option Identity;
  show_identity : Identity -> string;
  to_public : Identity -> Recipient;
  age : Layer;
  with_recipients : list Recipient -> result unit string;
  age_header : list Recipient -> layer_state age * bytes;   (* [wrap_output] writes the header *)
  age_read : Stream -> result Stream string;          (* past the header *)
  age_decrypt : Stream -> Identity -> result Stream DecryptError }.

(** What a writer does with bytes: on an error it is lost. *)
Class Writer (W : Type) := {
  write_all : W -> bytes -> result W string;
  flush_writer : W -> result W string }.

Section Crypto.
Context `{Libraries}.

(** ** Keys *)

Definition generate_identity (fresh : Identity) : string * string :=
  (show_identity fresh, show_recipient (to_public fresh)).

Definition parse_recipient (raw : string) : result Recipient CryptoError :=
  ok_or (parse_x25519 (trim raw)) (BadRecipient raw).

Definition public_from_identity (secret : string) : result string CryptoError :=
  let? identity := ok_or (parse_identity secret) BadIdentity in
  Ok (show_recipient (to_public identity)).

Fixpoint parse_recipients (l : list string) : result (list Recipient) CryptoError :=
  match l with
  | [] => Ok []
  | r :: rest =>
      let? p := parse_recipient r in
      let? ps := parse_recipients rest in
      Ok (p :: ps)
  end.

(** ** Writing *)

Section Writing.
Context {W : Type} `{Writer W}.

Definition encrypting_writer (inner : W) (recipients : list string) : result (layer_state age * W) CryptoError :=
  match recipients with
  | [] => Err NoIdentity
  | _ =>
      let? parsed := parse_recipients recipients in
      let? _ := map_err (with_recipients parsed) Encrypt in
      let '(a, header) := age_header parsed in
      let? inner := map_err (write_all inner header) Encrypt in
      Ok (a, inner)
  end.

Definition finish_encryption (w : layer_state age * W) : result W CryptoError :=
  map_err (write_all (snd w) (close age (fst w))) Encrypt.

Inductive ArtifactSink :=
| Gz (g : layer_state gzip) (inner : W)
| GzEncrypted (g : layer_state gzip) (a : layer_state age) (inner : W).

Definition new_sink (inner : W) (recipients : list string) : result ArtifactSink CryptoError :=
  match recipients with
  | [] => Ok (Gz gzip_new inner)
  | _ =>
      let? (a, inner) := encrypting_writer inner recipients in
      Ok (GzEncrypted gzip_new a inner)
  end.

(** What one layer passes on, written to the one below. *)
Definition age_write (a : layer_state age) (inner : W) (b : bytes) : result (layer_state age * W) string :=
  let '(a, out) := take_in age a b in
  let? inner := write_all inner out in
  Ok (a, inner).

Definition sink_write (s : ArtifactSink) (b : bytes) : result ArtifactSink string :=
  match s with
  | Gz g inner =>
      let '(g, out) := take_in gzip g b in
      let? inner := write_all inner out in
      Ok (Gz g inner)
  | GzEncrypted g a inner =>
      let '(g, out) := take_in gzip g b in
      let? (a, inner) := age_write a inner out in
      Ok (GzEncrypted g a inner)
  end.

Definition sink_flush (s : ArtifactSink) : result ArtifactSink string :=
  match s with
  | Gz g inner =>
      let '(g, out) := drain gzip g in
      let? inner := write_all inner out in
      let? inner := flush_writer inner in
      Ok (Gz g inner)
  | GzEncrypted g a inner =>
      let '(g, out) := drain gzip g in
      let? (a, inner) := age_write a inner out in
      let '(a, out) := drain age a in
      let? inner := write_all inner out in
      let? inner := flush_writer inner in
      Ok (GzEncrypted g a inner)
  end.

Definition sink_finish (s : ArtifactSink) : result W CryptoError :=
  match s with
  | Gz g inner => map_err (write_all inner (close gzip g)) CryptoIo
  | GzEncrypted g a inner =>
      let? w := map_err (age_write a inner (close gzip g)) CryptoIo in
      finish_encryption w
  end.

(** Everything a backup does to a sink before it finishes it. *)
Inductive SinkCall := Put (b : bytes) | Flush.

Fixpoint sink_run (s : ArtifactSink) (l : list SinkCall) : result ArtifactSink string :=
  match l with
  | [] => Ok s
  | Put b :: rest => let? s := sink_write s b in sink_run s rest
  | Flush :: rest => let? s := sink_flush s in sink_run s rest
  end.
End Writing.

(** ** Reading *)

Definition decrypting_reader (inner : Stream) (secret : string) : result Stream CryptoError :=
  let? identity := ok_or (parse_identity secret) BadIdentity in
  let? decryptor := map_err (age_read inner) Decrypt in
  map_err (age_decrypt decryptor identity)
    (fun e => match e with
              | NoMatchingKeys => NoMatchingIdentity "(recorded in the manifest)"
              | OtherDecrypt other => Decrypt other
              end).

Definition artifact_reader (inner : Stream) (identity : option string) : result Stream CryptoError :=
  match identity with
  | Some secret =>
      let? plain := decrypting_reader inner secret in
      Ok (gunzip plain)
  | None => Ok (gunzip inner)
  end.
End Crypto.

(** ** Which files are encrypted *)

Definition MAGIC : string := "age-encryption.org/".

Definition looks_encrypted (d : Disk) (path : string) : bool :=
  match read_text d path with
  | Ok text => starts_with MAGIC text
  | Err _ => false
  end.

(** ** What the libraries promise *)

(** All a layer passes on when it is used so and then finished. *)
Fixpoint passed_on (l : Layer) (s : layer_state l) (calls : list SinkCall) : bytes :=
  match calls with
  | [] => close l s
  | Put b :: rest => let '(s, out) := take_in l s b in out ++ passed_on l s rest
  | Flush :: rest => let '(s, out) := drain l s in out ++ passed_on l s rest
  end.

Fixpoint written (calls : list SinkCall) : bytes :=
  match calls with
  | [] => []
  | Put b :: rest => b ++ written rest
  | Flush :: rest => written rest
  end.

Definition whole (b : bytes) : Stream := mk_stream b None.

Definition age_file `{Libraries} (rs : list Recipient) (calls : list SinkCall) : bytes :=
  let '(a, header) := age_header rs in header ++ passed_on age a calls.

Class Lawful `{Libraries} := {
  gunzip_gzip : forall calls, gunzip (whole (passed_on gzip gzip_new calls)) = whole (written calls);
  age_opens : forall rs i calls, In (to_public i) rs ->
    exists opened, age_read (whole (age_file rs calls)) = Ok opened
      /\ age_decrypt opened i = Ok (whole (written calls));
  age_magic : forall rs calls, starts_with MAGIC (string_of_list_ascii (age_file rs calls)) = true;
  gzip_magic : forall calls,
    starts_with MAGIC (string_of_list_ascii (passed_on gzip gzip_new calls)) = false;
  gunzip_refuses_age : forall b, starts_with MAGIC (string_of_list_ascii b) = true -> broken (gunzip (whole b)) <> None }.

(** A file, or a buffer: it takes everything and keeps it in order. *)
#[global] Instance buffer : Writer bytes :=
  {| write_all w b := Ok (w ++ b); flush_writer w := Ok w |}.

Section RoundTrip.
Context `{Lawful}.

(** What the encryption layer is called with, as the sink above it is used. *)
Fixpoint below (g : layer_state gzip) (calls : list SinkCall) : list SinkCall :=
  match calls with
  | [] => [Put (close gzip g)]
  | Put b :: rest => let '(g, out) := take_in gzip g b in Put out :: below g rest
  | Flush :: rest => let '(g, out) := drain gzip g in Put out :: Flush :: below g rest
  end.

Lemma written_below calls : forall g, written (below g calls) = passed_on gzip g calls.
Proof.
  induction calls as [|[b|] calls IH]; intros g; simpl; [by rewrite app_nil_r|..].
  - destruct (take_in gzip g b) as [g' out]. simpl. by rewrite IH.
  - destruct (drain gzip g) as [g' out]. simpl. by rewrite IH.
Qed.

Lemma sink_gz calls : forall g w,
  exists s, sink_run (Gz g w) calls = Ok s /\ sink_finish s = Ok (w ++ passed_on gzip g calls).
Proof.
  induction calls as [|[b|] calls IH]; intros g w; simpl; [eauto|..].
  - destruct (take_in gzip g b) as [g' out]. simpl. rewrite app_assoc. apply IH.
  - destruct (drain gzip g) as [g' out]. simpl. rewrite app_assoc. apply IH.
Qed.

Lemma sink_gz_encrypted calls : forall g a w,
  exists s, sink_run (GzEncrypted g a w) calls = Ok s
    /\ sink_finish s = Ok (w ++ passed_on age a (below g calls)).
Proof.
  induction calls as [|[b|] calls IH]; intros g a w.
  - simpl. eexists. split; [done|]. unfold sink_finish, age_write, finish_encryption.
    destruct (take_in age a _) as [a' out]. simpl. by rewrite app_assoc.
  - simpl. unfold age_write. destruct (take_in gzip g b) as [g' out]. simpl.
    destruct (take_in age a out) as [a' out']. simpl. rewrite app_assoc. apply IH.
  - simpl. unfold age_write. destruct (drain gzip g) as [g' out]. simpl.
    destruct (take_in age a out) as [a' out']. simpl. destruct (drain age a') as [a2 out2]. simpl.
    rewrite !app_assoc. apply IH.
Qed.

(** Who can read what was written for these recipients. *)
Definition reads_for (recipients : list string) (identity : option string) : Prop :=
  match recipients, identity with
  | [], None => True
  | _ :: _, Some secret =>
      exists i parsed, parse_identity secret = Some i /\ parse_recipients recipients = Ok parsed
        /\ In (to_public i) parsed
  | _, _ => False
  end.

(** What the sink of a backup leaves, once it was used and finished. *)
Definition sealed (recipients : list string) (calls : list SinkCall) (content : bytes) : Prop :=
  exists s s', new_sink [] recipients = Ok s /\ sink_run s calls = Ok s' /\ sink_finish s' = Ok content.

Lemma sealed_encrypted recipients calls content :
  recipients <> [] -> sealed recipients calls content ->
  exists parsed, parse_recipients recipients = Ok parsed
    /\ content = age_file parsed (below gzip_new calls).
Proof.
  intros Hr (s & s' & E1 & E2 & E3). unfold new_sink in E1. destruct recipients as [|r rs]; [done|].
  apply rbind_Ok in E1 as ([a inner] & Ew & E1). inv_ok. unfold encrypting_writer in Ew.
  apply rbind_Ok in Ew as (parsed & Ep & Ew). apply rbind_Ok in Ew as (u & _ & Ew).
  destruct (age_header parsed) as [a0 header] eqn:Eh. simpl in Ew. inv_ok. exists parsed. split; [done|].
  destruct (sink_gz_encrypted calls gzip_new a inner) as (s2 & E4 & E5).
  unfold age_file. rewrite Eh. congruence.
Qed.

Lemma sealed_plain calls content :
  sealed [] calls content -> content = passed_on gzip gzip_new calls.
Proof.
  intros (s & s' & E1 & E2 & E3). simpl in E1. inv_ok.
  destruct (sink_gz calls gzip_new []) as (s2 & E4 & E5). simpl in E5. congruence.
Qed.

Lemma sealed_magic recipients calls content :
  sealed recipients calls content ->
  starts_with MAGIC (string_of_list_ascii content) = match recipients with [] => false | _ => true end.
Proof.
  intros Hs. destruct recipients as [|r rs].
  - apply sealed_plain in Hs as ->. apply gzip_magic.
  - apply sealed_encrypted in Hs as (parsed & _ & ->); [|done]. apply age_magic.
Qed.

Lemma sealed_reads_back recipients calls content identity :
  sealed recipients calls content -> reads_for recipients identity ->
  artifact_reader (whole content) identity = Ok (whole (written calls)).
Proof.
  intros Hs Hr. destruct recipients as [|r rs], identity as [secret|]; try done; simpl in Hr.
  - apply sealed_plain in Hs as ->. simpl. by rewrite gunzip_gzip.
  - destruct Hr as (i & parsed & Ei & Ep & Hin).
    apply sealed_encrypted in Hs as (parsed' & Ep' & ->); [|done].
    assert (parsed' = parsed) as -> by (cbn [parse_recipients] in Ep'; congruence).
    destruct (age_opens parsed i (below gzip_new calls) Hin) as (opened & Eo & Ed).
    unfold artifact_reader, decrypting_reader. rewrite Ei. simpl. rewrite Eo. simpl. rewrite Ed. simpl.
    by rewrite written_below, gunzip_gzip.
Qed.

(** C10: an artifact reads back as what was written to it.  However a backup cut the
    dump into writes and flushes, a finished sink leaves a file from which the
    reader of the restores gets the dump, byte for byte and to its end, with any
    key the artifact was encrypted to, and without one when there was no
    recipient; and the file starts like an encrypted one exactly in the first
    case, which is what a restore goes by. *)
Theorem artifact_round_trip recipients calls content identity :
  sealed recipients calls content -> reads_for recipients identity ->
  artifact_reader (whole content) identity = Ok (whole (written calls))
  /\ starts_with MAGIC (string_of_list_ascii content) = is_some identity.
Proof.
  intros Hs Hr. split; [by eapply sealed_reads_back|]. rewrite (sealed_magic _ _ _ Hs).
  by destruct recipients, identity.
Qed.
End RoundTrip.

(** ** Libraries that keep the promises

    Compression marks its output and nothing more; there are two keys, and a
    file says which of them open it. *)

Module Toy.
Definition gzip_layer : Layer :=
  mk_layer bool
    (fun started b => (true, (if started then [] else ["G"%char]) ++ b))
    (fun started => (started, []))
    (fun started => if started then [] else ["G"%char]).

Definition age_layer : Layer := mk_layer unit (fun _ b => (tt, b)) (fun _ => (tt, [])) (fun _ => []).

Definition gunzip_toy (s : Stream) : Stream :=
  match delivered s with
  | "G"%char :: rest => mk_stream rest (broken s)
  | _ => mk_stream [] (Some "invalid gzip header")
  end.

Definition opens (key : bool) (rs : list bool) : ascii := if existsb (Bool.eqb key) rs then "T" else "F".

Definition show_key (prefix : string) (b : bool) : string := (prefix ++ if b then "a" else "b")%string.

Definition parse_key (prefix s : string) : option bool :=
  if String.eqb s (prefix ++ "a") then Some true
  else if String.eqb s (prefix ++ "b") then Some false else None.

Definition read_age (s : Stream) : result Stream string :=
  let n := String.length MAGIC in
  if starts_with MAGIC (string_of_list_ascii (delivered s))
  then Ok (mk_stream (drop n (delivered s)) (broken s)) else Err "Header is invalid".

Definition decrypt_toy (s : Stream) (key : bool) : result Stream DecryptError :=
  match delivered s with
  | a :: b :: rest =>
      if Ascii.eqb (if key then a else b) "T" then Ok (mk_stream rest (broken s)) else Err NoMatchingKeys
  | _ => Err (OtherDecrypt "truncated")
  end.

#[global] Instance libraries : Libraries := {|
  gzip := gzip_layer; gzip_new := false; gunzip := gunzip_toy;
  Recipient := bool; Identity := bool;
  parse_x25519 := parse_key "age1"; show_recipient := show_key "age1";
  parse_identity := parse_key "AGE-SECRET-KEY-1"; show_identity := show_key "AGE-SECRET-KEY-1";
  to_public i := i; age := age_layer; with_recipients _ := Ok tt;
  age_header rs := (tt, list_ascii_of_string MAGIC ++ [opens true rs; opens false rs]);
  age_read := read_age; age_decrypt := decrypt_toy |}.

Lemma gzip_passes calls :
  passed_on gzip_layer true calls = written calls
  /\ passed_on gzip_layer false calls = "G"%char :: written calls.
Proof.
  induction calls as [|[b|] calls [IH1 IH2]]; simpl in *; [done| |by rewrite IH2].
  by rewrite !IH1.
Qed.

Lemma age_passes calls : passed_on age_layer tt calls = written calls.
Proof. induction calls as [|[b|] calls IH]; simpl in *; by rewrite ?IH. Qed.

Lemma opens_in key rs : In key rs -> opens key rs = "T"%char.
Proof.
  intros Hin. unfold opens. assert (existsb (Bool.eqb key) rs = true) as ->; [|done].
  apply existsb_exists. exists key. split; [done|]. by destruct key.
Qed.

#[global] Instance lawful : Lawful.
Proof.
  constructor.
  - intros calls. cbn [gzip gzip_new gunzip libraries]. by rewrite (proj2 (gzip_passes calls)).
  - intros rs i calls Hin. unfold age_file. cbn [age_header age libraries]. rewrite age_passes.
    eexists. split; [reflexivity|]. cbn. rewrite <- (opens_in i rs Hin). destruct i; by rewrite Ascii.eqb_refl.
  - intros rs calls. unfold age_file. cbn. reflexivity.
  - intros calls. cbn [gzip gzip_new libraries]. by rewrite (proj2 (gzip_passes calls)).
  - intros [|c b] Hb; [done|]. cbn [gunzip libraries]. unfold gunzip_toy. simpl delivered.
    destruct (Ascii.eqb_spec c "G") as [->|Hc]; [done|].
    destruct c as [[] [] [] [] [] [] [] []]; done.
Qed.
End Toy.

(** A dump for two recipients, written in two pieces, read with the second key. *)
Definition two_pieces : list SinkCall := [Put (byte_string "CREATE"); Flush; Put (byte_string " TABLE")].

Lemma two_pieces_sealed :
  exists content, sealed (H := Toy.libraries) ["age1a"; " age1b"] two_pieces content
    /\ artifact_reader (H := Toy.libraries) (whole content) (Some "AGE-SECRET-KEY-1b") = Ok (whole (byte_string "CREATE TABLE")).
Proof. unfold sealed. vm_compute. repeat eexists. Qed.

Lemma artifact_round_trip_witness :
  exists content,
    artifact_reader (H := Toy.libraries) (whole content) (Some "AGE-SECRET-KEY-1b") = Ok (whole (written two_pieces))
    /\ starts_with MAGIC (string_of_list_ascii content) = true.
Proof.
  destruct two_pieces_sealed as (content & Hs & _). exists content.
  apply (artifact_round_trip (H := Toy.libraries) ["age1a"; " age1b"] two_pieces content (Some "AGE-SECRET-KEY-1b") Hs).
  simpl. exists false, [true; false]. repeat split. simpl. auto.
Defined.
