(* ===== verification/Feed.v ===== *)
(** * Feed: what the restores have in common (engine/src/restore/mysql.rs, with the
      same steps in postgres.rs and mongo.rs)

    A restore reads an artifact from the disk and writes it to the standard input
    of a client.  The client is a [Pipe]: what it does with what it is given, and
    how it ends once its input is closed. *)

From Stdlib Require Import ZArith Lia Ascii String List Bool.
From stdpp Require Import base list gmap strings.
From S2P Require Import Prelude Text Time Domain Sql Exec Tools Disk Retention Backup Restore Definer BackupMysql Library Crypto.
From S2P Require Import Job.
Import ListNotations.

Open Scope string_scope.
Open Scope list_scope.
Open Scope Z_scope.

(** ** Clients *)

(** [accepts fed b] is what comes of writing [b] after [fed]: nothing, or an
    error and what got through. *)
Record Pipe := mk_pipe {
  accepts : bytes -> bytes -> option (string * bytes);
  ends : bytes -> Child }.

(** The processes a restore can start, by the number of those started before. *)
Record Processes := mk_processes {
  spawn_streaming : nat -> ToolCommand -> result Child ExecError;
  spawn_writing : nat -> ToolCommand -> result Pipe ExecError;
  cancelled : nat -> bool }.               (* the token, at each turn of the loop *)

Inductive RestoreProgress :=
| RPhase (phase : JobPhase) (message : string)
| RBytes (done total : Z)
| RWarn (phase : JobPhase) (message : string).

Record RestoreState := mk_rstate {
  started : list ToolCommand;
  fed : bytes;
  told : list RestoreProgress }.

Definition tell (s : RestoreState) (p : RestoreProgress) : RestoreState :=
  mk_rstate (started s) (fed s) (told s ++ [p]).
Definition start (s : RestoreState) (cmd : ToolCommand) : RestoreState :=
  mk_rstate (started s ++ [cmd]) [] (told s).
Definition give (s : RestoreState) (b : bytes) : RestoreState :=
  mk_rstate (started s) (fed s ++ b) (told s).

Definition RS (A : Type) : Type := RestoreState -> result A RestoreError * RestoreState.

Definition rs_ret {A} (a : A) : RS A := fun s => (Ok a, s).
Definition rs_lift {A} (r : result A RestoreError) : RS A := fun s => (r, s).
Definition rs_tell (p : RestoreProgress) : RS unit := fun s => (Ok tt, tell s p).
Definition rs_bind {A B} (m : RS A) (k : A -> RS B) : RS B := fun s =>
  match m s with
  | (Ok a, s) => k a s
  | (Err e, s) => (Err e, s)
  end.

Notation "'let%' x ':=' e 'in' k" := (rs_bind e (fun x => k))
  (at level 10, x pattern, e at level 100, k at level 200).

Definition exec_error_to_restore (e : ExecError) : RestoreError :=
  match e with ExecCancelled _ => RestoreCancelled | _ => RExec (exec_error_text e) end.

Definition wait_restore (cmd : ToolCommand) (c : Child) : result (list string) RestoreError :=
  map_err (wait_checked (program cmd) (exit c) (stderr c) (token_set c)) exec_error_to_restore.

(** ** Reading the artifact *)

(** [File::open], and what reading it to the end gives. *)
Definition open_stream (d : Disk) (path : string) : result Stream string :=
  match nodes d !! path with
  | Some (NFile f) =>
      Ok (match read_error f with
          | Some e => mk_stream [] (Some e)
          | None => whole (byte_string (content f))
          end)
  | Some NDir => Ok (mk_stream [] (Some "Is a directory (os error 21)"))
  | None => Err "No such file or directory (os error 2)"
  end.

(** [read_until(b'\n')]: the pieces keep their newline.  A read that fails loses the
    piece it was in. *)
Fixpoint cut_lines (whole_piece : bool) (cur l : bytes) : list bytes :=
  match l with
  | [] => match cur with [] => [] | _ => if whole_piece then [rev cur] else [] end
  | c :: r =>
      if Ascii.eqb c newline then rev (c :: cur) :: cut_lines whole_piece [] r
      else cut_lines whole_piece (c :: cur) r
  end.

Definition line_pieces (s : Stream) : list bytes :=
  cut_lines (match broken s with None => true | Some _ => false end) [] (delivered s).

(** How often progress is reported, in bytes. *)
Definition PROGRESS_EVERY : Z := 4 * 1024 * 1024.

Section Feed.
Variable p : Processes.
Variable pipe : Pipe.

Definition write_in (wrap : string -> string) (b : bytes) : RS unit := fun s =>
  match accepts pipe (fed s) b with
  | None => (Ok tt, give s b)
  | Some (e, part) => (Err (RInvalid (wrap e)), give s part)
  end.

(** The loop, from its [i]-th turn: [report i last] is what the piece just written
    lets it say. *)
Fixpoint feed_pieces (closed_early : string) (report : nat -> Z -> Z * list RestoreProgress)
    (broken : option string) (i : nat) (last : Z) (pieces : list bytes) : RS unit := fun s =>
  if cancelled p i then (Err RestoreCancelled, s)
  else
    match pieces with
    | [] =>
        match broken with
        | Some e => (Err (RInvalid ("reading the artifact failed: " ++ e)), s)
        | None => (Ok tt, s)
        end
    | b :: rest =>
        match write_in (String.append closed_early) b s with
        | (Err e, s) => (Err e, s)
        | (Ok _, s) =>
            let '(last, messages) := report i last in
            feed_pieces closed_early report broken (S i) last rest
              (mk_rstate (started s) (fed s) (told s ++ messages))
        end
    end.

(** Progress by the bytes read from the disk, [count i] after the [i]-th piece. *)
Definition report_bytes (count : nat -> Z) (total : Z) (i : nat) (last : Z) : Z * list RestoreProgress :=
  let done := count i in
  if PROGRESS_EVERY <=? done - last then (done, [RBytes done total]) else (last, []).
End Feed.

(** A client run to its end, without input. *)
Definition run_to_completion (p : Processes) (cmd : ToolCommand) : RS unit := fun s =>
  let s' := start s cmd in
  match spawn_streaming p (length (started s)) cmd with
  | Err e => (Err (RExec (exec_error_text e)), s')
  | Ok c =>
      match wait_restore cmd c with
      | Ok _ => (Ok tt, s')
      | Err e => (Err e, s')
      end
  end.

(** A client fed by [pump].  What went wrong with the stream goes before how the
    client ended. *)
Definition run_feeding (p : Processes) (cmd : ToolCommand) (pump : Pipe -> RS unit) : RS (list string) := fun s =>
  let s' := start s cmd in
  match spawn_writing p (length (started s)) cmd with
  | Err e => (Err (RExec (exec_error_text e)), s')
  | Ok pipe =>
      let '(outcome, s') := pump pipe s' in
      let waited := wait_restore cmd (ends pipe (fed s')) in
      match outcome with
      | Err e => (Err e, s')
      | Ok _ => (waited, s')
      end
  end.

(** ** Before anything is started *)

Section Before.
Context `{Codec}.

Definition recipients_text (manifest : option BackupManifest) : string :=
  match manifest with
  | Some m =>
      let r := join ", " (encryption_recipients m) in
      if String.eqb r "" then "(not recorded)" else r
  | None => "(not recorded)"
  end.

(** The key, when the file on the disk is encrypted; [key] is the keychain's answer.
    The two messages are broken differently over their lines. *)
Definition identity_for (d : Disk) (path : string) (manifest : option BackupManifest) (key : option string)
    (gap : string) : result (option string) RestoreError :=
  if looks_encrypted d path then
    match key with
    | Some k => Ok (Some k)
    | None => Err (RInvalid ("this artifact is encrypted and no backup key is available on this machine. It" ++ gap
                ++ "was encrypted to: " ++ recipients_text manifest ++ ". Import that key in Settings before restoring."))
    end
  else
    match manifest with
    | Some m =>
        if encrypted m
        then Err (RInvalid ("the manifest says this artifact is encrypted, but the file is not. It has been" ++ gap
               ++ "replaced or corrupted; refusing to restore it."))
        else Ok None
    | None => Ok None
    end.

Definition checksum_stage (d : Disk) (manifest : option BackupManifest) (path : string) : RS unit :=
  match manifest with
  | Some m =>
      let% _ := rs_tell (RPhase PhaseVerify "verifying artifact checksum") in
      rs_lift (map_err (verify_artifact d m path) (fun e => RInvalid (manifest_error_text e)))
  | None =>
      rs_tell (RWarn PhaseVerify "no manifest alongside this artifact; skipping the checksum check")
  end.

Definition manifest_of (d : Disk) (path : string) : option BackupManifest :=
  match read d path with Ok m => Some m | Err _ => None end.
End Before.

(** ** Lemmas *)

Lemma rs_bind_Ok {A B} (m : RS A) (k : A -> RS B) s b s' :
  rs_bind m k s = (Ok b, s') -> exists a s1, m s = (Ok a, s1) /\ k a s1 = (Ok b, s').
Proof. unfold rs_bind. destruct (m s) as [[a|e] s1]; [eauto|done]. Qed.

Lemma cut_lines_concat whole_piece l : forall cur,
  (whole_piece = true -> concat (cut_lines whole_piece cur l) = rev cur ++ l)
  /\ exists rest, rev cur ++ l = concat (cut_lines whole_piece cur l) ++ rest.
Proof.
  induction l as [|c l IH]; intros cur; simpl.
  - destruct cur as [|a cur]; [split; [done|by exists []]|].
    destruct whole_piece; simpl; (split; [done|]); [exists []; by rewrite !app_nil_r|by eexists].
  - destruct (Ascii.eqb c newline); simpl.
    + destruct (IH []) as [IH1 (rest & IH2)]. simpl in *. split.
      * intros Hw. rewrite IH1 by done. by rewrite <- !app_assoc.
      * exists rest. rewrite <- !app_assoc. simpl. by rewrite <- IH2.
    + destruct (IH (c :: cur)) as [IH1 (rest & IH2)]. simpl in *. split.
      * intros Hw. rewrite IH1 by done. by rewrite <- app_assoc.
      * exists rest. rewrite <- IH2, <- app_assoc. done.
Qed.

Lemma line_pieces_concat b : concat (line_pieces (whole b)) = b.
Proof. by apply cut_lines_concat. Qed.

Lemma write_in_Ok pipe wrap b s s' : write_in pipe wrap b s = (Ok tt, s') -> s' = give s b.
Proof. unfold write_in. destruct (accepts _ _ _) as [[??]|]; by intros [= <-]. Qed.

Lemma write_in_started pipe wrap b s r s' : write_in pipe wrap b s = (r, s') -> started s' = started s.
Proof. unfold write_in. destruct (accepts _ _ _) as [[??]|]; by intros [= _ <-]. Qed.

(** A loop that comes to its end has written every piece, of a stream that does
    not break. *)
Lemma feed_pieces_Ok p pipe early report broken pieces : forall i last s s',
  feed_pieces p pipe early report broken i last pieces s = (Ok tt, s') ->
  broken = None /\ fed s' = fed s ++ concat pieces /\ started s' = started s.
Proof.
  induction pieces as [|b pieces IH]; intros i last s s'; simpl; destruct (cancelled p i); try done.
  - destruct broken; [done|]. intros [= <-]. by rewrite app_nil_r.
  - destruct (write_in _ _ b s) as [[[]|e] s1] eqn:E; [|done]. apply write_in_Ok in E as ->.
    destruct (report i last) as [last' messages]. intros (Hb & Hf & Hs)%IH. simpl in *.
    by rewrite Hf, app_assoc.
Qed.

Lemma feed_pieces_started p pipe early report broken pieces : forall i last s r s',
  feed_pieces p pipe early report broken i last pieces s = (r, s') -> started s' = started s.
Proof.
  induction pieces as [|b pieces IH]; intros i last s r s'; simpl; destruct (cancelled p i);
    try (by intros [= _ <-]).
  - destruct broken; by intros [= _ <-].
  - destruct (write_in _ _ b s) as [[[]|e] s1] eqn:E; apply write_in_started in E; [|by intros [= _ <-]].
    destruct (report i last) as [last' messages]. intros Hs%IH. simpl in *. congruence.
Qed.

Lemma run_to_completion_started p cmd s r s' :
  run_to_completion p cmd s = (r, s') -> s' = start s cmd.
Proof.
  unfold run_to_completion. destruct (spawn_streaming _ _ _); [destruct (wait_restore _ _)|]; by intros [= _ <-].
Qed.

(** How a client ended well: its exit was a success and nobody had cancelled. *)
Definition ended_well (c : Child) : Prop :=
  token_set c = false /\ exists st, exit c = Ok st /\ exit_success st = true.

Lemma wait_restore_Ok cmd c lines : wait_restore cmd c = Ok lines -> ended_well c.
Proof.
  unfold wait_restore, wait_checked, ended_well. intros Hw%map_err_Ok.
  destruct (exit c) as [st|]; [|done]. destruct (token_set c); [done|]. destruct (exit_success st) eqn:E; [eauto|done].
Qed.

Lemma run_feeding_Ok p cmd pump s lines s' :
  run_feeding p cmd pump s = (Ok lines, s') ->
  exists pipe, spawn_writing p (length (started s)) cmd = Ok pipe
    /\ pump pipe (start s cmd) = (Ok tt, s') /\ ended_well (ends pipe (fed s')).
Proof.
  unfold run_feeding. destruct (spawn_writing _ _ _) as [pipe|]; [|done].
  destruct (pump pipe _) as [[[]|e] s1] eqn:E; [|done]. intros [= Hw <-]. apply wait_restore_Ok in Hw. eauto.
Qed.

(** What must hold of the key before a client is started. *)
Lemma identity_for_Ok d path manifest key gap i :
  identity_for d path manifest key gap = Ok i ->
  (looks_encrypted d path = true /\ i = key /\ is_some key = true)
  \/ (looks_encrypted d path = false /\ i = None /\ forall m, manifest = Some m -> encrypted m = false).
Proof.
  unfold identity_for. destruct (looks_encrypted d path).
  - destruct key; [intros [= <-]; by left|done].
  - right. destruct manifest as [m|]; [destruct (encrypted m) eqn:E|]; try done; injection H as <-.
    + split_and!; try done. by intros ? [= <-].
    + done.
Qed.

(** The key a restore takes is the one the artifact was sealed for. *)
Lemma identity_of_sealed `{HL : Libraries} `{@Lawful HL} d path f recipients calls manifest key gap i :
  nodes d !! path = Some (NFile f) -> read_error f = None ->
  sealed recipients calls (byte_string (content f)) ->
  reads_for recipients (match recipients with [] => None | _ => key end) ->
  identity_for d path manifest key gap = Ok i -> i = match recipients with [] => None | _ => key end.
Proof.
  intros Hn Hre Hseal Hreads Ei. pose proof (sealed_magic _ _ _ Hseal) as Hmagic.
  rewrite string_of_list_ascii_of_string in Hmagic.
  assert (looks_encrypted d path = starts_with MAGIC (content f)) as Hl
    by (unfold looks_encrypted, read_text; by rewrite Hn, Hre).
  apply identity_for_Ok in Ei as [(Hle & -> & _)|(Hle & -> & _)]; rewrite Hl, Hmagic in Hle;
    by destruct recipients, key.
Qed.

Lemma checksum_stage_inv `{Codec} d manifest path s r s' :
  checksum_stage d manifest path s = (r, s') ->
  started s' = started s /\ fed s' = fed s
  /\ (r = Ok tt -> forall m, manifest = Some m -> verify_artifact d m path = Ok tt).
Proof.
  unfold checksum_stage. destruct manifest as [m|].
  - unfold rs_bind, rs_tell, rs_lift. intros [= <- <-]. split_and!; try done.
    intros Hv%map_err_Ok m' [= <-]. done.
  - intros [= <- <-]. split_and!; done.
Qed.

(** ** What a computation that succeeds has run *)

(** The [i]-th process was this command, and it ended well. *)
Definition ended_at (p : Processes) (i : nat) (cmd : ToolCommand) : Prop :=
  (exists c, spawn_streaming p i cmd = Ok c /\ ended_well c)
  \/ (exists pipe input, spawn_writing p i cmd = Ok pipe /\ ended_well (ends pipe input)).

Definition all_ended (p : Processes) (i : nat) (l : list ToolCommand) : Prop :=
  forall j cmd, l !! j = Some cmd -> ended_at p (i + j) cmd.

(** When [m] succeeds, the commands it started all ended well, and [Q] holds of them
    and the value. *)
Definition runs {A} (p : Processes) (m : RS A) (Q : list ToolCommand -> A -> Prop) : Prop :=
  forall s a s', m s = (Ok a, s') ->
  exists l, started s' = started s ++ l /\ all_ended p (length (started s)) l /\ Q l a.

Lemma all_ended_nil p i : all_ended p i [].
Proof. intros j cmd Hl. by rewrite lookup_nil in Hl. Qed.

Lemma all_ended_one p i cmd : ended_at p i cmd -> all_ended p i [cmd].
Proof. intros He [|j] c Hl; simplify_eq/=. by rewrite Nat.add_0_r. Qed.

Lemma all_ended_app p i l l' : all_ended p i l -> all_ended p (i + length l) l' -> all_ended p i (l ++ l').
Proof.
  intros H1 H2 j cmd [Hl|[Hlen Hl]]%lookup_app_Some; [by apply H1|].
  replace (i + j)%nat with (i + length l + (j - length l))%nat by lia. by apply H2.
Qed.

Lemma runs_bind {A B} p (m : RS A) (k : A -> RS B) Q R :
  runs p m Q -> (forall a, runs p (k a) (R a)) ->
  runs p (rs_bind m k) (fun l b => exists a l1 l2, l = l1 ++ l2 /\ Q l1 a /\ R a l2 b).
Proof.
  intros Hm Hk s b s' (a & s1 & E1 & E2)%rs_bind_Ok.
  destruct (Hm _ _ _ E1) as (l1 & Hs1 & He1 & HQ). destruct (Hk _ _ _ _ E2) as (l2 & Hs2 & He2 & HR).
  exists (l1 ++ l2). rewrite Hs2, Hs1, app_assoc. split_and!; [done| |eauto 10].
  apply all_ended_app; [done|]. by rewrite Hs1, length_app in He2.
Qed.

Lemma runs_quiet {A} p (m : RS A) (Q : A -> Prop) :
  (forall s a s', m s = (Ok a, s') -> started s' = started s /\ Q a) -> runs p m (fun l a => l = [] /\ Q a).
Proof. intros Hm s a s' [E HQ]%Hm. exists []. rewrite app_nil_r. split_and!; auto using all_ended_nil. Qed.

Lemma runs_lift {A} p (r : result A RestoreError) : runs p (rs_lift r) (fun l a => l = [] /\ r = Ok a).
Proof. apply runs_quiet. by intros s a s' [= E <-]. Qed.

Lemma runs_ret {A} p (a : A) : runs p (rs_ret a) (fun l b => l = [] /\ b = a).
Proof. apply runs_quiet. by intros s b s' [= <- <-]. Qed.

Lemma runs_tell p e : runs p (rs_tell e) (fun l _ => l = [] /\ True).
Proof. apply runs_quiet. by intros s b s' [= <- <-]. Qed.

Lemma runs_mono {A} p (m : RS A) (Q R : list ToolCommand -> A -> Prop) :
  (forall l a, Q l a -> R l a) -> runs p m Q -> runs p m R.
Proof. intros HQR Hm s a s' E. destruct (Hm _ _ _ E) as (l & ? & ? & ?). exists l. auto. Qed.

Lemma runs_to_completion p cmd : runs p (run_to_completion p cmd) (fun l _ => l = [cmd]).
Proof.
  intros s a s' E. pose proof (run_to_completion_started _ _ _ _ _ E) as ->. exists [cmd]. split_and!; try done.
  apply all_ended_one. unfold run_to_completion in E. destruct (spawn_streaming _ _ _) as [c|] eqn:Es; [|done].
  destruct (wait_restore cmd c) eqn:Ew; [|done]. apply wait_restore_Ok in Ew. left. eauto.
Qed.

Lemma runs_feeding p cmd pump :
  (forall pipe s r s', pump pipe s = (r, s') -> started s' = started s) ->
  runs p (run_feeding p cmd pump) (fun l _ => l = [cmd]).
Proof.
  intros Hq s a s' (pipe & Es & Hp & He)%run_feeding_Ok. apply Hq in Hp. exists [cmd]. split_and!; [exact Hp| |done].
  apply all_ended_one. right. eauto.
Qed.

Lemma runs_checksum `{Codec} p d manifest path : runs p (checksum_stage d manifest path) (fun l _ => l = [] /\ True).
Proof. apply runs_quiet. intros s [] s' (E & _ & _)%checksum_stage_inv. done. Qed.

(** Without regard to which commands they are. *)
Definition tidy {A} (p : Processes) (m : RS A) : Prop := runs p m (fun _ _ => True).

Lemma tidy_runs {A} p (m : RS A) Q : runs p m Q -> tidy p m.
Proof. by apply runs_mono. Qed.

Lemma tidy_bind {A B} p (m : RS A) (k : A -> RS B) : tidy p m -> (forall a, tidy p (k a)) -> tidy p (rs_bind m k).
Proof. intros Hm Hk. eapply tidy_runs, runs_bind; [exact Hm|exact Hk]. Qed.

Lemma tidy_lift {A} p (r : result A RestoreError) : tidy p (rs_lift r).
Proof. eapply tidy_runs, runs_lift. Qed.
Lemma tidy_ret {A} p (a : A) : tidy p (rs_ret a).
Proof. eapply tidy_runs, runs_ret. Qed.
Lemma tidy_tell p e : tidy p (rs_tell e).
Proof. eapply tidy_runs, runs_tell. Qed.
Lemma tidy_completion p cmd : tidy p (run_to_completion p cmd).
Proof. eapply tidy_runs, runs_to_completion. Qed.
Lemma tidy_feeding p cmd pump :
  (forall pipe s r s', pump pipe s = (r, s') -> started s' = started s) -> tidy p (run_feeding p cmd pump).
Proof. intros Hq. eapply tidy_runs, runs_feeding, Hq. Qed.
Lemma tidy_checksum `{Codec} p d manifest path : tidy p (checksum_stage d manifest path).
Proof. eapply tidy_runs, runs_checksum. Qed.

#[export] Hint Resolve tidy_lift tidy_ret tidy_tell tidy_completion tidy_checksum : dbsync.

(** Take a computation apart, with its tests and its patterns. *)
Ltac tidy :=
  repeat first
    [ apply tidy_bind; [|intros]
    | solve [eauto with dbsync]
    | match goal with
      | |- tidy _ (if ?b then _ else _) => destruct b
      | |- tidy _ (match ?x with _ => _ end) => destruct x
      end ].
