(* ===== verification/RestoreMysql.v ===== *)
(** * RestoreMysql: writing a dump into a MySQL server (engine/src/restore/mysql.rs) *)

From Stdlib Require Import ZArith Lia Ascii String List Bool.
From stdpp Require Import base list gmap strings.
From S2P Require Import Prelude Text Time Domain Sql Exec Tools Disk Retention Backup Restore Definer BackupMysql Library Crypto.
From S2P Require Import Job Checking Feed.
Import ListNotations.

Open Scope string_scope.
Open Scope list_scope.
Open Scope Z_scope.

Record MysqlRestoreWorker := mk_mysql_restore {
  mysql : ResolvedTool;
  my_endpoint : Endpoint;
  my_target : string;
  my_artifact : string;
  my_identity : option string;       (* present when the artifact is encrypted *)
  my_size : Z;
  my_options : MysqlRestoreOptions;
  my_drop_first : bool;
  my_create : bool }.

(** ** Commands *)

Section Commands.
Context `{Host}.
Variable w : MysqlRestoreWorker.

Definition my_base_command : ToolCommand :=
  let e := my_endpoint w in
  with_password
    (add_args (command (mysql w))
       [("--host=" ++ host e)%string; ("--port=" ++ show (port e))%string; ("--user=" ++ user e)%string;
        "--protocol=TCP"; ("--default-character-set=" ++ charset (my_options w))%string]) e.

Definition my_create_sql (quoted : string) : string :=
  ((if my_drop_first w then "DROP DATABASE IF EXISTS " ++ quoted ++ ";" else "")
   ++ "CREATE DATABASE " ++ quoted ++ " CHARACTER SET " ++ charset (my_options w)
   ++ " COLLATE " ++ collation (my_options w) ++ ";")%string.

Definition my_create_command (quoted : string) : ToolCommand :=
  add_arg (add_arg my_base_command "--execute") (my_create_sql quoted).

Definition my_stream_command : ToolCommand := add_arg my_base_command (my_target w).

(** ** Session settings around the dump *)

Definition text_flag (test : bool) (line : string) : string := if test then (line ++ String newline "")%string else "".

Definition preamble : string :=
  let o := my_options w in
  (text_flag (foreign_key_checks_off o) "SET FOREIGN_KEY_CHECKS=0;"
   ++ text_flag (unique_checks_off o) "SET UNIQUE_CHECKS=0;"
   ++ text_flag (autocommit_off o) "SET AUTOCOMMIT=0;"
   ++ text_flag (disable_binlog o) "SET SQL_LOG_BIN=0;")%string.

Definition postamble : string :=
  let o := my_options w in
  (text_flag (autocommit_off o) "COMMIT;"
   ++ text_flag (unique_checks_off o) "SET UNIQUE_CHECKS=1;"
   ++ text_flag (foreign_key_checks_off o) "SET FOREIGN_KEY_CHECKS=1;"
   ++ text_flag (autocommit_off o) "SET AUTOCOMMIT=1;")%string.

(** ** The worker *)

Context `{Libraries}.
Variable p : Processes.
Variable d : Disk.
Variable count : nat -> Z.           (* bytes read from the disk, after each line *)

Definition create_target : RS unit :=
  let% quoted := rs_lift (map_err (quote_mysql_ident (my_target w)) (fun e => RInvalid (db_error_text e))) in
  run_to_completion p (my_create_command quoted).

(** The dump with its settings around it, written to the client. *)
Definition pump (pipe : Pipe) : RS unit :=
  let% _ := write_in pipe (String.append "could not write to mysql: ") (byte_string preamble) in
  let% file := rs_lift (map_err (open_stream d (my_artifact w))
                          (fun e => RInvalid ("could not open the artifact: " ++ e)%string)) in
  let% decoded := rs_lift (map_err (artifact_reader file (my_identity w)) (fun e => RInvalid (crypto_error_text e))) in
  let% _ := feed_pieces p pipe "mysql closed its input early: " (report_bytes count (my_size w)) (broken decoded)
              0 0 (line_pieces decoded) in
  let% _ := write_in pipe (String.append "could not finish the restore: ") (byte_string postamble) in
  rs_tell (RBytes (my_size w) (my_size w)).

Definition stream_dump : RS unit :=
  let% _ := run_feeding p my_stream_command pump in
  rs_ret tt.

Definition my_restore_run : RS unit :=
  let% _ := (if my_create w then
               let% _ := rs_tell (RPhase PhaseRestore ("creating database " ++ my_target w)%string) in
               create_target
             else rs_ret tt) in
  let% _ := rs_tell (RPhase PhaseRestore "streaming the dump") in
  stream_dump.
End Commands.

(** ** The whole restore *)

Section Restore.
Context `{Host} `{Libraries} `{Codec} `{Calendar}.
Variable p : Processes.
Variable d : Disk.
Variable count : nat -> Z.
Variable metadata_len : string -> option Z.
Variable key : option string.        (* the backup key of this machine's keychain *)

Definition MYSQL_GAP : string := "                  ".

Definition into_existing (n : TargetNaming) : bool := match n with IntoExisting _ => true | _ => false end.

Definition mysql_worker (run : RestoreRun) (tool : ResolvedTool) (identity : option string) (o : MysqlRestoreOptions)
    : MysqlRestoreWorker :=
  let r := rr_request run in
  let e := rr_endpoint run in
  mk_mysql_restore tool (mk_endpoint (rewrite_host (rr_tools run) (host e)) (port e) (user e) (password e))
    (rr_target run) (artifact_path r) identity (default 0 (metadata_len (artifact_path r))) o
    (is_destructive (naming r)) (negb (into_existing (naming r))).

(** Everything decided before the checksum: the tool, the key and the options. *)
Definition mysql_prepare (run : RestoreRun) (now : Z) : result (ResolvedTool * option string * MysqlRestoreOptions) RestoreError :=
  let r := rr_request run in
  let manifest := manifest_of d (artifact_path r) in
  let? _ := restore_validate r (rr_profile run) manifest now in
  let? identity := identity_for d (artifact_path r) manifest key MYSQL_GAP in
  match r_engine r with
  | RPostgres _ | RMongo _ => Err (REngineMismatch (profile_engine (rr_profile run)) (restore_engine (r_engine r)))
  | RMysql o =>
      let? tool := ok_or (Tools.resolve MysqlClient (rr_tools run) (t_mysql (tool_overrides (rr_profile run))))
                     (RInvalid "could not find the mysql client; install it or set an override") in
      Ok (tool, identity, o)
  end.

Definition run_mysql_restore (run : RestoreRun) (now : Z) : RS string :=
  let r := rr_request run in
  let target := rr_target run in
  let% (tool, identity, o) := rs_lift (mysql_prepare run now) in
  let% _ := (if verify_checksum r then checksum_stage d (manifest_of d (artifact_path r)) (artifact_path r) else rs_ret tt) in
  let% _ := rs_tell (RPhase PhaseRestore ("restoring " ++ artifact_path r ++ " into " ++ target)%string) in
  let% _ := my_restore_run (mysql_worker run tool identity o) p d count in
  let% _ := rs_tell (RPhase Done ("restored into " ++ target)%string) in
  rs_ret target.
End Restore.

(** Nothing started yet. *)
Definition idle : RestoreState := mk_rstate [] [] [].

(** ** Lemmas *)

Section Facts.
Context `{Host} `{Libraries} `{Codec} `{Calendar}.
Variable p : Processes.
Variable d : Disk.
Variable count : nat -> Z.
Variable metadata_len : string -> option Z.
Variable key : option string.

Definition my_commands (w : MysqlRestoreWorker) (quoted : string) : list ToolCommand :=
  (if my_create w then [my_create_command w quoted] else []) ++ [my_stream_command w].

Lemma pump_started w pipe s r s' : pump w p d count pipe s = (r, s') -> started s' = started s.
Proof.
  unfold pump, rs_bind, rs_lift, rs_tell. destruct (write_in _ _ _ s) as [[[]|e] s1] eqn:E1; apply write_in_started in E1;
    [|by intros [= _ <-]].
  destruct (map_err (open_stream _ _) _) as [file|]; [|by intros [= _ <-]].
  destruct (map_err (artifact_reader _ _) _) as [decoded|]; [|by intros [= _ <-]].
  destruct (feed_pieces _ _ _ _ _ _ _ _ s1) as [[[]|e] s2] eqn:E2; apply feed_pieces_started in E2;
    [|intros [= _ <-]; congruence].
  destruct (write_in _ _ _ s2) as [[[]|e] s3] eqn:E3; apply write_in_started in E3; intros [= _ <-]; simpl; congruence.
Qed.

(** A pump that comes to its end has written the preamble, everything the artifact
    holds, and the postamble. *)
Lemma pump_Ok w pipe s s' :
  pump w p d count pipe s = (Ok tt, s') ->
  exists stream data, open_stream d (my_artifact w) = Ok stream
    /\ artifact_reader stream (my_identity w) = Ok (whole data)
    /\ fed s' = fed s ++ byte_string (preamble w) ++ data ++ byte_string (postamble w).
Proof.
  unfold pump. intros ([] & s1 & E1%write_in_Ok & Hp)%rs_bind_Ok.
  apply rs_bind_Ok in Hp as (stream & s2 & [= Eo <-] & Hp). apply map_err_Ok in Eo.
  apply rs_bind_Ok in Hp as (decoded & s3 & [= Ed <-] & Hp). apply map_err_Ok in Ed.
  apply rs_bind_Ok in Hp as ([] & s4 & (Hb & Hf & _)%feed_pieces_Ok & Hp).
  apply rs_bind_Ok in Hp as ([] & s5 & E5%write_in_Ok & [= <-]). subst s1 s5. simpl in *.
  destruct decoded as [data b]. simpl in Hb. subst b. exists stream, data. split_and!; [done..|].
  change (mk_stream data None) with (whole data) in Hf. by rewrite Hf, line_pieces_concat, !app_assoc.
Qed.

Lemma stream_dump_started w s r s' :
  stream_dump w p d count s = (r, s') -> started s' = started s ++ [my_stream_command w].
Proof.
  unfold stream_dump, rs_bind, run_feeding. destruct (spawn_writing _ _ _) as [pipe|]; [|by intros [= _ <-]].
  destruct (pump w p d count pipe _) as [[[]|e] s1] eqn:E; apply pump_started in E;
    [|intros [= _ <-]; exact E].
  destruct (wait_restore _ _); intros [= _ <-]; exact E.
Qed.

Lemma create_target_started w s r s' :
  create_target w p s = (r, s') ->
  (started s' = started s /\ r <> Ok tt)
  \/ exists quoted, quote_mysql_ident (my_target w) = Ok quoted
       /\ started s' = started s ++ [my_create_command w quoted].
Proof.
  unfold create_target, rs_bind, rs_lift. destruct (quote_mysql_ident (my_target w)) as [q|e]; simpl.
  - intros ->%run_to_completion_started. right. by exists q.
  - intros [= <- <-]. by left.
Qed.

(** A worker starts its commands in order, and all of them when it succeeds. *)
Definition ran_in_order (w : MysqlRestoreWorker) (r : result unit RestoreError) (done : list ToolCommand) : Prop :=
  exists quoted rest, my_commands w quoted = done ++ rest
    /\ (my_create w = true -> done <> [] -> quote_mysql_ident (my_target w) = Ok quoted)
    /\ (r = Ok tt -> rest = []).

Lemma my_restore_run_started w s r s' :
  my_restore_run w p d count s = (r, s') ->
  exists done, started s' = started s ++ done /\ ran_in_order w r done.
Proof.
  unfold my_restore_run, ran_in_order, my_commands. destruct (my_create w) eqn:Ec; intros E.
  - unfold rs_bind, rs_tell in E.
    destruct (create_target w p _) as [[[]|e] s1] eqn:E1;
      destruct (create_target_started _ _ _ _ E1) as [[Hs Hr]|(q & Eq & Hs)]; simpl in Hs; try done.
    + apply stream_dump_started in E. exists [my_create_command w q; my_stream_command w].
      split; [rewrite E; simpl; by rewrite Hs, <- app_assoc|]. by exists q, [].
    + injection E as <- <-. exists []. rewrite app_nil_r. split; [done|]. exists "". eexists. by split_and!.
    + injection E as <- <-. exists [my_create_command w q]. split; [done|]. exists q, [my_stream_command w]. by split_and!.
  - unfold rs_bind, rs_tell, rs_ret in E. apply stream_dump_started in E.
    exists [my_stream_command w]. split; [exact E|]. exists "", []. by split_and!.
Qed.

Lemma my_restore_run_Ok w s s' :
  my_restore_run w p d count s = (Ok tt, s') ->
  exists stream data, open_stream d (my_artifact w) = Ok stream
    /\ artifact_reader stream (my_identity w) = Ok (whole data)
    /\ fed s' = byte_string (preamble w) ++ data ++ byte_string (postamble w).
Proof.
  unfold my_restore_run. intros ([] & s1 & _ & E)%rs_bind_Ok.
  apply rs_bind_Ok in E as ([] & s2 & [= <-] & E). unfold stream_dump in E.
  apply rs_bind_Ok in E as (l & s3 & (pipe & _ & Hp & _)%run_feeding_Ok & [= <-]). by apply pump_Ok in Hp.
Qed.

Lemma my_restore_run_ended w s s' :
  my_restore_run w p d count s = (Ok tt, s') -> started s = [] -> all_ended p 0 (started s').
Proof.
  assert (tidy p (my_restore_run w p d count)) as Hr.
  { unfold my_restore_run, create_target, stream_dump. tidy. apply tidy_feeding, pump_started. }
  intros (l & -> & He & _)%Hr Hs. rewrite Hs in He |- *. exact He.
Qed.

Lemma mysql_prepare_Ok run now tool identity o :
  mysql_prepare d key run now = Ok (tool, identity, o) ->
  restorable (rr_request run) (rr_profile run) (manifest_of d (artifact_path (rr_request run)))
  /\ identity_for d (artifact_path (rr_request run)) (manifest_of d (artifact_path (rr_request run))) key MYSQL_GAP = Ok identity
  /\ r_engine (rr_request run) = RMysql o.
Proof.
  unfold mysql_prepare. intros ([] & Hv%restore_validate_ok & E)%rbind_Ok. apply rbind_Ok in E as (i & Ei & E).
  destruct (r_engine _) as [o'|o'|o']; try done. apply rbind_Ok in E as (t & _ & [= <- <- <-]). done.
Qed.

(** What a run has done when it comes to its worker. *)
Lemma run_reaches_worker run now r s :
  run_mysql_restore p d count metadata_len key run now idle = (r, s) ->
  started s <> [] \/ is_ok r = true ->
  exists tool identity o s0 r0 s1, mysql_prepare d key run now = Ok (tool, identity, o)
    /\ (verify_checksum (rr_request run) = true -> forall m,
          manifest_of d (artifact_path (rr_request run)) = Some m ->
          verify_artifact d m (artifact_path (rr_request run)) = Ok tt)
    /\ started s0 = []
    /\ my_restore_run (mysql_worker metadata_len run tool identity o) p d count s0 = (r0, s1)
    /\ started s = started s1 /\ fed s = fed s1
    /\ (forall db, r = Ok db -> r0 = Ok tt /\ db = rr_target run).
Proof.
  unfold run_mysql_restore. unfold rs_bind at 1, rs_lift at 1.
  destruct (mysql_prepare d key run now) as [[[tool identity] o]|e]; [|intros [= <- <-]; by intros [?|?]].
  unfold rs_bind at 1.
  set (r' := rr_request run). set (check := if verify_checksum r' then _ else _).
  destruct (check idle) as [[[]|e] s0] eqn:Ec.
  - assert (started s0 = [] /\ (verify_checksum r' = true -> forall m,
      manifest_of d (artifact_path r') = Some m -> verify_artifact d m (artifact_path r') = Ok tt)) as [Hs Hv].
    { unfold check in Ec. destruct (verify_checksum r'); [|by injection Ec as <-].
      apply checksum_stage_inv in Ec as (Hs & _ & Hv). by split; [|intros _; apply Hv]. }
    unfold rs_bind, rs_tell. destruct (my_restore_run _ _ _ _ _) as [[[]|e] s1] eqn:Ew; intros [= <- <-] _;
      eexists tool, identity, o, _, _, s1; (split_and!; [done|exact Hv| |exact Ew|done|done|]); try exact Hs.
    + intros db [= <-]. done.
    + done.
  - assert (started s0 = []) as Hs.
    { unfold check in Ec. destruct (verify_checksum r'); [|done]. by apply checksum_stage_inv in Ec as (Hs & _). }
    intros [= <- <-]. rewrite Hs. by intros [?|?].
Qed.
End Facts.

(** ** What the settings around the dump do to a session *)

Definition Session := gmap string string.

(** A line [SET name=value;] of a session; any other line changes no setting. *)
Definition set_line (s : Session) (line : string) : Session :=
  match strip_prefix "SET " line with
  | Some rest =>
      match split_once "=" rest with
      | Some (name, value) =>
          match split_once ";" value with Some (v, _) => <[name := v]> s | None => s end
      | None => s
      end
  | None => s
  end.

Definition after_lines (text : string) (s : Session) : Session := fold_left set_line (lines text) s.

(** What the options ask to switch off. *)
Definition switched_off (o : MysqlRestoreOptions) (name : string) : bool :=
  (String.eqb name "FOREIGN_KEY_CHECKS" && foreign_key_checks_off o)
  || (String.eqb name "UNIQUE_CHECKS" && unique_checks_off o)
  || (String.eqb name "AUTOCOMMIT" && autocommit_off o)
  || (String.eqb name "SQL_LOG_BIN" && disable_binlog o).

(** [before] switches off what was asked and nothing else; [after] commits first where
    commits are not automatic, and switches all of that on again but the binary log. *)
Record around (o : MysqlRestoreOptions) (before after : string) : Prop := {
  ar_before : forall s name, after_lines before s !! name = if switched_off o name then Some "0" else s !! name;
  ar_after : forall s name, after_lines after s !! name =
    if switched_off o name && negb (String.eqb name "SQL_LOG_BIN") then Some "1" else s !! name;
  ar_commit : autocommit_off o = true -> head (lines after) = Some "COMMIT;" }.

Lemma insert_eqb (s : Session) n v name :
  <[n := v]> s !! name = if String.eqb name n then Some v else s !! name.
Proof. destruct (String.eqb_spec name n) as [->|Hn]; [apply lookup_insert_eq|apply lookup_insert_ne; congruence]. Qed.

Ltac session name :=
  match goal with |- context [after_lines ?t ?u] =>
    let l := eval vm_compute in (lines t) in change (after_lines t u) with (fold_left set_line l u)
  end;
  cbn -[String.eqb insert lookup]; rewrite ?insert_eqb;
  repeat match goal with |- context [String.eqb name ?n] => destruct (String.eqb_spec name n) as [->|?]; [done|] end;
  done.

Lemma settings_around w : around (my_options w) (preamble w) (postamble w).
Proof.
  unfold preamble, postamble. constructor; unfold switched_off;
    destruct (foreign_key_checks_off (my_options w)), (unique_checks_off (my_options w)),
      (autocommit_off (my_options w)), (disable_binlog (my_options w)); try done;
    intros u name; session name.
Qed.

(** ** Properties *)

(** C15: a restore gives the server the dump.  A restore that succeeds has ended every
    client it planned well, in order - the database, then the stream - and the
    stream was lines that switch off the settings its options name, everything the
    artifact reads as, and lines that commit and switch those settings on again, all
    but the binary log, which stays off.  If the artifact is what a backup sealed for
    recipients this machine's key belongs to, that is the dump, byte for byte. *)
Theorem mysql_restore_gives_back_the_dump `{Host} `{HL : Libraries} `{@Lawful HL} `{Codec} `{Calendar}
    p d count metadata_len key run now db s :
  run_mysql_restore p d count metadata_len key run now idle = (Ok db, s) ->
  db = rr_target run
  /\ exists tool identity o quoted stream data before after,
       let w := mysql_worker metadata_len run tool identity o in
       mysql_prepare d key run now = Ok (tool, identity, o)
       /\ started s = my_commands w quoted /\ all_ended p 0 (started s)
       /\ (my_create w = true -> quote_mysql_ident db = Ok quoted)
       /\ open_stream d (artifact_path (rr_request run)) = Ok stream
       /\ artifact_reader stream identity = Ok (whole data)
       /\ fed s = byte_string before ++ data ++ byte_string after /\ around o before after
       /\ forall f recipients calls,
            nodes d !! artifact_path (rr_request run) = Some (NFile f) -> read_error f = None ->
            sealed recipients calls (byte_string (content f)) ->
            reads_for recipients (match recipients with [] => None | _ => key end) ->
            data = written calls.
Proof.
  intros E. destruct (run_reaches_worker _ _ _ _ _ _ _ _ _ E (or_intror eq_refl))
    as (tool & identity & o & s0 & r0 & s1 & Ep & _ & Hs0 & Ew & Hs & Hf & Hdb).
  destruct (Hdb db eq_refl) as [-> ->]. split; [done|]. exists tool, identity, o.
  destruct (my_restore_run_started _ _ _ _ _ _ _ Ew) as (done & Hd & q & rest & Hc & Hq & Hr).
  rewrite Hr, app_nil_r in Hc by done. rewrite Hs0 in Hd. simpl in Hd.
  destruct (my_restore_run_Ok _ _ _ _ _ _ Ew) as (stream & data & Eo & Er & Hfed).
  exists q, stream, data. do 2 eexists.
  split_and!; [done|congruence|rewrite Hs; by eapply my_restore_run_ended| |done|done|rewrite Hf; exact Hfed|exact (settings_around (mysql_worker metadata_len run tool identity o))|].
  - intros Hcr. apply Hq; [done|]. rewrite <- Hc. unfold my_commands. rewrite Hcr. done.
  - intros f recipients calls Hn Hre Hseal Hreads.
    cbn [my_artifact mysql_worker my_identity] in *. unfold open_stream in Eo. rewrite Hn, Hre in Eo. injection Eo as <-.
    apply mysql_prepare_Ok in Ep as (_ & Ei & _).
    rewrite (identity_of_sealed _ _ _ _ _ _ _ _ _ Hn Hre Hseal Hreads Ei) in Er.
    pose proof (sealed_reads_back _ _ _ _ Hseal Hreads) as Hread.
    rewrite Hread in Er. by injection Er.
Qed.

(** No client is started before everything that can be checked was.  Whatever a
    run ends in, once it has started a client the request was one the validation
    accepts - the name of a database it drops was typed - the key for an encrypted
    artifact is at hand, no plain file stands for one its manifest calls encrypted,
    and a checksum that was to be verified agreed; and the clients it started are
    the first of those it planned. *)
Theorem mysql_restore_checks_first `{Host} `{Libraries} `{Codec} `{Calendar} p d count metadata_len key run now r s :
  run_mysql_restore p d count metadata_len key run now idle = (r, s) -> started s <> [] ->
  let q := rr_request run in
  let manifest := manifest_of d (artifact_path q) in
  restorable q (rr_profile run) manifest
  /\ (if looks_encrypted d (artifact_path q) then is_some key = true
      else forall m, manifest = Some m -> encrypted m = false)
  /\ (verify_checksum q = true -> forall m, manifest = Some m -> verify_artifact d m (artifact_path q) = Ok tt)
  /\ exists tool identity o r0, ran_in_order (mysql_worker metadata_len run tool identity o) r0 (started s).
Proof.
  intros E Hne. cbv zeta. destruct (run_reaches_worker _ _ _ _ _ _ _ _ _ E (or_introl Hne))
    as (tool & identity & o & s0 & r0 & s1 & Ep & Hv & Hs0 & Ew & Hs & _ & _).
  apply mysql_prepare_Ok in Ep as (Hres & Ei & _). split_and!; [done| |done|].
  - apply identity_for_Ok in Ei as [(-> & _ & Hk)|(-> & _ & Hm)]; done.
  - destruct (my_restore_run_started _ _ _ _ _ _ _ Ew) as (done & Hd & Ho).
    exists tool, identity, o, r0. rewrite Hs, Hd, Hs0. exact Ho.
Qed.

(** ** Runs *)

(** A folder with one artifact and its manifest, and a server that takes everything. *)
Module Sample.
Definition describe (encrypted : bool) (text : string) : BackupManifest :=
  mk_manifest 1 7%N 1%N "prod" Mysql "8.0.42" "mysqldump" "8.0.42" "shop" 0 SqlGz ["orders"] ["orders"] ∅ "{}"
    "shop.sql.gz" 0 text encrypted (if encrypted then ["age1b"] else []).

(** The manifest of a file says whether it is encrypted, and its checksum is its text. *)
Definition codec (encrypted : bool) : Codec :=
  {| to_json _ := ""; from_json text := Ok (describe encrypted text); sha256_of text := text |}.

Definition folder (text : string) : Disk :=
  mk_disk (list_to_map [("/b/shop.sql.gz", NFile (mk_file text (Some 0) None true));
                        ("/b/shop.sql.gz.manifest.json", NFile (mk_file text (Some 0) None true))]) ∅.

Definition ended : Child := mk_child [] None (Ok (mk_exit true "exit status: 0")) (Some []) false.

Definition clients : Processes :=
  mk_processes (fun _ _ => Ok ended) (fun _ _ => Ok (mk_pipe (fun _ _ => None) (fun _ => ended))) (fun _ => false).

Definition run (n : TargetNaming) (target : string) : RestoreRun :=
  mk_restore_run (sample_profile Mysql Dev)
    (mk_restore "/b/shop.sql.gz" n (RMysql rmysql_default) true (Some "shop")) target
    (mk_endpoint "db" 3306 "root" None) Local.

Definition restored (encrypted : bool) (text : string) (key : option string) (n : TargetNaming) (target : string)
    : result string RestoreError * RestoreState :=
  run_mysql_restore (H := BackupMysql.Sample.machine) (H0 := Toy.libraries) (H1 := codec encrypted)
    clients (folder text) (fun _ => 0) (fun _ => Some 0) key (run n target) 0 idle.

Definition dump : string := "CREATE TABLE orders;".

Definition plain_file : string := ("G" ++ dump)%string.
Definition file_for_b : string := (MAGIC ++ "FTG" ++ dump)%string.

Definition well : RestoreState := snd (restored true file_for_b (Some "AGE-SECRET-KEY-1b") (DropAndRecreate "shop") "shop").

Lemma ends_well : restored true file_for_b (Some "AGE-SECRET-KEY-1b") (DropAndRecreate "shop") "shop" = (Ok "shop", well).
Proof. vm_compute. reflexivity. Qed.

Lemma well_started : started well <> [].
Proof. vm_compute. done. Qed.

Lemma file_sealed :
  sealed (H := Toy.libraries) ["age1b"] [Put (byte_string dump)] (byte_string (content (mk_file file_for_b (Some 0) None true))).
Proof. unfold sealed. vm_compute. repeat eexists. Qed.
End Sample.

(** A key that cannot read the artifact is noticed after the database it replaces
    is gone: the checksum agrees, the drop succeeds, and only then does the stream
    end in the error - although the checks are made first so that corruption is
    caught before a destination is touched. *)
Theorem wrong_key_is_noticed_after_the_drop :
  exists s drop stream,
    Sample.restored true Sample.file_for_b (Some "AGE-SECRET-KEY-1a") (DropAndRecreate "shop") "shop" =
      (Err (RInvalid (crypto_error_text (NoMatchingIdentity "(recorded in the manifest)"))), s)
    /\ started s = [drop; stream]
    /\ In "DROP DATABASE IF EXISTS `shop`;CREATE DATABASE `shop` CHARACTER SET utf8mb4 COLLATE utf8mb4_unicode_ci;" (args drop).
Proof. vm_compute. do 3 eexists. split_and!; try reflexivity. simpl. auto 20. Qed.

(** ** Witnesses *)

Lemma mysql_restore_gives_back_the_dump_witness :
  exists before after,
    fed Sample.well = byte_string before ++ byte_string Sample.dump ++ byte_string after.
Proof.
  destruct (mysql_restore_gives_back_the_dump (HL := Toy.libraries) _ _ _ _ _ _ _ _ _ Sample.ends_well)
    as (_ & tool & identity & o & q & stream & data & before & after & _ & _ & _ & _ & _ & _ & Hf & _ & Hd).
  assert (reads_for ["age1b"] (Some "AGE-SECRET-KEY-1b")) as Hreads by (exists false, [false]; repeat split; by left).
  rewrite (Hd _ _ _ eq_refl eq_refl Sample.file_sealed Hreads) in Hf. cbn [written] in Hf. rewrite app_nil_r in Hf.
  do 2 eexists. exact Hf.
Defined.

Lemma mysql_restore_checks_first_witness :
  typed_confirmation (rr_request (Sample.run (DropAndRecreate "shop") "shop")) = Some "shop".
Proof.
  destruct (mysql_restore_checks_first _ _ _ _ _ _ _ _ _ Sample.ends_well Sample.well_started) as (Hr & _).
  apply (res_confirmed _ _ _ Hr). left. reflexivity.
Defined.
