(* ===== verification/RestorePostgres.v ===== *)
(** * RestorePostgres: writing a dump into a PostgreSQL server
      (engine/src/restore/postgres.rs) *)

From Stdlib Require Import ZArith Lia Ascii String List Bool.
From stdpp Require Import base list gmap strings.
From S2P Require Import Prelude Text Time Domain Sql Exec Tools Disk Retention Backup Restore Definer BackupMysql BackupPostgres.
From S2P Require Import Library Crypto Job Checking Feed RestoreMysql.
Import ListNotations.

Open Scope string_scope.
Open Scope list_scope.
Open Scope Z_scope.

(** ** The table of contents of an archive *)

(** Whether a line of [pg_restore --list] survives the selection of tables. *)
Definition toc_line_wanted (line : string) (only : list string) : bool :=
  let trimmed := trim_start line in
  if String.eqb trimmed "" || starts_with ";" trimmed then false
  else
    match split_once ";" trimmed with
    | None => true
    | Some (_, rest) =>
        match split_whitespace rest with
        | _ :: _ :: d0 :: d1 :: schema :: name :: _ =>
            if negb (String.eqb d0 "TABLE") || negb (String.eqb d1 "DATA") then true
            else
              existsb (fun t => String.eqb t (schema ++ "." ++ name)
                                || (String.eqb schema "public" && String.eqb t name)) only
        | _ => true
        end
    end.

(** ** The format of an artifact *)

(** [Path::extension]: what is after the last dot of the name, unless that starts it. *)
Definition extension (path : string) : option string :=
  match file_name path with
  | Some name =>
      match rev (split_on "." name) with
      | [] | [_] | [_; ""] => None
      | ext :: _ => Some ext
      end
  | None => None
  end.

Definition is_dir (d : Disk) (path : string) : bool :=
  match nodes d !! path with Some NDir => true | _ => false end.

Definition infer_format (d : Disk) (path : string) : ArtifactFormat :=
  if is_dir d path then PgDirectory
  else if bool_decide (extension path = Some "gz") then SqlGz
  else PgCustom.

(** ** Commands *)

Record PgRestoreWorker := mk_pg_restore {
  psql : ResolvedTool;
  pg_restore : option ResolvedTool;
  pgr_endpoint : Endpoint;
  pgr_target : string;
  pgr_artifact : string;
  pgr_format : ArtifactFormat;
  pgr_options : PostgresRestoreOptions;
  pgr_drop_first : bool;
  pgr_create : bool }.

Section Commands.
Context `{Host}.
Variable w : PgRestoreWorker.

Definition psql_command (database : string) : ToolCommand :=
  let e := pgr_endpoint w in
  pg_with_password
    (add_args (command (psql w))
       [("--host=" ++ host e)%string; ("--port=" ++ show (port e))%string; ("--username=" ++ user e)%string;
        "--no-password"; "--set=ON_ERROR_STOP=1"; ("--dbname=" ++ database)%string]) e.

Definition admin_command : ToolCommand := psql_command "postgres".

Definition pg_create_sql (quoted : string) : string :=
  ((if pgr_drop_first w then "DROP DATABASE IF EXISTS " ++ quoted ++ ";" else "")
   ++ "CREATE DATABASE " ++ quoted ++ ";")%string.

Definition pg_create_command (quoted : string) : ToolCommand :=
  add_arg (add_arg admin_command "--command") (pg_create_sql quoted).

Definition list_command (tool : ResolvedTool) (artifact : string) : ToolCommand :=
  pg_with_password (add_arg (add_arg (command tool) "--list") artifact) (pgr_endpoint w).

Definition pg_restore_args (list_file : option string) (artifact : string) : list string :=
  let e := pgr_endpoint w in
  let o := pgr_options w in
  [("--host=" ++ host e)%string; ("--port=" ++ show (port e))%string; ("--username=" ++ user e)%string;
   "--no-password"; ("--dbname=" ++ pgr_target w)%string; "--exit-on-error"]
  ++ flag (r_no_owner o) "--no-owner"
  ++ flag (r_no_privileges o) "--no-privileges"
  ++ flag (clean o) "--clean"
  ++ match r_parallel_jobs o with Some jobs => [("--jobs=" ++ show jobs)%string] | None => [] end
  ++ match list_file with Some p => [("--use-list=" ++ p)%string] | None => [] end
  ++ [artifact].

Definition pg_restore_command (tool : ResolvedTool) (list_file : option string) (artifact : string) : ToolCommand :=
  pg_with_password (add_args (command tool) (pg_restore_args list_file artifact)) (pgr_endpoint w).

(** ** The worker *)

Context `{Libraries}.
Variable p : Processes.
Variable d : Disk.

(** The temporary file of a selection: where it is, and what writing to it says. *)
Variable new_temp : result string string.
Variable write_temp : bytes -> result unit string.
Variable flush_temp : result unit string.

Definition pg_create_target : RS unit :=
  let% quoted := rs_lift (map_err (quote_pg_ident (pgr_target w)) (fun e => RInvalid (db_error_text e))) in
  run_to_completion p (pg_create_command quoted).

Definition mount_for_restore (t : ResolvedTool) (path : string) : RS (string * ResolvedTool) :=
  rs_lift (map_err (mount t path ReadOnly) (fun e => RInvalid (mount_error_text e))).

(** The lines of the child's output, up to the first that cannot be read. *)
Definition list_archive (cmd : ToolCommand) : RS (list string) := fun s =>
  let s' := start s cmd in
  match spawn_streaming p (length (started s)) cmd with
  | Err e => (Err (RExec (exec_error_text e)), s')
  | Ok c =>
      match wait_restore cmd c with
      | Ok _ => (Ok (map string_of_list_ascii (map_while_ok (reader_lines (stdout c) (stdout_error c)))), s')
      | Err e => (Err e, s')
      end
  end.

(** The list handed back to [pg_restore]: the lines that are wanted. *)
Definition filter_text (toc : list string) : string :=
  foldr (fun l rest => (l ++ String newline rest)%string) ""
    (List.filter (fun l => toc_line_wanted l (only_tables (pgr_options w))) toc).

Definition build_toc_filter (tool : ResolvedTool) : RS (string * string) :=
  let% (artifact, tool) := mount_for_restore tool (pgr_artifact w) in
  let% toc := list_archive (list_command tool artifact) in
  let% path := rs_lift (map_err new_temp (fun e => RInvalid ("could not create a TOC filter: " ++ e)%string)) in
  let text := filter_text toc in
  let% _ := rs_lift (map_err (write_temp (byte_string text)) (fun e => RInvalid ("writing the TOC filter: " ++ e)%string)) in
  let% _ := rs_lift (map_err flush_temp (fun e => RInvalid ("flushing the TOC filter: " ++ e)%string)) in
  rs_ret (path, text).

Definition mount_list (list : option (string * string)) (tool : ResolvedTool) : RS (option string * ResolvedTool) :=
  match list with
  | Some (path, _) =>
      let% (p, tool) := mount_for_restore tool path in
      rs_ret (Some p, tool)
  | None => rs_ret (None, tool)
  end.

Definition selection (tool : ResolvedTool) : RS (option (string * string)) :=
  match only_tables (pgr_options w) with
  | [] => rs_ret None
  | l =>
      let% _ := rs_tell (RPhase PhaseRestore
                  ("selecting " ++ show (Z.of_nat (length l)) ++ " table(s) from the archive")%string) in
      let% list := build_toc_filter tool in
      rs_ret (Some list)
  end.

Definition run_pg_restore : RS unit :=
  let% tool := rs_lift (ok_or (pg_restore w) (RInvalid "pg_restore is required for this archive")) in
  let% list := selection tool in
  let% (list_file, tool) := mount_list list tool in
  let% (artifact, tool) := mount_for_restore tool (pgr_artifact w) in
  run_to_completion p (pg_restore_command tool list_file artifact).

(** Plain SQL, decompressed and written line by line. *)
Definition plain_pump (pipe : Pipe) : RS unit :=
  let% file := rs_lift (map_err (open_stream d (pgr_artifact w))
                          (fun e => RInvalid ("could not open the artifact: " ++ e)%string)) in
  let decoded := gunzip file in
  feed_pieces p pipe "psql closed its input early: " (fun _ last => (last, [])) (broken decoded) 0 0 (line_pieces decoded).

Definition stream_plain : RS unit :=
  let% _ := run_feeding p (psql_command (pgr_target w)) plain_pump in
  rs_ret tt.

Definition pg_restore_run : RS unit :=
  let% _ := (if pgr_create w then
               let% _ := rs_tell (RPhase PhaseRestore ("creating database " ++ pgr_target w)%string) in
               pg_create_target
             else rs_ret tt) in
  match pgr_format w with
  | PgCustom | PgDirectory =>
      let% _ := rs_tell (RPhase PhaseRestore "restoring archive with pg_restore") in
      run_pg_restore
  | _ =>
      let% _ := rs_tell (RPhase PhaseRestore "streaming plain SQL through psql") in
      stream_plain
  end.
End Commands.

(** ** The whole restore *)

Section Restore.
Context `{Host} `{Libraries} `{Codec} `{Calendar}.
Variable p : Processes.
Variable d : Disk.
Variable new_temp : result string string.
Variable write_temp : bytes -> result unit string.
Variable flush_temp : result unit string.

Definition format_of (manifest : option BackupManifest) (path : string) : ArtifactFormat :=
  match manifest with Some m => manifest_format m | None => infer_format d path end.

(** The worker of a request, once it was validated and its tools were found. *)
Definition pg_prepare (run : RestoreRun) (now : Z) : result PgRestoreWorker RestoreError :=
  let r := rr_request run in
  let e := rr_endpoint run in
  let manifest := manifest_of d (artifact_path r) in
  let overrides := tool_overrides (rr_profile run) in
  let? _ := restore_validate r (rr_profile run) manifest now in
  match r_engine r with
  | RMysql _ | RMongo _ => Err (REngineMismatch (profile_engine (rr_profile run)) (restore_engine (r_engine r)))
  | RPostgres o =>
      let format := format_of manifest (artifact_path r) in
      let? psql := ok_or (Tools.resolve Psql (rr_tools run) (t_psql overrides))
                     (RInvalid "could not find psql; install the PostgreSQL client tools") in
      let? pg_restore := (if supports_selective_restore format then
                            let? t := ok_or (Tools.resolve PgRestore (rr_tools run) (t_pg_restore overrides))
                                        (RInvalid "could not find pg_restore for this archive") in
                            Ok (Some t)
                          else Ok None) in
      Ok (mk_pg_restore psql pg_restore
            (mk_endpoint (rewrite_host (rr_tools run) (host e)) (port e) (user e) (password e))
            (rr_target run) (artifact_path r) format o (is_destructive (naming r)) (negb (into_existing (naming r))))
  end.

Definition run_postgres_restore (run : RestoreRun) (now : Z) : RS string :=
  let r := rr_request run in
  let target := rr_target run in
  let% w := rs_lift (pg_prepare run now) in
  let% _ := (if verify_checksum r && negb (bool_decide (pgr_format w = PgDirectory))
             then checksum_stage d (manifest_of d (artifact_path r)) (artifact_path r) else rs_ret tt) in
  let% _ := rs_tell (RPhase PhaseRestore ("restoring " ++ artifact_path r ++ " into " ++ target)%string) in
  let% _ := pg_restore_run w p d new_temp write_temp flush_temp in
  let% _ := rs_tell (RPhase Done ("restored into " ++ target)%string) in
  rs_ret target.
End Restore.

(** ** Lemmas *)

Section Facts.
Context `{Host} `{Libraries} `{Codec} `{Calendar}.
Variable p : Processes.
Variable d : Disk.
Variable new_temp : result string string.
Variable write_temp : bytes -> result unit string.
Variable flush_temp : result unit string.

Lemma plain_pump_started w pipe s r s' : plain_pump w p d pipe s = (r, s') -> started s' = started s.
Proof.
  unfold plain_pump, rs_bind, rs_lift. destruct (map_err (open_stream _ _) _); [|by intros [= _ <-]].
  apply feed_pieces_started.
Qed.

Lemma stream_plain_Ok w s s' :
  stream_plain w p d s = (Ok tt, s') ->
  exists file data, open_stream d (pgr_artifact w) = Ok file /\ gunzip file = whole data /\ fed s' = data.
Proof.
  unfold stream_plain. intros (l & s1 & (pipe & _ & Hp & _)%run_feeding_Ok & [= <-])%rs_bind_Ok.
  unfold plain_pump in Hp. apply rs_bind_Ok in Hp as (file & s2 & [= Eo <-] & Hp). apply map_err_Ok in Eo.
  apply feed_pieces_Ok in Hp as (Hb & Hf & _). exists file.
  destruct (gunzip file) as [data b] eqn:Eg. simpl in Hb. subst b. exists data. split_and!; [done..|].
  change (mk_stream data None) with (whole data) in Hf. by rewrite line_pieces_concat in Hf.
Qed.

Definition created_as (w : PgRestoreWorker) (l : list ToolCommand) : Prop :=
  if pgr_create w
  then exists quoted, quote_pg_ident (pgr_target w) = Ok quoted /\ l = [pg_create_command w quoted]
  else l = [].

(** The lines a child that was started printed. *)
Definition printed (cmd : ToolCommand) (toc : list string) : Prop :=
  exists k c, spawn_streaming p k cmd = Ok c
    /\ toc = map string_of_list_ascii (map_while_ok (reader_lines (stdout c) (stdout_error c))).

(** One [pg_restore] of [artifact] into the target, stopping at the first error,
    with the listing if there is one. *)
Record pg_restores (w : PgRestoreWorker) (list_file : option string) (artifact : string) (cmd : ToolCommand) : Prop := {
  pr_last : last (args cmd) = Some artifact;
  pr_into : In ("--dbname=" ++ pgr_target w)%string (args cmd);
  pr_strict : In "--exit-on-error" (args cmd);
  pr_listed : forall f, list_file = Some f -> In ("--use-list=" ++ f)%string (args cmd) }.

(** The selection kept in the temporary file [path]: the archive of the request was
    listed by [cmd], and the lines that are wanted, each ended, were written. *)
Definition selected_as (w : PgRestoreWorker) (tool : ResolvedTool) (cmd : ToolCommand) (path : string) : Prop :=
  exists archive tool' toc,
    mount tool (pgr_artifact w) ReadOnly = Ok (archive, tool') /\ cmd = list_command w tool' archive
    /\ last (args cmd) = Some archive /\ In "--list" (args cmd) /\ printed cmd toc
    /\ new_temp = Ok path
    /\ write_temp (byte_string (foldr (fun l rest => (l ++ String newline rest)%string) ""
         (List.filter (fun l => toc_line_wanted l (only_tables (pgr_options w))) toc))) = Ok tt
    /\ flush_temp = Ok tt.

(** What runs for an archive: the listing when tables were selected, and then
    [pg_restore] on the archive of the request, with the selection. *)
Definition restored_as (w : PgRestoreWorker) (l : list ToolCommand) : Prop :=
  exists tool artifact cmd, pg_restore w = Some tool
    /\ match only_tables (pgr_options w) with
       | [] => l = [cmd] /\ pg_restores w None artifact cmd
               /\ exists tool', mount tool (pgr_artifact w) ReadOnly = Ok (artifact, tool')
       | _ => exists listing path list_file tool1 tool2,
                l = [listing; cmd] /\ selected_as w tool listing path
                /\ mount tool path ReadOnly = Ok (list_file, tool1)
                /\ mount tool1 (pgr_artifact w) ReadOnly = Ok (artifact, tool2)
                /\ pg_restores w (Some list_file) artifact cmd
       end.

Lemma pg_restore_command_restores w tool list_file artifact :
  pg_restores w list_file artifact (pg_restore_command w tool list_file artifact).
Proof.
  assert (args (pg_restore_command w tool list_file artifact)
    = args (command tool) ++ pg_restore_args w list_file artifact) as E.
  { unfold pg_restore_command, pg_with_password. by destruct (password _). }
  constructor; rewrite E; unfold pg_restore_args.
  - by rewrite !app_assoc, last_snoc.
  - rewrite !in_app_iff. simpl. auto 20.
  - rewrite !in_app_iff. simpl. auto 20.
  - intros f ->. rewrite !in_app_iff. simpl. auto 20.
Qed.

Lemma runs_list_archive cmd : runs p (list_archive p cmd) (fun l toc => l = [cmd] /\ printed cmd toc).
Proof.
  intros s a s' E. unfold list_archive in E. destruct (spawn_streaming _ _ _) as [c|] eqn:Es; [|done].
  destruct (wait_restore cmd c) eqn:Ew; [|done]. injection E as <- <-. exists [cmd]. split_and!; [done| |done|by eexists _, c].
  apply all_ended_one. apply wait_restore_Ok in Ew. left. eauto.
Qed.

Lemma list_command_args w tool artifact :
  In "--list" (args (list_command w tool artifact)) /\ last (args (list_command w tool artifact)) = Some artifact.
Proof.
  unfold list_command, pg_with_password.
  destruct (password _); simpl; (split; [rewrite !in_app_iff; simpl; auto|apply last_snoc]).
Qed.

Lemma runs_build w tool :
  runs p (build_toc_filter w p new_temp write_temp flush_temp tool)
    (fun l list => exists cmd, l = [cmd] /\ selected_as w tool cmd list.1).
Proof.
  intros s [path text] s' E. unfold build_toc_filter, mount_for_restore in E.
  apply rs_bind_Ok in E as ([artifact tool'] & s1 & [= Em <-] & E). apply map_err_Ok in Em.
  apply rs_bind_Ok in E as (toc & s2 & E2 & E). apply runs_list_archive in E2 as (l & Hl & He & -> & Hp).
  apply rs_bind_Ok in E as (path' & s3 & [= En <-] & E). apply map_err_Ok in En.
  apply rs_bind_Ok in E as ([] & s4 & [= Ew <-] & E). apply map_err_Ok in Ew.
  apply rs_bind_Ok in E as ([] & s5 & [= Ef <-] & [= <- _ <-]). apply map_err_Ok in Ef.
  eexists. split_and!; [exact Hl|exact He|]. eexists. split; [done|].
  destruct (list_command_args w tool' artifact) as [Hin Hlast].
  by exists artifact, tool', toc.
Qed.

Lemma runs_selection w tool :
  runs p (selection w p new_temp write_temp flush_temp tool)
    (fun l list => match only_tables (pgr_options w) with
                   | [] => l = [] /\ list = None
                   | _ => exists cmd path text, l = [cmd] /\ list = Some (path, text) /\ selected_as w tool cmd path
                   end).
Proof.
  unfold selection. destruct (only_tables (pgr_options w)); [apply runs_ret|].
  eapply runs_mono; [|apply runs_bind; [apply runs_tell|intros ?; apply runs_bind; [apply runs_build|intros ?; apply runs_ret]]].
  simpl. intros l' a' (_ & l1 & l2 & -> & [-> _] & [path text] & l3 & l4 & -> & (cmd & -> & Hc) & -> & ->).
  rewrite app_nil_r. by exists cmd, path, text.
Qed.

Lemma run_pg_restore_runs w :
  runs p (run_pg_restore w p new_temp write_temp flush_temp) (fun l _ => restored_as w l).
Proof.
  intros s a s' E. unfold run_pg_restore, mount_for_restore in E.
  apply rs_bind_Ok in E as (tool & s1 & [= Et <-] & E).
  destruct (pg_restore w) as [tool0|] eqn:Epr; [|done]. injection Et as <-.
  apply rs_bind_Ok in E as (list & s2 & E2 & E). apply runs_selection in E2 as (l & Hl & He & HQ).
  apply rs_bind_Ok in E as ([list_file tool'] & s3 & E3 & E).
  apply rs_bind_Ok in E as ([artifact tool''] & s4 & [= Em <-] & E). apply map_err_Ok in Em.
  apply runs_to_completion in E as (l' & Hl' & He' & ->).
  set (cmd := pg_restore_command w tool'' list_file artifact) in *.
  pose proof (pg_restore_command_restores w tool'' list_file artifact) as Hcmd. fold cmd in Hcmd.
  assert (s3 = s2) as ->.
  { unfold mount_list, mount_for_restore in E3. destruct list as [[path text]|]; [|by injection E3 as <- _ <-].
    by apply rs_bind_Ok in E3 as ([q t] & s5 & [= _ <-] & [= <- _ <-]). }
  exists (l ++ [cmd]). rewrite Hl', Hl, app_assoc. split_and!; [done| |].
  - apply all_ended_app; [done|]. by rewrite Hl, length_app in He'.
  - exists tool0, artifact, cmd. split; [done|]. destruct (only_tables (pgr_options w)).
    + destruct HQ as [-> ->]. injection E3 as <- <-. split_and!; [done|done|by exists tool''].
    + destruct HQ as (listing & path & text & -> & -> & Hsel). unfold mount_list, mount_for_restore in E3.
      apply rs_bind_Ok in E3 as ([q t] & s5 & [= Eq <-] & [= <- <-]). apply map_err_Ok in Eq.
      by exists listing, path, q, t, tool''.
Qed.

Lemma runs_create w :
  runs p (if pgr_create w then
            let% _ := rs_tell (RPhase PhaseRestore ("creating database " ++ pgr_target w)%string) in
            pg_create_target w p
          else rs_ret tt) (fun l _ => created_as w l).
Proof.
  unfold created_as. destruct (pgr_create w).
  - eapply runs_mono; [|apply runs_bind; [apply runs_tell|intros ?]; apply runs_bind; [apply runs_lift|intros ?; apply runs_to_completion]].
    simpl. intros l a (_ & l1 & l2 & -> & [-> _] & q & l3 & l4 & -> & [-> Hq%map_err_Ok] & ->). by exists q.
  - eapply runs_mono; [|apply runs_ret]. by intros l a [-> _].
Qed.

(** What a worker that succeeds has done, by the format of its artifact. *)
Definition worked (w : PgRestoreWorker) (l : list ToolCommand) (input : bytes) : Prop :=
  match pgr_format w with
  | PgCustom | PgDirectory => restored_as w l
  | _ =>
      l = [psql_command w (pgr_target w)]
      /\ exists file, open_stream d (pgr_artifact w) = Ok file /\ gunzip file = whole input
  end.

Lemma pg_restore_run_Ok w s s' :
  pg_restore_run w p d new_temp write_temp flush_temp s = (Ok tt, s') ->
  exists created l, started s' = started s ++ created ++ l /\ all_ended p (length (started s)) (created ++ l)
    /\ created_as w created /\ worked w l (fed s').
Proof.
  unfold pg_restore_run, worked. intros ([] & s1 & (created & Hs1 & He1 & Hc)%runs_create & E)%rs_bind_Ok.
  assert (forall s2 l, started s2 = started s1 ++ l -> all_ended p (length (started s1)) l ->
    started s2 = started s ++ created ++ l /\ all_ended p (length (started s)) (created ++ l)) as Hboth.
  { intros s2 l Hl He. rewrite Hl, Hs1, app_assoc. split; [done|]. apply all_ended_app; [done|].
    by rewrite Hs1, length_app in He. }
  assert (forall s2, stream_plain w p d s2 = (Ok tt, s') -> started s2 = started s1 ->
    started s' = started s ++ created ++ [psql_command w (pgr_target w)]
    /\ all_ended p (length (started s)) (created ++ [psql_command w (pgr_target w)])
    /\ exists file, open_stream d (pgr_artifact w) = Ok file /\ gunzip file = whole (fed s')) as Hplain.
  { intros s2 E2 Hs2. pose proof (stream_plain_Ok _ _ _ E2) as (file & data & Eo & Eg & <-).
    unfold stream_plain in E2. apply rs_bind_Ok in E2 as (x & s3 & E2 & [= <-]).
    apply runs_feeding in E2 as (l & Hl & He & ->); [|apply plain_pump_started]. rewrite Hs2 in *.
    destruct (Hboth _ _ Hl He). eauto. }
  assert (forall s2, run_pg_restore w p new_temp write_temp flush_temp s2 = (Ok tt, s') -> started s2 = started s1 ->
    exists l, started s' = started s ++ created ++ l /\ all_ended p (length (started s)) (created ++ l)
      /\ restored_as w l) as Harchive.
  { intros s2 (l & Hl & He & Hr)%run_pg_restore_runs Hs2. rewrite Hs2 in *. destruct (Hboth _ _ Hl He). eauto. }
  destruct (pgr_format w); apply rs_bind_Ok in E as ([] & s2 & [= <-] & E);
    first [apply Hplain in E as (? & ? & ?); [|done]; eauto 10
          |apply Harchive in E as (l & ? & ? & ?); [|done]; eauto 10].
Qed.

Lemma pg_prepare_Ok run now w :
  pg_prepare d run now = Ok w ->
  restorable (rr_request run) (rr_profile run) (manifest_of d (artifact_path (rr_request run)))
  /\ pgr_target w = rr_target run /\ pgr_artifact w = artifact_path (rr_request run)
  /\ pgr_format w = format_of d (manifest_of d (artifact_path (rr_request run))) (artifact_path (rr_request run)).
Proof.
  unfold pg_prepare. intros ([] & Hv%restore_validate_ok & E)%rbind_Ok.
  destruct (r_engine _) as [o'|o'|o']; try done. apply rbind_Ok in E as (t & _ & E).
  apply rbind_Ok in E as (t' & _ & [= <-]). done.
Qed.
End Facts.

(** ** Properties *)

(** An entry of the table of contents, as the listing prints it. *)
Record TocEntry := mk_toc {
  te_id : Z; te_catalog : string; te_oid : string; te_desc : list string;
  te_schema : string; te_name : string; te_owner : string }.

Definition toc_line (e : TocEntry) : string :=
  (show (te_id e) ++ String ";" (String " " (join " " ([te_catalog e; te_oid e] ++ te_desc e ++ [te_schema e; te_name e; te_owner e]))))%string.

(** Names without blanks, and a description the listing can be read back from. *)
Record readable (e : TocEntry) : Prop := {
  re_words : Forall word ([te_catalog e; te_oid e] ++ te_desc e ++ [te_schema e; te_name e; te_owner e]);
  re_desc : te_desc e <> [];
  re_rows : forall r, te_desc e = "TABLE" :: "DATA" :: r -> r = [];
  re_schema : te_desc e = ["TABLE"] -> te_schema e <> "DATA" }.

Definition chosen (only : list string) (e : TocEntry) : Prop :=
  In (te_schema e ++ "." ++ te_name e)%string only \/ (te_schema e = "public" /\ In (te_name e) only).

(** Selecting tables selects rows and nothing else.  Of the entries whose names
    hold no blank, the rows of a table are kept exactly when it was named, in full
    or bare in the default schema; every other entry - definitions, indexes,
    sequences - is kept whatever was named, and comments and empty lines never
    are. *)
Theorem selection_is_of_rows e only :
  readable e ->
  (toc_line_wanted (toc_line e) only = true <-> (te_desc e = ["TABLE"; "DATA"] -> chosen only e))
  /\ toc_line_wanted "" only = false /\ forall rest, toc_line_wanted (String ";" rest) only = false.
Proof.
  intros [Hw Hd Hr Hs]. split; [|split; [done|]].
  2: { intros rest. unfold toc_line_wanted. by rewrite trim_start_noop by (by apply ws_head_graph). }
  set (fields := [te_catalog e; te_oid e] ++ te_desc e ++ [te_schema e; te_name e; te_owner e]) in *.
  assert (split_whitespace (String " " (join " " fields)) = fields) as Hf by apply (split_ws_join fields Hw).
  assert (split_once ";" (toc_line e) = Some (show (te_id e), String " " (join " " fields))) as Ho.
  { apply split_once_app, digits_no_char; [done|apply show_all_digits]. }
  destruct (show_head (te_id e)) as (c & r & Es & Hc).
  assert (trim_start (toc_line e) = toc_line e) as Ht.
  { apply trim_start_noop. unfold toc_line. rewrite Es. cbn [append]. by apply ws_head_graph, digit_graph. }
  assert (String.eqb (toc_line e) "" || starts_with ";" (toc_line e) = false) as Hh.
  { unfold toc_line. rewrite Es. cbn [append]. destruct c as [[] [] [] [] [] [] [] []]; done. }
  unfold toc_line_wanted. rewrite Ht, Hh, Ho, Hf. subst fields. unfold chosen.
  set (only_rows := fun t => String.eqb t (te_schema e ++ "." ++ te_name e) || (String.eqb (te_schema e) "public" && String.eqb t (te_name e))).
  assert (existsb only_rows only = true <-> chosen only e) as Hc'.
  { unfold chosen. rewrite existsb_exists. unfold only_rows. setoid_rewrite orb_true_iff. setoid_rewrite andb_true_iff.
    setoid_rewrite String.eqb_eq. naive_solver. }
  destruct (te_desc e) as [|d0 [|d1 l]] eqn:Ed; [done|..]; cbn [app].
  - destruct (String.eqb_spec d0 "TABLE") as [->|?], (String.eqb_spec (te_schema e) "DATA") as [?|?]; cbn [negb orb];
      try (split; [done|done]). by destruct (Hs eq_refl).
  - assert (exists a b rest, l ++ [te_schema e; te_name e; te_owner e] = a :: b :: rest) as (a & b & rest & El).
    { destruct l as [|x [|y l]]; simpl; eauto. }
    rewrite El. destruct (String.eqb_spec d0 "TABLE") as [->|?]; cbn [negb orb]; [|split; [by intros _ [= ? _]|done]].
    destruct (String.eqb_spec d1 "DATA") as [->|?]; cbn [negb orb]; [|split; [by intros _ [= ? _]|done]].
    rewrite (Hr l eq_refl) in *. simpl in El. injection El as <- <- _. fold only_rows. rewrite Hc'. unfold chosen.
    split; [by intros ? _|auto].
Qed.

(** What a run has done when it succeeds. *)
Lemma run_postgres_reaches `{Host} `{Libraries} `{Codec} `{Calendar} p d new_temp write_temp flush_temp run now db s :
  run_postgres_restore p d new_temp write_temp flush_temp run now idle = (Ok db, s) ->
  db = rr_target run
  /\ exists w s0 s1, pg_prepare d run now = Ok w /\ started s0 = []
       /\ pg_restore_run w p d new_temp write_temp flush_temp s0 = (Ok tt, s1)
       /\ started s = started s1 /\ fed s = fed s1.
Proof.
  unfold run_postgres_restore. intros (w & s1 & [= Ew <-] & E)%rs_bind_Ok.
  apply rs_bind_Ok in E as ([] & s2 & E2 & E). apply rs_bind_Ok in E as ([] & s3 & [= <-] & E).
  apply rs_bind_Ok in E as ([] & s4 & E4 & E). apply rs_bind_Ok in E as ([] & s5 & [= <-] & [= <- <-]).
  split; [done|]. exists w. do 2 eexists. split_and!; [done| |exact E4|done|done].
  cbn [started tell]. destruct (verify_checksum _ && _); [|by injection E2 as <-].
  by apply checksum_stage_inv in E2 as (-> & _).
Qed.


(** An encrypted plain dump cannot be restored.  Backups encrypt the plain format
    and refuse to encrypt the others, and a restore of plain SQL unpacks the file
    without a key: whatever the key, the options and the server, it ends in an
    error. *)
Theorem encrypted_plain_dump_never_restores `{Host} `{HL : Libraries} `{@Lawful HL} `{Codec} `{Calendar}
    p d new_temp write_temp flush_temp run now r s :
  run_postgres_restore p d new_temp write_temp flush_temp run now idle = (r, s) ->
  looks_encrypted d (artifact_path (rr_request run)) = true ->
  supports_selective_restore
    (format_of d (manifest_of d (artifact_path (rr_request run))) (artifact_path (rr_request run))) = false ->
  is_ok r = false
  /\ forall w l input, pg_prepare d run now = Ok w -> ~ worked p d new_temp write_temp flush_temp w l input.
Proof.
  intros E Henc Hf.
  assert (forall w l input, pg_prepare d run now = Ok w -> ~ worked p d new_temp write_temp flush_temp w l input) as Hno.
  { intros w l input (_ & _ & Ha & Hfmt)%pg_prepare_Ok. unfold worked. rewrite Hfmt.
    assert (~ exists file, open_stream d (pgr_artifact w) = Ok file /\ gunzip file = whole input) as Hfile.
    { rewrite Ha. intros (file & Eo & Eg). unfold looks_encrypted, read_text in Henc. unfold open_stream in Eo.
      destruct (nodes d !! _) as [[f|]|]; try done. destruct (read_error f); [done|]. injection Eo as <-.
      apply (gunzip_refuses_age (byte_string (content f))); [by rewrite string_of_list_ascii_of_string|]. by rewrite Eg. }
    destruct (format_of _ _ _); try done; intros [_ ?]; by apply Hfile. }
  split; [|done]. destruct r as [db|e]; [|done].
  apply run_postgres_reaches in E as (_ & w & s0 & s1 & Ew & _ & (created & l & _ & _ & _ & Hw)%pg_restore_run_Ok & _).
  by destruct (Hno w l (fed s1) Ew).
Qed.

(** ** Runs *)

Module PgSample.
Definition describe (format : ArtifactFormat) (encrypted : bool) : BackupManifest :=
  mk_manifest 1 7%N 1%N "prod" Postgres "16.2" "pg_dump" "16.2" "shop" 0 format ["orders"] ["orders"] ∅ "{}"
    "shop.sql.gz" 0 "" encrypted (if encrypted then ["age1b"] else []).

Definition codec (format : ArtifactFormat) (encrypted : bool) : Codec :=
  {| to_json _ := ""; from_json _ := Ok (describe format encrypted); sha256_of _ := "" |}.

Definition run (only : list string) : RestoreRun :=
  mk_restore_run (sample_profile Postgres Dev)
    (mk_restore "/b/shop.sql.gz" (DropAndRecreate "shop") (RPostgres (mk_rpostgres true true None only false)) true (Some "shop"))
    "shop" (mk_endpoint "db" 5432 "app" None) Local.

Definition listing : string :=
  ("; Archive" ++ String newline "215; 1259 16385 TABLE public orders app"
   ++ String newline "3401; 0 16385 TABLE DATA public orders app"
   ++ String newline "3402; 0 16390 TABLE DATA public refunds app" ++ String newline "")%string.

Definition clients : Processes :=
  mk_processes (fun _ _ => Ok (mk_child (byte_string listing) None (Ok (mk_exit true "exit status: 0")) (Some []) false))
    (fun _ _ => Ok (mk_pipe (fun _ _ => None) (fun _ => RestoreMysql.Sample.ended))) (fun _ => false).

Definition restored (format : ArtifactFormat) (encrypted : bool) (text : string) (only : list string)
    : result string RestoreError * RestoreState :=
  run_postgres_restore (H := BackupMysql.Sample.machine) (H0 := Toy.libraries) (H1 := codec format encrypted)
    clients (RestoreMysql.Sample.folder text) (Ok "/tmp/list") (fun _ => Ok tt) (Ok tt) (run only) 0 idle.

Definition archive : RestoreState := snd (restored PgCustom false "PGDMP" ["orders"]).
Definition unread : RestoreState := snd (restored SqlGz true RestoreMysql.Sample.file_for_b []).

Lemma archive_ends : restored PgCustom false "PGDMP" ["orders"] = (Ok "shop", archive).
Proof. vm_compute. reflexivity. Qed.

Lemma unread_ends :
  restored SqlGz true RestoreMysql.Sample.file_for_b [] =
  (Err (RInvalid "reading the artifact failed: invalid gzip header"), unread).
Proof. vm_compute. reflexivity. Qed.

(** By then the database is gone. *)
Lemma unread_dropped :
  exists drop stream, started unread = [drop; stream] /\ In ("DROP DATABASE IF EXISTS " ++ String dquote ("shop" ++ String dquote (";CREATE DATABASE " ++ String dquote ("shop" ++ String dquote ";"))))%string (args drop).
Proof. vm_compute. do 2 eexists. split; [reflexivity|]. simpl. auto 20. Qed.
End PgSample.

(** The listing does not quote, and the selection splits it at blanks: naming a
    table with a blank in its name leaves its rows out, and lets in those of a
    table named like its first word. *)
Theorem blank_in_a_name_loses_the_rows :
  toc_line_wanted "3401; 0 16428 TABLE DATA public order items app" ["order items"] = false
  /\ toc_line_wanted "3401; 0 16428 TABLE DATA public order items app" ["order"] = true.
Proof. split; reflexivity. Qed.

(** ** Witnesses *)

Definition orders_rows : TocEntry := mk_toc 3401 "0" "16428" ["TABLE"; "DATA"] "public" "orders" "app".

Lemma selection_is_of_rows_witness :
  toc_line_wanted "3401; 0 16428 TABLE DATA public orders app" ["public.orders"] = true.
Proof.
  change "3401; 0 16428 TABLE DATA public orders app" with (toc_line orders_rows).
  apply (selection_is_of_rows orders_rows ["public.orders"]); [|intros _; left; by left].
  split; [repeat constructor; done|done|by intros r [= ->]|done].
Defined.


Lemma encrypted_plain_dump_never_restores_witness :
  is_ok (fst (PgSample.restored SqlGz true RestoreMysql.Sample.file_for_b [])) = false.
Proof.
  rewrite PgSample.unread_ends.
  exact (proj1 (encrypted_plain_dump_never_restores (HL := Toy.libraries) _ _ _ _ _ _ _ _ _ PgSample.unread_ends eq_refl eq_refl)).
Defined.
