(* ===== verification/RestoreMongo.v ===== *)
(** * RestoreMongo: writing an archive into a MongoDB server
      (engine/src/restore/mongo.rs) *)

From Stdlib Require Import ZArith Lia Ascii String List Bool.
From stdpp Require Import base list gmap strings.
From S2P Require Import Prelude Text Time Domain Sql Exec Tools Disk Retention Backup Restore Definer BackupMysql BackupMongo.
From S2P Require Import Library Crypto Job Checking Feed RestoreMysql.
Import ListNotations.

Open Scope string_scope.
Open Scope list_scope.
Open Scope Z_scope.

Record MongoRestoreWorker := mk_mongo_restore {
  mongorestore : ResolvedTool;
  mgr_endpoint : Endpoint;
  source_database : string;          (* where the archive was dumped from *)
  mgr_target : string;
  mgr_artifact : string;
  mgr_identity : option string;
  mgr_size : Z;
  mgr_options : MongoRestoreOptions;
  mgr_drop_collections : bool;
  gzipped : bool }.

Definition optional {A} (o : option A) (f : A -> string) : list string :=
  match o with Some a => [f a] | None => [] end.

Definition mongo_restore_args (w : MongoRestoreWorker) (config : option string) : list string :=
  let e := mgr_endpoint w in
  let o := mgr_options w in
  [("--host=" ++ host e)%string; ("--port=" ++ show (port e))%string; "--archive";
   ("--nsFrom=" ++ source_database w ++ ".*")%string; ("--nsTo=" ++ mgr_target w ++ ".*")%string]
  ++ (if String.eqb (user e) "" then []
      else [("--username=" ++ user e)%string; ("--authenticationDatabase=" ++ MONGO_AUTH_SOURCE)%string])
  ++ optional config (String.append "--config=")
  ++ flag (gzipped w) "--gzip"
  ++ flag (mgr_drop_collections w) "--drop"
  ++ flag (stop_on_error o) "--stopOnError"
  ++ flag (negb (restore_indexes o)) "--noIndexRestore"
  ++ flag (bypass_document_validation o) "--bypassDocumentValidation"
  ++ optional (r_parallel_collections o) (fun n => ("--numParallelCollections=" ++ show n)%string)
  ++ optional (insertion_workers o) (fun n => ("--numInsertionWorkersPerCollection=" ++ show n)%string)
  ++ map (fun name => ("--nsInclude=" ++ source_database w ++ "." ++ name)%string) (only_collections o).

Section Worker.
Context `{Host} `{Libraries}.
Variable w : MongoRestoreWorker.
Variable p : Processes.
Variable d : Disk.
Variable count : nat -> Z.
Variable pieces : bytes -> list bytes.         (* how what is read comes in buffers *)
Variable credentials_file : string -> result string string.

Definition mongo_restore_command (tool : ResolvedTool) (config : option string) : ToolCommand :=
  add_args (command tool) (mongo_restore_args w config).

(** The archive, as it is: its own compression is undone by the client. *)
Definition mongo_pump (pipe : Pipe) : RS unit :=
  let% file := rs_lift (map_err (open_stream d (mgr_artifact w))
                          (fun e => RInvalid ("could not open the artifact: " ++ e)%string)) in
  let% decoded := rs_lift (map_err (artifact_reader file (mgr_identity w)) (fun e => RInvalid (crypto_error_text e))) in
  let% _ := feed_pieces p pipe "mongorestore closed its input early: " (report_bytes count (mgr_size w)) (broken decoded)
              0 0 (pieces (delivered decoded)) in
  rs_tell (RBytes (mgr_size w) (mgr_size w)).

Definition restore_credentials : result (option string) RestoreError :=
  match password (mgr_endpoint w) with
  | Some pw => let? path := map_err (credentials_file (password_line pw)) RInvalid in Ok (Some path)
  | None => Ok None
  end.

Definition mount_credentials (file : option string) : result (option string * ResolvedTool) RestoreError :=
  match file with
  | Some path =>
      let? (config, tool) := map_err (mount (mongorestore w) path ReadOnly) (fun e => RInvalid (mount_error_text e)) in
      Ok (Some config, tool)
  | None => Ok (None, mongorestore w)
  end.

(** The failures among what the client said, when they did not fail it. *)
Definition judge (notices : list string) : result unit RestoreError :=
  let failures := List.filter (contains "Failed:") notices in
  match failures with
  | [] => Ok tt
  | _ =>
      if stop_on_error (mgr_options w) then Ok tt
      else Err (RInvalid ("mongorestore reported failures but exited successfully: " ++ join "; " failures)%string)
  end.

Definition mongo_restore_stream : RS unit :=
  let% file := rs_lift restore_credentials in
  let% (config, tool) := rs_lift (mount_credentials file) in
  let% notices := run_feeding p (mongo_restore_command tool config) mongo_pump in
  rs_lift (judge notices).

Definition mongo_restore_run : RS unit :=
  let% _ := rs_tell (RPhase PhaseRestore
              ("streaming the archive, " ++ source_database w ++ " → " ++ mgr_target w)%string) in
  mongo_restore_stream.
End Worker.

(** ** The whole restore *)

Section Restore.
Context `{Host} `{Libraries} `{Codec} `{Calendar}.
Variable p : Processes.
Variable d : Disk.
Variable count : nat -> Z.
Variable pieces : bytes -> list bytes.
Variable credentials_file : string -> result string string.
Variable metadata_len : string -> option Z.
Variable key : option string.

Definition no_manifest_text : string :=
  "this MongoDB archive has no manifest beside it, so the database it was dumped from is unknown. mongorestore would put every collection back into that database — possibly the source. Restore it with its .manifest.json file.".

Definition is_gzipped (m : BackupManifest) : bool :=
  contains ".archive.gz" (artifact_filename m) || ends_with ".gz" (artifact_filename m).

Definition mongo_prepare_restore (run : RestoreRun) (now : Z) : result MongoRestoreWorker RestoreError :=
  let r := rr_request run in
  let e := rr_endpoint run in
  let manifest := manifest_of d (artifact_path r) in
  let? _ := restore_validate r (rr_profile run) manifest now in
  match r_engine r with
  | RMysql _ | RPostgres _ => Err (REngineMismatch (profile_engine (rr_profile run)) (restore_engine (r_engine r)))
  | RMongo o =>
      let? m := ok_or manifest (RInvalid no_manifest_text) in
      let? identity := identity_for d (artifact_path r) manifest key " " in
      let? tool := ok_or (Tools.resolve Mongorestore (rr_tools run) (t_mongorestore (tool_overrides (rr_profile run))))
                     (RInvalid "could not find mongorestore; install the MongoDB Database Tools or set an override") in
      Ok (mk_mongo_restore tool
            (mk_endpoint (rewrite_host (rr_tools run) (host e)) (port e) (user e) (password e))
            (manifest_database m) (rr_target run) (artifact_path r) identity (default 0 (metadata_len (artifact_path r))) o
            (drop_collections o || is_destructive (naming r)) (is_gzipped m))
  end.

Definition run_mongo_restore (run : RestoreRun) (now : Z) : RS string :=
  let r := rr_request run in
  let target := rr_target run in
  let% w := rs_lift (mongo_prepare_restore run now) in
  let% _ := (if verify_checksum r then checksum_stage d (manifest_of d (artifact_path r)) (artifact_path r) else rs_ret tt) in
  let% _ := rs_tell (RPhase PhaseRestore ("restoring " ++ artifact_path r ++ " into " ++ target)%string) in
  let% _ := mongo_restore_run w p d count pieces credentials_file in
  let% _ := rs_tell (RPhase Done ("restored into " ++ target)%string) in
  rs_ret target.
End Restore.

(** ** Lemmas *)

Section Facts.
Context `{Host} `{Libraries} `{Codec} `{Calendar}.
Variable p : Processes.
Variable d : Disk.
Variable count : nat -> Z.
Variable pieces : bytes -> list bytes.
Variable credentials_file : string -> result string string.
Variable metadata_len : string -> option Z.
Variable key : option string.

Lemma mongo_pump_started w pipe s r s' : mongo_pump w p d count pieces pipe s = (r, s') -> started s' = started s.
Proof.
  unfold mongo_pump, rs_bind, rs_lift, rs_tell. destruct (map_err (open_stream _ _) _); [|by intros [= _ <-]].
  destruct (map_err (artifact_reader _ _) _) as [decoded|]; [|by intros [= _ <-]].
  destruct (feed_pieces _ _ _ _ _ _ _ _ s) as [[[]|e] s2] eqn:E2; apply feed_pieces_started in E2; by intros [= _ <-].
Qed.

Lemma mongo_pump_Ok w pipe s s' :
  (forall b, concat (pieces b) = b) ->
  mongo_pump w p d count pieces pipe s = (Ok tt, s') ->
  exists stream, open_stream d (mgr_artifact w) = Ok stream
    /\ exists data, artifact_reader stream (mgr_identity w) = Ok (whole data) /\ fed s' = fed s ++ data.
Proof.
  intros Hp E. unfold mongo_pump in E. apply rs_bind_Ok in E as (stream & s2 & [= Eo <-] & E). apply map_err_Ok in Eo.
  apply rs_bind_Ok in E as (decoded & s3 & [= Ed <-] & E). apply map_err_Ok in Ed.
  apply rs_bind_Ok in E as ([] & s4 & (Hb & Hf & _)%feed_pieces_Ok & [= <-]).
  destruct decoded as [data b]. simpl in *. subst b. rewrite Hp in Hf. eauto.
Qed.

(** What a worker does with clients: at most one, and it is told where from and where to. *)
Lemma mongo_restore_run_started w s r s' :
  mongo_restore_run w p d count pieces credentials_file s = (r, s') ->
  (started s' = started s /\ r <> Ok tt)
  \/ exists tool config, started s' = started s ++ [mongo_restore_command w tool config].
Proof.
  unfold mongo_restore_run, mongo_restore_stream, rs_bind, rs_tell, rs_lift.
  destruct (restore_credentials w credentials_file) as [file|]; [|intros [= <- <-]; by left].
  destruct (mount_credentials w file) as [[config tool]|]; [|intros [= <- <-]; by left].
  unfold run_feeding. destruct (spawn_writing _ _ _) as [pipe|]; [|intros [= _ <-]; right; do 2 eexists; reflexivity].
  destruct (mongo_pump w p d count pieces pipe _) as [[[]|e] s1] eqn:E; apply mongo_pump_started in E;
    [destruct (wait_restore _ _)|]; intros [= _ <-]; right; do 2 eexists; exact E.
Qed.

Lemma mongo_restore_run_Ok w s s' :
  (forall b, concat (pieces b) = b) ->
  mongo_restore_run w p d count pieces credentials_file s = (Ok tt, s') ->
  all_ended p (length (started s)) (skipn (length (started s)) (started s'))
  /\ exists stream, open_stream d (mgr_artifact w) = Ok stream
       /\ artifact_reader stream (mgr_identity w) = Ok (whole (fed s')).
Proof.
  intros Hp E. assert (tidy p (mongo_restore_run w p d count pieces credentials_file)) as Ht.
  { unfold mongo_restore_run, mongo_restore_stream. tidy. apply tidy_feeding, mongo_pump_started. }
  destruct (Ht _ _ _ E) as (l & Hl & He & _). split; [by rewrite Hl, drop_app_length|].
  unfold mongo_restore_run, mongo_restore_stream in E. apply rs_bind_Ok in E as ([] & s1 & [= <-] & E).
  apply rs_bind_Ok in E as (file & s2 & [= _ <-] & E). apply rs_bind_Ok in E as ([config tool] & s3 & [= _ <-] & E).
  apply rs_bind_Ok in E as (notices & s4 & (pipe & _ & Hpump & _)%run_feeding_Ok & [= _ <-]).
  apply mongo_pump_Ok in Hpump as (stream & Eo & data & Er & Hf); [|done]. simpl in Hf. rewrite Hf. eauto.
Qed.

Definition prepared_for (run : RestoreRun) (w : MongoRestoreWorker) : Prop :=
  let path := artifact_path (rr_request run) in
  restorable (rr_request run) (rr_profile run) (manifest_of d path)
  /\ identity_for d path (manifest_of d path) key " " = Ok (mgr_identity w)
  /\ mgr_target w = rr_target run /\ mgr_artifact w = path
  /\ exists m, manifest_of d path = Some m /\ source_database w = manifest_database m.

Lemma mongo_prepare_Ok run now w : mongo_prepare_restore d metadata_len key run now = Ok w -> prepared_for run w.
Proof.
  unfold mongo_prepare_restore. intros ([] & Hv%restore_validate_ok & E)%rbind_Ok.
  destruct (r_engine _) as [o'|o'|o']; try done. apply rbind_Ok in E as (m & Hm%ok_or_Ok & E).
  apply rbind_Ok in E as (i & Ei & E). apply rbind_Ok in E as (t & _ & [= <-]). unfold prepared_for. eauto 10.
Qed.

Lemma mongo_reaches_worker run now r s :
  run_mongo_restore p d count pieces credentials_file metadata_len key run now idle = (r, s) ->
  started s <> [] \/ is_ok r = true ->
  exists w s0 r0 s1, prepared_for run w
    /\ (verify_checksum (rr_request run) = true -> forall m,
          manifest_of d (artifact_path (rr_request run)) = Some m ->
          verify_artifact d m (artifact_path (rr_request run)) = Ok tt)
    /\ started s0 = []
    /\ mongo_restore_run w p d count pieces credentials_file s0 = (r0, s1)
    /\ started s = started s1 /\ fed s = fed s1
    /\ (forall db, r = Ok db -> r0 = Ok tt /\ db = rr_target run).
Proof.
  unfold run_mongo_restore. unfold rs_bind at 1, rs_lift at 1.
  destruct (mongo_prepare_restore d metadata_len key run now) as [w|e] eqn:Ep; [|intros [= <- <-]; by intros [?|?]].
  apply mongo_prepare_Ok in Ep. unfold rs_bind at 1.
  set (r' := rr_request run). set (check := if verify_checksum r' then _ else _).
  destruct (check idle) as [[[]|e] s0] eqn:Ec.
  - assert (started s0 = [] /\ (verify_checksum r' = true -> forall m,
      manifest_of d (artifact_path r') = Some m -> verify_artifact d m (artifact_path r') = Ok tt)) as [Hs Hv].
    { unfold check in Ec. destruct (verify_checksum r'); [|by injection Ec as <-].
      apply checksum_stage_inv in Ec as (Hs & _ & Hv). by split; [|intros _; apply Hv]. }
    unfold rs_bind, rs_tell. destruct (mongo_restore_run _ _ _ _ _ _ _) as [[[]|e] s1] eqn:Ew; intros [= <- <-] _;
      eexists w, _, _, s1; (split_and!; [done|exact Hv| |exact Ew|done|done|]); try exact Hs.
    + by intros db [= <-].
    + done.
  - assert (started s0 = []) as Hs.
    { unfold check in Ec. destruct (verify_checksum r'); [|done]. by apply checksum_stage_inv in Ec as (Hs & _). }
    intros [= <- <-]. rewrite Hs. by intros [?|?].
Qed.
End Facts.

(** ** Properties *)

(** An archive never goes back where it came from unless it is sent there.
    Whatever a run ends in, it starts at most one client, and only after
    everything that can be checked was; the client is told the database the
    manifest says the archive was dumped from, and the target to put it in its
    place - there is no run without a manifest that says so. *)
Theorem mongo_restore_renames `{Host} `{Libraries} `{Codec} `{Calendar}
    p d count pieces credentials_file metadata_len key run now r s :
  run_mongo_restore p d count pieces credentials_file metadata_len key run now idle = (r, s) -> started s <> [] ->
  let q := rr_request run in
  exists m cmd, manifest_of d (artifact_path q) = Some m /\ started s = [cmd]
    /\ In ("--nsFrom=" ++ manifest_database m ++ ".*")%string (args cmd)
    /\ In ("--nsTo=" ++ rr_target run ++ ".*")%string (args cmd)
    /\ restorable q (rr_profile run) (Some m)
    /\ (if looks_encrypted d (artifact_path q) then is_some key = true else encrypted m = false)
    /\ (verify_checksum q = true -> verify_artifact d m (artifact_path q) = Ok tt).
Proof.
  intros E Hne. cbv zeta. destruct (mongo_reaches_worker _ _ _ _ _ _ _ _ _ _ _ E (or_introl Hne))
    as (w & s0 & r0 & s1 & (Hres & Ei & Ht & Ha & m & Hm & Hd) & Hv & Hs0 & Ew & Hs & _ & _).
  rewrite Hm in *. apply mongo_restore_run_started in Ew as [[Ew _]|(tool & config & Ew)];
    [by rewrite Hs, Ew, Hs0 in Hne|]. rewrite Hs0 in Ew. simpl in Ew.
  exists m. eexists. split_and!; [done|by rewrite Hs| | |done| |auto].
  - unfold mongo_restore_command, mongo_restore_args. simpl. rewrite Hd, !in_app_iff. simpl. auto 10.
  - unfold mongo_restore_command, mongo_restore_args. simpl. rewrite Ht, !in_app_iff. simpl. auto 10.
  - apply identity_for_Ok in Ei as [(-> & _ & Hk)|(-> & _ & Hk)]; [done|]. by apply Hk.
Qed.

(** A restore gives the server the archive.  A restore that succeeds ended its
    client well and gave it everything the artifact reads as; if the artifact is
    what a backup sealed for recipients this machine's key belongs to, that is what
    the dump wrote, byte for byte. *)
Theorem mongo_restore_gives_back_the_archive `{Host} `{HL : Libraries} `{@Lawful HL} `{Codec} `{Calendar}
    p d count pieces credentials_file metadata_len key run now db s :
  (forall b, concat (pieces b) = b) ->
  run_mongo_restore p d count pieces credentials_file metadata_len key run now idle = (Ok db, s) ->
  db = rr_target run /\ length (started s) = 1%nat /\ all_ended p 0 (started s)
  /\ forall f recipients calls,
       nodes d !! artifact_path (rr_request run) = Some (NFile f) -> read_error f = None ->
       sealed recipients calls (byte_string (content f)) ->
       reads_for recipients (match recipients with [] => None | _ => key end) ->
       fed s = written calls.
Proof.
  intros Hp E. destruct (mongo_reaches_worker _ _ _ _ _ _ _ _ _ _ _ E (or_intror eq_refl))
    as (w & s0 & r0 & s1 & (_ & Ei & _ & Ha & _) & _ & Hs0 & Ew & Hs & Hf & Hdb).
  destruct (Hdb db eq_refl) as [-> ->]. split; [done|].
  destruct (mongo_restore_run_Ok _ _ _ _ _ _ _ _ Hp Ew) as (He & stream & Eo & Er).
  rewrite Hs0 in He. rewrite Hs, Hf. split_and!; [|exact He|].
  { apply mongo_restore_run_started in Ew as [[_ ?]|(tool & config & ->)]; [done|]. by rewrite Hs0. }
  intros f recipients calls Hn Hre Hseal Hreads. rewrite Ha in *. unfold open_stream in Eo. rewrite Hn, Hre in Eo.
  injection Eo as <-. rewrite (identity_of_sealed _ _ _ _ _ _ _ _ _ Hn Hre Hseal Hreads Ei) in Er.
  pose proof (sealed_reads_back _ _ _ _ Hseal Hreads) as Hread. rewrite Hread in Er. by injection Er.
Qed.

(** ** Runs *)

Module MongoSample.
Definition describe (encrypted : bool) : BackupManifest :=
  mk_manifest 1 7%N 1%N "prod" Mongo "7.0" "mongodump" "100.9" "shop" 0 MongoArchive ["orders"] ["orders"] ∅ "{}"
    "shop.archive.gz" 0 "" encrypted (if encrypted then ["age1b"] else []).

Definition codec (encrypted : bool) : Codec :=
  {| to_json _ := ""; from_json _ := Ok (describe encrypted); sha256_of _ := "" |}.

Definition run (stop : bool) : RestoreRun :=
  mk_restore_run (sample_profile Mongo Dev)
    (mk_restore "/b/shop.sql.gz" (NewTimestamped "copy") (RMongo (mk_rmongo false [] None None stop true false)) true None)
    "copy_1" (mk_endpoint "db" 27017 "app" (Some "secret")) Local.

Definition clients (said : list string) : Processes :=
  mk_processes (fun _ _ => Ok RestoreMysql.Sample.ended)
    (fun _ _ => Ok (mk_pipe (fun _ _ => None)
       (fun _ => mk_child [] None (Ok (mk_exit true "exit status: 0")) (Some (map Ok said)) false)))
    (fun _ => false).

Definition restored (encrypted : bool) (text : string) (stop : bool) (said : list string)
    : result string RestoreError * RestoreState :=
  run_mongo_restore (H := BackupMysql.Sample.machine) (H0 := Toy.libraries) (H1 := codec encrypted)
    (clients said) (RestoreMysql.Sample.folder text) (fun _ => 0) (fun b => [b]) (fun _ => Ok "/tmp/c.conf")
    (fun _ => Some 0) (Some "AGE-SECRET-KEY-1b") (run stop) 0 idle.

Definition well : RestoreState := snd (restored true RestoreMysql.Sample.file_for_b true []).

Lemma archive_arrives : restored true RestoreMysql.Sample.file_for_b true [] = (Ok "copy_1", well).
Proof. vm_compute. reflexivity. Qed.

Lemma archive_started : started well <> [].
Proof. vm_compute. done. Qed.

Definition failure : string := "Failed: shop.orders: E11000 duplicate key error".
Definition progress_line : string := "2024-05-01T10:00:00.000+0000 shop.events 12.1MB".
End MongoSample.

(** Of what the client says only the last fifty lines are kept: a restore that is
    not to stop at an error reports a failure said last, and forgets one that more
    than fifty lines of progress came after. *)
Theorem early_failure_is_forgotten :
  fst (MongoSample.restored false "Gdump" false (repeat MongoSample.progress_line 60 ++ [MongoSample.failure])) =
    Err (RInvalid ("mongorestore reported failures but exited successfully: " ++ MongoSample.failure))
  /\ fst (MongoSample.restored false "Gdump" false (MongoSample.failure :: repeat MongoSample.progress_line 60)) = Ok "copy_1".
Proof. split; vm_compute; reflexivity. Qed.

(** ** Witnesses *)

Lemma mongo_restore_renames_witness :
  exists cmd, started MongoSample.well = [cmd] /\ In "--nsFrom=shop.*" (args cmd) /\ In "--nsTo=copy_1.*" (args cmd).
Proof.
  destruct (mongo_restore_renames _ _ _ _ _ _ _ _ _ _ _ MongoSample.archive_arrives MongoSample.archive_started)
    as (m & cmd & Hm & Hs & Hf & Ht & _).
  injection Hm as <-. exists cmd. split_and!; [exact Hs|exact Hf|exact Ht].
Defined.

Lemma mongo_restore_gives_back_the_archive_witness :
  fed MongoSample.well = byte_string RestoreMysql.Sample.dump ++ [].
Proof.
  destruct (mongo_restore_gives_back_the_archive (HL := Toy.libraries) _ _ _ (fun b => [b]) _ _ _ _ _ _ _
    (fun b => app_nil_r b) MongoSample.archive_arrives) as (_ & _ & _ & Hd).
  apply (Hd _ _ _ eq_refl eq_refl RestoreMysql.Sample.file_sealed).
  exists false, [false]. repeat split. by left.
Defined.
