(* ===== verification/Ssh.v ===== *)
(** * Ssh: saved SSH connections (engine/src/sshconn.rs)

    An SSH server is a record of its own, which profiles and other connections
    refer to.  Here are its data, what makes it valid, and the names an upgrade
    gives to connections nobody named. *)

From Stdlib Require Import ZArith Lia Ascii String List Bool FinFun.
From stdpp Require Import base list gmap strings.
From S2P Require Import Prelude Text Domain Destination.
Import ListNotations.
Open Scope string_scope.
Open Scope list_scope.
Open Scope Z_scope.
Open Scope dbsync_scope.

(** ** Data *)

(** [Agent] of the source. *)
Inductive SshAuth :=
| AuthAgent
| KeyFile (path : string) (passphrase_in_keychain : bool).

#[export] Instance SshAuth_eq : EqDecision SshAuth.
Proof. solve_decision. Defined.

Record SshEndpoint := mk_endpoint {
  ep_host : string;
  ep_port : Z;
  ep_user : string;
  ep_auth : SshAuth }.

#[export] Instance SshEndpoint_eq : EqDecision SshEndpoint.
Proof. solve_decision. Defined.

Record SshConfig := mk_ssh_config {
  cfg_endpoint : SshEndpoint;
  cfg_jump_host : option SshEndpoint }.

Record SshConnection := mk_ssh {
  ssh_id : Uuid;
  ssh_name : string;
  ssh_endpoint : SshEndpoint;
  jump_host_id : option Uuid;
  ssh_created_at : Z;
  ssh_updated_at : Z }.

Record SshConnectionCreate := mk_ssh_create {
  sc_name : string;
  sc_endpoint : SshEndpoint;
  sc_jump_host_id : option Uuid }.

(** A patch; [Some None] removes the jump host. *)
Record SshConnectionUpdate := mk_ssh_update {
  su_name : option string;
  su_endpoint : option SshEndpoint;
  su_jump_host_id : option (option Uuid) }.

Inductive SshConnectionError :=
| NoName
| NoHost
| NoUser
| BadPort (port : Z)
| NoKeyPath
| JumpsToItself
| ChainedJump (name : string)
| WouldChainJump (name used_by : string)
| SshNotFound (id : Uuid)
| InUse (name used_by : string).

Definition ssh_error_text (uuid_text : Uuid -> string) (str_debug : string -> string) (e : SshConnectionError) : string :=
  match e with
  | NoName => "an SSH connection needs a name"
  | NoHost => "an SSH connection needs a host"
  | NoUser => "an SSH connection needs a user"
  | BadPort p => show p ++ " is not a usable port"
  | NoKeyPath => "a key-file connection needs the path to the key"
  | JumpsToItself => "an SSH connection cannot be its own jump host"
  | ChainedJump name =>
      str_debug name ++ " reaches its own server through a jump host, so it cannot also be used as one — "
      ++ "chained jumps are not supported"
  | WouldChainJump name used_by =>
      str_debug name ++ " is already used as a jump host by " ++ used_by ++ ", so it cannot route through one "
      ++ "itself — chained jumps are not supported"
  | SshNotFound id => "no SSH connection with id " ++ uuid_text id
  | InUse name used_by => str_debug name ++ " is still used by " ++ used_by
  end%string.

(** A connection with its jump host looked up. *)
Record ResolvedSsh := mk_resolved_ssh {
  rs_connection : SshConnection;
  rs_jump_host : option SshConnection;
  rs_config : SshConfig }.

(** ** What an endpoint says *)

Definition endpoint_validate (e : SshEndpoint) : result unit SshConnectionError :=
  let? _ := guard (blank (ep_host e)) NoHost in
  let? _ := guard (blank (ep_user e)) NoUser in
  let? _ := guard (ep_port e =? 0) (BadPort (ep_port e)) in
  match ep_auth e with
  | KeyFile path _ => guard (blank path) NoKeyPath
  | AuthAgent => Ok tt
  end.

Definition host_key_id (e : SshEndpoint) : string := (ep_host e ++ ":" ++ show (ep_port e))%string.

Definition needs_passphrase (e : SshEndpoint) : bool :=
  match ep_auth e with KeyFile _ true => true | _ => false end.

Definition DEFAULT_SSH_PORT : Z := 22.

Definition describe (e : SshEndpoint) : string :=
  if ep_port e =? DEFAULT_SSH_PORT then (ep_user e ++ "@" ++ ep_host e)%string
  else (ep_user e ++ "@" ++ ep_host e ++ ":" ++ show (ep_port e))%string.

Definition ssh_create_validate (c : SshConnectionCreate) : result unit SshConnectionError :=
  let? _ := guard (blank (sc_name c)) NoName in
  endpoint_validate (sc_endpoint c).

(** ** Names for connections nobody named *)

Definition name_taken (existing : list SshConnection) (name : string) : bool :=
  existsb (fun c => String.eqb (ssh_name c) name) existing.

Definition candidate (base : string) (n : Z) : string := (base ++ " (" ++ show n ++ ")")%string.

(** [(2..).map(..).find(..)], over as many candidates as there can be names taken and
    one more; [first_free_found] shows that this is enough. *)
Fixpoint first_free (existing : list SshConnection) (base : string) (n : Z) (fuel : nat) : option string :=
  match fuel with
  | O => None
  | S fuel =>
      if name_taken existing (candidate base n) then first_free existing base (n + 1) fuel
      else Some (candidate base n)
  end.

Definition unique_name (existing : list SshConnection) (base : string) : string :=
  if name_taken existing base then default base (first_free existing base 2 (S (length existing))) else base.

(** ["a", "b" and "c"]. *)
Definition name_list (str_debug : string -> string) (names : list string) : string :=
  let quoted := map str_debug names in
  match quoted with
  | [] => ""
  | [one] => one
  | _ => (join ", " (removelast quoted) ++ " and " ++ List.last quoted "")%string
  end.

(** ** Lemmas *)

Lemma endpoint_validate_ok e : endpoint_validate e = Ok tt <->
  blank (ep_host e) = false /\ blank (ep_user e) = false /\ ep_port e <> 0
  /\ (forall path b, ep_auth e = KeyFile path b -> blank path = false).
Proof.
  unfold endpoint_validate. autorewrite with guards. rewrite Z.eqb_neq.
  destruct (ep_auth e) as [|path b]; autorewrite with guards.
  - split; [by intros (? & ? & ? & _)|by intros (? & ? & ? & _)].
  - split; intros (? & ? & ? & H); split_and!; try done.
    + by intros ?? [= <- <-].
    + by eapply H.
Qed.

Lemma name_taken_false existing name :
  name_taken existing name = false <-> forall c, In c existing -> ssh_name c <> name.
Proof.
  unfold name_taken. rewrite <- not_true_iff_false, existsb_exists. split.
  - intros H c Hc <-. apply H. exists c. by rewrite String.eqb_refl.
  - intros H (c & Hc & <-%String.eqb_eq). by apply (H c).
Qed.

Lemma candidate_inj base a b : 0 <= a -> 0 <= b -> candidate base a = candidate base b -> a = b.
Proof.
  unfold candidate. intros Ha Hb E. apply (inj (String.append base)) in E.
  change (String " " (String "(" (show a ++ ")")) = String " " (String "(" (show b ++ ")"))) in E.
  injection E as E. apply show_inj; [done..|]. apply app_len_inj_r in E; [by destruct E|].
  apply (f_equal String.length) in E. by rewrite !length_append in E.
Qed.

Lemma first_free_spec existing base fuel : forall n s,
  first_free existing base n fuel = Some s -> name_taken existing s = false.
Proof.
  induction fuel as [|fuel IH]; intros n s; simpl; [done|].
  destruct (name_taken existing (candidate base n)) eqn:E; [apply IH|by intros [= <-]].
Qed.

(** A failed search has met a taken name at each candidate, and the candidates differ. *)
Lemma first_free_taken existing base fuel : forall n,
  first_free existing base n fuel = None ->
  forall i, (i < fuel)%nat -> name_taken existing (candidate base (n + Z.of_nat i)) = true.
Proof.
  induction fuel as [|fuel IH]; intros n H i Hi; [lia|]. simpl in H.
  destruct (name_taken existing (candidate base n)) eqn:E; [|done]. destruct i as [|i].
  - by rewrite Z.add_0_r.
  - replace (n + Z.of_nat (S i)) with (n + 1 + Z.of_nat i) by lia. apply IH; [done|lia].
Qed.

Lemma first_free_found existing base : is_some (first_free existing base 2 (S (length existing))) = true.
Proof.
  destruct (first_free _ _ _ _) eqn:E; [done|exfalso].
  pose proof (first_free_taken _ _ _ _ E) as H.
  assert (Hle : (length (map (fun i => candidate base (2 + Z.of_nat i)) (List.seq 0 (S (length existing))))
           <= length (map ssh_name existing))%nat).
  { apply List.NoDup_incl_length.
    - apply Injective_map_NoDup; [|apply List.seq_NoDup].
      intros a b Hab. apply candidate_inj in Hab; lia.
    - intros x (i & <- & Hi%List.in_seq)%in_map_iff. specialize (H i ltac:(lia)).
      unfold name_taken in H. apply existsb_exists in H as (c & Hc & Hn%String.eqb_eq). rewrite <- Hn.
      by apply in_map. }
  rewrite !length_map, List.length_seq in Hle. lia.
Qed.

(** The name an upgrade gives is one no connection has. *)
Lemma unique_name_free existing base : name_taken existing (unique_name existing base) = false.
Proof.
  unfold unique_name. destruct (name_taken existing base) eqn:E; [|done].
  pose proof (first_free_found existing base) as H.
  destruct (first_free _ _ _ _) as [s|] eqn:Es; [|done]. by eapply first_free_spec.
Qed.

Lemma trim_blank s : blank s = false -> blank (trim s) = false.
Proof. unfold blank. by rewrite trim_idem. Qed.
