(* ===== verification/Database.v ===== *)
(** * Database: the tables of the store, and programs made of statements (engine/src/store.rs
      and the migrations beside it)

    A statement is atomic: it reads the tables, checks what the schema demands of
    its rows and changes them, or changes nothing.  A function of the store is a
    program of such statements, with calls to the keychain and the clock between
    them, and between any two of them another program may run.  [run] is a program
    running alone; [pool_step] is any number of them taking turns, and [safe] is
    what a program must do at each of its statements for an invariant to survive
    all of that. *)

From Stdlib Require Import ZArith Lia Ascii String List Bool.
From stdpp Require Import base list gmap strings relations.
From S2P Require Import Prelude Text Domain Plan Destination Vault Ssh.
Import ListNotations.
Open Scope string_scope.
Open Scope list_scope.
Open Scope Z_scope.
Open Scope dbsync_scope.

Inductive Violation := UniqueViolation | ForeignKeyViolation.

(** What the program takes from libraries: the text of an id, [{:?}] of a string, what the
    database says of a violation, and the ids a process makes up, in the order it does. *)
Class Platform := {
  uuid_text : Uuid -> string;
  str_debug : string -> string;
  violation_text : Violation -> string;
  new_v4 : nat -> Uuid }.

(** ** Tables *)

Record AuditEntry := mk_audit {
  au_id : Uuid;
  au_at : Z;
  au_action : string;
  au_subject : string;
  au_detail : string }.

(** [inline_ssh] is the column [profiles.ssh_config] of versions before saved connections;
    [known_hosts] maps a host and port to the type and fingerprint of its key. *)
Record Tables := mk_tables {
  profiles : gmap Uuid ConnectionProfile;
  inline_ssh : gmap Uuid SshConfig;
  ssh_connections : gmap Uuid SshConnection;
  sync_plans : gmap Uuid SyncPlan;
  destinations : Rows;
  known_hosts : gmap string (string * string);
  audit_log : list AuditEntry }.

Definition empty_tables : Tables := mk_tables ∅ ∅ ∅ ∅ ∅ ∅ [].

Definition with_profiles (t : Tables) m : Tables :=
  mk_tables m (inline_ssh t) (ssh_connections t) (sync_plans t) (destinations t) (known_hosts t) (audit_log t).
Definition with_inline (t : Tables) m : Tables :=
  mk_tables (profiles t) m (ssh_connections t) (sync_plans t) (destinations t) (known_hosts t) (audit_log t).
Definition with_ssh (t : Tables) m : Tables :=
  mk_tables (profiles t) (inline_ssh t) m (sync_plans t) (destinations t) (known_hosts t) (audit_log t).
Definition with_plans (t : Tables) m : Tables :=
  mk_tables (profiles t) (inline_ssh t) (ssh_connections t) m (destinations t) (known_hosts t) (audit_log t).
Definition with_destinations (t : Tables) m : Tables :=
  mk_tables (profiles t) (inline_ssh t) (ssh_connections t) (sync_plans t) m (known_hosts t) (audit_log t).
Definition with_known_hosts (t : Tables) m : Tables :=
  mk_tables (profiles t) (inline_ssh t) (ssh_connections t) (sync_plans t) (destinations t) m (audit_log t).
Definition with_audit (t : Tables) l : Tables :=
  mk_tables (profiles t) (inline_ssh t) (ssh_connections t) (sync_plans t) (destinations t) (known_hosts t) l.

(** ** Statements *)

Section Rows.
Context {A : Type} (name : A -> string).

(** Another row has the name. *)
Definition name_in_use (m : gmap Uuid A) (n : string) (id : Uuid) : bool :=
  existsb (fun r => String.eqb (name (snd r)) n && negb (bool_decide (fst r = id))) (map_to_list m).

(** [ORDER BY name]. *)
Definition by_name (m : gmap Uuid A) : list A :=
  sort_by (fun a b => String.leb (name a) (name b)) (map snd (map_to_list m)).

(** A reference that is null or names a row. *)
Definition refers (m : gmap Uuid A) (o : option Uuid) : bool :=
  match o with None => true | Some id => is_some (m !! id) end.

Lemma name_in_use_false m n id :
  name_in_use m n id = false <-> forall id' a, m !! id' = Some a -> name a = n -> id' = id.
Proof.
  unfold name_in_use. rewrite <- not_true_iff_false, existsb_exists. split.
  - intros Hn id' a Ha Hname. destruct (decide (id' = id)) as [->|N]; [done|]. exfalso. apply Hn.
    exists (id', a). split; [by apply list_elem_of_In, elem_of_map_to_list|]. simpl.
    rewrite Hname, String.eqb_refl. by rewrite bool_decide_false.
  - intros Hall ([id' a] & Hin & Hb). simpl in Hb. apply andb_true_iff in Hb as [He%String.eqb_eq Hd].
    apply list_elem_of_In, elem_of_map_to_list in Hin. apply negb_true_iff, bool_decide_eq_false in Hd.
    by apply Hd, (Hall id' a).
Qed.

Lemma by_name_In m a : In a (by_name m) <-> exists id, m !! id = Some a.
Proof.
  unfold by_name. rewrite sort_by_in, in_map_iff. split.
  - intros ([id a'] & <- & Hin%list_elem_of_In%elem_of_map_to_list). by exists id.
  - intros (id & Ha). exists (id, a). split; [done|]. by apply list_elem_of_In, elem_of_map_to_list.
Qed.
End Rows.

(** *** profiles *)

Definition insert_profile (p : ConnectionProfile) (t : Tables) : result unit Violation * Tables :=
  if is_some (profiles t !! profile_id p) || name_in_use profile_name (profiles t) (profile_name p) (profile_id p)
  then (Err UniqueViolation, t)
  else if negb (refers (ssh_connections t) (ssh_connection_id p)) then (Err ForeignKeyViolation, t)
  else (Ok tt, with_profiles t (<[profile_id p := p]> (profiles t))).

(** [UPDATE ... WHERE id = ?]: nothing happens when the row is gone; the creation time is
    not among the columns set. *)
Definition write_profile (p : ConnectionProfile) (t : Tables) : result unit Violation * Tables :=
  match profiles t !! profile_id p with
  | None => (Ok tt, t)
  | Some old =>
      if name_in_use profile_name (profiles t) (profile_name p) (profile_id p) then (Err UniqueViolation, t)
      else if negb (refers (ssh_connections t) (ssh_connection_id p)) then (Err ForeignKeyViolation, t)
      else (Ok tt, with_profiles t (<[profile_id p :=
              mk_profile (profile_id p) (profile_name p) (profile_engine p) (environment p) (ssh_connection_id p)
                (db p) (tool_overrides p) (profile_created_at old) (profile_updated_at p)]> (profiles t)))
  end.

(** The table sets of a deleted profile go with it (ON DELETE CASCADE). *)
Definition remove_profile (id : Uuid) (t : Tables) : bool * Tables :=
  (is_some (profiles t !! id),
   with_plans (with_inline (with_profiles t (base.delete id (profiles t))) (base.delete id (inline_ssh t)))
     (filter (fun r => sp_profile_id (snd r) <> id) (sync_plans t))).

(** *** ssh_connections *)

Definition insert_ssh (c : SshConnection) (t : Tables) : result unit Violation * Tables :=
  if is_some (ssh_connections t !! ssh_id c) || name_in_use ssh_name (ssh_connections t) (ssh_name c) (ssh_id c)
  then (Err UniqueViolation, t)
  else
    let m := <[ssh_id c := c]> (ssh_connections t) in
    if negb (refers m (jump_host_id c)) then (Err ForeignKeyViolation, t) else (Ok tt, with_ssh t m).

Definition write_ssh (c : SshConnection) (t : Tables) : result unit Violation * Tables :=
  match ssh_connections t !! ssh_id c with
  | None => (Ok tt, t)
  | Some old =>
      if name_in_use ssh_name (ssh_connections t) (ssh_name c) (ssh_id c) then (Err UniqueViolation, t)
      else if negb (refers (ssh_connections t) (jump_host_id c)) then (Err ForeignKeyViolation, t)
      else (Ok tt, with_ssh t (<[ssh_id c :=
              mk_ssh (ssh_id c) (ssh_name c) (ssh_endpoint c) (jump_host_id c) (ssh_created_at old)
                (ssh_updated_at c)]> (ssh_connections t)))
  end.

Definition profiles_through (id : Uuid) (t : Tables) : list ConnectionProfile :=
  List.filter (fun p => bool_decide (ssh_connection_id p = Some id)) (by_name profile_name (profiles t)).

Definition jumping_through (id : Uuid) (t : Tables) : list SshConnection :=
  List.filter (fun c => bool_decide (jump_host_id c = Some id)) (by_name ssh_name (ssh_connections t)).

(** Refused while a row refers to it (ON DELETE RESTRICT). *)
Definition remove_ssh (id : Uuid) (t : Tables) : result bool Violation * Tables :=
  match ssh_connections t !! id with
  | None => (Ok false, t)
  | Some _ =>
      match profiles_through id t, jumping_through id t with
      | [], [] => (Ok true, with_ssh t (base.delete id (ssh_connections t)))
      | _, _ => (Err ForeignKeyViolation, t)
      end
  end.

(** *** The inline configurations of older versions *)

Definition legacy_rows (t : Tables) : list (Uuid * string * SshConfig) :=
  omap (fun p => match ssh_connection_id p with
                 | Some _ => None
                 | None => option_map (fun cfg => (profile_id p, profile_name p, cfg)) (inline_ssh t !! profile_id p)
                 end) (by_name profile_name (profiles t)).

Definition attach_row (profile connection : Uuid) (now : Z) (t : Tables) : result unit Violation * Tables :=
  match profiles t !! profile with
  | None => (Ok tt, t)
  | Some p =>
      if negb (refers (ssh_connections t) (Some connection)) then (Err ForeignKeyViolation, t)
      else (Ok tt, with_inline (with_profiles t (<[profile :=
              mk_profile (profile_id p) (profile_name p) (profile_engine p) (environment p) (Some connection)
                (db p) (tool_overrides p) (profile_created_at p) now]> (profiles t))) (base.delete profile (inline_ssh t)))
  end.

(** *** sync_plans *)

(** Another set of the same profile has the name. *)
Definition plan_name_in_use (m : gmap Uuid SyncPlan) (profile : Uuid) (n : string) (id : Uuid) : bool :=
  name_in_use sp_name (filter (fun r => sp_profile_id (snd r) = profile) m) n id.

Definition insert_plan (p : SyncPlan) (t : Tables) : result unit Violation * Tables :=
  if is_some (sync_plans t !! sp_id p) || plan_name_in_use (sync_plans t) (sp_profile_id p) (sp_name p) (sp_id p)
  then (Err UniqueViolation, t)
  else if negb (refers (profiles t) (Some (sp_profile_id p))) then (Err ForeignKeyViolation, t)
  else (Ok tt, with_plans t (<[sp_id p := p]> (sync_plans t))).

(** [UPDATE sync_plans SET ...]: the columns a statement names, by a function of the row. *)
Definition write_plan (id : Uuid) (f : SyncPlan -> SyncPlan) (t : Tables) : result unit Violation * Tables :=
  match sync_plans t !! id with
  | None => (Ok tt, t)
  | Some old =>
      let p := f old in
      if plan_name_in_use (sync_plans t) (sp_profile_id p) (sp_name p) id then (Err UniqueViolation, t)
      else (Ok tt, with_plans t (<[id := p]> (sync_plans t)))
  end.

Definition remove_plan (id : Uuid) (t : Tables) : bool * Tables :=
  (is_some (sync_plans t !! id), with_plans t (base.delete id (sync_plans t))).

Definition plans_of (profile : Uuid) (t : Tables) : list SyncPlan :=
  List.filter (fun p => bool_decide (sp_profile_id p = profile)) (by_name sp_name (sync_plans t)).

(** *** known_hosts *)

(** [ON CONFLICT DO NOTHING]. *)
Definition pin_host (host_port kind fingerprint : string) (t : Tables) : unit * Tables :=
  (tt, match known_hosts t !! host_port with
       | Some _ => t
       | None => with_known_hosts t (<[host_port := (kind, fingerprint)]> (known_hosts t))
       end).

(** [ON CONFLICT DO UPDATE]. *)
Definition repin_host (host_port kind fingerprint : string) (t : Tables) : unit * Tables :=
  (tt, with_known_hosts t (<[host_port := (kind, fingerprint)]> (known_hosts t))).

(** ** Programs *)

(** [minted] counts the ids made so far; the clock is read where the code reads it. *)
Record World := mk_world {
  tables : Tables;
  vault : Vault;
  minted : nat;
  clock : Z }.

Definition with_tables (w : World) (t : Tables) : World := mk_world t (vault w) (minted w) (clock w).
Definition with_vault (w : World) (v : Vault) : World := mk_world (tables w) v (minted w) (clock w).

Lemma with_tables_id w : with_tables w (tables w) = w.
Proof. by destruct w. Qed.

Inductive Stmt : Type -> Type :=
| Sql {A} (f : Tables -> A * Tables) : Stmt A
| Keychain {A} (f : V A) : Stmt (result A KeyError)
| NewUuid : Stmt Uuid
| Now : Stmt Z.

Inductive Db (A : Type) : Type :=
| Return (a : A)
| Do {B : Type} (s : Stmt B) (k : B -> Db A).
Arguments Return {A} a.
Arguments Do {A B} s k.

Fixpoint db_bind {A B} (m : Db A) (k : A -> Db B) : Db B :=
  match m with
  | Return a => k a
  | Do s n => Do s (fun b => db_bind (n b) k)
  end.

Definition stmt {A} (s : Stmt A) : Db A := Do s Return.

Notation "'let~' x ':=' e 'in' k" := (db_bind e (fun x => k))
  (at level 10, x pattern, e at level 100, k at level 200).

Inductive StoreError :=
| Sqlx (v : Violation)
| ProfileNotFound (id : Uuid)
| SyncPlanNotFound (id : Uuid)
| DuplicateName (name : string)
| InvalidSshConnection (e : SshConnectionError)
| OfDestination (e : StoredError)
| Secrets (e : KeyError).

Definition store_error_text `{Platform} (e : StoreError) : string :=
  match e with
  | Sqlx v => "database error: " ++ violation_text v
  | ProfileNotFound id => "no profile with id " ++ uuid_text id
  | SyncPlanNotFound id => "no sync plan with id " ++ uuid_text id
  | DuplicateName name => "a profile named " ++ str_debug name ++ " already exists"
  | InvalidSshConnection e => ssh_error_text uuid_text str_debug e
  | OfDestination (InvalidDestination e) => destination_error_text e
  | OfDestination (DestinationDuplicate name) => "a profile named " ++ str_debug name ++ " already exists"
  | OfDestination (DestinationNotFound id) => "no destination with id " ++ uuid_text id
  | Secrets e => key_error_text e
  end%string.

(** A program of the store: its [Result], and [?] between its steps. *)
Definition St (A : Type) : Type := Db (result A StoreError).

Definition ok {A} (a : A) : St A := Return (Ok a).
Definition err {A} (e : StoreError) : St A := Return (Err e).
Definition lift_st {A} (r : result A StoreError) : St A := Return r.

Definition st_bind {A B} (m : St A) (k : A -> St B) : St B :=
  db_bind m (fun r => match r with Ok a => k a | Err e => Return (Err e) end).

Notation "'let#' x ':=' e 'in' k" := (st_bind e (fun x => k))
  (at level 10, x pattern, e at level 100, k at level 200).

(** A query that only reads. *)
Definition select {A} (f : Tables -> A) : St A := let~ a := stmt (Sql (fun t => (f t, t))) in ok a.

(** A write: the unique constraint is reported by name, another one as it is. *)
Definition write {A} (f : Tables -> result A Violation * Tables) (name : string) : St A :=
  let~ r := stmt (Sql f) in
  match r with
  | Ok a => ok a
  | Err UniqueViolation => err (DuplicateName name)
  | Err v => err (Sqlx v)
  end.

(** A call to the keychain whose failure is the caller's. *)
Definition keychain_call {A} (f : V A) : St A := let~ r := stmt (Keychain f) in lift_st (map_err r Secrets).

Definition now : St Z := let~ t := stmt Now in ok t.
Definition new_uuid : St Uuid := let~ id := stmt NewUuid in ok id.

(** A loop over a list, one element after the other. *)
Fixpoint each {A S} (f : S -> A -> St S) (l : list A) (acc : S) : St S :=
  match l with
  | [] => ok acc
  | a :: l => let# acc := f acc a in each f l acc
  end.

Section Runs.
Context `{Platform}.

Definition exec {A} (s : Stmt A) : World -> A * World :=
  match s in Stmt B return World -> B * World with
  | Sql f => fun w => let '(a, t) := f (tables w) in (a, with_tables w t)
  | Keychain f => fun w => let '(a, v) := f (vault w) in (a, with_vault w v)
  | NewUuid => fun w => (new_v4 (minted w), mk_world (tables w) (vault w) (S (minted w)) (clock w))
  | Now => fun w => (clock w, w)
  end.

(** A program running alone. *)
Fixpoint run {A} (m : Db A) (w : World) : A * World :=
  match m with
  | Return a => (a, w)
  | Do s k => let '(b, w) := exec s w in run (k b) w
  end.

(** Programs taking turns: one of them does its next statement, a new one arrives, or
    time passes. *)
Inductive pool_step (requests : Db unit -> Prop) : list (Db unit) * World -> list (Db unit) * World -> Prop :=
| turn l1 l2 B (s : Stmt B) k w :
    pool_step requests (l1 ++ Do s k :: l2, w) (l1 ++ k (fst (exec s w)) :: l2, snd (exec s w))
| arrives l m w : requests m -> pool_step requests (l, w) (l ++ [m], w)
| tick l w t : pool_step requests (l, w) (l, mk_world (tables w) (vault w) (minted w) t).

(** A schedule played out: at each turn one program does its next statement. *)
Definition play_turn (p : list (Db unit) * World) (i : nat) : list (Db unit) * World :=
  match fst p !! i with
  | Some (Do s k) => (<[i := k (fst (exec s (snd p)))]> (fst p), snd (exec s (snd p)))
  | _ => p
  end.

Definition play (turns : list nat) (p : list (Db unit) * World) : list (Db unit) * World := foldl play_turn p turns.

Lemma play_steps requests turns p : rtc (pool_step requests) p (play turns p).
Proof.
  revert p. induction turns as [|i turns IH]; intros [l w]; [done|]. etransitivity; [|apply IH]. clear IH.
  unfold play_turn. simpl. destruct (l !! i) as [[a|B s k]|] eqn:E; [done| |done]. apply rtc_once.
  pose proof (take_drop_middle l i _ E) as El. rewrite (insert_take_drop _ _ _ (lookup_lt_Some _ _ _ E)).
  rewrite <- El at 1. constructor.
Qed.

Lemma arrive_all requests l w : Forall requests l -> rtc (pool_step requests) ([], w) (l, w).
Proof.
  intros Hl. induction l as [|m l IH] using rev_ind; [by constructor|]. apply Forall_app in Hl as [Hl Hm].
  etransitivity; [by apply IH|]. apply rtc_once. constructor. by inversion Hm.
Qed.

(** ** What a program does at each of its statements

    [safe R I m Q]: from any state that satisfies [I], each statement of [m] changes
    the state as [R] allows and leaves [I]; between statements nothing but [I] is
    remembered, so others may run there; and [m] returns a value that satisfies [Q]. *)

Section Safe.
Variable R : World -> World -> Prop.
Variable I : World -> Prop.

Fixpoint safe {A} (m : Db A) (Q : A -> Prop) : Prop :=
  match m with
  | Return a => Q a
  | Do s k => forall w, I w -> R w (snd (exec s w)) /\ I (snd (exec s w)) /\ safe (k (fst (exec s w))) Q
  end.

Lemma safe_mono {A} (m : Db A) (P Q : A -> Prop) : (forall a, P a -> Q a) -> safe m P -> safe m Q.
Proof. intros HPQ. induction m as [a|B s k IH]; simpl; [by apply HPQ|]. intros Hm w Hw. naive_solver. Qed.

Lemma safe_bind {A B} (m : Db A) (k : A -> Db B) (P : A -> Prop) (Q : B -> Prop) :
  safe m P -> (forall a, P a -> safe (k a) Q) -> safe (db_bind m k) Q.
Proof.
  intros Hm Hk. induction m as [a|C s n IH]; simpl in *; [by apply Hk|].
  intros w Hw. destruct (Hm w Hw) as (? & ? & ?). auto.
Qed.

Lemma safe_st {A B} (m : St A) (k : A -> St B) (P : A -> Prop) (Q : result B StoreError -> Prop) :
  safe m (fun r => match r with Ok a => P a | Err e => Q (Err e) end) ->
  (forall a, P a -> safe (k a) Q) -> safe (st_bind m k) Q.
Proof. intros Hm Hk. eapply safe_bind; [exact Hm|]. intros [a|e] Ha; [by apply Hk|done]. Qed.

Lemma safe_run {A} (m : Db A) (Q : A -> Prop) : (forall w, R w w) -> (forall a b c, R a b -> R b c -> R a c) ->
  forall w, I w -> safe m Q -> R w (snd (run m w)) /\ I (snd (run m w)) /\ Q (fst (run m w)).
Proof.
  intros Hr Ht. induction m as [a|B s k IH]; simpl; [done|]. intros w Hw Hm. specialize (Hm w Hw).
  destruct (exec s w) as [b w'] eqn:E. simpl in *. destruct Hm as (HR & HI & Hs).
  destruct (IH b w' HI Hs) as (? & ? & ?). naive_solver.
Qed.

(** The invariant survives any interleaving of requests that are safe. *)
Lemma pool_invariant (requests : Db unit -> Prop) p p' :
  (forall m, requests m -> safe m (fun _ => True)) ->
  (forall w t, I w -> I (mk_world (tables w) (vault w) (minted w) t)) ->
  rtc (pool_step requests) p p' ->
  I (snd p) /\ Forall (fun m => safe m (fun _ => True)) (fst p) ->
  I (snd p') /\ Forall (fun m => safe m (fun _ => True)) (fst p').
Proof.
  intros Hreq Htick. induction 1 as [|p q r Hs _ IH]; [done|]. intros [HI HF]. apply IH. clear IH.
  destruct Hs as [l1 l2 B s k w|l m w Hm|l w t]; simpl in *.
  - apply Forall_app in HF as [H1 H2]. apply Forall_cons in H2 as [H2 H3].
    destruct (H2 w HI) as (_ & ? & ?). split; [done|]. by apply Forall_app_2, Forall_cons.
  - split; [done|]. apply Forall_app_2; [done|]. by apply Forall_singleton, Hreq.
  - split; [by apply Htick|done].
Qed.
End Safe.

Lemma safe_weaken (R R' : World -> World -> Prop) I {A} (m : Db A) Q :
  (forall w w', R w w' -> R' w w') -> safe R I m Q -> safe R' I m Q.
Proof.
  intros HR. induction m as [a|B s k IH]; simpl; [done|]. intros Hm w Hw. destruct (Hm w Hw) as (? & ? & ?). auto.
Qed.

(** ** The same for programs of the store, over the tables alone

    [keeps P m]: [m] is safe, and what it returns, unless it is an error, satisfies [P]. *)

Section Keeps.
Variable R : Tables -> Tables -> Prop.
Variable J : Tables -> Prop.
Context (R_refl : forall t, R t t).

Definition ok_post {A} (P : A -> Prop) (r : result A StoreError) : Prop :=
  match r with Ok a => P a | Err _ => True end.

Definition keeps {A} (m : St A) (P : A -> Prop) : Prop :=
  safe (fun w w' => R (tables w) (tables w')) (fun w => J (tables w)) m (ok_post P).

Lemma keeps_ok {A} (a : A) (P : A -> Prop) : P a -> keeps (ok a) P.
Proof. done. Qed.

Lemma keeps_err {A} e (P : A -> Prop) : keeps (err e) P.
Proof. done. Qed.

Lemma keeping_lift {A} (r : result A StoreError) (P : A -> Prop) : (forall a, r = Ok a -> P a) -> keeps (lift_st r) P.
Proof. destruct r; simpl; [|done]. intros Hp. by apply Hp. Qed.

Lemma keeping_bind {A B} (m : St A) (k : A -> St B) (P : A -> Prop) (Q : B -> Prop) :
  keeps m P -> (forall a, P a -> keeps (k a) Q) -> keeps (st_bind m k) Q.
Proof.
  intros Hm Hk. unfold keeps. eapply safe_st; [|exact Hk]. eapply safe_mono; [|exact Hm]. by intros [a|e].
Qed.

Lemma keeping_mono {A} (m : St A) (P Q : A -> Prop) : (forall a, P a -> Q a) -> keeps m P -> keeps m Q.
Proof. intros Hpq. apply safe_mono. intros [a|e]; simpl; [apply Hpq|done]. Qed.

Lemma keeps_sql {A B} (f : Tables -> A * Tables) (k : A -> St B) (P : A -> Prop) (Q : B -> Prop) :
  (forall t, J t -> R t (snd (f t)) /\ J (snd (f t)) /\ P (fst (f t))) ->
  (forall a, P a -> keeps (k a) Q) -> keeps (db_bind (stmt (Sql f)) k) Q.
Proof.
  intros Hf Hk w Hw. simpl. destruct (f (tables w)) as [a t] eqn:E. destruct (Hf _ Hw) as (H1 & H2 & H3).
  rewrite E in H1, H2, H3. simpl in *. split_and!; [done|done|by apply Hk].
Qed.

Lemma keeps_select {A} (f : Tables -> A) (P : A -> Prop) : (forall t, J t -> P (f t)) -> keeps (select f) P.
Proof. intros Hf. eapply keeps_sql; [|by intros a; apply keeps_ok]. simpl. auto. Qed.

Lemma keeps_write {A} (f : Tables -> result A Violation * Tables) name :
  (forall t, J t -> R t (snd (f t)) /\ J (snd (f t))) -> keeps (write f name) (fun _ => True).
Proof.
  intros Hf. eapply keeps_sql with (P := fun _ => True).
  - intros t Ht. destruct (Hf t Ht). done.
  - by intros [a|[]] _.
Qed.

Lemma keeps_stmt {A B} (s : Stmt A) (k : A -> St B) (Q : B -> Prop) :
  match s with Sql _ => False | _ => True end -> (forall a, keeps (k a) Q) -> keeps (db_bind (stmt s) k) Q.
Proof.
  intros Hs Hk w Hw. destruct s as [A f|A f| |]; simpl in *; [done| | |].
  - destruct (f (vault w)) as [a v]. simpl. split_and!; [done|done|apply Hk].
  - split_and!; [done|done|apply Hk].
  - split_and!; [done|done|apply Hk].
Qed.

Lemma keeps_now (P : Z -> Prop) : (forall z, P z) -> keeps now P.
Proof. intros Hp. apply keeps_stmt; [done|]. intros a. by apply keeps_ok. Qed.

Lemma keeps_new_uuid (P : Uuid -> Prop) : (forall z, P z) -> keeps new_uuid P.
Proof. intros Hp. apply keeps_stmt; [done|]. intros a. by apply keeps_ok. Qed.

Lemma keeps_keychain {A} (f : V A) : keeps (keychain_call f) (fun _ => True).
Proof. apply keeps_stmt; [done|]. intros a. by apply keeping_lift. Qed.

Lemma keeps_each {A S} (f : S -> A -> St S) (l : list A) (P : S -> Prop) :
  (forall s a, P s -> keeps (f s a) P) -> forall s, P s -> keeps (each f l s) P.
Proof.
  intros Hf. induction l as [|a l IH]; simpl; intros s Hs; [by apply keeps_ok|].
  eapply keeping_bind; [by apply Hf|exact IH].
Qed.

(** A program run alone. *)
Lemma keeps_run {A} (m : St A) (P : A -> Prop) w : (forall a b c, R a b -> R b c -> R a c) ->
  keeps m P -> J (tables w) ->
  R (tables w) (tables (snd (run m w))) /\ J (tables (snd (run m w))) /\ ok_post P (fst (run m w)).
Proof.
  intros Ht Hm Hw. eapply (safe_run (fun w w' => R (tables w) (tables w')) (fun w => J (tables w))); eauto.
Qed.

Lemma keeps_discard {A} (m : St A) (P : A -> Prop) :
  keeps m P -> safe (fun w w' => R (tables w) (tables w')) (fun w => J (tables w)) (db_bind m (fun _ => Return tt)) (fun _ => True).
Proof. intros Hm. eapply safe_bind; [exact Hm|done]. Qed.
End Keeps.

(** ** Running alone *)

Lemma run_bind {A B} (m : Db A) (k : A -> Db B) w :
  run (db_bind m k) w = run (k (fst (run m w))) (snd (run m w)).
Proof.
  revert w. induction m as [a|C s n IH]; simpl; intros w; [done|]. destruct (exec s w). apply IH.
Qed.

Lemma run_st {A B} (m : St A) (k : A -> St B) w :
  run (st_bind m k) w = match fst (run m w) with
                        | Ok a => run (k a) (snd (run m w))
                        | Err e => (Err e, snd (run m w))
                        end.
Proof. unfold st_bind. rewrite run_bind. by destruct (fst (run m w)). Qed.

Lemma run_st_ok {A B} (m : St A) (k : A -> St B) w a w' :
  run m w = (Ok a, w') -> run (st_bind m k) w = run (k a) w'.
Proof. intros E. by rewrite run_st, E. Qed.

Lemma run_st_err {A B} (m : St A) (k : A -> St B) w e w' :
  run m w = (Err e, w') -> run (st_bind m k) w = (Err e, w').
Proof. intros E. by rewrite run_st, E. Qed.

Lemma run_select {A} (f : Tables -> A) w : run (select f) w = (Ok (f (tables w)), w).
Proof. by destruct w as [t v n c]. Qed.

Lemma run_write_ok {A} (f : Tables -> result A Violation * Tables) name w a t :
  f (tables w) = (Ok a, t) -> run (write f name) w = (Ok a, with_tables w t).
Proof. intros E. unfold write, stmt. simpl. by rewrite E. Qed.

Lemma run_now w : run now w = (Ok (clock w), w).
Proof. done. Qed.

Lemma run_new_uuid w :
  run new_uuid w = (Ok (new_v4 (minted w)), mk_world (tables w) (vault w) (S (minted w)) (clock w)).
Proof. done. Qed.
End Runs.
