(* ===== verification/Rows.v ===== *)
(** * Rows: how the store writes its records down (engine/src/store.rs)

    Each record of the store as the row its INSERT writes, and as what reading a
    row makes of it.  The tables of [Database] hold records; this file is why: what
    is written is read back the same.

    A row is its columns by name.  UUIDs, instants and JSON have a text each in
    their crates; those are the classes [RowText] and [JsonText], with the round trip
    each crate promises.  A column of the wrong type ends the task; here it is
    [BadColumn]. *)

From Stdlib Require Import ZArith Lia Ascii String List Bool.
From Stdlib Require DecimalString DecimalN DecimalPos DecimalZ.
From stdpp Require Import base list gmap strings.
From S2P Require Import Prelude Text Time Domain Sql Retention Backup Restore Mask Plan Cron Schedule.
From S2P Require Import Job Step Pipeline Destination Ssh Database.
Import ListNotations.

Open Scope string_scope.
Open Scope list_scope.
Open Scope Z_scope.

(** ** Rows *)

Inductive Value := VNull | VText (s : string) | VInt (n : Z).

Definition TableRow := list (string * Value).

Inductive ReadError := Corrupt (field source : string) | BadColumn (column : string).

Definition corrupt {A} (field : string) (r : result A string) : result A ReadError :=
  map_err r (Corrupt field).

Definition column (r : TableRow) (c : string) : option Value :=
  match List.find (fun kv => String.eqb kv.1 c) r with Some kv => Some kv.2 | None => None end.

(** [row.get::<String>], [row.get::<Option<String>>], [row.get::<i64>], [row.get::<bool>]. *)
Definition get_text (r : TableRow) (c : string) : result string ReadError :=
  match column r c with Some (VText s) => Ok s | _ => Err (BadColumn c) end.
Definition opt_cell (c : string) (v : option Value) : result (option string) ReadError :=
  match v with
  | Some VNull => Ok None
  | Some (VText s) => Ok (Some s)
  | _ => Err (BadColumn c)
  end.
Definition get_opt (r : TableRow) (c : string) : result (option string) ReadError := opt_cell c (column r c).
Definition get_int (r : TableRow) (c : string) : result Z ReadError :=
  match column r c with Some (VInt n) => Ok n | _ => Err (BadColumn c) end.
Definition get_bool (r : TableRow) (c : string) : result bool ReadError :=
  let? n := get_int r c in Ok (negb (n =? 0)).

(** An UPDATE: the columns set, the others as they were. *)
Definition set_columns (r : TableRow) (sets : list (string * Value)) : TableRow :=
  map (fun kv => match column sets kv.1 with Some v => (kv.1, v) | None => kv end) r.

(** ** Texts *)

Class RowText := {
  show_uuid : Uuid -> string;
  read_uuid : string -> result Uuid string;
  show_time : Z -> string;                (* to_rfc3339 *)
  read_time : string -> result Z string;
  rfc_range : Z -> Prop }.                (* the years RFC 3339 can write *)

Class RowTextOk `{RowText} : Prop := {
  uuid_round u : read_uuid (show_uuid u) = Ok u;
  time_round t : rfc_range t -> read_time (show_time t) = Ok t }.

Class JsonText (A : Type) := {
  to_json : A -> result string string;
  from_json : string -> result A string }.

Class JsonTextOk (A : Type) `{JsonText A} : Prop := {
  json_round a s : to_json a = Ok s -> from_json s = Ok a }.

Definition opt_text (o : option string) : Value := match o with Some s => VText s | None => VNull end.
Definition bool_value (b : bool) : Value := VInt (if b then 1 else 0).

(** [map(|s| parse(s)).transpose()?]. *)
Definition transpose {A E} (f : string -> result A E) (o : option string) : result (option A) E :=
  match o with Some s => let? a := f s in Ok (Some a) | None => Ok None end.

Definition job_kind_str (k : JobKind) : string :=
  match k with KindBackup => "backup" | KindRestore => "restore" | KindVerify => "verify" | Domain.KindSync => "sync" end.
Definition parse_job_kind (s : string) : option JobKind :=
  match_str s [("backup", KindBackup); ("restore", KindRestore); ("verify", KindVerify); ("sync", Domain.KindSync)].
Definition parse_outcome (s : string) : option JobOutcome :=
  match_str s [("success", Success); ("failed", Failed); ("cancelled", Cancelled)].

Section Codecs.
Context `{RowText}.
Variable str_debug : string -> string.
Variable parse_enum_text : ParseEnumError -> string.
Variable cron_error_text : CronError -> string.

Definition parse_uuid (field s : string) : result Uuid ReadError := corrupt field (read_uuid s).
Definition parse_ts (field s : string) : result Z ReadError := corrupt field (read_time s).

Definition get_uuid (r : TableRow) (c : string) : result Uuid ReadError :=
  let? s := get_text r c in parse_uuid c s.
Definition get_ts (r : TableRow) (c : string) : result Z ReadError :=
  let? s := get_text r c in parse_ts c s.
Definition get_opt_uuid (r : TableRow) (c : string) : result (option Uuid) ReadError :=
  let? o := get_opt r c in transpose (parse_uuid c) o.
Definition get_opt_ts (r : TableRow) (c : string) : result (option Z) ReadError :=
  let? o := get_opt r c in transpose (parse_ts c) o.
Definition get_json {A} `{JsonText A} (r : TableRow) (c : string) : result A ReadError :=
  let? s := get_text r c in corrupt c (from_json s).

Definition uuid_value (u : Uuid) : Value := VText (show_uuid u).
Definition time_value (t : Z) : Value := VText (show_time t).
Definition opt_uuid (o : option Uuid) : Value := match o with Some u => uuid_value u | None => VNull end.
Definition opt_time (o : option Z) : Value := match o with Some t => time_value t | None => VNull end.

Definition json_value {A} `{JsonText A} (field : string) (a : A) : result Value ReadError :=
  let? s := corrupt field (to_json a) in Ok (VText s).

(** ** Profiles *)

Definition PROFILE_COLUMNS : list string :=
  ["id"; "name"; "engine"; "environment"; "ssh_connection_id"; "db_config"; "tool_overrides";
   "created_at"; "updated_at"].

Definition profile_row `{JsonText DbConfig, JsonText ToolOverrides} (p : ConnectionProfile) : result TableRow ReadError :=
  let? db_config := json_value "db_config" (db p) in
  let? tools := json_value "tool_overrides" (tool_overrides p) in
  Ok [("id", uuid_value (profile_id p)); ("name", VText (profile_name p));
      ("engine", VText (engine_as_str (profile_engine p)));
      ("environment", VText (environment_as_str (environment p)));
      ("ssh_connection_id", opt_uuid (ssh_connection_id p)); ("db_config", db_config);
      ("tool_overrides", tools); ("created_at", time_value (profile_created_at p));
      ("updated_at", time_value (profile_updated_at p)); ("ssh_config", VNull)].

Definition row_to_profile `{JsonText DbConfig, JsonText ToolOverrides} (r : TableRow)
    : result ConnectionProfile ReadError :=
  let? ssh_raw := get_opt r "ssh_connection_id" in
  let? tools_raw := get_text r "tool_overrides" in
  let? db_raw := get_text r "db_config" in
  let? id := get_uuid r "id" in
  let? name := get_text r "name" in
  let? engine_raw := get_text r "engine" in
  let? engine := corrupt "engine" (map_err (engine_from_str engine_raw) parse_enum_text) in
  let? env_raw := get_text r "environment" in
  let? env := corrupt "environment" (map_err (environment_from_str env_raw) parse_enum_text) in
  let? ssh := transpose (parse_uuid "ssh_connection_id") ssh_raw in
  let? db := corrupt "db_config" (from_json db_raw) in
  let? tools := corrupt "tool_overrides" (from_json tools_raw) in
  let? created := get_ts r "created_at" in
  let? updated := get_ts r "updated_at" in
  Ok (mk_profile id name engine env ssh db tools created updated).

(** The columns an edit of a profile sets. *)
Definition update_profile_columns `{JsonText DbConfig, JsonText ToolOverrides} (p : ConnectionProfile)
    : result (list (string * Value)) ReadError :=
  let? db_config := json_value "db_config" (db p) in
  let? tools := json_value "tool_overrides" (tool_overrides p) in
  Ok [("name", VText (profile_name p)); ("engine", VText (engine_as_str (profile_engine p)));
      ("environment", VText (environment_as_str (environment p)));
      ("ssh_connection_id", opt_uuid (ssh_connection_id p)); ("db_config", db_config);
      ("tool_overrides", tools); ("updated_at", time_value (profile_updated_at p))].

(** ** Pipelines *)

Definition PIPELINE_COLUMNS : list string :=
  ["id"; "name"; "steps_json"; "unattended_ack"; "created_at"; "updated_at"].

Definition pipeline_row `{JsonText (list PipelineStep)} (p : Pipeline) : result TableRow ReadError :=
  let? steps := json_value "steps_json" (p_steps p) in
  Ok [("id", uuid_value (p_id p)); ("name", VText (p_name p)); ("steps_json", steps);
      ("unattended_ack", opt_text (unattended_ack p)); ("created_at", time_value (p_created_at p));
      ("updated_at", time_value (p_updated_at p))].

Definition row_to_pipeline `{JsonText (list PipelineStep)} (r : TableRow) : result Pipeline ReadError :=
  let? steps_raw := get_text r "steps_json" in
  let? id := get_uuid r "id" in
  let? name := get_text r "name" in
  let? steps := corrupt "steps_json" (from_json steps_raw) in
  let? ack := get_opt r "unattended_ack" in
  let? created := get_ts r "created_at" in
  let? updated := get_ts r "updated_at" in
  Ok (mk_pipeline id name steps ack created updated).

(** ** Jobs and their steps *)

Definition JOB_STEP_COLUMNS : list string :=
  ["job_id"; "idx"; "kind"; "label"; "started_at"; "finished_at"; "outcome"; "detail_json"].

(** A planned step: the columns not named take their defaults. *)
Definition step_row (id : Uuid) (i : Z) (kind : JobStepKind) (label : string) : TableRow :=
  [("job_id", uuid_value id); ("idx", VInt i); ("kind", VText (kind_as_str kind)); ("label", VText label);
   ("started_at", VNull); ("finished_at", VNull); ("outcome", VNull); ("detail_json", VText "{}")].

Definition row_to_job_step `{JsonText JobStepDetail} (r : TableRow) : result JobStep ReadError :=
  let? kind_raw := get_text r "kind" in
  let? started_raw := get_opt r "started_at" in
  let? finished_raw := get_opt r "finished_at" in
  let? outcome_raw := get_opt r "outcome" in
  let? detail_raw := get_text r "detail_json" in
  let? id := get_uuid r "job_id" in
  let? idx := get_int r "idx" in
  let? kind := ok_or (kind_parse kind_raw) (Corrupt "kind" ("unknown step kind " ++ str_debug kind_raw)%string) in
  let? label := get_text r "label" in
  let? started := transpose (parse_ts "started_at") started_raw in
  let? finished := transpose (parse_ts "finished_at") finished_raw in
  Ok (mk_step id (wrap 32 idx) kind label started finished
        (match outcome_raw with Some s => step_outcome_parse s | None => None end)
        (match from_json detail_raw with Ok d => d | Err _ => no_detail end)).

Definition job_row (j : JobRecord) : TableRow :=
  [("id", uuid_value (job_record_id j)); ("kind", VText (job_kind_str (job_kind j)));
   ("source_profile_id", uuid_value (source_profile j)); ("dest_profile_id", opt_uuid (dest_profile_id j));
   ("started_at", time_value (job_started_at j)); ("finished_at", opt_time (job_finished_at j));
   ("outcome", opt_text (option_map outcome_as_str (job_outcome j)));
   ("artifact_path", opt_text (job_artifact_path j)); ("options_json", VText (options_json j));
   ("log", VText (job_log j))].

Definition row_to_job (r : TableRow) : result JobRecord ReadError :=
  let? finished_raw := get_opt r "finished_at" in
  let? outcome_raw := get_opt r "outcome" in
  let? dest_raw := get_opt r "dest_profile_id" in
  let? kind_raw := get_text r "kind" in
  let? id := get_uuid r "id" in
  let? kind := ok_or (parse_job_kind kind_raw) (Corrupt "kind" ("unknown job kind " ++ str_debug kind_raw)%string) in
  let? source := get_uuid r "source_profile_id" in
  let? dest := transpose (parse_uuid "dest_profile_id") dest_raw in
  let? started := get_ts r "started_at" in
  let? finished := transpose (parse_ts "finished_at") finished_raw in
  let? artifact := get_opt r "artifact_path" in
  let? options := get_text r "options_json" in
  let? log := get_text r "log" in
  Ok (mk_job id kind source dest started finished
        (match outcome_raw with Some s => parse_outcome s | None => None end) artifact options log).

(** ** Table sets *)

Definition plan_row `{JsonText (list TableSelection), JsonText (list MaskRule)} (p : SyncPlan)
    : result TableRow ReadError :=
  let? selections := json_value "table_selections" (sp_selections p) in
  let? masking := json_value "masking" (sp_masking p) in
  Ok [("id", uuid_value (sp_id p)); ("profile_id", uuid_value (sp_profile_id p)); ("name", VText (sp_name p));
      ("database_name", VText (sp_database p)); ("table_selections", selections); ("masking", masking);
      ("revision", VInt (sp_revision p)); ("created_at", time_value (sp_created_at p));
      ("updated_at", time_value (sp_updated_at p))].

Definition row_to_plan `{JsonText (list TableSelection), JsonText (list MaskRule)} (r : TableRow)
    : result SyncPlan ReadError :=
  let? selections_raw := get_text r "table_selections" in
  let? masking_raw := get_text r "masking" in
  let? id := get_uuid r "id" in
  let? profile := get_uuid r "profile_id" in
  let? name := get_text r "name" in
  let? database := get_text r "database_name" in
  let? selections := corrupt "table_selections" (from_json selections_raw) in
  let? masking := corrupt "masking" (from_json masking_raw) in
  let? revision := get_int r "revision" in
  let? created := get_ts r "created_at" in
  let? updated := get_ts r "updated_at" in
  Ok (mk_sync_plan id profile name database selections masking (wrap 32 (Z.max revision 0)) created updated).

(** ** Destinations and SSH connections *)

Definition destination_row `{JsonText DestinationKind, JsonText RetentionPolicy} (d : Destination)
    : result TableRow ReadError :=
  let? kind := json_value "kind" (dst_kind d) in
  let? retention := json_value "retention" (dst_retention d) in
  Ok [("id", uuid_value (dst_id d)); ("name", VText (dst_name d)); ("kind", kind);
      ("enabled", bool_value (dst_enabled d)); ("retention", retention);
      ("created_at", time_value (dst_created_at d)); ("updated_at", time_value (dst_updated_at d))].

Definition row_to_destination `{JsonText DestinationKind, JsonText RetentionPolicy} (r : TableRow)
    : result Destination ReadError :=
  let? id := get_uuid r "id" in
  let? name := get_text r "name" in
  let? kind := get_json r "kind" in
  let? enabled := get_bool r "enabled" in
  let? retention := get_json r "retention" in
  let? created := get_ts r "created_at" in
  let? updated := get_ts r "updated_at" in
  Ok (mk_destination id name kind enabled retention created updated).

Definition ssh_row `{JsonText SshEndpoint} (c : SshConnection) : result TableRow ReadError :=
  let? endpoint := json_value "endpoint" (ssh_endpoint c) in
  Ok [("id", uuid_value (ssh_id c)); ("name", VText (ssh_name c)); ("endpoint", endpoint);
      ("jump_host_id", opt_uuid (jump_host_id c)); ("created_at", time_value (ssh_created_at c));
      ("updated_at", time_value (ssh_updated_at c))].

Definition row_to_ssh_connection `{JsonText SshEndpoint} (r : TableRow) : result SshConnection ReadError :=
  let? endpoint_raw := get_text r "endpoint" in
  let? jump_raw := get_opt r "jump_host_id" in
  let? id := get_uuid r "id" in
  let? name := get_text r "name" in
  let? endpoint := corrupt "endpoint" (from_json endpoint_raw) in
  let? jump := transpose (parse_uuid "jump_host_id") jump_raw in
  let? created := get_ts r "created_at" in
  let? updated := get_ts r "updated_at" in
  Ok (mk_ssh id name endpoint jump created updated).

(** ** Audit entries *)

Definition audit_row (e : AuditEntry) : TableRow :=
  [("id", uuid_value (au_id e)); ("at", time_value (au_at e)); ("action", VText (au_action e));
   ("subject", VText (au_subject e)); ("detail", VText (au_detail e))].

Definition row_to_audit (r : TableRow) : result AuditEntry ReadError :=
  let? id := get_uuid r "id" in
  let? at_ := get_ts r "at" in
  let? action := get_text r "action" in
  let? subject := get_text r "subject" in
  let? detail := get_text r "detail" in
  Ok (mk_audit id at_ action subject detail).

(** ** Schedules *)

Definition SCHEDULE_COLUMNS : list string :=
  ["id"; "name"; "kind"; "sync_plan_id"; "dest_profile_id"; "pipeline_id"; "cron_expression"; "timezone";
   "enabled"; "action_json"; "webhook_url"; "notify"; "catch_up"; "last_run_at"; "last_outcome";
   "last_job_id"; "created_at"; "updated_at"].

(** A new schedule has not run: the three columns of the last run are NULL. *)
Definition schedule_row `{JsonText ScheduleAction} (s : Schedule) : result TableRow ReadError :=
  let? action := json_value "action_json" (action s) in
  Ok [("id", uuid_value (sch_id s)); ("name", VText (sch_name s));
      ("kind", VText (schedule_kind_as_str (sch_kind s))); ("sync_plan_id", opt_uuid (plan_id s));
      ("dest_profile_id", opt_uuid (sch_dest_profile_id s)); ("pipeline_id", opt_uuid (pipeline_id s));
      ("cron_expression", VText (cron_serialize (cron s)));
      ("timezone", VText (timezone_as_str (timezone s))); ("enabled", bool_value (sch_enabled s));
      ("action_json", action); ("webhook_url", opt_text (webhook_url s));
      ("notify", VText (notify_as_str (notify s))); ("catch_up", bool_value (catch_up s));
      ("created_at", time_value (sch_created_at s)); ("updated_at", time_value (sch_updated_at s));
      ("last_run_at", VNull); ("last_outcome", VNull); ("last_job_id", VNull)].

Definition row_to_schedule `{JsonText ScheduleAction} (r : TableRow) : result Schedule ReadError :=
  let? action_raw := get_text r "action_json" in
  let? cron_raw := get_text r "cron_expression" in
  let? tz_raw := get_text r "timezone" in
  let? notify_raw := get_text r "notify" in
  let? kind_raw := get_text r "kind" in
  let? plan_raw := get_opt r "sync_plan_id" in
  let? dest_raw := get_opt r "dest_profile_id" in
  let? pipeline_raw := get_opt r "pipeline_id" in
  let? last_run_raw := get_opt r "last_run_at" in
  let? last_outcome_raw := get_opt r "last_outcome" in
  let? last_job_raw := get_opt r "last_job_id" in
  let? id := get_uuid r "id" in
  let? name := get_text r "name" in
  let? kind := ok_or (schedule_kind_parse kind_raw)
                 (Corrupt "kind" ("unknown schedule kind " ++ str_debug kind_raw)%string) in
  let? plan := transpose (parse_uuid "sync_plan_id") plan_raw in
  let? dest := transpose (parse_uuid "dest_profile_id") dest_raw in
  let? pipeline := transpose (parse_uuid "pipeline_id") pipeline_raw in
  let? cron := corrupt "cron_expression" (map_err (cron_from_str cron_raw) cron_error_text) in
  let? timezone := corrupt "timezone" (map_err (timezone_from_str tz_raw) cron_error_text) in
  let? enabled := get_bool r "enabled" in
  let? action := corrupt "action_json" (from_json action_raw) in
  let? webhook := get_opt r "webhook_url" in
  let? notify := ok_or (notify_parse notify_raw) (Corrupt "notify" ("unknown policy " ++ str_debug notify_raw)%string) in
  let? catch_up := get_bool r "catch_up" in
  let? last_run := transpose (parse_ts "last_run_at") last_run_raw in
  let last_outcome := match last_outcome_raw with Some s => parse_outcome s | None => None end in
  let? last_job := transpose (parse_uuid "last_job_id") last_job_raw in
  let? created := get_ts r "created_at" in
  let? updated := get_ts r "updated_at" in
  Ok (mk_schedule id name kind plan dest pipeline cron timezone enabled action webhook notify catch_up
        last_run last_outcome last_job created updated).

(** The columns an edit of a schedule sets, and those a run sets. *)
Definition update_schedule_columns `{JsonText ScheduleAction} (s : Schedule)
    : result (list (string * Value)) ReadError :=
  let? action := json_value "action_json" (action s) in
  Ok [("name", VText (sch_name s)); ("dest_profile_id", opt_uuid (sch_dest_profile_id s));
      ("cron_expression", VText (cron_serialize (cron s)));
      ("timezone", VText (timezone_as_str (timezone s))); ("enabled", bool_value (sch_enabled s));
      ("action_json", action); ("webhook_url", opt_text (webhook_url s));
      ("notify", VText (notify_as_str (notify s))); ("catch_up", bool_value (catch_up s));
      ("updated_at", time_value (sch_updated_at s))].

Definition mark_started_columns (occurrence : Z) (job : Uuid) : list (string * Value) :=
  [("last_run_at", time_value occurrence); ("last_job_id", uuid_value job); ("last_outcome", VNull)].

Definition mark_finished_columns (o : JobOutcome) : list (string * Value) :=
  [("last_outcome", VText (outcome_as_str o))].
End Codecs.

(** ** Lemmas *)

#[local] Arguments parse_job_kind : simpl never.
#[local] Arguments parse_outcome : simpl never.
#[local] Arguments kind_parse : simpl never.
#[local] Arguments schedule_kind_parse : simpl never.
#[local] Arguments notify_parse : simpl never.
#[local] Arguments timezone_from_str : simpl never.
#[local] Arguments cron_from_str : simpl never.

Section RoundTrips.
Context `{RowTextOk}.
Variable str_debug : string -> string.
Variable parse_enum_text : ParseEnumError -> string.
Variable cron_error_text : CronError -> string.

Lemma parse_uuid_show c u : parse_uuid c (show_uuid u) = Ok u.
Proof. unfold parse_uuid. by rewrite uuid_round. Qed.

Lemma parse_ts_show c t : rfc_range t -> parse_ts c (show_time t) = Ok t.
Proof. intros Ht. unfold parse_ts. by rewrite time_round. Qed.

Lemma opt_uuid_cell c o : opt_cell c (Some (opt_uuid o)) = Ok (option_map show_uuid o).
Proof. by destruct o. Qed.

Lemma opt_time_cell c o : opt_cell c (Some (opt_time o)) = Ok (option_map show_time o).
Proof. by destruct o. Qed.

Lemma opt_text_cell c o : opt_cell c (Some (opt_text o)) = Ok o.
Proof. by destruct o. Qed.

Lemma opt_uuid_back c o : transpose (parse_uuid c) (option_map show_uuid o) = Ok o.
Proof. destruct o as [u|]; simpl; [by rewrite parse_uuid_show|done]. Qed.

Lemma opt_time_back c o : Forall rfc_range (option_list o) -> transpose (parse_ts c) (option_map show_time o) = Ok o.
Proof. destruct o as [t|]; [|done]. intros Ht. inversion Ht. simpl. by rewrite parse_ts_show. Qed.

Lemma json_value_Ok {A} `{JsonText A, !JsonTextOk A} c (a : A) v :
  json_value c a = Ok v -> exists s, v = VText s /\ corrupt c (from_json s) = Ok a.
Proof.
  unfold json_value, corrupt. destruct (to_json a) as [s|] eqn:E; [|done]. intros [= <-].
  exists s. split; [done|]. by rewrite (json_round a s E).
Qed.

Lemma engine_back c e : corrupt c (map_err (engine_from_str (engine_as_str e)) parse_enum_text) = Ok e.
Proof. by destruct e. Qed.

Lemma environment_back c e : corrupt c (map_err (environment_from_str (environment_as_str e)) parse_enum_text) = Ok e.
Proof. by destruct e. Qed.

Lemma bool_back (b : bool) : negb ((if b then 1 else 0) =? 0) = b.
Proof. by destruct b. Qed.

Lemma job_kind_back k : parse_job_kind (job_kind_str k) = Some k.
Proof. by destruct k. Qed.

Lemma outcome_back o : parse_outcome (outcome_as_str o) = Some o.
Proof. by destruct o. Qed.

Lemma cron_back cr : (exists text, cron_from_str text = Ok cr) -> cron_from_str (cron_serialize cr) = Ok cr.
Proof. intros [text Ht]. by destruct (cron_serde_round_trip text cr Ht) as [_ Hs]. Qed.

Lemma kind_back k : schedule_kind_parse (schedule_kind_as_str k) = Some k.
Proof. by destruct k. Qed.

Lemma notify_back n : notify_parse (notify_as_str n) = Some n.
Proof. by destruct n. Qed.

Lemma timezone_back z : timezone_from_str (timezone_as_str z) = Ok z.
Proof. by destruct z. Qed.

Lemma step_kind_back k : kind_parse (kind_as_str k) = Some k.
Proof. by destruct k. Qed.

Lemma job_outcome_back o :
  match option_map outcome_as_str o with Some s => parse_outcome s | None => None end = o.
Proof. destruct o as [[]|]; done. Qed.

(** The fields of the records. *)
Ltac fields := cbn [profile_id profile_name profile_engine environment ssh_connection_id db tool_overrides
  profile_created_at profile_updated_at p_id p_name p_steps unattended_ack p_created_at p_updated_at
  job_record_id job_kind source_profile dest_profile_id job_started_at job_finished_at job_outcome
  job_artifact_path options_json job_log sp_id sp_profile_id sp_name sp_database sp_selections sp_masking
  sp_revision sp_created_at sp_updated_at dst_id dst_name dst_kind dst_enabled dst_retention dst_created_at
  dst_updated_at ssh_id ssh_name ssh_endpoint jump_host_id ssh_created_at ssh_updated_at au_id au_at au_action
  au_subject au_detail sch_id sch_name sch_kind plan_id sch_dest_profile_id pipeline_id cron timezone
  sch_enabled action webhook_url notify catch_up last_run_at last_outcome last_job_id sch_created_at
  sch_updated_at] in *.

(** Every column is found where the row has it. *)
Ltac find_columns :=
  unfold get_uuid, get_ts, get_bool, get_json, get_text, get_opt, get_int, set_columns, column;
  cbn [List.find map String.eqb Ascii.eqb Bool.eqb fst snd andb].

(** Read the columns of a row back, one after the other. *)
Ltac read_back :=
  rewrite ?opt_uuid_cell, ?opt_time_cell, ?opt_text_cell; unfold uuid_value, time_value, bool_value;
  repeat (cbn [rbind ok_or map_err];
          first [rewrite parse_uuid_show | rewrite parse_ts_show by done | rewrite opt_uuid_back
                |rewrite opt_time_back by done | rewrite engine_back
                |rewrite environment_back | rewrite bool_back | rewrite job_kind_back | rewrite step_kind_back
                |rewrite kind_back | rewrite notify_back | rewrite timezone_back | rewrite cron_back by done
                |rewrite job_outcome_back
                | match goal with E : corrupt ?c (from_json ?s) = Ok _ |- context [corrupt ?c (from_json ?s)] => rewrite E end]).

(** The instants of a record can each be written. *)
Ltac instants := repeat match goal with
    | E : Forall _ (_ :: _) |- _ => apply List.Forall_cons_iff in E as [? E]
    | E : Forall _ (_ ++ _) |- _ => apply List.Forall_app in E as [? E]
    end.

(** The JSON columns of a row, as texts that read back. *)
Ltac stored :=
  repeat match goal with
    | E : rbind (json_value _ _) _ = Ok _ |- _ =>
        let t := fresh "t" in apply rbind_Ok in E as (? & (t & -> & ?)%json_value_Ok & E)
    | E : Ok _ = Ok _ |- _ => injection E as <-
    end.

Context `{JsonText DbConfig, !JsonTextOk DbConfig, JsonText ToolOverrides, !JsonTextOk ToolOverrides}.

Lemma profile_reads_back p r :
  profile_row p = Ok r -> Forall rfc_range [profile_created_at p; profile_updated_at p] ->
  row_to_profile parse_enum_text r = Ok p.
Proof.
  unfold profile_row, row_to_profile. intros Hr Ht. stored. instants. find_columns.
  destruct p; fields. by read_back.
Qed.

Lemma profile_edit_reads_back old p r sets :
  profile_row old = Ok r -> update_profile_columns p = Ok sets ->
  profile_id p = profile_id old -> profile_created_at p = profile_created_at old ->
  Forall rfc_range [profile_created_at p; profile_updated_at p] ->
  row_to_profile parse_enum_text (set_columns r sets) = Ok p.
Proof.
  unfold profile_row, update_profile_columns, row_to_profile. intros Hr Hs Hi Hc Ht. stored. instants.
  find_columns. destruct p; fields. subst. by read_back.
Qed.

Lemma pipeline_reads_back `{JsonText (list PipelineStep), !JsonTextOk (list PipelineStep)} p r :
  pipeline_row p = Ok r -> Forall rfc_range [p_created_at p; p_updated_at p] -> row_to_pipeline r = Ok p.
Proof.
  unfold pipeline_row, row_to_pipeline. intros Hr Ht. stored. instants. find_columns.
  destruct p; fields. by read_back.
Qed.

Lemma job_reads_back j :
  Forall rfc_range (job_started_at j :: option_list (job_finished_at j)) ->
  row_to_job str_debug (job_row j) = Ok j.
Proof.
  intros Ht. unfold row_to_job, job_row. instants. find_columns. destruct j; fields. by read_back.
Qed.

Lemma step_reads_back `{JsonText JobStepDetail} id i kind label :
  0 <= i < 2 ^ 32 ->
  row_to_job_step str_debug (step_row id i kind label)
  = Ok (mk_step id i kind label None None None
          (match from_json "{}" with Ok d => d | Err _ => no_detail end)).
Proof.
  intros Hi. unfold row_to_job_step, step_row. find_columns. cbn [opt_cell transpose]. read_back.
  cbn [transpose rbind]. unfold wrap. by rewrite Z.mod_small.
Qed.

Lemma plan_reads_back `{JsonText (list TableSelection), !JsonTextOk (list TableSelection),
    JsonText (list MaskRule), !JsonTextOk (list MaskRule)} p r :
  plan_row p = Ok r -> 0 <= sp_revision p < 2 ^ 32 ->
  Forall rfc_range [sp_created_at p; sp_updated_at p] -> row_to_plan r = Ok p.
Proof.
  unfold plan_row, row_to_plan. intros Hr Hv Ht. stored. instants. find_columns.
  destruct p; fields. read_back. unfold wrap. by rewrite Z.max_l, Z.mod_small by lia.
Qed.

Lemma destination_reads_back `{JsonText DestinationKind, !JsonTextOk DestinationKind,
    JsonText RetentionPolicy, !JsonTextOk RetentionPolicy} d r :
  destination_row d = Ok r -> Forall rfc_range [dst_created_at d; dst_updated_at d] ->
  row_to_destination r = Ok d.
Proof.
  unfold destination_row, row_to_destination. intros Hr Ht. stored. instants. find_columns.
  destruct d; fields. by read_back.
Qed.

Lemma ssh_reads_back `{JsonText SshEndpoint, !JsonTextOk SshEndpoint} c r :
  ssh_row c = Ok r -> Forall rfc_range [ssh_created_at c; ssh_updated_at c] ->
  row_to_ssh_connection r = Ok c.
Proof.
  unfold ssh_row, row_to_ssh_connection. intros Hr Ht. stored. instants. find_columns.
  destruct c; fields. by read_back.
Qed.

Lemma audit_reads_back e : rfc_range (au_at e) -> row_to_audit (audit_row e) = Ok e.
Proof. intros Ht. unfold row_to_audit, audit_row. find_columns. destruct e; fields. by read_back. Qed.

(** A schedule as it can be stored: its expression was parsed, its instants can be
    written. *)
Definition storable (s : Schedule) : Prop :=
  (exists text, cron_from_str text = Ok (cron s))
  /\ Forall rfc_range [sch_created_at s; sch_updated_at s].

Definition never_run (s : Schedule) : Prop :=
  last_run_at s = None /\ last_outcome s = None /\ last_job_id s = None.

Context `{JsonText ScheduleAction, !JsonTextOk ScheduleAction}.

(** The columns of a run that was not, or was. *)
Ltac run_columns :=
  cbn [opt_cell transpose option_map rbind]; read_back; cbn [opt_cell transpose option_map rbind];
  rewrite ?outcome_back; read_back; rewrite ?outcome_back.

Lemma schedule_reads_back s r :
  schedule_row s = Ok r -> storable s -> never_run s ->
  row_to_schedule str_debug cron_error_text r = Ok s.
Proof.
  unfold schedule_row, row_to_schedule. intros Hr [Hc Ht] (Hl & Ho & Hj). stored. instants. find_columns.
  destruct s; fields. subst. read_back. by run_columns.
Qed.

Lemma schedule_edit_reads_back old s r sets :
  schedule_row old = Ok r -> update_schedule_columns s = Ok sets -> storable s -> never_run s ->
  sch_id s = sch_id old -> sch_kind s = sch_kind old -> plan_id s = plan_id old ->
  pipeline_id s = pipeline_id old -> sch_created_at s = sch_created_at old ->
  row_to_schedule str_debug cron_error_text (set_columns r sets) = Ok s.
Proof.
  unfold schedule_row, update_schedule_columns, row_to_schedule.
  intros Hr Hs [Hc Ht] (Hl & Ho & Hj) E1 E2 E3 E4 E5. stored. instants. find_columns.
  destruct s; fields. subst. read_back. by run_columns.
Qed.

Lemma run_reads_back s r occurrence job o :
  schedule_row s = Ok r -> storable s -> rfc_range occurrence ->
  row_to_schedule str_debug cron_error_text
    (set_columns (set_columns r (mark_started_columns occurrence job)) (mark_finished_columns o))
  = Ok (finished_mark o (started_mark occurrence job s)).
Proof.
  unfold schedule_row, row_to_schedule, mark_started_columns, mark_finished_columns,
    finished_mark, started_mark.
  intros Hr [Hc Ht] Hoc. stored. instants. find_columns. destruct s; fields. read_back. by run_columns.
Qed.
End RoundTrips.

(** ** Properties *)

(** C36: what the store wrote is what it reads.  A profile, a pipeline, a table set, a
    destination, an SSH connection, a schedule that has not run, a job and an audit
    entry are each read back from their row as they were; the texts of identifiers,
    instants and JSON are those of their crates, whose round trips are assumed. *)
Theorem rows_read_back `{RowTextOk}
    `{JsonText DbConfig, !JsonTextOk DbConfig, JsonText ToolOverrides, !JsonTextOk ToolOverrides,
      JsonText (list PipelineStep), !JsonTextOk (list PipelineStep),
      JsonText (list TableSelection), !JsonTextOk (list TableSelection),
      JsonText (list MaskRule), !JsonTextOk (list MaskRule),
      JsonText DestinationKind, !JsonTextOk DestinationKind, JsonText RetentionPolicy, !JsonTextOk RetentionPolicy,
      JsonText SshEndpoint, !JsonTextOk SshEndpoint, JsonText ScheduleAction, !JsonTextOk ScheduleAction}
    str_debug enum_text cron_text :
  (forall p r, profile_row p = Ok r -> Forall rfc_range [profile_created_at p; profile_updated_at p] ->
     row_to_profile enum_text r = Ok p)
  /\ (forall p r, pipeline_row p = Ok r -> Forall rfc_range [p_created_at p; p_updated_at p] ->
     row_to_pipeline r = Ok p)
  /\ (forall p r, plan_row p = Ok r -> 0 <= sp_revision p < 2 ^ 32 ->
     Forall rfc_range [sp_created_at p; sp_updated_at p] -> row_to_plan r = Ok p)
  /\ (forall d r, destination_row d = Ok r -> Forall rfc_range [dst_created_at d; dst_updated_at d] ->
     row_to_destination r = Ok d)
  /\ (forall c r, ssh_row c = Ok r -> Forall rfc_range [ssh_created_at c; ssh_updated_at c] ->
     row_to_ssh_connection r = Ok c)
  /\ (forall s r, schedule_row s = Ok r -> storable s -> never_run s ->
     row_to_schedule str_debug cron_text r = Ok s)
  /\ (forall j, Forall rfc_range (job_started_at j :: option_list (job_finished_at j)) ->
     row_to_job str_debug (job_row j) = Ok j)
  /\ (forall e, rfc_range (au_at e) -> row_to_audit (audit_row e) = Ok e).
Proof.
  split_and!.
  - intros; by apply profile_reads_back.
  - intros; by apply pipeline_reads_back.
  - intros; by apply plan_reads_back.
  - intros; by apply destination_reads_back.
  - intros; by apply ssh_reads_back.
  - intros; by apply schedule_reads_back.
  - intros; by apply job_reads_back.
  - intros; by apply audit_reads_back.
Qed.

(** A run and an edit change what they say and nothing else.  The UPDATE of an
    edited profile or schedule, over the row that was there, reads back as the
    edited record; the two that a run writes read back as the schedule that
    [Schedule.started_mark] and then [finished_mark] make of it. *)
Theorem updates_read_back `{RowTextOk}
    `{JsonText DbConfig, !JsonTextOk DbConfig, JsonText ToolOverrides, !JsonTextOk ToolOverrides,
      JsonText ScheduleAction, !JsonTextOk ScheduleAction} str_debug enum_text cron_text :
  (forall old p r sets, profile_row old = Ok r -> update_profile_columns p = Ok sets ->
     profile_id p = profile_id old -> profile_created_at p = profile_created_at old ->
     Forall rfc_range [profile_created_at p; profile_updated_at p] ->
     row_to_profile enum_text (set_columns r sets) = Ok p)
  /\ (forall old s r sets, schedule_row old = Ok r -> update_schedule_columns s = Ok sets ->
     storable s -> never_run s -> sch_id s = sch_id old -> sch_kind s = sch_kind old ->
     plan_id s = plan_id old -> pipeline_id s = pipeline_id old -> sch_created_at s = sch_created_at old ->
     row_to_schedule str_debug cron_text (set_columns r sets) = Ok s)
  /\ (forall s r occurrence job o, schedule_row s = Ok r -> storable s -> rfc_range occurrence ->
     row_to_schedule str_debug cron_text
       (set_columns (set_columns r (mark_started_columns occurrence job)) (mark_finished_columns o))
     = Ok (finished_mark o (started_mark occurrence job s))).
Proof.
  split_and!.
  - intros; by eapply profile_edit_reads_back.
  - intros; by eapply schedule_edit_reads_back.
  - intros; by apply run_reads_back.
Qed.

(** Corruption never lifts a protection.  A table set that is read at all has the
    masking rules its column holds, never none for want of reading them; a profile
    that is read without a server had none written. *)
Theorem corruption_lifts_no_protection `{RowText}
    `{JsonText DbConfig, JsonText ToolOverrides, JsonText (list TableSelection), JsonText (list MaskRule)}
    enum_text r :
  (forall p, row_to_plan r = Ok p ->
     exists text, column r "masking" = Some (VText text) /\ from_json text = Ok (sp_masking p))
  /\ (forall p, row_to_profile enum_text r = Ok p -> ssh_connection_id p = None ->
     column r "ssh_connection_id" = Some VNull).
Proof.
  split; intros p.
  - unfold row_to_plan, corrupt, get_text at 2. intros Hr. inv_ok. cbn [sp_masking].
    destruct (column r "masking") as [[]|]; try done. inv_ok. by eexists.
  - unfold row_to_profile, get_opt, corrupt. intros Hr Hn. inv_ok. cbn [ssh_connection_id] in Hn.
    destruct (column r "ssh_connection_id") as [[|s|]|]; try done. inv_ok.
    cbn [opt_cell] in *. inv_ok. cbn [transpose] in *. inv_ok.
Qed.

(** ** Witnesses *)

(** Identifiers and instants in decimal. *)
#[local] Instance decimal : RowText := {|
  show_uuid u := DecimalString.NilZero.string_of_uint (N.to_uint u);
  read_uuid s := ok_or (option_map N.of_uint (DecimalString.NilZero.uint_of_string s)) "not an identifier";
  show_time t := DecimalString.NilZero.string_of_int (Z.to_int t);
  read_time s := ok_or (option_map Z.of_int (DecimalString.NilZero.int_of_string s)) "not an instant";
  rfc_range _ := True |}.

#[local] Instance decimal_ok : RowTextOk.
Proof.
  split; cbn [read_uuid show_uuid read_time show_time decimal].
  - intros u. rewrite DecimalString.NilZero.usu; [cbn [option_map ok_or]; by rewrite DecimalN.Unsigned.of_to|].
    destruct u as [|u]; [done|]. apply DecimalPos.Unsigned.to_uint_nonnil.
  - intros t _. rewrite DecimalString.NilZero.isi; [cbn [option_map ok_or]; by rewrite DecimalZ.of_to| |];
      destruct t as [|t|t]; try done; cbn [Z.to_int]; intros [= E]; by apply DecimalPos.Unsigned.to_uint_nonnil in E.
Qed.

(** A codec of one value. *)
Definition one_json {A} `{EqDecision A} (v : A) : JsonText A := {|
  to_json a := if decide (a = v) then Ok "{}" else Err "another value";
  from_json _ := Ok v |}.

Lemma one_json_ok {A} `{EqDecision A} (v : A) : JsonTextOk A (H := one_json v).
Proof. split. cbn [to_json from_json one_json]. intros a s. case_decide; by subst. Qed.

(** A codec of the empty list. *)
Definition empty_json {A} : JsonText (list A) := {|
  to_json l := match l with [] => Ok "[]" | _ => Err "not empty" end;
  from_json _ := Ok [] |}.

Lemma empty_json_ok {A} : JsonTextOk (list A) (H := empty_json).
Proof. split. by intros [|x l] s. Qed.

#[local] Instance DbConfig_eq : EqDecision DbConfig.
Proof. solve_decision. Defined.
#[local] Instance ToolOverrides_eq : EqDecision ToolOverrides.
Proof. solve_decision. Defined.
#[local] Instance S3Destination_eq : EqDecision S3Destination.
Proof. solve_decision. Defined.
#[local] Instance DestinationKind_eq : EqDecision DestinationKind.
Proof. solve_decision. Defined.
#[local] Instance RetentionPolicy_eq : EqDecision RetentionPolicy.
Proof. solve_decision. Defined.

Definition shop_db : DbConfig := mk_db "db.internal" 3306 "app" (Some "shop").
Definition shop : ConnectionProfile := mk_profile 7 "shop" Mysql Staging (Some 3%N) shop_db no_tools 1700000000 1700000060.
Definition offsite : Destination :=
  mk_destination 8 "offsite" (DS3 (mk_s3 "https://s3.example" "eu-1" "backups" "shop" false "AKIA")) true
    (mk_policy (Some 7) None) 1700000000 1700000000.
Definition bastion : SshConnection := mk_ssh 3 "bastion" (mk_endpoint "bastion" 22 "ops" AuthAgent) (Some 4%N) 5 6.

(** A plain MongoDB action, by its folder. *)
Definition mongo_action (folder : string) : ScheduleAction :=
  mk_action folder true false (BMongo (mk_mongo false None false [])) None true false None false false.
Definition every_quarter : CronExpression :=
  match cron_from_str "*/15 2 * * 1-5" with Ok c => c | Err _ => mk_cron 0 0 0 0 0 false false "" end.
Definition nightly (at_ : option Z) (o : option JobOutcome) (job : option Uuid) : Schedule :=
  mk_schedule 11 "nightly" Schedule.KindSync (Some 12%N) None None every_quarter TzUtc true (mongo_action "/backups")
    (Some "https://hooks.example/x") NotifyOnFailure true at_ o job 1700000000 1700000000.

#[local] Instance db_json : JsonText DbConfig := one_json shop_db.
#[local] Instance db_json_ok : JsonTextOk DbConfig := one_json_ok _.
#[local] Instance tools_json : JsonText ToolOverrides := one_json no_tools.
#[local] Instance tools_json_ok : JsonTextOk ToolOverrides := one_json_ok _.
#[local] Instance kind_json : JsonText DestinationKind := one_json (dst_kind offsite).
#[local] Instance kind_json_ok : JsonTextOk DestinationKind := one_json_ok _.
#[local] Instance policy_json : JsonText RetentionPolicy := one_json (dst_retention offsite).
#[local] Instance policy_json_ok : JsonTextOk RetentionPolicy := one_json_ok _.
#[local] Instance endpoint_json : JsonText SshEndpoint := one_json (ssh_endpoint bastion).
#[local] Instance endpoint_json_ok : JsonTextOk SshEndpoint := one_json_ok _.
#[local] Instance list_json {A} : JsonText (list A) := empty_json.
#[local] Instance list_json_ok {A} : JsonTextOk (list A) := empty_json_ok.

#[local] Instance action_json : JsonText ScheduleAction := {|
  to_json a :=
    match a with
    | mk_action folder true false (BMongo (mk_mongo false None false [])) None true false None false false => Ok folder
    | _ => Err "another action"
    end;
  from_json s := Ok (mongo_action s) |}.

#[local] Instance action_json_ok : JsonTextOk ScheduleAction.
Proof. split. intros a s. cbn [to_json from_json action_json]. repeat case_match; by intros [= ->]. Qed.

Definition enum_text (e : ParseEnumError) : string := "not known".
Definition cron_text (e : CronError) : string := "not a schedule".

Lemma quarter_parses : cron_from_str "*/15 2 * * 1-5" = Ok every_quarter.
Proof. by vm_compute. Qed.

Lemma nightly_storable at_ o job : storable (nightly at_ o job).
Proof. split; [eexists; exact quarter_parses|repeat constructor]. Qed.

Definition shop_row : TableRow :=
  match profile_row shop with Ok r => r | Err _ => [] end.
Definition nightly_row : TableRow :=
  match schedule_row (nightly None None None) with Ok r => r | Err _ => [] end.

Lemma shop_written : profile_row shop = Ok shop_row.
Proof. by vm_compute. Qed.

Lemma nightly_written : schedule_row (nightly None None None) = Ok nightly_row.
Proof. by vm_compute. Qed.

Definition offsite_row : TableRow := match destination_row offsite with Ok r => r | Err _ => [] end.
Definition bastion_row : TableRow := match ssh_row bastion with Ok r => r | Err _ => [] end.

Lemma offsite_written : destination_row offsite = Ok offsite_row.
Proof. by vm_compute. Qed.

Lemma bastion_written : ssh_row bastion = Ok bastion_row.
Proof. by vm_compute. Qed.

Lemma rows_read_back_witness :
  row_to_profile enum_text shop_row = Ok shop
  /\ row_to_destination offsite_row = Ok offsite
  /\ row_to_ssh_connection bastion_row = Ok bastion
  /\ row_to_schedule id cron_text nightly_row = Ok (nightly None None None).
Proof.
  destruct (rows_read_back id enum_text cron_text) as (Hp & _ & _ & Hd & Hc & Hs & _).
  split_and!.
  - apply Hp; [exact shop_written|repeat constructor].
  - apply Hd; [exact offsite_written|repeat constructor].
  - apply Hc; [exact bastion_written|repeat constructor].
  - apply Hs; [exact nightly_written|apply nightly_storable|repeat constructor].
Defined.

Lemma updates_read_back_witness :
  row_to_schedule id cron_text
    (set_columns (set_columns nightly_row (mark_started_columns 1700003600 21)) (mark_finished_columns Failed))
  = Ok (nightly (Some 1700003600) (Some Failed) (Some 21%N)).
Proof.
  destruct (updates_read_back id enum_text cron_text) as (_ & _ & Hr).
  rewrite (Hr _ _ 1700003600 21%N Failed nightly_written); [reflexivity|apply nightly_storable|exact I].
Defined.

Lemma corruption_lifts_no_protection_witness :
  exists text, column [("id", VText "1"); ("profile_id", VText "2"); ("name", VText "all");
    ("database_name", VText "shop"); ("table_selections", VText "[]"); ("masking", VText "[]");
    ("revision", VInt 1); ("created_at", VText "5"); ("updated_at", VText "6")] "masking" = Some (VText text)
    /\ from_json text = Ok (@nil MaskRule).
Proof.
  eapply (proj1 (corruption_lifts_no_protection enum_text _) (mk_sync_plan 1 2 "all" "shop" [] [] 1 5 6)).
  vm_compute. reflexivity.
Defined.
