(* ===== verification/Connections.v ===== *)
(** * Connections: profiles, SSH connections, table sets and pinned host keys as the store
      keeps them (engine/src/store.rs, the adoption of engine/src/sshconn.rs and the
      [forget] functions of engine/src/ops.rs)

    Each function is the program of statements the source makes; what it validates
    before a statement is validated here, in the same order. *)

From Stdlib Require Import ZArith Lia Ascii String List Bool.
From stdpp Require Import base list gmap strings relations.
From S2P Require Import Prelude Text Domain Backup Mask Plan Destination Vault Ssh Database.
Import ListNotations.
Open Scope string_scope.
Open Scope list_scope.
Open Scope Z_scope.
Open Scope dbsync_scope.

Section Store.
Context `{Platform}.

(** ** Profiles *)

Definition list_profiles : St (list ConnectionProfile) := select (fun t => by_name profile_name (profiles t)).

Definition get_profile (id : Uuid) : St (option ConnectionProfile) := select (fun t => profiles t !! id).

Definition require_profile (id : Uuid) : St ConnectionProfile :=
  let# p := get_profile id in lift_st (ok_or p (ProfileNotFound id)).

Definition profiles_using_ssh_connection (id : Uuid) : St (list ConnectionProfile) := select (profiles_through id).

Definition get_ssh_connection (id : Uuid) : St (option SshConnection) := select (fun t => ssh_connections t !! id).

Definition require_ssh_connection (id : Uuid) : St SshConnection :=
  let# c := get_ssh_connection id in lift_st (ok_or c (InvalidSshConnection (SshNotFound id))).

(** The reference a profile is to be given names a connection. *)
Definition check_reference (o : option Uuid) : St unit :=
  match o with
  | Some id => let# _ := require_ssh_connection id in ok tt
  | None => ok tt
  end.

Definition create_profile (input : ProfileCreate) : St ConnectionProfile :=
  let# _ := check_reference (pc_ssh_connection_id input) in
  let# t := now in
  let# id := new_uuid in
  let p := mk_profile id (pc_name input) (pc_engine input) (pc_environment input) (pc_ssh_connection_id input)
             (pc_db input) (pc_tool_overrides input) t t in
  let# _ := write (insert_profile p) (profile_name p) in
  ok p.

Definition patch_profile (p : ConnectionProfile) (u : ProfileUpdate) (t : Z) : ConnectionProfile :=
  mk_profile (profile_id p) (default (profile_name p) (pu_name u)) (default (profile_engine p) (pu_engine u))
    (default (environment p) (pu_environment u)) (default (ssh_connection_id p) (pu_ssh_connection_id u))
    (default (db p) (pu_db u)) (default (tool_overrides p) (pu_tool_overrides u)) (profile_created_at p) t.

Definition update_profile (id : Uuid) (u : ProfileUpdate) : St ConnectionProfile :=
  let# p := require_profile id in
  let# _ := match pu_ssh_connection_id u with Some v => check_reference v | None => ok tt end in
  let# t := now in
  let p := patch_profile p u t in
  let# _ := write (write_profile p) (profile_name p) in
  ok p.

Definition delete_profile (id : Uuid) : St bool := let~ b := stmt (Sql (remove_profile id)) in ok b.

(** ** SSH connections *)

Definition list_ssh_connections : St (list SshConnection) := select (fun t => by_name ssh_name (ssh_connections t)).

Definition ssh_connections_jumping_through (id : Uuid) : St (list SshConnection) := select (jumping_through id).

(** The single-hop rule, from both directions. *)
Definition check_jump_host (c : SshConnection) : St unit :=
  match jump_host_id c with
  | None => ok tt
  | Some jump_id =>
      if bool_decide (jump_id = ssh_id c) then err (InvalidSshConnection JumpsToItself)
      else
        let# jump := require_ssh_connection jump_id in
        if is_some (jump_host_id jump) then err (InvalidSshConnection (ChainedJump (ssh_name jump)))
        else
          let# dependents := ssh_connections_jumping_through (ssh_id c) in
          match dependents with
          | [] => ok tt
          | _ => err (InvalidSshConnection (WouldChainJump (ssh_name c) (name_list str_debug (map ssh_name dependents))))
          end
  end.

Definition create_ssh_connection (input : SshConnectionCreate) : St SshConnection :=
  let# _ := lift_st (map_err (ssh_create_validate input) InvalidSshConnection) in
  let# t := now in
  let# id := new_uuid in
  let c := mk_ssh id (trim (sc_name input)) (sc_endpoint input) (sc_jump_host_id input) t t in
  let# _ := check_jump_host c in
  let# _ := write (insert_ssh c) (ssh_name c) in
  ok c.

(** The record a patch makes of a connection, validated piece by piece. *)
Definition patch_ssh (c : SshConnection) (u : SshConnectionUpdate) (t : Z) : result SshConnection SshConnectionError :=
  let? name := match su_name u with
               | Some v => if blank v then Err NoName else Ok (trim v)
               | None => Ok (ssh_name c)
               end in
  let? endpoint := match su_endpoint u with
                   | Some v => let? _ := endpoint_validate v in Ok v
                   | None => Ok (ssh_endpoint c)
                   end in
  Ok (mk_ssh (ssh_id c) name endpoint (default (jump_host_id c) (su_jump_host_id u)) (ssh_created_at c) t).

Definition update_ssh_connection (id : Uuid) (u : SshConnectionUpdate) : St SshConnection :=
  let# c := require_ssh_connection id in
  let# t := now in
  let# c := lift_st (map_err (patch_ssh c u t) InvalidSshConnection) in
  let# _ := check_jump_host c in
  let# _ := write (write_ssh c) (ssh_name c) in
  ok c.

Definition delete_ssh_connection (id : Uuid) : St bool :=
  let# found := get_ssh_connection id in
  match found with
  | None => ok false
  | Some c =>
      let# users := profiles_using_ssh_connection id in
      let# dependents := ssh_connections_jumping_through id in
      match users, dependents with
      | [], [] => write (remove_ssh id) (ssh_name c)
      | _, _ =>
          err (InvalidSshConnection (InUse (ssh_name c)
                 (name_list str_debug (map profile_name users ++ map ssh_name dependents))))
      end
  end.

Definition resolve_ssh (id : Uuid) : St ResolvedSsh :=
  let# c := require_ssh_connection id in
  let# jump := match jump_host_id c with
               | Some jump_id => let# j := require_ssh_connection jump_id in ok (Some j)
               | None => ok None
               end in
  ok (mk_resolved_ssh c jump (mk_ssh_config (ssh_endpoint c) (option_map ssh_endpoint jump))).

Definition legacy_ssh_configs : St (list (Uuid * string * SshConfig)) := select legacy_rows.

Definition attach_ssh_connection (profile connection : Uuid) : St unit :=
  let# t := now in write (attach_row profile connection t) "".

(** ** Table sets *)

Definition list_sync_plans (profile : Uuid) : St (list SyncPlan) := select (plans_of profile).

Definition get_sync_plan (id : Uuid) : St (option SyncPlan) := select (fun t => sync_plans t !! id).

Definition require_sync_plan (id : Uuid) : St SyncPlan :=
  let# p := get_sync_plan id in lift_st (ok_or p (SyncPlanNotFound id)).

Definition create_sync_plan (input : SyncPlanCreate) : St SyncPlan :=
  let# t := now in
  let# id := new_uuid in
  let p := mk_sync_plan id (spc_profile_id input) (spc_name input) (spc_database input) (spc_selections input)
             (spc_masking input) 1 t t in
  let# _ := write (insert_plan p) (sp_name p) in
  ok p.

(** The columns each of the three edits sets; [t] is the new time of change. *)
Definition set_plan_name (name : string) (t : Z) (p : SyncPlan) : SyncPlan :=
  mk_sync_plan (sp_id p) (sp_profile_id p) name (sp_database p) (sp_selections p) (sp_masking p) (sp_revision p)
    (sp_created_at p) t.

Definition set_plan_selections (selections : list TableSelection) (revision t : Z) (p : SyncPlan) : SyncPlan :=
  mk_sync_plan (sp_id p) (sp_profile_id p) (sp_name p) (sp_database p) selections (sp_masking p) revision
    (sp_created_at p) t.

Definition set_plan_masking (masking : list MaskRule) (revision t : Z) (p : SyncPlan) : SyncPlan :=
  mk_sync_plan (sp_id p) (sp_profile_id p) (sp_name p) (sp_database p) (sp_selections p) masking revision
    (sp_created_at p) t.

Definition rename_sync_plan (id : Uuid) (name : string) : St SyncPlan :=
  let# p := require_sync_plan id in
  let# t := now in
  let# _ := write (write_plan id (set_plan_name name t)) name in
  ok (set_plan_name name t p).

Definition update_sync_plan (id : Uuid) (selections : list TableSelection) : St SyncPlan :=
  let# p := require_sync_plan id in
  let# t := now in
  let# _ := write (write_plan id (set_plan_selections selections (sp_revision p + 1) t)) "" in
  ok (set_plan_selections selections (sp_revision p + 1) t p).

Definition set_sync_plan_masking (id : Uuid) (masking : list MaskRule) : St SyncPlan :=
  let# p := require_sync_plan id in
  let# t := now in
  let# _ := write (write_plan id (set_plan_masking masking (sp_revision p + 1) t)) "" in
  ok (set_plan_masking masking (sp_revision p + 1) t p).

Definition delete_sync_plan (id : Uuid) : St bool := let~ b := stmt (Sql (remove_plan id)) in ok b.

(** ** Destinations: the statements of [Destination] over their table *)

Definition on_destinations {A} (f : Rows -> A * Rows) : Stmt A :=
  Sql (fun t => let '(a, rows) := f (destinations t) in (a, with_destinations t rows)).

Definition store_list_destinations : St (list Destination) := select (fun t => list_destinations (destinations t)).

Definition store_create_destination (input : DestinationCreate) : St Destination :=
  let# t := now in
  let# id := new_uuid in
  let~ r := stmt (on_destinations (fun rows =>
    if is_some (rows !! id) then (Err (DestinationDuplicate (trim (dc_name input))), rows)
    else create_destination str_debug rows id t input)) in
  lift_st (map_err r OfDestination).

Definition store_update_destination (id : Uuid) (u : DestinationUpdate) : St Destination :=
  let# t := now in
  let~ r := stmt (on_destinations (fun rows => update_destination str_debug rows id t u)) in
  lift_st (map_err r OfDestination).

Definition store_delete_destination (id : Uuid) : St bool :=
  let~ b := stmt (on_destinations (fun rows => delete_destination rows id)) in ok b.

(** ** Known hosts *)

Definition get_known_host (host_port : string) : St (option (string * string)) :=
  select (fun t => known_hosts t !! host_port).

Definition remember_host (host_port kind fingerprint : string) : St unit :=
  let~ _ := stmt (Sql (pin_host host_port kind fingerprint)) in ok tt.

Definition replace_host_key (host_port kind fingerprint : string) : St unit :=
  let~ _ := stmt (Sql (repin_host host_port kind fingerprint)) in ok tt.

(** ** Deleting a record and its secret *)

Definition forget_destination (id : Uuid) : St bool :=
  let# _ := keychain_call (delete_for_destination uuid_text id) in
  store_delete_destination id.

Definition forget_ssh_connection (id : Uuid) : St bool :=
  let# removed := delete_ssh_connection id in
  if removed then let# _ := keychain_call (set_secret uuid_text id SshKeyPassphrase "") in ok true
  else ok false.

(** ** Adopting the inline configurations of older versions *)

Record Adoption := mk_adoption {
  ad_profile_id : Uuid;
  ad_profile_name : string;
  ad_ssh_connection_id : Uuid;
  ad_ssh_connection_name : string;
  ad_created : bool }.

(** Find or create the connection with this endpoint and jump host; the list of what
    exists is returned as it is then. *)
Definition adopt_endpoint (existing : list SshConnection) (endpoint : SshEndpoint) (jump : option Uuid)
    : St (Uuid * bool * list SshConnection) :=
  match List.find (fun c => bool_decide (ssh_endpoint c = endpoint) && bool_decide (jump_host_id c = jump)) existing with
  | Some found => ok (ssh_id found, false, existing)
  | None =>
      let# created := create_ssh_connection
        (mk_ssh_create (unique_name existing (describe endpoint)) endpoint jump) in
      ok (ssh_id created, true, existing ++ [created])
  end.

(** Copy before deleting; a keychain that refuses is not an error. *)
Definition move_passphrase (from_profile to_connection : Uuid) : Db unit :=
  let~ existing := stmt (Keychain (get_secret uuid_text from_profile SshKeyPassphrase)) in
  match existing with
  | Ok (Some value) =>
      let~ set := stmt (Keychain (set_secret uuid_text to_connection SshKeyPassphrase value)) in
      match set with
      | Err _ => Return tt
      | Ok _ => let~ _ := stmt (Keychain (set_secret uuid_text from_profile SshKeyPassphrase "")) in Return tt
      end
  | _ => Return tt
  end.

Definition config_needs_passphrase (c : SshConfig) : bool :=
  needs_passphrase (cfg_endpoint c)
  || match cfg_jump_host c with Some e => needs_passphrase e | None => false end.

(** The jump host of a configuration, adopted before what jumps through it. *)
Definition adopt_jump (existing : list SshConnection) (jump : option SshEndpoint)
    : St (option Uuid * list SshConnection) :=
  match jump with
  | Some endpoint =>
      let# (id, _, existing) := adopt_endpoint existing endpoint None in ok (Some id, existing)
  | None => ok (None, existing)
  end.

Definition adopt_one (acc : list SshConnection * list Adoption) (row : Uuid * string * SshConfig)
    : St (list SshConnection * list Adoption) :=
  let '(existing, adoptions) := acc in
  let '(profile, name, config) := row in
  let# (jump, existing) := adopt_jump existing (cfg_jump_host config) in
  let# (id, created, existing) := adopt_endpoint existing (cfg_endpoint config) jump in
  let# _ := attach_ssh_connection profile id in
  let~ _ := if config_needs_passphrase config then move_passphrase profile id else Return tt in
  let found := match List.find (fun c => bool_decide (ssh_id c = id)) existing with
               | Some c => ssh_name c
               | None => ""
               end in
  ok (existing, adoptions ++ [mk_adoption profile name id found created]).

Definition adopt_legacy_configs : St (list Adoption) :=
  let# legacy := legacy_ssh_configs in
  match legacy with
  | [] => ok []
  | _ =>
      let# existing := list_ssh_connections in
      let# (_, adoptions) := each adopt_one legacy (existing, []) in
      ok adoptions
  end.

(** ** Every request the store may be given *)

Definition discard {A} (m : Db A) : Db unit := let~ _ := m in Return tt.

Inductive store_request : Db unit -> Prop :=
| rq_create_profile i : store_request (discard (create_profile i))
| rq_update_profile id u : store_request (discard (update_profile id u))
| rq_delete_profile id : store_request (discard (delete_profile id))
| rq_create_ssh i : store_request (discard (create_ssh_connection i))
| rq_update_ssh id u : store_request (discard (update_ssh_connection id u))
| rq_delete_ssh id : store_request (discard (delete_ssh_connection id))
| rq_forget_ssh id : store_request (discard (forget_ssh_connection id))
| rq_create_plan i : store_request (discard (create_sync_plan i))
| rq_rename_plan id n : store_request (discard (rename_sync_plan id n))
| rq_update_plan id l : store_request (discard (update_sync_plan id l))
| rq_mask_plan id l : store_request (discard (set_sync_plan_masking id l))
| rq_delete_plan id : store_request (discard (delete_sync_plan id))
| rq_create_destination i : store_request (discard (store_create_destination i))
| rq_update_destination id u : store_request (discard (store_update_destination id u))
| rq_forget_destination id : store_request (discard (forget_destination id))
| rq_remember_host h k f : store_request (discard (remember_host h k f))
| rq_replace_host_key h k f : store_request (discard (replace_host_key h k f))
| rq_adopt : store_request (discard adopt_legacy_configs).
End Store.
