(* ===== verification/Consistency.v ===== *)
(** * Consistency: what the store's tables satisfy, whatever runs and in whatever turns

    The schema's constraints and the functions' own checks keep every reference
    resolved, every name unique and every connection valid, however the statements
    of concurrent functions interleave.  The single-hop rule is checked by one
    statement and relied on by a later one; it holds when functions run one at a
    time, and can be broken by two that take turns. *)

From Stdlib Require Import ZArith Lia Ascii String List Bool.
From stdpp Require Import base list gmap strings relations.
From S2P Require Import Prelude Text Domain Backup Mask Plan Destination Vault Ssh Database Connections.
Import ListNotations.
Open Scope string_scope.
Open Scope list_scope.
Open Scope Z_scope.
Open Scope dbsync_scope.

(** ** Tables of rows with a name *)

Section Tables.
Context {A : Type} (name : A -> string).

Definition uniquely_named (m : gmap Uuid A) : Prop := forall id id' a a',
  m !! id = Some a -> m !! id' = Some a' -> name a = name a' -> id = id'.

Lemma named_insert m id a :
  uniquely_named m -> name_in_use name m (name a) id = false -> uniquely_named (<[id := a]> m).
Proof.
  rewrite name_in_use_false. intros Hm Ha i j b c Hb Hc E.
  apply lookup_insert_Some in Hb as [[<- <-]|[Ni Hb]]; apply lookup_insert_Some in Hc as [[<- <-]|[Nj Hc]]; [done| | |].
  - symmetry. by apply (Ha j c).
  - by apply (Ha i b).
  - by eapply Hm.
Qed.

Lemma named_delete m id : uniquely_named m -> uniquely_named (base.delete id m).
Proof. intros Hm i j a b [_ Ha]%lookup_delete_Some [_ Hb]%lookup_delete_Some. by apply Hm. Qed.

End Tables.

Section References.
Context {A : Type}.

Lemma refers_insert (m : gmap Uuid A) id a o : refers m o = true -> refers (<[id := a]> m) o = true.
Proof.
  destruct o as [i|]; simpl; [|done]. destruct (decide (i = id)) as [->|N].
  - by rewrite lookup_insert_eq.
  - by rewrite lookup_insert_ne by done.
Qed.

Lemma refers_Some (m : gmap Uuid A) id : refers m (Some id) = true <-> exists a, m !! id = Some a.
Proof. simpl. destruct (m !! id); naive_solver. Qed.

Lemma refers_delete (m : gmap Uuid A) id o : refers m o = true -> o <> Some id -> refers (base.delete id m) o = true.
Proof. destruct o as [i|]; simpl; [|done]. intros Hm N. rewrite lookup_delete_ne by congruence. done. Qed.
End References.

(** ** The invariant *)

Definition valid_ssh (c : SshConnection) : Prop :=
  endpoint_validate (ssh_endpoint c) = Ok tt /\ blank (ssh_name c) = false /\ trim (ssh_name c) = ssh_name c
  /\ jump_host_id c <> Some (ssh_id c).

Definition plans_named (m : gmap Uuid SyncPlan) : Prop := forall id id' p p',
  m !! id = Some p -> m !! id' = Some p' -> sp_profile_id p = sp_profile_id p' -> sp_name p = sp_name p' -> id = id'.

Record consistent `{Platform} (t : Tables) : Prop := {
  profile_key : forall id p, profiles t !! id = Some p -> profile_id p = id;
  profile_names : uniquely_named profile_name (profiles t);
  profile_refers : forall id p, profiles t !! id = Some p -> refers (ssh_connections t) (ssh_connection_id p) = true;
  ssh_key : forall id c, ssh_connections t !! id = Some c -> ssh_id c = id;
  ssh_names : uniquely_named ssh_name (ssh_connections t);
  ssh_refers : forall id c, ssh_connections t !! id = Some c -> refers (ssh_connections t) (jump_host_id c) = true;
  ssh_valid : forall id c, ssh_connections t !! id = Some c -> valid_ssh c;
  plan_key : forall id p, sync_plans t !! id = Some p -> sp_id p = id;
  plan_refers : forall id p, sync_plans t !! id = Some p -> refers (profiles t) (Some (sp_profile_id p)) = true;
  plan_names : plans_named (sync_plans t);
  destinations_valid : well_formed str_debug (destinations t) }.

(** ** Statements keep it *)

Section Statements.
Context `{Platform}.

Lemma consistent_profile t p :
  consistent t -> name_in_use profile_name (profiles t) (profile_name p) (profile_id p) = false ->
  refers (ssh_connections t) (ssh_connection_id p) = true ->
  consistent (with_profiles t (<[profile_id p := p]> (profiles t))).
Proof.
  intros C Hn Hr. destruct C. split; simpl; try done.
  - intros id q [[<- <-]|[_ Hq]]%lookup_insert_Some; eauto.
  - by apply named_insert.
  - intros id q [[<- <-]|[_ Hq]]%lookup_insert_Some; eauto.
  - intros id q Hq. apply (refers_insert (profiles t) _ _ (Some (sp_profile_id q))). eauto.
Qed.

Lemma insert_profile_keeps p t : consistent t -> consistent (snd (insert_profile p t)).
Proof.
  intros C. unfold insert_profile. destruct (is_some _ || _) eqn:E; [done|]. apply orb_false_iff in E as [_ E].
  destruct (refers _ _) eqn:Er; [|done]. by apply consistent_profile.
Qed.

Lemma write_profile_keeps p t : consistent t -> consistent (snd (write_profile p t)).
Proof.
  intros C. unfold write_profile. destruct (profiles t !! profile_id p) as [old|]; [|done].
  destruct (name_in_use _ _ _ _) eqn:E; [done|]. destruct (refers _ _) eqn:Er; [|done]. simpl.
  set (q := mk_profile _ _ _ _ _ _ _ _ _). by apply (consistent_profile t q).
Qed.

Lemma remove_profile_keeps id t : consistent t -> consistent (snd (remove_profile id t)).
Proof.
  intros C. destruct C. split; simpl; try done.
  - intros i p [_ Hp]%lookup_delete_Some. eauto.
  - by apply named_delete.
  - intros i p [_ Hp]%lookup_delete_Some. eauto.
  - intros i p [Hp _]%map_lookup_filter_Some. eauto.
  - intros i p [Hp N]%map_lookup_filter_Some. simpl in N.
    apply (refers_delete (profiles t) id (Some (sp_profile_id p))); [eauto|congruence].
  - intros i j p q [Hp _]%map_lookup_filter_Some [Hq _]%map_lookup_filter_Some. eauto.
Qed.

Lemma consistent_ssh t c :
  consistent t -> valid_ssh c -> name_in_use ssh_name (ssh_connections t) (ssh_name c) (ssh_id c) = false ->
  refers (<[ssh_id c := c]> (ssh_connections t)) (jump_host_id c) = true ->
  consistent (with_ssh t (<[ssh_id c := c]> (ssh_connections t))).
Proof.
  intros C Hv Hn Hr. destruct C. split; simpl; try done.
  - intros id p Hp. apply refers_insert. eauto.
  - intros id d [[<- <-]|[_ Hd]]%lookup_insert_Some; eauto.
  - by apply named_insert.
  - intros id d [[<- <-]|[_ Hd]]%lookup_insert_Some; [done|]. apply refers_insert. eauto.
  - intros id d [[<- <-]|[_ Hd]]%lookup_insert_Some; eauto.
Qed.

Lemma insert_ssh_keeps c t : valid_ssh c -> consistent t -> consistent (snd (insert_ssh c t)).
Proof.
  intros Hv C. unfold insert_ssh. destruct (is_some _ || _) eqn:E; [done|]. apply orb_false_iff in E as [_ E].
  destruct (refers _ _) eqn:Er; [|done]. by apply consistent_ssh.
Qed.

Lemma write_ssh_keeps c t : valid_ssh c -> consistent t -> consistent (snd (write_ssh c t)).
Proof.
  intros Hv C. unfold write_ssh. destruct (ssh_connections t !! ssh_id c) as [old|]; [|done].
  destruct (name_in_use _ _ _ _) eqn:E; [done|]. destruct (refers _ _) eqn:Er; [|done]. simpl.
  set (q := mk_ssh _ _ _ _ _ _). apply (consistent_ssh t q); try done. by apply refers_insert.
Qed.

Lemma profiles_through_nil id t : profiles_through id t = [] ->
  forall i p, profiles t !! i = Some p -> ssh_connection_id p <> Some id.
Proof.
  unfold profiles_through. intros E i p Hp Hs.
  assert (Hin : In p (List.filter (fun p => bool_decide (ssh_connection_id p = Some id)) (by_name profile_name (profiles t)))).
  { apply List.filter_In. split; [apply by_name_In; eauto|by apply bool_decide_eq_true]. }
  by rewrite E in Hin.
Qed.

Lemma jumping_through_nil id t : jumping_through id t = [] ->
  forall i c, ssh_connections t !! i = Some c -> jump_host_id c <> Some id.
Proof.
  unfold jumping_through. intros E i c Hc Hs.
  assert (Hin : In c (List.filter (fun c => bool_decide (jump_host_id c = Some id)) (by_name ssh_name (ssh_connections t)))).
  { apply List.filter_In. split; [apply by_name_In; eauto|by apply bool_decide_eq_true]. }
  by rewrite E in Hin.
Qed.

Lemma remove_ssh_keeps id t : consistent t -> consistent (snd (remove_ssh id t)).
Proof.
  intros C. unfold remove_ssh. destruct (ssh_connections t !! id); [|done].
  destruct (profiles_through id t) eqn:Ep; [|done]. destruct (jumping_through id t) eqn:Ej; [|done].
  pose proof (profiles_through_nil id t Ep) as Hp. pose proof (jumping_through_nil id t Ej) as Hj.
  destruct C. split; simpl; try done.
  - intros i p Hip. apply refers_delete; [eauto|by eapply Hp].
  - intros i c [_ Hc]%lookup_delete_Some. eauto.
  - by apply named_delete.
  - intros i c [_ Hc]%lookup_delete_Some. apply refers_delete; [eauto|by eapply Hj].
  - intros i c [_ Hc]%lookup_delete_Some. eauto.
Qed.

Lemma attach_row_keeps p c z t : consistent t -> consistent (snd (attach_row p c z t)).
Proof.
  intros C. unfold attach_row. destruct (profiles t !! p) as [q|] eqn:Eq; [|done].
  destruct (refers _ _) eqn:Er; [|done]. simpl.
  pose proof (profile_key _ C p q Eq) as <-. set (q' := mk_profile _ _ _ _ _ _ _ _ _).
  assert (C' : consistent (with_profiles t (<[profile_id q' := q']> (profiles t)))).
  { apply consistent_profile; [done| |done]. apply name_in_use_false. intros i r Hr Hn.
    by eapply (profile_names _ C). }
  by destruct C'.
Qed.

Lemma plan_name_in_use_false m profile n id : plan_name_in_use m profile n id = false <->
  forall i p, m !! i = Some p -> sp_profile_id p = profile -> sp_name p = n -> i = id.
Proof.
  unfold plan_name_in_use. rewrite name_in_use_false. split.
  - intros Hf i p Hp Hpr Hn. apply (Hf i p); [|done]. by apply map_lookup_filter_Some.
  - intros Hf i p [Hp Hpr]%map_lookup_filter_Some Hn. by eapply Hf.
Qed.

Lemma consistent_plan t p :
  consistent t -> plan_name_in_use (sync_plans t) (sp_profile_id p) (sp_name p) (sp_id p) = false ->
  refers (profiles t) (Some (sp_profile_id p)) = true ->
  consistent (with_plans t (<[sp_id p := p]> (sync_plans t))).
Proof.
  rewrite plan_name_in_use_false. intros C Hn Hr. destruct C. split; simpl; try done.
  - intros id q [[<- <-]|[_ Hq]]%lookup_insert_Some; eauto.
  - intros id q [[<- <-]|[_ Hq]]%lookup_insert_Some; eauto.
  - intros i j q r Hq Hr' Hp E.
    apply lookup_insert_Some in Hq as [[<- <-]|[_ Hq]]; apply lookup_insert_Some in Hr' as [[<- <-]|[_ Hr']]; [done| | |eauto].
    + symmetry. by apply (Hn j r).
    + by apply (Hn i q).
Qed.

Lemma insert_plan_keeps p t : consistent t -> consistent (snd (insert_plan p t)).
Proof.
  intros C. unfold insert_plan. destruct (is_some _ || _) eqn:E; [done|]. apply orb_false_iff in E as [_ E].
  destruct (refers _ _) eqn:Er; [|done]. by apply consistent_plan.
Qed.

Lemma write_plan_keeps id f t :
  (forall p, sp_id (f p) = sp_id p /\ sp_profile_id (f p) = sp_profile_id p) ->
  consistent t -> consistent (snd (write_plan id f t)).
Proof.
  intros Hf C. unfold write_plan. destruct (sync_plans t !! id) as [p|] eqn:Ep; [|done].
  destruct (plan_name_in_use _ _ _ _) eqn:E; [done|]. simpl. destruct (Hf p) as [Hi Hp].
  pose proof (plan_key _ C id p Ep) as <-. rewrite <- Hi in E |- *. apply consistent_plan; [done|done|].
  rewrite Hp. by eapply (plan_refers _ C).
Qed.

Lemma remove_plan_keeps id t : consistent t -> consistent (snd (remove_plan id t)).
Proof.
  intros C. destruct C. split; simpl; try done.
  - intros i p [_ Hp]%lookup_delete_Some. eauto.
  - intros i p [_ Hp]%lookup_delete_Some. eauto.
  - intros i j p q [_ Hp]%lookup_delete_Some [_ Hq]%lookup_delete_Some. eauto.
Qed.

Lemma consistent_destinations t rows :
  consistent t -> well_formed str_debug rows -> consistent (with_destinations t rows).
Proof. intros C Hw. by destruct C. Qed.
End Statements.

Create HintDb consistent.
#[export] Hint Resolve insert_profile_keeps write_profile_keeps remove_profile_keeps remove_ssh_keeps attach_row_keeps
  insert_plan_keeps remove_plan_keeps : consistent.

(** ** Programs keep it, whatever runs between their statements *)

Abbreviation stays := (keeps (fun _ _ => True) consistent).

(** Programs that, besides, add and change no SSH connection. *)
Definition ssh_shrinks (t t' : Tables) : Prop := ssh_connections t' ⊆ ssh_connections t.
Abbreviation shrinks := (keeps ssh_shrinks consistent).

#[export] Instance ssh_shrinks_preorder : PreOrder ssh_shrinks.
Proof. split; unfold ssh_shrinks; [by intros t|]. intros a b c Hab Hbc. by transitivity (ssh_connections b). Qed.

(** The step of one statement, by its cases. *)
Ltac statement_step :=
  first [ exact I
        | unfold ssh_shrinks, insert_profile, write_profile, remove_profile, remove_ssh, attach_row, insert_plan,
            write_plan, remove_plan, pin_host;
          repeat case_match; simpl; first [reflexivity | apply delete_subseteq | done] ].

(** One step of a program whose intermediate values need no property. *)
Ltac keep_step :=
  match goal with
  | |- keeps _ _ (st_bind _ _) _ => eapply (keeping_bind _ _ _ _ (fun _ => True)); [|intros ? _]
  | |- keeps _ _ (let# _ := _ in _) _ => eapply (keeping_bind _ _ _ _ (fun _ => True)); [|intros ? _]
  | |- keeps _ _ (ok _) _ => apply keeps_ok
  | |- keeps _ _ (err _) _ => apply keeps_err
  | |- keeps _ _ (lift_st _) _ => apply keeping_lift; intros ? _
  | |- keeps _ _ now _ => apply keeps_now; [by intros|intros _]
  | |- keeps _ _ new_uuid _ => apply keeps_new_uuid; [by intros|intros _]
  | |- keeps _ _ (select _) _ => apply keeps_select; [by intros|intros ? _]
  | |- keeps _ _ (write _ _) _ => apply keeps_write; intros ? ?; split; [statement_step|eauto with consistent]
  | |- keeps _ _ (keychain_call _) _ => apply keeps_keychain; by intros
  | |- keeps _ _ (match ?x with _ => _ end) _ => destruct x
  | |- keeps _ _ _ _ => solve [auto with consistent]
  end; try done.

Section Programs.
Context `{Platform}.

Lemma require_shrinks id : shrinks (require_ssh_connection id) (fun c => valid_ssh c /\ ssh_id c = id).
Proof.
  unfold require_ssh_connection, get_ssh_connection.
  eapply (keeping_bind _ _ _ _ (fun o => forall c, o = Some c -> valid_ssh c /\ ssh_id c = id)).
  - apply keeps_select; [by intros|]. intros t C c Hc. split; [by eapply (ssh_valid _ C)|by apply (ssh_key _ C)].
  - intros o Ho. apply keeping_lift. intros c. destruct o; simpl; [|done]. intros [= ->]. by apply Ho.
Qed.

Lemma shrinks_stays {A} (m : St A) P : shrinks m P -> stays m P.
Proof.
  unfold keeps. generalize (ok_post P). clear P. induction m as [r|B s k IH]; intros Q; simpl; [done|].
  intros Hm w Hw. destruct (Hm w Hw) as (_ & ? & ?). auto.
Qed.

Lemma require_any_shrinks id : shrinks (require_ssh_connection id) (fun _ => True).
Proof. by eapply keeping_mono, require_shrinks. Qed.
#[local] Hint Resolve require_any_shrinks shrinks_stays : consistent.

Lemma check_reference_shrinks o : shrinks (check_reference o) (fun _ => True).
Proof. unfold check_reference. repeat keep_step. Qed.
#[local] Hint Resolve check_reference_shrinks : consistent.

Lemma create_profile_shrinks i : shrinks (create_profile i) (fun _ => True).
Proof. unfold create_profile. repeat keep_step. Qed.

Lemma update_profile_shrinks id u : shrinks (update_profile id u) (fun _ => True).
Proof.
  unfold update_profile, require_profile, get_profile. repeat keep_step.
Qed.

Lemma delete_profile_shrinks id : shrinks (delete_profile id) (fun _ => True).
Proof. eapply keeps_sql with (P := fun _ => True); [|done]. intros t C. split_and!; [statement_step|auto with consistent|done]. Qed.

Lemma check_jump_host_stays c : stays (check_jump_host c) (fun _ => jump_host_id c <> Some (ssh_id c)).
Proof.
  unfold check_jump_host, ssh_connections_jumping_through. destruct (jump_host_id c) as [j|] eqn:Ej; [|by keep_step].
  case_bool_decide as Ei; [by keep_step|]. repeat keep_step. congruence.
Qed.

Lemma create_valid i z id : ssh_create_validate i = Ok tt ->
  jump_host_id (mk_ssh id (trim (sc_name i)) (sc_endpoint i) (sc_jump_host_id i) z z) <> Some id ->
  valid_ssh (mk_ssh id (trim (sc_name i)) (sc_endpoint i) (sc_jump_host_id i) z z).
Proof.
  unfold ssh_create_validate. intros Hv Hj. apply rbind_Ok in Hv as ([] & Hn%guard_Ok & Hv). split_and!; simpl; [done|by apply trim_blank|apply trim_idem|done].
Qed.

Lemma create_ssh_stays i : stays (create_ssh_connection i) (fun _ => True).
Proof.
  unfold create_ssh_connection. eapply (keeping_bind _ _ _ _ (fun _ => ssh_create_validate i = Ok tt)).
  { apply keeping_lift. destruct (ssh_create_validate i) as [[]|]; [done|]. intros ? [=]. }
  intros _ Hv. keep_step. keep_step. eapply keeping_bind; [apply check_jump_host_stays|].
  intros ? Hj. simpl in Hj. keep_step. apply keeps_write. intros t C. split; [done|].
  apply insert_ssh_keeps; [by apply create_valid|done].
Qed.
#[local] Hint Resolve create_ssh_stays : consistent.

Lemma patch_valid c u z d : valid_ssh c -> patch_ssh c u z = Ok d ->
  jump_host_id d <> Some (ssh_id d) -> valid_ssh d.
Proof.
  unfold patch_ssh. intros (H1 & H2 & H3 & _) E Hj.
  apply rbind_Ok in E as (name & En & E). apply rbind_Ok in E as (ep & Ee & E). injection E as <-. simpl in *.
  assert (blank name = false /\ trim name = name) as [Hb Ht].
  { destruct (su_name u) as [v|]; [|by injection En as <-]. destruct (blank v) eqn:Eb; [done|]. injection En as <-.
    split; [by apply trim_blank|apply trim_idem]. }
  split_and!; try done. destruct (su_endpoint u) as [v|]; [|by injection Ee as <-].
  apply rbind_Ok in Ee as ([] & Ev & Ee). by injection Ee as <-.
Qed.

Lemma patch_ssh_id c u z d : patch_ssh c u z = Ok d -> ssh_id d = ssh_id c.
Proof.
  unfold patch_ssh. intros E. apply rbind_Ok in E as (name & _ & E). apply rbind_Ok in E as (ep & _ & E).
  by injection E as <-.
Qed.

Lemma update_ssh_stays id u : stays (update_ssh_connection id u) (fun _ => True).
Proof.
  unfold update_ssh_connection. eapply keeping_bind; [apply shrinks_stays, require_shrinks|]. intros c [Hv _].
  eapply (keeping_bind _ _ _ _ (fun _ => True)); [by apply keeps_now|]. intros z _.
  eapply (keeping_bind _ _ _ _ (fun d => patch_ssh c u z = Ok d)).
  { apply keeping_lift. intros d. destruct (patch_ssh c u z); [by intros [= ->]|done]. }
  intros d Hd. eapply keeping_bind; [apply check_jump_host_stays|]. intros ? Hj. simpl in Hj. keep_step.
  apply keeps_write. intros t C. split; [done|]. apply write_ssh_keeps; [by eapply patch_valid|done].
Qed.

Lemma delete_ssh_shrinks id : shrinks (delete_ssh_connection id) (fun _ => True).
Proof.
  unfold delete_ssh_connection, get_ssh_connection, profiles_using_ssh_connection, ssh_connections_jumping_through.
  repeat keep_step.
Qed.
#[local] Hint Resolve delete_ssh_shrinks : consistent.

Lemma forget_ssh_shrinks id : shrinks (forget_ssh_connection id) (fun _ => True).
Proof. unfold forget_ssh_connection. repeat keep_step. Qed.

Lemma create_plan_shrinks i : shrinks (create_sync_plan i) (fun _ => True).
Proof. unfold create_sync_plan. repeat keep_step. Qed.

(** The three edits of a set write its own row. *)
Ltac plan_edit :=
  unfold require_sync_plan, get_sync_plan; repeat keep_step;
  by apply write_plan_keeps.

Lemma rename_plan_shrinks id n : shrinks (rename_sync_plan id n) (fun _ => True).
Proof. unfold rename_sync_plan. plan_edit. Qed.

Lemma update_plan_shrinks id l : shrinks (update_sync_plan id l) (fun _ => True).
Proof. unfold update_sync_plan. plan_edit. Qed.

Lemma mask_plan_shrinks id l : shrinks (set_sync_plan_masking id l) (fun _ => True).
Proof. unfold set_sync_plan_masking. plan_edit. Qed.

Lemma delete_plan_shrinks id : shrinks (delete_sync_plan id) (fun _ => True).
Proof. eapply keeps_sql with (P := fun _ => True); [|done]. intros t C. split_and!; [statement_step|auto with consistent|done]. Qed.

Lemma on_destinations_shrinks {A B} (f : Rows -> A * Rows) (k : A -> St B) P :
  (forall rows, snd (f rows) = rows \/ RowStep str_debug rows (snd (f rows))) -> (forall a, shrinks (k a) P) ->
  shrinks (db_bind (stmt (on_destinations f)) k) P.
Proof.
  intros Hf Hk. eapply keeps_sql with (P := fun _ => True); [|by intros a _].
  intros t C. split; [|split]; [unfold ssh_shrinks, on_destinations; simpl; destruct (f (destinations t)); reflexivity| |done]. destruct (f (destinations t)) as [a rows] eqn:E.
  destruct (Hf (destinations t)) as [Hs|Hs]; rewrite E in Hs; simpl in *.
  - subst rows. apply consistent_destinations; [done|]. by destruct C.
  - apply consistent_destinations; [done|]. eapply row_step_keeps; [by destruct C|done].
Qed.

Lemma create_destination_shrinks i : shrinks (store_create_destination i) (fun _ => True).
Proof.
  unfold store_create_destination. repeat (keep_step; []).
  apply on_destinations_shrinks; [|intros; keep_step]. intros rows.
  destruct (rows !! a0) eqn:E; [by left|]. right. by apply row_create.
Qed.

Lemma update_destination_shrinks id u : shrinks (store_update_destination id u) (fun _ => True).
Proof.
  unfold store_update_destination. keep_step.
  apply on_destinations_shrinks; [|intros; keep_step]. intros rows. right. by apply row_update.
Qed.

Lemma forget_destination_shrinks id : shrinks (forget_destination id) (fun _ => True).
Proof.
  unfold forget_destination, store_delete_destination. keep_step; [by keep_step|].
  apply on_destinations_shrinks; [|intros; keep_step]. intros rows. right. by apply row_delete.
Qed.

Lemma remember_host_shrinks h k f : shrinks (remember_host h k f) (fun _ => True).
Proof.
  eapply keeps_sql with (P := fun _ => True); [|done]. intros t C. split; [statement_step|].
  unfold pin_host. simpl. destruct (known_hosts t !! h); [done|]. by destruct C.
Qed.

Lemma replace_host_shrinks h k f : shrinks (replace_host_key h k f) (fun _ => True).
Proof. eapply keeps_sql with (P := fun _ => True); [|done]. intros t C. split; [statement_step|by destruct C]. Qed.

Lemma adopt_endpoint_stays ex e j : stays (adopt_endpoint ex e j) (fun _ => True).
Proof. unfold adopt_endpoint. repeat keep_step. Qed.
#[local] Hint Resolve adopt_endpoint_stays : consistent.

Lemma move_passphrase_stays {B} p c (k : unit -> St B) P : (forall u, stays (k u) P) ->
  stays (db_bind (move_passphrase p c) k) P.
Proof.
  intros Hk. unfold move_passphrase. apply keeps_stmt; [done|done|]. intros [[v|]|]; simpl; try apply Hk.
  apply (keeps_stmt _ _ (fun _ => I) (Keychain _) (fun r => db_bind (match r with Ok _ => _ | Err _ => _ end) k)); [done|].
  intros [a|e]; simpl; [|apply Hk]. apply (keeps_stmt _ _ (fun _ => I) (Keychain _) (fun _ => k tt)); [done|]. intros _. apply Hk.
Qed.

Lemma adopt_stays : stays adopt_legacy_configs (fun _ => True).
Proof.
  unfold adopt_legacy_configs, legacy_ssh_configs, list_ssh_connections. keep_step. destruct a; [by keep_step|]. keep_step.
  eapply (keeping_bind _ _ _ _ (fun _ => True)); [|by intros [] _; keep_step].
  apply keeps_each; [|done]. intros [ex ads] [[pid name] cfg] _. unfold adopt_one, adopt_jump.
  eapply (keeping_bind _ _ _ _ (fun _ => True)).
  { repeat keep_step. }
  intros [jump ex'] _. keep_step; [by keep_step|]. match goal with x : _ * _ * list SshConnection |- _ => destruct x as [[id created] ex2] end.
  unfold attach_ssh_connection. keep_step; [by repeat keep_step|].
  destruct (config_needs_passphrase cfg); [by apply move_passphrase_stays; intros|done].
Qed.

Lemma stays_run {A} (m : St A) P w : stays m P -> consistent (tables w) -> consistent (tables (snd (run m w))).
Proof. intros Hm C. by eapply (keeps_run (fun _ _ => True)). Qed.

Lemma discard_keeps {A} R (m : St A) : keeps R consistent m (fun _ => True) ->
  safe (fun w w' => R (tables w) (tables w')) (fun w => consistent (tables w)) (discard m) (fun _ => True).
Proof. apply keeps_discard. Qed.

(** Every request but three adds and changes no SSH connection. *)
Definition edits_ssh (m : Db unit) : Prop :=
  (exists i, m = discard (create_ssh_connection i)) \/ (exists id u, m = discard (update_ssh_connection id u))
  \/ m = discard adopt_legacy_configs.

Lemma request_shrinks m : store_request m -> edits_ssh m \/
  safe (fun w w' => ssh_shrinks (tables w) (tables w')) (fun w => consistent (tables w)) m (fun _ => True).
Proof.
  destruct 1; try (left; unfold edits_ssh; by eauto); right; apply discard_keeps;
    auto using create_profile_shrinks, update_profile_shrinks, delete_profile_shrinks, delete_ssh_shrinks,
      forget_ssh_shrinks, create_plan_shrinks, rename_plan_shrinks, update_plan_shrinks, mask_plan_shrinks,
      delete_plan_shrinks, create_destination_shrinks, update_destination_shrinks, forget_destination_shrinks,
      remember_host_shrinks, replace_host_shrinks.
Qed.

Lemma request_stays m : store_request m ->
  safe (fun _ _ => True) (fun w => consistent (tables w)) m (fun _ => True).
Proof.
  intros Hm. destruct (request_shrinks m Hm) as [[[i ->]|[(id & u & ->)| ->]]|Hs].
  - apply (discard_keeps (fun _ _ => True)), create_ssh_stays.
  - apply (discard_keeps (fun _ _ => True)), update_ssh_stays.
  - apply (discard_keeps (fun _ _ => True)), adopt_stays.
  - eapply safe_weaken; [|exact Hs]. done.
Qed.
End Programs.

(** ** The single-hop rule, one function at a time *)

Definition one_hop (t : Tables) : Prop := forall i c j d,
  ssh_connections t !! i = Some c -> jump_host_id c = Some j -> ssh_connections t !! j = Some d -> jump_host_id d = None.

(** What a connection must satisfy for the rule to survive its being written. *)
Definition hop_ok (t : Tables) (c : SshConnection) : Prop := forall j, jump_host_id c = Some j ->
  j <> ssh_id c /\ (exists d, ssh_connections t !! j = Some d /\ jump_host_id d = None) /\ jumping_through (ssh_id c) t = [].

Lemma one_hop_shrinks t t' : one_hop t -> ssh_shrinks t t' -> one_hop t'.
Proof.
  intros H1 Hs i c j d Hc Hj Hd. eapply (H1 i c j d); [|done|]; eapply map_subseteq_spec; eauto.
Qed.

Lemma one_hop_insert t c : one_hop t -> hop_ok t c -> one_hop (with_ssh t (<[ssh_id c := c]> (ssh_connections t))).
Proof.
  intros H1 Hc i a j d Ha Hj Hd. simpl in *.
  apply lookup_insert_Some in Ha as [[<- <-]|[Ni Ha]]; apply lookup_insert_Some in Hd as [[<- <-]|[Nj Hd]].
  - by destruct (Hc _ Hj) as (N & _ & _).
  - destruct (Hc _ Hj) as (_ & (d' & Hd' & ?) & _). congruence.
  - destruct (jump_host_id c) as [k|] eqn:Ek; [|done]. destruct (Hc k Ek) as (_ & _ & Hn).
    by destruct (jumping_through_nil _ _ Hn i a Ha).
  - by apply (H1 i a j d).
Qed.

Create HintDb alone.

Section OneAtATime.
Context `{Platform}.

Lemma run_require id w : run (require_ssh_connection id) w =
  (ok_or (ssh_connections (tables w) !! id) (InvalidSshConnection (SshNotFound id)), w).
Proof.
  unfold require_ssh_connection, get_ssh_connection. rewrite run_st, run_select. simpl.
  by destruct (ssh_connections (tables w) !! id).
Qed.

Lemma run_check c w : exists r, run (check_jump_host c) w = (r, w) /\ (r = Ok tt -> hop_ok (tables w) c).
Proof.
  unfold check_jump_host. destruct (jump_host_id c) as [j|] eqn:Ej.
  2: { exists (Ok tt). split; [done|]. intros _ k Hk. congruence. }
  case_bool_decide as Ei; [by eexists|]. rewrite run_st, run_require. simpl.
  destruct (ssh_connections (tables w) !! j) as [d|] eqn:Ed; simpl; [|by eexists].
  destruct (jump_host_id d) eqn:Ejd; simpl; [by eexists|].
  rewrite with_tables_id. destruct (jumping_through (ssh_id c) (tables w)) eqn:En; [|by eexists].
  exists (Ok tt). split; [done|]. intros _ k Hk. simplify_eq. eauto.
Qed.

Lemma one_hop_row t c d : one_hop (with_ssh t (<[ssh_id c := c]> (ssh_connections t))) ->
  ssh_id d = ssh_id c -> jump_host_id d = jump_host_id c -> one_hop (with_ssh t (<[ssh_id c := d]> (ssh_connections t))).
Proof.
  intros H1 Hi Hj i a j e Ha Hja He. simpl in *.
  apply lookup_insert_Some in Ha as [[<- <-]|[Ni Ha]]; apply lookup_insert_Some in He as [[<- <-]|[Nj He]];
    rewrite ?Hj in *.
  - apply (H1 (ssh_id c) c (ssh_id c)); simpl; by rewrite ?lookup_insert_eq.
  - apply (H1 (ssh_id c) c j); simpl; by rewrite ?lookup_insert_eq, ?lookup_insert_ne.
  - apply (H1 i a (ssh_id c)); simpl; by rewrite ?lookup_insert_eq, ?lookup_insert_ne.
  - apply (H1 i a j); simpl; by rewrite ?lookup_insert_ne.
Qed.

Lemma insert_ssh_hop c t : one_hop t -> hop_ok t c -> one_hop (snd (insert_ssh c t)).
Proof.
  intros H1 Hc. unfold insert_ssh. repeat case_match; simpl; try done. by apply one_hop_insert.
Qed.

Lemma write_ssh_hop c t : one_hop t -> hop_ok t c -> one_hop (snd (write_ssh c t)).
Proof.
  intros H1 Hc. unfold write_ssh. repeat case_match; simpl; try done.
  by apply one_hop_row with (d := mk_ssh _ _ _ _ _ _); [apply one_hop_insert| |].
Qed.

Lemma run_write {A} (f : Tables -> result A Violation * Tables) name w :
  tables (snd (run (write f name) w)) = snd (f (tables w)).
Proof. unfold write, stmt. simpl. destruct (f (tables w)) as [[a|[]] t]; done. Qed.

Lemma create_ssh_hop i w : one_hop (tables w) -> one_hop (tables (snd (run (create_ssh_connection i) w))).
Proof.
  intros H1. unfold create_ssh_connection. rewrite run_st. simpl.
  destruct (ssh_create_validate i) as [[]|]; simpl; [|done].
  rewrite run_st. set (c := mk_ssh _ _ _ _ _ _). set (w' := mk_world _ _ _ _).
  destruct (run_check c w') as ([[]|] & E & Hc); rewrite E; cbn [fst snd]; [|done].
  rewrite run_st. pose proof (run_write (insert_ssh c) (ssh_name c) w') as Hw.
  destruct (run (write _ _) w') as [[[]|] w'']; simpl in *; rewrite Hw; apply insert_ssh_hop; auto.
Qed.

Lemma update_ssh_hop id u w : one_hop (tables w) -> one_hop (tables (snd (run (update_ssh_connection id u) w))).
Proof.
  intros H1. unfold update_ssh_connection. rewrite run_st, run_require. simpl.
  destruct (ssh_connections (tables w) !! id) as [c|]; simpl; [|done].
  destruct (patch_ssh c u (clock w)) as [d|]; simpl; [|done]. rewrite run_st. cbn [run lift_st fst snd]. rewrite run_st.
  destruct (run_check d w) as ([[]|] & E & Hc); rewrite E; cbn [fst snd]; [|done].
  rewrite run_st. pose proof (run_write (write_ssh d) (ssh_name d) w) as Hw.
  destruct (run (write _ _) w) as [[[]|] w'']; simpl in *; rewrite Hw; apply write_ssh_hop; auto.
Qed.

(** [alone m]: run by itself, [m] keeps the rule. *)
Definition alone {A} (m : Db A) : Prop := forall w, consistent (tables w) /\ one_hop (tables w) ->
  consistent (tables (snd (run m w))) /\ one_hop (tables (snd (run m w))).

Lemma alone_ret {A} (a : A) : alone (Return a).
Proof. by intros w Hw. Qed.
#[local] Hint Extern 1 (alone _) => apply alone_ret : alone.

Lemma alone_bind {A B} (m : Db A) (k : A -> Db B) : alone m -> (forall a, alone (k a)) -> alone (db_bind m k).
Proof. intros Hm Hk w Hw. rewrite run_bind. by apply Hk, Hm. Qed.

Lemma alone_st {A B} (m : St A) (k : A -> St B) : alone m -> (forall a, alone (k a)) -> alone (st_bind m k).
Proof. intros Hm Hk. apply alone_bind; [done|]. intros [a|e]; [apply Hk|apply alone_ret]. Qed.

Lemma alone_each {A S} (f : S -> A -> St S) l : (forall s a, alone (f s a)) -> forall s, alone (each f l s).
Proof. intros Hf. induction l as [|a l IH]; intros s; simpl; [apply alone_ret|]. by apply alone_st. Qed.

Lemma alone_select {A} (f : Tables -> A) : alone (select f).
Proof. intros w Hw. by rewrite run_select. Qed.

Lemma alone_shrinks {A} (m : Db A) Q :
  safe (fun w w' => ssh_shrinks (tables w) (tables w')) (fun w => consistent (tables w)) m Q -> alone m.
Proof.
  intros Hm w [C H1]. destruct (safe_run (fun w w' => ssh_shrinks (tables w) (tables w')) (fun w => consistent (tables w)) m Q) with (w := w)
    as (Hs & C' & _); try done; [intros a b c Hab Hbc; by etransitivity|].
  split; [done|]. by eapply one_hop_shrinks.
Qed.

Lemma alone_stays {A} (m : St A) P :
  stays m P -> (forall w, one_hop (tables w) -> one_hop (tables (snd (run m w)))) -> alone m.
Proof. intros Hm H1 w [C Hw]. split; [by eapply stays_run|auto]. Qed.

Lemma create_ssh_alone i : alone (create_ssh_connection i).
Proof. eapply alone_stays; [apply create_ssh_stays|intros w; apply create_ssh_hop]. Qed.
#[local] Hint Resolve create_ssh_alone alone_select : alone.

(** One step of a program that runs alone. *)
Ltac alone_step :=
  match goal with
  | |- alone (st_bind _ _) => apply alone_st; [|intros ?]
  | |- alone (db_bind _ _) => apply alone_bind; [|intros ?]
  | |- alone (match ?x with _ => _ end) => destruct x
  | |- alone _ => solve [auto with alone]
  end.

Lemma adopt_endpoint_alone ex e j : alone (adopt_endpoint ex e j).
Proof. unfold adopt_endpoint. repeat alone_step. Qed.

Lemma keychain_alone {A} (f : V A) : alone (stmt (Keychain f)).
Proof. intros w Hw. simpl. by destruct (f (vault w)). Qed.
#[local] Hint Resolve adopt_endpoint_alone keychain_alone : alone.

Lemma move_passphrase_alone p c : alone (move_passphrase p c).
Proof. unfold move_passphrase. repeat alone_step. Qed.

Lemma attach_alone p c : alone (attach_ssh_connection p c).
Proof.
  apply (alone_shrinks _ (ok_post (fun _ => True))). apply (keeping_bind _ _ _ _ (fun _ => True)); [by apply keeps_now; intros|].
  intros z _. by repeat keep_step.
Qed.
#[local] Hint Resolve move_passphrase_alone attach_alone : alone.

Lemma adopt_alone : alone adopt_legacy_configs.
Proof.
  unfold adopt_legacy_configs, legacy_ssh_configs, list_ssh_connections. repeat alone_step.
  apply alone_each. intros [ex ads] [[pid name] cfg]. unfold adopt_one, adopt_jump. repeat alone_step.
Qed.

Lemma request_alone m : store_request m -> alone m.
Proof.
  intros Hm. destruct (request_shrinks m Hm) as [[[i ->]|[(id & u & ->)| ->]]|Hs].
  - apply alone_bind; [apply create_ssh_alone|intros; apply alone_ret].
  - apply alone_bind; [|intros; apply alone_ret]. eapply alone_stays; [apply update_ssh_stays|intros w; apply update_ssh_hop].
  - apply alone_bind; [apply adopt_alone|intros; apply alone_ret].
  - by eapply alone_shrinks.
Qed.

(** A request runs from its first statement to its last before the next one starts. *)
Definition in_turn (w w' : World) : Prop := exists m, store_request m /\ w' = snd (run m w).

(** ** Theorems *)

(** C11: whatever requests arrive and however their statements take turns, every profile that
    tunnels names a connection that is there, and that connection's jump host is there: the
    route of a profile is always found, so no tunnelled profile is ever left without one.
    Names stay unique and connections valid. *)
Theorem references_always_resolve w0 threads w :
  consistent (tables w0) -> rtc (pool_step store_request) ([], w0) (threads, w) ->
  consistent (tables w)
  /\ forall id p i, profiles (tables w) !! id = Some p -> ssh_connection_id p = Some i ->
     exists c jump, ssh_connections (tables w) !! i = Some c /\ option_map ssh_id jump = jump_host_id c
     /\ run (resolve_ssh i) w
        = (Ok (mk_resolved_ssh c jump (mk_ssh_config (ssh_endpoint c) (option_map ssh_endpoint jump))), w).
Proof.
  intros C0 Hr.
  assert (C : consistent (tables w)).
  { eapply (pool_invariant (fun _ _ => True) (fun w => consistent (tables w)) store_request ([], w0) (threads, w));
      eauto using request_stays. }
  split; [done|]. intros id p i Hp Hi. pose proof (profile_refers _ C id p Hp) as Hc. rewrite Hi in Hc.
  apply refers_Some in Hc as [c Hc]. unfold resolve_ssh. rewrite run_st, run_require, Hc. simpl. rewrite run_st.
  pose proof (ssh_refers _ C i c Hc) as Hj. destruct (jump_host_id c) as [j|] eqn:Ej.
  - apply refers_Some in Hj as [d Hd]. exists c, (Some d). rewrite run_st, run_require, Hd. simpl.
    by rewrite Ej, (ssh_key _ C j d Hd).
  - by exists c, None.
Qed.

(** As long as requests run one at a time, no saved connection jumps through one that
    itself needs a jump host. *)
Theorem edits_in_turn_keep_one_hop w0 w :
  consistent (tables w0) -> one_hop (tables w0) -> rtc in_turn w0 w -> one_hop (tables w).
Proof.
  intros C0 H0 Hr. assert (consistent (tables w) /\ one_hop (tables w)) as [_ ?]; [|done].
  revert C0 H0. induction Hr as [w|w w' w'' (m & Hm & ->) _ IH]; [done|]. intros C0 H0.
  destruct (request_alone m Hm w) as [? ?]; [done|]. by apply IH.
Qed.
End OneAtATime.

(** ** Concrete stores *)

#[export] Instance toy_platform : Platform :=
  { uuid_text := fun id => show (Z.of_N id); str_debug := fun s => String "034" (s ++ String "034" "");
    violation_text := fun v => match v with UniqueViolation => "UNIQUE constraint failed" | ForeignKeyViolation => "FOREIGN KEY constraint failed" end;
    new_v4 := fun n => N.of_nat (S n) }.

Definition empty_world : World := mk_world empty_tables (mk_vault ∅ ∅ []) 0 1000.

Lemma empty_consistent : consistent empty_tables.
Proof. split; intros ?; try done; try by intros ? ? ? [=]. Qed.

Definition server (host : string) : SshEndpoint := mk_endpoint host 22 "ops" AuthAgent.

Definition new_server (name : string) (jump : option Uuid) : SshConnectionCreate :=
  mk_ssh_create name (server name) jump.

Definition route_through (jump : Uuid) : SshConnectionUpdate := mk_ssh_update None None (Some (Some jump)).

(** Three servers are saved, one after the other; then one edit lets the first jump
    through the second while another lets the second jump through the third. *)
Definition two_edits : list (Db unit) :=
  [discard (create_ssh_connection (new_server "a" None)); discard (create_ssh_connection (new_server "b" None));
   discard (create_ssh_connection (new_server "c" None));
   discard (update_ssh_connection 1%N (route_through 2%N)); discard (update_ssh_connection 2%N (route_through 3%N))].

(** The first edit has made its checks when the second runs; then it writes. *)
Definition overlapping : list nat := [0; 0; 0; 1; 1; 1; 2; 2; 2; 3; 3; 3; 3; 4; 4; 4; 4; 4; 3]%nat.

Definition chained : World := snd (play overlapping (two_edits, empty_world)).

Lemma chained_routes : option_map jump_host_id (ssh_connections (tables chained) !! 1%N) = Some (Some 2%N)
  /\ option_map jump_host_id (ssh_connections (tables chained) !! 2%N) = Some (Some 3%N).
Proof. by vm_compute. Qed.

Lemma chain_breaks_rule t i j k :
  option_map jump_host_id (ssh_connections t !! i) = Some (Some j) ->
  option_map jump_host_id (ssh_connections t !! j) = Some (Some k) -> ~ one_hop t.
Proof.
  intros Hi Hj H1. destruct (ssh_connections t !! i) as [a|] eqn:Ea; [|done].
  destruct (ssh_connections t !! j) as [b|] eqn:Eb; [|done]. simpl in *. injection Hi as Hi. injection Hj as Hj.
  pose proof (H1 i a j b Ea Hi Eb). congruence.
Qed.

(** The check of the single-hop rule and the write that relies on it are separate
    statements: two edits that overlap store the chain either of them alone refuses. *)
Theorem two_edits_can_chain : exists threads,
  rtc (pool_step store_request) ([], empty_world) (threads, chained) /\ ~ one_hop (tables chained).
Proof.
  exists (fst (play overlapping (two_edits, empty_world))). split.
  - etransitivity; [apply (arrive_all _ two_edits); repeat constructor|].
    unfold chained. rewrite <- surjective_pairing. apply play_steps.
  - destruct chained_routes as [Ha Hb]. exact (chain_breaks_rule _ _ _ _ Ha Hb).
Qed.

(** A profile behind the first server, whose jump host is the second. *)
Definition behind : list (Db unit) :=
  [discard (create_ssh_connection (new_server "edge" None)); discard (create_ssh_connection (new_server "inner" (Some 1%N)));
   discard (create_profile (mk_profile_create "orders" Mysql Prod (Some 2%N) (mk_db "10.0.0.5" 3306 "app" None) no_tools))].

Definition one_after_the_other : list nat := [0; 0; 0; 1; 1; 1; 1; 1; 2; 2; 2; 2]%nat.

Definition tunnelled : list (Db unit) * World := play one_after_the_other (behind, empty_world).

Lemma tunnelled_profile : exists p, profiles (tables (snd tunnelled)) !! 3%N = Some p /\ ssh_connection_id p = Some 2%N.
Proof. vm_compute. by eexists. Qed.

Lemma tunnelled_reached : rtc (pool_step store_request) ([], empty_world) (fst tunnelled, snd tunnelled).
Proof.
  rewrite <- surjective_pairing. etransitivity; [apply (arrive_all _ behind); repeat constructor|apply play_steps].
Qed.

Lemma references_always_resolve_witness :
  exists c jump, ssh_connections (tables (snd tunnelled)) !! 2%N = Some c /\ option_map ssh_id jump = jump_host_id c
  /\ run (resolve_ssh 2%N) (snd tunnelled)
     = (Ok (mk_resolved_ssh c jump (mk_ssh_config (ssh_endpoint c) (option_map ssh_endpoint jump))), snd tunnelled).
Proof.
  destruct tunnelled_profile as (p & Hp & Hi).
  exact (proj2 (references_always_resolve empty_world _ _ empty_consistent tunnelled_reached) 3%N p 2%N Hp Hi).
Defined.

(** The same two edits, one after the other. *)
Definition three_saved : World :=
  snd (run (nth 2 two_edits (Return tt)) (snd (run (nth 1 two_edits (Return tt)) (snd (run (nth 0 two_edits (Return tt)) empty_world))))).

Lemma edits_in_turn : rtc in_turn empty_world
  (snd (run (nth 4 two_edits (Return tt)) (snd (run (nth 3 two_edits (Return tt)) three_saved)))).
Proof.
  unfold three_saved. do 5 (eapply rtc_r; [|eexists; split; [|reflexivity]; simpl; constructor]). done.
Qed.

Lemma edits_in_turn_keep_one_hop_witness :
  one_hop (tables (snd (run (nth 4 two_edits (Return tt)) (snd (run (nth 3 two_edits (Return tt)) three_saved))))).
Proof. apply (edits_in_turn_keep_one_hop empty_world); [apply empty_consistent|by intros ? ? ? ? [=]|apply edits_in_turn]. Defined.
