(* ===== verification/Adoption.v ===== *)
(** * Adoption: what an upgrade makes of inline SSH configurations (the adoption of
      engine/src/sshconn.rs)

    A profile of an older version carries its own copy of a route.  Adopting it
    saves each server once, points the profile at what was saved and retires the
    copy.  Here: that every profile keeps its route when each server has a
    describable name, and what happens to passphrases and to names with blanks. *)

From Stdlib Require Import ZArith Lia Ascii String List Bool.
From stdpp Require Import base list gmap strings relations.
From S2P Require Import Prelude Text Domain Destination Vault Ssh Database Connections Consistency.
Import ListNotations.
Open Scope string_scope.
Open Scope list_scope.
Open Scope Z_scope.
Open Scope dbsync_scope.

(** ** What the loop relies on *)

(** The caller's list is what is stored. *)
Definition mirrors (ex : list SshConnection) (t : Tables) : Prop :=
  forall c, In c ex <-> exists id, ssh_connections t !! id = Some c.

(** Ids still to be made up are new, and differ. *)
Definition ids_fresh `{Platform} (w : World) : Prop :=
  (forall n m, new_v4 n = new_v4 m -> n = m) /\ forall n, (minted w <= n)%nat -> ssh_connections (tables w) !! new_v4 n = None.

(** An endpoint that validates, and whose description is printable without blanks. *)
Definition adoptable (e : SshEndpoint) : Prop := endpoint_validate e = Ok tt /\ word (describe e).

(** The connection stored under an id takes the route of a configuration. *)
Definition routes (t : Tables) (id : Uuid) (cfg : SshConfig) : Prop :=
  exists c, ssh_connections t !! id = Some c /\ ssh_endpoint c = cfg_endpoint cfg
  /\ match cfg_jump_host cfg with
     | None => jump_host_id c = None
     | Some e => exists j d, jump_host_id c = Some j /\ ssh_connections t !! j = Some d /\ ssh_endpoint d = e
     end.

(** No server is stored twice with the same endpoint and jump host. *)
Definition one_record_each (t : Tables) : Prop := forall i j c d,
  ssh_connections t !! i = Some c -> ssh_connections t !! j = Some d ->
  ssh_endpoint c = ssh_endpoint d -> jump_host_id c = jump_host_id d -> i = j.

Section Adopt.
Context `{Platform}.

(** ** Names *)

Lemma describe_name ex e : word (describe e) ->
  trim (unique_name ex (describe e)) = unique_name ex (describe e) /\ blank (unique_name ex (describe e)) = false.
Proof.
  intros Hw. assert (trim (unique_name ex (describe e)) = unique_name ex (describe e)
    /\ unique_name ex (describe e) <> "") as [Ht Hn].
  { unfold unique_name. destruct (name_taken ex (describe e)); [|split; [by apply trim_word|by destruct Hw]].
    assert (forall fuel n s, first_free ex (describe e) n fuel = Some s -> exists m, s = candidate (describe e) m) as Hf.
    { induction fuel as [|fuel IH]; intros n s; simpl; [done|]. case_match; [apply IH|]. intros [= <-]. eauto. }
    destruct (first_free _ _ _ _) as [s|] eqn:E; simpl; [|split; [by apply trim_word|by destruct Hw]].
    destruct (Hf _ _ _ E) as [m ->]. destruct Hw as [Hne Hw].
    destruct (describe e) as [|a d]; [done|]. simpl in Hw. apply andb_true_iff in Hw as [Ha _]. split; [|done].
    assert (candidate (String a d) m = String a (d ++ " (" ++ show m) ++ String ")" "")%string as ->.
    { unfold candidate. cbn [append]. by rewrite !append_assoc'. }
    by apply trim_ends. }
  split; [done|]. unfold blank. rewrite Ht. by apply String.eqb_neq.
Qed.

(** ** One connection *)

Definition minted_connection (w : World) (i : SshConnectionCreate) : SshConnection :=
  mk_ssh (new_v4 (minted w)) (trim (sc_name i)) (sc_endpoint i) (sc_jump_host_id i) (clock w) (clock w).

Definition with_connection (w : World) (c : SshConnection) : World :=
  mk_world (with_ssh (tables w) (<[ssh_id c := c]> (ssh_connections (tables w)))) (vault w) (S (minted w)) (clock w).

Lemma jumping_through_none id t :
  (forall i c, ssh_connections t !! i = Some c -> jump_host_id c <> Some id) -> jumping_through id t = [].
Proof.
  intros Hn. unfold jumping_through. apply Prelude.filter_none, List.Forall_forall. intros c (i & Hc)%by_name_In.
  apply bool_decide_eq_false. by eapply Hn.
Qed.

Lemma create_ssh_run i w :
  consistent (tables w) -> ssh_create_validate i = Ok tt -> ssh_connections (tables w) !! new_v4 (minted w) = None ->
  (forall id c, ssh_connections (tables w) !! id = Some c -> ssh_name c <> trim (sc_name i)) ->
  (forall j, sc_jump_host_id i = Some j -> exists d, ssh_connections (tables w) !! j = Some d /\ jump_host_id d = None) ->
  run (create_ssh_connection i) w = (Ok (minted_connection w i), with_connection w (minted_connection w i)).
Proof.
  intros C Hv Hnew Hn Hj. unfold create_ssh_connection. rewrite run_st. cbn [run lift_st fst snd]. rewrite Hv.
  cbn [map_err fst snd]. rewrite (run_st_ok _ _ _ _ _ (run_now w)). rewrite (run_st_ok _ _ _ _ _ (run_new_uuid w)).
  set (w1 := mk_world _ _ _ _). change (mk_ssh _ _ _ _ _ _) with (minted_connection w i). set (c := minted_connection w i).
  assert (Hc : run (check_jump_host c) w1 = (Ok tt, w1)).
  { unfold check_jump_host. destruct (jump_host_id c) as [j|] eqn:Ej; [|done]. change (sc_jump_host_id i = Some j) in Ej.
    destruct (Hj j Ej) as (d & Hd & Hdj). rewrite bool_decide_false by (intros ->; simpl in Hd; congruence).
    rewrite run_st, run_require. change (tables w1) with (tables w). rewrite Hd. cbn [ok_or fst snd]. rewrite Hdj.
    cbn [is_some]. unfold ssh_connections_jumping_through. rewrite run_st, run_select. cbn [fst snd].
    rewrite jumping_through_none; [done|]. intros k a Ha Hk.
    pose proof (ssh_refers _ C k a Ha) as Hr. rewrite Hk in Hr. apply refers_Some in Hr as [x Hx]. simpl in Hx. congruence. }
  rewrite (run_st_ok _ _ _ _ _ Hc). rewrite (run_st_ok _ _ _ tt (with_connection w c)); [done|].
  apply (run_write_ok (insert_ssh c) (ssh_name c) w1 tt). unfold insert_ssh. change (tables w1) with (tables w).
  simpl ssh_id. rewrite Hnew. simpl is_some. cbn [orb].
  replace (name_in_use _ _ _ _) with false by (symmetry; apply name_in_use_false; intros id a Ha Hna; by destruct (Hn id a Ha)).
  replace (refers _ _) with true; [done|]. symmetry. apply refers_insert.
  destruct (jump_host_id c) as [j|] eqn:Ej; [|done]. change (sc_jump_host_id i = Some j) in Ej.
  destruct (Hj j Ej) as (d & Hd & _). apply refers_Some. eauto.
Qed.

(** What adopting endpoints leaves: the rest of the tables, and every connection there was. *)
Record grown (w w' : World) : Prop := {
  g_consistent : consistent (tables w');
  g_one_hop : one_hop (tables w');
  g_fresh : ids_fresh w';
  g_tables : tables w' = with_ssh (tables w) (ssh_connections (tables w'));
  g_kept : ssh_connections (tables w) ⊆ ssh_connections (tables w');
  g_clock : clock w' = clock w;
  g_once : one_record_each (tables w) -> one_record_each (tables w') }.

Definition ready (w : World) : Prop := consistent (tables w) /\ one_hop (tables w) /\ ids_fresh w.

Lemma grown_refl w : ready w -> grown w w.
Proof. intros (? & ? & ?). split; try done. by destruct (tables w). Qed.

Lemma grown_trans a b c : grown a b -> grown b c -> grown a c.
Proof.
  intros [] []. split; try done; [|by etransitivity|congruence|auto]. rewrite g_tables1 at 1. rewrite g_tables0 at 1. done.
Qed.

Lemma grown_ready w w' : grown w w' -> ready w'.
Proof. by intros []. Qed.

Lemma adopt_endpoint_run ex e jump w :
  ready w -> mirrors ex (tables w) -> adoptable e ->
  (forall j, jump = Some j -> exists d, ssh_connections (tables w) !! j = Some d /\ jump_host_id d = None) ->
  exists id created ex' w', run (adopt_endpoint ex e jump) w = (Ok (id, created, ex'), w')
    /\ grown w w' /\ mirrors ex' (tables w')
    /\ exists c, ssh_connections (tables w') !! id = Some c /\ ssh_endpoint c = e /\ jump_host_id c = jump.
Proof.
  intros (C & H1 & Hf) Hm [Hv Hw] Hj. unfold adopt_endpoint. destruct (List.find _ ex) as [c|] eqn:Ef.
  - exists (ssh_id c), false, ex, w. split; [done|]. split; [by apply grown_refl|]. split; [done|].
    apply List.find_some in Ef as [Hin [He%bool_decide_eq_true Hjc%bool_decide_eq_true]%andb_true_iff].
    apply Hm in Hin as (id & Hc). exists c. rewrite (ssh_key _ C id c Hc). done.
  - set (i := mk_ssh_create _ e jump). set (c := minted_connection w i). set (w' := with_connection w c).
    assert (Hrun : run (create_ssh_connection i) w = (Ok c, w')).
    { destruct (describe_name ex e Hw) as [Ht Hb]. apply create_ssh_run; [done| |by apply Hf| |exact Hj].
      - unfold ssh_create_validate. simpl. by rewrite Hb.
      - intros id a Ha. simpl. rewrite Ht.
        apply (proj1 (name_taken_false ex _) (unique_name_free ex _)), Hm. eauto. }
    rewrite run_st, Hrun. cbn [fst snd run ok].
    assert (Hnew : ssh_connections (tables w) !! ssh_id c = None) by (by apply Hf).
    assert (Hc' : ssh_connections (tables w') !! ssh_id c = Some c) by apply lookup_insert_eq.
    exists (ssh_id c), true, (ex ++ [c]), w'. split; [done|].
    assert (Hal : consistent (tables w') /\ one_hop (tables w')).
    { pose proof (create_ssh_alone i w (conj C H1)) as Hal. by rewrite Hrun in Hal. }
    split; [|split].
    + split; try apply Hal; try done.
      * split; [apply Hf|]. intros n Hn. simpl in Hn |- *. rewrite lookup_insert_ne; [apply Hf; lia|].
        intros E. apply Hf in E. lia.
      * by apply insert_subseteq.
      * intros Ho k l a b Ha Hb' He Hje. simpl in Ha, Hb'.
        assert (Hno : forall k a, ssh_connections (tables w) !! k = Some a -> ssh_endpoint a = e -> jump_host_id a = jump -> False).
        { intros k' a' Ha' He' Hj'. eapply List.find_none in Ef; [|apply Hm; by exists k'].
          by rewrite !bool_decide_true in Ef. }
        apply lookup_insert_Some in Ha as [[<- <-]|[_ Ha]]; apply lookup_insert_Some in Hb' as [[<- <-]|[_ Hb']]; [done| | |eauto].
        -- by destruct (Hno l b Hb').
        -- by destruct (Hno k a Ha).
    + intros a. rewrite in_app_iff, (Hm a). simpl. split.
      * intros [[id Ha]|[<-|[]]]; [|by exists (ssh_id c)]. exists id. rewrite lookup_insert_ne; [done|].
        intros <-. simpl in Hnew. congruence.
      * intros (id & [[<- <-]|[_ Ha]]%lookup_insert_Some); [by right; left|left; eauto].
    + by exists c.
Qed.

(** ** One profile *)

Definition attached (q : ConnectionProfile) (id : Uuid) (z : Z) : ConnectionProfile :=
  mk_profile (profile_id q) (profile_name q) (profile_engine q) (environment q) (Some id) (db q) (tool_overrides q)
    (profile_created_at q) z.

Definition attached_tables (t : Tables) (p : Uuid) (q : ConnectionProfile) (id : Uuid) (z : Z) : Tables :=
  with_inline (with_profiles t (<[p := attached q id z]> (profiles t))) (base.delete p (inline_ssh t)).

Lemma attach_run p q id c w :
  profiles (tables w) !! p = Some q -> ssh_connections (tables w) !! id = Some c ->
  run (attach_ssh_connection p id) w = (Ok tt, with_tables w (attached_tables (tables w) p q id (clock w))).
Proof.
  intros Hq Hc. unfold attach_ssh_connection. rewrite (run_st_ok _ _ _ _ _ (run_now w)).
  apply (run_write_ok (attach_row p id (clock w)) "" w tt). unfold attach_row. rewrite Hq.
  replace (refers _ _) with true; [done|]. symmetry. apply refers_Some. eauto.
Qed.

Lemma move_run p c w : exists v, run (move_passphrase p c) w = (tt, with_vault w v).
Proof.
  unfold move_passphrase. simpl. destruct (get_secret _ _ _ (vault w)) as [[[s|]|e] v]; simpl; try by exists v.
  destruct (set_secret _ _ _ s v) as [[[]|e] v']; simpl; [|by exists v'].
  destruct (set_secret _ _ _ "" v') as [r v'']. by exists v''.
Qed.

Lemma passphrase_run (b : bool) p c w : exists v, run (if b then move_passphrase p c else Return tt) w = (tt, with_vault w v).
Proof. destruct b; [apply move_run|]. exists (vault w). by destruct w. Qed.

Definition config_adoptable (cfg : SshConfig) : Prop :=
  adoptable (cfg_endpoint cfg) /\ forall e, cfg_jump_host cfg = Some e -> adoptable e.

Lemma adopt_jump_run ex jump w :
  ready w -> mirrors ex (tables w) -> (forall e, jump = Some e -> adoptable e) ->
  exists id ex' w', run (adopt_jump ex jump) w = (Ok (id, ex'), w') /\ grown w w' /\ mirrors ex' (tables w')
    /\ match jump with
       | None => id = None
       | Some e => exists j d, id = Some j /\ ssh_connections (tables w') !! j = Some d /\ ssh_endpoint d = e
                   /\ jump_host_id d = None
       end.
Proof.
  intros Hr Hm Ha. destruct jump as [e|]; simpl.
  - destruct (adopt_endpoint_run ex e None w) as (id & b & ex' & w' & E & G & M & d & Hd); [done|done|by apply Ha|done|].
    rewrite run_st, E. exists (Some id), ex', w'. naive_solver.
  - exists None, ex, w. split_and!; [done|by apply grown_refl|done|done].
Qed.

Lemma routes_mono t t' id cfg : ssh_connections t ⊆ ssh_connections t' -> routes t id cfg -> routes t' id cfg.
Proof.
  intros Hs (c & Hc & He & Hj). exists c. split; [by eapply lookup_weaken|]. split; [done|].
  destruct (cfg_jump_host cfg); [|done]. destruct Hj as (j & d & ? & Hd & ?). exists j, d.
  split_and!; try done. by eapply lookup_weaken.
Qed.

Lemma attached_ready w p q id v :
  ready w -> profiles (tables w) !! p = Some q -> is_Some (ssh_connections (tables w) !! id) ->
  ready (with_vault (with_tables w (attached_tables (tables w) p q id (clock w))) v).
Proof.
  intros (C & H1 & Hf) Hq [c Hc]. split_and!; [|done|done].
  pose proof (attach_row_keeps p id (clock w) (tables w) C) as Hk. unfold attach_row in Hk. rewrite Hq in Hk.
  replace (refers _ _) with true in Hk; [done|]. symmetry. apply refers_Some. eauto.
Qed.

Lemma adopt_one_run ex ads p n cfg q w :
  ready w -> mirrors ex (tables w) -> profiles (tables w) !! p = Some q -> config_adoptable cfg ->
  exists ex' ad w' id, run (adopt_one (ex, ads) (p, n, cfg)) w = (Ok (ex', ads ++ [ad]), w')
    /\ ad_profile_id ad = p /\ ready w' /\ mirrors ex' (tables w') /\ clock w' = clock w
    /\ ssh_connections (tables w) ⊆ ssh_connections (tables w')
    /\ (one_record_each (tables w) -> one_record_each (tables w'))
    /\ routes (tables w') id cfg
    /\ profiles (tables w') = <[p := attached q id (clock w)]> (profiles (tables w))
    /\ inline_ssh (tables w') = base.delete p (inline_ssh (tables w)).
Proof.
  intros Hr Hm Hq [Ha Hj]. unfold adopt_one.
  destruct (adopt_jump_run ex (cfg_jump_host cfg) w Hr Hm Hj) as (jump & ex1 & w1 & E1 & G1 & M1 & J1).
  rewrite run_st, E1. cbn [fst snd].
  destruct (adopt_endpoint_run ex1 (cfg_endpoint cfg) jump w1) as (id & b & ex2 & w2 & E2 & G2 & M2 & c & Hc & He & Hcj);
    [by eapply grown_ready|done|done| |].
  { intros j ->. destruct (cfg_jump_host cfg); [|done]. destruct J1 as (j' & d & [= <-] & Hd & _ & Hdj). eauto. }
  rewrite run_st, E2. cbn [fst snd].
  assert (Hp2 : profiles (tables w2) = profiles (tables w) /\ inline_ssh (tables w2) = inline_ssh (tables w)).
  { rewrite (g_tables _ _ G2), (g_tables _ _ G1). done. }
  assert (Hc2 : clock w2 = clock w) by (rewrite (g_clock _ _ G2); apply G1).
  destruct Hp2 as [Hp2 Hi2]. rewrite run_st, (attach_run p q id c w2); [|by rewrite Hp2|done]. cbn [fst snd].
  rewrite run_bind. match goal with |- context [run (if ?b then _ else _) ?w] => destruct (passphrase_run b p id w) as [v Ev] end.
  rewrite Ev. cbn [fst snd run ok]. do 4 eexists. split; [reflexivity|].
  split; [done|]. split; [apply attached_ready; [by eapply grown_ready|by rewrite Hp2|done]|].
  split; [done|]. split; [done|]. split; [simpl; etransitivity; [apply G1|apply G2]|].
  split; [intros Ho; apply (g_once _ _ G2), (g_once _ _ G1), Ho|]. split; [|simpl; by rewrite Hp2, Hi2, Hc2].
  exists c. split; [done|]. split; [done|]. destruct (cfg_jump_host cfg) as [e|]; [|congruence].
  destruct J1 as (j & d & -> & Hd & ? & _). exists j, d. split_and!; try done. eapply lookup_weaken; [done|apply G2].
Qed.

(** ** All of them *)

(** A profile that has been adopted: its copy is retired, and it takes its route. *)
Definition adopted (w0 w : World) (id : Uuid) : Prop := exists q0 cfg i,
  profiles (tables w0) !! id = Some q0 /\ ssh_connection_id q0 = None /\ inline_ssh (tables w0) !! id = Some cfg
  /\ profiles (tables w) !! id = Some (attached q0 i (clock w0)) /\ inline_ssh (tables w) !! id = None
  /\ routes (tables w) i cfg.

Definition untouched (w0 w : World) (id : Uuid) : Prop :=
  profiles (tables w) !! id = profiles (tables w0) !! id /\ inline_ssh (tables w) !! id = inline_ssh (tables w0) !! id.

Lemma legacy_row w p n cfg : consistent (tables w) -> In (p, n, cfg) (legacy_rows (tables w)) <->
  exists q, profiles (tables w) !! p = Some q /\ profile_name q = n /\ ssh_connection_id q = None
            /\ inline_ssh (tables w) !! p = Some cfg.
Proof.
  intros C. unfold legacy_rows. rewrite <- list_elem_of_In, list_elem_of_omap. split.
  - intros (q & Hq%list_elem_of_In & Ho). apply by_name_In in Hq as [id Hq]. pose proof (profile_key _ C id q Hq) as <-.
    destruct (ssh_connection_id q) eqn:Es; [done|]. destruct (inline_ssh _ !! _) eqn:Ei; [|done].
    simpl in Ho. injection Ho as <- <- <-. by exists q.
  - intros (q & Hq & <- & Es & Ei). exists q. split; [apply list_elem_of_In, by_name_In; eauto|].
    pose proof (profile_key _ C p q Hq) as <-. by rewrite Es, Ei.
Qed.

Lemma adopt_rows w0 L : consistent (tables w0) ->
  (forall p n cfg, In (p, n, cfg) L -> In (p, n, cfg) (legacy_rows (tables w0)) /\ config_adoptable cfg) ->
  forall ex ads w, ready w -> mirrors ex (tables w) -> clock w = clock w0 ->
  (forall id, untouched w0 w id \/ adopted w0 w id) ->
  exists ex' ads' w', run (each adopt_one L (ex, ads)) w = (Ok (ex', ads'), w')
    /\ map ad_profile_id ads' = map ad_profile_id ads ++ map (fun r => fst (fst r)) L
    /\ ready w' /\ ssh_connections (tables w) ⊆ ssh_connections (tables w')
    /\ (one_record_each (tables w) -> one_record_each (tables w'))
    /\ (forall id, untouched w0 w' id \/ adopted w0 w' id)
    /\ (forall id, adopted w0 w id \/ In id (map (fun r => fst (fst r)) L) -> adopted w0 w' id).
Proof.
  intros C0. induction L as [|[[p n] cfg] L IH]; intros HL ex ads w Hr Hm Hck Hst.
  - exists ex, ads, w. simpl. rewrite app_nil_r. split_and!; try done. by intros id [?|[]].
  - destruct (HL p n cfg) as [Hin Ha]; [by left|]. apply legacy_row in Hin as (q0 & Hq0 & Hn & Hs & Hi); [|done].
    assert (exists q, profiles (tables w) !! p = Some q /\ (forall i z, attached q i z = attached q0 i z)) as (q & Hq & Hqa).
    { destruct (Hst p) as [[-> _]|(q1 & c1 & i & Hq1 & _ & _ & Hp & _)]; [eauto|].
      assert (q1 = q0) as -> by congruence. by eexists. }
    destruct (adopt_one_run ex ads p n cfg q w Hr Hm Hq Ha)
      as (ex1 & ad & w1 & i & E1 & Hid & Hr1 & Hm1 & Hc1 & Hs1 & Ho1 & Hrt & Hp1 & Hi1).
    assert (Hnew : adopted w0 w1 p).
    { exists q0, cfg, i. rewrite Hp1, Hi1, lookup_insert_eq, lookup_delete_eq, Hqa, Hck. done. }
    assert (Hold : forall id, adopted w0 w id -> adopted w0 w1 id).
    { intros id Hid'. destruct (decide (id = p)) as [->|N]; [done|].
      destruct Hid' as (a & c & k & ? & ? & ? & Hap & Hai & Hrk). exists a, c, k.
      rewrite Hp1, Hi1, lookup_insert_ne, lookup_delete_ne by done. split_and!; try done. by eapply routes_mono. }
    assert (Hst1 : forall id, untouched w0 w1 id \/ adopted w0 w1 id).
    { intros id. destruct (decide (id = p)) as [->|N]; [by right|]. destruct (Hst id) as [[Hu1 Hu2]|Had]; [left|right; auto].
      split; [by rewrite Hp1, lookup_insert_ne|by rewrite Hi1, lookup_delete_ne]. }
    destruct (IH (fun p n c H => HL p n c (or_intror H)) ex1 (ads ++ [ad]) w1 Hr1 Hm1 ltac:(congruence) Hst1)
      as (ex2 & ads2 & w2 & E2 & Hads & Hr2 & Hs2 & Ho2 & Hst2 & Had2).
    exists ex2, ads2, w2. change (each adopt_one ((p, n, cfg) :: L) (ex, ads))
      with (let# acc := adopt_one (ex, ads) (p, n, cfg) in each adopt_one L acc). rewrite run_st, E1. cbn [fst snd].
    split; [exact E2|]. split; [rewrite Hads, map_app, <- app_assoc; simpl; by rewrite Hid|].
    split; [done|]. split; [by etransitivity|]. split; [auto|]. split; [done|].
    intros id [Hid'|[<-|Hid']]; apply Had2; auto.
Qed.

Lemma route_resolves t w i cfg : tables w = t -> consistent t -> routes t i cfg ->
  exists r, run (resolve_ssh i) w = (Ok r, w) /\ rs_config r = cfg.
Proof.
  intros <- C (c & Hc & He & Hj). unfold resolve_ssh. rewrite run_st, run_require, Hc. cbn [ok_or fst snd].
  rewrite run_st. destruct cfg as [e [je|]]; simpl in *.
  - destruct Hj as (j & d & -> & Hd & Hde). rewrite run_st, run_require, Hd. simpl. eexists. split; [done|]. simpl. by rewrite He, Hde.
  - rewrite Hj. simpl. eexists. split; [done|]. simpl. by rewrite He.
Qed.

(** Adopting inline configurations, when every server in them validates and has a name
    that can be written down, ends well, reports each profile it adopted, leaves nothing
    to adopt, and every adopted profile reaches its database by the very route its own
    copy described; nothing else of a profile changes but the time of its change, no
    saved connection is lost, and no server is saved twice. *)
Theorem adoption_keeps_every_route w :
  ready w -> (forall p n cfg, In (p, n, cfg) (legacy_rows (tables w)) -> config_adoptable cfg) ->
  exists ads w', run adopt_legacy_configs w = (Ok ads, w')
  /\ map ad_profile_id ads = map (fun r => fst (fst r)) (legacy_rows (tables w))
  /\ legacy_rows (tables w') = []
  /\ ssh_connections (tables w) ⊆ ssh_connections (tables w')
  /\ (one_record_each (tables w) -> one_record_each (tables w'))
  /\ (forall p q, profiles (tables w) !! p = Some q -> (forall n cfg, ~ In (p, n, cfg) (legacy_rows (tables w))) ->
        profiles (tables w') !! p = Some q)
  /\ forall p n cfg, In (p, n, cfg) (legacy_rows (tables w)) -> exists q i r,
       profiles (tables w) !! p = Some q /\ profiles (tables w') !! p = Some (attached q i (clock w))
       /\ run (resolve_ssh i) w' = (Ok r, w') /\ rs_config r = cfg.
Proof.
  intros Hr Ha. pose proof (proj1 Hr) as C. set (L := legacy_rows (tables w)) in *.
  assert (Hm : mirrors (by_name ssh_name (ssh_connections (tables w))) (tables w)) by (intros c; apply by_name_In).
  destruct (adopt_rows w L C (fun p n c H => conj H (Ha p n c H)) _ [] w Hr Hm eq_refl ltac:(by intros id; left))
    as (ex & ads & w' & E & Hads & Hr' & Hs & Ho & Hst & Had).
  assert (Hrows : forall p n cfg, ~ In (p, n, cfg) (legacy_rows (tables w'))).
  { intros p n cfg Hin. apply legacy_row in Hin as (q & Hq & Hn & Hqs & Hi); [|apply Hr'].
    destruct (Hst p) as [[Hu Hui]|(q0 & c & i & _ & _ & _ & Hp & _)]; [|rewrite Hp in Hq; by injection Hq as <-].
    assert (adopted w w' p) as (q0 & c & i & _ & _ & _ & Hp & _); [|rewrite Hp in Hq; by injection Hq as <-].
    apply Had. right. apply in_map_iff. exists (p, n, cfg). split; [done|]. apply legacy_row; [done|].
    exists q. rewrite <- Hu, <- Hui. done. }
  exists ads, w'. split_and!; try done.
  - unfold adopt_legacy_configs, legacy_ssh_configs, list_ssh_connections. rewrite run_st, run_select. cbn [fst snd].
    fold L. destruct L as [|r L'] eqn:EL; [by injection E as <- <- <-|].
    rewrite run_st, run_select. cbn [fst snd]. by rewrite run_st, E.
  - destruct (legacy_rows (tables w')) as [|[[p n] cfg] l] eqn:E2; [done|]. destruct (Hrows p n cfg). by left.
  - intros p q Hq Hno. destruct (Hst p) as [[-> _]|(q0 & c & i & Hq0 & Hs0 & Hi0 & _)]; [done|].
    destruct (Hno (profile_name q0) c). apply legacy_row; eauto.
  - intros p n cfg Hin. assert (adopted w w' p) as (q & c & i & Hq & Hqs & Hi & Hp & _ & Hrt).
    { apply Had. right. apply in_map_iff. by exists (p, n, cfg). }
    apply legacy_row in Hin as (q' & _ & _ & _ & Hi'); [|done]. assert (c = cfg) as -> by congruence.
    destruct (route_resolves _ w' i cfg eq_refl (proj1 Hr') Hrt) as (r & Er & Hcfg). by exists q, i, r.
Qed.
End Adopt.

(** ** Concrete upgrades *)

Definition old_profile (id : Uuid) (name : string) : ConnectionProfile :=
  mk_profile id name Mysql Prod None (mk_db "10.0.0.5" 3306 "app" None) no_tools 5 5.

Definition old_store (rows : list (Uuid * string * SshConfig)) : World :=
  mk_world (mk_tables (list_to_map (map (fun r => (fst (fst r), old_profile (fst (fst r)) (snd (fst r)))) rows))
              (list_to_map (map (fun r => (fst (fst r), snd r)) rows)) ∅ ∅ ∅ ∅ [])
    (mk_vault ∅ ∅ []) 10 1000.

Definition edge : SshEndpoint := server "edge.example.com".
Definition bastion : SshEndpoint := mk_endpoint "bastion.example.com" 2222 "ops" (KeyFile "~/.ssh/id" true).

(** Three databases: two behind one bastion, one of them through an edge host. *)
Definition three_old : World :=
  old_store [(1%N, "orders", mk_ssh_config bastion None); (2%N, "billing", mk_ssh_config bastion (Some edge));
             (3%N, "users", mk_ssh_config bastion None)].

Lemma three_old_rows : legacy_rows (tables three_old) =
  [(2%N, "billing", mk_ssh_config bastion (Some edge)); (1%N, "orders", mk_ssh_config bastion None);
   (3%N, "users", mk_ssh_config bastion None)].
Proof. by vm_compute. Qed.

Lemma old_store_consistent rows :
  NoDup (map (fun r => fst (fst r)) rows) -> NoDup (map (fun r => snd (fst r)) rows) ->
  consistent (tables (old_store rows)).
Proof.
  intros Hk Hn.
  assert (Hl : forall id p, profiles (tables (old_store rows)) !! id = Some p ->
    exists cfg n, In (id, n, cfg) rows /\ p = old_profile id n).
  { intros id p Hp. simpl in Hp. apply elem_of_list_to_map_2, list_elem_of_In, in_map_iff in Hp as ([[i n] cfg] & [= <- <-] & Hin).
    by exists cfg, n. }
  split; try (intros ? ? Hc; simpl in Hc; by apply lookup_empty_Some in Hc); try by intros ? ? ? ? [=].
  - intros id p Hp. by destruct (Hl id p Hp) as (cfg & n & _ & ->).
  - intros i j p q Hp Hq E. destruct (Hl i p Hp) as (c & n & Hi & ->), (Hl j q Hq) as (d & m & Hj & ->). simpl in E. subst m.
    assert (Hu : forall l i j c d, NoDup (map (fun r : Uuid * string * SshConfig => snd (fst r)) l) -> In (i, n, c) l -> In (j, n, d) l -> i = j).
    { clear. induction l as [|r l IH]; intros i j c d HN Hi Hj; [done|]. apply NoDup_cons in HN as [Hni HN].
      destruct Hi as [->|Hi], Hj as [Hj|Hj]; [by injection Hj|..|by eapply IH].
      - destruct Hni. apply list_elem_of_In, in_map_iff. by exists (j, n, d).
      - subst r. destruct Hni. apply list_elem_of_In, in_map_iff. by exists (i, n, c). }
    by eapply Hu.
  - intros id p Hp. by destruct (Hl id p Hp) as (cfg & n & _ & ->).
Qed.

Lemma three_old_ready : ready three_old.
Proof.
  split; [|split].
  - apply old_store_consistent; apply (bool_decide_unpack _); by vm_compute.
  - by intros ? ? ? ? [=].
  - split; [|done]. intros n m E. cbn in E. lia.
Qed.

Lemma three_old_adoptable : forall p n cfg, In (p, n, cfg) (legacy_rows (tables three_old)) -> config_adoptable cfg.
Proof.
  rewrite three_old_rows. intros p n cfg Hin.
  assert (adoptable bastion /\ adoptable edge) as [Hb He] by (split; split; by vm_compute).
  repeat (destruct Hin as [[= <- <- <-]|Hin]; [split; [done|by intros ? [= <-]]|]). done.
Qed.

Lemma adoption_keeps_every_route_witness : exists ads w', run adopt_legacy_configs three_old = (Ok ads, w')
  /\ map ad_profile_id ads = [2%N; 1%N; 3%N] /\ legacy_rows (tables w') = [].
Proof.
  destruct (adoption_keeps_every_route three_old three_old_ready three_old_adoptable) as (ads & w' & E & Ha & Hl & _).
  exists ads, w'. split; [exact E|]. split; [|exact Hl]. rewrite Ha, three_old_rows. reflexivity.
Defined.

(** Two profiles of one server, whose user was typed once with a blank before it. *)
Definition blank_user : SshEndpoint := mk_endpoint "bastion.example.com" 22 " ops" AuthAgent.

Definition blank_old : World :=
  old_store [(1%N, "a", mk_ssh_config (server "bastion.example.com") None); (2%N, "b", mk_ssh_config blank_user None);
             (3%N, "c", mk_ssh_config (server "other.example.com") None)].

(** The name an upgrade makes up is compared as it is and stored trimmed: with one user
    typed after a blank the adoption ends in the very duplicate it was to avoid, and the
    profiles after that one are left as they were, at every start. *)
Theorem adoption_stops_at_a_blank :
  let first := run adopt_legacy_configs blank_old in
  let second := run adopt_legacy_configs (snd first) in
  fst first = Err (DuplicateName "ops@bastion.example.com") /\ fst second = Err (DuplicateName "ops@bastion.example.com")
  /\ map (fun r => snd (fst r)) (legacy_rows (tables (snd second))) = ["b"; "c"].
Proof. by vm_compute. Qed.
