(* ===== verification/HostKeys.v ===== *)
(** * HostKeys: opening an SSH route (engine/src/ssh.rs, engine/src/connect.rs and
      [trust_host_key] of the desktop application's commands.rs)

    A server proves who it is with a key, and only a key that was pinned is
    believed; then the user is authenticated to it.  The SSH library is the class
    [Russh]: what reaching a server, loading a key and offering it give.  Everything
    done to a server is kept in order in a list of [NetEvent]s.  A route is opened
    against the keys pinned when it starts. *)

From Stdlib Require Import ZArith Lia Ascii String List Bool.
From stdpp Require Import base list gmap strings relations.
From S2P Require Import Prelude Text Domain Exec Disk Vault Ssh Database Connections Consistency Adoption.
Import ListNotations.
Open Scope string_scope.
Open Scope list_scope.
Open Scope Z_scope.
Open Scope dbsync_scope.

(** ** Data *)

Record HostKeyInfo := mk_host_key { algorithm : string; fingerprint : string }.

Inductive HostKeyDecision := Known | AcceptedNew | Rejected.

Inductive TunnelError :=
| Connect (target detail : string)
| HostKeyRejected (host_port : string)
| HostKeyUnknown (host_port algorithm fingerprint : string)
| HostKeyChanged (host_port expected actual : string)
| Auth (user host detail : string)
| KeyFileError (path detail : string)
| AgentError (why : string)
| PortAllocation (why : string)
| Protocol (why : string).

Definition tunnel_error_text (e : TunnelError) : string :=
  match e with
  | Connect target detail => "ssh connection to " ++ target ++ " failed: " ++ detail
  | HostKeyRejected hp => "host key for " ++ hp ++ " was refused"
  | HostKeyUnknown hp alg fp =>
      hp ++ " is not a known host; its " ++ alg ++ " key fingerprint is " ++ fp ++ ". "
      ++ "Verify it out of band, then trust it to continue."
  | HostKeyChanged hp expected actual =>
      "host key for " ++ hp ++ " has CHANGED (pinned " ++ expected ++ ", server offered " ++ actual ++ "); "
      ++ "refusing to connect"
  | Auth user host detail => "authentication failed for " ++ user ++ "@" ++ host ++ ": " ++ detail
  | KeyFileError path detail => "could not read private key " ++ path ++ ": " ++ detail
  | AgentError why => "ssh-agent is unavailable: " ++ why
  | PortAllocation why => "could not allocate a local port: " ++ why
  | Protocol why => "ssh protocol error: " ++ why
  end%string.

(** [HopCredentials] is the passphrase of a hop's key, if it has one. *)
Record SshCredentials := mk_credentials {
  cr_endpoint : option string;
  cr_jump_host : option string }.

Definition no_credentials : SshCredentials := mk_credentials None None.

(** ** Believing a key *)

(** The trait [HostKeyVerifier]. *)
Definition HostKeyVerifier : Type := string -> HostKeyInfo -> result HostKeyDecision TunnelError.

Definition accept_all : HostKeyVerifier := fun _ _ => Ok AcceptedNew.

(** What the store answers when it is asked for the key pinned for an address: its kind
    and fingerprint, or why it cannot be read. *)
Definition KnownHosts : Type := string -> result (option (string * string)) string.

(** A store that can be read. *)
Definition hosts_in (rows : gmap string (string * string)) : KnownHosts := fun hp => Ok (rows !! hp).

(** [StoreHostKeyVerifier]. *)
Definition store_verify (pinned : KnownHosts) : HostKeyVerifier := fun hp key =>
  let? found := map_err (pinned hp) (fun e => Protocol ("could not read known hosts: " ++ e)%string) in
  match found with
  | None => Err (HostKeyUnknown hp (algorithm key) (fingerprint key))
  | Some (_, fp) =>
      if String.eqb fp (fingerprint key) then Ok Known else Err (HostKeyChanged hp fp (fingerprint key))
  end.

Definition check_server_key (verify : HostKeyVerifier) (hp : string) (key : HostKeyInfo) : result bool TunnelError :=
  let? d := verify hp key in
  Ok (match d with Known | AcceptedNew => true | Rejected => false end).

(** ** The library *)

Inductive AuthResult := AuthSuccess | AuthFailure (remaining : string).

Class Russh := {
  (** Reaching a server, directly or over a channel of the session with [via]: its key. *)
  reach : option SshEndpoint -> SshEndpoint -> result HostKeyInfo string;
  (** A channel to the target through the jump host. *)
  open_channel : SshEndpoint -> SshEndpoint -> result unit string;
  unknown_key_text : string;
  home_dir : option string;
  load_secret_key : string -> option string -> result string string;
  offer_key : SshEndpoint -> string -> result AuthResult string;
  agent : result (list string) string;
  offer_identity : SshEndpoint -> string -> result AuthResult string;
  bind_port : result Z string }.

Inductive NetEvent :=
| Offered (e : SshEndpoint) (key : HostKeyInfo)   (* the server showed its key *)
| Presented (e : SshEndpoint).                    (* a credential of ours was used with it *)

Definition Net (A : Type) : Type := (result A TunnelError * list NetEvent)%type.

Definition net {A} (r : result A TunnelError) : Net A := (r, []).

Definition net_bind {A B} (m : Net A) (k : A -> Net B) : Net B :=
  match m with
  | (Ok a, l) => let '(r, l') := k a in (r, l ++ l')
  | (Err e, l) => (Err e, l)
  end.

Notation "'let+' x ':=' e 'in' k" := (net_bind e (fun x => k))
  (at level 10, x pattern, e at level 100, k at level 200).

Definition saw (e : NetEvent) : Net unit := (Ok tt, [e]).

Section Routes.
Context `{Russh}.

Definition host_port (e : SshEndpoint) : string := (ep_host e ++ ":" ++ show (ep_port e))%string.

(** A failed connection, without flattening the verdict on a key. *)
Definition connect_error (target : string) (e : TunnelError) : TunnelError :=
  match e with
  | HostKeyUnknown _ _ _ | HostKeyChanged _ _ _ | HostKeyRejected _ => e
  | other => Connect target (tunnel_error_text other)
  end.

(** A leading [~/] is the home directory's. *)
Definition expand_tilde (path : string) : string :=
  match strip_prefix "~/" path with
  | Some rest => match home_dir with Some home => path_join home rest | None => path end
  | None => path
  end.

Definition load_key (path : string) (passphrase : option string) : result string TunnelError :=
  map_err (load_secret_key (expand_tilde path) passphrase) (KeyFileError (expand_tilde path)).

(** Every identity the agent holds, until one is accepted. *)
Fixpoint offer_identities (e : SshEndpoint) (identities : list string) (last : option AuthResult) : Net (option AuthResult) :=
  match identities with
  | [] => net (Ok last)
  | identity :: rest =>
      let+ _ := saw (Presented e) in
      match offer_identity e identity with
      | Ok AuthSuccess => net (Ok (Some AuthSuccess))
      | Ok other => offer_identities e rest (Some other)
      | Err detail => net (Err (Auth (ep_user e) (ep_host e) detail))
      end
  end.

(** On Unix. *)
Definition authenticate_with_agent (e : SshEndpoint) : Net AuthResult :=
  let+ identities := net (map_err agent AgentError) in
  match identities with
  | [] => net (Err (AgentError "ssh-agent holds no identities; add one with `ssh-add`"))
  | _ =>
      let+ last := offer_identities e identities None in
      net (Ok (default (AuthFailure "MethodSet([])") last))
  end.

Definition authenticate (e : SshEndpoint) (passphrase : option string) : Net unit :=
  let+ r := match ep_auth e with
            | AuthAgent => authenticate_with_agent e
            | KeyFile path _ =>
                let+ key := net (load_key path passphrase) in
                let+ _ := saw (Presented e) in
                net (map_err (offer_key e key) (Auth (ep_user e) (ep_host e)))
            end in
  match r with
  | AuthSuccess => net (Ok tt)
  | AuthFailure remaining =>
      net (Err (Auth (ep_user e) (ep_host e)
                  ("server rejected our credentials (it offers: " ++ remaining ++ ")")%string))
  end.

(** One session: reach the server, be shown its key, believe it or not. *)
Definition session (verify : HostKeyVerifier) (via : option SshEndpoint) (e : SshEndpoint) : Net unit :=
  match reach via e with
  | Err why => net (Err (connect_error (host_port e) (Protocol why)))
  | Ok key =>
      let+ _ := saw (Offered e key) in
      match check_server_key verify (host_port e) key with
      | Ok true => net (Ok tt)
      | Ok false => net (Err (connect_error (host_port e) (Protocol unknown_key_text)))
      | Err err => net (Err (connect_error (host_port e) err))
      end
  end.

Definition establish (verify : HostKeyVerifier) (cfg : SshConfig) (creds : SshCredentials) : Net unit :=
  let+ _ := match cfg_jump_host cfg with
            | None => session verify None (cfg_endpoint cfg)
            | Some jump =>
                let+ _ := session verify None jump in
                let+ _ := authenticate jump (cr_jump_host creds) in
                let+ _ := net (map_err (open_channel jump (cfg_endpoint cfg)) (fun why =>
                            Connect (host_port (cfg_endpoint cfg))
                              ("could not reach it through the jump host: " ++ why)%string)) in
                session verify (Some jump) (cfg_endpoint cfg)
            end in
  authenticate (cfg_endpoint cfg) (cr_endpoint creds).

(** [TunnelProvider::open]: the local port that forwards. *)
Definition open_route (verify : HostKeyVerifier) (cfg : SshConfig) (creds : SshCredentials) : Net Z :=
  let+ _ := establish verify cfg creds in
  net (map_err bind_port PortAllocation).

(** The key [CapturingVerifier] was asked about last. *)
Fixpoint last_seen (l : list NetEvent) (acc : option HostKeyInfo) : option HostKeyInfo :=
  match l with
  | [] => acc
  | Offered _ key :: l => last_seen l (Some key)
  | _ :: l => last_seen l acc
  end.

Record SshProbe := mk_probe { pb_host_key : HostKeyInfo; authenticated_as : string }.

Definition probe (verify : HostKeyVerifier) (cfg : SshConfig) (creds : SshCredentials) : Net SshProbe :=
  match establish verify cfg creds with
  | (Ok _, l) =>
      (Ok (mk_probe (default (mk_host_key "unknown" "unknown") (last_seen l None)) (ep_user (cfg_endpoint cfg))), l)
  | (Err e, l) => (Err e, l)
  end.
End Routes.

(** ** Connecting to a profile (connect.rs) *)

Inductive ConnectError :=
| OfTunnel (e : TunnelError)
| OfDb (text : string)
| OfSecrets (e : KeyError)
| OfStore (e : StoreError).

Definition connect_error_text `{Platform} (e : ConnectError) : string :=
  match e with
  | OfTunnel e => tunnel_error_text e
  | OfDb text => text
  | OfSecrets e => "keychain error: " ++ key_error_text e
  | OfStore e => "store error: " ++ store_error_text e
  end%string.

Definition C_ (A : Type) : Type := Db (result A ConnectError).

Definition c_bind {A B} (m : C_ A) (k : A -> C_ B) : C_ B :=
  db_bind m (fun r => match r with Ok a => k a | Err e => Return (Err e) end).

Notation "'let@' x ':=' e 'in' k" := (c_bind e (fun x => k))
  (at level 10, x pattern, e at level 100, k at level 200).

Definition c_store {A} (m : St A) : C_ A := let~ r := m in Return (map_err r OfStore).

Record DbInfo := mk_db_info { info_version : string; can_read_catalog : bool }.

(** A database client: connecting, and asking the server about itself. *)
Class DbClient := {
  db_connect : Engine -> string -> Z -> string -> option string -> option string -> result unit string;
  server_info : Engine -> string -> Z -> result DbInfo string }.

Inductive StepReport := StepOk (detail : string) | StepFail (detail : string) | StepSkip (detail : string).

Definition report_ok (s : StepReport) : bool := match s with StepOk _ => true | _ => false end.
Definition report_failed (s : StepReport) : bool := match s with StepFail _ => true | _ => false end.

Record HostKeyPrompt := mk_prompt {
  hp_host_port : string;
  hp_algorithm : string;
  hp_fingerprint : string;
  hp_changed : bool;
  hp_previous : option string }.

Record SshReport := mk_ssh_report {
  sr_ssh : StepReport;
  sr_host_key : option string;
  sr_authenticated_as : option string;
  sr_prompt : option HostKeyPrompt }.

Definition ssh_report_succeeded (r : SshReport) : bool := report_ok (sr_ssh r).

Record ConnectionReport := mk_connection_report {
  cn_ssh : StepReport;
  cn_tunnel : StepReport;
  cn_ping : StepReport;
  cn_catalog : StepReport;
  cn_version : option string;
  cn_prompt : option HostKeyPrompt }.

Definition connection_succeeded (r : ConnectionReport) : bool :=
  negb (report_failed (cn_ssh r)) && negb (report_failed (cn_tunnel r)) && report_ok (cn_ping r)
  && negb (report_failed (cn_catalog r)).

Section Profiles.
Context `{Platform} `{Russh} `{DbClient}.

(** Each hop's passphrase, under its own connection's id, and only when its key has one. *)
Definition hop_passphrase (c : SshConnection) : C_ (option string) :=
  if needs_passphrase (ssh_endpoint c) then
    let~ r := stmt (Keychain (get_secret uuid_text (ssh_id c) SshKeyPassphrase)) in Return (map_err r OfSecrets)
  else Return (Ok None).

Definition resolve_credentials (r : ResolvedSsh) : C_ SshCredentials :=
  let@ endpoint := hop_passphrase (rs_connection r) in
  let@ jump := match rs_jump_host r with Some j => hop_passphrase j | None => Return (Ok None) end in
  Return (Ok (mk_credentials endpoint jump)).

(** The keys pinned now, and a route opened against them. *)
Definition over_pinned {A} (m : HostKeyVerifier -> Net A) : C_ A :=
  let~ pinned := stmt (Sql (fun t => (known_hosts t, t))) in
  Return (map_err (fst (m (store_verify (hosts_in pinned)))) OfTunnel).

Definition open_tunnel (p : ConnectionProfile) : C_ (option Z) :=
  match ssh_connection_id p with
  | None => Return (Ok None)
  | Some id =>
      let@ resolved := c_store (resolve_ssh id) in
      let@ creds := resolve_credentials resolved in
      let@ port := over_pinned (fun v => open_route v (rs_config resolved) creds) in
      Return (Ok (Some port))
  end.

(** Where the client connects: the tunnel's local end, or the host itself. *)
Definition client_address (p : ConnectionProfile) (tunnel : option Z) : string * Z :=
  match tunnel with
  | Some port => ("127.0.0.1", port)
  | None => (db_host (db p), db_port (db p))
  end.

Definition db_password (p : ConnectionProfile) : C_ (option string) :=
  let~ r := stmt (Keychain (get_secret uuid_text (profile_id p) DbPassword)) in Return (map_err r OfSecrets).

(** [open]: the tunnel's port, once the client is connected. *)
Definition open_profile (p : ConnectionProfile) (database : option string) : C_ (option Z) :=
  let@ tunnel := open_tunnel p in
  let '(host, port) := client_address p tunnel in
  let@ password := db_password p in
  let@ _ := Return (map_err (db_connect (profile_engine p) host port (db_user (db p)) password
                       (match database with Some d => Some d | None => db_database (db p) end)) OfDb) in
  Return (Ok tunnel).

(** A failure the user can decide about. *)
Definition host_key_prompt_from (e : ConnectError) : Db (option HostKeyPrompt) :=
  match e with
  | OfTunnel (HostKeyUnknown hp alg fp) => Return (Some (mk_prompt hp alg fp false None))
  | OfTunnel (HostKeyChanged hp expected actual) =>
      let~ r := get_known_host hp in
      let alg := match r with Ok (Some (kind, _)) => kind | _ => "unknown" end in
      Return (Some (mk_prompt hp alg actual true (Some expected)))
  | _ => Return None
  end.

Definition test_ssh_connection (id : Uuid) : Db SshReport :=
  let~ resolved := resolve_ssh id in
  match resolved with
  | Err e => Return (mk_ssh_report (StepFail (store_error_text e)) None None None)
  | Ok resolved =>
      let~ creds := resolve_credentials resolved in
      match creds with
      | Err e =>
          Return (mk_ssh_report (StepFail ("could not read the keychain: " ++ connect_error_text e)%string) None None None)
      | Ok creds =>
          let~ probed := over_pinned (fun v => probe v (rs_config resolved) creds) in
          match probed with
          | Ok p =>
              Return (mk_ssh_report
                (StepOk (match rs_jump_host resolved with
                         | Some j => ("authenticated, through " ++ ssh_name j)%string
                         | None => "authenticated"
                         end)) (Some (fingerprint (pb_host_key p))) (Some (authenticated_as p)) None)
          | Err e =>
              let~ prompt := host_key_prompt_from e in
              Return (mk_ssh_report (StepFail (connect_error_text e)) None None prompt)
          end
      end
  end.

Definition ssh_connection_name (p : ConnectionProfile) : Db (option string) :=
  match ssh_connection_id p with
  | None => Return None
  | Some id =>
      let~ r := get_ssh_connection id in
      Return (match r with Ok (Some c) => Some (ssh_name c) | _ => None end)
  end.

(** Once the tunnel, if any, stands: the password, the client and the catalog. *)
Definition test_database (p : ConnectionProfile) (tunnel : option Z) (ssh tun : StepReport) : Db ConnectionReport :=
  let '(host, port) := client_address p tunnel in
  let~ password := stmt (Keychain (get_secret uuid_text (profile_id p) DbPassword)) in
  match password with
  | Err e =>
      Return (mk_connection_report ssh tun (StepFail ("could not read the keychain: " ++ key_error_text e)%string)
                (StepSkip "not attempted") None None)
  | Ok password =>
      match db_connect (profile_engine p) host port (db_user (db p)) password (db_database (db p)) with
      | Err text => Return (mk_connection_report ssh tun (StepFail text) (StepSkip "not attempted") None None)
      | Ok _ =>
          let ping := StepOk ("connected as " ++ db_user (db p))%string in
          Return (match server_info (profile_engine p) host port with
                  | Ok info =>
                      mk_connection_report ssh tun ping
                        (if can_read_catalog info then StepOk "catalog is readable"
                         else StepFail ("connected, but this user cannot read the catalog; "
                                        ++ "table listing and verification will not work")%string)
                        (Some (info_version info)) None
                  | Err text => mk_connection_report ssh tun ping (StepFail text) None None
                  end)
      end
  end.

Definition test_connection (p : ConnectionProfile) : Db ConnectionReport :=
  match ssh_connection_id p with
  | None =>
      test_database p None (StepSkip "profile connects directly; no SSH step") (StepSkip "no tunnel needed")
  | Some _ =>
      let~ tunnel := open_tunnel p in
      match tunnel with
      | Ok handle =>
          let~ name := ssh_connection_name p in
          let ssh := StepOk (match name with Some n => ("authenticated to " ++ n)%string | None => "authenticated" end) in
          let tun := match handle with
                     | Some port =>
                         StepOk ("forwarding 127.0.0.1:" ++ show port ++ " to " ++ db_host (db p) ++ ":"
                                 ++ show (db_port (db p)))%string
                     | None => StepSkip "no tunnel needed"
                     end in
          test_database p handle ssh tun
      | Err e =>
          let~ prompt := host_key_prompt_from e in
          Return (mk_connection_report (StepFail (connect_error_text e)) (StepSkip "SSH did not connect")
                    (StepSkip "SSH did not connect") (StepSkip "not attempted") None prompt)
      end
  end.

(** [trust_host_key]: a different key replaces the pinned one only when that was asked for. *)
Inductive TrustError := TrustChanged (current : string) | TrustStore (e : StoreError).

Definition trust_host_key (hp alg fp : string) (replace : bool) : Db (result unit TrustError) :=
  let~ existing := get_known_host hp in
  match existing with
  | Err e => Return (Err (TrustStore e))
  | Ok (Some (_, current)) =>
      if negb (String.eqb current fp) && negb replace then Return (Err (TrustChanged current))
      else let~ r := replace_host_key hp alg fp in Return (map_err r TrustStore)
  | Ok None => let~ r := remember_host hp alg fp in Return (map_err r TrustStore)
  end.
End Profiles.

(** ** Lemmas: what a credential is preceded by *)

Definition is_presented (ev : NetEvent) : Prop := match ev with Presented _ => True | _ => False end.

(** After [pre], every credential of [l] goes to a server whose key was shown and is the
    one pinned for its address. *)
Definition covered (pinned : KnownHosts) (pre l : list NetEvent) : Prop :=
  forall l1 e l2, l = l1 ++ Presented e :: l2 ->
    exists key kind, In (Offered e key) (pre ++ l1) /\ pinned (host_port e) = Ok (Some (kind, fingerprint key)).

(** A server that was believed. *)
Definition believed (pinned : KnownHosts) (e : SshEndpoint) (l : list NetEvent) : Prop :=
  exists key kind, In (Offered e key) l /\ pinned (host_port e) = Ok (Some (kind, fingerprint key)).

Section Covered.
Context `{Russh} (pinned : KnownHosts).

Lemma covered_app pre l l' : covered pinned pre l -> covered pinned (pre ++ l) l' -> covered pinned pre (l ++ l').
Proof.
  intros Hl Hl' l1 e l2 E. apply app_eq_app in E as (k & [[-> E]|[-> E]]).
  - destruct k as [|ev k]; simpl in E.
    + rewrite app_nil_r in *. destruct (Hl' [] e l2 (eq_sym E)) as (key & kind & Hin & Hp). exists key, kind.
      rewrite app_nil_r in Hin. done.
    + injection E as <- ->. destruct (Hl l1 e k eq_refl) as (key & kind & ? & ?). by exists key, kind.
  - destruct (Hl' k e l2 E) as (key & kind & Hin & Hp). exists key, kind. by rewrite app_assoc.
Qed.

Lemma covered_quiet pre l : Forall (fun ev => ~ is_presented ev) l -> covered pinned pre l.
Proof. intros Hl l1 e l2 ->. apply Forall_app in Hl as [_ Hl]. inversion Hl as [|? ? Hn]. by destruct Hn. Qed.

Lemma covered_same pre e l : believed pinned e pre -> Forall (fun ev => ev = Presented e) l -> covered pinned pre l.
Proof.
  intros (key & kind & Hin & Hp) Hl l1 e' l2 ->. apply Forall_app in Hl as [_ Hl]. apply Forall_cons in Hl as [[= ->] _].
  exists key, kind. split; [apply in_or_app; by left|done].
Qed.

Lemma session_spec via e :
  Forall (fun ev => ~ is_presented ev) (snd (session (store_verify pinned) via e))
  /\ (fst (session (store_verify pinned) via e) = Ok tt -> believed pinned e (snd (session (store_verify pinned) via e))).
Proof.
  unfold session, check_server_key, store_verify, saw, net. destruct (reach via e) as [key|]; simpl; [|by split; [constructor|]].
  destruct (pinned (host_port e)) as [[[kind fp]|]|why] eqn:Ep; simpl; [|by split; [repeat constructor; auto|]..].
  destruct (String.eqb_spec fp (fingerprint key)) as [->|N]; simpl; [|by split; [repeat constructor; auto|]].
  split; [repeat constructor; auto|]. intros _. exists key, kind. split; [by left|done].
Qed.

Lemma identities_trace e ids : forall last, Forall (fun ev => ev = Presented e) (snd (offer_identities e ids last)).
Proof.
  induction ids as [|i ids IH]; intros last; simpl; [constructor|].
  destruct (offer_identity e i) as [[|r]|d]; simpl; try by repeat constructor.
  specialize (IH (Some (AuthFailure r))). destruct (offer_identities e ids _) as [r' l]. simpl in *. by constructor.
Qed.

Lemma bind_trace {A B} (P : NetEvent -> Prop) (m : Net A) (k : A -> Net B) :
  Forall P (snd m) -> (forall a, Forall P (snd (k a))) -> Forall P (snd (net_bind m k)).
Proof.
  destruct m as [[a|e] l]; simpl; [|done]. intros Hl Hk. specialize (Hk a). destruct (k a). simpl in *. by apply Forall_app.
Qed.

Lemma authenticate_trace e c : Forall (fun ev => ev = Presented e) (snd (authenticate e c)).
Proof.
  unfold authenticate. apply bind_trace; [|by intros [|r]; constructor].
  destruct (ep_auth e) as [|path b].
  - apply bind_trace; [constructor|]. intros [|i ids]; [constructor|].
    apply bind_trace; [apply identities_trace|intros; constructor].
  - apply bind_trace; [constructor|]. intros key. apply bind_trace; [by repeat constructor|intros; constructor].
Qed.

Lemma covered_bind {A B} pre (m : Net A) (k : A -> Net B) :
  covered pinned pre (snd m) -> (forall a, fst m = Ok a -> covered pinned (pre ++ snd m) (snd (k a))) ->
  covered pinned pre (snd (net_bind m k)).
Proof.
  destruct m as [[a|e] l]; simpl; [|done]. intros Hl Hk. specialize (Hk a eq_refl).
  destruct (k a) as [r l']. by apply covered_app.
Qed.

Lemma believed_app e pre l : believed pinned e l -> believed pinned e (pre ++ l).
Proof. intros (key & kind & ? & ?). exists key, kind. split; [apply in_or_app; by right|done]. Qed.

Lemma establish_covered cfg creds : covered pinned [] (snd (establish (store_verify pinned) cfg creds)).
Proof.
  unfold establish. destruct (cfg_jump_host cfg) as [jump|].
  - destruct (session_spec None jump) as [Q1 B1]. destruct (session_spec (Some jump) (cfg_endpoint cfg)) as [Q2 B2].
    apply covered_bind.
    + apply covered_bind; [by apply covered_quiet|]. intros [] E1. apply covered_bind.
      { eapply covered_same, authenticate_trace. apply believed_app. auto. }
      intros _ _. apply covered_bind; [apply covered_quiet; constructor|]. intros _ _. by apply covered_quiet.
    + intros [] E. eapply covered_same; [|apply authenticate_trace]. simpl.
      destruct (session _ None jump) as [[[]|] l1]; simpl in *; [|done].
      destruct (authenticate jump _) as [[[]|] l2]; simpl in *; [|done].
      destruct (open_channel jump _) as [[]|]; simpl in *; [|done].
      destruct (session _ (Some jump) _) as [[[]|] l3]; simpl in *; [|done].
      apply believed_app, believed_app, B2. done.
  - destruct (session_spec None (cfg_endpoint cfg)) as [Q1 B1]. apply covered_bind; [by apply covered_quiet|].
    intros [] E1. eapply covered_same, authenticate_trace. apply believed_app. auto.
Qed.
End Covered.

(** ** Theorems *)

(** C12: whether a tunnel is opened or a connection only tested, directly or through a jump
    host, nothing of the user's - no key, no agent identity - is used with a server before
    that server showed its key, and the store answered that the key's fingerprint is
    the one pinned for its address; a store that cannot be read lets none through. *)
Theorem credentials_follow_pinned_keys `{Russh} pinned cfg creds l :
  l = snd (open_route (store_verify pinned) cfg creds) \/ l = snd (probe (store_verify pinned) cfg creds) ->
  forall l1 e l2, l = l1 ++ Presented e :: l2 ->
  exists key kind, In (Offered e key) l1 /\ pinned (host_port e) = Ok (Some (kind, fingerprint key)).
Proof.
  intros Hl. pose proof (establish_covered pinned cfg creds) as Hc.
  assert (l = snd (establish (store_verify pinned) cfg creds)) as ->; [|exact Hc].
  unfold open_route, probe, net in Hl. destruct (establish _ cfg creds) as [[[]|] l']; simpl in Hl;
    rewrite ?app_nil_r in Hl; by destruct Hl.
Qed.

(** A key is pinned exactly when none was, when it is the one pinned, or when replacing
    it was asked for; from then on the server is believed with that key.  Otherwise
    nothing changes, and a server that shows it is still refused. *)
Theorem a_changed_key_needs_replacing `{Platform} w hp alg fp replace :
  let '(r, w') := run (trust_host_key hp alg fp replace) w in
  let verify t := store_verify (hosts_in (known_hosts t)) hp (mk_host_key alg fp) in
  match known_hosts (tables w) !! hp with
  | Some (_, current) =>
      if negb (String.eqb current fp) && negb replace
      then r = Err (TrustChanged current) /\ w' = w /\ verify (tables w') = Err (HostKeyChanged hp current fp)
      else r = Ok tt /\ verify (tables w') = Ok Known
  | None => r = Ok tt /\ verify (tables w) = Err (HostKeyUnknown hp alg fp) /\ verify (tables w') = Ok Known
  end.
Proof.
  unfold trust_host_key. rewrite run_bind. unfold get_known_host. rewrite run_select. cbn [fst snd].
  destruct (known_hosts (tables w) !! hp) as [[kind current]|] eqn:Ek.
  - destruct (String.eqb_spec current fp) as [->|N]; simpl.
    + split; [done|]. unfold store_verify, hosts_in. simpl. by rewrite lookup_insert_eq, String.eqb_refl.
    + destruct replace; simpl.
      * split; [done|]. unfold store_verify, hosts_in. simpl. by rewrite lookup_insert_eq, String.eqb_refl.
      * split; [done|]. split; [done|]. unfold store_verify, hosts_in. rewrite Ek. simpl. by destruct (String.eqb_spec current fp).
  - simpl. unfold pin_host. rewrite Ek. split; [done|]. unfold store_verify, hosts_in. rewrite Ek. simpl.
    by rewrite lookup_insert_eq, String.eqb_refl.
Qed.

(** ** Concrete networks *)

(** Every server can be reached, shows a key made of its name, and takes any credential. *)
Definition toy_russh : Russh := {|
  reach := fun _ e => Ok (mk_host_key "ssh-ed25519" ("SHA256:" ++ ep_host e)%string);
  open_channel := fun _ _ => Ok tt;
  unknown_key_text := "Unknown server key";
  home_dir := Some "/home/ops";
  load_secret_key := fun path _ => Ok path;
  offer_key := fun _ _ => Ok AuthSuccess;
  agent := Ok ["work"];
  offer_identity := fun _ _ => Ok AuthSuccess;
  bind_port := Ok 40000 |}.

Definition two_pinned : gmap string (string * string) :=
  {[ "edge.example.com:22" := ("ssh-ed25519", "SHA256:edge.example.com");
     "bastion.example.com:2222" := ("ssh-ed25519", "SHA256:bastion.example.com") ]}.

Definition through_edge : SshConfig := mk_ssh_config bastion (Some edge).

Definition key_of (e : SshEndpoint) : HostKeyInfo := mk_host_key "ssh-ed25519" ("SHA256:" ++ ep_host e)%string.

Lemma credentials_follow_pinned_keys_witness :
  exists key kind, In (Offered bastion key) [Offered edge (key_of edge); Presented edge; Offered bastion (key_of bastion)]
    /\ hosts_in two_pinned (host_port bastion) = Ok (Some (kind, fingerprint key)).
Proof.
  apply (@credentials_follow_pinned_keys toy_russh (hosts_in two_pinned) through_edge no_credentials
    [Offered edge (key_of edge); Presented edge; Offered bastion (key_of bastion); Presented bastion]) with (l2 := []);
    [left; by vm_compute|reflexivity].
Defined.

(** A profile that reached its database through a jump host whose key has a passphrase; the
    passphrase was filed under the profile. *)
Definition locked_edge : SshEndpoint := mk_endpoint "edge.example.com" 22 "jump" (KeyFile "~/.ssh/edge" true).

Definition locked_old : World :=
  let w := old_store [(1%N, "orders", mk_ssh_config (server "bastion.example.com") (Some locked_edge))] in
  with_vault w (mk_vault {[ account uuid_text 1%N SshKeyPassphrase := "open sesame" ]} ∅ []).

Definition upgraded : World := snd (run adopt_legacy_configs locked_old).

Definition route_credentials (w : World) : option (Uuid * SshCredentials) :=
  match option_map ssh_connection_id (profiles (tables w) !! 1%N) with
  | Some (Some id) =>
      match fst (run (let@ r := c_store (resolve_ssh id) in resolve_credentials r) w) with
      | Ok c => Some (id, c)
      | Err _ => None
      end
  | _ => None
  end.

(** An upgrade files the passphrase under the connection the profile now names, and under
    no other: when it was the jump host's key that needed it, the jump host - a connection
    of its own from then on - has none, the profile's entry is gone, and the passphrase
    lies where a key that needs none will never ask for it. *)
Theorem adoption_forgets_the_jump_passphrase :
  route_credentials upgraded = Some (12%N, no_credentials)
  /\ keychain (vault upgraded) = {[ account uuid_text 12%N SshKeyPassphrase := "open sesame" ]}
  /\ option_map (fun c => needs_passphrase (ssh_endpoint c)) (ssh_connections (tables upgraded) !! 12%N) = Some false
  /\ option_map (fun c => needs_passphrase (ssh_endpoint c)) (ssh_connections (tables upgraded) !! 11%N) = Some true.
Proof. by vm_compute. Qed.
