(* ===== verification/AuditLog.v ===== *)
(** * AuditLog: what was changed, and when (engine/src/audit.rs and the audit log of
      engine/src/store.rs)

    An entry is written after the change it tells of; a log that cannot be written
    to is no error of the change. *)

From Stdlib Require Import ZArith Lia Ascii String List Bool.
From stdpp Require Import base list gmap strings relations.
From S2P Require Import Prelude Text Domain Paging Plan Destination Vault Ssh Database.
Import ListNotations.
Open Scope string_scope.
Open Scope list_scope.
Open Scope Z_scope.

Inductive AuditAction :=
| ProfileCreated | ProfileUpdated | ProfileDeleted
| SshConnectionCreated | SshConnectionUpdated | SshConnectionDeleted
| SecretSet | MaskingChanged
| DestinationCreated | DestinationUpdated | DestinationDeleted
| ScheduleCreated | ScheduleDeleted
| BackupKeyExported | BackupKeyImported | ConfigImported | ArtifactDeleted
| PipelineCreated | PipelineUpdated | PipelineDeleted | PipelineArmed.

#[export] Instance AuditAction_eq : EqDecision AuditAction.
Proof. solve_decision. Defined.

Definition action_as_str (a : AuditAction) : string :=
  match a with
  | ProfileCreated => "profile.created"
  | ProfileUpdated => "profile.updated"
  | ProfileDeleted => "profile.deleted"
  | SshConnectionCreated => "ssh_connection.created"
  | SshConnectionUpdated => "ssh_connection.updated"
  | SshConnectionDeleted => "ssh_connection.deleted"
  | SecretSet => "secret.set"
  | MaskingChanged => "masking.changed"
  | DestinationCreated => "destination.created"
  | DestinationUpdated => "destination.updated"
  | DestinationDeleted => "destination.deleted"
  | ScheduleCreated => "schedule.created"
  | ScheduleDeleted => "schedule.deleted"
  | BackupKeyExported => "backup_key.exported"
  | BackupKeyImported => "backup_key.imported"
  | ConfigImported => "config.imported"
  | ArtifactDeleted => "artifact.deleted"
  | PipelineCreated => "pipeline.created"
  | PipelineUpdated => "pipeline.updated"
  | PipelineDeleted => "pipeline.deleted"
  | PipelineArmed => "pipeline.armed"
  end.

Definition why (a : AuditAction) : string :=
  match a with
  | ProfileUpdated => "a connection now points somewhere else than it did"
  | ProfileDeleted => "backups for it stop happening"
  | SshConnectionUpdated => "every connection tunnelling through it now reaches somewhere else"
  | SshConnectionDeleted => "nothing can tunnel through it any more"
  | MaskingChanged => "a column that was being masked may no longer be"
  | BackupKeyExported => "the key now exists somewhere this application does not control"
  | BackupKeyImported => "artifacts encrypted to the previous key are unreadable unless it was kept"
  | ConfigImported => "connections and plans were overwritten in bulk"
  | DestinationDeleted => "off-site copies stop being made"
  | ScheduleDeleted => "an unattended job stops running"
  | ArtifactDeleted => "a backup was removed by hand"
  | PipelineUpdated => "a saved chain now does something else than it did"
  | PipelineDeleted => "a saved chain stops being runnable"
  | PipelineArmed => "a chain that can drop a database may now run with nobody present"
  | _ => ""
  end.

Lemma action_as_str_inj a b : action_as_str a = action_as_str b -> a = b.
Proof. by destruct a, b. Qed.

(** ** Writing *)

Section AuditLog.
Context `{Platform}.

Definition audit (action : AuditAction) (subject detail : string) : St unit :=
  let# id := new_uuid in
  let# t := now in
  let~ _ := stmt (Sql (fun tb =>
    (tt, with_audit tb (audit_log tb ++ [mk_audit id t (action_as_str action) subject detail])))) in
  ok tt.

Lemma run_audit action subject detail w : exists n, run (audit action subject detail) w
  = (Ok tt, mk_world (with_audit (tables w) (audit_log (tables w)
       ++ [mk_audit (new_v4 (minted w)) (clock w) (action_as_str action) subject detail])) (vault w) n (clock w)).
Proof. unfold audit. simpl. by eexists. Qed.

(** ** Reading *)

Record AuditPage := mk_audit_page { page_entries : list AuditEntry; audit_total : Z }.

Variable rfc3339 : Z -> string.

Definition count_audit (t : Tables) : Z := Z.of_nat (length (audit_log t)).

Definition list_audit_from (answer : list AuditEntry) (limit offset : Z) : list AuditEntry :=
  take_page (Z.max 1 limit) (Z.max 0 offset) answer.

Definition list_audit (t : Tables) : Z -> Z -> list AuditEntry :=
  list_audit_from (in_order (fun e => rfc3339 (au_at e)) (fun e => uuid_text (au_id e)) (audit_log t)).
End AuditLog.
