(* ===== verification/Share.v ===== *)
(** * Share: a configuration as a bundle, and a bundle made a configuration again
      (engine/src/share.rs)

    A bundle names things where the tables refer to them by id, and has no place for
    a secret.  Importing matches what is there by name, creates what is not, and
    removes nothing.  The parser of a bundle's JSON is a parameter. *)

From Stdlib Require Import ZArith Lia Ascii String List Bool.
From stdpp Require Import base list gmap strings relations.
From S2P Require Import Prelude Text Domain Backup Retention Mask Plan Destination Vault Ssh Database AuditLog Connections.
Import ListNotations.
Open Scope string_scope.
Open Scope list_scope.
Open Scope Z_scope.
Open Scope dbsync_scope.

(** ** Data *)

Definition BUNDLE_VERSION : Z := 2.

Record SharedProfile := mk_shared_profile {
  sh_name : string;
  sh_engine : Engine;
  sh_environment : EnvironmentTag;
  sh_db : DbConfig;
  sh_ssh_connection : option string;
  sh_ssh : option SshConfig;
  sh_tool_overrides : ToolOverrides }.

Record SharedSshConnection := mk_shared_ssh {
  shs_name : string;
  shs_endpoint : SshEndpoint;
  shs_jump_host : option string }.

Record SharedPlan := mk_shared_plan {
  shp_profile_name : string;
  shp_name : string;
  shp_database : string;
  shp_selections : list TableSelection;
  shp_masking : list MaskRule }.

Record SharedDestination := mk_shared_destination {
  shd_name : string;
  shd_kind : DestinationKind;
  shd_retention : RetentionPolicy }.

Record ConfigBundle := mk_bundle {
  bundle_version : Z;
  exported_at : Z;
  engine_version : string;
  b_ssh_connections : list SharedSshConnection;
  b_profiles : list SharedProfile;
  b_plans : list SharedPlan;
  b_destinations : list SharedDestination }.

Inductive ShareError :=
| UnsupportedVersion (found supported : Z)
| Malformed (why : string)
| ShareStore (e : StoreError).

(** The lists of an [ImportReport], kept as one list of what was pushed, in order. *)
Inductive ReportField :=
| SshCreated | SshUpdated | ProfilesCreated | ProfilesUpdated | PlansCreated | PlansUpdated
| DestinationsCreated | DestinationsUpdated | SshNeedingPassphrase | NeedsCredentials | OrphanedPlans
| OrphanedSshReferences | DestinationsNeedingKeys.

#[export] Instance ReportField_eq : EqDecision ReportField.
Proof. solve_decision. Defined.

Abbreviation ImportReport := (list (ReportField * string)).

Definition field (f : ReportField) (r : ImportReport) : list string :=
  map snd (List.filter (fun e => bool_decide (fst e = f)) r).

Definition push (f : ReportField) (name : string) (r : ImportReport) : ImportReport := r ++ [(f, name)].

Definition report_is_empty (r : ImportReport) : bool :=
  forallb (fun f => match field f r with [] => true | _ => false end)
    [SshCreated; SshUpdated; ProfilesCreated; ProfilesUpdated; PlansCreated; PlansUpdated; DestinationsCreated; DestinationsUpdated].

(** [from_json]: a bundle of a later version is refused. *)
Definition from_json (parse_bundle : string -> result ConfigBundle string) (raw : string) : result ConfigBundle ShareError :=
  let? bundle := map_err (parse_bundle raw) Malformed in
  if BUNDLE_VERSION <? bundle_version bundle then Err (UnsupportedVersion (bundle_version bundle) BUNDLE_VERSION)
  else Ok bundle.

(** ** Exporting *)

Definition share_ssh (ssh_name_of : Uuid -> option string) (c : SshConnection) : SharedSshConnection :=
  mk_shared_ssh (ssh_name c) (ssh_endpoint c) (match jump_host_id c with Some j => ssh_name_of j | None => None end).

Definition share_profile (ssh_name_of : Uuid -> option string) (p : ConnectionProfile) : SharedProfile :=
  mk_shared_profile (profile_name p) (profile_engine p) (environment p) (db p)
    (match ssh_connection_id p with Some i => ssh_name_of i | None => None end) None (tool_overrides p).

Definition share_plan (owner : ConnectionProfile) (p : SyncPlan) : SharedPlan :=
  mk_shared_plan (profile_name owner) (sp_name p) (sp_database p) (sp_selections p) (sp_masking p).

Definition share_destination (d : Destination) : SharedDestination :=
  mk_shared_destination (dst_name d) (dst_kind d) (dst_retention d).

(** The name of a connection among those listed. *)
Definition name_among (ssh : list SshConnection) (id : Uuid) : option string :=
  option_map ssh_name (List.find (fun c => bool_decide (ssh_id c = id)) ssh).

Section Bundles.
Context `{Platform}.
Variable ENGINE_VERSION : string.

Definition export_plans (acc : list SharedPlan) (p : ConnectionProfile) : St (list SharedPlan) :=
  let# plans := list_sync_plans (profile_id p) in ok (acc ++ map (share_plan p) plans).

Definition export : St ConfigBundle :=
  let# profiles := list_profiles in
  let# ssh := list_ssh_connections in
  let# plans := each export_plans profiles [] in
  let# t := now in
  let# destinations := store_list_destinations in
  ok (mk_bundle BUNDLE_VERSION t ENGINE_VERSION (map (share_ssh (name_among ssh)) ssh)
        (map (share_profile (name_among ssh)) profiles) plans (map share_destination destinations)).

(** ** Importing *)

(** [has_secret(..).unwrap_or(false)]. *)
Definition has_stored (id : Uuid) (k : SecretKind) : St bool :=
  let~ r := stmt (Keychain (has_secret uuid_text id k)) in
  ok (match r with Ok b => b | Err _ => false end).

(** The first pass: every record, without its jump host. *)
Definition import_ssh_record (acc : ImportReport * gmap string Uuid) (incoming : SharedSshConnection)
    : St (ImportReport * gmap string Uuid) :=
  let '(report, ids) := acc in
  let# stored := list_ssh_connections in
  let# (id, report) :=
    match List.find (fun c => String.eqb (ssh_name c) (shs_name incoming)) stored with
    | Some current =>
        let# _ := update_ssh_connection (ssh_id current) (mk_ssh_update None (Some (shs_endpoint incoming)) None) in
        ok (ssh_id current, push SshUpdated (shs_name incoming) report)
    | None =>
        let# created := create_ssh_connection (mk_ssh_create (shs_name incoming) (shs_endpoint incoming) None) in
        ok (ssh_id created, push SshCreated (shs_name incoming) report)
    end in
  let ids := <[shs_name incoming := id]> ids in
  if needs_passphrase (shs_endpoint incoming) then
    let# stored := has_stored id SshKeyPassphrase in
    ok (if stored then report else push SshNeedingPassphrase (shs_name incoming) report, ids)
  else ok (report, ids).

(** The second pass: the jump hosts. *)
Definition import_ssh_jump (ids : gmap string Uuid) (report : ImportReport) (incoming : SharedSshConnection) : St ImportReport :=
  match shs_jump_host incoming with
  | None => ok report
  | Some jump_name =>
      match ids !! shs_name incoming, ids !! jump_name with
      | Some id, Some jump_id =>
          let# _ := update_ssh_connection id (mk_ssh_update None None (Some (Some jump_id))) in
          ok report
      | _, _ =>
          ok (push OrphanedSshReferences
                (shs_name incoming ++ " (needs jump host " ++ str_debug jump_name ++ ")")%string report)
      end
  end.

Definition import_ssh_connections (bundle : ConfigBundle) (report : ImportReport) : St (ImportReport * gmap string Uuid) :=
  let# (report, ids) := each import_ssh_record (b_ssh_connections bundle) (report, ∅) in
  let# report := each (import_ssh_jump ids) (b_ssh_connections bundle) report in
  ok (report, ids).

Definition adopted_name (existing : list SshConnection) (id : Uuid) : option string := name_among existing id.

(** The tunnel a version 1 bundle carried inside a profile. *)
Definition adopt_inline_ssh (legacy : SshConfig) (report : ImportReport) : St (Uuid * ImportReport) :=
  let# existing := list_ssh_connections in
  let# (jump, existing) := adopt_jump existing (cfg_jump_host legacy) in
  let# (id, created, existing) := adopt_endpoint existing (cfg_endpoint legacy) jump in
  let report := match created, adopted_name existing id with
                | true, Some n => push SshCreated n report
                | _, _ => report
                end in
  if needs_passphrase (cfg_endpoint legacy) then
    let# stored := has_stored id SshKeyPassphrase in
    match stored, adopted_name existing id with
    | false, Some n => ok (id, push SshNeedingPassphrase n report)
    | _, _ => ok (id, report)
    end
  else ok (id, report).

Definition import_profile (ids : gmap string Uuid) (report : ImportReport) (incoming : SharedProfile) : St ImportReport :=
  let# (ssh, report) :=
    match sh_ssh_connection incoming, sh_ssh incoming with
    | Some name, _ =>
        match ids !! name with
        | Some id => ok (Some id, report)
        | None =>
            ok (None, push OrphanedSshReferences
                        (sh_name incoming ++ " (needs SSH connection " ++ str_debug name ++ ")")%string report)
        end
    | None, Some legacy => let# (id, report) := adopt_inline_ssh legacy report in ok (Some id, report)
    | None, None => ok (None, report)
    end in
  let# stored := list_profiles in
  let# (id, report) :=
    match List.find (fun p => String.eqb (profile_name p) (sh_name incoming)) stored with
    | Some current =>
        let# _ := update_profile (profile_id current)
          (mk_profile_update None (Some (sh_engine incoming)) (Some (sh_environment incoming)) (Some ssh)
             (Some (sh_db incoming)) (Some (sh_tool_overrides incoming))) in
        ok (profile_id current, push ProfilesUpdated (sh_name incoming) report)
    | None =>
        let# created := create_profile
          (mk_profile_create (sh_name incoming) (sh_engine incoming) (sh_environment incoming) ssh
             (sh_db incoming) (sh_tool_overrides incoming)) in
        ok (profile_id created, push ProfilesCreated (sh_name incoming) report)
    end in
  let# stored := has_stored id DbPassword in
  ok (if stored then report else push NeedsCredentials (sh_name incoming) report).

Definition import_plan (profiles : list ConnectionProfile) (report : ImportReport) (incoming : SharedPlan) : St ImportReport :=
  match List.find (fun p => String.eqb (profile_name p) (shp_profile_name incoming)) profiles with
  | None =>
      ok (push OrphanedPlans
            (shp_name incoming ++ " (needs connection " ++ str_debug (shp_profile_name incoming) ++ ")")%string report)
  | Some owner =>
      let# plans := list_sync_plans (profile_id owner) in
      match List.find (fun p => String.eqb (sp_name p) (shp_name incoming)) plans with
      | Some current =>
          let# _ := update_sync_plan (sp_id current) (shp_selections incoming) in
          let# _ := set_sync_plan_masking (sp_id current) (shp_masking incoming) in
          ok (push PlansUpdated (shp_name incoming) report)
      | None =>
          let# _ := create_sync_plan
            (mk_plan_create (profile_id owner) (shp_name incoming) (shp_database incoming) (shp_selections incoming)
               (shp_masking incoming)) in
          ok (push PlansCreated (shp_name incoming) report)
      end
  end.

(** A destination that is new arrives switched off. *)
Definition import_destination (report : ImportReport) (incoming : SharedDestination) : St ImportReport :=
  let# stored := store_list_destinations in
  let# (id, report) :=
    match List.find (fun d => String.eqb (dst_name d) (shd_name incoming)) stored with
    | Some current =>
        let# _ := store_update_destination (dst_id current)
          (mk_dst_update None (Some (shd_kind incoming)) None (Some (shd_retention incoming))) in
        ok (dst_id current, push DestinationsUpdated (shd_name incoming) report)
    | None =>
        let# created := store_create_destination
          (mk_dst_create (shd_name incoming) (shd_kind incoming) false (shd_retention incoming)) in
        ok (dst_id created, push DestinationsCreated (shd_name incoming) report)
    end in
  let# stored := has_stored id ObjectStoreSecret in
  ok (if stored then report else push DestinationsNeedingKeys (shd_name incoming) report).

Definition import (bundle : ConfigBundle) : St ImportReport :=
  let# (report, ids) := import_ssh_connections bundle [] in
  let# report := each (import_profile ids) (b_profiles bundle) report in
  let# profiles := list_profiles in
  let# report := each (import_plan profiles) (b_plans bundle) report in
  let# report := each import_destination (b_destinations bundle) report in
  let touched f g := show (Z.of_nat (length (field f report) + length (field g report))) in
  let# _ := audit ConfigImported ("bundle from DBSync " ++ engine_version bundle)%string
    (touched ProfilesCreated ProfilesUpdated ++ " connection(s) and " ++ touched PlansCreated PlansUpdated
     ++ " plan(s) created or updated")%string in
  ok report.
End Bundles.
