(* ===== verification/BundleTrip.v ===== *)
(** * BundleTrip: a bundle carries a configuration to another machine whole

    A bundle is well formed when its names are distinct, what it refers to it holds,
    and its servers and destinations validate.  What a consistent store exports is
    well formed, and a well-formed bundle imported where there was nothing, then
    exported, is that bundle again. *)

From Stdlib Require Import ZArith Lia Ascii String List Bool.
From stdpp Require Import base list gmap strings relations.
From S2P Require Import Prelude Text Domain Backup Retention Mask Plan Destination Vault Ssh Database AuditLog Connections Consistency Adoption Share.
Import ListNotations.
Open Scope string_scope.
Open Scope list_scope.
Open Scope Z_scope.
Open Scope dbsync_scope.

(** ** What a bundle holds *)

Definition plan_key_of (x : SharedPlan) : string * string := (shp_profile_name x, shp_name x).

Record well_formed_bundle `{Platform} (b : ConfigBundle) : Prop := {
  wb_ssh_names : NoDup (map shs_name (b_ssh_connections b));
  wb_ssh_valid : forall s, In s (b_ssh_connections b) ->
    endpoint_validate (shs_endpoint s) = Ok tt /\ blank (shs_name s) = false /\ trim (shs_name s) = shs_name s;
  wb_ssh_jumps : forall s j, In s (b_ssh_connections b) -> shs_jump_host s = Some j ->
    exists s', In s' (b_ssh_connections b) /\ shs_name s' = j /\ shs_jump_host s' = None;
  wb_profile_names : NoDup (map sh_name (b_profiles b));
  wb_profile_ssh : forall p, In p (b_profiles b) -> sh_ssh p = None
    /\ forall n, sh_ssh_connection p = Some n -> exists s, In s (b_ssh_connections b) /\ shs_name s = n;
  wb_plan_keys : NoDup (map plan_key_of (b_plans b));
  wb_plan_owners : forall x, In x (b_plans b) -> exists p, In p (b_profiles b) /\ sh_name p = shp_profile_name x;
  wb_destination_names : NoDup (map shd_name (b_destinations b));
  wb_destinations_valid : forall d, In d (b_destinations b) ->
    kind_validate str_debug (shd_kind d) = Ok tt /\ blank (shd_name d) = false /\ trim (shd_name d) = shd_name d }.

(** The same things, in whatever order. *)
Definition same_contents (b b' : ConfigBundle) : Prop :=
  (forall s, In s (b_ssh_connections b) <-> In s (b_ssh_connections b'))
  /\ (forall p, In p (b_profiles b) <-> In p (b_profiles b'))
  /\ (forall x, In x (b_plans b) <-> In x (b_plans b'))
  /\ (forall d, In d (b_destinations b) <-> In d (b_destinations b')).

(** ** Tables listed by name *)

Lemma by_name_NoDup {A B} (name : A -> string) (f : A -> B) (m : gmap Uuid A) :
  (forall i j a b, m !! i = Some a -> m !! j = Some b -> f a = f b -> i = j) -> NoDup (map f (by_name name m)).
Proof.
  intros Hu. unfold by_name. rewrite (Permutation_map f (sort_by_perm _ _)), map_map.
  apply (NoDup_fmap_2_strong (fun r : Uuid * A => f (snd r))); [|apply NoDup_map_to_list].
  intros [i a] [j b] Ha%elem_of_map_to_list Hb%elem_of_map_to_list E. simpl in E.
  pose proof (Hu i j a b Ha Hb E) as ->. congruence.
Qed.

Lemma NoDup_map_on {A B} (f : A -> B) (l : list A) :
  NoDup l -> (forall a b, In a l -> In b l -> f a = f b -> a = b) -> NoDup (map f l).
Proof. intros Hl Hf. apply (NoDup_fmap_2_strong f); [|done]. intros a b Ha%list_elem_of_In Hb%list_elem_of_In. by apply Hf. Qed.

Lemma find_by_name {A} (name : A -> string) (m : gmap Uuid A) n :
  (forall id a, m !! id = Some a -> name a <> n) ->
  List.find (fun a => String.eqb (name a) n) (by_name name m) = None.
Proof.
  intros Hn. destruct (List.find _ _) as [a|] eqn:E; [|done]. exfalso.
  apply List.find_some in E as [(id & Ha)%by_name_In He%String.eqb_eq]. by eapply Hn.
Qed.

Lemma name_among_stored `{Platform} t i : consistent t ->
  name_among (by_name ssh_name (ssh_connections t)) i = option_map ssh_name (ssh_connections t !! i).
Proof.
  intros C. unfold name_among. destruct (List.find _ _) as [c|] eqn:E.
  - apply List.find_some in E as [(id & Hc)%by_name_In Hi%bool_decide_eq_true].
    pose proof (ssh_key _ C id c Hc) as <-. by rewrite <- Hi, Hc.
  - destruct (ssh_connections t !! i) as [c|] eqn:Ec; [|done]. exfalso.
    eapply List.find_none in E; [|apply by_name_In; by exists i]. simpl in E.
    rewrite (ssh_key _ C i c Ec) in E. by rewrite bool_decide_true in E.
Qed.

(** ** What is exported *)

Section Exporting.
Context `{Platform} (version : string).

Definition exported (t : Tables) (z : Z) : ConfigBundle :=
  let ssh := by_name ssh_name (ssh_connections t) in
  mk_bundle BUNDLE_VERSION z version (map (share_ssh (name_among ssh)) ssh)
    (map (share_profile (name_among ssh)) (by_name profile_name (profiles t)))
    (flat_map (fun p => map (share_plan p) (plans_of (profile_id p) t)) (by_name profile_name (profiles t)))
    (map share_destination (list_destinations (destinations t))).

Lemma run_export_plans l w : forall acc, run (each export_plans l acc) w
  = (Ok (acc ++ flat_map (fun p => map (share_plan p) (plans_of (profile_id p) (tables w))) l), w).
Proof.
  induction l as [|p l IH]; intros acc; simpl each.
  - by rewrite app_nil_r.
  - unfold export_plans at 1, list_sync_plans. rewrite run_st, run_st, run_select. cbn [fst snd run ok]. rewrite IH.
    simpl flat_map. by rewrite app_assoc.
Qed.

Lemma run_export w : run (export version) w = (Ok (exported (tables w) (clock w)), w).
Proof.
  unfold export, list_profiles, list_ssh_connections, store_list_destinations.
  rewrite run_st, run_select. cbn [fst snd]. rewrite run_st, run_select. cbn [fst snd].
  rewrite run_st, run_export_plans. cbn [fst snd]. rewrite run_st, run_now. cbn [fst snd].
  rewrite run_st, run_select. done.
Qed.

(** The contents of an export, by the rows behind them. *)
Lemma exported_ssh t z s : consistent t -> In s (b_ssh_connections (exported t z)) <->
  exists id c, ssh_connections t !! id = Some c
    /\ s = share_ssh (fun i => option_map ssh_name (ssh_connections t !! i)) c.
Proof.
  intros C. simpl. rewrite in_map_iff. setoid_rewrite by_name_In. unfold share_ssh. split.
  - intros (c & <- & id & Hc). exists id, c. split; [done|]. f_equal. destruct (jump_host_id c); [|done]. by apply name_among_stored.
  - intros (id & c & Hc & ->). exists c. split; [|eauto]. f_equal. destruct (jump_host_id c); [|done]. by apply name_among_stored.
Qed.

Lemma exported_profile t z p : consistent t -> In p (b_profiles (exported t z)) <->
  exists id q, profiles t !! id = Some q
    /\ p = share_profile (fun i => option_map ssh_name (ssh_connections t !! i)) q.
Proof.
  intros C. simpl. rewrite in_map_iff. setoid_rewrite by_name_In. unfold share_profile. split.
  - intros (c & <- & id & Hc). exists id, c. split; [done|]. f_equal. destruct (ssh_connection_id c); [|done]. by apply name_among_stored.
  - intros (id & c & Hc & ->). exists c. split; [|eauto]. f_equal. destruct (ssh_connection_id c); [|done]. by apply name_among_stored.
Qed.

Lemma exported_plan t z x : consistent t -> In x (b_plans (exported t z)) <->
  exists id p q, sync_plans t !! id = Some p /\ profiles t !! sp_profile_id p = Some q /\ x = share_plan q p.
Proof.
  intros C. simpl. rewrite in_flat_map. split.
  - intros (q & (i & Hq)%by_name_In & (p & <- & Hp)%in_map_iff). unfold plans_of in Hp.
    apply List.filter_In in Hp as [(id & Hp)%by_name_In Hi%bool_decide_eq_true]. exists id, p, q.
    rewrite Hi, (profile_key _ C i q Hq). done.
  - intros (id & p & q & Hp & Hq & ->). exists q. split; [apply by_name_In; eauto|]. apply in_map_iff. exists p.
    split; [done|]. unfold plans_of. apply List.filter_In. split; [apply by_name_In; eauto|].
    apply bool_decide_eq_true. by rewrite (profile_key _ C _ q Hq).
Qed.

Lemma exported_destination t z d : In d (b_destinations (exported t z)) <->
  exists id e, destinations t !! id = Some e /\ d = share_destination e.
Proof.
  simpl. rewrite in_map_iff. unfold list_destinations. split.
  - intros (e & <- & He). apply (by_name_In dst_name) in He as [id He]. eauto.
  - intros (id & e & He & ->). exists e. split; [done|]. apply (by_name_In dst_name). eauto.
Qed.

Lemma plans_of_keys t q : consistent t -> NoDup (map plan_key_of (map (share_plan q) (plans_of (profile_id q) t))).
Proof.
  intros C. rewrite map_map. apply NoDup_map_on.
  - unfold plans_of. apply NoDup_ListNoDup, List.NoDup_filter, NoDup_ListNoDup.
    apply (NoDup_fmap_1 sp_id). apply by_name_NoDup. intros i j a b Ha Hb E.
    by rewrite <- (plan_key _ C i a Ha), <- (plan_key _ C j b Hb).
  - unfold plans_of. intros a b [(i & Ha)%by_name_In Pa%bool_decide_eq_true]%List.filter_In
      [(j & Hb)%by_name_In Pb%bool_decide_eq_true]%List.filter_In E.
    injection E as E. pose proof (plan_names _ C i j a b Ha Hb ltac:(congruence) E) as ->. congruence.
Qed.

Lemma NoDup_flat_map {A B C} (f : A -> list B) (key : B -> C) (g : A -> C -> Prop) l :
  NoDup l -> (forall a, In a l -> NoDup (map key (f a)) /\ forall b, In b (f a) -> g a (key b)) ->
  (forall a a' c, In a l -> In a' l -> g a c -> g a' c -> a = a') -> NoDup (map key (flat_map f l)).
Proof.
  induction l as [|a l IH]; intros Hn Hf Hg; [constructor|]. apply NoDup_cons in Hn as [Hni Hn]. simpl. rewrite map_app.
  apply NoDup_app. split; [by apply Hf; left|]. split.
  - intros c (b & <- & Hb)%list_elem_of_In%in_map_iff (b' & E & (a' & Ha' & Hb')%in_flat_map)%list_elem_of_In%in_map_iff.
    apply Hni, list_elem_of_In. rewrite (Hg a a' (key b)); [done|by left|by right|by apply Hf; [left|]|].
    rewrite <- E. by apply Hf; [right|].
  - apply IH; [done|by intros; apply Hf; right|]. intros x y c Hx Hy. by apply Hg; right.
Qed.

(** A store in which no connection jumps through one that jumps exports a well-formed bundle. *)
Lemma exported_well_formed t z : consistent t -> one_hop t -> well_formed_bundle (exported t z).
Proof.
  intros C H1. split.
  - simpl. rewrite map_map. apply by_name_NoDup. intros i j a b. apply (ssh_names _ C).
  - intros s (id & c & Hc & ->)%exported_ssh; [|done]. by destruct (ssh_valid _ C id c Hc) as (? & ? & ? & _).
  - intros s j (id & c & Hc & ->)%exported_ssh Hj; [|done]. simpl in Hj.
    destruct (jump_host_id c) as [k|] eqn:Ek; [|done]. destruct (ssh_connections t !! k) as [d|] eqn:Ed; [|done].
    injection Hj as <-. exists (share_ssh (fun i => option_map ssh_name (ssh_connections t !! i)) d).
    split; [apply exported_ssh; eauto|]. split; [done|]. simpl. by rewrite (H1 id c k d Hc Ek Ed).
  - simpl. rewrite map_map. apply by_name_NoDup. intros i j a b. apply (profile_names _ C).
  - intros p (id & q & Hq & ->)%exported_profile; [|done]. split; [done|]. intros n Hn. simpl in Hn.
    destruct (ssh_connection_id q) as [k|]; [|done]. destruct (ssh_connections t !! k) as [d|] eqn:Ed; [|done].
    injection Hn as <-. eexists. split; [apply exported_ssh; eauto|done].
  - simpl. apply NoDup_flat_map with (g := fun q k => profile_name q = fst k).
    + apply (NoDup_fmap_1 profile_name), by_name_NoDup. intros i j a b. apply (profile_names _ C).
    + intros q _. split; [by apply plans_of_keys|]. by intros x (p & <- & _)%in_map_iff.
    + intros q q' k (i & Hq)%by_name_In (j & Hq')%by_name_In E E'.
      pose proof (profile_names _ C i j q q' Hq Hq' ltac:(congruence)) as ->. congruence.
  - intros x (id & p & q & Hp & Hq & ->)%exported_plan; [|done].
    eexists. split; [apply exported_profile; eauto|done].
  - simpl. rewrite map_map. apply (by_name_NoDup dst_name). intros i j a b Ha Hb E.
    destruct (destinations_valid _ C i a Ha) as (_ & _ & _ & Hu). symmetry. by eapply Hu.
  - intros d (id & e & He & ->)%exported_destination. destruct (destinations_valid _ C id e He) as (_ & Hv & Ht & _).
    unfold destination_validate in Hv. apply rbind_Ok in Hv as ([] & Hb%guard_Ok & Hv). done.
Qed.
End Exporting.

(** ** Importing into a store that shares no table row *)

Section Loops.
Context `{Platform}.

(** A loop each of whose steps succeeds and extends what holds of the elements behind it. *)
Lemma each_prefix {A S} (f : S -> A -> St S) (P : list A -> S -> World -> Prop) l0 :
  (forall pre a post s w, l0 = pre ++ a :: post -> P pre s w ->
     exists s' w', run (f s a) w = (Ok s', w') /\ P (pre ++ [a]) s' w') ->
  forall s w, P [] s w -> exists s' w', run (each f l0 s) w = (Ok s', w') /\ P l0 s' w'.
Proof.
  intros Hf. cut (forall l pre s w, l0 = pre ++ l -> P pre s w -> exists s' w', run (each f l s) w = (Ok s', w') /\ P l0 s' w').
  { intros Hc s w Hp. by apply (Hc l0 []). }
  induction l as [|a l IH]; intros pre s w E Hp; simpl each.
  - exists s, w. rewrite app_nil_r in E. by subst pre.
  - destruct (Hf pre a l s w E Hp) as (s1 & w1 & E1 & H1). rewrite run_st, E1. cbn [fst snd].
    apply (IH (pre ++ [a])); [by rewrite E, <- app_assoc|done].
Qed.

(** An element of a list without repetitions differs from what is before it. *)
Lemma fresh_in_prefix {A B} (f : A -> B) pre a post : NoDup (map f (pre ++ a :: post)) -> forall x, In x pre -> f x <> f a.
Proof.
  rewrite map_app. intros (_ & Hd & _)%NoDup_app x Hx E. apply (Hd (f a)).
  - apply list_elem_of_In, in_map_iff. by exists x.
  - simpl. by left.
Qed.

Lemma key_inj {A B} (f : A -> B) l a b : NoDup (map f l) -> In a l -> In b l -> f a = f b -> a = b.
Proof.
  induction l as [|x l IH]; intros Hn Ha Hb E; [done|]. simpl in Hn. apply NoDup_cons in Hn as [Hni Hn].
  destruct Ha as [->|Ha], Hb as [Hb|Hb]; [done| | |by apply IH].
  - destruct Hni. apply list_elem_of_In, in_map_iff. by exists b.
  - subst x. destruct Hni. apply list_elem_of_In, in_map_iff. by exists a.
Qed.

Lemma in_prefix {A} (l0 : list A) pre a post x : l0 = pre ++ a :: post -> In x pre \/ x = a -> In x l0.
Proof. intros ->. rewrite in_app_iff. simpl. naive_solver. Qed.

(** Ids still to come are in no table. *)
Definition all_fresh (w : World) : Prop :=
  (forall n m, new_v4 n = new_v4 m -> n = m) /\ forall n, (minted w <= n)%nat ->
    profiles (tables w) !! new_v4 n = None /\ ssh_connections (tables w) !! new_v4 n = None
    /\ sync_plans (tables w) !! new_v4 n = None /\ destinations (tables w) !! new_v4 n = None.

(** What the other tables were. *)
Definition only_ssh (w w' : World) : Prop :=
  profiles (tables w') = profiles (tables w) /\ sync_plans (tables w') = sync_plans (tables w)
  /\ destinations (tables w') = destinations (tables w).

(** The report of an import into an empty store: everything was created, nothing orphaned. *)
Definition clean (r : ImportReport) : Prop := forall e, In e r ->
  ~ In (fst e) [SshUpdated; ProfilesUpdated; PlansUpdated; DestinationsUpdated; OrphanedPlans; OrphanedSshReferences].

Lemma clean_push f n r : clean r -> ~ In f [SshUpdated; ProfilesUpdated; PlansUpdated; DestinationsUpdated; OrphanedPlans; OrphanedSshReferences] ->
  clean (push f n r).
Proof. intros Hr Hf e [He|[<-|[]]]%in_app_iff; [by apply Hr|done]. Qed.

(** Asking the keychain changes no table. *)
Lemma run_has id k w : exists b v, run (has_stored id k) w = (Ok b, with_vault w v).
Proof.
  unfold has_stored. simpl. destruct (has_secret uuid_text id k (vault w)) as [[b|e] v]; simpl; by eexists _, v.
Qed.

(** *** SSH connections, without their jump hosts *)

Section Ssh.
Variable S0 : list SharedSshConnection.
Hypothesis names : NoDup (map shs_name S0).
Hypothesis valid : forall s, In s S0 ->
  endpoint_validate (shs_endpoint s) = Ok tt /\ blank (shs_name s) = false /\ trim (shs_name s) = shs_name s.
Hypothesis jumps : forall s j, In s S0 -> shs_jump_host s = Some j ->
  exists s', In s' S0 /\ shs_name s' = j /\ shs_jump_host s' = None.

Record records_done (w0 : World) (pre : list SharedSshConnection) (acc : ImportReport * gmap string Uuid) (w : World) : Prop := {
  rd_consistent : consistent (tables w);
  rd_fresh : all_fresh w;
  rd_only : only_ssh w0 w;
  rd_clean : clean (fst acc);
  rd_rows : forall id c, ssh_connections (tables w) !! id = Some c ->
    exists s, In s pre /\ ssh_name c = shs_name s /\ ssh_endpoint c = shs_endpoint s /\ jump_host_id c = None;
  rd_ids : forall s, In s pre -> exists id c, snd acc !! shs_name s = Some id
    /\ ssh_connections (tables w) !! id = Some c /\ ssh_name c = shs_name s }.

Lemma import_record_run w0 pre s post acc w :
  S0 = pre ++ s :: post -> records_done w0 pre acc w ->
  exists acc' w', run (import_ssh_record acc s) w = (Ok acc', w') /\ records_done w0 (pre ++ [s]) acc' w'.
Proof.
  intros E [C F O K Hr Hi]. destruct acc as [report ids]. simpl in K, Hi.
  destruct (valid s) as (Hv & Hb & Ht); [eapply in_prefix; eauto|].
  assert (Hno : forall id c, ssh_connections (tables w) !! id = Some c -> ssh_name c <> shs_name s).
  { intros id c Hc Hn. destruct (Hr id c Hc) as (s' & Hs' & Hn' & _). rewrite E in names.
    apply (fresh_in_prefix shs_name pre s post names s' Hs'). congruence. }
  set (i := mk_ssh_create (shs_name s) (shs_endpoint s) None).
  assert (Hnew : ssh_connections (tables w) !! new_v4 (minted w) = None) by (by apply F).
  assert (Hrun : run (create_ssh_connection i) w = (Ok (minted_connection w i), with_connection w (minted_connection w i))).
  { apply create_ssh_run; [done| |done| |done].
    - unfold ssh_create_validate. simpl. by rewrite Hb.
    - simpl. by rewrite Ht. }
  assert (C' : consistent (tables (with_connection w (minted_connection w i)))).
  { pose proof (stays_run _ _ w (create_ssh_stays i) C) as Hc. by rewrite Hrun in Hc. }
  unfold import_ssh_record, list_ssh_connections. rewrite run_st, run_select. cbn [fst snd].
  pose proof (find_by_name ssh_name _ _ Hno) as Hf. destruct (List.find _ _); [done|]. fold i.
  rewrite run_st, run_st, Hrun. cbn [fst snd run ok].
  set (w1 := with_connection w (minted_connection w i)) in *. set (id := ssh_id (minted_connection w i)).
  assert (Hdone : forall r v, clean r -> records_done w0 (pre ++ [s]) (r, <[shs_name s := id]> ids) (with_vault w1 v)).
  { intros r v Hcl. split; try done.
    - destruct F as [Hinj F]. split; [done|]. intros n Hn. simpl in Hn |- *. destruct (F n ltac:(lia)) as (? & ? & ? & ?).
      split_and!; try done. rewrite lookup_insert_ne; [done|]. intros Hid%Hinj. lia.
    - intros k c Hc. simpl in Hc. apply lookup_insert_Some in Hc as [[<- <-]|[_ Hc]].
      + exists s. split; [apply in_or_app; right; by left|]. simpl. by rewrite Ht.
      + destruct (Hr k c Hc) as (s' & ? & ?). exists s'. split; [apply in_or_app; by left|done].
    - intros s' [Hs'|[<-|[]]]%in_app_iff.
      + destruct (Hi s' Hs') as (k & c & Hk & Hc & Hn). exists k, c. simpl.
        rewrite lookup_insert_ne by (rewrite E in names; intros Hx; by apply (fresh_in_prefix shs_name pre s post names s' Hs')).
        rewrite lookup_insert_ne; [done|]. intros Hx. simpl in Hx. rewrite <- Hx in Hc. congruence.
      + exists id, (minted_connection w i). simpl. rewrite !lookup_insert_eq. by rewrite Ht. }
  assert (Hcl : clean (push SshCreated (shs_name s) report)) by (apply clean_push; [done|simpl; intuition discriminate]).
  destruct (needs_passphrase (shs_endpoint s)).
  - destruct (run_has id SshKeyPassphrase w1) as (b & v & Ev). rewrite run_st, Ev. cbn [fst snd run ok].
    do 2 eexists. split; [reflexivity|]. apply Hdone. destruct b; [done|].
    apply clean_push; [done|simpl; intuition discriminate].
  - do 2 eexists. split; [reflexivity|]. change w1 with (with_vault w1 (vault w1)). by apply Hdone.
Qed.

(** *** Their jump hosts *)

Definition jump_of (ids : gmap string Uuid) (s : SharedSshConnection) : option Uuid :=
  match shs_jump_host s with Some j => ids !! j | None => None end.

Record jumps_done (w0 : World) (ids : gmap string Uuid) (pre : list SharedSshConnection) (report : ImportReport) (w : World) : Prop := {
  jd_consistent : consistent (tables w);
  jd_fresh : all_fresh w;
  jd_only : only_ssh w0 w;
  jd_clean : clean report;
  jd_rows : forall id c, ssh_connections (tables w) !! id = Some c ->
    exists s, In s S0 /\ ssh_name c = shs_name s /\ ssh_endpoint c = shs_endpoint s
      /\ ((In s pre /\ jump_host_id c = jump_of ids s) \/ (~ In s pre /\ jump_host_id c = None));
  jd_ids : forall s, In s S0 -> exists id c, ids !! shs_name s = Some id
    /\ ssh_connections (tables w) !! id = Some c /\ ssh_name c = shs_name s }.

Lemma name_unique s s' : In s S0 -> In s' S0 -> shs_name s = shs_name s' -> s = s'.
Proof. by apply key_inj. Qed.

Lemma update_jump_run c d id j w :
  consistent (tables w) -> ssh_connections (tables w) !! id = Some c -> ssh_connections (tables w) !! j = Some d ->
  jump_host_id d = None -> j <> id -> jumping_through id (tables w) = [] ->
  exists c' r, run (update_ssh_connection id (mk_ssh_update None None (Some (Some j)))) w
      = (Ok r, with_tables w (with_ssh (tables w) (<[id := c']> (ssh_connections (tables w)))))
    /\ ssh_name c' = ssh_name c /\ ssh_endpoint c' = ssh_endpoint c /\ jump_host_id c' = Some j.
Proof.
  intros C Hc Hd Hdj Hji Hn. pose proof (ssh_key _ C id c Hc) as Hid. unfold update_ssh_connection.
  rewrite run_st, run_require, Hc. cbn [ok_or fst snd]. rewrite run_st, run_now. cbn [fst snd].
  rewrite run_st. unfold patch_ssh. cbn [su_name su_endpoint rbind map_err run lift_st fst snd].
  set (c1 := mk_ssh (ssh_id c) (ssh_name c) (ssh_endpoint c) (default _ _) _ _).
  assert (Hck : run (check_jump_host c1) w = (Ok tt, w)).
  { unfold check_jump_host. simpl jump_host_id. cbv iota. rewrite bool_decide_false by (simpl; congruence).
    rewrite run_st, run_require, Hd. cbn [ok_or fst snd]. rewrite Hdj. cbn [is_some].
    unfold ssh_connections_jumping_through. rewrite run_st, run_select. cbn [fst snd]. simpl ssh_id. by rewrite Hid, Hn. }
  rewrite run_st, Hck. cbn [fst snd].
  set (c2 := mk_ssh (ssh_id c1) (ssh_name c1) (ssh_endpoint c1) (jump_host_id c1) (ssh_created_at c) (ssh_updated_at c1)).
  assert (Hw : write_ssh c1 (tables w) = (Ok tt, with_ssh (tables w) (<[id := c2]> (ssh_connections (tables w))))).
  { unfold write_ssh. simpl ssh_id. rewrite Hid, Hc.
    replace (name_in_use _ _ _ _) with false.
    2: { symmetry. apply name_in_use_false. intros k a Ha Hna. simpl in Hna. by apply (ssh_names _ C k id a c). }
    replace (refers _ _) with true; [by rewrite <- Hid|]. symmetry. apply (refers_Some _ j). eauto. }
  rewrite run_st, (run_write_ok _ _ _ _ _ Hw). cbn [fst snd run ok]. exists c2. eexists. split; [reflexivity|done].
Qed.

Lemma import_jump_run w0 ids pre s post report w :
  S0 = pre ++ s :: post -> jumps_done w0 ids pre report w ->
  exists report' w', run (import_ssh_jump ids report s) w = (Ok report', w') /\ jumps_done w0 ids (pre ++ [s]) report' w'.
Proof.
  intros E J. pose proof J as [C F O K Hr Hi]. assert (Hs : In s S0) by (eapply in_prefix; eauto).
  assert (Hpre : forall x, In x pre -> x <> s).
  { intros x Hx ->. rewrite E in names. by apply (fresh_in_prefix shs_name pre s post names s Hx). }
  unfold import_ssh_jump. destruct (shs_jump_host s) as [j|] eqn:Ej.
  - destruct (Hi s Hs) as (id & c & Hid & Hc & Hn). destruct (jumps s j Hs Ej) as (sj & Hsj & <- & Hnj).
    destruct (Hi sj Hsj) as (jid & d & Hjid & Hd & Hdn). rewrite Hid, Hjid.
    assert (Hrow : forall k a x, ssh_connections (tables w) !! k = Some a -> In x S0 -> ssh_name a = shs_name x ->
      ((In x pre /\ jump_host_id a = jump_of ids x) \/ (~ In x pre /\ jump_host_id a = None))).
    { intros k a x Ha Hx Hax. destruct (Hr k a Ha) as (y & Hy & Hay & _ & Hj).
      by rewrite (name_unique x y Hx Hy ltac:(congruence)). }
    assert (Hne : jid <> id).
    { intros ->. assert (d = c) as -> by congruence. assert (sj = s) as ->; [apply name_unique; [done|done|congruence]|congruence]. }
    assert (Hdj : jump_host_id d = None).
    { destruct (Hrow jid d sj Hd Hsj Hdn) as [[_ ->]|[_ ->]]; [|done]. unfold jump_of. by rewrite Hnj. }
    assert (Hnone : jumping_through id (tables w) = []).
    { apply jumping_through_none. intros k a Ha Hk. destruct (Hr k a Ha) as (x & Hx & _ & _ & [[_ Hxj]|[_ Hxj]]); [|congruence].
      unfold jump_of in Hxj. destruct (shs_jump_host x) as [n|] eqn:En; [|congruence].
      destruct (jumps x n Hx En) as (y & Hy & <- & Hyj). destruct (Hi y Hy) as (i' & c' & Hi' & Hc' & Hn').
      assert (i' = id) as -> by congruence. assert (c' = c) as -> by congruence.
      assert (y = s) as ->; [apply name_unique; [done|done|congruence]|congruence]. }
    destruct (update_jump_run c d id jid w C Hc Hd Hdj Hne Hnone) as (c2 & r & Er & Hc2n & Hc2e & Hc2j).
    rewrite run_st, Er. cbn [fst snd run ok]. do 2 eexists. split; [reflexivity|]. split; try done.
    + pose proof (stays_run _ _ w (update_ssh_stays id (mk_ssh_update None None (Some (Some jid)))) C) as Hst. by rewrite Er in Hst.
    + destruct F as [Hinj F]. split; [done|]. intros n Hm. destruct (F n Hm) as (? & ? & ? & ?). simpl. split_and!; try done.
      rewrite lookup_insert_ne; [done|]. intros ->. congruence.
    + intros k a Ha. simpl in Ha. apply lookup_insert_Some in Ha as [[<- <-]|[Nk Ha]].
      * exists s. destruct (Hr id c Hc) as (x & Hx & Hcx & Hex & _). assert (x = s) as -> by (apply name_unique; [done|done|congruence]).
        split_and!; [done|congruence|congruence|]. left. split; [apply in_or_app; right; by left|].
        rewrite Hc2j. unfold jump_of. by rewrite Ej, Hjid.
      * destruct (Hr k a Ha) as (x & Hx & Hax & Hex & Hj). exists x. split_and!; try done.
        destruct Hj as [[Hxp Hj]|[Hxp Hj]]; [left; split; [apply in_or_app; by left|done]|].
        destruct (decide (ssh_name a = shs_name s)) as [Has|Has].
        -- pose proof (ssh_names _ C k id a c Ha Hc ltac:(congruence)) as ->. congruence.
        -- right. split; [|done]. intros [Hin|[<-|[]]]%in_app_iff; congruence.
    + intros x Hx. destruct (Hi x Hx) as (k & a & Hk & Ha & Hax). destruct (decide (k = id)) as [->|Nk].
      * exists id, c2. simpl. rewrite lookup_insert_eq. split_and!; [done|done|congruence].
      * exists k, a. simpl. by rewrite lookup_insert_ne.
  - do 2 eexists. split; [reflexivity|]. split; try done. intros k a Ha. destruct (Hr k a Ha) as (x & Hx & Hax & Hex & Hj).
    exists x. split_and!; try done. destruct Hj as [[Hxp Hj]|[Hxp Hj]]; [left; split; [apply in_or_app; by left|done]|].
    destruct (decide (ssh_name a = shs_name s)) as [Has|Has].
    + assert (x = s) as -> by (apply name_unique; [done|done|congruence]). left. split; [apply in_or_app; right; by left|].
      unfold jump_of. by rewrite Ej.
    + right. split; [|done]. intros [Hin|[<-|[]]]%in_app_iff; congruence.
Qed.
End Ssh.
End Loops.
