(* ===== verification/RoundTrip.v ===== *)
(** * RoundTrip: a bundle imported where there was nothing, and exported, is that bundle

    The four passes of an import, one after the other, each over the rows the ones
    before it made. *)

From Stdlib Require Import ZArith Lia Ascii String List Bool.
From stdpp Require Import base list gmap strings relations.
From S2P Require Import Prelude Text Domain Backup Retention Mask Plan Destination Vault Ssh Database AuditLog Connections Consistency Adoption Share BundleTrip.
Import ListNotations.
Open Scope string_scope.
Open Scope list_scope.
Open Scope Z_scope.
Open Scope dbsync_scope.

(** ** Rows made of a list of what a bundle holds *)

Section Rows.
Context {A B : Type} (made : B -> A -> Prop).

Definition rows_of (m : gmap Uuid A) (l : list B) : Prop :=
  (forall id a, m !! id = Some a -> exists b, In b l /\ made b a)
  /\ (forall b, In b l -> exists id a, m !! id = Some a /\ made b a).

Lemma rows_of_none : rows_of ∅ [].
Proof. split; [by intros id a [=]|done]. Qed.

Lemma rows_of_one_more m l id a b : rows_of m l -> m !! id = None -> made b a -> rows_of (<[id := a]> m) (l ++ [b]).
Proof.
  intros [Hm Hl] Hid Hb. split.
  - intros k c [[<- <-]|[_ Hc]]%lookup_insert_Some.
    + exists b. split; [apply in_or_app; right; by left|done].
    + destruct (Hm k c Hc) as (b' & Hin & Ho). exists b'. split; [apply in_or_app; by left|done].
  - intros b' [Hin|[<-|[]]]%in_app_iff.
    + destruct (Hl b' Hin) as (k & c & Hc & Ho). exists k, c. rewrite lookup_insert_ne; [done|congruence].
    + exists id, a. by rewrite lookup_insert_eq.
Qed.

(** What is read off the rows is the list again. *)
Lemma rows_of_read m l (g : A -> B) : rows_of m l -> (forall id b a, In b l -> m !! id = Some a -> made b a -> g a = b) ->
  forall b, In b l <-> exists id a, m !! id = Some a /\ b = g a.
Proof.
  intros [Hm Hl] Hg b. split.
  - intros Hin. destruct (Hl b Hin) as (id & a & Ha & Ho). exists id, a. by rewrite (Hg id b a Hin Ha Ho).
  - intros (id & a & Ha & ->). destruct (Hm id a Ha) as (b' & Hin & Ho). by rewrite (Hg id b' a Hin Ha Ho).
Qed.
End Rows.

Section Importing.
Context `{Platform}.

(** ** SSH connections: both passes *)

Lemma import_ssh_run b w : well_formed_bundle b -> consistent (tables w) -> all_fresh w -> ssh_connections (tables w) = ∅ ->
  exists report ids w', run (import_ssh_connections b []) w = (Ok (report, ids), w')
    /\ jumps_done (b_ssh_connections b) w ids (b_ssh_connections b) report w'.
Proof.
  intros [Wn Wv Wj _ _ _ _ _ _] C F E. unfold import_ssh_connections.
  destruct (each_prefix import_ssh_record (records_done w) (b_ssh_connections b)
    (fun pre s post acc w' El => import_record_run _ Wn Wv w pre s post acc w' El) ([], ∅) w) as ([report ids] & w1 & E1 & R1).
  { split; try done; [by intros e []|intros id c Hc; by rewrite E in Hc]. }
  rewrite run_st, E1. cbn [fst snd]. destruct R1 as [C1 F1 O1 K1 Hr1 Hi1].
  destruct (each_prefix (import_ssh_jump ids) (jumps_done (b_ssh_connections b) w ids) (b_ssh_connections b)
    (fun pre s post report w' El => import_jump_run _ Wn Wj w ids pre s post report w' El) report w1) as (report' & w2 & E2 & R2).
  { split; try done. intros id c Hc. destruct (Hr1 id c Hc) as (s & Hs & Hn & He & Hj). exists s.
    split; [done|]. split; [done|]. split; [done|]. right. by split; [intros []|]. }
  rewrite run_st, E2. cbn [fst snd run ok]. by exists report', ids, w2.
Qed.

(** A connection and what names it. *)
Definition ssh_of (ids : gmap string Uuid) (s : SharedSshConnection) (c : SshConnection) : Prop :=
  ssh_name c = shs_name s /\ ssh_endpoint c = shs_endpoint s /\ jump_host_id c = jump_of ids s.

Lemma jumps_done_rows S0 w0 ids report w : NoDup (map shs_name S0) -> jumps_done S0 w0 ids S0 report w ->
  rows_of (ssh_of ids) (ssh_connections (tables w)) S0.
Proof.
  intros Hn [C F O K Hr Hi].
  assert (Hrow : forall id c, ssh_connections (tables w) !! id = Some c -> exists s, In s S0 /\ ssh_of ids s c).
  { intros id c Hc. destruct (Hr id c Hc) as (s & Hs & H1 & H2 & [[_ Hj]|[? _]]); [|done]. by exists s. }
  split; [done|]. intros s Hs. destruct (Hi s Hs) as (id & c & _ & Hc & Hcn). exists id, c. split; [done|].
  destruct (Hrow id c Hc) as (s' & Hs' & Ho). rewrite (key_inj shs_name S0 s s' Hn Hs Hs'); [done|].
  destruct Ho as [Ho _]. congruence.
Qed.

(** ** Profiles *)

Definition reference_of (ids : gmap string Uuid) (x : SharedProfile) : option Uuid :=
  match sh_ssh_connection x with Some n => ids !! n | None => None end.

Definition profile_of (ids : gmap string Uuid) (x : SharedProfile) (p : ConnectionProfile) : Prop :=
  profile_name p = sh_name x /\ profile_engine p = sh_engine x /\ environment p = sh_environment x
  /\ ssh_connection_id p = reference_of ids x /\ db p = sh_db x /\ tool_overrides p = sh_tool_overrides x.

Definition stored_profile (id : Uuid) (i : ProfileCreate) (z : Z) : ConnectionProfile :=
  mk_profile id (pc_name i) (pc_engine i) (pc_environment i) (pc_ssh_connection_id i) (pc_db i) (pc_tool_overrides i) z z.

Lemma create_profile_run i w :
  profiles (tables w) !! new_v4 (minted w) = None ->
  (forall id p, profiles (tables w) !! id = Some p -> profile_name p <> pc_name i) ->
  refers (ssh_connections (tables w)) (pc_ssh_connection_id i) = true ->
  let p := stored_profile (new_v4 (minted w)) i (clock w) in
  run (create_profile i) w = (Ok p, mk_world (with_profiles (tables w) (<[profile_id p := p]> (profiles (tables w))))
                                     (vault w) (S (minted w)) (clock w)).
Proof.
  intros Hid Hn Hr p. unfold create_profile.
  assert (Hck : run (check_reference (pc_ssh_connection_id i)) w = (Ok tt, w)).
  { unfold check_reference. destruct (pc_ssh_connection_id i) as [k|]; [|done]. rewrite run_st, run_require.
    apply refers_Some in Hr as [c Hc]. by rewrite Hc. }
  rewrite (run_st_ok _ _ _ _ _ Hck), (run_st_ok _ _ _ _ _ (run_now w)), (run_st_ok _ _ _ _ _ (run_new_uuid w)).
  set (w1 := mk_world _ _ _ _). change (mk_profile _ _ _ _ _ _ _ _ _) with p.
  assert (Hw : insert_profile p (tables w1) = (Ok tt, with_profiles (tables w) (<[profile_id p := p]> (profiles (tables w))))).
  { unfold insert_profile. change (tables w1) with (tables w). simpl profile_id. rewrite Hid. cbn [is_some orb].
    replace (name_in_use _ _ _ _) with false by (symmetry; apply name_in_use_false; intros id q Hq Hqn; by destruct (Hn id q Hq)).
    simpl ssh_connection_id. by rewrite Hr. }
  by rewrite (run_st_ok _ _ _ _ _ (run_write_ok _ (profile_name p) w1 tt _ Hw)).
Qed.

Section Profiles.
Variables (w0 : World) (ids : gmap string Uuid) (P0 : list SharedProfile).
Hypothesis names : NoDup (map sh_name P0).
Hypothesis references : forall x, In x P0 -> sh_ssh x = None
  /\ forall n, sh_ssh_connection x = Some n -> exists id, ids !! n = Some id /\ is_some (ssh_connections (tables w0) !! id) = true.

Record profiles_done (pre : list SharedProfile) (report : ImportReport) (w : World) : Prop := {
  pd_consistent : consistent (tables w);
  pd_fresh : all_fresh w;
  pd_ssh : ssh_connections (tables w) = ssh_connections (tables w0);
  pd_plans : sync_plans (tables w) = sync_plans (tables w0);
  pd_destinations : destinations (tables w) = destinations (tables w0);
  pd_clean : clean report;
  pd_rows : rows_of (profile_of ids) (profiles (tables w)) pre }.

Lemma import_profile_run pre x post report w :
  P0 = pre ++ x :: post -> profiles_done pre report w ->
  exists report' w', run (import_profile ids report x) w = (Ok report', w') /\ profiles_done (pre ++ [x]) report' w'.
Proof.
  intros E [C F Es Ep Ed K Hr]. assert (Hx : In x P0) by (eapply in_prefix; eauto).
  destruct (references x Hx) as [Hl Hn]. unfold import_profile. rewrite Hl.
  assert (Hroute : run (match sh_ssh_connection x with
      | Some name => match ids !! name with
          | Some id => ok (Some id, report)
          | None => ok (None, push OrphanedSshReferences (sh_name x ++ " (needs SSH connection " ++ str_debug name ++ ")")%string report)
          end
      | None => ok (None, report)
      end) w = (Ok (reference_of ids x, report), w) /\ refers (ssh_connections (tables w)) (reference_of ids x) = true).
  { unfold reference_of. destruct (sh_ssh_connection x) as [n|]; [|done]. destruct (Hn n eq_refl) as (id & -> & Hid).
    split; [done|]. by rewrite Es. }
  destruct Hroute as [Hroute Href]. rewrite (run_st_ok _ _ _ _ _ Hroute).
  unfold list_profiles. rewrite (run_st_ok _ _ _ _ _ (run_select _ w)).
  assert (Hno : forall id p, profiles (tables w) !! id = Some p -> profile_name p <> sh_name x).
  { intros id p Hp. destruct Hr as [Hr _]. destruct (Hr id p Hp) as (y & Hy & -> & _). rewrite E in names.
    by apply (fresh_in_prefix sh_name pre x post names). }
  rewrite (find_by_name profile_name _ _ Hno).
  set (i := mk_profile_create _ _ _ _ _ _). destruct F as [Hinj F].
  pose proof (create_profile_run i w (proj1 (F _ (le_n _))) Hno Href) as Hc. cbv zeta in Hc.
  set (p := stored_profile _ i _) in Hc. set (w1 := mk_world _ _ _ _) in Hc.
  rewrite run_st, run_st, Hc. cbn [fst snd run ok]. destruct (run_has (profile_id p) DbPassword w1) as (b & v & Ev).
  rewrite run_st, Ev. cbn [fst snd run ok]. do 2 eexists. split; [reflexivity|].
  assert (Hcl : clean (push ProfilesCreated (sh_name x) report)) by (apply clean_push; [done|simpl; intuition discriminate]).
  assert (C1 : consistent (tables w1)).
  { pose proof (shrinks_stays _ _ (create_profile_shrinks i)) as Hst. apply (stays_run _ _ w) in Hst; [|done]. by rewrite Hc in Hst. }
  split; try done.
  - split; [done|]. intros n Hm. simpl in Hm |- *. destruct (F n ltac:(lia)) as (? & ? & ? & ?). split_and!; try done.
    rewrite lookup_insert_ne; [done|]. intros Hk%Hinj. lia.
  - destruct b; [done|]. apply clean_push; [done|simpl; intuition discriminate].
  - simpl. apply rows_of_one_more; [done|by apply F|done].
Qed.

Lemma import_profiles_run report w : profiles (tables w) = ∅ -> consistent (tables w) -> all_fresh w ->
  tables w = tables w0 -> clean report ->
  exists report' w', run (each (import_profile ids) P0 report) w = (Ok report', w') /\ profiles_done P0 report' w'.
Proof.
  intros Ep C F E K. apply (each_prefix _ profiles_done); [intros; eapply import_profile_run; eauto|].
  split; try done; rewrite <- ?E; try done. rewrite Ep. apply rows_of_none.
Qed.
End Profiles.

(** ** Table sets *)

Lemma find_present {A} (name : A -> string) (m : gmap Uuid A) id a n : m !! id = Some a -> name a = n ->
  exists k b, List.find (fun a => String.eqb (name a) n) (by_name name m) = Some b /\ m !! k = Some b /\ name b = n.
Proof.
  intros Ha Hn. destruct (List.find _ _) as [b|] eqn:E.
  - apply List.find_some in E as [(k & Hb)%by_name_In He%String.eqb_eq]. by exists k, b.
  - eapply List.find_none in E; [|apply by_name_In; by exists id]. by apply String.eqb_neq in E.
Qed.

Definition plan_of (t : Tables) (x : SharedPlan) (p : SyncPlan) : Prop := exists q,
  profiles t !! sp_profile_id p = Some q /\ profile_name q = shp_profile_name x /\ sp_name p = shp_name x
  /\ sp_database p = shp_database x /\ sp_selections p = shp_selections x /\ sp_masking p = shp_masking x.

Definition stored_plan (id : Uuid) (i : SyncPlanCreate) (z : Z) : SyncPlan :=
  mk_sync_plan id (spc_profile_id i) (spc_name i) (spc_database i) (spc_selections i) (spc_masking i) 1 z z.

Lemma create_plan_run i w :
  sync_plans (tables w) !! new_v4 (minted w) = None ->
  (forall id p, sync_plans (tables w) !! id = Some p -> sp_profile_id p = spc_profile_id i -> sp_name p <> spc_name i) ->
  refers (profiles (tables w)) (Some (spc_profile_id i)) = true ->
  let p := stored_plan (new_v4 (minted w)) i (clock w) in
  run (create_sync_plan i) w = (Ok p, mk_world (with_plans (tables w) (<[sp_id p := p]> (sync_plans (tables w))))
                                       (vault w) (S (minted w)) (clock w)).
Proof.
  intros Hid Hn Hr p. unfold create_sync_plan.
  rewrite (run_st_ok _ _ _ _ _ (run_now w)), (run_st_ok _ _ _ _ _ (run_new_uuid w)).
  set (w1 := mk_world _ _ _ _). change (mk_sync_plan _ _ _ _ _ _ _ _ _) with p.
  assert (Hw : insert_plan p (tables w1) = (Ok tt, with_plans (tables w) (<[sp_id p := p]> (sync_plans (tables w))))).
  { unfold insert_plan. change (tables w1) with (tables w). simpl sp_id. rewrite Hid. cbn [is_some orb].
    replace (plan_name_in_use _ _ _ _) with false
      by (symmetry; apply plan_name_in_use_false; intros id q Hq Hqp Hqn; by destruct (Hn id q Hq)).
    simpl sp_profile_id. by rewrite Hr. }
  by rewrite (run_st_ok _ _ _ _ _ (run_write_ok _ (sp_name p) w1 tt _ Hw)).
Qed.

Section Plans.
Variables (w0 : World) (X0 : list SharedPlan).
Hypothesis keys : NoDup (map plan_key_of X0).
Hypothesis owners : forall x, In x X0 -> exists id q, profiles (tables w0) !! id = Some q /\ profile_name q = shp_profile_name x.

Record plans_done (pre : list SharedPlan) (report : ImportReport) (w : World) : Prop := {
  ld_consistent : consistent (tables w);
  ld_fresh : all_fresh w;
  ld_ssh : ssh_connections (tables w) = ssh_connections (tables w0);
  ld_profiles : profiles (tables w) = profiles (tables w0);
  ld_destinations : destinations (tables w) = destinations (tables w0);
  ld_clean : clean report;
  ld_rows : rows_of (plan_of (tables w0)) (sync_plans (tables w)) pre }.

Lemma import_plan_run pre x post report w :
  X0 = pre ++ x :: post -> plans_done pre report w ->
  exists report' w', run (import_plan (by_name profile_name (profiles (tables w0))) report x) w = (Ok report', w')
    /\ plans_done (pre ++ [x]) report' w'.
Proof.
  intros E [C F Es Ep Ed K Hr]. assert (Hx : In x X0) by (eapply in_prefix; eauto).
  destruct (owners x Hx) as (k & q' & Hq' & Hn'). unfold import_plan.
  destruct (find_present profile_name _ k q' _ Hq' Hn') as (id & q & -> & Hq & Hqn).
  pose proof Hq as Hqw. rewrite <- Ep in Hqw. pose proof (profile_key _ C id q Hqw) as Hid.
  unfold list_sync_plans. rewrite (run_st_ok _ _ _ _ _ (run_select _ w)).
  assert (Hno : forall i p, sync_plans (tables w) !! i = Some p -> sp_profile_id p = profile_id q -> sp_name p <> shp_name x).
  { intros i p Hp Hpq Hpn. destruct Hr as [Hr _]. destruct (Hr i p Hp) as (y & Hy & o & Ho & Hoy & Hpy & _).
    rewrite E in keys. apply (fresh_in_prefix plan_key_of pre x post keys y Hy). unfold plan_key_of.
    f_equal; [|congruence]. rewrite Hpq, Hid, Hq in Ho. injection Ho as <-. congruence. }
  destruct (List.find _ (plans_of _ _)) as [p|] eqn:Ef.
  { exfalso. apply List.find_some in Ef as [Hin Hpn%String.eqb_eq]. unfold plans_of in Hin.
    apply List.filter_In in Hin as [(i & Hp)%by_name_In Hpq%bool_decide_eq_true]. by eapply Hno. }
  set (i := mk_plan_create _ _ _ _ _). destruct F as [Hinj F].
  assert (Href : refers (profiles (tables w)) (Some (spc_profile_id i)) = true) by (apply refers_Some; exists q; by rewrite <- Hid in Hqw).
  pose proof (create_plan_run i w (proj1 (proj2 (proj2 (F _ (le_n _))))) Hno Href) as Hc. cbv zeta in Hc.
  set (p := stored_plan _ i _) in Hc. set (w1 := mk_world _ _ _ _) in Hc.
  rewrite run_st, Hc. cbn [fst snd run ok]. do 2 eexists. split; [reflexivity|].
  split; try done.
  - pose proof (shrinks_stays _ _ (create_plan_shrinks i)) as Hst. apply (stays_run _ _ w) in Hst; [|done]. by rewrite Hc in Hst.
  - split; [done|]. intros n Hm. simpl in Hm |- *. destruct (F n ltac:(lia)) as (? & ? & ? & ?). split_and!; try done.
    rewrite lookup_insert_ne; [done|]. intros Hk%Hinj. lia.
  - apply clean_push; [done|simpl; intuition discriminate].
  - simpl. apply rows_of_one_more; [done|by apply F|]. exists q. simpl. by rewrite Hid.
Qed.

Lemma import_plans_run report w : sync_plans (tables w) = ∅ -> consistent (tables w) -> all_fresh w ->
  tables w = tables w0 -> clean report ->
  exists report' w', run (each (import_plan (by_name profile_name (profiles (tables w0)))) X0 report) w = (Ok report', w')
    /\ plans_done X0 report' w'.
Proof.
  intros Ep C F E K. apply (each_prefix _ plans_done); [intros; eapply import_plan_run; eauto|].
  split; try done; rewrite <- ?E; try done. rewrite Ep. apply rows_of_none.
Qed.
End Plans.

(** ** Destinations, switched off *)

Definition destination_of (x : SharedDestination) (d : Destination) : Prop :=
  dst_name d = shd_name x /\ dst_kind d = shd_kind x /\ dst_retention d = shd_retention x /\ dst_enabled d = false.

Definition stored_destination (id : Uuid) (i : DestinationCreate) (z : Z) : Destination :=
  mk_destination id (trim (dc_name i)) (dc_kind i) (dc_enabled i) (dc_retention i) z z.

Lemma create_destination_run i w :
  destinations (tables w) !! new_v4 (minted w) = None -> kind_validate str_debug (dc_kind i) = Ok tt ->
  blank (trim (dc_name i)) = false ->
  (forall id d, destinations (tables w) !! id = Some d -> dst_name d <> trim (dc_name i)) ->
  let d := stored_destination (new_v4 (minted w)) i (clock w) in
  run (store_create_destination i) w = (Ok d, mk_world (with_destinations (tables w) (<[dst_id d := d]> (destinations (tables w))))
                                               (vault w) (S (minted w)) (clock w)).
Proof.
  intros Hid Hv Hb Hn d. unfold store_create_destination.
  rewrite (run_st_ok _ _ _ _ _ (run_now w)), (run_st_ok _ _ _ _ _ (run_new_uuid w)).
  rewrite run_bind. unfold on_destinations, stmt. cbn [run exec tables]. rewrite Hid. cbn [is_some].
  unfold create_destination. change (mk_destination _ _ _ _ _ _ _) with d. unfold destination_validate.
  simpl dst_name. rewrite Hb. cbn [guard rbind]. simpl dst_kind. rewrite Hv.
  replace (taken _ _ _) with false; [done|]. symmetry. apply taken_false. intros k e He Hen. by destruct (Hn k e He).
Qed.

Section Destinations.
Variables (w0 : World) (D0 : list SharedDestination).
Hypothesis names : NoDup (map shd_name D0).
Hypothesis valid : forall x, In x D0 ->
  kind_validate str_debug (shd_kind x) = Ok tt /\ blank (shd_name x) = false /\ trim (shd_name x) = shd_name x.

Record destinations_done (pre : list SharedDestination) (report : ImportReport) (w : World) : Prop := {
  ed_consistent : consistent (tables w);
  ed_fresh : all_fresh w;
  ed_ssh : ssh_connections (tables w) = ssh_connections (tables w0);
  ed_profiles : profiles (tables w) = profiles (tables w0);
  ed_plans : sync_plans (tables w) = sync_plans (tables w0);
  ed_clean : clean report;
  ed_rows : rows_of destination_of (destinations (tables w)) pre }.

Lemma import_destination_run pre x post report w :
  D0 = pre ++ x :: post -> destinations_done pre report w ->
  exists report' w', run (import_destination report x) w = (Ok report', w') /\ destinations_done (pre ++ [x]) report' w'.
Proof.
  intros E [C F Es Ep Ed K Hr]. destruct (valid x) as (Hv & Hb & Ht); [eapply in_prefix; eauto|].
  unfold import_destination, store_list_destinations. rewrite (run_st_ok _ _ _ _ _ (run_select _ w)).
  assert (Hno : forall id d, destinations (tables w) !! id = Some d -> dst_name d <> shd_name x).
  { intros id d Hd. destruct Hr as [Hr _]. destruct (Hr id d Hd) as (y & Hy & -> & _). rewrite E in names.
    by apply (fresh_in_prefix shd_name pre x post names). }
  change (list_destinations (destinations (tables w))) with (by_name dst_name (destinations (tables w))).
  rewrite (find_by_name dst_name _ _ Hno). set (i := mk_dst_create _ _ _ _). destruct F as [Hinj F].
  assert (Htr : trim (dc_name i) = shd_name x) by done. pose proof (create_destination_run i w) as Hc. rewrite Htr in Hc.
  specialize (Hc (proj2 (proj2 (proj2 (F _ (le_n _))))) Hv Hb Hno).
  cbv zeta in Hc. set (d := stored_destination _ i _) in Hc. set (w1 := mk_world _ _ _ _) in Hc.
  rewrite run_st, run_st, Hc. cbn [fst snd run ok]. destruct (run_has (dst_id d) ObjectStoreSecret w1) as (b & v & Ev).
  rewrite run_st, Ev. cbn [fst snd run ok]. do 2 eexists. split; [reflexivity|].
  assert (Hcl : clean (push DestinationsCreated (shd_name x) report)) by (apply clean_push; [done|simpl; intuition discriminate]).
  assert (C1 : consistent (tables w1)).
  { pose proof (shrinks_stays _ _ (create_destination_shrinks i)) as Hst. apply (stays_run _ _ w) in Hst; [|done]. by rewrite Hc in Hst. }
  split; try done.
  - split; [done|]. intros n Hm. simpl in Hm |- *. destruct (F n ltac:(lia)) as (? & ? & ? & ?). split_and!; try done.
    apply lookup_insert_None. split; [done|]. intros Hk%Hinj. lia.
  - destruct b; [done|]. apply clean_push; [done|simpl; intuition discriminate].
  - simpl. apply rows_of_one_more; [done|by apply F|]. by split; [simpl; rewrite Ht|].
Qed.

Lemma import_destinations_run report w : destinations (tables w) = ∅ -> consistent (tables w) -> all_fresh w ->
  tables w = tables w0 -> clean report ->
  exists report' w', run (each import_destination D0 report) w = (Ok report', w') /\ destinations_done D0 report' w'.
Proof.
  intros Ep C F E K. apply (each_prefix _ destinations_done); [intros; eapply import_destination_run; eauto|].
  split; try done; rewrite <- ?E; try done. rewrite Ep. apply rows_of_none.
Qed.
End Destinations.

(** ** The whole of it *)

Definition nothing_saved (t : Tables) : Prop :=
  profiles t = ∅ /\ ssh_connections t = ∅ /\ sync_plans t = ∅ /\ destinations t = ∅.

(** What the four passes leave, in the tables. *)
Record imported (ids : gmap string Uuid) (b : ConfigBundle) (w : World) : Prop := {
  im_consistent : consistent (tables w);
  im_ids : forall s, In s (b_ssh_connections b) -> exists id c, ids !! shs_name s = Some id
    /\ ssh_connections (tables w) !! id = Some c /\ ssh_name c = shs_name s;
  im_ssh : rows_of (ssh_of ids) (ssh_connections (tables w)) (b_ssh_connections b);
  im_profiles : rows_of (profile_of ids) (profiles (tables w)) (b_profiles b);
  im_plans : rows_of (plan_of (tables w)) (sync_plans (tables w)) (b_plans b);
  im_destinations : rows_of destination_of (destinations (tables w)) (b_destinations b) }.

Lemma consistent_audit t l : consistent t -> consistent (with_audit t l).
Proof. intros []. by split. Qed.

Lemma import_run b w : well_formed_bundle b -> consistent (tables w) -> all_fresh w -> nothing_saved (tables w) ->
  exists report ids w', run (import b) w = (Ok report, w') /\ clean report /\ imported ids b w'.
Proof.
  intros W C F (Ep & Es & El & Ed).
  destruct (import_ssh_run b w W C F Es) as (r1 & ids & w1 & E1 & J).
  pose proof (jumps_done_rows _ _ _ _ _ (wb_ssh_names b W) J) as Hs. destruct J as [C1 F1 (Op & Ol & Od) K1 _ Hi].
  rewrite Ep in Op. rewrite El in Ol. rewrite Ed in Od.
  destruct (import_profiles_run w1 ids (b_profiles b) (wb_profile_names b W)) with (report := r1) (w := w1)
    as (r2 & w2 & E2 & [C2 F2 Ss2 Sl2 Sd2 K2 R2]); try done.
  { intros x Hx. destruct (wb_profile_ssh b W x Hx) as [Hl Hn]. split; [done|]. intros n E.
    destruct (Hn n E) as (s & Hin & <-). destruct (Hi s Hin) as (id & c & Hid & Hc & _). exists id. by rewrite Hc. }
  destruct (import_plans_run w2 (b_plans b) (wb_plan_keys b W)) with (report := r2) (w := w2)
    as (r3 & w3 & E3 & [C3 F3 Ss3 Sp3 Sd3 K3 R3]); [|congruence|done..|].
  { intros x Hx. destruct (wb_plan_owners b W x Hx) as (q & Hq & Hn). destruct R2 as [_ R2].
    destruct (R2 q Hq) as (id & p & Hp & Hpn & _). exists id, p. split; [done|congruence]. }
  destruct (import_destinations_run w3 (b_destinations b) (wb_destination_names b W) (wb_destinations_valid b W))
    with (report := r3) (w := w3) as (r4 & w4 & E4 & [C4 F4 Ss4 Sp4 Sl4 K4 R4]); [congruence|done..|].
  unfold import. rewrite (run_st_ok _ _ _ _ _ E1). cbv beta iota. rewrite (run_st_ok _ _ _ _ _ E2).
  unfold list_profiles. rewrite (run_st_ok _ _ _ _ _ (run_select _ w2)), (run_st_ok _ _ _ _ _ E3), (run_st_ok _ _ _ _ _ E4).
  edestruct run_audit as (n & Ea). rewrite (run_st_ok _ _ _ _ _ Ea). cbn [run ok].
  exists r4, ids. eexists. split; [reflexivity|]. split; [done|].
  split; simpl; rewrite ?Ss4, ?Ss3, ?Ss2, ?Sp4, ?Sp3, ?Sl4; try done; [by apply consistent_audit|].
  unfold plan_of. simpl. by rewrite Sp4, Sp3.
Qed.

(** What was imported is what is exported from there. *)
Lemma imported_exported version ids b w : well_formed_bundle b -> imported ids b w ->
  same_contents b (exported version (tables w) (clock w)).
Proof.
  intros W [C Hi Rs Rp Rl Rd].
  assert (Hname : forall n s, In s (b_ssh_connections b) -> shs_name s = n ->
    (match ids !! n with Some k => option_map ssh_name (ssh_connections (tables w) !! k) | None => None end) = Some n).
  { intros n s Hs <-. destruct (Hi s Hs) as (id & c & -> & -> & Hn). simpl. by rewrite Hn. }
  split; [|split; [|split]].
  - intros s. rewrite exported_ssh by done. revert s. apply (rows_of_read _ _ _ _ Rs).
    intros _ x c Hx _ (Hn & He & Hj). destruct x as [n e j]. simpl in *. unfold share_ssh. rewrite Hn, He, Hj. f_equal.
    unfold jump_of. simpl. destruct j as [j|]; [|done].
    destruct (wb_ssh_jumps b W _ j Hx eq_refl) as (s' & Hs' & Hj' & _). by apply (Hname j s').
  - intros x. rewrite exported_profile by done. revert x. apply (rows_of_read _ _ _ _ Rp).
    intros _ x p Hx _ (Hn & He & Hv & Hr & Hb & Ht). destruct (wb_profile_ssh b W x Hx) as [Hl Hs].
    destruct x as [n e v d r l o]. simpl in *. unfold share_profile. rewrite Hn, He, Hv, Hr, Hb, Ht, Hl. f_equal.
    unfold reference_of. simpl. destruct r as [r|]; [|done].
    destruct (Hs r eq_refl) as (s' & Hs' & Hn'). by apply (Hname r s').
  - intros x. rewrite exported_plan by done. rewrite (rows_of_read _ _ _
      (fun p => mk_shared_plan (match profiles (tables w) !! sp_profile_id p with Some q => profile_name q | None => "" end)
                  (sp_name p) (sp_database p) (sp_selections p) (sp_masking p)) Rl).
    + split.
      * intros (id & p & Hp & ->). destruct Rl as [Rl _]. destruct (Rl id p Hp) as (y & _ & q & Hq & _).
        exists id, p, q. by rewrite Hq.
      * intros (id & p & q & Hp & Hq & ->). exists id, p. by rewrite Hq.
    + intros _ y p _ _ (q & -> & -> & -> & -> & -> & ->). by destruct y.
  - intros d. rewrite exported_destination. revert d. apply (rows_of_read _ _ _ _ Rd).
    intros _ x d _ _ (Hn & Hk & Hr & _). destruct x. unfold share_destination. simpl in *. congruence.
Qed.

(** C13: whatever a store of saved things holds, if no server in it jumps through one that
    jumps, what it exports can be imported where nothing is saved: the import succeeds,
    finds nothing it cannot place, leaves every destination switched off, and what is
    then exported from there is what was exported. *)
Theorem exports_arrive_whole version source target :
  consistent (tables source) -> one_hop (tables source) ->
  consistent (tables target) -> all_fresh target -> nothing_saved (tables target) ->
  exists bundle report back target',
    run (export version) source = (Ok bundle, source)
    /\ run (import bundle) target = (Ok report, target')
    /\ clean report
    /\ (forall id d, destinations (tables target') !! id = Some d -> dst_enabled d = false)
    /\ run (export version) target' = (Ok back, target')
    /\ same_contents bundle back.
Proof.
  intros C H1 C' F N. set (b := exported version (tables source) (clock source)).
  pose proof (exported_well_formed version (tables source) (clock source) C H1) as W.
  destruct (import_run b target W C' F N) as (report & ids & w & E & K & I).
  exists b, report, (exported version (tables w) (clock w)), w. split_and!; try done.
  - apply run_export.
  - intros id d Hd. destruct I as [_ _ _ _ _ [R _]]. by destruct (R id d Hd) as (x & _ & _ & _ & _ & He).
  - apply run_export.
  - by eapply imported_exported.
Qed.
End Importing.

(** ** A store, carried over *)

Definition saved : list (Db unit) := behind ++
  [discard (create_sync_plan (mk_plan_create 3%N "nightly" "shop" [mk_sel "orders" SchemaAndData None] []));
   discard (store_create_destination nas)].

Definition all_saved : World := foldl (fun w m => snd (run m w)) empty_world saved.

Lemma saved_in_turn l w : Forall store_request l -> consistent (tables w) /\ one_hop (tables w) ->
  let w' := foldl (fun w m => snd (run m w)) w l in consistent (tables w') /\ one_hop (tables w').
Proof.
  revert w. induction l as [|m l IH]; intros w Hl Hw; [done|]. inversion Hl; subst. apply IH; [done|]. by apply request_alone.
Qed.

Lemma all_saved_ready : consistent (tables all_saved) /\ one_hop (tables all_saved).
Proof.
  apply saved_in_turn; [repeat constructor|]. split; [apply empty_consistent|by intros ? ? ? ? [=]].
Qed.

Lemma empty_fresh : all_fresh empty_world.
Proof. split; [|done]. intros n m E. simpl in E. lia. Qed.

Lemma all_saved_rows : (size (profiles (tables all_saved)), size (ssh_connections (tables all_saved)),
  size (sync_plans (tables all_saved)), size (destinations (tables all_saved))) = (1, 2, 1, 1)%nat.
Proof. by vm_compute. Qed.

Lemma exports_arrive_whole_witness : exists bundle report back target',
    run (export "1.0.0") all_saved = (Ok bundle, all_saved)
    /\ run (import bundle) empty_world = (Ok report, target')
    /\ clean report
    /\ (forall id d, destinations (tables target') !! id = Some d -> dst_enabled d = false)
    /\ run (export "1.0.0") target' = (Ok back, target')
    /\ same_contents bundle back.
Proof.
  destruct all_saved_ready as [C H1].
  exact (exports_arrive_whole "1.0.0" all_saved empty_world C H1 empty_consistent empty_fresh ltac:(done)).
Defined.

(** ** Where importing over what is saved does not arrive *)

Definition bundle_of (ssh : list SharedSshConnection) : ConfigBundle := mk_bundle BUNDLE_VERSION 0 "1.0.0" ssh [] [] [].

(** Saved: "inner" is reached through "edge".  Shared: "edge" is reached through "inner". *)
Definition turned_round : ConfigBundle :=
  bundle_of [mk_shared_ssh "edge" (server "edge.new") (Some "inner"); mk_shared_ssh "inner" (server "inner.new") None].

Definition edge_first : World := snd tunnelled.

Definition routes_of (t : Tables) : list (string * string * option Uuid) :=
  map (fun c => (ssh_name c, ep_host (ssh_endpoint c), jump_host_id c)) (by_name ssh_name (ssh_connections t)).

Lemma turned_round_well_formed : well_formed_bundle turned_round.
Proof.
  split; simpl; try (by constructor); try done.
  - apply NoDup_cons. split; [|apply NoDup_singleton]. rewrite list_elem_of_In. by intros [|[]].
  - by intros s [<-|[<-|[]]].
  - intros s j [<-|[<-|[]]] [=]. eexists. split; [right; left; reflexivity|]. by subst.
Qed.

(** A route whose direction a bundle turns round cannot be imported over the one saved:
    no jump host is ever cleared, the import stops at the chain it would make, and both
    servers have the bundle's addresses and the old route. *)
Theorem a_turned_route_is_not_imported :
  well_formed_bundle turned_round
  /\ fst (run (import turned_round) edge_first) = Err (InvalidSshConnection (ChainedJump "inner"))
  /\ routes_of (tables edge_first) = [("edge", "edge", None); ("inner", "inner", Some 1%N)]
  /\ routes_of (tables (snd (run (import turned_round) edge_first)))
     = [("edge", "edge.new", None); ("inner", "inner.new", Some 1%N)].
Proof. split; [apply turned_round_well_formed|]. by vm_compute. Qed.

Definition trailing_blank : ConfigBundle := bundle_of [mk_shared_ssh "edge " (server "edge") None].

(** A bundle that names a server with a blank at its end is imported once and never
    again: the name is stored without the blank and looked for with it. *)
Theorem an_untrimmed_name_imports_once :
  let once := run (import trailing_blank) empty_world in
  is_ok (fst once) = true /\ fst (run (import trailing_blank) (snd once)) = Err (DuplicateName "edge").
Proof. by vm_compute. Qed.
