(* ===== verification/History.v ===== *)
(** * History: the record of every job (the job table of engine/src/store.rs, the
      recording of engine/src/ops.rs and the list of apps/desktop commands.rs)

    A job's row is written when it starts and completed when it ends, after the
    steps it left open are settled.  Each statement may fail; the failures of the
    table of steps and of the table of jobs are one list, in the order the
    statements run. *)

From Stdlib Require Import ZArith Lia Ascii String List Bool Sorted DecimalString DecimalN.
From stdpp Require Import base list gmap strings.
From S2P Require Import Prelude Text Domain Job Step Paging.
Import ListNotations.
Open Scope string_scope.
Open Scope list_scope.
Open Scope Z_scope.
Open Scope dbsync_scope.

(** ** The table *)

Record Jobs := mk_jobs { job_rows : gmap Uuid JobRecord; steps : Store }.

Definition UNIQUE_JOB : string := "UNIQUE constraint failed: job_history.id".

(** A statement over the table of jobs: it takes its place among the writes that may fail. *)
Definition write_job (s : Jobs) (f : gmap Uuid JobRecord -> result unit string * gmap Uuid JobRecord)
    : result unit string * Jobs :=
  match write (steps s) (fun l => l) with
  | (Err e, st) => (Err e, mk_jobs (job_rows s) st)
  | (Ok _, st) => let '(r, rows) := f (job_rows s) in (r, mk_jobs rows st)
  end.

Definition insert_job (s : Jobs) (rec : JobRecord) : result unit string * Jobs :=
  write_job s (fun rows =>
    match rows !! job_record_id rec with
    | Some _ => (Err UNIQUE_JOB, rows)
    | None => (Ok tt, <[job_record_id rec := rec]> rows)
    end).

Definition finished_record (o : JobOutcome) (artifact : option string) (log : string) (now : Z) (r : JobRecord) : JobRecord :=
  mk_job (job_record_id r) (job_kind r) (source_profile r) (dest_profile_id r) (job_started_at r) (Some now) (Some o)
    artifact (options_json r) log.

Definition finish_job (s : Jobs) (id : Uuid) (o : JobOutcome) (artifact : option string) (log : string) (now : Z)
    : result unit string * Jobs :=
  write_job s (fun rows =>
    (Ok tt, match rows !! id with Some r => <[id := finished_record o artifact log now r]> rows | None => rows end)).

Definition get_job (s : Jobs) (id : Uuid) : option JobRecord := job_rows s !! id.
Definition count_jobs (s : Jobs) : Z := Z.of_nat (size (job_rows s)).

Definition list_job_steps (s : Jobs) (id : Uuid) : list JobStep :=
  sort_by (fun a b => s_index a <=? s_index b) (List.filter (is_job id) (job_steps (steps s))).

(** ** Recording a job *)

Definition record_start (s : Jobs) (c : JobContext) (kind : JobKind) (source : Uuid) (dest : option Uuid)
    (options : string) (now : Z) : result unit string * Jobs :=
  insert_job s (mk_job (job_id c) kind source dest now None None None options "").

(** The steps first; the job's own row is reached only when they were settled. *)
Definition record_finish (s : Jobs) (c : JobContext) (o : JobOutcome) (artifact : option string) (now : Z)
    : result unit string * Jobs :=
  match settle_steps (steps s) c o now with
  | (Err e, st) => (Err e, mk_jobs (job_rows s) st)
  | (Ok _, st) => finish_job (mk_jobs (job_rows s) st) (job_id c) o artifact (log_snapshot c) now
  end.

(** ** Listing *)

Record JobPage := mk_page { page_jobs : list JobRecord; page_total : Z }.

Definition U32_MAX : Z := 2 ^ 32 - 1.
Definition clamp_limit (limit : Z) : Z := Z.min 500 (Z.max 1 limit).

Section Listing.
(** [to_rfc3339] of an instant, and the text of an id. *)
Variable rfc3339 : Z -> string.
Variable uuid_text : Uuid -> string.

Definition started_text (r : JobRecord) : string := rfc3339 (job_started_at r).
Definition id_column (r : JobRecord) : string := uuid_text (job_record_id r).
Definition all_jobs (s : Jobs) : list JobRecord := map snd (map_to_list (job_rows s)).

(** Whatever order of the rows the database answers with. *)
Definition list_jobs_from (answer : list JobRecord) (limit offset : Z) : list JobRecord :=
  take_page limit (Z.max 0 offset) answer.

Definition list_jobs (s : Jobs) : Z -> Z -> list JobRecord :=
  list_jobs_from (in_order started_text id_column (all_jobs s)).

(** The command: the count, then the page. *)
Definition list_jobs_page (s : Jobs) (answer : list JobRecord) (limit offset : Z) : JobPage :=
  mk_page (list_jobs_from answer (clamp_limit limit) offset) (Z.min U32_MAX (count_jobs s)).

(** Rows are filed under their own ids. *)
Definition jobs_keyed (s : Jobs) : Prop := forall id r, job_rows s !! id = Some r -> job_record_id r = id.

Context (uuid_text_inj : forall i j, uuid_text i = uuid_text j -> i = j).

Lemma jobs_apart s : jobs_keyed s -> NoDup (map id_column (all_jobs s)).
Proof.
  intros K. unfold all_jobs, id_column. rewrite map_map.
  apply (NoDup_fmap_2_strong (fun r : Uuid * JobRecord => uuid_text (job_record_id (snd r)))); [|apply NoDup_map_to_list].
  intros [i a] [j b] Ha%elem_of_map_to_list Hb%elem_of_map_to_list E. simpl in E. apply uuid_text_inj in E.
  rewrite (K i a Ha), (K j b Hb) in E. congruence.
Qed.

Lemma all_jobs_length s : Z.of_nat (length (all_jobs s)) = count_jobs s.
Proof. unfold all_jobs, count_jobs. by rewrite List.length_map, length_map_to_list. Qed.

(** However the database orders the jobs that started at one moment, query by query,
    the pages of the history, one after the other, hold every job once, newest first, and
    each page tells how many there are. *)
Theorem pages_are_the_history s (answer : nat -> list JobRecord) limit n :
  jobs_keyed s -> (forall i, answers started_text id_column (all_jobs s) (answer i)) ->
  count_jobs s <= Z.of_nat n * clamp_limit limit -> count_jobs s <= U32_MAX ->
  let pages := map (fun i => list_jobs_page s (answer i) limit (Z.of_nat i * clamp_limit limit)) (seq 0 n) in
  let history := concat (map page_jobs pages) in
  Permutation history (all_jobs s) /\ NoDup history
  /\ Sorted (fun a b => newest_first started_text id_column a b = true) history
  /\ Forall (fun p => page_total p = Z.of_nat (length history)) pages.
Proof.
  intros K Ha Hn Hmax pages history. pose proof (jobs_apart s K) as Hd.
  assert (Hc : 0 < clamp_limit limit) by (unfold clamp_limit; lia).
  assert (E : history = in_order started_text id_column (all_jobs s)).
  { unfold history, pages. rewrite map_map. cbn [page_jobs list_jobs_page]. unfold list_jobs_from.
    rewrite <- (firstn_all2 (n := n * Z.to_nat (clamp_limit limit)) (in_order started_text id_column (all_jobs s))).
    - rewrite <- (pages_fit started_text id_column (all_jobs s) answer (clamp_limit limit) n Hd Ha Hc).
      f_equal. apply map_ext. intros i. f_equal. lia.
    - unfold in_order. rewrite sort_by_length. pose proof (all_jobs_length s). lia. }
  destruct (in_order_answers started_text id_column (all_jobs s)) as [P S].
  split; [by rewrite E|]. split; [|split; [by rewrite E|]].
  - rewrite E. rewrite P. by eapply NoDup_fmap_1.
  - assert (Hl : Z.of_nat (length history) = count_jobs s).
    { rewrite E. unfold in_order. by rewrite sort_by_length, all_jobs_length. }
    unfold pages. rewrite Forall_map. apply Forall_forall. intros i _. simpl. lia.
Qed.
End Listing.

(** ** A job from its start to its end *)

Inductive JobOp :=
| Starts (c : JobContext) (kind : JobKind) (source : Uuid) (dest : option Uuid) (options : string) (now : Z)
| Ends (c : JobContext) (o : JobOutcome) (artifact : option string) (now : Z).

Definition op_job (op : JobOp) : Uuid := match op with Starts c _ _ _ _ _ => job_id c | Ends c _ _ _ => job_id c end.

Definition does (s : Jobs) (op : JobOp) : Jobs :=
  match op with
  | Starts c kind source dest options now => snd (record_start s c kind source dest options now)
  | Ends c o artifact now => snd (record_finish s c o artifact now)
  end.

Definition quiet (s : Jobs) : Prop := faults (steps s) = [].

Lemma write_quiet st f : faults st = [] -> write st f = (Ok tt, mk_store (f (job_steps st)) []).
Proof. intros E. unfold write. by rewrite E. Qed.

Lemma write_job_quiet s f : quiet s ->
  write_job s f = (fst (f (job_rows s)), mk_jobs (snd (f (job_rows s))) (mk_store (job_steps (steps s)) [])).
Proof. intros Q. unfold write_job. rewrite write_quiet by done. by destruct (f (job_rows s)). Qed.

Lemma settle_quiet st c o now : faults st = [] -> exists l, settle_steps st c o now = (Ok tt, mk_store l []).
Proof.
  intros E. unfold settle_steps, close_open_steps. destruct st as [rows fs]. simpl in E. subst fs.
  destruct o; rewrite ?write_quiet by done; by eexists.
Qed.

Lemma finish_quiet s c o artifact now : quiet s -> exists l, record_finish s c o artifact now
  = (Ok tt, mk_jobs (match job_rows s !! job_id c with
                     | Some r => <[job_id c := finished_record o artifact (log c) now r]> (job_rows s)
                     | None => job_rows s
                     end) (mk_store l [])).
Proof.
  intros Q. unfold record_finish. destruct (settle_quiet (steps s) c o now Q) as (l & ->).
  exists l. unfold finish_job. by rewrite write_job_quiet.
Qed.

Lemma does_quiet s op : quiet s -> quiet (does s op).
Proof.
  intros Q. destruct op as [c kind source dest options now|c o artifact now]; simpl.
  - unfold record_start, insert_job. by rewrite write_job_quiet.
  - by destruct (finish_quiet s c o artifact now Q) as (l & ->).
Qed.

Lemma write_job_other s f id : (forall rows, snd (f rows) !! id = rows !! id) ->
  get_job (snd (write_job s f)) id = get_job s id.
Proof.
  intros Hf. unfold write_job, get_job. destruct (write _ _) as [[u|e] st]; [|done].
  specialize (Hf (job_rows s)). by destruct (f (job_rows s)).
Qed.

(** Another job's record is not touched, whatever fails. *)
Lemma does_other s op id : op_job op <> id -> get_job (does s op) id = get_job s id.
Proof.
  intros N. destruct op as [c kind source dest options now|c o artifact now]; simpl in *.
  - apply write_job_other. intros rows. simpl. destruct (rows !! job_id c); [done|]. by apply lookup_insert_ne.
  - unfold record_finish. destruct (settle_steps _ _ _ _) as [[u|e] st]; [|done].
    unfold finish_job. rewrite write_job_other; [done|]. intros rows. simpl.
    destruct (rows !! job_id c); [|done]. by apply lookup_insert_ne.
Qed.

Lemma write_job_keyed s f : jobs_keyed s ->
  (forall id r, snd (f (job_rows s)) !! id = Some r -> job_record_id r = id) -> jobs_keyed (snd (write_job s f)).
Proof.
  intros K Hf. unfold write_job, jobs_keyed. destruct (write _ _) as [[u|e] st]; [|done]. by destruct (f (job_rows s)).
Qed.

Lemma does_keyed s op : jobs_keyed s -> jobs_keyed (does s op).
Proof.
  intros K. destruct op as [c kind source dest options now|c o artifact now]; simpl.
  - apply write_job_keyed; [done|]. intros id r. simpl. destruct (job_rows s !! job_id c); [apply K|]. cbn [snd].
    intros [[<- <-]|[_ Hr]]%lookup_insert_Some; [done|by apply K].
  - unfold record_finish. destruct (settle_steps _ _ _ _) as [[u|e] st]; [|done].
    apply write_job_keyed; [done|]. intros id r. simpl. destruct (job_rows s !! job_id c) as [q|] eqn:E; [|apply K].
    intros [[<- <-]|[_ Hr]]%lookup_insert_Some; [by apply (K _ q)|by apply K].
Qed.

Lemma all_keyed s ops : jobs_keyed s -> jobs_keyed (foldl does s ops).
Proof. revert s. induction ops as [|op ops IH]; intros s K; [done|]. by apply IH, does_keyed. Qed.

Lemma others_do s ops id : Forall (fun op => op_job op <> id) ops -> get_job (foldl does s ops) id = get_job s id.
Proof.
  intros H. revert s. induction H as [|op ops Hop _ IH]; intros s; [done|]. simpl. by rewrite IH, does_other.
Qed.

Lemma others_quiet s ops : quiet s -> quiet (foldl does s ops).
Proof. revert s. induction ops as [|op ops IH]; intros s Q; [done|]. by apply IH, does_quiet. Qed.

(** While the database answers, a job that starts is in the history as running, and
    once it ends it is there with its outcome, its artifact and the whole of its log,
    whatever other jobs start and end before, between and after. *)
Theorem a_job_is_recorded_to_its_end s c c' kind source dest options t t' o artifact during after :
  quiet s -> job_rows s !! job_id c = None -> job_id c' = job_id c ->
  Forall (fun op => op_job op <> job_id c) during -> Forall (fun op => op_job op <> job_id c) after ->
  let running := mk_job (job_id c) kind source dest t None None None options "" in
  let s1 := record_start s c kind source dest options t in
  let s2 := foldl does (snd s1) during in
  let s3 := record_finish s2 c' o artifact t' in
  fst s1 = Ok tt /\ get_job s2 (job_id c) = Some running /\ fst s3 = Ok tt
  /\ get_job (foldl does (snd s3) after) (job_id c)
     = Some (mk_job (job_id c) kind source dest t (Some t') (Some o) artifact options (log c')).
Proof.
  intros Q Hid Hc Hd Ha running s1 s2 s3.
  assert (E1 : s1 = (Ok tt, mk_jobs (<[job_id c := running]> (job_rows s)) (mk_store (job_steps (steps s)) []))).
  { unfold s1, record_start, insert_job. rewrite write_job_quiet by done. simpl job_record_id. by rewrite Hid. }
  assert (E2 : get_job s2 (job_id c) = Some running).
  { unfold s2. rewrite others_do by done. rewrite E1. apply lookup_insert_eq. }
  assert (Q2 : quiet s2) by (apply others_quiet; by rewrite E1).
  destruct (finish_quiet s2 c' o artifact t' Q2) as (l & E3). unfold s3. rewrite E3. rewrite Hc.
  split_and!; [by rewrite E1|done|done|]. rewrite others_do by done. unfold get_job in *. cbn [snd job_rows].
  rewrite E2. apply lookup_insert_eq.
Qed.

(** When the steps of a job that failed cannot be settled, its own row is never
    reached: it stays in the history as running. *)
Theorem unsettled_steps_leave_a_job_running s c o artifact now e fs :
  faults (steps s) = Some e :: fs -> o <> Success ->
  fst (record_finish s c o artifact now) = Err e
  /\ get_job (snd (record_finish s c o artifact now)) (job_id c) = get_job s (job_id c).
Proof.
  intros F N. unfold record_finish. rewrite settle_not_success by done. unfold close_open_steps, write. by rewrite F.
Qed.

(** ** A history *)

Definition job (n : N) : JobContext := build_context n n.
Definition no_jobs : Jobs := mk_jobs ∅ (mk_store [] []).

Lemma a_job_is_recorded_to_its_end_witness :
  get_job (does (foldl does (does no_jobs (Starts (job 1) KindBackup 7%N None "{}" 100))
                   [Starts (job 2) KindSync 8%N (Some 9%N) "{}" 100; Ends (job 2) Failed None 150]) (Ends (job 1) Success (Some "a.gz") 200)) 1%N
  = Some (mk_job 1%N KindBackup 7%N None 100 (Some 200) (Some Success) (Some "a.gz") "{}" "").
Proof.
  refine (proj2 (proj2 (proj2 (a_job_is_recorded_to_its_end no_jobs (job 1) (job 1) KindBackup 7%N None "{}" 100 200 Success (Some "a.gz")
    [Starts (job 2) KindSync 8%N (Some 9%N) "{}" 100; Ends (job 2) Failed None 150] [] _ _ _ _ _)))).
  - reflexivity.
  - reflexivity.
  - reflexivity.
  - by repeat constructor.
  - constructor.
Defined.

Definition failing : Jobs := mk_jobs {[1%N := mk_job 1%N KindBackup 7%N None 100 None None None "{}" ""]} (mk_store [] [Some "database is locked"]).

Lemma unsettled_steps_leave_a_job_running_witness :
  fst (record_finish failing (job 1) Failed None 200) = Err "database is locked"
  /\ get_job (snd (record_finish failing (job 1) Failed None 200)) 1%N = get_job failing 1%N.
Proof. exact (unsettled_steps_leave_a_job_running failing (job 1) Failed None 200 _ [] eq_refl ltac:(done)). Defined.

(** Two jobs of one moment, on pages of one. *)
Definition same_moment : Jobs := foldl does no_jobs [Starts (job 1) KindBackup 7%N None "{}" 100; Starts (job 2) KindSync 8%N None "{}" 100].

Definition id_digits (id : Uuid) : string := show (Z.of_N id).
Definition clock_digits (t : Z) : string := show t.

Lemma id_digits_inj i j : id_digits i = id_digits j -> i = j.
Proof.
  unfold id_digits. rewrite !show_uint. intros E%(f_equal NilEmpty.uint_of_string). rewrite !NilEmpty.usu in E.
  injection E as E. apply DecimalN.Unsigned.to_uint_inj in E. lia.
Qed.

Lemma same_moment_keyed : jobs_keyed same_moment.
Proof. apply (all_keyed no_jobs). by intros id r [=]. Qed.

Lemma pages_are_the_history_witness :
  let answer := fun _ : nat => in_order (started_text clock_digits) (id_column id_digits) (all_jobs same_moment) in
  Permutation (concat (map page_jobs (map (fun i => list_jobs_page same_moment (answer i) 1 (Z.of_nat i * clamp_limit 1)) (seq 0 2))))
    (all_jobs same_moment).
Proof.
  refine (proj1 (pages_are_the_history clock_digits id_digits id_digits_inj same_moment _ 1 2 same_moment_keyed _ _ _)).
  - intros _. apply in_order_answers.
  - by vm_compute.
  - by vm_compute.
Defined.
