(* ===== verification/Desktop.v ===== *)
(** * Desktop: the commands of the application over saved things and their secrets
      (apps/desktop/src-tauri/src/commands.rs)

    A command validates, calls the store, files or removes a secret, and writes what
    changed to the audit log.  A secret goes in; none comes out. *)

From Stdlib Require Import ZArith Lia Ascii String List Bool.
From stdpp Require Import base list gmap strings relations.
From S2P Require Import Prelude Text Domain Backup Retention Mask Plan Destination Vault Ssh Database AuditLog Connections.
Import ListNotations.
Open Scope string_scope.
Open Scope list_scope.
Open Scope Z_scope.
Open Scope dbsync_scope.

(** ** Errors *)

Record CommandError := new_error { ce_kind : string; ce_message : string }.

Definition store_error_kind (e : StoreError) : string :=
  match e with
  | DuplicateName _ | OfDestination (DestinationDuplicate _) => "duplicate_name"
  | ProfileNotFound _ | SyncPlanNotFound _ | OfDestination (DestinationNotFound _) => "not_found"
  | InvalidSshConnection _ | OfDestination (InvalidDestination _) => "invalid"
  | Secrets _ => "keychain"
  | Sqlx _ => "storage"
  end.

Section Commands.
Context `{Platform}.

Definition of_store_error (e : StoreError) : CommandError := new_error (store_error_kind e) (store_error_text e).
Definition of_secret_error (e : KeyError) : CommandError := new_error "keychain" (key_error_text e).

(** What [ops] says of a store or a keychain that fails. *)
Definition op_error_text (e : StoreError) : string :=
  match e with Secrets k => "keychain error: " ++ key_error_text k | e => store_error_text e end%string.

Definition Cmd (A : Type) : Type := Db (result A CommandError).

Definition done {A} (a : A) : Cmd A := Return (Ok a).
Definition refuse {A} (kind message : string) : Cmd A := Return (Err (new_error kind message)).

Definition cmd_bind {A B} (m : Cmd A) (k : A -> Cmd B) : Cmd B :=
  db_bind m (fun r => match r with Ok a => k a | Err e => Return (Err e) end).
End Commands.

Notation "'let!' x ':=' e 'in' k" := (cmd_bind e (fun x => k))
  (at level 10, x pattern, e at level 100, k at level 200).

Section Desktop.
Context `{Platform}.

(** [?] over the store and over the keychain. *)
Definition stored {A} (m : St A) : Cmd A := let~ r := m in Return (map_err r of_store_error).
Definition kept {A} (f : V A) : Cmd A := let~ r := stmt (Keychain f) in Return (map_err r of_secret_error).
Definition note (a : AuditAction) (subject detail : string) : Cmd unit := stored (audit a subject detail).

(** ** Profiles *)

Definition host_change (before after : DbConfig) : list string :=
  if negb (String.eqb (db_host before) (db_host after)) || negb (db_port before =? db_port after)
  then [(db_host before ++ ":" ++ show (db_port before) ++ " -> " ++ db_host after ++ ":" ++ show (db_port after))%string]
  else [].

Definition profile_changes (before after : ConnectionProfile) : list string :=
  host_change (db before) (db after)
  ++ (if negb (bool_decide (environment before = environment after))
      then [(environment_as_str (environment before) ++ " -> " ++ environment_as_str (environment after))%string] else [])
  ++ (if negb (String.eqb (profile_name before) (profile_name after))
      then [("renamed from " ++ profile_name before)%string] else []).

Definition given (secret : option string) : option string :=
  match secret with Some s => if String.eqb s "" then None else Some s | None => None end.

(** A record whose secret cannot be filed is taken back. *)
Definition file_or_undo (secret : option string) (id : Uuid) (k : SecretKind) (undo : Db unit) : Cmd unit :=
  match given secret with
  | Some value =>
      let~ set := stmt (Keychain (set_secret uuid_text id k value)) in
      match set with
      | Ok _ => done tt
      | Err e => let~ _ := undo in Return (Err (of_secret_error e))
      end
  | None => done tt
  end.

Definition cmd_create_profile (input : ProfileCreate) (db_password : option string) : Cmd ConnectionProfile :=
  if blank (pc_name input) then refuse "invalid" "profile name cannot be empty"
  else
    let! p := stored (create_profile input) in
    let! _ := file_or_undo db_password (profile_id p) DbPassword (discard (delete_profile (profile_id p))) in
    let! _ := note ProfileCreated (profile_name p) (engine_debug (profile_engine p) ++ " at " ++ db_host (db p))%string in
    done p.

Definition cmd_update_profile (id : Uuid) (patch : ProfileUpdate) : Cmd ConnectionProfile :=
  let! before := stored (get_profile id) in
  let! after := stored (update_profile id patch) in
  let! _ := match before with
            | Some before =>
                match profile_changes before after with
                | [] => done tt
                | changes => note ProfileUpdated (profile_name after) (join ", " changes)
                end
            | None => done tt
            end in
  done after.

(** The row goes first, then its entry in the log, then the secrets. *)
Definition cmd_delete_profile (id : Uuid) : Cmd bool :=
  let! found := stored (get_profile id) in
  let name := match found with Some p => profile_name p | None => uuid_text id end in
  let! removed := stored (delete_profile id) in
  if removed then
    let! _ := note ProfileDeleted name "backups for it stop" in
    let! _ := kept (delete_all_for_profile uuid_text id) in
    done true
  else done false.

Definition cmd_set_profile_secret (id : Uuid) (kind value : string) : Cmd unit :=
  let! _ := stored (require_profile id) in
  if negb (String.eqb kind "db_password") then refuse "invalid" ("unknown secret kind " ++ str_debug kind)%string
  else
    let! _ := kept (set_secret uuid_text id DbPassword value) in
    let! found := stored (get_profile id) in
    let name := match found with Some p => profile_name p | None => uuid_text id end in
    note SecretSet name (if String.eqb value "" then "DbPassword cleared" else "DbPassword stored").

Definition cmd_profile_secret_status (id : Uuid) : Cmd bool :=
  let! _ := stored (require_profile id) in kept (has_secret uuid_text id DbPassword).

(** ** SSH connections *)

Record SshConnectionStatus := mk_ssh_status {
  has_passphrase : bool;
  used_by_profiles : list string;
  used_by_jump : list string }.

Definition ssh_changes (before after : SshConnection) : list string :=
  (if negb (bool_decide (ssh_endpoint before = ssh_endpoint after))
   then [(describe (ssh_endpoint before) ++ " -> " ++ describe (ssh_endpoint after))%string] else [])
  ++ (if negb (bool_decide (jump_host_id before = jump_host_id after)) then ["jump host changed"] else [])
  ++ (if negb (String.eqb (ssh_name before) (ssh_name after)) then [("renamed from " ++ ssh_name before)%string] else []).

Definition affected_detail (changes : list string) (affected : list ConnectionProfile) : string :=
  match affected with
  | [] => join ", " changes
  | _ => join ", " changes ++ " (affects " ++ join ", " (map profile_name affected) ++ ")"
  end%string.

Definition cmd_create_ssh_connection (input : SshConnectionCreate) (passphrase : option string) : Cmd SshConnection :=
  let! c := stored (create_ssh_connection input) in
  let! _ := file_or_undo passphrase (ssh_id c) SshKeyPassphrase (discard (delete_ssh_connection (ssh_id c))) in
  let! _ := note SshConnectionCreated (ssh_name c) (describe (ssh_endpoint c)) in
  done c.

Definition cmd_update_ssh_connection (id : Uuid) (patch : SshConnectionUpdate) : Cmd SshConnection :=
  let! before := stored (get_ssh_connection id) in
  let! after := stored (update_ssh_connection id patch) in
  let! _ := match before with
            | Some before =>
                match ssh_changes before after with
                | [] => done tt
                | changes =>
                    let! affected := stored (profiles_using_ssh_connection id) in
                    note SshConnectionUpdated (ssh_name after) (affected_detail changes affected)
                end
            | None => done tt
            end in
  done after.

Definition cmd_delete_ssh_connection (id : Uuid) : Cmd bool :=
  let! found := stored (get_ssh_connection id) in
  let name := match found with Some c => ssh_name c | None => uuid_text id end in
  let~ forgotten := forget_ssh_connection id in
  match forgotten with
  | Err e => refuse "invalid" (op_error_text e)
  | Ok true => let! _ := note SshConnectionDeleted name "nothing can tunnel through it any more" in done true
  | Ok false => done false
  end.

Definition cmd_set_ssh_connection_passphrase (id : Uuid) (value : string) : Cmd unit :=
  let! c := stored (require_ssh_connection id) in
  let! _ := kept (set_secret uuid_text id SshKeyPassphrase value) in
  note SecretSet (ssh_name c) (if String.eqb value "" then "SSH key passphrase cleared" else "SSH key passphrase stored").

Definition cmd_ssh_connection_status (id : Uuid) : Cmd SshConnectionStatus :=
  let! _ := stored (require_ssh_connection id) in
  let! has := kept (has_secret uuid_text id SshKeyPassphrase) in
  let! users := stored (profiles_using_ssh_connection id) in
  let! jumping := stored (ssh_connections_jumping_through id) in
  done (mk_ssh_status has (map profile_name users) (map ssh_name jumping)).

(** ** Table sets *)

Definition cmd_create_sync_plan (input : SyncPlanCreate) : Cmd SyncPlan :=
  if blank (spc_name input) then refuse "invalid" "plan name cannot be empty"
  else
    let! _ := stored (require_profile (spc_profile_id input)) in
    stored (create_sync_plan input).

Definition cmd_set_sync_plan_masking (id : Uuid) (masking : list MaskRule) : Cmd SyncPlan :=
  let! before := stored (get_sync_plan id) in
  let! plan := stored (set_sync_plan_masking id masking) in
  let was := match before with Some p => length (sp_masking p) | None => O end in
  let! _ := note MaskingChanged (sp_name plan)
    (show (Z.of_nat (length masking)) ++ " rule(s), was " ++ show (Z.of_nat was))%string in
  done plan.

(** ** Destinations *)

Record DestinationView := mk_view { v_destination : Destination; v_has_credential : bool; v_location : string }.

Definition destination_view (d : Destination) : Cmd DestinationView :=
  let~ r := stmt (Keychain (has_secret uuid_text (dst_id d) ObjectStoreSecret)) in
  done (mk_view d (match r with Ok b => b | Err _ => false end) (kind_describe (dst_kind d))).

Definition get_destination (id : Uuid) : St (option Destination) := select (fun t => destinations t !! id).

Definition require_destination (id : Uuid) : St Destination :=
  let# d := get_destination id in lift_st (ok_or d (OfDestination (DestinationNotFound id))).

Definition cmd_create_destination (input : DestinationCreate) (secret_access_key : string) : Cmd DestinationView :=
  if blank secret_access_key
  then refuse "invalid" "a secret access key is required; without one the destination cannot be used"
  else
    let! created := stored (store_create_destination input) in
    let! _ := kept (set_secret uuid_text (dst_id created) ObjectStoreSecret (trim secret_access_key)) in
    let! _ := note DestinationCreated (dst_name created) (kind_describe (dst_kind created)) in
    destination_view created.

Definition cmd_update_destination (id : Uuid) (patch : DestinationUpdate) : Cmd DestinationView :=
  let! d := stored (store_update_destination id patch) in destination_view d.

Definition cmd_set_destination_credential (id : Uuid) (secret_access_key : string) : Cmd DestinationView :=
  let! d := stored (require_destination id) in
  if blank secret_access_key
  then refuse "invalid" "an empty key would leave this destination unusable; remove it instead"
  else
    let! _ := kept (set_secret uuid_text id ObjectStoreSecret (trim secret_access_key)) in
    destination_view d.

Definition cmd_delete_destination (id : Uuid) : Cmd bool :=
  let! found := stored (get_destination id) in
  let name := match found with Some d => dst_name d | None => uuid_text id end in
  let~ forgotten := forget_destination id in
  match forgotten with
  | Err e => refuse "destination" (op_error_text e)
  | Ok true => let! _ := note DestinationDeleted name "off-site copies stop being made" in done true
  | Ok false => done false
  end.

Fixpoint views (l : list Destination) : Cmd (list DestinationView) :=
  match l with
  | [] => done []
  | d :: l => let! v := destination_view d in let! vs := views l in done (v :: vs)
  end.

Definition cmd_list_destinations : Cmd (list DestinationView) :=
  let! l := stored store_list_destinations in views l.

(** ** Every command with a part in this *)

Inductive Reply :=
| RUnit | RBool (b : bool) | RProfile (p : ConnectionProfile) | RSsh (c : SshConnection)
| RSshStatus (s : SshConnectionStatus) | RPlan (p : SyncPlan) | RView (v : DestinationView)
| RViews (l : list DestinationView).

(** What the window sends. *)
Inductive Command :=
| CreateProfile (input : ProfileCreate) (db_password : option string)
| UpdateProfile (id : Uuid) (patch : ProfileUpdate)
| DeleteProfile (id : Uuid)
| SetProfileSecret (id : Uuid) (kind value : string)
| ProfileSecretStatus (id : Uuid)
| CreateSsh (input : SshConnectionCreate) (passphrase : option string)
| UpdateSsh (id : Uuid) (patch : SshConnectionUpdate)
| DeleteSsh (id : Uuid)
| SetSshPassphrase (id : Uuid) (value : string)
| SshStatus (id : Uuid)
| CreateSyncPlan (input : SyncPlanCreate)
| SetMasking (id : Uuid) (masking : list MaskRule)
| CreateDestination (input : DestinationCreate) (secret_access_key : string)
| UpdateDestination (id : Uuid) (patch : DestinationUpdate)
| SetDestinationCredential (id : Uuid) (secret_access_key : string)
| DeleteDestination (id : Uuid)
| ListDestinations.

Definition replied {A} (f : A -> Reply) (m : Cmd A) : Cmd Reply := let! a := m in done (f a).

Definition handle (c : Command) : Cmd Reply :=
  match c with
  | CreateProfile i pw => replied RProfile (cmd_create_profile i pw)
  | UpdateProfile id u => replied RProfile (cmd_update_profile id u)
  | DeleteProfile id => replied RBool (cmd_delete_profile id)
  | SetProfileSecret id k v => replied (fun _ => RUnit) (cmd_set_profile_secret id k v)
  | ProfileSecretStatus id => replied RBool (cmd_profile_secret_status id)
  | CreateSsh i pp => replied RSsh (cmd_create_ssh_connection i pp)
  | UpdateSsh id u => replied RSsh (cmd_update_ssh_connection id u)
  | DeleteSsh id => replied RBool (cmd_delete_ssh_connection id)
  | SetSshPassphrase id v => replied (fun _ => RUnit) (cmd_set_ssh_connection_passphrase id v)
  | SshStatus id => replied RSshStatus (cmd_ssh_connection_status id)
  | CreateSyncPlan i => replied RPlan (cmd_create_sync_plan i)
  | SetMasking id l => replied RPlan (cmd_set_sync_plan_masking id l)
  | CreateDestination i k => replied RView (cmd_create_destination i k)
  | UpdateDestination id u => replied RView (cmd_update_destination id u)
  | SetDestinationCredential id k => replied RView (cmd_set_destination_credential id k)
  | DeleteDestination id => replied RBool (cmd_delete_destination id)
  | ListDestinations => replied RViews cmd_list_destinations
  end.

(** Commands one after the other, with what each replied. *)
Fixpoint session (l : list Command) (w : World) : list (result Reply CommandError) * World :=
  match l with
  | [] => ([], w)
  | c :: l => let '(r, w) := run (handle c) w in let '(rs, w) := session l w in (r :: rs, w)
  end.
End Desktop.
