(* ===== verification/Secrecy.v ===== *)
(** * Secrecy: what the application shows does not depend on the secrets it was given

    Two programs are alike when they make the same statements, and whatever they do
    with the keychain differs only in the values of its entries.  Every command is
    alike to itself with another secret; so two sessions that differ in the secrets
    that were typed get the same replies and leave the same tables, the audit log
    among them. *)

From Stdlib Require Import ZArith Lia Ascii String List Bool.
From stdpp Require Import base list gmap strings relations.
From S2P Require Import Prelude Text Domain Backup Retention Mask Plan Destination Vault Ssh Database AuditLog Connections Consistency Desktop.
Import ListNotations.
Open Scope string_scope.
Open Scope list_scope.
Open Scope Z_scope.
Open Scope dbsync_scope.

(** ** Alike *)

(** The keychains have the same entries; the settings and the failures to come are the same. *)
Definition same_keys (v v' : Vault) : Prop :=
  dom (keychain v) = dom (keychain v') /\ settings v = settings v' /\ Vault.faults v = Vault.faults v'.

Definition same_world (w w' : World) : Prop :=
  tables w = tables w' /\ minted w = minted w' /\ clock w = clock w' /\ same_keys (vault w) (vault w').

#[export] Instance same_keys_equivalence : Equivalence same_keys.
Proof.
  split.
  - by intros v.
  - intros v v' (? & ? & ?). by split.
  - intros a b c (H1 & H2 & H3) (H4 & H5 & H6). split_and!; congruence.
Qed.

Definition blind {A} (f g : V A) : Prop := forall v v', same_keys v v' ->
  fst (f v) = fst (g v') /\ same_keys (snd (f v)) (snd (g v')).

Lemma call_blind {A} e (f g : Vault -> A * Vault) :
  (forall v v', same_keys v v' -> fst (f v) = fst (g v') /\ dom (keychain (snd (f v))) = dom (keychain (snd (g v')))
     /\ settings (snd (f v)) = settings (snd (g v'))) -> blind (call e f) (call e g).
Proof.
  intros Hf v v' Hv. pose proof (Hf v v' Hv) as (H1 & H2 & H3). destruct Hv as (Hd & Hs & Hx).
  unfold call. rewrite <- Hx.
  destruct (Vault.faults v) as [|[] fs]; destruct (f v) as [a x], (g v') as [b y]; simpl in *;
    (split; [congruence|by split_and!]).
Qed.

Lemma vbind_blind {A B} (f g : V A) (k l : A -> V B) : blind f g -> (forall a, blind (k a) (l a)) -> blind (vbind f k) (vbind g l).
Proof.
  intros Hf Hk v v' Hv. destruct (Hf v v' Hv) as [H1 H2]. unfold vbind.
  destruct (f v) as [[a|e] x], (g v') as [[b|e'] y]; simpl in *; try done.
  - injection H1 as <-. by apply Hk.
  - split; [congruence|done].
Qed.

Lemma vret_blind {A} (a : A) : blind (vret a) (vret a).
Proof. by intros v v' Hv. Qed.

Section Calls.
Variable uuid_text : Uuid -> string.

Lemma set_secret_blind id k s s' : (s = "" <-> s' = "") -> blind (set_secret uuid_text id k s) (set_secret uuid_text id k s').
Proof.
  intros Hs. apply call_blind. intros v v' (Hd & Ht & _). split; [done|]. split; [|done]. simpl.
  destruct (String.eqb_spec s "") as [E|E], (String.eqb_spec s' "") as [E'|E']; try (exfalso; tauto); set_solver.
Qed.

Lemma has_secret_blind id k : blind (has_secret uuid_text id k) (has_secret uuid_text id k).
Proof.
  intros v v' (Hd & Ht & Hx). unfold has_secret, get_secret, vbind, call, vret. rewrite <- Hx.
  assert (E : is_some (keychain v !! account uuid_text id k) = is_some (keychain v' !! account uuid_text id k)).
  { destruct (keychain v !! _) eqn:E1, (keychain v' !! _) eqn:E2; simpl; try done.
    - apply mk_is_Some, elem_of_dom in E1. rewrite Hd in E1. apply elem_of_dom in E1 as [? E1]. congruence.
    - apply mk_is_Some, elem_of_dom in E2. rewrite <- Hd in E2. apply elem_of_dom in E2 as [? E2]. congruence. }
  destruct (Vault.faults v) as [|[] fs]; simpl; rewrite ?E; by split.
Qed.

Lemma delete_all_blind id : blind (delete_all_for_profile uuid_text id) (delete_all_for_profile uuid_text id).
Proof.
  apply vbind_blind; [|intros _]; apply call_blind; intros v v' (Hd & Ht & _); (split; [done|]; split; [|done]);
    simpl; set_solver.
Qed.
End Calls.

Inductive alike {A} : Db A -> Db A -> Prop :=
| alike_return a : alike (Return a) (Return a)
| alike_do B (s : Stmt B) k l : match s with Keychain _ => False | _ => True end ->
    (forall b, alike (k b) (l b)) -> alike (Do s k) (Do s l)
| alike_keychain B (f g : V B) k l : blind f g ->
    (forall b, alike (k b) (l b)) -> alike (Do (Keychain f) k) (Do (Keychain g) l).

Section Alike.
Context `{Platform}.

Lemma alike_bind {A B} (m n : Db A) (k l : A -> Db B) :
  alike m n -> (forall a, alike (k a) (l a)) -> alike (db_bind m k) (db_bind n l).
Proof. intros Hm Hk. induction Hm; simpl; [by apply Hk|by constructor|by constructor]. Qed.

Lemma alike_run {A} (m n : Db A) : alike m n -> forall w w', same_world w w' ->
  fst (run m w) = fst (run n w') /\ same_world (snd (run m w)) (snd (run n w')).
Proof.
  induction 1 as [a|B s k l Hs _ IH|B f g k l Hf _ IH]; intros w w' Hw; [done| |].
  - destruct Hw as (Ht & Hm & Hc & Hv). destruct s as [C f|C f| |]; [|done| |]; simpl.
    + rewrite <- Ht. destruct (f (tables w)) as [a t]. by apply IH.
    + rewrite Hm. by apply IH.
    + rewrite Hc. by apply IH.
  - destruct Hw as (Ht & Hm & Hc & Hv). simpl. destruct (Hf _ _ Hv) as [H1 H2].
    destruct (f (vault w)) as [a v], (g (vault w')) as [b v']. simpl in *. subst b. apply IH.
    by split_and!.
Qed.

Lemma alike_stmt {A} (s : Stmt A) : match s with Keychain _ => False | _ => True end -> alike (stmt s) (stmt s).
Proof. intros Hs. apply alike_do; [done|]. intros b. apply alike_return. Qed.

Lemma alike_key {A} (f g : V A) : blind f g -> alike (stmt (Keychain f)) (stmt (Keychain g)).
Proof. intros Hf. apply alike_keychain; [done|]. intros b. apply alike_return. Qed.

Lemma alike_st {A B} (m n : St A) (k l : A -> St B) : alike m n -> (forall a, alike (k a) (l a)) -> alike (st_bind m k) (st_bind n l).
Proof. intros Hm Hk. apply alike_bind; [done|]. intros [a|e]; [apply Hk|apply alike_return]. Qed.

Lemma alike_cmd {A B} (m n : Cmd A) (k l : A -> Cmd B) : alike m n -> (forall a, alike (k a) (l a)) -> alike (cmd_bind m k) (cmd_bind n l).
Proof. intros Hm Hk. apply alike_bind; [done|]. intros [a|e]; [apply Hk|apply alike_return]. Qed.
End Alike.

Create HintDb alike.
#[export] Hint Resolve set_secret_blind has_secret_blind delete_all_blind : alike.
#[export] Hint Extern 1 (alike (Return _) (Return _)) => apply alike_return : alike.

Ltac alike_step :=
  match goal with
  | |- alike (Return _) (Return _) => apply alike_return
  | |- alike (st_bind _ _) (st_bind _ _) => apply alike_st; [|intros ?]
  | |- alike (cmd_bind _ _) (cmd_bind _ _) => apply alike_cmd; [|intros ?]
  | |- alike (stmt (Keychain _)) (stmt (Keychain _)) => apply alike_key; auto with alike
  | |- alike (stmt _) (stmt _) => apply alike_stmt; exact I
  | |- alike (match ?x with _ => _ end) (match ?x with _ => _ end) => destruct x
  | |- alike (db_bind _ _) (db_bind _ _) => apply alike_bind; [|intros ?]
  | |- alike _ _ => solve [auto with alike]
  end.

Section Commands.
Context `{Platform}.

Lemma alike_ok {A} (a : A) : alike (ok a) (ok a).
Proof. apply alike_return. Qed.
Lemma alike_err {A} e : alike (@err A e) (err e).
Proof. apply alike_return. Qed.
Lemma alike_lift {A} (r : result A StoreError) : alike (lift_st r) (lift_st r).
Proof. apply alike_return. Qed.
Lemma alike_done {A} (a : A) : alike (done a) (done a).
Proof. apply alike_return. Qed.
Lemma alike_refuse {A} k m : alike (@refuse A k m) (refuse k m).
Proof. apply alike_return. Qed.
#[local] Hint Resolve alike_ok alike_err alike_lift alike_done alike_refuse : alike.

Lemma alike_select {A} (f : Tables -> A) : alike (select f) (select f).
Proof. unfold select. repeat alike_step. Qed.
Lemma alike_write {A} (f : Tables -> result A Violation * Tables) n : alike (write f n) (write f n).
Proof. unfold write. repeat alike_step. Qed.
Lemma alike_now : alike now now.
Proof. unfold now. repeat alike_step. Qed.
Lemma alike_uuid : alike new_uuid new_uuid.
Proof. unfold new_uuid. repeat alike_step. Qed.
#[local] Hint Resolve alike_select alike_write alike_now alike_uuid : alike.

Lemma alike_stored {A} (m : St A) : alike m m -> alike (stored m) (stored m).
Proof. intros Hm. unfold stored. repeat alike_step. Qed.
Lemma alike_kept {A} (f g : V A) : blind f g -> alike (kept f) (kept g).
Proof. intros Hf. unfold kept. apply alike_bind; [by apply alike_key|]. intros a. apply alike_return. Qed.
Lemma alike_note a s d : alike (note a s d) (note a s d).
Proof. apply alike_stored. unfold audit. repeat alike_step. Qed.
#[local] Hint Resolve alike_stored alike_kept alike_note : alike.

(** The functions of the store ask the keychain nothing, or only delete from it. *)
Ltac store_function := repeat alike_step.

Lemma require_ssh_alike id : alike (require_ssh_connection id) (require_ssh_connection id).
Proof. unfold require_ssh_connection, get_ssh_connection. store_function. Qed.
#[local] Hint Resolve require_ssh_alike : alike.

Lemma check_reference_alike o : alike (check_reference o) (check_reference o).
Proof. unfold check_reference. store_function. Qed.
#[local] Hint Resolve check_reference_alike : alike.

Lemma create_profile_fn_alike i : alike (create_profile i) (create_profile i).
Proof. unfold create_profile. store_function. Qed.
#[local] Hint Resolve create_profile_fn_alike : alike.

Lemma get_profile_alike id : alike (get_profile id) (get_profile id).
Proof. unfold get_profile. store_function. Qed.
#[local] Hint Resolve get_profile_alike : alike.

Lemma require_profile_alike id : alike (require_profile id) (require_profile id).
Proof. unfold require_profile. store_function. Qed.
#[local] Hint Resolve require_profile_alike : alike.

Lemma update_profile_fn_alike id u : alike (update_profile id u) (update_profile id u).
Proof. unfold update_profile. store_function. Qed.
#[local] Hint Resolve update_profile_fn_alike : alike.

Lemma delete_profile_fn_alike id : alike (delete_profile id) (delete_profile id).
Proof. unfold delete_profile. store_function. Qed.
#[local] Hint Resolve delete_profile_fn_alike : alike.

Lemma check_jump_alike c : alike (check_jump_host c) (check_jump_host c).
Proof. unfold check_jump_host, ssh_connections_jumping_through. store_function. Qed.
#[local] Hint Resolve check_jump_alike : alike.

Lemma get_ssh_alike id : alike (get_ssh_connection id) (get_ssh_connection id).
Proof. unfold get_ssh_connection. store_function. Qed.
#[local] Hint Resolve get_ssh_alike : alike.

Lemma create_ssh_fn_alike i : alike (create_ssh_connection i) (create_ssh_connection i).
Proof. unfold create_ssh_connection. store_function. Qed.
#[local] Hint Resolve create_ssh_fn_alike : alike.

Lemma update_ssh_fn_alike id u : alike (update_ssh_connection id u) (update_ssh_connection id u).
Proof. unfold update_ssh_connection. store_function. Qed.
#[local] Hint Resolve update_ssh_fn_alike : alike.

Lemma delete_ssh_alike id : alike (delete_ssh_connection id) (delete_ssh_connection id).
Proof. unfold delete_ssh_connection, profiles_using_ssh_connection, ssh_connections_jumping_through. store_function. Qed.
#[local] Hint Resolve delete_ssh_alike : alike.

Lemma forget_ssh_alike id : alike (forget_ssh_connection id) (forget_ssh_connection id).
Proof. unfold forget_ssh_connection, keychain_call. store_function. Qed.
#[local] Hint Resolve forget_ssh_alike : alike.

Lemma get_plan_alike id : alike (get_sync_plan id) (get_sync_plan id).
Proof. unfold get_sync_plan. store_function. Qed.
#[local] Hint Resolve get_plan_alike : alike.

Lemma require_plan_alike id : alike (require_sync_plan id) (require_sync_plan id).
Proof. unfold require_sync_plan. store_function. Qed.
#[local] Hint Resolve require_plan_alike : alike.

Lemma create_plan_alike i : alike (create_sync_plan i) (create_sync_plan i).
Proof. unfold create_sync_plan. store_function. Qed.
#[local] Hint Resolve create_plan_alike : alike.

Lemma mask_plan_alike id l : alike (set_sync_plan_masking id l) (set_sync_plan_masking id l).
Proof. unfold set_sync_plan_masking. store_function. Qed.
#[local] Hint Resolve mask_plan_alike : alike.

Lemma get_destination_alike id : alike (get_destination id) (get_destination id).
Proof. unfold get_destination. store_function. Qed.
#[local] Hint Resolve get_destination_alike : alike.

Lemma require_destination_alike id : alike (require_destination id) (require_destination id).
Proof. unfold require_destination. store_function. Qed.
#[local] Hint Resolve require_destination_alike : alike.

Lemma create_destination_fn_alike i : alike (store_create_destination i) (store_create_destination i).
Proof. unfold store_create_destination, on_destinations. store_function. Qed.
#[local] Hint Resolve create_destination_fn_alike : alike.

Lemma update_destination_fn_alike id u : alike (store_update_destination id u) (store_update_destination id u).
Proof. unfold store_update_destination, on_destinations. store_function. Qed.
#[local] Hint Resolve update_destination_fn_alike : alike.

Lemma forget_destination_alike id : alike (forget_destination id) (forget_destination id).
Proof. unfold forget_destination, store_delete_destination, keychain_call, on_destinations, delete_for_destination. store_function. Qed.
#[local] Hint Resolve forget_destination_alike : alike.

Lemma list_destinations_alike : alike store_list_destinations store_list_destinations.
Proof. unfold store_list_destinations. store_function. Qed.
#[local] Hint Resolve list_destinations_alike : alike.

(** ** Commands that differ in what was typed *)

Definition same_given (s s' : option string) : Prop := given s = None <-> given s' = None.

(** The same request with another secret; a secret is also compared by whether it is blank,
    since a blank one is refused or clears an entry. *)
Inductive but_for_secrets : Command -> Command -> Prop :=
| bs_same c : but_for_secrets c c
| bs_create_profile i s s' : same_given s s' -> but_for_secrets (CreateProfile i s) (CreateProfile i s')
| bs_set_secret id k s s' : (s = "" <-> s' = "") -> but_for_secrets (SetProfileSecret id k s) (SetProfileSecret id k s')
| bs_create_ssh i s s' : same_given s s' -> but_for_secrets (CreateSsh i s) (CreateSsh i s')
| bs_set_passphrase id s s' : (s = "" <-> s' = "") -> but_for_secrets (SetSshPassphrase id s) (SetSshPassphrase id s')
| bs_create_destination i s s' : blank s = blank s' ->
    but_for_secrets (CreateDestination i s) (CreateDestination i s')
| bs_set_credential id s s' : blank s = blank s' ->
    but_for_secrets (SetDestinationCredential id s) (SetDestinationCredential id s').

Lemma file_or_undo_alike s s' id k undo : same_given s s' -> alike undo undo ->
  alike (file_or_undo s id k undo) (file_or_undo s' id k undo).
Proof.
  intros Hs Hu. unfold file_or_undo. destruct (given s) as [x|] eqn:Ex, (given s') as [y|] eqn:Ey.
  - apply alike_bind.
    + apply alike_key, set_secret_blind. unfold given in Ex, Ey. destruct s as [a|], s' as [b|]; try done.
      destruct (String.eqb_spec a ""), (String.eqb_spec b ""); naive_solver.
    + intros [u|e]; repeat alike_step.
  - destruct Hs as [_ Hs]. specialize (Hs Ey). congruence.
  - destruct Hs as [Hs _]. specialize (Hs Ex). congruence.
  - apply alike_return.
Qed.

Lemma create_profile_alike i s s' : same_given s s' -> alike (cmd_create_profile i s) (cmd_create_profile i s').
Proof.
  intros Hs. unfold cmd_create_profile. destruct (blank _); [apply alike_return|].
  apply alike_cmd; [auto with alike|]. intros p. apply alike_cmd.
  - apply file_or_undo_alike; [done|]. apply alike_bind; [auto with alike|]. intros _. apply alike_return.
  - intros _. repeat alike_step.
Qed.

Lemma create_ssh_alike i s s' : same_given s s' -> alike (cmd_create_ssh_connection i s) (cmd_create_ssh_connection i s').
Proof.
  intros Hs. unfold cmd_create_ssh_connection.
  apply alike_cmd; [auto with alike|]. intros p. apply alike_cmd.
  - apply file_or_undo_alike; [done|]. apply alike_bind; [apply delete_ssh_alike|]. intros _. apply alike_return.
  - intros _. repeat alike_step.
Qed.

Lemma empty_eqb s s' : (s = "" <-> s' = "") -> String.eqb s "" = String.eqb s' "".
Proof. intros Hs. destruct (String.eqb_spec s ""), (String.eqb_spec s' ""); tauto. Qed.

Lemma set_profile_secret_alike id k s s' : (s = "" <-> s' = "") ->
  alike (cmd_set_profile_secret id k s) (cmd_set_profile_secret id k s').
Proof.
  intros Hs. unfold cmd_set_profile_secret. rewrite (empty_eqb s s' Hs).
  apply alike_cmd; [auto with alike|]. intros _.
  destruct (negb _); [apply alike_return|]. apply alike_cmd; [by apply alike_kept, set_secret_blind|]. intros _.
  apply alike_cmd; [auto with alike|].
  intros found. apply alike_note.
Qed.

Lemma set_passphrase_alike id s s' : (s = "" <-> s' = "") ->
  alike (cmd_set_ssh_connection_passphrase id s) (cmd_set_ssh_connection_passphrase id s').
Proof.
  intros Hs. unfold cmd_set_ssh_connection_passphrase. rewrite (empty_eqb s s' Hs).
  apply alike_cmd; [auto with alike|]. intros c.
  apply alike_cmd; [by apply alike_kept, set_secret_blind|]. intros _. apply alike_note.
Qed.

Lemma blank_trim s s' : blank s = blank s' -> (trim s = "" <-> trim s' = "").
Proof. unfold blank. destruct (String.eqb_spec (trim s) ""), (String.eqb_spec (trim s') ""); try done; tauto. Qed.

Lemma view_alike d : alike (destination_view d) (destination_view d).
Proof. unfold destination_view. repeat alike_step. Qed.
#[local] Hint Resolve view_alike : alike.

Lemma create_destination_alike i s s' : blank s = blank s' -> alike (cmd_create_destination i s) (cmd_create_destination i s').
Proof.
  intros Hs. pose proof (blank_trim s s' Hs) as Ht. unfold cmd_create_destination. rewrite <- Hs. destruct (blank s); [apply alike_return|].
  apply alike_cmd; [auto with alike|]. intros d.
  apply alike_cmd; [by apply alike_kept, set_secret_blind|]. intros _. repeat alike_step.
Qed.

Lemma set_credential_alike id s s' : blank s = blank s' ->
  alike (cmd_set_destination_credential id s) (cmd_set_destination_credential id s').
Proof.
  intros Hs. pose proof (blank_trim s s' Hs) as Ht. unfold cmd_set_destination_credential. rewrite <- Hs.
  apply alike_cmd; [auto with alike|].
  intros d. destruct (blank s); [apply alike_return|].
  apply alike_cmd; [by apply alike_kept, set_secret_blind|]. intros _. repeat alike_step.
Qed.

Lemma views_alike l : alike (views l) (views l).
Proof. induction l as [|d l IH]; simpl; repeat alike_step. Qed.

Lemma replied_alike {A} (f : A -> Reply) m n : alike m n -> alike (replied f m) (replied f n).
Proof. intros Hm. apply alike_cmd; [done|]. intros a. apply alike_return. Qed.


#[local] Hint Resolve views_alike alike_kept : alike.

Lemma handle_alike c c' : but_for_secrets c c' -> alike (handle c) (handle c').
Proof.
  intros Hc. destruct Hc; [|apply replied_alike; auto using create_profile_alike, set_profile_secret_alike, create_ssh_alike,
    set_passphrase_alike, create_destination_alike, set_credential_alike..].
  destruct c; apply replied_alike.
  - by apply create_profile_alike.
  - unfold cmd_update_profile. repeat alike_step.
  - unfold cmd_delete_profile. repeat alike_step.
  - by apply set_profile_secret_alike.
  - unfold cmd_profile_secret_status. repeat alike_step.
  - by apply create_ssh_alike.
  - unfold cmd_update_ssh_connection, profiles_using_ssh_connection. repeat alike_step.
  - unfold cmd_delete_ssh_connection. repeat alike_step.
  - by apply set_passphrase_alike.
  - unfold cmd_ssh_connection_status, profiles_using_ssh_connection, ssh_connections_jumping_through. repeat alike_step.
  - unfold cmd_create_sync_plan. repeat alike_step.
  - unfold cmd_set_sync_plan_masking. repeat alike_step.
  - by apply create_destination_alike.
  - unfold cmd_update_destination. repeat alike_step.
  - by apply set_credential_alike.
  - unfold cmd_delete_destination. repeat alike_step.
  - unfold cmd_list_destinations. repeat alike_step.
Qed.

(** C14: two sessions of any commands that differ only in the passwords, passphrases and
    keys that were typed get the same replies, and leave the same tables and the same
    audit log: no secret, nor anything read from one but whether it was given, leaves the
    keychain. *)
Theorem secrets_stay_in_the_keychain l l' w w' :
  Forall2 but_for_secrets l l' -> same_world w w' ->
  fst (session l w) = fst (session l' w') /\ same_world (snd (session l w)) (snd (session l' w')).
Proof.
  intros Hl. revert w w'. induction Hl as [|c c' l l' Hc _ IH]; intros w w' Hw; [done|]. simpl.
  destruct (alike_run _ _ (handle_alike c c' Hc) w w' Hw) as [H1 H2].
  destruct (run (handle c) w) as [r v], (run (handle c') w') as [r' v']. simpl in H1, H2. subst r'.
  destruct (IH v v' H2) as [H3 H4]. destruct (session l v) as [rs x], (session l' v') as [rs' x']. simpl in *. by subst rs'.
Qed.
End Commands.

(** ** Two people with two passwords *)

Definition with_password (password key : string) : list Command :=
  [CreateProfile (mk_profile_create "orders" Mysql Prod None (mk_db "10.0.0.5" 3306 "app" None) no_tools) (Some password);
   ProfileSecretStatus 1%N; SetProfileSecret 1%N "db_password" password; CreateDestination nas key; ListDestinations;
   DeleteProfile 1%N].

Lemma secrets_stay_in_the_keychain_witness :
  fst (session (with_password "hunter2" "k1") empty_world) = fst (session (with_password "tr0ub4dor" "k2") empty_world)
  /\ same_world (snd (session (with_password "hunter2" "k1") empty_world)) (snd (session (with_password "tr0ub4dor" "k2") empty_world)).
Proof.
  apply (secrets_stay_in_the_keychain (with_password "hunter2" "k1") (with_password "tr0ub4dor" "k2")).
  - repeat constructor; try done.
  - by split_and!.
Defined.
