(* ===== verification/Trail.v ===== *)
(** * Trail: what the audit log tells, and what a command that fails half way leaves

    A change of a profile is recorded when its address, environment or name changed.
    What is created is taken back when its secret cannot be filed - for profiles and
    SSH connections; a destination stays. *)

From Stdlib Require Import ZArith Lia Ascii String List Bool.
From stdpp Require Import base list gmap strings relations.
From S2P Require Import Prelude Text Domain Backup Retention Mask Plan Destination Vault Ssh Database AuditLog Connections Consistency Adoption Desktop RoundTrip.
Import ListNotations.
Open Scope string_scope.
Open Scope list_scope.
Open Scope Z_scope.
Open Scope dbsync_scope.

(** ** Programs that write nothing to the log *)

Section Unlogged.
Context `{Platform}.

Definition same_log (w w' : World) : Prop := audit_log (tables w') = audit_log (tables w).

Definition unlogged {A} (m : Db A) : Prop := safe same_log (fun _ => True) m (fun _ => True).

Lemma unlogged_run {A} (m : Db A) w : unlogged m -> audit_log (tables (snd (run m w))) = audit_log (tables w).
Proof.
  intros Hm. eapply (safe_run same_log (fun _ => True)) in Hm; [|done| |done]; [by destruct Hm|].
  intros a b c. unfold same_log. congruence.
Qed.

Lemma unlogged_ret {A} (a : A) : unlogged (Return a).
Proof. done. Qed.

Lemma unlogged_bind {A B} (m : Db A) (k : A -> Db B) : unlogged m -> (forall a, unlogged (k a)) -> unlogged (db_bind m k).
Proof. intros Hm Hk. eapply safe_bind; [exact Hm|]. intros a _. apply Hk. Qed.

Lemma unlogged_st {A B} (m : St A) (k : A -> St B) : unlogged m -> (forall a, unlogged (k a)) -> unlogged (st_bind m k).
Proof. intros Hm Hk. apply unlogged_bind; [done|]. by intros [a|e]. Qed.

Lemma unlogged_sql {A} (f : Tables -> A * Tables) : (forall t, audit_log (snd (f t)) = audit_log t) -> unlogged (stmt (Sql f)).
Proof. intros Hf w _. simpl. specialize (Hf (tables w)). by destruct (f (tables w)). Qed.

Lemma unlogged_key {A} (f : V A) : unlogged (stmt (Keychain f)).
Proof. intros w _. simpl. by destruct (f (vault w)). Qed.

Lemma unlogged_write {A} (f : Tables -> result A Violation * Tables) n :
  (forall t, audit_log (snd (f t)) = audit_log t) -> unlogged (write f n).
Proof. intros Hf. apply unlogged_bind; [by apply unlogged_sql|]. by intros [a|[]]. Qed.

Lemma unlogged_select {A} (f : Tables -> A) : unlogged (select f).
Proof. apply unlogged_bind; [by apply unlogged_sql|done]. Qed.
Lemma unlogged_now : unlogged now.
Proof. by intros w _. Qed.
Lemma unlogged_uuid : unlogged new_uuid.
Proof. by intros w _. Qed.
End Unlogged.

Create HintDb unlogged.
#[export] Hint Resolve unlogged_select unlogged_now unlogged_uuid unlogged_key : unlogged.
#[export] Hint Extern 1 (unlogged _) => apply unlogged_ret : unlogged.

Ltac unlogged_step :=
  match goal with
  | |- unlogged (st_bind _ _) => apply unlogged_st; [|intros ?]
  | |- unlogged (write _ _) => apply unlogged_write; intros ?
  | |- unlogged (match ?x with _ => _ end) => destruct x
  | |- unlogged _ => solve [auto with unlogged]
  | |- unlogged (db_bind _ _) => apply unlogged_bind; [|intros ?]
  | |- unlogged (stmt (Sql _)) => apply unlogged_sql; intros ?
  end.

Section Functions.
Context `{Platform}.

Lemma update_profile_unlogged id u : unlogged (update_profile id u).
Proof.
  unfold update_profile, require_profile, get_profile, check_reference, require_ssh_connection, get_ssh_connection.
  repeat unlogged_step. unfold write_profile. repeat case_match; done.
Qed.

Lemma update_ssh_unlogged id u : unlogged (update_ssh_connection id u).
Proof.
  unfold update_ssh_connection, require_ssh_connection, check_jump_host, ssh_connections_jumping_through, require_ssh_connection,
    get_ssh_connection. repeat unlogged_step. unfold write_ssh. repeat case_match; done.
Qed.

Lemma update_destination_unlogged id u : unlogged (store_update_destination id u).
Proof.
  unfold store_update_destination, on_destinations. repeat unlogged_step. by destruct (update_destination _ _ _ _ _).
Qed.

Lemma run_cmd {A B} (m : Cmd A) (k : A -> Cmd B) w :
  run (cmd_bind m k) w = match fst (run m w) with
                         | Ok a => run (k a) (snd (run m w))
                         | Err e => (Err e, snd (run m w))
                         end.
Proof. unfold cmd_bind. rewrite run_bind. by destruct (fst (run m w)). Qed.

Lemma run_stored {A} (m : St A) w : run (stored m) w = (map_err (fst (run m w)) of_store_error, snd (run m w)).
Proof. unfold stored. by rewrite run_bind. Qed.

Lemma run_stored_ok {A} (m : St A) w a w' : run m w = (Ok a, w') -> run (stored m) w = (Ok a, w').
Proof. intros E. by rewrite run_stored, E. Qed.

Lemma run_note a s d w : exists n, run (note a s d) w
  = (Ok tt, mk_world (with_audit (tables w) (audit_log (tables w)
       ++ [mk_audit (new_v4 (minted w)) (clock w) (action_as_str a) s d])) (vault w) n (clock w)).
Proof. destruct (run_audit a s d w) as (n & E). exists n. by apply run_stored_ok. Qed.

(** ** Edits *)

Definition same_address (p q : ConnectionProfile) : Prop :=
  db_host (db p) = db_host (db q) /\ db_port (db p) = db_port (db q) /\ environment p = environment q
  /\ profile_name p = profile_name q.

Lemma profile_changes_nil p q : profile_changes p q = [] <-> same_address p q.
Proof.
  unfold profile_changes, same_address, host_change. split.
  - intros [Hh [He Hn]%app_eq_nil]%app_eq_nil.
    destruct (String.eqb_spec (db_host (db p)) (db_host (db q))); [|done].
    destruct (Z.eqb_spec (db_port (db p)) (db_port (db q))); [|done].
    destruct (bool_decide_reflect (environment p = environment q)); [|done].
    by destruct (String.eqb_spec (profile_name p) (profile_name q)).
  - intros (-> & -> & -> & ->). rewrite !String.eqb_refl, Z.eqb_refl. by rewrite bool_decide_true.
Qed.

(** What an edit that went through wrote to the log. *)
Lemma edit_recorded id patch w before after w' :
  run (cmd_update_profile id patch) w = (Ok after, w') -> profiles (tables w) !! id = Some before ->
  audit_log (tables w') = audit_log (tables w)
    ++ match profile_changes before after with
       | [] => []
       | changes => [mk_audit (new_v4 (minted (snd (run (update_profile id patch) w)))) (clock (snd (run (update_profile id patch) w)))
                       (action_as_str ProfileUpdated) (profile_name after) (join ", " changes)]
       end.
Proof.
  intros E Hb. unfold cmd_update_profile, get_profile in E. rewrite run_cmd, run_stored, run_select in E.
  cbn [fst snd map_err] in E. rewrite Hb in E. rewrite run_cmd, run_stored in E.
  pose proof (unlogged_run _ w (update_profile_unlogged id patch)) as Hl.
  destruct (run (update_profile id patch) w) as [[a|e] w1]; cbn [fst snd map_err] in *; [|done].
  rewrite run_cmd in E. destruct (profile_changes before a) as [|c cs] eqn:Ec.
  - cbn in E. injection E as -> ->. by rewrite Ec, app_nil_r.
  - destruct (run_note ProfileUpdated (profile_name a) (join ", " (c :: cs)) w1) as (n & En).
    rewrite En in E. cbn [fst snd run done] in E. injection E as -> <-. rewrite Ec. simpl. by rewrite Hl.
Qed.

(** An edit of a profile is written to the audit log, under the profile's new name,
    exactly when its host, its port, its environment or its name changed - and whatever
    else changed, the SSH connection it is reached through among them, the log is as it
    was. *)
Theorem profile_edits_are_recorded_by_address id patch w before after w' :
  run (cmd_update_profile id patch) w = (Ok after, w') -> profiles (tables w) !! id = Some before ->
  (same_address before after <-> audit_log (tables w') = audit_log (tables w))
  /\ (~ same_address before after -> exists e, audit_log (tables w') = audit_log (tables w) ++ [e]
        /\ au_action e = "profile.updated" /\ au_subject e = profile_name after).
Proof.
  intros E Hb. rewrite (edit_recorded id patch w before after w' E Hb). rewrite <- profile_changes_nil.
  destruct (profile_changes before after) as [|c cs] eqn:Ec.
  - rewrite app_nil_r. by split.
  - split; [|by intros _; eexists].
    split; [done|]. intros Hl. apply (f_equal length) in Hl. rewrite length_app in Hl. simpl in Hl. lia.
Qed.

(** No edit of a destination is recorded, wherever it sends the copies from then on. *)
Theorem destination_edits_are_not_recorded id patch w :
  audit_log (tables (snd (run (cmd_update_destination id patch) w))) = audit_log (tables w).
Proof.
  apply unlogged_run. unfold cmd_update_destination, stored, cmd_bind, destination_view.
  apply unlogged_bind; [apply unlogged_bind; [apply update_destination_unlogged|done]|].
  intros [d|e]; [|done]. apply unlogged_bind; [apply unlogged_key|done].
Qed.

(** ** Creating, and taking back *)

Lemma create_profile_cases i w : let '(r, w1) := run (create_profile i) w in
  vault w1 = vault w /\
  match r with
  | Ok p => profile_id p = new_v4 (minted w) /\ tables w1 = with_profiles (tables w) (<[new_v4 (minted w) := p]> (profiles (tables w)))
  | Err _ => tables w1 = tables w
  end.
Proof.
  unfold create_profile. rewrite run_st.
  assert (Hck : exists r, run (check_reference (pc_ssh_connection_id i)) w = (r, w)).
  { unfold check_reference. destruct (pc_ssh_connection_id i) as [k|]; [|by eexists]. rewrite run_st, run_require.
    destruct (ssh_connections (tables w) !! k); by eexists. }
  destruct Hck as ([u|e] & ->); cbn [fst snd]; [|done].
  rewrite (run_st_ok _ _ _ _ _ (run_now w)), (run_st_ok _ _ _ _ _ (run_new_uuid w)).
  set (w1 := mk_world _ _ _ _). set (p := mk_profile _ _ _ _ _ _ _ _ _).
  unfold write, stmt, st_bind. cbn [run exec db_bind]. unfold insert_profile at 1.
  destruct (_ || _); [done|]. destruct (negb _); [done|]. cbn. by split_and!.
Qed.

Lemma create_ssh_cases i w : let '(r, w1) := run (create_ssh_connection i) w in
  vault w1 = vault w /\
  match r with
  | Ok c => ssh_id c = new_v4 (minted w) /\ jump_host_id c <> Some (ssh_id c) /\ tables w1 = with_ssh (tables w) (<[new_v4 (minted w) := c]> (ssh_connections (tables w)))
  | Err _ => tables w1 = tables w
  end.
Proof.
  unfold create_ssh_connection. rewrite run_st. destruct (ssh_create_validate i) as [u|e]; [|done]. cbn [fst snd run lift_st map_err].
  rewrite (run_st_ok _ _ _ _ _ (run_now w)), (run_st_ok _ _ _ _ _ (run_new_uuid w)).
  set (w1 := mk_world _ _ _ _). set (c := mk_ssh _ _ _ _ _ _). rewrite run_st.
  destruct (run_check c w1) as ([[]|e] & -> & Hop); cbn [fst snd]; [|done]. specialize (Hop eq_refl).
  assert (Hj : jump_host_id c <> Some (ssh_id c)) by (intros E; by destruct (Hop _ E)).
  unfold write, stmt, st_bind. cbn [run exec db_bind]. unfold insert_ssh at 1.
  destruct (_ || _); [done|]. destruct (negb _); [done|]. cbn. by split_and!.
Qed.

Definition new_id_free (w : World) : Prop :=
  profiles (tables w) !! new_v4 (minted w) = None /\ inline_ssh (tables w) !! new_v4 (minted w) = None
  /\ ssh_connections (tables w) !! new_v4 (minted w) = None.

Lemma undo_profile t id p : consistent t -> profiles t !! id = None -> inline_ssh t !! id = None ->
  snd (remove_profile id (with_profiles t (<[id := p]> (profiles t)))) = t.
Proof.
  intros C Hp Hi. unfold remove_profile. simpl. rewrite delete_insert_id by done. rewrite delete_id by done.
  rewrite map_filter_id; [by destruct t|]. intros k q Hq. simpl. intros E.
  pose proof (plan_refers _ C k q Hq) as Hr. rewrite E in Hr. simpl in Hr. by rewrite Hp in Hr.
Qed.

Lemma profiles_through_none id t : (forall k p, profiles t !! k = Some p -> ssh_connection_id p <> Some id) -> profiles_through id t = [].
Proof.
  intros Hn. unfold profiles_through. destruct (List.filter _ _) as [|p l] eqn:E; [done|].
  assert (Hin : In p (p :: l)) by by left. rewrite <- E in Hin.
  apply List.filter_In in Hin as [(k & Hk)%by_name_In Hid%bool_decide_eq_true]. by destruct (Hn k p Hk).
Qed.

Lemma undo_ssh id c t w : consistent t -> ssh_connections t !! id = None -> jump_host_id c <> Some id ->
  tables w = with_ssh t (<[id := c]> (ssh_connections t)) ->
  tables (snd (run (delete_ssh_connection id) w)) = t /\ vault (snd (run (delete_ssh_connection id) w)) = vault w.
Proof.
  intros C Hn Hj Ht. unfold delete_ssh_connection, get_ssh_connection.
  assert (Hs : ssh_connections (tables w) = <[id := c]> (ssh_connections t)) by by rewrite Ht.
  rewrite run_st, run_select. cbn [fst snd]. rewrite Hs, lookup_insert_eq.
  unfold profiles_using_ssh_connection, ssh_connections_jumping_through.
  rewrite run_st, run_select. cbn [fst snd]. rewrite run_st, run_select. cbn [fst snd].
  assert (Hp : profiles_through id (tables w) = []).
  { apply profiles_through_none. intros k p Hk E. rewrite Ht in Hk. pose proof (profile_refers _ C k p Hk) as Hr.
    rewrite E in Hr. simpl in Hr. by rewrite Hn in Hr. }
  assert (Hjt : jumping_through id (tables w) = []).
  { apply jumping_through_none. intros k d Hd E. rewrite Hs in Hd. apply lookup_insert_Some in Hd as [[<- <-]|[_ Hd]]; [done|].
    pose proof (ssh_refers _ C k d Hd) as Hr. rewrite E in Hr. simpl in Hr. by rewrite Hn in Hr. }
  rewrite Hp, Hjt. unfold write, stmt. cbn [run exec db_bind]. unfold remove_ssh. rewrite Hs, lookup_insert_eq, Hp, Hjt.
  cbn. rewrite delete_insert_id by done. rewrite Ht. by destruct t.
Qed.

Lemma set_refused id k s v fs : Vault.faults v = true :: fs ->
  set_secret uuid_text id k s v = (Err KeySecrets, mk_vault (keychain v) (settings v) fs).
Proof. intros F. unfold set_secret, call. by rewrite F. Qed.

(** A secret that cannot be filed undoes what it belongs to. *)
Lemma file_refused secret x id k undo w fs : given secret = Some x -> Vault.faults (vault w) = true :: fs ->
  let w1 := with_vault w (mk_vault (keychain (vault w)) (settings (vault w)) fs) in
  run (file_or_undo secret id k undo) w = (Err (of_secret_error KeySecrets), snd (run undo w1)).
Proof.
  intros G F w1. unfold file_or_undo. rewrite G. rewrite run_bind. unfold stmt. cbn [run exec].
  rewrite (set_refused id k x _ fs F). cbn [fst snd]. by rewrite run_bind.
Qed.

(** When the keychain refuses the secret a profile or a server is created with, the
    command fails, and every table - the audit log too - and the keychain are as they
    were. *)
Theorem a_refused_secret_leaves_nothing i j secret x w fs :
  consistent (tables w) -> new_id_free w -> given secret = Some x -> Vault.faults (vault w) = true :: fs ->
  let p := run (cmd_create_profile i secret) w in
  let s := run (cmd_create_ssh_connection j secret) w in
  is_ok (fst p) = false /\ tables (snd p) = tables w /\ keychain (vault (snd p)) = keychain (vault w)
  /\ is_ok (fst s) = false /\ tables (snd s) = tables w /\ keychain (vault (snd s)) = keychain (vault w).
Proof.
  intros C (Hp & Hi & Hs) G F p s.
  assert (is_ok (fst p) = false /\ tables (snd p) = tables w /\ keychain (vault (snd p)) = keychain (vault w)) as (? & ? & ?).
  { unfold p, cmd_create_profile. destruct (blank (pc_name i)); [done|]. rewrite run_cmd, run_stored. cbn [fst snd].
    pose proof (create_profile_cases i w) as Hc. destruct (run (create_profile i) w) as [[q|e] w1]; cbn [fst snd map_err];
      destruct Hc as [Hv Hc]; [|by rewrite Hv].
    destruct Hc as [Hq Ht]. rewrite <- Hv in F. rewrite run_cmd, (file_refused _ _ _ _ _ _ _ G F). cbn [fst snd].
    unfold discard, delete_profile, stmt. cbn [run exec db_bind]. cbn [tables with_vault]. rewrite Ht, Hq.
    pose proof (undo_profile (tables w) (new_v4 (minted w)) q C Hp Hi) as Hu.
    destruct (remove_profile _ _) as [b t]. simpl in *. by rewrite Hv. }
  assert (is_ok (fst s) = false /\ tables (snd s) = tables w /\ keychain (vault (snd s)) = keychain (vault w)) as (? & ? & ?); [|done].
  unfold s, cmd_create_ssh_connection. rewrite run_cmd, run_stored. cbn [fst snd].
  pose proof (create_ssh_cases j w) as Hc. destruct (run (create_ssh_connection j) w) as [[c|e] w1]; cbn [fst snd map_err];
    destruct Hc as [Hv Hc]; [|by rewrite Hv].
  destruct Hc as (Hq & Hj & Ht). rewrite <- Hv in F. rewrite run_cmd, (file_refused _ _ _ _ _ _ _ G F). cbn [fst snd].
  unfold discard. rewrite run_bind. cbn [run snd].
  set (w2 := with_vault w1 _).
  assert (E2 : tables w2 = with_ssh (tables w) (<[ssh_id c := c]> (ssh_connections (tables w)))) by by rewrite Hq, <- Ht.
  rewrite <- Hq in Hs. destruct (undo_ssh (ssh_id c) c (tables w) w2 C Hs Hj E2) as [-> ->]. simpl. by rewrite Hv.
Qed.

(** A destination whose key the keychain refuses is not taken back: the command fails,
    the row stays as it was asked for - switched on, if that was asked - and nothing is
    recorded. *)
Theorem a_refused_key_leaves_the_destination i key w d w1 fs :
  run (store_create_destination i) w = (Ok d, w1) -> Vault.faults (vault w1) = true :: fs -> blank key = false ->
  let r := run (cmd_create_destination i key) w in
  fst r = Err (new_error "keychain" "keychain unavailable") /\ tables (snd r) = tables w1
  /\ keychain (vault (snd r)) = keychain (vault w1).
Proof.
  intros E F B r. unfold r, cmd_create_destination. rewrite B, run_cmd, (run_stored_ok _ _ _ _ E). cbn [fst snd].
  unfold kept. rewrite run_cmd, run_bind. unfold stmt. cbn [run exec]. rewrite (set_refused _ _ _ _ fs F). done.
Qed.

(** A profile is deleted before its secrets: when the keychain refuses, the profile is
    gone and its password is not, and neither deleting again nor clearing the password
    removes it any more. *)
Theorem a_deleted_profile_can_leave_its_password id p w fs :
  profiles (tables w) !! id = Some p -> Vault.faults (vault w) = true :: fs ->
  let r := run (cmd_delete_profile id) w in
  let again := run (cmd_delete_profile id) (snd r) in
  let cleared := run (cmd_set_profile_secret id "db_password" "") (snd again) in
  fst r = Err (new_error "keychain" "keychain unavailable") /\ profiles (tables (snd r)) !! id = None
  /\ fst again = Ok false /\ is_ok (fst cleared) = false
  /\ keychain (vault (snd cleared)) = keychain (vault w).
Proof.
  intros Hp F r again cleared.
  assert (Hr : fst r = Err (new_error "keychain" "keychain unavailable") /\ profiles (tables (snd r)) !! id = None
    /\ keychain (vault (snd r)) = keychain (vault w)).
  { unfold r, cmd_delete_profile, get_profile. rewrite run_cmd, run_stored, run_select. cbn [fst snd map_err].
    rewrite run_cmd, run_stored. unfold delete_profile, stmt. cbn [run exec db_bind remove_profile].
    rewrite Hp. cbn [is_some fst snd map_err run ok]. set (w1 := with_tables w _).
    rewrite run_cmd. destruct (run_note ProfileDeleted (profile_name p) "backups for it stop" w1) as (n & ->). cbn [fst snd].
    unfold kept. rewrite run_cmd, run_bind. unfold stmt. cbn [run exec vault].
    change (vault w1) with (vault w). unfold delete_all_for_profile, vbind, call. rewrite F. cbn [fst snd run map_err].
    split; [done|]. split; [|done]. simpl. apply lookup_delete_eq. }
  destruct Hr as (H1 & H2 & H3).
  assert (Ha : again = (Ok false, snd again) /\ profiles (tables (snd again)) !! id = None /\ vault (snd again) = vault (snd r)).
  { unfold again, cmd_delete_profile, get_profile. rewrite run_cmd, run_stored, run_select. cbn [fst snd map_err].
    rewrite run_cmd, run_stored. unfold delete_profile, stmt. cbn [run exec db_bind remove_profile].
    rewrite H2. cbn. split; [done|]. split; [|done]. apply lookup_delete_eq. }
  destruct Ha as (Ha & H4 & H5). split_and!; [done|done|by rewrite Ha| |].
  all: subst cleared; clearbody again; unfold cmd_set_profile_secret, require_profile, get_profile;
    rewrite run_cmd, run_stored, run_st, run_select; cbn [fst snd]; rewrite H4; cbn; by rewrite ?with_tables_id, ?H5.
Qed.
End Functions.

(** ** One store, edited *)

Definition orders : ProfileCreate := mk_profile_create "orders" Mysql Prod None (mk_db "10.0.0.5" 3306 "app" None) no_tools.
Definition orders_world : World := snd (run (cmd_create_profile orders (Some "hunter2")) empty_world).
Definition to_replica : ProfileUpdate := mk_profile_update None None None None (Some (mk_db "10.0.0.6" 3306 "app" None)) None.
Definition edited : result ConnectionProfile CommandError * World := run (cmd_update_profile 1%N to_replica) orders_world.

Lemma edited_profiles : exists before after, profiles (tables orders_world) !! 1%N = Some before
  /\ edited = (Ok after, snd edited) /\ db_host (db before) <> db_host (db after).
Proof. vm_compute. do 2 eexists. split_and!; [reflexivity|reflexivity|done]. Qed.

Lemma profile_edits_are_recorded_by_address_witness : exists e,
  audit_log (tables (snd edited)) = audit_log (tables orders_world) ++ [e] /\ au_action e = "profile.updated".
Proof.
  destruct edited_profiles as (before & after & Hb & He & Hn).
  destruct (proj2 (profile_edits_are_recorded_by_address 1%N to_replica orders_world before after (snd edited) He Hb)) as (e & Hl & Ha & _).
  - intros (E & _). by apply Hn.
  - by exists e.
Defined.

(** A keychain that refuses what it is asked next. *)
Definition refusing (w : World) : World := with_vault w (mk_vault (keychain (vault w)) (settings (vault w)) [true]).

Lemma a_refused_secret_leaves_nothing_witness :
  is_ok (fst (run (cmd_create_profile orders (Some "hunter2")) (refusing empty_world))) = false
  /\ tables (snd (run (cmd_create_profile orders (Some "hunter2")) (refusing empty_world))) = empty_tables.
Proof.
  destruct (a_refused_secret_leaves_nothing orders (new_server "edge" None) (Some "hunter2") "hunter2" (refusing empty_world) []
    empty_consistent ltac:(done) eq_refl eq_refl) as (H1 & H2 & _).
  exact (conj H1 H2).
Defined.

Lemma nas_created : exists d w1, run (store_create_destination nas) (refusing empty_world) = (Ok d, w1)
  /\ Vault.faults (vault w1) = [true] /\ dst_enabled d = true /\ destinations (tables w1) !! 1%N = Some d.
Proof. vm_compute. do 2 eexists. split_and!; reflexivity. Qed.

Lemma a_refused_key_leaves_the_destination_witness : exists d,
  fst (run (cmd_create_destination nas "key") (refusing empty_world)) = Err (new_error "keychain" "keychain unavailable")
  /\ destinations (tables (snd (run (cmd_create_destination nas "key") (refusing empty_world)))) !! 1%N = Some d /\ dst_enabled d = true.
Proof.
  destruct nas_created as (d & w1 & E & F & D & L). exists d.
  destruct (a_refused_key_leaves_the_destination nas "key" (refusing empty_world) d w1 [] E F eq_refl) as (H1 & H2 & _).
  split; [exact H1|]. rewrite H2. by split.
Defined.

Lemma orders_stored : exists p, profiles (tables (refusing orders_world)) !! 1%N = Some p
  /\ keychain (vault (refusing orders_world)) !! "1#db" = Some "hunter2".
Proof. vm_compute. eexists. by split. Qed.

Lemma a_deleted_profile_can_leave_its_password_witness :
  let r := run (cmd_delete_profile 1%N) (refusing orders_world) in
  fst r = Err (new_error "keychain" "keychain unavailable") /\ profiles (tables (snd r)) !! 1%N = None.
Proof.
  destruct orders_stored as (p & Hp & _).
  destruct (a_deleted_profile_can_leave_its_password 1%N p (refusing orders_world) [] Hp eq_refl) as (H1 & H2 & _).
  exact (conj H1 H2).
Defined.
