(* ===== verification/Shell.v ===== *)
(** * Shell: a schedule as a line of a crontab (apps/desktop commands.rs)

    The line is read twice: by cron, which takes the command after the five fields and
    treats a percent sign in it as the end of a line, and by the shell, which splits
    the command into words.  [sh_read] is the shell as far as the line needs it: a
    character that means something else to the shell is not read at all. *)

From Stdlib Require Import ZArith Lia Ascii String List Bool.
From stdpp Require Import base list strings.
From S2P Require Import Prelude Text Domain Exec Substring Cron Schedule.
Import ListNotations.
Open Scope string_scope.
Open Scope list_scope.
Open Scope Z_scope.

(** ** Quoting *)

Definition quote_safe (c : ascii) : bool := is_alnum c || contains_char c "/._-:".

Definition shell_quote (s : string) : string :=
  if negb (String.eqb s "") && all_chars quote_safe s then s else ("'" ++ replace_char "'" "'\''" s ++ "'")%string.

(** What [cli_tool::status] found. *)
Record CliPaths := mk_cli_paths { cli_bundled : option string; cli_installed : option string }.

Definition cli_program (c : CliPaths) : string :=
  match cli_installed c with
  | Some p => p
  | None => match cli_bundled c with Some p => p | None => "dbsync" end
  end.

Definition crontab_command (program store_path schedule_id log : string) : string :=
  (shell_quote program ++ " --store " ++ shell_quote store_path ++ " schedule run " ++ schedule_id
   ++ " >> " ++ shell_quote log ++ " 2>&1")%string.

Definition crontab_line (uuid_text : Uuid -> string) (cli : CliPaths) (store_path : string) (s : Schedule) : string :=
  (source (cron s) ++ " " ++ crontab_command (cli_program cli) store_path (uuid_text (sch_id s))
     (path_join (a_output_dir (action s)) "dbsync-cron.log"))%string.

(** ** Reading *)

Inductive Token := Word (w : string) | AppendTo | ErrorsToo.
Inductive Mode := Between | InWord (w : string) | InQuote (w : string).

Definition snoc (w : string) (c : ascii) : string := (w ++ String c "")%string.
Definition and_then (t : Token) (o : option (list Token)) : option (list Token) := option_map (cons t) o.

Fixpoint sh_read (m : Mode) (s : string) : option (list Token) :=
  match s with
  | EmptyString => match m with Between => Some [] | InWord w => Some [Word w] | InQuote _ => None end
  | String c r =>
      match m with
      | InQuote w => if Ascii.eqb c "'" then sh_read (InWord w) r else sh_read (InQuote (snoc w c)) r
      | Between =>
          if Ascii.eqb c " " then sh_read Between r
          else if Ascii.eqb c "'" then sh_read (InQuote "") r
          else
            match c, r with
            | "\"%char, String d r' => sh_read (InWord (String d "")) r'
            | ">"%char, String ">" r' => and_then AppendTo (sh_read Between r')
            | "2"%char, String ">" (String "&" (String "1" r')) => and_then ErrorsToo (sh_read Between r')
            | _, _ => if quote_safe c then sh_read (InWord (String c "")) r else None
            end
      | InWord w =>
          if Ascii.eqb c " " then and_then (Word w) (sh_read Between r)
          else if Ascii.eqb c "'" then sh_read (InQuote w) r
          else
            match c, r with
            | "\"%char, String d r' => sh_read (InWord (snoc w d)) r'
            | _, _ => if quote_safe c then sh_read (InWord (snoc w c)) r else None
            end
      end
  end.

(** What cron hands to the shell: up to the first percent sign that no backslash precedes. *)
Fixpoint cron_command (s : string) : string :=
  match s with
  | EmptyString => ""
  | String "\" (String "%" r) => String "%" (cron_command r)
  | String c r => if Ascii.eqb c "%" then "" else String c (cron_command r)
  end.

(** ** Lemmas *)

Lemma snoc_app w c s : ((snoc w c) ++ s = w ++ String c s)%string.
Proof. unfold snoc. induction w as [|d w IH]; [done|]. simpl. by rewrite IH. Qed.

Lemma append_assoc3 (a b c : string) : ((a ++ b) ++ c = a ++ (b ++ c))%string.
Proof. induction a as [|d a IH]; [done|]. simpl. by rewrite IH. Qed.

(** One character of a word that needs no quoting. *)
Lemma read_safe w c r : quote_safe c = true -> sh_read (InWord w) (String c r) = sh_read (InWord (snoc w c)) r.
Proof.
  intros Hc. destruct c as [[] [] [] [] [] [] [] []]; try (by vm_compute in Hc); reflexivity.
Qed.

Lemma read_first c r : quote_safe c = true -> match r with String ">" _ => False | _ => True end ->
  sh_read Between (String c r) = sh_read (InWord (String c "")) r.
Proof.
  intros Hc Hr. destruct c as [[] [] [] [] [] [] [] []]; try (by vm_compute in Hc); try reflexivity.
  destruct r as [|[[] [] [] [] [] [] [] []] r]; try reflexivity. done.
Qed.

Lemma read_safe_word s : forall w rest, all_chars quote_safe s = true ->
  sh_read (InWord w) (s ++ rest) = sh_read (InWord (w ++ s)) rest.
Proof.
  induction s as [|c s IH]; intros w rest Hs; [by rewrite append_nil_r|]. simpl in Hs. apply andb_true_iff in Hs as [Hc Hs].
  change ((String c s ++ rest)%string) with (String c (s ++ rest)). rewrite read_safe by done. rewrite IH by done.
  by rewrite snoc_app.
Qed.

Lemma read_quoted s : forall w rest,
  sh_read (InQuote w) (replace_char "'" "'\''" s ++ String "'" rest) = sh_read (InWord (w ++ s)) rest.
Proof.
  induction s as [|c s IH]; intros w rest; [by rewrite append_nil_r|]. cbn [replace_char].
  destruct (Ascii.eqb_spec c "'") as [->|N].
  - change (("'\''" ++ replace_char "'" "'\''" s)%string ++ String "'" rest)%string
      with (String "'" (String "\" (String "'" (String "'" (replace_char "'" "'\''" s ++ String "'" rest))))).
    change (sh_read (InQuote (snoc w "'")) (replace_char "'" "'\''" s ++ String "'" rest) = sh_read (InWord (w ++ String "'" s)) rest).
    by rewrite IH, snoc_app.
  - cbn [String.append sh_read]. apply Ascii.eqb_neq in N. rewrite N. by rewrite IH, snoc_app.
Qed.

(** What may follow a word on the line. *)
Definition ends_word (rest : string) : Prop := match rest with EmptyString => True | String c _ => c = " "%char end.

Lemma read_word s rest : ends_word rest ->
  sh_read Between (shell_quote s ++ rest) = and_then (Word s) (sh_read Between rest).
Proof.
  intros Hr.
  assert (Hend : sh_read (InWord s) rest = and_then (Word s) (sh_read Between rest)).
  { destruct rest as [|c rest]; [done|]. simpl in Hr. by subst c. }
  rewrite <- Hend. unfold shell_quote. destruct (negb (String.eqb s "") && all_chars quote_safe s) eqn:E.
  - apply andb_true_iff in E as [Hn Hs]. destruct s as [|c s]; [done|]. simpl in Hs. apply andb_true_iff in Hs as [Hc Hs].
    change ((String c s ++ rest)%string) with (String c (s ++ rest)). rewrite read_first; [|done|].
    + by rewrite read_safe_word.
    + destruct s as [|d s]; simpl.
      * destruct rest as [|d rest]; [done|]. simpl in Hr. by subst d.
      * simpl in Hs. apply andb_true_iff in Hs as [Hd _]. destruct d as [[] [] [] [] [] [] [] []]; try done; by vm_compute in Hd.
  - rewrite !append_assoc3. change (("'" ++ (replace_char "'" "'\''" s ++ ("'" ++ rest)))%string)
      with (String "'" (replace_char "'" "'\''" s ++ String "'" rest)).
    change (sh_read Between (String "'" (replace_char "'" "'\''" s ++ String "'" rest)))
      with (sh_read (InQuote "") (replace_char "'" "'\''" s ++ String "'" rest)).
    by rewrite read_quoted.
Qed.

Lemma quote_word s : s <> "" -> all_chars quote_safe s = true -> shell_quote s = s.
Proof. intros Hn Hs. unfold shell_quote. destruct (String.eqb_spec s ""); [done|]. by rewrite Hs. Qed.

Lemma read_plain w rest : w <> "" -> all_chars quote_safe w = true -> ends_word rest ->
  sh_read Between (w ++ rest) = and_then (Word w) (sh_read Between rest).
Proof. intros Hn Hs Hr. rewrite <- (quote_word w Hn Hs) at 1. by apply read_word. Qed.

Lemma cron_command_whole s : contains_char "%" s = false -> cron_command s = s.
Proof.
  induction s as [|c s IH]; [done|]. cbn [contains_char]. intros [Hc Hs]%orb_false_iff.
  assert (E : cron_command (String c s) = String c (cron_command s)).
  { rewrite Ascii.eqb_sym in Hc. destruct s as [|d r].
    - destruct c as [[] [] [] [] [] [] [] []]; done.
    - cbn [contains_char] in Hs. apply orb_false_iff in Hs as [Hd _].
      destruct c as [[] [] [] [] [] [] [] []]; try done; destruct d as [[] [] [] [] [] [] [] []]; done. }
  by rewrite E, IH.
Qed.

(** The end of a line: the run of one schedule, appending to a log. *)
Lemma read_run id log : id <> "" -> all_chars quote_safe id = true ->
  sh_read Between (" schedule run " ++ id ++ " >> " ++ shell_quote log ++ " 2>&1")
  = Some [Word "schedule"; Word "run"; Word id; AppendTo; Word log; ErrorsToo].
Proof.
  intros Hn Hi. set (tail := (" >> " ++ shell_quote log ++ " 2>&1")%string).
  change (sh_read Between (" schedule run " ++ id ++ tail))
    with (sh_read Between ("schedule" ++ String " " ("run" ++ String " " (id ++ tail)))).
  rewrite read_plain by done.
  change (sh_read Between (String " " ("run" ++ String " " (id ++ tail)))) with (sh_read Between ("run" ++ String " " (id ++ tail))).
  rewrite read_plain by done.
  change (sh_read Between (String " " (id ++ tail))) with (sh_read Between (id ++ tail)). rewrite read_plain by done.
  change (sh_read Between tail) with (and_then AppendTo (sh_read Between (shell_quote log ++ " 2>&1"))).
  rewrite read_word by done. done.
Qed.

(** Whatever the paths hold but a percent sign - blanks, quotes, anything the shell
    would otherwise act on - cron hands the shell the whole command of a crontab line,
    and the shell reads that program with exactly those arguments, appending what it
    prints to exactly that file. *)
Theorem crontab_command_reads_back program store_path id log :
  id <> "" -> all_chars quote_safe id = true -> contains_char "%" (crontab_command program store_path id log) = false ->
  sh_read Between (cron_command (crontab_command program store_path id log))
  = Some [Word program; Word "--store"; Word store_path; Word "schedule"; Word "run"; Word id; AppendTo; Word log; ErrorsToo].
Proof.
  intros Hn Hi Hp. rewrite cron_command_whole by done. unfold crontab_command.
  set (rest := (" schedule run " ++ id ++ " >> " ++ shell_quote log ++ " 2>&1")%string). rewrite read_word by done.
  change (sh_read Between (" --store " ++ shell_quote store_path ++ rest))
    with (sh_read Between ("--store" ++ String " " (shell_quote store_path ++ rest))). rewrite read_plain by done.
  change (sh_read Between (String " " (shell_quote store_path ++ rest))) with (sh_read Between (shell_quote store_path ++ rest)).
  rewrite read_word by done. unfold rest. by rewrite read_run.
Qed.

(** A percent sign in a path is not quoted for cron: of a line whose paths hold one,
    cron runs what is before it, which here the shell cannot even read. *)
Theorem a_percent_cuts_the_line :
  let command := crontab_command "/opt/dbsync" "/data/100% mine/store.db" "7" "/tmp/dbsync-cron.log" in
  cron_command command = "/opt/dbsync --store '/data/100" /\ sh_read Between (cron_command command) = None
  /\ is_some (sh_read Between command) = true.
Proof. by vm_compute. Qed.

Lemma crontab_command_reads_back_witness :
  sh_read Between (cron_command (crontab_command "/Applications/DBSync Studio.app/dbsync" "/Users/o'brien/store.db" "0a1b-2c" "$HOME/x; rm -rf"))
  = Some [Word "/Applications/DBSync Studio.app/dbsync"; Word "--store"; Word "/Users/o'brien/store.db"; Word "schedule"; Word "run";
          Word "0a1b-2c"; AppendTo; Word "$HOME/x; rm -rf"; ErrorsToo].
Proof.
  apply (crontab_command_reads_back "/Applications/DBSync Studio.app/dbsync" "/Users/o'brien/store.db" "0a1b-2c" "$HOME/x; rm -rf"); done.
Defined.
