(* ===== verification/Settings.v ===== *)
(** * Settings: preferences, the commands of the backup key and the file it leaves in
      (engine/src/settings.rs, the settings of store.rs, and commands.rs of the
      desktop application)

    Preferences are rows of text beside the backup key's public half.  Reading one
    never stops the application: what cannot be read is its default.  The secret half
    of the key leaves through one command, into a file. *)

From Stdlib Require Import ZArith Lia Ascii String List Bool.
From stdpp Require Import base list gmap strings.
From S2P Require Import Prelude Text Domain Exec Tools Vault Database AuditLog Desktop.
Import ListNotations.
Open Scope string_scope.
Open Scope list_scope.
Open Scope Z_scope.
Open Scope dbsync_scope.

(** ** Preferences *)

Definition SCHEDULER_ENABLED : string := "scheduler_enabled".
Definition CLOSE_TO_TRAY : string := "close_to_tray".
Definition BACKGROUND_NOTICE_SHOWN : string := "background_notice_shown".
Definition TOOL_SOURCE : string := "tool_source".

Record AppSettings := mk_settings {
  set_scheduler_enabled : bool;
  set_close_to_tray : bool;
  set_launch_at_login : bool;
  set_notice_shown : bool;
  set_tool_source : ToolSource }.

Definition default_settings : AppSettings := mk_settings true true false false Local.

Section Stored.
Variable source_from_json : string -> option ToolSource.
Variable source_to_json : ToolSource -> option string.

Definition app_settings : V AppSettings :=
  let^ scheduler := get_setting SCHEDULER_ENABLED in
  let^ tray := get_setting CLOSE_TO_TRAY in
  let^ source := get_setting TOOL_SOURCE in
  let^ notice := get_setting BACKGROUND_NOTICE_SHOWN in
  vret (mk_settings
    (parse_flag scheduler (set_scheduler_enabled default_settings))
    (parse_flag tray (set_close_to_tray default_settings))
    (set_launch_at_login default_settings)
    (parse_flag notice (set_notice_shown default_settings))
    (parse_tool_source source_from_json source)).

(** [Store::tool_source] always answers. *)
Definition store_tool_source (v : Vault) : ToolSource * Vault :=
  match app_settings v with
  | (Ok s, v) => (set_tool_source s, v)
  | (Err _, v) => (Local, v)
  end.

(** The rows [set_app_settings] writes, in its order. *)
Definition write_settings (next : AppSettings) : V unit :=
  let^ _ := set_flag SCHEDULER_ENABLED (set_scheduler_enabled next) in
  let^ _ := set_flag CLOSE_TO_TRAY (set_close_to_tray next) in
  set_setting TOOL_SOURCE (default "" (source_to_json (set_tool_source next))).

(** *** What is read, from the rows *)

Definition read_settings (rows : gmap string string) : AppSettings :=
  mk_settings
    (parse_flag (rows !! SCHEDULER_ENABLED) true) (parse_flag (rows !! CLOSE_TO_TRAY) true) false
    (parse_flag (rows !! BACKGROUND_NOTICE_SHOWN) false)
    (parse_tool_source source_from_json (rows !! TOOL_SOURCE)).

Definition written_settings (next : AppSettings) (rows : gmap string string) : gmap string string :=
  <[TOOL_SOURCE := default "" (source_to_json (set_tool_source next))]>
    (<[CLOSE_TO_TRAY := flag_str (set_close_to_tray next)]>
      (<[SCHEDULER_ENABLED := flag_str (set_scheduler_enabled next)]> rows)).

Lemma app_settings_quiet k rows :
  app_settings (quiet_vault k rows) = (Ok (read_settings rows), quiet_vault k rows).
Proof. done. Qed.

Lemma write_settings_quiet next k rows :
  write_settings next (quiet_vault k rows) = (Ok tt, quiet_vault k (written_settings next rows)).
Proof. done. Qed.

Lemma parse_flag_str b d : parse_flag (Some (flag_str b)) d = b.
Proof. by destruct b. Qed.

Lemma read_written next rows :
  (forall s, exists t, source_to_json s = Some t /\ source_from_json t = Some s) ->
  read_settings (written_settings next rows)
  = mk_settings (set_scheduler_enabled next) (set_close_to_tray next) false
      (set_notice_shown (read_settings rows)) (set_tool_source next).
Proof.
  intros Hj. destruct (Hj (set_tool_source next)) as (t & Ht & Hs).
  unfold read_settings, written_settings. do 8 (rewrite ?lookup_insert_eq; rewrite ?lookup_insert_ne by done).
  rewrite !parse_flag_str, Ht. simpl. by rewrite Hs.
Qed.
End Stored.

(** ** The file a secret goes to *)

(** A file: who may read it, and what it holds. *)
Record SecretFile := mk_file { mode : Z; content : string }.

Abbreviation Files := (gmap string SecretFile).

Definition OWNER_ONLY : Z := 384.                 (* 0o600 *)

Definition open_to_others (m : Z) : bool := negb (Z.land m 63 =? 0).  (* 0o077 *)

(** [OpenOptions::mode] is the mode of a file that is created; [truncate] empties one
    that is there and leaves its mode.  [reachable]: whether the path can be opened,
    and whether the write goes through. *)
Definition write_secret_file (can_open can_write : bool) (path secret : string) (fs : Files)
    : result unit string * Files :=
  if can_open then
    let m := match fs !! path with Some f => mode f | None => OWNER_ONLY end in
    if can_write then (Ok tt, <[path := mk_file m (secret ++ String newline "")]> fs)
    else (Err "could not write", <[path := mk_file m ""]> fs)
  else (Err "could not open", fs).

(** ** The commands *)

Record Bench := mk_bench { b_vault : Vault; b_files : Files; b_log : list (AuditAction * string * string) }.

Section Commands.
Variable uuid_text : Uuid -> string.
Variable scope_id : Uuid.
Variable public_from_identity : string -> result string string.
Variable parse_recipient : string -> result unit string.

Definition key_command {A} (f : V A) (b : Bench) : result A CommandError * Bench :=
  let '(r, v) := f (b_vault b) in
  (map_err r (fun e => new_error "key" (key_error_text e)), mk_bench v (b_files b) (b_log b)).

Definition backup_key_status : Bench -> result KeyStatus CommandError * Bench :=
  key_command (status uuid_text scope_id).

Definition generate_backup_key (generated : string * string) : Bench -> result KeyStatus CommandError * Bench :=
  key_command (ensure_exists uuid_text scope_id generated).

Definition set_backup_key_recipients (keys : list string) (b : Bench) : result KeyStatus CommandError * Bench :=
  let '(r, b) := key_command (set_extra_recipients parse_recipient keys) b in
  match r with Ok _ => backup_key_status b | Err e => (Err e, b) end.

(** [dir] is the directory of the application's data, when the platform names one. *)
Definition export_backup_key_to_file (dir : result string string) (can_open can_write : bool) (b : Bench)
    : result string CommandError * Bench :=
  let '(r, b) := key_command (export uuid_text scope_id public_from_identity) b in
  match r with
  | Err e => (Err e, b)
  | Ok secret =>
      match dir with
      | Err why => (Err (new_error "io" why), b)
      | Ok dir =>
          let path := path_join dir "backup-key.txt" in
          let '(written, fs) := write_secret_file can_open can_write path secret (b_files b) in
          match written with
          | Err why => (Err (new_error "io" why), mk_bench (b_vault b) fs (b_log b))
          | Ok _ =>
              (Ok path, mk_bench (b_vault b) fs
                 (b_log b ++ [(BackupKeyExported, path, "the key now exists outside this application")]))
          end
      end
  end.
End Commands.

(** ** Lemmas *)

Section Exporting.
Variable uuid_text : Uuid -> string.
Variable scope_id : Uuid.
Variable public_from_identity : string -> result string string.

Abbreviation key_at := (account uuid_text scope_id BackupKey).
Abbreviation exported_rows rows := (<[KEY_EXPORTED := "true"]> rows).

Lemma export_quiet k rows secret public :
  k !! key_at = Some secret -> rows !! PUBLIC_KEY = Some public -> public_from_identity secret = Ok public ->
  export uuid_text scope_id public_from_identity (quiet_vault k rows)
  = (Ok secret, quiet_vault k (exported_rows rows)).
Proof.
  intros Hk Hr Hp. unfold export, get_secret, get_setting, set_flag, set_setting, call, of_result, vbind, vret, quiet_vault.
  simpl. rewrite Hk. simpl. rewrite Hp. simpl. rewrite Hr. by rewrite String.eqb_refl.
Qed.

(** A vault that holds its key, and the commands over it. *)
Variables (k rows : gmap string string) (secret public : string) (fs : Files) (log : list (AuditAction * string * string)).
Hypothesis (Hk : k !! key_at = Some secret) (Hr : rows !! PUBLIC_KEY = Some public).
Hypothesis (Hp : public_from_identity secret = Ok public).

Abbreviation bench := (mk_bench (quiet_vault k rows) fs log).

Lemma export_to_file dir can_open can_write :
  export_backup_key_to_file uuid_text scope_id public_from_identity (Ok dir) can_open can_write bench =
  let path := path_join dir "backup-key.txt" in
  let '(written, fs') := write_secret_file can_open can_write path secret fs in
  match written with
  | Ok _ => (Ok path, mk_bench (quiet_vault k (exported_rows rows)) fs'
              (log ++ [(BackupKeyExported, path, "the key now exists outside this application")]))
  | Err why => (Err (new_error "io" why), mk_bench (quiet_vault k (exported_rows rows)) fs' log)
  end.
Proof.
  unfold export_backup_key_to_file, key_command. cbn [b_vault b_files b_log].
  rewrite (export_quiet k rows secret public Hk Hr Hp). cbn [map_err b_vault b_files b_log].
  cbv zeta. by destruct (write_secret_file _ _ _ _ _) as [[]].
Qed.

Lemma exported_is_ready generated :
  exists l, ensure_ready_for_encryption uuid_text scope_id generated (quiet_vault k (exported_rows rows))
            = (Ok (public :: l), quiet_vault k (exported_rows rows)).
Proof.
  assert (Ep : exported_rows rows !! PUBLIC_KEY = Some public) by by rewrite lookup_insert_ne.
  assert (Ef : exported_rows rows !! KEY_EXPORTED = Some "true") by by rewrite lookup_insert_eq.
  unfold ensure_ready_for_encryption, vbind. rewrite ensure_exists_quiet, Ep, Hk. cbn [is_some andb].
  unfold status_of at 1. rewrite Ef. cbn [ks_exported parse_flag]. cbn [String.eqb Ascii.eqb Bool.eqb orb].
  unfold recipients, vbind. rewrite status_quiet. unfold status_of. rewrite Ep. cbn [ks_public]. by eexists.
Qed.
End Exporting.

(** ** Properties *)

(** The exported key is in its file and nowhere else.  The reply and the audit log
    hold the path; the file holds the key; every other file is as it was; the file
    has the mode it had if it was there, so that only a new one is its owner's. *)
Theorem exported_key_is_in_its_file uuid_text scope_id public_from_identity k rows secret public fs log dir :
  k !! account uuid_text scope_id BackupKey = Some secret -> rows !! PUBLIC_KEY = Some public ->
  public_from_identity secret = Ok public ->
  let path := path_join dir "backup-key.txt" in
  exists after,
    export_backup_key_to_file uuid_text scope_id public_from_identity (Ok dir) true true
      (mk_bench (quiet_vault k rows) fs log) = (Ok path, after)
    /\ b_log after = log ++ [(BackupKeyExported, path, "the key now exists outside this application")]
    /\ (exists f, b_files after !! path = Some f /\ content f = (secret ++ String newline "")%string
        /\ (fs !! path = None -> open_to_others (mode f) = false)
        /\ (forall old, fs !! path = Some old -> mode f = mode old))
    /\ (forall other, other <> path -> b_files after !! other = fs !! other).
Proof.
  intros Hk Hr Hp path. eexists. rewrite (export_to_file _ _ _ _ _ _ _ _ _ Hk Hr Hp).
  unfold write_secret_file. cbv zeta. split; [done|]. cbn [b_log b_files]. split; [done|]. split.
  - eexists. rewrite lookup_insert_eq. split; [done|]. cbn [content mode]. split_and!; [done| |].
    + fold path. by intros ->.
    + fold path. by intros old ->.
  - intros other N. by rewrite lookup_insert_ne.
Qed.

(** C38: an export that fails counts as escrow.  When the file cannot be opened the
    command reports an error and no file holds the key; the key is recorded as exported
    all the same, and encrypted backups are let through under it. *)
Theorem a_failed_export_counts_as_escrow uuid_text scope_id public_from_identity k rows secret public fs log dir generated :
  k !! account uuid_text scope_id BackupKey = Some secret -> rows !! PUBLIC_KEY = Some public ->
  public_from_identity secret = Ok public ->
  exists after,
    export_backup_key_to_file uuid_text scope_id public_from_identity (Ok dir) false true
      (mk_bench (quiet_vault k rows) fs log) = (Err (new_error "io" "could not open"), after)
    /\ b_files after = fs /\ b_log after = log
    /\ (exists st, fst (backup_key_status uuid_text scope_id after) = Ok st /\ ks_exported st = true)
    /\ exists l, fst (ensure_ready_for_encryption uuid_text scope_id generated (b_vault after)) = Ok (public :: l).
Proof.
  intros Hk Hr Hp. eexists. rewrite (export_to_file _ _ _ _ _ _ _ _ _ Hk Hr Hp).
  unfold write_secret_file. cbv zeta. split_and!; [done..| |]; cbn [b_vault].
  - unfold backup_key_status, key_command. cbn [b_vault]. rewrite status_quiet. cbn [map_err fst].
    eexists. split; [done|]. unfold status_of. cbn [ks_exported]. by rewrite lookup_insert_eq.
  - destruct (exported_is_ready uuid_text scope_id k rows secret public Hk Hr generated) as [l ->].
    by exists l.
Qed.

(** Reading preferences changes nothing and the source of client programs always
    has an answer: what the rows say when they can be read, and the machine's own
    programs when one of the reads fails or the row holds something else. *)
Theorem preferences_never_stop_a_job source_from_json v :
  let '(s, v') := store_tool_source source_from_json v in
  keychain v' = keychain v /\ settings v' = settings v
  /\ (s = Local \/ exists text, settings v !! TOOL_SOURCE = Some text /\ source_from_json text = Some s)
  /\ (faults v = [] -> s = parse_tool_source source_from_json (settings v !! TOOL_SOURCE)).
Proof.
  destruct v as [k rows fs]. unfold store_tool_source, app_settings, get_setting, call, vbind, vret.
  assert (P : forall s, s = parse_tool_source source_from_json (rows !! TOOL_SOURCE) ->
    s = Local \/ exists text, rows !! TOOL_SOURCE = Some text /\ source_from_json text = Some s).
  { unfold parse_tool_source. intros s ->. destruct (rows !! TOOL_SOURCE) as [text|]; [|by left].
    destruct (source_from_json text) as [s|] eqn:E; simpl; [right; by exists text|by left]. }
  destruct fs as [|[] [|[] [|[] [|[] fs]]]]; cbn; split_and!; try done; auto.
Qed.

(** ** Witnesses *)

Definition held : gmap string string := {[account plain_uuid APP_SCOPE BackupKey := fst key_a]}.
Definition known_key : gmap string string := {[PUBLIC_KEY := snd key_a]}.
Definition old_copy : Files := {["/data/backup-key.txt" := mk_file 420 "an earlier key"]}.

Lemma key_held : held !! account plain_uuid APP_SCOPE BackupKey = Some (fst key_a).
Proof. by vm_compute. Qed.

Lemma key_known : known_key !! PUBLIC_KEY = Some (snd key_a).
Proof. by vm_compute. Qed.

Lemma exported_key_is_in_its_file_witness :
  exists after f,
    export_backup_key_to_file plain_uuid APP_SCOPE plain_public (Ok "/data") true true
      (mk_bench (quiet_vault held known_key) old_copy []) = (Ok "/data/backup-key.txt", after)
    /\ b_files after !! "/data/backup-key.txt" = Some f /\ open_to_others (mode f) = true.
Proof.
  destruct (exported_key_is_in_its_file plain_uuid APP_SCOPE plain_public held known_key _ _ old_copy [] "/data"
    key_held key_known eq_refl) as (after & E & _ & (f & Hf & _ & _ & Hm) & _).
  exists after, f. split_and!; [exact E|exact Hf|]. rewrite (Hm (mk_file 420 "an earlier key") eq_refl). reflexivity.
Defined.

Lemma a_failed_export_counts_as_escrow_witness :
  exists after l,
    export_backup_key_to_file plain_uuid APP_SCOPE plain_public (Ok "/full") false true
      (mk_bench (quiet_vault held known_key) ∅ []) = (Err (new_error "io" "could not open"), after)
    /\ b_files after = ∅
    /\ fst (ensure_ready_for_encryption plain_uuid APP_SCOPE key_b (b_vault after)) = Ok (snd key_a :: l).
Proof.
  destruct (a_failed_export_counts_as_escrow plain_uuid APP_SCOPE plain_public held known_key _ _ ∅ [] "/full" key_b
    key_held key_known eq_refl) as (after & E & Hf & _ & _ & l & Hl).
  by exists after, l.
Defined.
