(* ===== verification/Resident.v ===== *)
(** * Resident: the application that stays when its window is closed
      (lib.rs, tray.rs and the settings of commands.rs in the desktop application)

    What keeps schedules running is the process, not the window.  The window can be
    closed to the tray, the loop of the scheduler started and stopped, and the process
    ends when the user quits.  The toolkit is what calls these handlers: it destroys a
    window whose close is not prevented, asks to exit when the last window is gone or
    [exit] was called, and ends the process unless that is prevented. *)

From Stdlib Require Import ZArith Lia Ascii String List Bool.
From stdpp Require Import base list gmap strings relations.
From S2P Require Import Prelude Text Domain Tools Vault Database Desktop Settings.
Import ListNotations.
Open Scope string_scope.
Open Scope list_scope.
Open Scope Z_scope.
Open Scope dbsync_scope.

(** ** State *)

Inductive Window := Shown | Hidden | Destroyed.

(** [slot]: the token in [scheduler_loop]; [loops]: the loops whose token was not
    cancelled; [minted_tokens]: how many tokens there were.  [tray_copy] and
    [notice_copy] are the two settings mirrored for the window; [recording]: a task
    that will record the notice. *)
Record AppState := mk_app_state {
  window : Window;
  route : option string;
  quitting : bool;
  exited : bool;
  tray_copy : bool;
  notice_copy : bool;
  notices : nat;
  recording : nat;
  slot : option nat;
  loops : gset nat;
  minted_tokens : nat;
  vault_of : Vault;
  login_item : bool }.

Definition with_window (w : Window) (a : AppState) : AppState :=
  mk_app_state w (route a) (quitting a) (exited a) (tray_copy a) (notice_copy a) (notices a) (recording a) (slot a) (loops a)
    (minted_tokens a) (vault_of a) (login_item a).
Definition with_route (r : string) (a : AppState) : AppState :=
  mk_app_state (window a) (Some r) (quitting a) (exited a) (tray_copy a) (notice_copy a) (notices a) (recording a) (slot a)
    (loops a) (minted_tokens a) (vault_of a) (login_item a).
Definition with_loop (s : option nat) (l : gset nat) (n : nat) (a : AppState) : AppState :=
  mk_app_state (window a) (route a) (quitting a) (exited a) (tray_copy a) (notice_copy a) (notices a) (recording a) s l n
    (vault_of a) (login_item a).
Definition with_quitting (a : AppState) : AppState :=
  mk_app_state (window a) (route a) true (exited a) (tray_copy a) (notice_copy a) (notices a) (recording a) (slot a) (loops a)
    (minted_tokens a) (vault_of a) (login_item a).
(** A process that ends takes its loops with it. *)
Definition with_exit (a : AppState) : AppState :=
  mk_app_state Destroyed (route a) (quitting a) true (tray_copy a) (notice_copy a) (notices a) (recording a) None ∅
    (minted_tokens a) (vault_of a) (login_item a).
Definition with_notice (a : AppState) : AppState :=
  mk_app_state (window a) (route a) (quitting a) (exited a) (tray_copy a) true (S (notices a)) (S (recording a)) (slot a)
    (loops a) (minted_tokens a) (vault_of a) (login_item a).
Definition with_saved (v : Vault) (a : AppState) : AppState :=
  mk_app_state (window a) (route a) (quitting a) (exited a) (tray_copy a) (notice_copy a) (notices a) (recording a) (slot a)
    (loops a) (minted_tokens a) v (login_item a).
Definition with_recorded (v : Vault) (a : AppState) : AppState :=
  mk_app_state (window a) (route a) (quitting a) (exited a) (tray_copy a) (notice_copy a) (notices a) (pred (recording a))
    (slot a) (loops a) (minted_tokens a) v (login_item a).
Definition with_tray_copy (b : bool) (a : AppState) : AppState :=
  mk_app_state (window a) (route a) (quitting a) (exited a) b (notice_copy a) (notices a) (recording a) (slot a) (loops a)
    (minted_tokens a) (vault_of a) (login_item a).
Definition with_login (b : bool) (a : AppState) : AppState :=
  mk_app_state (window a) (route a) (quitting a) (exited a) (tray_copy a) (notice_copy a) (notices a) (recording a) (slot a)
    (loops a) (minted_tokens a) (vault_of a) b.

(** ** The scheduler's loop *)

Definition cancelled (t : option nat) (l : gset nat) : gset nat :=
  match t with Some t => l ∖ {[t]} | None => l end.

Definition start_scheduler (a : AppState) : AppState :=
  let token := minted_tokens a in
  with_loop (Some token) ({[token]} ∪ cancelled (slot a) (loops a)) (S token) a.

Definition stop_scheduler (a : AppState) : AppState :=
  with_loop None (cancelled (slot a) (loops a)) (minted_tokens a) a.

Definition scheduler_running (a : AppState) : bool := is_some (slot a).

(** ** Start-up and the window *)

(** What [setup] makes of the stored settings. *)
Definition app_startup (stored : AppSettings) (v : Vault) (login : bool) : AppState :=
  let a := mk_app_state Shown None false false (set_close_to_tray stored) (set_notice_shown stored) 0 0 None ∅ 0 v login in
  if set_scheduler_enabled stored then start_scheduler a else a.

Definition announce_background_mode (a : AppState) : AppState := if notice_copy a then a else with_notice a.

(** The task [announce_background_mode] leaves behind. *)
Definition record_notice (a : AppState) : AppState :=
  with_recorded (snd (set_flag BACKGROUND_NOTICE_SHOWN true (vault_of a))) a.

(** [RunEvent::ExitRequested]: prevented unless the user picked Quit. *)
Definition exit_requested (a : AppState) : AppState := if quitting a then with_exit a else a.

(** [WindowEvent::CloseRequested], and what the toolkit does when it is not prevented. *)
Definition close_requested (a : AppState) : AppState :=
  if quitting a || negb (tray_copy a) then exit_requested (with_window Destroyed a)
  else announce_background_mode (with_window Hidden a).

Definition request_quit (a : AppState) : AppState := exit_requested (stop_scheduler (with_quitting a)).

(** [get_webview_window("main")] finds a window that was not destroyed. *)
Definition focus_main_window (a : AppState) : AppState :=
  match window a with Destroyed => a | _ => with_window Shown a end.

(** [navigate] emits an event; the window that is there goes to the page. *)
Definition navigate (page : string) (a : AppState) : AppState :=
  match window a with Destroyed => a | _ => with_route page a end.

Definition tray_menu (item : string) (a : AppState) : AppState :=
  if String.eqb item "open" then focus_main_window a
  else if String.eqb item "schedules" then navigate "/schedules" (focus_main_window a)
  else if String.eqb item "jobs" then navigate "/jobs" (focus_main_window a)
  else if String.eqb item "quit" then request_quit a
  else a.

(** ** The commands over settings *)

(** What the operating system does with the login item. *)
Class Autolaunch := {
  set_autolaunch : bool -> bool -> result unit string * bool;
  autolaunch_enabled : bool -> result bool string }.

Section Commands.
Context `{Autolaunch}.
Variable source_from_json : string -> option ToolSource.
Variable source_to_json : ToolSource -> option string.

Definition of_setting_error (e : KeyError) : CommandError := new_error "storage" (key_error_text e).

Definition get_app_settings (a : AppState) : result AppSettings CommandError * AppState :=
  match app_settings source_from_json (vault_of a) with
  | (Err e, v) => (Err (of_setting_error e), with_saved v a)
  | (Ok s, v) =>
      let login := match autolaunch_enabled (login_item a) with Ok b => b | Err _ => false end in
      (Ok (mk_settings (set_scheduler_enabled s) (set_close_to_tray s) login (set_notice_shown s) (set_tool_source s)),
       with_saved v a)
  end.

Definition apply_scheduler (enabled : bool) (a : AppState) : AppState :=
  if enabled then if scheduler_running a then a else start_scheduler a else stop_scheduler a.

Definition set_app_settings (next : AppSettings) (a : AppState) : result AppSettings CommandError * AppState :=
  match write_settings source_to_json next (vault_of a) with
  | (Err e, v) => (Err (of_setting_error e), with_saved v a)
  | (Ok _, v) =>
      let a := apply_scheduler (set_scheduler_enabled next) (with_tray_copy (set_close_to_tray next) (with_saved v a)) in
      let '(r, login) := set_autolaunch (set_launch_at_login next) (login_item a) in
      let a := with_login login a in
      match r with
      | Err why => (Err (new_error "autostart" ("could not change the launch-at-login setting: " ++ why)), a)
      | Ok _ => get_app_settings a
      end
  end.

(** ** What can happen to a running application *)

Inductive app_step : AppState -> AppState -> Prop :=
| step_close a : exited a = false -> window a <> Destroyed -> app_step a (close_requested a)
| step_tray a item : exited a = false -> app_step a (tray_menu item a)
| step_click a : exited a = false -> app_step a (focus_main_window a)
| step_settings a next : exited a = false -> app_step a (snd (set_app_settings next a))
| step_read a : exited a = false -> app_step a (snd (get_app_settings a))
| step_record a : exited a = false -> recording a <> O -> app_step a (record_notice a).

Inductive app_reachable (stored : AppSettings) (v : Vault) (login : bool) : AppState -> Prop :=
| app_started : app_reachable stored v login (app_startup stored v login)
| app_next a b : app_reachable stored v login a -> app_step a b -> app_reachable stored v login b.
End Commands.

(** ** Lemmas *)

Section Laws.
Context `{Autolaunch}.
Variable source_from_json : string -> option ToolSource.
Variable source_to_json : ToolSource -> option string.

Abbreviation step := (app_step source_from_json source_to_json).
Abbreviation saves := (set_app_settings source_from_json source_to_json).

(** At most the loop of the current token lives, the notice was shown at most once, and
    the process is gone exactly if the user quit. *)
Record app_inv (told : bool) (a : AppState) : Prop := {
  inv_loops : loops a = match slot a with Some t => {[t]} | None => ∅ end;
  inv_told : (if told then notices a = O else (notices a <= 1)%nat);
  inv_notice : (notice_copy a = false -> notices a = O);
  inv_copy : (told = true -> notice_copy a = true);
  inv_exited : exited a = quitting a }.

Lemma start_inv told a : app_inv told a -> app_inv told (start_scheduler a).
Proof.
  intros [Hl H2 H3 H4 H5]. split; try done. cbn. rewrite Hl. destruct (slot a) as [t|]; simpl; set_solver.
Qed.

Lemma stop_inv told a : app_inv told a -> app_inv told (stop_scheduler a).
Proof.
  intros [Hl H2 H3 H4 H5]. split; try done. cbn. rewrite Hl. destruct (slot a) as [t|]; simpl; set_solver.
Qed.

(** What touches neither the loop nor the notice. *)
Lemma same_inv told a b : app_inv told a -> loops b = loops a -> slot b = slot a -> notices b = notices a ->
  notice_copy b = notice_copy a -> exited b = exited a -> quitting b = quitting a -> app_inv told b.
Proof. intros [H1 H2 H3 H4 H5] E1 E2 E3 E4 E5 E6. split; rewrite ?E1, ?E2, ?E3, ?E4, ?E5, ?E6; done. Qed.

Lemma exit_inv told a : app_inv told a -> app_inv told (exit_requested a).
Proof. unfold exit_requested. intros [H1 H2 H3 H4 H5]. destruct (quitting a) eqn:E; by split; cbn; rewrite ?E. Qed.

Lemma announce_inv told a : app_inv told a -> app_inv told (announce_background_mode a).
Proof.
  unfold announce_background_mode. intros [H1 H2 H3 H4 H5]. destruct (notice_copy a) eqn:E; [by split; rewrite ?E; auto|].
  destruct told; [by specialize (H4 eq_refl)|]. split; try done. cbn. rewrite (H3 eq_refl). lia.
Qed.

Lemma focus_inv told a : app_inv told a -> app_inv told (focus_main_window a).
Proof. intros Ha. unfold focus_main_window. destruct (window a); [by eapply same_inv..|done]. Qed.

Lemma navigate_inv told p a : app_inv told a -> app_inv told (navigate p a).
Proof. intros Ha. unfold navigate. destruct (window a); [by eapply same_inv..|done]. Qed.

Lemma quit_inv told a : app_inv told a -> app_inv told (request_quit a).
Proof.
  intros Ha. unfold request_quit, exit_requested. cbn. apply (stop_inv told) in Ha as [H1 H2 H3 H4 H5].
  by split.
Qed.

Lemma get_settings_inv told a : app_inv told a -> app_inv told (snd (get_app_settings source_from_json a)).
Proof.
  intros Ha. unfold get_app_settings. destruct (app_settings _ _) as [[s|e] v]; by eapply same_inv.
Qed.

Lemma apply_inv told b a : app_inv told a -> app_inv told (apply_scheduler b a).
Proof.
  unfold apply_scheduler. intros Ha. destruct b; [destruct (scheduler_running a); [done|by apply start_inv]|by apply stop_inv].
Qed.

Lemma set_settings_inv told next a : app_inv told a -> app_inv told (snd (saves next a)).
Proof.
  intros Ha. unfold set_app_settings. destruct (write_settings _ _ _) as [[u|e] v]; [|by eapply same_inv].
  assert (Hb : app_inv told (with_tray_copy (set_close_to_tray next) (with_saved v a))) by by eapply same_inv.
  apply (apply_inv told (set_scheduler_enabled next)) in Hb.
  destruct (set_autolaunch _ _) as [[u'|why] login]; [apply get_settings_inv|]; by eapply same_inv.
Qed.

Lemma tray_inv told item a : app_inv told a -> app_inv told (tray_menu item a).
Proof.
  intros Ha. unfold tray_menu.
  repeat case_match; auto using focus_inv, navigate_inv, quit_inv.
Qed.

Lemma step_inv told a b : app_inv told a -> step a b -> app_inv told b.
Proof.
  intros Ha. destruct 1; auto using tray_inv, focus_inv, get_settings_inv, set_settings_inv.
  - unfold close_requested. case_match; [apply exit_inv|apply announce_inv]; by eapply same_inv.
  - by eapply same_inv.
Qed.

Lemma reachable_inv stored v login a :
  app_reachable source_from_json source_to_json stored v login a -> app_inv (set_notice_shown stored) a.
Proof.
  induction 1 as [|a b _ IH Hs]; [|by eapply step_inv].
  assert (app_inv (set_notice_shown stored)
    (mk_app_state Shown None false false (set_close_to_tray stored) (set_notice_shown stored) 0 0 None ∅ 0 v login)).
  { split; try done; cbn; destruct (set_notice_shown stored); auto with lia. }
  unfold app_startup. destruct (set_scheduler_enabled stored); [by apply start_inv|done].
Qed.

(** A window that is gone stays gone. *)
Lemma gone_step a b : window a = Destroyed -> step a b -> window b = Destroyed.
Proof.
  intros Ha Hs. destruct Hs as [a' _ N|a' item _|a' _|a' next _|a' _|a' _ _]; cbn.
  - done.
  - unfold tray_menu, navigate, focus_main_window, request_quit, exit_requested.
    repeat first [case_match; simplify_eq/=; try congruence | by rewrite ?Ha].
  - unfold focus_main_window. by rewrite Ha.
  - unfold set_app_settings, get_app_settings, apply_scheduler.
    repeat first [case_match; simplify_eq/=; try done].
  - unfold get_app_settings. by case_match; case_match.
  - done.
Qed.

Lemma gone_steps a b : window a = Destroyed -> rtc step a b -> window b = Destroyed.
Proof. intros Ha Hs. induction Hs; [done|]. eauto using gone_step. Qed.

Lemma reachable_steps stored v login a b :
  app_reachable source_from_json source_to_json stored v login a -> rtc step a b ->
  app_reachable source_from_json source_to_json stored v login b.
Proof. intros Ha Hs. induction Hs; [done|]. eauto using app_next. Qed.

(** What closing does before Quit was picked. *)
Lemma closed a : exited a = false -> quitting a = false ->
  window (close_requested a) = (if tray_copy a then Hidden else Destroyed)
  /\ exited (close_requested a) = false /\ loops (close_requested a) = loops a.
Proof.
  intros Hx Hq. unfold close_requested, exit_requested, announce_background_mode. rewrite Hq. cbn [orb].
  destruct (tray_copy a); cbn; [by case_match|by rewrite Hq].
Qed.
End Laws.

(** ** Properties *)

(** C22: closing the window never ends the application, not even with closing to the
    tray turned off, where the preference's comment (settings.rs:26-28) and the
    documents say that it quits.  The window is hidden with the preference on and
    destroyed with it off; either way the process and its scheduler's loop go on, and
    whatever happens from there it ends exactly when Quit is picked.  A destroyed
    window does not come back.  Meanwhile at most one loop of the scheduler runs, and
    one does exactly when the window is told so; the notice that closing does not quit
    is shown once at most, and never to someone who was told before. *)
Theorem closing_never_quits `{Autolaunch} source_from_json source_to_json stored v login a b :
  app_reachable source_from_json source_to_json stored v login a -> exited a = false -> window a <> Destroyed ->
  rtc (app_step source_from_json source_to_json) (close_requested a) b ->
  window (close_requested a) = (if tray_copy a then Hidden else Destroyed)
  /\ exited (close_requested a) = false /\ loops (close_requested a) = loops a
  /\ exited b = quitting b
  /\ (tray_copy a = false -> window b = Destroyed)
  /\ (size (loops b) <= 1)%nat /\ (scheduler_running b = true <-> exists t, t ∈ loops b)
  /\ (notices b <= if set_notice_shown stored then 0 else 1)%nat.
Proof.
  intros Hr Hx Hw Hs.
  assert (Hb : app_reachable source_from_json source_to_json stored v login b).
  { eapply reachable_steps; [|exact Hs]. eapply app_next; [exact Hr|by apply step_close]. }
  apply reachable_inv in Hb as [Hl Ht Hn Hc He]. apply reachable_inv in Hr as [_ _ _ _ Hq]. rewrite Hx in Hq.
  destruct (closed a Hx (eq_sym Hq)) as (E1 & E2 & E3). split_and!; [done..| | | |].
  - intros Hoff. eapply gone_steps; [|exact Hs]. by rewrite E1, Hoff.
  - rewrite Hl. destruct (slot b) as [t|]; [rewrite size_singleton|rewrite size_empty]; lia.
  - unfold scheduler_running. rewrite Hl. destruct (slot b) as [t|]; simpl; split; try done; set_solver.
  - destruct (set_notice_shown stored); lia.
Qed.

(** Settings are saved and applied, and only then the login item.  Over a store that
    answers, the rows, the loop and the mirrored copy are as asked whether or not the
    system then takes the login item: a refusal is an error with everything else done,
    and otherwise what was asked is what is read back. *)
Theorem settings_are_applied_before_the_login_item `{Autolaunch} source_from_json source_to_json next a k rows :
  (forall s, exists t, source_to_json s = Some t /\ source_from_json t = Some s) ->
  vault_of a = quiet_vault k rows ->
  let '(taken, login) := set_autolaunch (set_launch_at_login next) (login_item a) in
  let '(reply, b) := set_app_settings source_from_json source_to_json next a in
  reply = match taken with
          | Ok _ => Ok (mk_settings (set_scheduler_enabled next) (set_close_to_tray next)
                         (match autolaunch_enabled login with Ok on => on | Err _ => false end)
                         (set_notice_shown (read_settings source_from_json rows)) (set_tool_source next))
          | Err why => Err (new_error "autostart" ("could not change the launch-at-login setting: " ++ why))
          end
  /\ scheduler_running b = set_scheduler_enabled next /\ tray_copy b = set_close_to_tray next
  /\ (scheduler_running a = true -> set_scheduler_enabled next = true -> loops b = loops a)
  /\ forall login', scheduler_running (app_startup (read_settings source_from_json (settings (vault_of b))) (vault_of b) login')
       = set_scheduler_enabled next.
Proof.
  intros Hj Hv. destruct (set_autolaunch _ _) as [taken login] eqn:Ea. unfold set_app_settings, get_app_settings.
  rewrite Hv, write_settings_quiet. cbv zeta.
  set (a1 := apply_scheduler _ _).
  assert (Hlogin : login_item a1 = login_item a) by (unfold a1, apply_scheduler; by repeat case_match).
  assert (Hv1 : vault_of a1 = quiet_vault k (written_settings source_to_json next rows))
    by (unfold a1, apply_scheduler; by repeat case_match).
  assert (Hr : scheduler_running a1 = set_scheduler_enabled next).
  { unfold a1, apply_scheduler. destruct (set_scheduler_enabled next); [|done]. by case_match. }
  assert (Ht : tray_copy a1 = set_close_to_tray next) by (unfold a1, apply_scheduler; by repeat case_match).
  assert (Hk : scheduler_running a = true -> set_scheduler_enabled next = true -> loops a1 = loops a).
  { intros Ha He. unfold a1, apply_scheduler. rewrite He.
    unfold scheduler_running in *. cbn [slot with_tray_copy with_saved]. by rewrite Ha. }
  assert (Hs : forall u login', scheduler_running
    (app_startup (read_settings source_from_json (written_settings source_to_json next rows)) u login')
    = set_scheduler_enabled next).
  { intros u login'. rewrite read_written by done. unfold app_startup. cbn [set_scheduler_enabled].
    by destruct (set_scheduler_enabled next). }
  rewrite Hlogin, Ea. destruct taken as [u|why]; cbn [vault_of with_login login_item].
  - rewrite Hv1, app_settings_quiet, read_written by done. by split_and!.
  - rewrite Hv1. by split_and!.
Qed.

(** ** Witnesses *)

#[local] Instance obedient : Autolaunch := {|
  set_autolaunch on _ := (Ok tt, on);
  autolaunch_enabled on := Ok on |}.

(** A text for every source: a tag, then the parts, the first with a mark before each
    character. *)
Fixpoint pair_text (c d : string) : string :=
  match c with "" => String "0" d | String x c => String "1" (String x (pair_text c d)) end.

Fixpoint read_pair (s : string) : option (string * string) :=
  match s with
  | String "0" d => Some ("", d)
  | String "1" (String x r) => option_map (fun p => (String x (fst p), snd p)) (read_pair r)
  | _ => None
  end.

Definition source_text (s : ToolSource) : option string :=
  Some (match s with
        | Local => "l"
        | DockerRun image => String "r" image
        | DockerExec container None => String "e" container
        | DockerExec container (Some dir) => String "d" (pair_text container dir)
        end).

Definition read_source (s : string) : option ToolSource :=
  match s with
  | "l" => Some Local
  | String "r" image => Some (DockerRun image)
  | String "e" container => Some (DockerExec container None)
  | String "d" p => option_map (fun p => DockerExec (fst p) (Some (snd p))) (read_pair p)
  | _ => None
  end.

Lemma read_pair_of_text c d : read_pair (pair_text c d) = Some (c, d).
Proof. induction c as [|x c IH]; [done|]. simpl. by rewrite IH. Qed.

Lemma source_round_trip s : exists t, source_text s = Some t /\ read_source t = Some s.
Proof.
  eexists. split; [reflexivity|]. destruct s as [|c [d|]|i]; simpl; [done| |done|done]. by rewrite read_pair_of_text.
Qed.

Definition fresh : AppState := app_startup default_settings (quiet_vault ∅ ∅) false.
Definition to_the_dock : AppSettings := mk_settings true false true false Local.
Definition windowless : AppState := close_requested (snd (set_app_settings read_source source_text to_the_dock fresh)).

Lemma to_the_dock_reachable :
  app_reachable read_source source_text default_settings (quiet_vault ∅ ∅) false
    (snd (set_app_settings read_source source_text to_the_dock fresh)).
Proof. eapply app_next; [apply app_started|by apply step_settings]. Qed.

Definition preferences_changed : AppState := snd (set_app_settings read_source source_text to_the_dock fresh).

Lemma closing_never_quits_witness :
  exited windowless = false /\ scheduler_running windowless = true
  /\ window (tray_menu "schedules" (tray_menu "open" windowless)) = Destroyed
  /\ exited (tray_menu "schedules" (tray_menu "open" windowless)) = false.
Proof.
  destruct (closing_never_quits read_source source_text default_settings (quiet_vault ∅ ∅) false preferences_changed
    (tray_menu "schedules" (tray_menu "open" windowless))) as (_ & E & _ & X & W & _).
  - exact to_the_dock_reachable.
  - reflexivity.
  - discriminate.
  - eapply rtc_l; [|eapply rtc_l; [|apply rtc_refl]]; by apply step_tray.
  - split; [exact E|]. split; [reflexivity|]. split; [exact (W eq_refl)|]. rewrite X. reflexivity.
Defined.

Lemma settings_are_applied_before_the_login_item_witness :
  exists b, set_app_settings read_source source_text to_the_dock fresh = (Ok to_the_dock, b)
    /\ scheduler_running b = true /\ tray_copy b = false.
Proof.
  pose proof (settings_are_applied_before_the_login_item read_source source_text to_the_dock fresh ∅ ∅
    source_round_trip eq_refl) as E.
  simpl set_autolaunch in E. cbv iota beta in E.
  destruct (set_app_settings read_source source_text to_the_dock fresh) as [reply b].
  destruct E as (-> & R & T & _). exists b. split; [reflexivity|]. split; [exact R|exact T].
Defined.
