(* ===== verification/Install.v ===== *)
(** * Install: making the bundled command line reachable (cli_tool.rs of the desktop
      application)

    The application ships the command-line tool beside itself and links it where a
    shell looks.  The files are directories, files and links by path; the operating
    system decides which directories can be made and which links. *)

From Stdlib Require Import ZArith Lia Ascii String List Bool.
From stdpp Require Import base list gmap strings.
From S2P Require Import Prelude Text Exec Disk.
Import ListNotations.
Open Scope string_scope.
Open Scope list_scope.

(** ** The machine *)

Inductive Node := Folder (writable : bool) | Regular | Link (target : string).

Abbreviation Nodes := (gmap string Node).

(** [current_exe], the variables PATH (split) and HOME, and what the system grants. *)
Class Workstation := {
  current_exe : option string;
  path_dirs : option (list string);
  home_dir : option string;
  windows : bool;
  can_create : string -> bool;
  can_unlink : string -> bool;
  can_link : string -> bool;
  path_debug : string -> string }.

(** Links are followed as far as Linux follows them. *)
Definition MAX_LINKS : nat := 40.

Fixpoint follow (fuel : nat) (fs : Nodes) (p : string) : option (string * Node) :=
  match fs !! p with
  | Some (Link t) => match fuel with O => None | S fuel => follow fuel fs t end
  | Some n => Some (p, n)
  | None => None
  end.

Definition is_file (fs : Nodes) (p : string) : bool :=
  match follow MAX_LINKS fs p with Some (_, Regular) => true | _ => false end.
Definition is_folder (fs : Nodes) (p : string) : bool :=
  match follow MAX_LINKS fs p with Some (_, Folder _) => true | _ => false end.
Definition is_writable (fs : Nodes) (p : string) : bool :=
  match follow MAX_LINKS fs p with Some (_, Folder w) => w | _ => false end.

(** [canonicalize(p).unwrap_or(p)]. *)
Definition canon (fs : Nodes) (p : string) : string :=
  match follow MAX_LINKS fs p with Some (q, _) => q | None => p end.

Section Tool.
Context `{Workstation}.

Definition EXE : string := if windows then "dbsync.exe" else "dbsync".

(** ** Where it is *)

Definition bundled_cli (fs : Nodes) : option string :=
  match current_exe with
  | None => None
  | Some exe =>
      let sibling := path_join (parent exe) EXE in
      if is_file fs sibling then Some sibling
      else
        let target_dir := parent (parent exe) in
        List.find (is_file fs) (map (fun profile => path_join (path_join target_dir profile) EXE) ["release"; "debug"])
  end.

Definition cli_on_path (fs : Nodes) : option string :=
  match path_dirs with
  | None => None
  | Some dirs => List.find (is_file fs) (map (fun dir => path_join dir EXE) dirs)
  end.

Definition SHARED_DIRS : list string := ["/usr/local/bin"; "/opt/homebrew/bin"].

Definition candidate_dirs (fs : Nodes) : list string :=
  (match home_dir with Some home => [path_join (path_join home ".local") "bin"] | None => [] end)
  ++ (if windows then [] else List.filter (fun dir => is_folder fs dir && is_writable fs dir) SHARED_DIRS).

Definition on_path (dir : string) : bool :=
  match path_dirs with Some dirs => existsb (String.eqb dir) dirs | None => false end.

Record CliStatus := mk_cli_status {
  bundled_path : option string;
  installed_path : option string;
  linked_to_bundle : bool;
  install_targets : list string }.

Definition cli_status (fs : Nodes) : CliStatus :=
  let bundled := bundled_cli fs in
  let installed := cli_on_path fs in
  mk_cli_status bundled installed
    (match bundled, installed with
     | Some b, Some i => String.eqb (canon fs b) (canon fs i)
     | _, _ => false
     end)
    (candidate_dirs fs).

(** ** Linking it *)

Inductive CliError := NotBundled | LinkFailed.

Record CliInstall := mk_install {
  in_path : string;
  in_on_path : bool;
  manual_command : option string }.

Definition manual_fallback (source : string) : CliInstall :=
  mk_install source false (Some ("sudo ln -sf " ++ path_debug source ++ " /usr/local/bin/dbsync")%string).

Definition exists_already (link source : string) : string :=
  ("# " ++ link ++ " already exists and is not a link; replace it by hand if you meant to"
   ++ String newline "" ++ "ln -sf " ++ path_debug source ++ " " ++ path_debug link)%string.

(** [create_dir_all] leaves a directory that is there. *)
Definition create_dir (fs : Nodes) (dir : string) : option Nodes :=
  if is_folder fs dir then Some fs
  else match fs !! dir with
       | Some _ => None
       | None => if can_create dir then Some (<[dir := Folder true]> fs) else None
       end.

Definition make_link (fs : Nodes) (dir link source : string) : result CliInstall CliError * Nodes :=
  if can_link link then (Ok (mk_install link (on_path dir) None), <[link := Link source]> fs)
  else (Err LinkFailed, fs).

Definition link_into (fs : Nodes) (dir source : string) : result CliInstall CliError * Nodes :=
  match create_dir fs dir with
  | None => (Ok (manual_fallback source), fs)
  | Some fs =>
      if negb (is_writable fs dir) then (Ok (manual_fallback source), fs)
      else
        let link := path_join dir EXE in
        match fs !! link with
        | Some (Link _) =>
            if can_unlink link then make_link (base.delete link fs) dir link source else (Err LinkFailed, fs)
        | Some _ => (Ok (mk_install link (on_path dir) (Some (exists_already link source))), fs)
        | None => make_link fs dir link source
        end
  end.

Definition install (fs : Nodes) : result CliInstall CliError * Nodes :=
  match bundled_cli fs with
  | None => (Err NotBundled, fs)
  | Some source =>
      if windows then
        (Ok (mk_install source false (Some ("setx PATH " ++ String "034" "" ++ "%PATH%;" ++ parent source ++ String "034" "")%string)), fs)
      else
        match candidate_dirs fs with
        | [] => (Ok (manual_fallback source), fs)
        | dir :: _ => link_into fs dir source
        end
  end.
End Tool.

(** ** Lemmas *)

Section Laws.
Context `{Workstation}.

Lemma create_dir_keeps fs dir fs' p n : create_dir fs dir = Some fs' -> fs !! p = Some n -> fs' !! p = Some n.
Proof.
  unfold create_dir. case_match; [by intros [= <-]|]. destruct (fs !! dir) eqn:E; [done|].
  case_match; [|done]. intros [= <-] Hp. rewrite lookup_insert_ne; [done|]. intros ->. congruence.
Qed.

Lemma make_link_keeps fs dir link source p n :
  p <> link -> fs !! p = Some n -> snd (make_link fs dir link source) !! p = Some n.
Proof. intros Hl Hp. unfold make_link. case_match; simpl; [by rewrite lookup_insert_ne|done]. Qed.

Lemma link_into_keeps fs dir source p n :
  (forall t, n <> Link t) -> fs !! p = Some n -> snd (link_into fs dir source) !! p = Some n.
Proof.
  intros Hn Hp. unfold link_into. destruct (create_dir fs dir) as [fs'|] eqn:E; [|done].
  apply (create_dir_keeps _ _ _ _ _ E) in Hp. case_match; [done|].
  destruct (fs' !! path_join dir EXE) as [[w| |t]|] eqn:El; try done.
  - case_match; [|done]. assert (p <> path_join dir EXE) by (intros ->; naive_solver).
    apply make_link_keeps; [done|]. by rewrite lookup_delete_ne.
  - apply make_link_keeps; [|done]. intros ->. congruence.
Qed.

Lemma follow_insert fuel fs link source p q n :
  follow fuel fs p = Some (q, n) -> fs !! link = None -> follow fuel (<[link := Link source]> fs) p = Some (q, n).
Proof.
  intros Hf Hl. revert p Hf. induction fuel as [|fuel IH]; intros p; simpl;
    destruct (decide (p = link)) as [->|N]; try (by rewrite Hl); rewrite lookup_insert_ne by done;
    by destruct (fs !! p) as [[]|]; auto.
Qed.
End Laws.

(** ** Properties *)

(** Linking the tool replaces links and nothing else.  Every file and directory that
    was there is there afterwards, whatever the installation replied, and the only
    paths that change are the first directory offered and the link in it. *)
Theorem install_replaces_only_links `{Workstation} fs :
  (forall p n, (forall t, n <> Link t) -> fs !! p = Some n -> snd (install fs) !! p = Some n)
  /\ (forall p, snd (install fs) !! p <> fs !! p ->
        exists dir, head (candidate_dirs fs) = Some dir /\ (p = dir \/ p = path_join dir EXE)).
Proof.
  unfold install. destruct (bundled_cli fs) as [source|]; [|done]. destruct windows; [done|].
  destruct (candidate_dirs fs) as [|dir dirs]; [done|]. split; [intros; by apply link_into_keeps|].
  intros p Hp. exists dir. split; [done|].
  destruct (decide (p = dir)) as [|N1]; [by left|]. destruct (decide (p = path_join dir EXE)) as [|N2]; [by right|].
  destruct Hp. unfold link_into, make_link. destruct (create_dir fs dir) as [fs'|] eqn:E; [|done].
  assert (Hp : fs' !! p = fs !! p).
  { unfold create_dir in E. repeat case_match; simplify_eq; [done|]. by rewrite lookup_insert_ne. }
  repeat case_match; simpl; rewrite ?lookup_insert_ne, ?lookup_delete_ne by done; done.
Qed.

(** A link that is reported made is the bundle's.  Where nothing was, in a directory
    that is there, the reply is the link's path with no command left to run, whether a
    shell looks there, and, if it is the first one a shell finds, the application then
    says that what is on the path is what it ships. *)
Theorem an_installed_link_is_the_bundle `{Workstation} fs dir dirs source :
  windows = false -> bundled_cli fs = Some source -> fs !! source = Some Regular ->
  candidate_dirs fs = dir :: dirs -> is_folder fs dir = true -> is_writable fs dir = true ->
  fs !! path_join dir EXE = None -> can_link (path_join dir EXE) = true ->
  let '(reply, after) := install fs in
  reply = Ok (mk_install (path_join dir EXE) (on_path dir) None)
  /\ after !! path_join dir EXE = Some (Link source)
  /\ (bundled_cli after = Some source -> cli_on_path after = Some (path_join dir EXE) ->
      linked_to_bundle (cli_status after) = true).
Proof.
  intros Hw Hb Hs Hc Hd Hwr Hl Hk. unfold install. rewrite Hb, Hw, Hc. unfold link_into, create_dir.
  rewrite Hd, Hwr. cbn [negb]. rewrite Hl. unfold make_link. rewrite Hk. split; [done|].
  assert (N : path_join dir EXE <> source) by (intros E; rewrite E in Hl; congruence).
  split; [by rewrite lookup_insert_eq|]. intros Hb' Hp'. unfold cli_status. rewrite Hb', Hp'.
  cbn [linked_to_bundle]. unfold canon, MAX_LINKS. cbn [follow].
  rewrite lookup_insert_ne by done. rewrite Hs, lookup_insert_eq. cbn [follow].
  rewrite lookup_insert_ne by done. rewrite Hs. apply String.eqb_refl.
Qed.

(** Only the first directory is tried.  When the user's own cannot be made the reply
    is a command to run with administrator rights, whatever other directory of the
    list could be written to. *)
Theorem only_the_first_directory_is_tried `{Workstation} fs dir dirs source :
  windows = false -> bundled_cli fs = Some source -> candidate_dirs fs = dir :: dirs ->
  is_folder fs dir = false -> can_create dir = false ->
  install fs = (Ok (manual_fallback source), fs).
Proof.
  intros Hw Hb Hc Hd Hk. unfold install. rewrite Hb, Hw, Hc. unfold link_into, create_dir. rewrite Hd, Hk.
  by destruct (fs !! dir).
Qed.

(** A link beside the program is linked to itself.  When the tool next to the
    executable is a link in the directory offered first, installing takes it for the
    bundled tool, removes it and links the path to itself: the tool is gone. *)
Theorem a_link_beside_the_program_is_lost `{Workstation} fs dir dirs target :
  windows = false -> bundled_cli fs = Some (path_join dir EXE) -> candidate_dirs fs = dir :: dirs ->
  is_folder fs dir = true -> is_writable fs dir = true -> fs !! path_join dir EXE = Some (Link target) ->
  can_unlink (path_join dir EXE) = true -> can_link (path_join dir EXE) = true ->
  let '(reply, after) := install fs in
  reply = Ok (mk_install (path_join dir EXE) (on_path dir) None) /\ is_file after (path_join dir EXE) = false.
Proof.
  intros Hw Hb Hc Hd Hwr Hl Hu Hk. unfold install. rewrite Hb, Hw, Hc. unfold link_into, create_dir.
  rewrite Hd, Hwr. cbn [negb]. rewrite Hl, Hu. unfold make_link. rewrite Hk. split; [done|].
  unfold is_file. generalize MAX_LINKS. induction n as [|n IH]; simpl; by rewrite lookup_insert_eq.
Qed.

(** ** Witnesses *)

(** A Linux desktop: [exe] is the running program. *)
Definition desk (exe : string) (makes : string -> bool) : Workstation := {|
  current_exe := Some exe;
  path_dirs := Some ["/home/ana/.local/bin"; "/usr/bin"];
  home_dir := Some "/home/ana";
  windows := false;
  can_create := makes;
  can_unlink _ := true;
  can_link _ := true;
  path_debug p := p |}.

Definition unpacked : Nodes := list_to_map
  [("/opt/studio/dbsync", Regular); ("/home/ana/.local/bin", Folder true); ("/usr/local/bin", Folder true)].
Definition no_home : Nodes := list_to_map [("/opt/studio/dbsync", Regular); ("/usr/local/bin", Folder true)].
Definition beside : Nodes := list_to_map
  [("/home/ana/.local/bin", Folder true); ("/home/ana/.local/bin/dbsync", Link "/home/ana/src/dbsync");
   ("/home/ana/src/dbsync", Regular)].

Definition ana : Workstation := desk "/opt/studio/studio" (fun _ => true).
Definition locked : Workstation := desk "/opt/studio/studio" (fun _ => false).
Definition local : Workstation := desk "/home/ana/.local/bin/studio" (fun _ => true).

Lemma unpacked_facts :
  bundled_cli (H := ana) unpacked = Some "/opt/studio/dbsync" /\ unpacked !! "/opt/studio/dbsync" = Some Regular
  /\ candidate_dirs (H := ana) unpacked = ["/home/ana/.local/bin"; "/usr/local/bin"]
  /\ is_folder unpacked "/home/ana/.local/bin" = true /\ is_writable unpacked "/home/ana/.local/bin" = true
  /\ unpacked !! path_join "/home/ana/.local/bin" (EXE (H := ana)) = None.
Proof. by vm_compute. Qed.

Lemma unpacked_after :
  bundled_cli (H := ana) (snd (install (H := ana) unpacked)) = Some "/opt/studio/dbsync"
  /\ cli_on_path (H := ana) (snd (install (H := ana) unpacked)) = Some (path_join "/home/ana/.local/bin" (EXE (H := ana))).
Proof. by vm_compute. Qed.

Lemma no_home_facts :
  bundled_cli (H := locked) no_home = Some "/opt/studio/dbsync"
  /\ candidate_dirs (H := locked) no_home = ["/home/ana/.local/bin"; "/usr/local/bin"]
  /\ is_folder no_home "/home/ana/.local/bin" = false.
Proof. by vm_compute. Qed.

Lemma beside_facts :
  bundled_cli (H := local) beside = Some (path_join "/home/ana/.local/bin" (EXE (H := local)))
  /\ candidate_dirs (H := local) beside = ["/home/ana/.local/bin"]
  /\ is_folder beside "/home/ana/.local/bin" = true /\ is_writable beside "/home/ana/.local/bin" = true
  /\ beside !! path_join "/home/ana/.local/bin" (EXE (H := local)) = Some (Link "/home/ana/src/dbsync")
  /\ is_file beside (path_join "/home/ana/.local/bin" (EXE (H := local))) = true.
Proof. by vm_compute. Qed.

Lemma install_replaces_only_links_witness :
  snd (install (H := local) beside) !! "/home/ana/src/dbsync" = Some Regular.
Proof.
  apply (proj1 (install_replaces_only_links (H := local) beside)); [discriminate|vm_compute; reflexivity].
Defined.

Lemma an_installed_link_is_the_bundle_witness :
  let '(reply, after) := install (H := ana) unpacked in
  reply = Ok (mk_install (path_join "/home/ana/.local/bin" (EXE (H := ana))) (on_path (H := ana) "/home/ana/.local/bin") None)
  /\ linked_to_bundle (cli_status (H := ana) after) = true.
Proof.
  destruct unpacked_facts as (F1 & F2 & F3 & F4 & F5 & F6).
  pose proof (an_installed_link_is_the_bundle (H := ana) unpacked _ _ _ eq_refl F1 F2 F3 F4 F5 F6 eq_refl) as E.
  destruct unpacked_after as [A1 A2]. destruct (install (H := ana) unpacked) as [reply after].
  destruct E as (R & _ & L). exact (conj R (L A1 A2)).
Defined.

Lemma only_the_first_directory_is_tried_witness :
  install (H := locked) no_home
  = (Ok (manual_fallback (H := locked) "/opt/studio/dbsync"), no_home).
Proof.
  destruct no_home_facts as (F1 & F2 & F3).
  exact (only_the_first_directory_is_tried (H := locked) no_home _ _ _ eq_refl F1 F2 F3 eq_refl).
Defined.

Lemma a_link_beside_the_program_is_lost_witness :
  is_file beside (path_join "/home/ana/.local/bin" (EXE (H := local))) = true
  /\ is_file (snd (install (H := local) beside)) (path_join "/home/ana/.local/bin" (EXE (H := local))) = false.
Proof.
  destruct beside_facts as (F1 & F2 & F3 & F4 & F5 & F6).
  pose proof (a_link_beside_the_program_is_lost (H := local) beside _ _ _ eq_refl F1 F2 F3 F4 F5 eq_refl eq_refl) as E.
  split; [exact F6|]. destruct (install (H := local) beside) as [reply after]. exact (proj2 E).
Defined.
