(* ===== verification/Panel.v ===== *)
(** * Panel: the commands of the window over pipelines, schedules and previews
      (commands.rs of the desktop application)

    The commands over pipelines and schedules call the store and note what changed;
    authority to run unattended appears in the log when it is given and when an edit
    takes it away.  The previews show the statements of the saved masking plan, which a
    run completes first, and when a cron expression would fire. *)

From Stdlib Require Import ZArith Lia Ascii String List Bool.
From stdpp Require Import base list gmap strings.
From S2P Require Import Prelude Text Time Domain Sql Backup Mask Plan Step Pipeline Cron CronScan Schedule.
From S2P Require Import Vault Database AuditLog Desktop.
Import ListNotations.
Open Scope string_scope.
Open Scope list_scope.
Open Scope Z_scope.
Open Scope dbsync_scope.

(** ** State *)

Definition Entry : Type := AuditAction * string * string.

(** The two tables, the audit log in the order written, and the schedules running.
    [pn_inserts] is how the next inserts into the audit log end: written, as those
    after the list are, or refused with an error.  [pn_errors] is what the process's
    own log then says: the action, its subject and the error. *)
Record Panel := mk_panel {
  pn_pipelines : Pipeline.Table;
  pn_schedules : Schedules;
  pn_log : list Entry;
  pn_running : list Uuid;
  pn_inserts : list (option string);
  pn_errors : list (AuditAction * string * string) }.

Definition with_pipelines (t : Pipeline.Table) (w : Panel) : Panel :=
  mk_panel t (pn_schedules w) (pn_log w) (pn_running w) (pn_inserts w) (pn_errors w).
Definition with_schedules (t : Schedules) (w : Panel) : Panel :=
  mk_panel (pn_pipelines w) t (pn_log w) (pn_running w) (pn_inserts w) (pn_errors w).
Definition with_running (l : list Uuid) (w : Panel) : Panel :=
  mk_panel (pn_pipelines w) (pn_schedules w) (pn_log w) l (pn_inserts w) (pn_errors w).

(** [Store::audit]: an insert that fails is told to the process's log, and to nobody
    else. *)
Definition audited (e : Entry) (w : Panel) : Panel :=
  let '(action, subject, _) := e in
  match pn_inserts w with
  | Some error :: rest =>
      mk_panel (pn_pipelines w) (pn_schedules w) (pn_log w) (pn_running w) rest (pn_errors w ++ [(action, subject, error)])
  | inserts =>
      mk_panel (pn_pipelines w) (pn_schedules w) (pn_log w ++ [e]) (pn_running w) (tail inserts) (pn_errors w)
  end.

#[local] Arguments audited : simpl never.

Definition Act (A : Type) : Type := Panel -> result A CommandError * Panel.

(** ** Errors *)

Definition pipeline_store_kind (e : Pipeline.StoreError) : string :=
  match e with
  | Pipeline.DuplicateName _ => "duplicate_name"
  | PipelineNotFound _ => "not_found"
  | InvalidPipeline _ => "invalid"
  end.

Definition schedule_store_kind (e : ScheduleStoreError) : string :=
  match e with
  | ScheduleNotFound _ | SchedulePipelineNotFound _ => "not_found"
  | InvalidSchedule _ => "invalid"
  end.

(** A schedule refused before the store is asked: the kind names the field. *)
Definition schedule_error_kind (e : ScheduleError) : string :=
  match e with
  | DestructiveTarget _ => "destructive_schedule"
  | PipelineNotArmed _ _ => "pipeline_not_armed"
  | BadWebhook _ _ => "bad_webhook"
  | NameRequired | RestoreMismatch | PlanRequired | DrillTakesNoPlan | DrillNeedsProfile | DrillTakesNoTarget
  | PipelineRequired | PipelineTakesNothingElse | ScheduleEngineMismatch _ _ => "invalid"
  end.

Section Commands.
Variable uuid_text : Uuid -> string.
Variable str_debug : string -> string.
Variable parse_url : string -> result (string * bool) string.
Variable pipeline_store_text : Pipeline.StoreError -> string.
Variable schedule_store_text : ScheduleStoreError -> string.

Definition of_pipeline_error (e : Pipeline.StoreError) : CommandError :=
  new_error (pipeline_store_kind e) (pipeline_store_text e).
Definition of_schedule_store_error (e : ScheduleStoreError) : CommandError :=
  new_error (schedule_store_kind e) (schedule_store_text e).
Definition of_schedule_error (e : ScheduleError) : CommandError :=
  new_error (schedule_error_kind e) (schedule_error_text str_debug e).

(** ** Pipelines *)

Definition named_targets (signature : string) : string := replace_char newline ", " signature.

Definition describe_pipeline (p : Pipeline) : string :=
  let shape := join " → " (map (fun s => kind_as_str (step_kind s)) (p_steps p)) in
  match destructive_signature p with
  | Some targets => shape ++ "; replaces " ++ named_targets targets
  | None => shape
  end%string.

Definition cmd_create_pipeline (id : Uuid) (now : Z) (input : PipelineCreate) : Act Pipeline := fun w =>
  match create_pipeline (pn_pipelines w) id now input with
  | Err e => (Err (of_pipeline_error e), w)
  | Ok (p, rows) => (Ok p, audited (PipelineCreated, p_name p, describe_pipeline p) (with_pipelines rows w))
  end.

(** An edit that takes the authority away. *)
Definition disarmed (before : option Pipeline) (after : Pipeline) : bool :=
  match before with Some b => is_some (unattended_ack b) | None => false end && negb (is_some (unattended_ack after)).

Definition cmd_update_pipeline (id : Uuid) (patch : PipelineUpdate) (now : Z) : Act Pipeline := fun w =>
  let before := pn_pipelines w !! id in
  match update_pipeline (pn_pipelines w) id patch now with
  | Err e => (Err (of_pipeline_error e), w)
  | Ok (after, rows) =>
      let detail := if disarmed before after
                    then (describe_pipeline after ++ "; no longer authorised to run unattended")%string
                    else describe_pipeline after in
      (Ok after, audited (PipelineUpdated, p_name after, detail) (with_pipelines rows w))
  end.

Definition may_drop (targets : string) : string := ("may now drop " ++ named_targets targets ++ " unattended")%string.

Definition cmd_arm_pipeline (id : Uuid) (typed : option string) (now : Z) : Act Pipeline := fun w =>
  match arm_pipeline (pn_pipelines w) id typed now with
  | Err e => (Err (of_pipeline_error e), w)
  | Ok (p, rows) =>
      let detail := match unattended_ack p with
                    | Some targets => may_drop targets
                    | None => "unattended authorisation withdrawn"
                    end in
      (Ok p, audited (PipelineArmed, p_name p, detail) (with_pipelines rows w))
  end.

Definition cmd_delete_pipeline (id : Uuid) : Act bool := fun w =>
  let found := pn_pipelines w !! id in
  let '(deleted, rows) := delete_pipeline (pn_pipelines w) id in
  let w := with_pipelines rows w in
  (Ok deleted,
   match deleted, found with
   | true, Some p => audited (PipelineDeleted, p_name p, describe_pipeline p) w
   | _, _ => w
   end).

(** ** Schedules *)

Record ScheduleView := mk_schedule_view {
  sv_schedule : Schedule;
  sv_description : string;
  sv_next_run_at : Time.exec (option Z);
  sv_running : bool }.

Section Times.
Context `{Cal : Calendar}.
Variables local utc : TimeZone.

Definition schedule_view (w : Panel) (s : Schedule) (now : Z) : ScheduleView :=
  mk_schedule_view s (describe (cron s)) (next_run_at local utc s now) (existsb (N.eqb (sch_id s)) (pn_running w)).

Definition cmd_create_schedule (id : Uuid) (now : Z) (input : ScheduleCreate) : Act ScheduleView := fun w =>
  match create_schedule_validate str_debug parse_url input with
  | Err e => (Err (of_schedule_error e), w)
  | Ok _ =>
      match create_schedule str_debug parse_url (pn_pipelines w) (pn_schedules w) id now input with
      | Err e => (Err (of_schedule_store_error e), w)
      | Ok (s, rows) => (Ok (schedule_view w s now), with_schedules rows w)
      end
  end.

Definition cmd_update_schedule (id : Uuid) (patch : ScheduleUpdate) (now : Z) : Act ScheduleView := fun w =>
  match update_schedule str_debug parse_url (pn_schedules w) id patch now with
  | Err e => (Err (of_schedule_store_error e), w)
  | Ok (s, rows) => (Ok (schedule_view w s now), with_schedules rows w)
  end.

Definition cmd_get_schedule (id : Uuid) (now : Z) : Act (option ScheduleView) := fun w =>
  (Ok (option_map (fun s => schedule_view w s now) (pn_schedules w !! id)), w).

(** [answer]: the rows of [ORDER BY name]. *)
Definition cmd_list_schedules (answer : list Schedule) (now : Z) : Act (list ScheduleView) := fun w =>
  (Ok (map (fun s => schedule_view w s now) answer), w).

Definition delete_schedule (rows : Schedules) (id : Uuid) : bool * Schedules :=
  (is_some (rows !! id), base.delete id rows).

(** The entry is written before the row is deleted. *)
Definition cmd_delete_schedule (id : Uuid) : Act bool := fun w =>
  let name := match pn_schedules w !! id with Some s => sch_name s | None => uuid_text id end in
  let w := audited (ScheduleDeleted, name, "an unattended job stops running") w in
  let '(deleted, rows) := delete_schedule (pn_schedules w) id in
  (Ok deleted, with_schedules rows w).

(** [run_now] answers with a job unless one is running. *)
Definition cmd_run_schedule_now (id job : Uuid) : Act Uuid := fun w =>
  match pn_schedules w !! id with
  | None => (Err (of_schedule_store_error (ScheduleNotFound id)), w)
  | Some _ =>
      if existsb (N.eqb id) (pn_running w)
      then (Err (new_error "already_running" "that schedule is already running"), w)
      else (Ok job, with_running (id :: pn_running w) w)
  end.

(** ** When an expression fires *)

Record CronPreview := mk_cron_preview { cp_description : string; cp_next_runs : list Z }.

(** The loop of [preview_cron]: up to [n] times, each after the one before. *)
Fixpoint next_runs (n : nat) (e : CronExpression) (tz : ScheduleTimezone) (cursor : Z) : Time.exec (list Z) :=
  match n with
  | O => Val []
  | S n =>
      match next_after local utc e tz cursor with
      | Panic => Panic
      | Val None => Val []
      | Val (Some t) => match next_runs n e tz t with Panic => Panic | Val l => Val (t :: l) end
      end
  end.

Definition preview_cron (cron_error_text : CronError -> string) (expression : string) (tz : ScheduleTimezone) (now : Z)
    : result (Time.exec CronPreview) CommandError :=
  match cron_from_str expression with
  | Err e => Err (new_error "invalid_cron" (cron_error_text e))
  | Ok e =>
      Ok (match next_runs 5 e tz now with
          | Panic => Panic
          | Val l => Val (mk_cron_preview (describe e) l)
          end)
  end.
End Times.

(** ** What a masking run would send *)

Record MaskingPreview := mk_masking_preview {
  pv_updates : list string;
  pv_checks : list string;
  pv_inert : list InertRule }.

Definition placeholder : string := "<salt bound at run time>".

(** [find_plan] and [require_profile] are the store's. *)
Definition masking_preview (find_plan : Uuid -> option SyncPlan) (require_profile : Uuid -> result ConnectionProfile CommandError)
    (id : Uuid) : result MaskingPreview CommandError :=
  let? plan := ok_or (find_plan id) (new_error "not_found" "no such sync plan") in
  let? profile := require_profile (sp_profile_id plan) in
  let active := active_masking plan in
  let with_data := plan_tables_with_data plan in
  let inert := map (fun r => mk_inert r (inert_reason r))
                 (List.filter (fun r => negb (mem (rule_table r) with_data)) (sp_masking plan)) in
  let invalid e := new_error "invalid" (mask_error_text e) in
  let? updates := map_err (update_statements (profile_engine profile) active placeholder) invalid in
  let? checks := map_err (check_statements (profile_engine profile) active) invalid in
  Ok (mk_masking_preview (map (fun u => sql (ts_statement u)) updates) (map (fun c => sql (tc_statement c)) checks)
        inert).
End Commands.

(** ** Commands one after the other *)

Inductive PipelineCommand :=
| CreateP (id : Uuid) (now : Z) (input : PipelineCreate)
| UpdateP (id : Uuid) (patch : PipelineUpdate) (now : Z)
| ArmP (id : Uuid) (typed : option string) (now : Z)
| DeleteP (id : Uuid).

Section Laws.
Variable pipeline_store_text : Pipeline.StoreError -> string.

Definition pipeline_command (c : PipelineCommand) (w : Panel) : Panel :=
  match c with
  | CreateP id now input => snd (cmd_create_pipeline pipeline_store_text id now input w)
  | UpdateP id patch now => snd (cmd_update_pipeline pipeline_store_text id patch now w)
  | ArmP id typed now => snd (cmd_arm_pipeline pipeline_store_text id typed now w)
  | DeleteP id => snd (cmd_delete_pipeline id w)
  end.

Definition pipeline_session (l : list PipelineCommand) (w : Panel) : Panel := fold_left (fun w c => pipeline_command c w) l w.

(** ** Lemmas *)

(** The entry of an authority was written, or its insert failed, which the process's
    log tells. *)
Definition authority_told (w : Panel) (t : string) : Prop :=
  (exists name, In (PipelineArmed, name, may_drop t) (pn_log w))
  \/ exists name error, In (PipelineArmed, name, error) (pn_errors w).

(** Each authority in the table was told. *)
Definition authorities_told (w : Panel) : Prop :=
  forall id p t, pn_pipelines w !! id = Some p -> unattended_ack p = Some t -> authority_told w t.

Lemma audited_pipelines e w : pn_pipelines (audited e w) = pn_pipelines w.
Proof. destruct e as [[a n] d]. unfold audited. by repeat case_match. Qed.

Lemma audited_schedules e w : pn_schedules (audited e w) = pn_schedules w.
Proof. destruct e as [[a n] d]. unfold audited. by repeat case_match. Qed.

(** What an insert adds. *)
Lemma audited_tells a n d w :
  (pn_log (audited (a, n, d) w) = pn_log w ++ [(a, n, d)] /\ pn_errors (audited (a, n, d) w) = pn_errors w
     /\ hd None (pn_inserts w) = None)
  \/ exists error, pn_log (audited (a, n, d) w) = pn_log w /\ pn_errors (audited (a, n, d) w) = pn_errors w ++ [(a, n, error)]
     /\ hd None (pn_inserts w) = Some error.
Proof. unfold audited. destruct (pn_inserts w) as [|[error|] rest]; [by left|right; by exists error|by left]. Qed.

Lemma told_keeps e w t : authority_told w t -> authority_told (audited e w) t.
Proof.
  destruct e as [[a n] d]. unfold authority_told.
  destruct (audited_tells a n d w) as [(-> & -> & _)|(error & -> & -> & _)]; intros [[name Hn]|(name & why & Hn)];
    [left; exists name|right; exists name, why|left; exists name|right; exists name, why]; rewrite ?in_app_iff; auto.
Qed.

Lemma armed_told name t w : authority_told (audited (PipelineArmed, name, may_drop t) w) t.
Proof.
  unfold authority_told. destruct (audited_tells PipelineArmed name (may_drop t) w) as [(-> & _)|(error & _ & -> & _)];
    [left; exists name|right; exists name, error]; rewrite in_app_iff; right; by left.
Qed.

Lemma audited_keeps e w : authorities_told w -> authorities_told (audited e w).
Proof. intros Hw id p t Hp Ht. rewrite audited_pipelines in Hp. eapply told_keeps, Hw; eassumption. Qed.

(** A row is written whose authority was there, or is none. *)
Lemma written_keeps w id p rows :
  rows = <[id := p]> (pn_pipelines w) ->
  (forall t, unattended_ack p = Some t -> authority_told w t) ->
  authorities_told w -> authorities_told (with_pipelines rows w).
Proof.
  intros -> Ha Hw id' q t Hq Ht. unfold authority_told. cbn [pn_log pn_errors pn_pipelines with_pipelines] in *.
  apply lookup_insert_Some in Hq as [[<- <-]|[_ Hq]]; [by apply Ha|by eapply Hw].
Qed.

Lemma create_pipeline_Ok rows id now input p rows' :
  create_pipeline rows id now input = Ok (p, rows') -> rows' = <[id := p]> rows /\ unattended_ack p = None.
Proof. unfold create_pipeline. intros H. by inv_ok. Qed.

Lemma update_pipeline_Ok rows id patch now p rows' :
  update_pipeline rows id patch now = Ok (p, rows') ->
  exists old row, rows !! id = Some old /\ rows' = <[id := row]> rows /\ unattended_ack row = unattended_ack p
    /\ unattended_ack p = (if is_some (pup_steps patch) then None else unattended_ack old).
Proof.
  unfold update_pipeline, require_pipeline. intros H. inv_ok.
  match goal with E : rows !! id = Some ?o |- _ => exists o end.
  unfold write_row, patched in *. simplify_option_eq. inv_ok. eexists. by split_and!.
Qed.

Lemma arm_pipeline_Ok rows id typed now p rows' :
  arm_pipeline rows id typed now = Ok (p, rows') ->
  exists row, rows' = <[id := row]> rows /\ unattended_ack row = unattended_ack p.
Proof.
  unfold arm_pipeline, require_pipeline, write_ack. intros H. inv_ok. simplify_option_eq. eexists. by split.
Qed.

Lemma command_keeps c w : authorities_told w -> authorities_told (pipeline_command c w).
Proof.
  intros Hw. destruct c as [id now input|id patch now|id typed now|id]; cbn [pipeline_command].
  - unfold cmd_create_pipeline. destruct (create_pipeline _ _ _ _) as [[p rows]|e] eqn:E; [|done].
    apply create_pipeline_Ok in E as [-> Ha]. apply audited_keeps. eapply written_keeps; [done| |done]. by rewrite Ha.
  - unfold cmd_update_pipeline. destruct (update_pipeline _ _ _ _) as [[p rows]|e] eqn:E; [|done].
    apply update_pipeline_Ok in E as (old & row & Ho & -> & Hr & Hp). apply audited_keeps.
    eapply written_keeps; [done| |done]. rewrite Hr, Hp. case_match; [done|]. intros t Ht. by eapply Hw.
  - unfold cmd_arm_pipeline. destruct (arm_pipeline _ _ _ _) as [[p rows]|e] eqn:E; [|done].
    apply arm_pipeline_Ok in E as (row & -> & Hr). cbn [snd].
    intros id' q t Hq Ht. rewrite audited_pipelines in Hq. cbn [pn_pipelines with_pipelines] in Hq.
    apply lookup_insert_Some in Hq as [[<- <-]|[_ Hq]].
    + rewrite <- Hr, Ht. apply armed_told.
    + apply told_keeps. by eapply Hw.
  - unfold cmd_delete_pipeline, delete_pipeline.
    assert (Hd : authorities_told (with_pipelines (base.delete id (pn_pipelines w)) w)).
    { intros id' q t Hq Ht. cbn in Hq. apply lookup_delete_Some in Hq as [_ Hq]. by eapply Hw. }
    cbn [snd]. destruct (pn_pipelines w !! id); [by apply audited_keeps|done].
Qed.

Lemma session_keeps l w : authorities_told w -> authorities_told (pipeline_session l w).
Proof. revert w. induction l as [|c l IH]; intros w Hw; simpl; [done|]. by apply IH, command_keeps. Qed.

(** While inserts succeed, nothing is told to the process's log. *)
Definition inserts_succeed (w : Panel) : Prop := Forall (fun o => o = None) (pn_inserts w).

Lemma audited_quiet e w : inserts_succeed w -> inserts_succeed (audited e w) /\ pn_errors (audited e w) = pn_errors w.
Proof.
  destruct e as [[a n] d]. unfold inserts_succeed, audited. destruct (pn_inserts w) as [|[error|] rest]; [done| |].
  - by intros H%Forall_inv.
  - intros H%Forall_inv_tail. by split.
Qed.

Lemma command_quiet c w : inserts_succeed w ->
  inserts_succeed (pipeline_command c w) /\ pn_errors (pipeline_command c w) = pn_errors w.
Proof.
  intros Hw. destruct c as [id now input|id patch now|id typed now|id]; cbn [pipeline_command];
    unfold cmd_create_pipeline, cmd_update_pipeline, cmd_arm_pipeline, cmd_delete_pipeline, delete_pipeline;
    repeat case_match; simplify_eq/=; try (by split); match goal with |- context [audited ?e ?w'] => by apply (audited_quiet e w') end.
Qed.

Lemma session_quiet l w : inserts_succeed w -> pn_errors (pipeline_session l w) = pn_errors w.
Proof.
  revert w. induction l as [|c l IH]; intros w Hw; simpl; [done|].
  destruct (command_quiet c w Hw) as [Hc <-]. by apply IH.
Qed.

(** What a command answers and writes does not depend on the audit log. *)
Lemma command_blind c v w : pn_pipelines v = pn_pipelines w ->
  pn_pipelines (pipeline_command c v) = pn_pipelines (pipeline_command c w).
Proof.
  intros E. destruct c as [id now input|id patch now|id typed now|id]; cbn [pipeline_command];
    unfold cmd_create_pipeline, cmd_update_pipeline, cmd_arm_pipeline, cmd_delete_pipeline, delete_pipeline; rewrite E;
    repeat case_match; simplify_eq/=; rewrite ?audited_pipelines; done.
Qed.

Lemma session_blind l v w : pn_pipelines v = pn_pipelines w ->
  pn_pipelines (pipeline_session l v) = pn_pipelines (pipeline_session l w).
Proof. revert v w. induction l as [|c l IH]; intros v w E; simpl; [done|]. by apply IH, command_blind. Qed.

(** A validation before the store never speaks of authority. *)
Lemma validation_names_no_authority str_debug parse_url c name targets :
  create_schedule_validate str_debug parse_url c <> Err (PipelineNotArmed name targets).
Proof.
  unfold create_schedule_validate, validate_parts, validate_restore, validate_webhook, guard.
  repeat (case_match; simpl; try done); destruct (parse_url _) as [[scheme host]|e]; simpl; repeat case_match; done.
Qed.
End Laws.

(** The text of a statement does not depend on the salt, nor on what is bound. *)
Lemma set_expr_salt d q t b1 b2 next s1 s2 :
  fst (fst (set_expr d q t b1 next s1)) = fst (fst (set_expr d q t b2 next s2))
  /\ snd (set_expr d q t b1 next s1) = snd (set_expr d q t b2 next s2).
Proof. unfold set_expr. destruct (take_placeholder d next) as [p n]. by destruct t. Qed.

(** Two results with the same errors, and values alike. *)
Definition alike {A E} (R : A -> A -> Prop) (x y : result A E) : Prop :=
  match x, y with Ok a, Ok b => R a b | Err a, Err b => a = b | _, _ => False end.

Lemma alike_refl {A E} (R : A -> A -> Prop) (x : result A E) : (forall a, R a a) -> alike R x x.
Proof. destruct x; simpl; auto. Qed.

Lemma alike_rbind {A B E} (P : A -> A -> Prop) (R : B -> B -> Prop) (x y : result A E) f g :
  alike P x y -> (forall a b, P a b -> alike R (f a) (g b)) -> alike R (rbind x f) (rbind y g).
Proof. destruct x, y; simpl; try done; auto. Qed.

Lemma alike_map_err {A E F} (R : A -> A -> Prop) (x y : result A E) (f : E -> F) :
  alike R x y -> alike R (map_err x f) (map_err y f).
Proof. destruct x, y; simpl; try done. by intros ->. Qed.

Lemma alike_try_map {A B E} (R : B -> B -> Prop) (f g : A -> result B E) l :
  (forall a, alike R (f a) (g a)) -> alike (Forall2 R) (try_map f l) (try_map g l).
Proof.
  intros H. induction l as [|a l IH]; simpl; [by constructor|]. eapply alike_rbind; [apply H|].
  intros x y Hxy. eapply alike_rbind; [exact IH|]. simpl. intros; by constructor.
Qed.

Lemma assignments_salt d s1 s2 rules : forall b1 b2 next,
  alike (fun x y => fst x = fst y) (assignments d s1 rules b1 next) (assignments d s2 rules b2 next).
Proof.
  induction rules as [|r rules IH]; intros b1 b2 next; simpl; [done|].
  eapply alike_rbind; [by apply (alike_refl eq)|]. intros q _ <-.
  destruct (set_expr_salt d q (transform r) b1 b2 next s1 s2) as [E1 E2].
  destruct (set_expr d q (transform r) b1 next s1) as [[x1 c1] n1], (set_expr d q (transform r) b2 next s2) as [[x2 c2] n2].
  simpl in E1, E2. subst. eapply alike_rbind; [apply IH|]. intros [y1 d1] [y2 d2]. simpl. by intros ->.
Qed.

Lemma update_statements_salt engine rules s1 s2 :
  alike (fun us vs => map (fun u => sql (ts_statement u)) us = map (fun u => sql (ts_statement u)) vs)
    (update_statements engine rules s1) (update_statements engine rules s2).
Proof.
  unfold update_statements. eapply alike_rbind; [by apply (alike_refl eq)|]. intros d _ <-.
  assert (H : alike (Forall2 (fun u v => sql (ts_statement u) = sql (ts_statement v)))
    (try_map (update_statement d s1) (by_table rules)) (try_map (update_statement d s2) (by_table rules))).
  { apply alike_try_map. intros [t rs]. unfold update_statement. eapply alike_rbind; [by apply (alike_refl eq)|].
    intros q _ <-. eapply alike_rbind; [apply alike_map_err, assignments_salt|].
    intros [x1 d1] [x2 d2]. simpl. by intros ->. }
  revert H. destruct (try_map _ _), (try_map _ _); simpl; try done. induction 1; simpl; congruence.
Qed.

(** ** Properties *)


(** The rule, of the saved selection and of the completed one. *)
Lemma filter_same_tables (rules : list MaskRule) a b :
  (forall r, In r rules -> (In (rule_table r) a <-> In (rule_table r) b)) ->
  List.filter (carries_data a) rules = List.filter (carries_data b) rules
  /\ List.filter (fun r => negb (carries_data a r)) rules = List.filter (fun r => negb (carries_data b r)) rules.
Proof.
  intros H. enough (E : forall r, In r rules -> carries_data a r = carries_data b r).
  { split; apply List.filter_ext_in; intros r Hr; by rewrite E. }
  intros r Hr. unfold carries_data. apply eq_true_iff_eq. rewrite !mem_In. by apply H.
Qed.

(** A table that no saved entry names is there with its data. *)
Lemma unnamed_carries_data saved tables t : In t (available_names tables) ->
  (forall s, In s saved -> names_same_table (sel_name s) t = false) ->
  In t (names_with SchemaAndData (fst (resolve_selections saved tables))).
Proof.
  intros Ht Hs. unfold names_with, resolve_selections. cbn [fst]. apply in_map_iff. exists (with_data t). split; [done|].
  apply filter_In. split; [|done]. unfold expand_selections. apply in_map_iff. exists t. split; [|done].
  unfold expand_one. destruct (List.find _ saved) as [s|] eqn:E; [|done].
  apply List.find_some in E as [Hin E]. by rewrite Hs in E.
Qed.

(** C32: how far the preview of masking is what runs.  The preview goes by the saved
    selection, a run by that selection completed against the source's tables
    (ops.rs:866-889).  Where the completion gives and takes data from no table a rule
    names, what is shown is, statement by statement, the text the run sends, whatever
    the salt, and the rules shown as inert are those the run reports.  Where the source
    has a table that no saved entry names, a rule for it is shown as inert, and runs. *)
Theorem preview_and_run_compared find_plan require_profile id plan profile pv tables columns c salt :
  masking_preview find_plan require_profile id = Ok pv ->
  find_plan id = Some plan -> require_profile (sp_profile_id plan) = Ok profile ->
  let data := names_with SchemaAndData (fst (resolve_selections (sp_selections plan) tables)) in
  plan_coverage (profile_engine profile) data columns (sp_masking plan) = Ok c ->
  ((forall r, In r (sp_masking plan) -> (In (rule_table r) data <-> In (rule_table r) (plan_tables_with_data plan))) ->
   pv_inert pv = inert c
   /\ exists us cs, update_statements (profile_engine profile) (effective c) salt = Ok us
      /\ pv_updates pv = map (fun u => sql (ts_statement u)) us
      /\ check_statements (profile_engine profile) (effective c) = Ok cs
      /\ pv_checks pv = map (fun k => sql (tc_statement k)) cs)
  /\ (forall r, In r (sp_masking plan) -> In (rule_table r) (available_names tables) ->
     (forall s, In s (sp_selections plan) -> names_same_table (sel_name s) (rule_table r) = false) ->
     In (mk_inert r (inert_reason r)) (pv_inert pv) /\ In r (effective c) /\ ~ In r (map inert_rule (inert c))).
Proof.
  intros H Hf Hp data Hc. unfold masking_preview in H. rewrite Hf in H. cbn [ok_or rbind] in H. rewrite Hp in H. cbn [rbind] in H.
  unfold plan_coverage in Hc. apply plan_rules_spec in Hc as (_ & _ & _ & ->). cbn [effective inert app].
  inv_ok. cbn [pv_inert pv_updates pv_checks]. split.
  - intros Hsame. destruct (filter_same_tables _ _ _ Hsame) as [-> ->]. split; [done|].
    change (List.filter (carries_data (plan_tables_with_data plan)) (sp_masking plan)) with (active_masking plan).
    pose proof (update_statements_salt (profile_engine profile) (active_masking plan) placeholder salt) as Hs.
    match goal with E : update_statements _ _ placeholder = Ok ?u |- _ => rewrite E in Hs end.
    destruct (update_statements _ _ salt) as [us|]; [|done]. simpl in Hs.
    match goal with E : check_statements _ _ = Ok ?k |- _ => exists us, k end. by split_and!.
  - intros r Hr Ht Hn. pose proof (unnamed_carries_data _ _ _ Ht Hn) as Hd. split_and!.
    + apply in_map_iff. exists r. split; [done|]. apply filter_In. split; [done|]. apply negb_true_iff, not_true_iff_false.
      rewrite mem_In. unfold plan_tables_with_data, names_with. rewrite in_map_iff. intros (s & E & Hs).
      apply filter_In in Hs as [Hs _]. specialize (Hn s Hs). by rewrite E, names_same_refl in Hn.
    + apply filter_In. split; [done|]. unfold carries_data. by apply mem_In.
    + rewrite map_map. cbn [inert_rule]. rewrite map_id. intros [_ Hx]%filter_In. unfold carries_data in Hx.
      apply negb_true_iff, not_true_iff_false in Hx. by apply Hx, mem_In.
Qed.

(** A schedule refused for want of authority is not told apart.  The store refuses a
    schedule of a pipeline that drops a database and was not authorised; the window is
    told that it is invalid, and never, by creating or changing a schedule, that the
    pipeline is not armed, the kind that is there for it. *)
Theorem missing_authority_is_not_told_apart `{Cal : Calendar} str_debug parse_url text local utc id now w :
  (forall input e w', cmd_create_schedule str_debug parse_url text local utc id now input w = (Err e, w') ->
     ce_kind e <> "pipeline_not_armed")
  /\ (forall patch e w', cmd_update_schedule str_debug parse_url text local utc id patch now w = (Err e, w') ->
     ce_kind e <> "pipeline_not_armed")
  /\ (forall input pid p, create_schedule_validate str_debug parse_url input = Ok tt -> scr_kind input = KindPipeline ->
     scr_pipeline_id input = Some pid -> pn_pipelines w !! pid = Some p ->
     pipeline_is_destructive p = true -> is_armed p = false ->
     cmd_create_schedule str_debug parse_url text local utc id now input w
     = (Err (new_error "invalid" (text (InvalidSchedule (not_armed p)))), w)).
Proof.
  split_and!.
  - intros input e w' H. unfold cmd_create_schedule in H.
    destruct (create_schedule_validate _ _ _) as [u|x] eqn:V.
    + destruct (create_schedule _ _ _ _ _ _ _) as [[s rows]|x]; [done|]. injection H as <- <-. by destruct x.
    + injection H as <- <-. destruct x; try done. by apply validation_names_no_authority in V.
  - intros patch e w' H. unfold cmd_update_schedule in H.
    destruct (update_schedule _ _ _ _ _ _) as [[s rows]|x]; [done|]. injection H as <- <-. by destruct x.
  - intros input pid p V K P Hp D A. unfold cmd_create_schedule, create_schedule, check_pipeline_target. rewrite V, K, P.
    cbn [map_err rbind]. rewrite bool_decide_true by done. cbn [negb]. rewrite Hp. cbn [ok_or rbind]. by rewrite D, A.
Qed.

(** A deletion is logged whether or not it happens.  Deleting a schedule that is not
    there replies that nothing was deleted, and the log, if it can be written, says that
    an unattended job stops running. *)
Theorem a_deletion_is_logged_before_it_happens uuid_text id w :
  pn_schedules w !! id = None -> hd None (pn_inserts w) = None ->
  exists w', cmd_delete_schedule uuid_text id w = (Ok false, w') /\ pn_schedules w' = pn_schedules w
    /\ last (pn_log w') = Some (ScheduleDeleted, uuid_text id, "an unattended job stops running").
Proof.
  intros E Hi. unfold cmd_delete_schedule, delete_schedule. rewrite audited_schedules, E. eexists. split; [done|].
  cbn [pn_schedules pn_log with_schedules]. split; [by apply delete_id|].
  destruct (audited_tells ScheduleDeleted (uuid_text id) "an unattended job stops running" w) as [(-> & _)|(error & _ & _ & Hn)];
    [by rewrite last_snoc|congruence].
Qed.

(** *** When it fires, where the clock does not jump *)

Section Preview.
Context `{Cal : Calendar} {zone : TimeZone} {off : Z} `{Fix : !FixedOffset zone off}.

(** [b] is the first minute after [a] that the expression fires in. *)
Definition fires_next (e : CronExpression) (a b : Z) : Prop :=
  a < b /\ matches e (wall (zone := zone) b) = true
  /\ forall j, minute_index (wall (zone := zone) a) < minute_index (wall (zone := zone) j) -> j < b ->
       matches e (wall (zone := zone) j) = false.

Lemma next_runs_fire n e tz now l :
  next_runs zone zone n e tz now = Val l -> Forall (fun t => in_dates (wall (zone := zone) t)) (now :: l) ->
  (length l <= n)%nat /\ Sorted.Sorted (fires_next e) (now :: l).
Proof.
  revert now l. induction n as [|n IH]; intros now l; simpl; [intros [= <-] _; split; [done|]; by repeat constructor|].
  intros H Hd. pose proof (next_after_nearest (zone := zone) e now (Forall_inv Hd)) as Hn.
  replace (next_after zone zone e tz now) with (next_after_in e zone now) in H by (unfold next_after; by destruct tz).
  destruct (next_after_in e zone now) as [[t|]|]; [|injection H as <-; split; [simpl; lia|by repeat constructor]|done].
  destruct (next_runs zone zone n e tz t) as [l'|] eqn:E; [|done]. injection H as <-.
  destruct (IH t l' E (Forall_inv_tail Hd)) as [IH1 IH2]. split; [simpl; lia|]. constructor; [done|].
  constructor. destruct Hn as (? & ? & _ & ?). by split_and!.
Qed.

(** The preview of an expression is when it fires.  At most five instants are shown,
    each the first after the one before it, from now, that the expression matches:
    none is skipped and none is made up. *)
Theorem preview_shows_the_next_runs cron_error_text expression tz now pv :
  preview_cron zone zone cron_error_text expression tz now = Ok (Val pv) ->
  Forall (fun t => in_dates (wall (zone := zone) t)) (now :: cp_next_runs pv) ->
  exists e, cron_from_str expression = Ok e /\ cp_description pv = describe e
    /\ (length (cp_next_runs pv) <= 5)%nat /\ Sorted.Sorted (fires_next e) (now :: cp_next_runs pv).
Proof.
  unfold preview_cron. destruct (cron_from_str expression) as [e|] eqn:E; [|done].
  destruct (next_runs zone zone 5 e tz now) as [l|] eqn:En; [|done]. intros [= <-] Hd. exists e.
  split_and!; [done..| |]; by apply (next_runs_fire 5 e tz now l).
Qed.
End Preview.

(** ** Witnesses *)

Definition users_plan : SyncPlan := mk_sync_plan 3 4 "all" "shop" [with_data "users"; schema_only "logs"]
  [hash_rule "users" "token"; email_rule "users" "mail"; email_rule "logs" "line"] 1 0 0.
Definition users_server : ConnectionProfile := sample_profile Mysql Dev.
Definition users_columns : gmap string (list string) := {["users" := ["id"; "token"; "mail"]]}.
Definition users_preview : MaskingPreview :=
  match masking_preview (fun _ => Some users_plan) (fun _ => Ok users_server) 3 with
  | Ok pv => pv
  | Err _ => mk_masking_preview [] [] []
  end.
(** The source's tables: those of the plan, and one that appeared since. *)
Definition table_named (n : string) : TableInfo := new_table_info None n None None None None.
Definition users_tables : list TableInfo := [table_named "users"; table_named "logs"].
Definition carried (p : SyncPlan) (tables : list TableInfo) : list string :=
  names_with SchemaAndData (fst (resolve_selections (sp_selections p) tables)).
Definition covered (p : SyncPlan) (tables : list TableInfo) (columns : gmap string (list string)) : MaskingCoverage :=
  match plan_coverage Mysql (carried p tables) columns (sp_masking p) with
  | Ok c => c
  | Err _ => mk_coverage [] []
  end.
Definition users_coverage : MaskingCoverage := covered users_plan users_tables users_columns.

(** A rule for a table the plan does not name. *)
Definition orders_rule : MaskRule := email_rule "orders" "mail".
Definition wider_plan : SyncPlan :=
  mk_sync_plan 3 4 "all" "shop" [with_data "users"] [hash_rule "users" "token"; orders_rule] 1 0 0.
Definition wider_tables : list TableInfo := [table_named "users"; table_named "orders"].
Definition wider_columns : gmap string (list string) :=
  {["users" := ["id"; "token"]; "orders" := ["id"; "mail"]]}.
Definition wider_preview : MaskingPreview :=
  match masking_preview (fun _ => Some wider_plan) (fun _ => Ok users_server) 3 with
  | Ok pv => pv
  | Err _ => mk_masking_preview [] [] []
  end.
Definition wider_coverage : MaskingCoverage := covered wider_plan wider_tables wider_columns.

Lemma users_previewed : masking_preview (fun _ => Some users_plan) (fun _ => Ok users_server) 3 = Ok users_preview.
Proof. by vm_compute. Qed.

Lemma users_covered :
  plan_coverage Mysql (carried users_plan users_tables) users_columns (sp_masking users_plan) = Ok users_coverage.
Proof. by vm_compute. Qed.

Lemma wider_previewed : masking_preview (fun _ => Some wider_plan) (fun _ => Ok users_server) 3 = Ok wider_preview.
Proof. by vm_compute. Qed.

Lemma wider_covered :
  plan_coverage Mysql (carried wider_plan wider_tables) wider_columns (sp_masking wider_plan) = Ok wider_coverage.
Proof. by vm_compute. Qed.

(** The preview of [users_plan] is what runs; that of [wider_plan] shows one statement,
    and its run sends two. *)
Lemma preview_and_run_compared_witness :
  length (pv_inert users_preview) = 1%nat
  /\ (exists us, update_statements Mysql (effective users_coverage) "pepper" = Ok us
       /\ pv_updates users_preview = map (fun u => sql (ts_statement u)) us)
  /\ length (pv_updates wider_preview) = 1%nat /\ length (effective wider_coverage) = 2%nat
  /\ In (mk_inert orders_rule (inert_reason orders_rule)) (pv_inert wider_preview)
  /\ In orders_rule (effective wider_coverage).
Proof.
  destruct (preview_and_run_compared (fun _ => Some users_plan) (fun _ => Ok users_server) 3 users_plan users_server
    users_preview users_tables users_columns users_coverage "pepper" users_previewed eq_refl eq_refl users_covered)
    as [(_ & us & cs & E & U & _) _].
  { intros r _. by vm_compute. }
  destruct (preview_and_run_compared (fun _ => Some wider_plan) (fun _ => Ok users_server) 3 wider_plan users_server
    wider_preview wider_tables wider_columns wider_coverage "pepper" wider_previewed eq_refl eq_refl wider_covered)
    as [_ W].
  destruct (W orders_rule) as (I & R & _); [right; by left|right; by left|by intros s [<-|[]]|].
  split_and!; [vm_compute; reflexivity|exists us; exact (conj E U)|vm_compute; reflexivity..|exact I|exact R].
Defined.

Lemma a_deletion_is_logged_before_it_happens_witness :
  exists w', cmd_delete_schedule (fun _ => "9b2f") 7 (mk_panel ∅ ∅ [] [] [] []) = (Ok false, w')
    /\ last (pn_log w') = Some (ScheduleDeleted, "9b2f", "an unattended job stops running").
Proof.
  destruct (a_deletion_is_logged_before_it_happens (fun _ => "9b2f") 7 (mk_panel ∅ ∅ [] [] [] [])
    (lookup_empty 7%N) eq_refl) as (w' & E & _ & L).
  exists w'. exact (conj E L).
Defined.

Definition quarter_preview : CronPreview :=
  match preview_cron utc_zone utc_zone (fun _ => "") "*/15 * * * *" TzUtc noon_ish with
  | Ok (Val pv) => pv
  | _ => mk_cron_preview "" []
  end.

Lemma quarter_shown : preview_cron utc_zone utc_zone (fun _ => "") "*/15 * * * *" TzUtc noon_ish = Ok (Val quarter_preview).
Proof. by vm_compute. Qed.

Lemma quarter_dates : Forall (fun t => in_dates (wall (zone := utc_zone) t)) (noon_ish :: cp_next_runs quarter_preview).
Proof.
  replace (cp_next_runs quarter_preview) with (map (fun k => noon_ish + minutes (15 * k)) [1; 2; 3; 4; 5])
    by (vm_compute; reflexivity).
  repeat constructor; apply utc_in_dates; by vm_compute.
Qed.

Lemma preview_shows_the_next_runs_witness :
  length (cp_next_runs quarter_preview) = 5%nat
  /\ Sorted.Sorted (fires_next (zone := utc_zone) (parsed "*/15 * * * *")) (noon_ish :: cp_next_runs quarter_preview).
Proof.
  destruct (preview_shows_the_next_runs (zone := utc_zone) (fun _ => "") "*/15 * * * *" TzUtc noon_ish quarter_preview
    quarter_shown quarter_dates) as (e & E & _ & _ & S).
  split; [vm_compute; reflexivity|].
  assert (He : e = parsed "*/15 * * * *") by (vm_compute in E |- *; injection E as <-; reflexivity).
  rewrite <- He. exact S.
Defined.
