(* ===== verification/Browse.v ===== *)
(** * Browse: the commands of the window that look at a server or at the library
      (commands.rs of the desktop application)

    Listing databases and tables opens a connection, asks, and closes it; the time a
    future takes, or that it never answers, is part of the model, since a command that
    looks is given a limit.  Artifacts are listed, checked and deleted on the disk; a
    legacy list of tables is completed from the tables the source has. *)

From Stdlib Require Import ZArith Lia Ascii String List Bool.
From stdpp Require Import base list gmap strings.
From S2P Require Import Prelude Text Domain Backup Plan Disk Library Introspect Desktop.
Import ListNotations.
Open Scope string_scope.
Open Scope list_scope.
Open Scope Z_scope.

(** ** Waiting *)

(** A future: its answer after so many milliseconds, or none ever. *)
Inductive Wait (A : Type) := After (ms : Z) (a : A) | Never.
Arguments After {A} ms a.
Arguments Never {A}.

Definition later {A} (ms : Z) (f : Wait A) : Wait A :=
  match f with After d a => After (ms + d) a | Never => Never end.

Definition then_ {A B} (f : Wait A) (k : A -> Wait B) : Wait B :=
  match f with After ms a => later ms (k a) | Never => Never end.

(** [tokio::time::timeout]. *)
Definition timeout {A} (limit : Z) (f : Wait A) : Wait (option A) :=
  match f with
  | After ms a => if ms <=? limit then After ms (Some a) else After limit None
  | Never => After limit None
  end.

Definition INTROSPECT_TIMEOUT : Z := 60000.

(** ** Looking at a server *)

Inductive Visit := Opened | Asked | Closed.

Section Server.
Context {C : Type}.
(** [connect::open], with the database to open; a query; and the close of both ends. *)
Variable open : ConnectionProfile -> option string -> Wait (result C string).
Variable close : C -> Wait unit.
Variable require_profile : result ConnectionProfile CommandError.

Definition looked {A} (r : result A CommandError) (l : list Visit) : Wait (result A CommandError * list Visit) := After 0 (r, l).

Definition introspect {A} (database : option string) (query : C -> Wait (result A string))
    : Wait (result A CommandError * list Visit) :=
  match require_profile with
  | Err e => looked (Err e) []
  | Ok p =>
      then_ (timeout INTROSPECT_TIMEOUT (open p database)) (fun r =>
        match r with
        | None => looked (Err (new_error "timeout" "connecting timed out")) []
        | Some (Err e) => looked (Err (new_error "connect" e)) []
        | Some (Ok c) =>
            then_ (query c) (fun result =>
              then_ (close c) (fun _ => looked (map_err result (new_error "query")) [Opened; Asked; Closed]))
        end)
  end.

Definition cmd_list_databases (query : C -> Wait (result (list DatabaseInfo) string)) := introspect None query.

(** The database is part of opening: PostgreSQL looks only at the one it is connected to. *)
Definition cmd_list_tables {T} (database : string) (query : C -> string -> Wait (result (list T) string)) :=
  introspect (Some database) (fun c => query c database).
End Server.

(** ** The library *)

Definition cmd_list_artifacts `{Codec} (default_dir : string) (d : Disk) (directory : option string) : list Artifact :=
  list_artifacts d (default default_dir directory).

Definition remove_error (path : string) (d : Disk) : string :=
  match nodes d !! path with Some _ => "Permission denied (os error 13)" | None => "No such file or directory (os error 2)" end.

(** The manifest goes with the artifact; failing to remove it is not an error. *)
Definition cmd_delete_artifact (path : string) (d : Disk) : result unit CommandError * Disk :=
  if negb (is_some (file_at d path)) then (Err (new_error "not_found" ("no such file: " ++ path)), d)
  else
    let '(removed, d') := remove_file d path in
    if negb removed then (Err (new_error "io" (remove_error path d)), d')
    else (Ok tt, snd (remove_file d' (path_for path))).

(** ** A legacy list of tables *)

Definition NO_TABLES : string :=
  ("the source's table list is not loaded, so the file cannot be completed; without it every table the file omits "
   ++ "would be backed up with its data")%string.

Definition import_tables_conf (contents : string) (available : list string) : result (list TableSelection) CommandError :=
  match available with
  | [] => Err (new_error "no_tables" NO_TABLES)
  | _ => Ok (selections_from_tables_conf contents available)
  end.

(** ** Properties *)

(** The limit is on connecting alone.  Connecting that takes too long, or never
    answers, is reported after a minute; a server that lets the command in and then
    never answers is waited for without end.  Whenever the command does reply, what it
    opened it has closed. *)
Theorem the_limit_is_on_connecting_alone {A C} open close p database (query : C -> Wait (result A string)) :
  ((open p database = Never \/ exists ms r, open p database = After ms r /\ INTROSPECT_TIMEOUT < ms) ->
   introspect open close (Ok p) database query
   = After INTROSPECT_TIMEOUT (Err (new_error "timeout" "connecting timed out"), []))
  /\ (forall ms c, open p database = After ms (Ok c) -> ms <= INTROSPECT_TIMEOUT -> query c = Never ->
      introspect open close (Ok p) database query = Never)
  /\ (forall ms reply l, introspect open close (Ok p) database query = After ms (reply, l) -> In Opened l -> In Closed l).
Proof.
  unfold introspect. split_and!.
  - intros [->|(ms & r & -> & Hm)]; [done|]. unfold timeout. by rewrite (proj2 (Z.leb_gt _ _) Hm).
  - intros ms c -> Hm Hq. unfold timeout. rewrite (proj2 (Z.leb_le _ _) Hm). cbn [then_]. by rewrite Hq.
  - intros ms reply l. destruct (timeout _ _) as [t [[c|e]|]|]; cbn; try (by intros [= _ _ <-]).
    destruct (query c) as [tq rq|]; [|done]. cbn. destruct (close c) as [tc []|]; [|done]. cbn. intros [= _ _ <-] _.
    do 2 right. by left.
Qed.

(** Deleting an artifact removes it and its manifest.  A deletion that replies well
    has removed the file, and the manifest beside it if that can be removed; one that
    fails has changed nothing; no other file is touched. *)
Theorem deleting_removes_one_artifact path d :
  let '(reply, d') := cmd_delete_artifact path d in
  match reply with
  | Ok _ => nodes d' !! path = None
            /\ (forall f, path_for path <> path -> nodes d !! path_for path = Some (NFile f) ->
                nodes d' !! path_for path = if removable f then None else Some (NFile f))
  | Err _ => d' = d
  end
  /\ forall other, other <> path -> other <> path_for path -> nodes d' !! other = nodes d !! other.
Proof.
  unfold cmd_delete_artifact, remove_file. destruct (file_at d path) as [f|] eqn:Ef; cbn [is_some negb]; [|done].
  destruct (removable f) eqn:Er; cbn [negb]; [|done].
  set (d1 := mk_disk (base.delete path (nodes d)) (dirs d)).
  assert (H1 : nodes d1 !! path = None) by apply lookup_delete_eq.
  assert (H2 : forall other, other <> path -> nodes d1 !! other = nodes d !! other) by (intros; by apply lookup_delete_ne).
  destruct (file_at d1 (path_for path)) as [g|] eqn:Eg; cbn [snd].
  - assert (Hg : nodes d1 !! path_for path = Some (NFile g)).
    { unfold file_at in Eg. by destruct (nodes d1 !! path_for path) as [[]|]; simplify_eq. }
    destruct (removable g) eqn:Rg; cbn [snd nodes].
    + split_and!.
      * apply lookup_delete_None. by right.
      * intros f' N Hf'. rewrite H2 in Hg by done. simplify_eq. by rewrite Rg, lookup_delete_eq.
      * intros other N1 N2. rewrite lookup_delete_ne by done. by apply H2.
    + split_and!; [done| |auto]. intros f' N Hf'. rewrite H2 in Hg by done. simplify_eq. by rewrite Rg, H2.
  - split_and!; [done| |auto]. intros f' N Hf'. unfold file_at in Eg. by rewrite H2, Hf' in Eg.
Qed.

(** An imported list of tables says something of every table.  Without the tables of
    the source the import is refused; with them every one of them has a
    selection, in their order. *)
Theorem an_import_is_complete contents available :
  match import_tables_conf contents available with
  | Err e => available = [] /\ ce_kind e = "no_tables"
  | Ok l => available <> [] /\ map sel_name l = available
  end.
Proof.
  unfold import_tables_conf. destruct available as [|a l]; [done|]. split; [done|].
  unfold selections_from_tables_conf. rewrite map_map. erewrite map_ext; [apply map_id|].
  intros n. cbn. by repeat case_match.
Qed.
