(* ===== verification/Notify.v ===== *)
(** * Notify: telling someone what happened (engine/src/notify.rs and the end of a run in
      engine/src/scheduler.rs)

    A run that ended is described once, in a report; the report becomes a native
    notification and the body of a webhook.  JSON is a tree, as serde_json has it;
    sending it is a parameter, and so is the URL crate. *)

From Stdlib Require Import ZArith Lia Ascii String List Bool.
From stdpp Require Import base list gmap strings.
From S2P Require Import Prelude Text Domain Time Substring Tools Disk Verify Job Backup Mask Plan Schedule ScheduledRun.
Import ListNotations.
Open Scope string_scope.
Open Scope list_scope.
Open Scope Z_scope.

(** ** Reports *)

Record VerificationSummary := mk_summary {
  vs_passed : bool;
  vs_tables_checked : Z;
  vs_failures : Z;
  vs_skipped : Z }.

Definition summarise (r : VerificationReport) : VerificationSummary :=
  mk_summary (passed r) (tables_checked r) (failures r) (skipped r).

Record RunReport := mk_run_report {
  rp_event : string;
  rp_schedule_id : Uuid;
  rp_schedule_name : string;
  rp_job_id : Uuid;
  rp_kind : JobKind;
  rp_outcome : JobOutcome;
  rp_scheduled_for : Z;
  rp_started_at : Z;
  rp_finished_at : Z;
  rp_duration_ms : Z;
  rp_source_profile : string;
  rp_dest_profile : option string;
  rp_database : string;
  rp_target_database : option string;
  rp_artifact_name : option string;
  rp_artifact_bytes : option Z;
  rp_verification : option VerificationSummary;
  rp_removed_artifacts : Z;
  rp_error : option string }.

Record RunOutcome := mk_outcome {
  ro_schedule_id : Uuid;
  ro_schedule_name : string;
  ro_job_id : Uuid;
  ro_kind : JobKind;
  ro_outcome : JobOutcome;
  ro_scheduled_for : Z;
  ro_started_at : Z;
  ro_finished_at : Z;
  ro_source_profile : string;
  ro_dest_profile : option string;
  ro_database : string;
  ro_target_database : option string;
  ro_artifact_path : option string;
  ro_verification : option VerificationReport;
  ro_removed_artifacts : Z;
  ro_error : option string }.

(** [file_bytes] is the length of what is a file at a path.  The duration is kept in
    milliseconds: the source divides them by a thousand. *)
Definition new_report (file_bytes : string -> option Z) (o : RunOutcome) : RunReport :=
  mk_run_report "dbsync.run.finished" (ro_schedule_id o) (ro_schedule_name o) (ro_job_id o) (ro_kind o) (ro_outcome o)
    (ro_scheduled_for o) (ro_started_at o) (ro_finished_at o) (Z.quot (ro_finished_at o - ro_started_at o) 1000000)
    (ro_source_profile o) (ro_dest_profile o) (ro_database o) (ro_target_database o)
    (match ro_artifact_path o with Some p => file_name p | None => None end)
    (match ro_artifact_path o with Some p => file_bytes p | None => None end)
    (option_map summarise (ro_verification o)) (ro_removed_artifacts o) (ro_error o).

Definition succeeded (r : RunReport) : bool := match rp_outcome r with Success => true | _ => false end.

(** ** Notifications *)

(** [{:.0}] of so many thousandths: to the nearest, a half to the even one. *)
Definition whole_seconds (ms : Z) : string :=
  let a := Z.abs ms in
  let q := a / 1000 in
  let r := a mod 1000 in
  let n := if r <? 500 then q else if 500 <? r then q + 1 else if Z.even q then q else q + 1 in
  if ms <? 0 then ("-" ++ show n)%string else show n.

Definition ELLIPSIS : string := "…".

Fixpoint count_chars (s : string) : nat :=
  match s with
  | EmptyString => 0%nat
  | String c r => if is_cont c then count_chars r else S (count_chars r)
  end.

Definition truncate (s : string) (max : nat) : string :=
  if (count_chars s <=? max)%nat then s else (take_chars (max - 1) s ++ ELLIPSIS)%string.

Record Notification := mk_notification { title : string; body : string; is_failure : bool }.

Definition kind_verb (k : JobKind) : string :=
  match k with Domain.KindSync => "Sync" | KindBackup => "Backup" | KindRestore => "Restore" | KindVerify => "Verification" end.

Definition to_notification (r : RunReport) : Notification :=
  let verb := kind_verb (rp_kind r) in
  let title :=
    match rp_outcome r with
    | Success => verb ++ " finished — " ++ rp_schedule_name r
    | Failed => verb ++ " FAILED — " ++ rp_schedule_name r
    | Cancelled => verb ++ " cancelled — " ++ rp_schedule_name r
    end%string in
  let body :=
    match rp_error r, rp_verification r with
    | Some e, _ => truncate e 200
    | None, Some v =>
        if negb (vs_passed v) then
          rp_database r ++ " restored to " ++ default "the destination" (rp_target_database r)
          ++ ", but verification found " ++ show (vs_failures v) ++ " discrepancy(ies) across "
          ++ show (vs_tables_checked v) ++ " table(s)."
        else
          rp_database r ++ " → " ++ default "artifact" (rp_target_database r) ++ " · " ++ show (vs_tables_checked v)
          ++ " table(s) verified · " ++ whole_seconds (rp_duration_ms r) ++ "s"
    | None, None =>
        rp_database r ++ " · " ++ default "no artifact" (rp_artifact_name r) ++ " · "
        ++ whole_seconds (rp_duration_ms r) ++ "s"
    end%string in
  mk_notification title body (negb (succeeded r)).

(** ** Webhooks *)

#[warnings="-register-all"]
Inductive Json :=
| JNull | JBool (b : bool) | JNumber (n : Z) | JSeconds (ms : Z) | JString (s : string)
| JArray (l : list Json) | JObject (l : list (string * Json)).

Inductive WebhookFormat := FormatJson | FormatSlack | FormatTeams.

(** The host of a URL that has one, as the URL crate reads it. *)
Definition infer (host_of : string -> option string) (url : string) : WebhookFormat :=
  let host := match host_of url with Some h => to_lower h | None => "" end in
  if String.eqb host "hooks.slack.com" || ends_with ".slack.com" host then FormatSlack
  else if ends_with "webhook.office.com" host || ends_with "office.com" host || ends_with "logic.azure.com" host then FormatTeams
  else FormatJson.

Definition facts (r : RunReport) : list (string * string) :=
  [("Database", rp_database r); ("Source", rp_source_profile r)]
  ++ match rp_dest_profile r with Some d => [("Destination", d)] | None => [] end
  ++ [("Duration", (whole_seconds (rp_duration_ms r) ++ "s")%string)]
  ++ match rp_verification r with
     | Some v => [("Verified", (show (vs_tables_checked v) ++ " table(s)"
                                ++ (if vs_passed v then "" else ", " ++ show (vs_failures v) ++ " FAILED"))%string)]
     | None => []
     end.

Definition slack_fields (r : RunReport) : list Json :=
  map (fun f => JObject [("title", JString (fst f)); ("value", JString (snd f)); ("short", JBool true)]) (facts r).

Definition teams_facts (r : RunReport) : list Json :=
  map (fun f => JObject [("name", JString (fst f)); ("value", JString (snd f))]) (facts r).

Section Payload.
Variable uuid_text : Uuid -> string.
(** An instant as serde writes it, and the names of the kinds and the outcomes. *)
Variable rfc3339 : Z -> string.

Definition kind_snake (k : JobKind) : string :=
  match k with KindBackup => "backup" | KindRestore => "restore" | KindVerify => "verify" | Domain.KindSync => "sync" end.

Definition j_opt {A} (f : A -> Json) (o : option A) : Json := match o with Some a => f a | None => JNull end.

Definition j_summary (v : VerificationSummary) : Json :=
  JObject [("passed", JBool (vs_passed v)); ("tables_checked", JNumber (vs_tables_checked v));
           ("failures", JNumber (vs_failures v)); ("skipped", JNumber (vs_skipped v))].

(** [serde_json::to_value]: the fields, by their names. *)
Definition report_value (r : RunReport) : Json :=
  JObject [("event", JString (rp_event r)); ("schedule_id", JString (uuid_text (rp_schedule_id r)));
    ("schedule_name", JString (rp_schedule_name r)); ("job_id", JString (uuid_text (rp_job_id r)));
    ("kind", JString (kind_snake (rp_kind r))); ("outcome", JString (outcome_as_str (rp_outcome r)));
    ("scheduled_for", JString (rfc3339 (rp_scheduled_for r))); ("started_at", JString (rfc3339 (rp_started_at r)));
    ("finished_at", JString (rfc3339 (rp_finished_at r))); ("duration_seconds", JSeconds (rp_duration_ms r));
    ("source_profile", JString (rp_source_profile r)); ("dest_profile", j_opt JString (rp_dest_profile r));
    ("database", JString (rp_database r)); ("target_database", j_opt JString (rp_target_database r));
    ("artifact_name", j_opt JString (rp_artifact_name r)); ("artifact_bytes", j_opt JNumber (rp_artifact_bytes r));
    ("verification", j_opt j_summary (rp_verification r)); ("removed_artifacts", JNumber (rp_removed_artifacts r));
    ("error", j_opt JString (rp_error r))].

Definition payload_for (format : WebhookFormat) (r : RunReport) : Json :=
  let n := to_notification r in
  match format with
  | FormatJson => report_value r
  | FormatSlack =>
      JObject [("text", JString (title n));
        ("attachments", JArray [JObject [("color", JString (if succeeded r then "good" else "danger"));
           ("fallback", JString (title n)); ("text", JString (body n)); ("fields", JArray (slack_fields r))]])]
  | FormatTeams =>
      JObject [("@type", JString "MessageCard"); ("@context", JString "https://schema.org/extensions");
        ("themeColor", JString (if succeeded r then "2EB67D" else "E01E5A")); ("summary", JString (title n));
        ("title", JString (title n)); ("text", JString (body n));
        ("sections", JArray [JObject [("facts", JArray (teams_facts r))]])]
  end.

(** ** Sending *)

Inductive WebhookError :=
| Client (why : string) | Transport (why : string) | Status (status : Z) | Redirected (location : string).

Definition webhook_error_text (str_debug : string -> string) (e : WebhookError) : string :=
  match e with
  | Client why => "could not build the HTTP client: " ++ why
  | Transport why => "the request failed: " ++ why
  | Status s => "the endpoint answered " ++ show s
  | Redirected l => "the endpoint redirected to " ++ str_debug l ++ "; webhooks are not followed across hosts"
  end%string.

(** What one request is answered with: a status, and the Location header when it is text. *)
Definition Answer : Type := result (Z * option string) WebhookError.

Definition judge_answer (a : Answer) : result Z WebhookError :=
  match a with
  | Err e => Err e
  | Ok (status, location) =>
      if (300 <=? status) && (status <? 400) then Err (Redirected (default "(no Location header)" location))
      else if negb ((200 <=? status) && (status <? 300)) then Err (Status status)
      else Ok status
  end.

Variable host_of : string -> option string.
Variable send : string -> Json -> Answer.

Definition post_webhook (url : string) (r : RunReport) : result Z WebhookError :=
  judge_answer (send url (payload_for (infer host_of url) r)).
End Payload.

(** ** The end of a scheduled run *)

(** The names a report gives, as the store has them then. *)
Record Names := mk_names { n_source : string; n_dest : option string; n_database : string }.

Section Names.
Variable get_plan : Uuid -> option SyncPlan.
Variable get_profile : Uuid -> option ConnectionProfile.

Definition source_name (s : Schedule) : string :=
  match plan_id s with
  | None => if is_drill s then "(the backup folder)" else "(no plan)"
  | Some id =>
      match get_plan id with
      | None => "(deleted plan)"
      | Some plan => match get_profile (sp_profile_id plan) with Some p => profile_name p | None => "(deleted profile)" end
      end
  end.

Definition dest_name (s : Schedule) : option string :=
  option_map (fun id => match get_profile id with Some p => profile_name p | None => "(deleted profile)" end)
    (sch_dest_profile_id s).

Definition database_name (s : Schedule) : string :=
  match plan_id s with
  | None => if is_drill s then "(scratch)" else "(unknown)"
  | Some id => match get_plan id with Some plan => sp_database plan | None => "(unknown)" end
  end.

Definition names_of (s : Schedule) : Names := mk_names (source_name s) (dest_name s) (database_name s).
End Names.

(** What [execute] does, in order. *)
Inductive Did :=
| MarkedStarted (occurrence : Z)
| Registered
| Performed
| Said (level : LogLevel) (message : string)
| Posted (url : string) (body : Json)
| RecordedFinish (o : JobOutcome) (artifact : option string)
| MarkedFinished (o : JobOutcome)
| Unregistered
| Notified (r : RunReport).

Section Execute.
Variable uuid_text : Uuid -> string.
Variable str_debug : string -> string.
Variable rfc3339 : Z -> string.
Variable host_of : string -> option string.
Variable send : string -> Json -> Answer.
Variable file_bytes : string -> option Z.

Definition deliver_webhook (url : string) (r : RunReport) : list Did :=
  [Posted url (payload_for uuid_text rfc3339 (infer host_of url) r);
   match post_webhook uuid_text rfc3339 host_of send url r with
   | Ok status => Said Info ("webhook accepted (" ++ show status ++ ")")%string
   | Err e => Said Warn ("webhook delivery failed: " ++ webhook_error_text str_debug e)%string
   end].

(** The part of a run its report is made of: nothing, when it ended in an error. *)
Definition outcome_parts (r : result RunResult string) : option string * option string * option VerificationReport * Z :=
  match r with
  | Ok run => (rr_artifact run, rr_target_database run, rr_verification run, rr_removed_artifacts run)
  | Err _ => (None, None, None, 0)
  end.

Definition run_report (s : Schedule) (occurrence : option Z) (job : Uuid) (started finished : Z) (names : Names)
    (r : result RunResult string) (cancelled : bool) : RunReport :=
  let '(outcome, error) := conclude r cancelled in
  let '(artifact, target, verification, removed) := outcome_parts r in
  new_report file_bytes
    (mk_outcome (sch_id s) (sch_name s) job (report_kind s) outcome (default started occurrence) started finished
       (n_source names) (n_dest names) (n_database names) target artifact verification removed error).

Definition execute (s : Schedule) (occurrence : option Z) (job : Uuid) (started finished : Z) (names : Names)
    (r : result RunResult string) (cancelled : bool) : list Did :=
  let report := run_report s occurrence job started finished names r cancelled in
  let outcome := rp_outcome report in
  (match occurrence with Some due => [MarkedStarted due] | None => [] end)
  ++ [Registered; Performed]
  ++ (match r with Ok _ => [] | Err m => [Said Error m] end)
  ++ (match webhook_url s with Some url => deliver_webhook url report | None => [] end)
  ++ [RecordedFinish outcome (fst (fst (fst (outcome_parts r)))); MarkedFinished outcome; Unregistered]
  ++ (if wants (notify s) outcome then [Notified report] else []).
End Execute.

(** ** Lemmas *)

(** Every text in a tree. *)
Fixpoint strings_of (j : Json) : list string :=
  match j with
  | JString s => [s]
  | JArray l => flat_map strings_of l
  | JObject l => flat_map (fun f => strings_of (snd f)) l
  | _ => []
  end.

Lemma count_app s t : count_chars (s ++ t) = (count_chars s + count_chars t)%nat.
Proof. induction s as [|c s IH]; [done|]. simpl. rewrite IH. by destruct (is_cont c). Qed.

Lemma take_count n s : (count_chars (take_chars n s) <= n)%nat.
Proof.
  revert n. induction s as [|c s IH]; intros n; [simpl; lia|]. cbn [take_chars]. destruct (is_cont c) eqn:E.
  - cbn [count_chars]. rewrite E. apply IH.
  - destruct n as [|n]; [simpl; lia|]. cbn [count_chars]. rewrite E. specialize (IH n). lia.
Qed.

Lemma take_prefix n s : exists r, s = (take_chars n s ++ r)%string.
Proof.
  revert n. induction s as [|c s IH]; intros n; [by exists ""|]. cbn [take_chars]. destruct (is_cont c).
  - destruct (IH n) as [r E]. exists r. simpl. by rewrite <- E.
  - destruct n as [|n]; [by exists (String c s)|]. destruct (IH n) as [r E]. exists r. simpl. by rewrite <- E.
Qed.

Lemma file_name_plain p n : file_name p = Some n -> contains_char "/" n = false.
Proof.
  unfold file_name. intros E.
  assert (Hin : In n (split_on "/" p)).
  { destruct (rev _) as [|c l] eqn:Er; [done|]. destruct (String.eqb c ".."); [done|]. injection E as ->.
    assert (Hr : In n (rev (List.filter (fun c => negb (String.eqb c "") && negb (String.eqb c ".")) (split_on "/" p)))).
    { rewrite Er. by left. }
    apply in_rev, List.filter_In in Hr. by destruct Hr. }
  clear E. revert n Hin. induction p as [|c p IH]; intros n; [by intros [<-|[]]|]. cbn [split_on].
  destruct (Ascii.eqb_spec c "/") as [->|N].
  - intros [<-|Hin]; [done|by apply IH].
  - destruct (split_on "/" p) as [|h t] eqn:E; intros [<-|Hin].
    + cbn [contains_char]. rewrite orb_false_r. apply Ascii.eqb_neq. congruence.
    + done.
    + cbn [contains_char]. apply orb_false_iff. split; [apply Ascii.eqb_neq; congruence|]. apply IH. by left.
    + apply IH. by right.
Qed.

Definition is_note (d : Did) : bool := match d with Said _ _ | Posted _ _ => true | _ => false end.

Section Ends.
Variable uuid_text : Uuid -> string.
Variable str_debug : string -> string.
Variable rfc3339 : Z -> string.
Variable host_of : string -> option string.
Variable send : string -> Json -> Answer.
Variable file_bytes : string -> option Z.

Abbreviation exec_run := (execute uuid_text str_debug rfc3339 host_of send file_bytes).
Abbreviation report_of := (run_report file_bytes).

Lemma report_outcome s occ job t t' names r cancelled :
  rp_outcome (report_of s occ job t t' names r cancelled) = fst (conclude r cancelled)
  /\ rp_error (report_of s occ job t t' names r cancelled) = snd (conclude r cancelled)
  /\ rp_artifact_name (report_of s occ job t t' names r cancelled)
     = match fst (fst (fst (outcome_parts r))) with Some p => file_name p | None => None end.
Proof.
  unfold run_report. destruct (conclude r cancelled) as [o e].
  by destruct (outcome_parts r) as [[[a tg] v] n].
Qed.

(** However a run ends, and whatever its webhook is answered with, the run is recorded
    once, with the outcome it had, its schedule is marked with the same outcome, its job
    is no longer active, and somebody is told exactly when the schedule asks for it;
    the webhook adds a line to the log and nothing else. *)
Theorem a_webhook_changes_nothing s occ job t t' names r cancelled :
  let outcome := fst (conclude r cancelled) in
  List.filter (fun d => negb (is_note d)) (exec_run s occ job t t' names r cancelled)
  = (match occ with Some due => [MarkedStarted due] | None => [] end)
    ++ [Registered; Performed; RecordedFinish outcome (match r with Ok run => rr_artifact run | Err _ => None end);
        MarkedFinished outcome; Unregistered]
    ++ (if wants (notify s) outcome then [Notified (report_of s occ job t t' names r cancelled)] else []).
Proof.
  intros outcome. unfold execute. destruct (report_outcome s occ job t t' names r cancelled) as (-> & _). fold outcome.
  rewrite !List.filter_app. replace (fst (fst (fst (outcome_parts r)))) with (match r with Ok run => rr_artifact run | Err _ => None end)
    by by destruct r.
  assert (E : List.filter (fun d => negb (is_note d)) (match webhook_url s with
     | Some url => deliver_webhook uuid_text str_debug rfc3339 host_of send url (report_of s occ job t t' names r cancelled)
     | None => [] end) = []).
  { destruct (webhook_url s); [|done]. unfold deliver_webhook. simpl. by destruct (post_webhook _ _ _ _ _ _). }
  rewrite E. destruct occ, r, (wants (notify s) outcome); reflexivity.
Qed.

(** The file a report names is a name and nothing more: no directory, and so no home
    folder or account, goes with it. *)
Theorem reports_name_no_directory s occ job t t' names r cancelled n :
  rp_artifact_name (report_of s occ job t t' names r cancelled) = Some n -> contains_char "/" n = false.
Proof.
  destruct (report_outcome s occ job t t' names r cancelled) as (_ & _ & ->).
  destruct (fst (fst (fst (outcome_parts r)))) as [p|]; [|done]. apply file_name_plain.
Qed.

(** A run that failed sends what it failed with to its webhook as it is - in full to an
    endpoint that takes JSON, its first two hundred characters to a chat. *)
Theorem a_failed_run_sends_its_error s occ job t t' names m cancelled url :
  webhook_url s = Some url ->
  exists body, In (Posted url body) (exec_run s occ job t t' names (Err m) cancelled)
    /\ In (match infer host_of url with FormatJson => m | _ => truncate m 200 end) (strings_of body).
Proof.
  intros Hu. set (rep := report_of s occ job t t' names (Err m) cancelled).
  exists (payload_for uuid_text rfc3339 (infer host_of url) rep). split.
  - unfold execute. fold rep. rewrite Hu. rewrite !in_app_iff. do 3 right. left. by left.
  - assert (He : rp_error rep = Some m) by reflexivity. clearbody rep.
    unfold payload_for. destruct (infer host_of url).
    + unfold report_value. rewrite He. cbn [strings_of j_opt flat_map snd]. rewrite !in_app_iff. simpl. tauto.
    + cbn [strings_of flat_map snd body to_notification]. rewrite He. rewrite !in_app_iff. simpl. tauto.
    + cbn [strings_of flat_map snd body to_notification]. rewrite He. rewrite !in_app_iff. simpl. tauto.
Qed.
End Ends.

(** The error a notification shows is the error, or as much of its beginning as makes
    two hundred characters with the sign that there was more. *)
Theorem notifications_fit e : let shown := truncate e 200 in
  (count_chars shown <= 200)%nat
  /\ (shown = e \/ exists r p, e = (p ++ r)%string /\ shown = (p ++ ELLIPSIS)%string).
Proof.
  intros shown. unfold shown, truncate. destruct (count_chars e <=? 200)%nat eqn:E.
  - split; [by apply Nat.leb_le|by left].
  - split.
    + rewrite count_app. pose proof (take_count (200 - 1) e). change (count_chars ELLIPSIS) with 1%nat. lia.
    + right. destruct (take_prefix (200 - 1) e) as [r Hr]. by exists r, (take_chars (200 - 1) e).
Qed.

(** A host is taken for Teams by how its name ends, not by the domain it is in. *)
Theorem a_lookalike_host_gets_cards :
  infer (fun _ => Some "alerts.myoffice.com") "https://alerts.myoffice.com/hook" = FormatTeams.
Proof. reflexivity. Qed.

(** ** A run that could not read its key *)

Definition posting : Schedule :=
  let s := sample_schedule Schedule.KindSync None true in
  mk_schedule (sch_id s) (sch_name s) (sch_kind s) (plan_id s) (sch_dest_profile_id s) (pipeline_id s) (cron s) (timezone s)
    (sch_enabled s) (action s) (Some "https://example.com/hook") (notify s) (catch_up s) (last_run_at s) (last_outcome s)
    (last_job_id s) (sch_created_at s) (sch_updated_at s).

Definition no_host (url : string) : option string := None.
Definition accepting (url : string) (body : Json) : Answer := Ok (200, None).
Definition some_names : Names := mk_names "orders" None "shop".

(** The text [TunnelError] gives for a key file. *)
Definition key_failure : string := "could not read private key /Users/ada/.ssh/prod_ed25519: permission denied".

Lemma a_failed_run_sends_its_error_witness : exists body,
  In (Posted "https://example.com/hook" body)
    (execute (fun id => show (Z.of_N id)) (fun s => s) show no_host accepting (fun _ => None) posting None 7%N 0 5 some_names (Err key_failure) false)
  /\ In key_failure (strings_of body).
Proof.
  exact (a_failed_run_sends_its_error (fun id => show (Z.of_N id)) (fun s => s) show no_host accepting (fun _ => None) posting None 7%N 0 5 some_names
    key_failure false "https://example.com/hook" eq_refl).
Defined.

Lemma reports_name_no_directory_witness : contains_char "/" "shop.sql.gz" = false.
Proof.
  exact (reports_name_no_directory (fun _ => None) posting None 7%N 0 5 some_names
    (Ok (mk_run_result Success (Some "/Users/ada/Backups/shop.sql.gz") None None 0 None)) false "shop.sql.gz" eq_refl).
Defined.
