(* ===== verification/Running.v ===== *)
(** * Running: jobs the application starts (apps/desktop commands.rs), and the list of
      those that are active

    A command that starts a job checks what can be checked, makes the job's context
    and registers it, writes the start of its record, and leaves the work to a task;
    the task completes the record and takes the job from the list.  The work itself is
    an argument: how it ended. *)

From Stdlib Require Import ZArith Lia Ascii String List Bool.
From stdpp Require Import base list gmap strings relations.
From S2P Require Import Prelude Text Domain Time Job Step History Verify Backup Restore Mask Plan Pipeline Ops PipelineRun Schedule ScheduledRun Database Consistency Desktop.
Import ListNotations.
Open Scope string_scope.
Open Scope list_scope.
Open Scope Z_scope.

(** ** State *)

Record App := mk_app {
  registry : JobRegistry;
  tokens : Tokens;
  jobs : Jobs;
  active : list JobContext;
  finished : list (Uuid * JobOutcome) }.

(** ** Starting *)

Record Started := mk_started { s_kind_ : JobKind; s_source : Uuid; s_dest : option Uuid; s_options : string }.

Section Start.
Context `{Calendar} `{Platform}.
(** [to_rfc3339], and the two reads of the store. *)
Variable rfc3339 : Z -> string.
Variable require_profile : Uuid -> result ConnectionProfile StoreError.
Variable require_pipeline : Uuid -> result Pipeline StoreError.
Variable list_profiles : result (list ConnectionProfile) StoreError.
(** The text serde_json makes of a request. *)
Variable backup_options : BackupRequest -> string.
Variable restore_options : RestoreRequest -> string.
Variable sync_options : SyncRequest -> string.

(** Registered, then recorded: a record that cannot be written is an error, and the job
    is registered by then. *)
Definition launch (a : App) (id : Uuid) (tok : N) (s : Started) (now : Z) : result Uuid CommandError * App :=
  let ctx := build_context id tok in
  let registered := register (registry a) ctx in
  match History.record_start (jobs a) ctx (s_kind_ s) (s_source s) (s_dest s) (s_options s) now with
  | (Err e, h) => (Err (new_error "storage" (Ops.op_error_text str_debug uuid_text (OpStore (StoreText e)))),
                   mk_app registered (tokens a) h (active a) (finished a))
  | (Ok _, h) => (Ok id, mk_app registered (tokens a) h (active a ++ [ctx]) (finished a))
  end.

Definition profile_or (id : Uuid) : result ConnectionProfile CommandError := map_err (require_profile id) of_store_error.

Definition check_backup (profile : Uuid) (request : BackupRequest) : result Started CommandError :=
  let? p := profile_or profile in
  let? _ := map_err (backup_validate request p) (fun e => new_error "invalid" (backup_error_text str_debug e)) in
  Ok (mk_started KindBackup profile None (backup_options request)).

Definition check_restore (profile : Uuid) (request : RestoreRequest) (manifest : option BackupManifest) (now : Z)
    : result Started CommandError :=
  let? p := profile_or profile in
  let? _ := map_err (restore_validate request p manifest now) (fun e => new_error "invalid" (restore_error_text str_debug e)) in
  Ok (mk_started KindRestore profile (Some profile) (restore_options request)).

Definition check_sync (source dest : Uuid) (request : SyncRequest) : result Started CommandError :=
  let? s := profile_or source in
  let? d := profile_or dest in
  let? _ := map_err (backup_validate (sy_backup request) s) (fun e => new_error "invalid" (backup_error_text str_debug e)) in
  let? _ := guard (negb (bool_decide (profile_engine s = profile_engine d)))
    (new_error "engine_mismatch" ("cannot sync a " ++ engine_debug (profile_engine s) ++ " source to a "
       ++ engine_debug (profile_engine d) ++ " destination")%string) in
  Ok (mk_started Domain.KindSync source (Some dest) (sync_options request)).

Definition first_profile (steps : list PipelineStep) : option Uuid := head (omap step_profile_id steps).
Definition last_profile (steps : list PipelineStep) : option Uuid := head (omap step_profile_id (rev steps)).

Definition check_pipeline (id : Uuid) (options : Pipeline -> string) : result Started CommandError :=
  let? p := map_err (require_pipeline id) of_store_error in
  let? profiles := map_err list_profiles of_store_error in
  let? _ := map_err (validate_against p profiles) (fun e => new_error "invalid" (pipeline_error_text str_debug e)) in
  let? source := ok_or (first_profile (p_steps p)) (new_error "invalid" "this pipeline touches no connection") in
  Ok (mk_started Domain.KindSync source (last_profile (p_steps p)) (options p)).

Definition start_checked (a : App) (id : Uuid) (tok : N) (now : Z) (c : result Started CommandError)
    : result Uuid CommandError * App :=
  match c with
  | Ok s => launch a id tok s now
  | Err e => (Err e, a)
  end.

Definition start_backup a id tok now profile request := start_checked a id tok now (check_backup profile request).
Definition start_restore a id tok now profile request manifest := start_checked a id tok now (check_restore profile request manifest now).
Definition start_sync a id tok now source dest request := start_checked a id tok now (check_sync source dest request).
Definition start_pipeline a id tok now pipeline options := start_checked a id tok now (check_pipeline pipeline options).

(** ** Ending *)

Definition error_outcome (is_cancelled : bool) : JobOutcome := if is_cancelled then Cancelled else Failed.

(** The outcome, the artifact, and the last line of the log. *)
Record Ending := mk_ending { e_outcome : JobOutcome; e_artifact : option string; e_error : option string; e_line : option string }.

Definition ended_in (e : OpError) (is_cancelled : bool) : Ending :=
  mk_ending (error_outcome is_cancelled) None (Some (Ops.op_error_text str_debug uuid_text e)) None.

Definition backup_ending (r : result string OpError) (is_cancelled : bool) : Ending :=
  match r with
  | Ok path => mk_ending Success (Some path) None None
  | Err e => ended_in e is_cancelled
  end.

Definition restore_ending (r : result string OpError) (is_cancelled : bool) : Ending :=
  match r with
  | Ok target => mk_ending Success None None (Some ("restored into " ++ target)%string)
  | Err e => ended_in e is_cancelled
  end.

Definition sync_ending (r : result SyncOutcome OpError) (is_cancelled : bool) : Ending :=
  match r with
  | Ok o =>
      if none_or_passed (so_verification o) then mk_ending Success (Some (so_artifact_path o)) None None
      else mk_ending Failed (Some (so_artifact_path o)) (Some "the data was restored but verification found discrepancies") None
  | Err e => ended_in e is_cancelled
  end.

Definition pipeline_ending (r : result PipelineOutcome OpError) (is_cancelled : bool) : Ending :=
  match r with
  | Ok done =>
      if fully_succeeded done then mk_ending Success (last (po_artifacts done)) None None
      else mk_ending Failed (last (po_artifacts done)) (Some "the pipeline ran but not every step did what it claimed") None
  | Err e => ended_in e is_cancelled
  end.

(** [push_artifact_offsite] has no record, and asks nobody whether it was cancelled. *)
Definition push_ending (r : result (list PushResult) OpError) : JobOutcome * option string :=
  match r with
  | Ok results =>
      match push_failures results with
      | [] => (Success, None)
      | l => (Failed, Some (show (Z.of_nat (length l)) ++ " destination(s) failed")%string)
      end
  | Err e => (Failed, Some (Ops.op_error_text str_debug uuid_text e))
  end.

(** The last lines of the log, written before the record is completed. *)
Definition close_log (c : JobContext) (e : Ending) (now : Z) : JobContext :=
  let c := match e_line e with Some m => emit rfc3339 c now Done m | None => c end in
  match e_error e with Some m => emit_error rfc3339 c now Done m | None => c end.

(** A job that ended: its log, its record, the list, the event. *)
Definition end_job (a : App) (c : JobContext) (e : Ending) (now : Z) : App :=
  mk_app (unregister (registry a) (job_id c)) (tokens a)
    (snd (History.record_finish (jobs a) (close_log c e now) (e_outcome e) (e_artifact e) now))
    (List.filter (fun d => negb (N.eqb (job_id d) (job_id c))) (active a))
    (finished a ++ [(job_id c, e_outcome e)]).
End Start.

Definition cancel_job (a : App) (id : Uuid) : bool * App :=
  let '(found, t) := registry_cancel (registry a) (tokens a) id in
  (found, mk_app (registry a) t (jobs a) (active a) (finished a)).

Definition active_job_ids (a : App) : list Uuid := active_ids (registry a).

Section Life.
Context `{Platform}.
Variable rfc3339 : Z -> string.

(** ** Over time *)

(** An id and a token that no job has had: both are fresh when a job starts. *)
Record unused (a : App) (id : Uuid) (tok : N) : Prop := {
  unused_id : registry a !! id = None /\ job_rows (jobs a) !! id = None;
  unused_by : Forall (fun c => job_id c <> id /\ token c <> tok) (active a);
  unused_token : (forall i, registry a !! i <> Some tok) /\ tok ∉ tokens a }.

(** What one step of the application does.  Told apart: the start of a job whose record
    could not be written. *)
Inductive AppStep : bool -> App -> App -> Prop :=
| as_starts a id tok s now : unused a id tok ->
    AppStep (negb (is_ok (fst (launch a id tok s now)))) a (snd (launch a id tok s now))
| as_works a l1 c c' l2 st : active a = l1 ++ c :: l2 -> job_id c' = job_id c -> token c' = token c ->
    AppStep false a (mk_app (registry a) (tokens a) (mk_jobs (job_rows (jobs a)) st) (l1 ++ c' :: l2) (finished a))
| as_cancelled a id : AppStep false a (snd (cancel_job a id))
| as_ends a c e now : In c (active a) -> AppStep false a (end_job rfc3339 a c e now).

Definition recorded_step : App -> App -> Prop := AppStep false.
Definition app_step (a a' : App) : Prop := exists b, AppStep b a a'.
Definition idle (h : Jobs) : App := mk_app ∅ ∅ h [] [].

(** The ends of jobs, in the order they come. *)
Definition drain (l : list (JobContext * Ending * Z)) (a : App) : App :=
  fold_left (fun a '(c, e, now) => end_job rfc3339 a c e now) l a.

(** The list is of the jobs that run, each with its own token, and each has a row that
    says it runs. *)
Record sound (a : App) : Prop := {
  sound_ids : NoDup (map job_id (active a));
  sound_tokens : NoDup (map token (active a));
  sound_registry : forall id tok, registry a !! id = Some tok <-> exists c, In c (active a) /\ job_id c = id /\ token c = tok;
  sound_rows : Forall (fun c => exists r, job_rows (jobs a) !! job_id c = Some r /\ job_outcome r = None) (active a) }.

Lemma close_log_same c e now : job_id (close_log rfc3339 c e now) = job_id c.
Proof. unfold close_log. by destruct (e_line e), (e_error e). Qed.

Lemma same_job (l : list JobContext) c d : NoDup (map job_id l) -> In c l -> In d l -> job_id c = job_id d -> c = d.
Proof.
  induction l as [|x l IH]; [done|]. cbn [map]. intros [Hx Hl]%NoDup_cons [->|Hc] [->|Hd] E; [done|..|by apply IH].
  - destruct Hx. rewrite E. apply list_elem_of_In. by apply in_map.
  - destruct Hx. rewrite <- E. apply list_elem_of_In. by apply in_map.
Qed.

Lemma nodup_filter {A} (f : JobContext -> A) (p : JobContext -> bool) l : NoDup (map f l) -> NoDup (map f (List.filter p l)).
Proof.
  induction l as [|x l IH]; [done|]. simpl. intros [Hx Hl]%NoDup_cons.
  destruct (p x); [|by apply IH]. simpl. apply NoDup_cons. split; [|by apply IH].
  rewrite list_elem_of_In, in_map_iff in Hx |- *. intros (y & E & [Hy _]%filter_In). apply Hx. by exists y.
Qed.

Lemma in_active_ids a id : In id (active_job_ids a) <-> exists tok, registry a !! id = Some tok.
Proof.
  unfold active_job_ids, active_ids. rewrite in_map_iff. split.
  - intros ([i tok] & <- & Hi). exists tok. by apply elem_of_map_to_list, list_elem_of_In.
  - intros [tok Hr]. exists (id, tok). split; [done|]. by apply list_elem_of_In, elem_of_map_to_list.
Qed.

Lemma launched a id tok s now u a' : launch a id tok s now = (Ok u, a') ->
  u = id /\ registry a' = <[id := tok]> (registry a) /\ tokens a' = tokens a /\ active a' = active a ++ [build_context id tok]
  /\ job_rows (jobs a') = <[id := mk_job id (s_kind_ s) (s_source s) (s_dest s) now None None None (s_options s) ""]> (job_rows (jobs a)).
Proof.
  unfold launch, History.record_start, insert_job, write_job. destruct (Step.write _ _) as [[x|e] st]; [|done].
  simpl job_record_id. destruct (job_rows (jobs a) !! id); [done|]. by intros [= <- <-].
Qed.

Lemma not_launched a id tok s now e a' : launch a id tok s now = (Err e, a') ->
  registry a' = <[id := tok]> (registry a) /\ active a' = active a.
Proof.
  unfold launch. destruct (History.record_start _ _ _ _ _ _ _) as [[x|f] h]; [done|]. by intros [= _ <-].
Qed.

Lemma ended_elsewhere a c e now id : job_id c <> id ->
  job_rows (jobs (end_job rfc3339 a c e now)) !! id = job_rows (jobs a) !! id.
Proof.
  intros N. apply (does_other (jobs a) (Ends (close_log rfc3339 c e now) (e_outcome e) (e_artifact e) now)).
  simpl. by rewrite close_log_same.
Qed.

Lemma still_active a c e now d : In d (active (end_job rfc3339 a c e now)) <-> In d (active a) /\ job_id d <> job_id c.
Proof. simpl. rewrite filter_In. by rewrite negb_true_iff, N.eqb_neq. Qed.

Lemma launch_sound a id tok s now : unused a id tok -> is_ok (fst (launch a id tok s now)) = true -> sound a ->
  sound (snd (launch a id tok s now)).
Proof.
  intros U Hok So. destruct (launch a id tok s now) as [[u|e] a'] eqn:E; [|done].
  apply launched in E as (-> & Er & Et & Ea & Ej). destruct U as [[Hr Hj] Hb [Ht Ht']], So as [Si St Sr Sw]. cbn [snd].
  rewrite Forall_forall in Hb. rewrite Forall_forall in Sw.
  split.
  - rewrite Ea, map_app. apply NoDup_app. split_and!; [done| |apply NoDup_singleton].
    intros i Hi ->%list_elem_of_singleton. apply list_elem_of_In, in_map_iff in Hi as (c & Ec & Hc).
    by destruct (Hb c (proj2 (list_elem_of_In _ _) Hc)).
  - rewrite Ea, map_app. apply NoDup_app. split_and!; [done| |apply NoDup_singleton].
    intros i Hi ->%list_elem_of_singleton. apply list_elem_of_In, in_map_iff in Hi as (c & Ec & Hc).
    by destruct (Hb c (proj2 (list_elem_of_In _ _) Hc)).
  - intros i t. rewrite Er, Ea, lookup_insert_Some. setoid_rewrite in_app_iff. rewrite Sr. split.
    + intros [[<- <-]|[N (c & Hc & Ec)]]; [exists (build_context id tok); split; [by right; left|done]|].
      exists c. split; [by left|done].
    + intros (c & [Hc|[<-|[]]] & Ei & Etk); [|by left]. right. split; [|by exists c].
      intros <-. by destruct (Hb c (proj2 (list_elem_of_In _ _) Hc)).
  - rewrite Ea, Ej. apply Forall_app. split; [|constructor; [|constructor]].
    + apply Forall_forall. intros c Hc. rewrite lookup_insert_ne; [by apply Sw|]. intros E. destruct (Hb c Hc). congruence.
    + eexists. by rewrite lookup_insert_eq.
Qed.

Lemma work_sound a l1 c c' l2 st : active a = l1 ++ c :: l2 -> job_id c' = job_id c -> token c' = token c -> sound a ->
  sound (mk_app (registry a) (tokens a) (mk_jobs (job_rows (jobs a)) st) (l1 ++ c' :: l2) (finished a)).
Proof.
  intros Ea Ei Et [Si St Sr Sw]. rewrite Ea in *. split; cbn [active registry jobs job_rows].
  - rewrite map_app in Si |- *. cbn [map] in Si |- *. by rewrite Ei.
  - rewrite map_app in St |- *. cbn [map] in St |- *. by rewrite Et.
  - intros id tok. rewrite Sr. setoid_rewrite in_app_iff. cbn [In]. split.
    + intros (d & [Hd|[<-|Hd]] & E1 & E2); [exists d; tauto| |exists d; tauto]. exists c'. rewrite Ei, Et. tauto.
    + intros (d & [Hd|[<-|Hd]] & E1 & E2); [exists d; tauto| |exists d; tauto]. exists c. rewrite <- Ei, <- Et. tauto.
  - rewrite Forall_app, Forall_cons in Sw |- *. by rewrite Ei.
Qed.

Lemma end_sound a c e now : In c (active a) -> sound a -> sound (end_job rfc3339 a c e now).
Proof.
  intros Hc [Si St Sr Sw]. split.
  - by apply nodup_filter.
  - by apply nodup_filter.
  - intros id tok. cbn [registry end_job]. unfold unregister. rewrite lookup_delete_Some, Sr. split.
    + intros [N (d & Hd & <- & <-)]. exists d. rewrite still_active. split_and!; [done|congruence|done..].
    + intros (d & [Hd Nd]%still_active & <- & <-). split; [congruence|by exists d].
  - rewrite Forall_forall in Sw |- *. intros d Hd. apply list_elem_of_In, still_active in Hd as [Hd Nd].
    rewrite ended_elsewhere by congruence. by apply Sw, list_elem_of_In.
Qed.

Lemma recorded_step_sound a a' : recorded_step a a' -> sound a -> sound a'.
Proof.
  unfold recorded_step. intros S. remember false as b eqn:Eb. destruct S.
  - apply launch_sound; [done|]. by destruct (is_ok _).
  - by apply (work_sound _ _ c).
  - intros So. unfold cancel_job. destruct (registry_cancel _ _ _). by destruct So.
  - by apply end_sound.
Qed.

Lemma idle_sound h : sound (idle h).
Proof. split; cbn; [constructor..| |constructor]. intros id tok. split; [done|]. by intros (c & [] & _). Qed.

Lemma reachable_sound h a : rtc recorded_step (idle h) a -> sound a.
Proof.
  intros R. cut (sound (idle h)); [|apply idle_sound].
  induction R as [|x y z S R IH]; [done|]. intros So. by apply IH, (recorded_step_sound x).
Qed.

Lemma same_token a c d : sound a -> In c (active a) -> In d (active a) -> token c = token d -> job_id c = job_id d.
Proof.
  intros [Si St Sr Sw] Hc Hd E. destruct (proj2 (Sr (job_id c) (token c))) as []; [by exists c|].
  clear Sr Sw Si. induction (active a) as [|x l IH]; [done|]. cbn [map] in St. apply NoDup_cons in St as [Hx Hl].
  rewrite list_elem_of_In, in_map_iff in Hx. destruct Hc as [->|Hc], Hd as [->|Hd]; [done|..|by apply IH].
  - destruct Hx. by exists d.
  - destruct Hx. by exists c.
Qed.

Lemma drain_elsewhere l a id : Forall (fun x => job_id (fst (fst x)) <> id) l ->
  job_rows (jobs (drain l a)) !! id = job_rows (jobs a) !! id.
Proof.
  intros F. revert a. induction F as [|[[c e] now] l N _ IH]; intros a; [done|]. cbn [drain fold_left].
  change (fold_left _ l ?b) with (drain l b). rewrite IH. by apply ended_elsewhere.
Qed.

Lemma ended_row a c e now r : History.quiet (jobs a) -> job_rows (jobs a) !! job_id c = Some r ->
  History.quiet (jobs (end_job rfc3339 a c e now))
  /\ job_rows (jobs (end_job rfc3339 a c e now)) !! job_id c
     = Some (finished_record (e_outcome e) (e_artifact e) (log (close_log rfc3339 c e now)) now r).
Proof.
  intros Q E. cbn [end_job jobs].
  destruct (finish_quiet (jobs a) (close_log rfc3339 c e now) (e_outcome e) (e_artifact e) now Q) as (l & ->).
  rewrite close_log_same, E. split; [done|]. by rewrite <- lookup_insert_eq with (m := job_rows (jobs a)) (i := job_id c).
Qed.

Lemma NoDup_map_inv' {A B} (f : A -> B) l : NoDup (map f l) -> NoDup l.
Proof. rewrite !NoDup_ListNoDup. apply NoDup_map_inv. Qed.

(** From the application's start, while records can be written: the active jobs it
    lists are exactly those that run, a cancellation is answered with true exactly for
    one of them, and then cancels that job and no other. *)
Theorem cancelling_reaches_one_running_job h a id :
  rtc recorded_step (idle h) a ->
  (In id (active_job_ids a) <-> exists c, In c (active a) /\ job_id c = id)
  /\ (fst (cancel_job a id) = true <-> exists c, In c (active a) /\ job_id c = id)
  /\ Forall (fun c => is_cancelled (tokens (snd (cancel_job a id))) c = is_cancelled (tokens a) c || N.eqb (job_id c) id) (active a).
Proof.
  intros R. apply reachable_sound in R as So. pose proof (sound_registry _ So) as Sr. split_and!.
  - rewrite in_active_ids. setoid_rewrite Sr. naive_solver.
  - unfold cancel_job, registry_cancel. destruct (registry a !! id) as [tok|] eqn:E; cbn [fst]; split; try done.
    + intros _. apply Sr in E as (c & Hc & Ec & _). by exists c.
    + intros (c & Hc & Ec). enough (registry a !! id = Some (token c)) by congruence. apply Sr. by exists c.
  - apply Forall_forall. intros c Hc%list_elem_of_In. unfold cancel_job, registry_cancel, is_cancelled.
    destruct (registry a !! id) as [tok|] eqn:E; cbn [snd tokens].
    + apply Sr in E as (d & Hd & <- & <-). destruct (N.eqb_spec (job_id c) (job_id d)) as [Ei|Ei].
      * rewrite orb_true_r, (same_job _ c d (sound_ids _ So) Hc Hd Ei). apply bool_decide_eq_true. set_solver.
      * rewrite orb_false_r. apply bool_decide_ext. rewrite elem_of_union, elem_of_singleton. split; [|by right].
        intros [Et|?]; [|done]. by destruct Ei; apply (same_token a).
    + destruct (N.eqb_spec (job_id c) id) as [<-|]; [|by rewrite orb_false_r].
      enough (registry a !! job_id c = Some (token c)) by congruence. apply Sr. by exists c.
Qed.

(** *** Whether or not starts could be recorded *)

(** Each running job has its own id, is in the registry, and has a row. *)
Record steady (a : App) : Prop := {
  steady_ids : NoDup (map job_id (active a));
  steady_listed : Forall (fun c => registry a !! job_id c = Some (token c)) (active a);
  steady_rows : Forall (fun c => is_some (job_rows (jobs a) !! job_id c) = true) (active a) }.

(** The start of job [id] could not be recorded, on the way to [a]. *)
Definition unrecorded_before (h : Jobs) (id : Uuid) (a : App) : Prop :=
  exists b tok s now e, rtc app_step (idle h) b /\ unused b id tok
    /\ fst (launch b id tok s now) = Err e /\ rtc app_step (snd (launch b id tok s now)) a.

(** What is listed runs, or could not be recorded. *)
Definition listed (h : Jobs) (a : App) : Prop :=
  forall id, is_some (registry a !! id) = true ->
    (exists c, In c (active a) /\ job_id c = id) \/ unrecorded_before h id a.

Lemma not_launched_rows a id tok s now e a' : launch a id tok s now = (Err e, a') -> job_rows (jobs a') = job_rows (jobs a).
Proof.
  unfold launch, History.record_start, insert_job, write_job. destruct (Step.write _ _) as [[x|f] st]; [|by intros [= _ <-]].
  simpl job_record_id. destruct (job_rows (jobs a) !! id); [by intros [= _ <-]|done].
Qed.

Lemma launch_steady a id tok s now : unused a id tok -> steady a -> steady (snd (launch a id tok s now)).
Proof.
  intros [[Hr Hj] Hb _] [Si Sl Sw]. rewrite Forall_forall in Hb, Sl, Sw.
  assert (Hne : forall c, In c (active a) -> job_id c <> id).
  { intros c Hc. by apply Hb, list_elem_of_In. }
  destruct (launch a id tok s now) as [[u|e] a'] eqn:E; cbn [snd].
  - apply launched in E as (_ & Er & _ & Ea & Ej). split.
    + rewrite Ea, map_app. apply NoDup_app. split_and!; [done| |apply NoDup_singleton].
      intros i Hi ->%list_elem_of_singleton. apply list_elem_of_In, in_map_iff in Hi as (c & Ec & Hc). by apply (Hne c).
    + rewrite Ea, Er. apply Forall_app. split; [|constructor; [apply lookup_insert_eq|constructor]].
      apply Forall_forall. intros c Hc. rewrite lookup_insert_ne; [by apply Sl|]. intros E0. by apply (Hne c); [apply list_elem_of_In|].
    + rewrite Ea, Ej. apply Forall_app. split; [|constructor; [by rewrite lookup_insert_eq|constructor]].
      apply Forall_forall. intros c Hc. rewrite lookup_insert_ne; [by apply Sw|]. intros E0. by apply (Hne c); [apply list_elem_of_In|].
  - pose proof (not_launched_rows _ _ _ _ _ _ _ E) as Ej. apply not_launched in E as [Er Ea].
    split; rewrite ?Ea, ?Er, ?Ej; [done| |by apply Forall_forall].
    apply Forall_forall. intros c Hc. rewrite lookup_insert_ne; [by apply Sl|]. intros E0. by apply (Hne c); [apply list_elem_of_In|].
Qed.

Lemma end_steady a c e now : steady a -> steady (end_job rfc3339 a c e now).
Proof.
  intros [Si Sl Sw]. rewrite Forall_forall in Sl, Sw. split.
  - by apply nodup_filter.
  - apply Forall_forall. intros d [Hd Nd]%list_elem_of_In%still_active. cbn [registry end_job]. unfold unregister.
    rewrite lookup_delete_ne by congruence. by apply Sl, list_elem_of_In.
  - apply Forall_forall. intros d [Hd Nd]%list_elem_of_In%still_active. rewrite ended_elsewhere by congruence. by apply Sw, list_elem_of_In.
Qed.

Lemma step_steady a a' : app_step a a' -> steady a -> steady a'.
Proof.
  intros [b S] So. destruct S as [a id tok s now U|a l1 c c' l2 st E Ei Et|a id|a c e now Hc].
  - by apply launch_steady.
  - destruct So as [Si Sl Sw]. rewrite E in Si, Sl, Sw. split; cbn [active registry jobs job_rows].
    + rewrite map_app in Si |- *. cbn [map] in Si |- *. by rewrite Ei.
    + rewrite Forall_app, Forall_cons in Sl |- *. by rewrite Ei, Et.
    + rewrite Forall_app, Forall_cons in Sw |- *. by rewrite Ei.
  - unfold cancel_job. destruct (registry_cancel _ _ _). by destruct So.
  - by apply end_steady.
Qed.

Lemma unrecorded_step h id a a' : app_step a a' -> unrecorded_before h id a -> unrecorded_before h id a'.
Proof.
  intros S (b & tok & s & now & e & R & U & E & R'). exists b, tok, s, now, e. split_and!; try done.
  eapply rtc_r; [exact R'|exact S].
Qed.

Lemma step_listed h a a' : rtc app_step (idle h) a -> app_step a a' -> listed h a -> listed h a'.
Proof.
  intros R S L id Hid.
  assert (Hk : is_some (registry a !! id) = true ->
    (forall c, In c (active a) -> job_id c = id -> exists c', In c' (active a') /\ job_id c' = id) ->
    (exists c, In c (active a') /\ job_id c = id) \/ unrecorded_before h id a').
  { intros Hr Hc. destruct (L id Hr) as [(c & Hi & Ec)|Hu]; [left; by eapply Hc|right; by eapply unrecorded_step]. }
  destruct S as [b S]. destruct S as [a id' tok s now U|a l1 c c' l2 st E Ei Et|a id'|a c e now Hc].
  - destruct (launch a id' tok s now) as [[u|e] a'] eqn:El; cbn [snd] in *.
    + pose proof (launched _ _ _ _ _ _ _ El) as (_ & Er & _ & Ea & _). rewrite Er in Hid. rewrite Ea in *.
      destruct (decide (id = id')) as [->|N].
      * left. exists (build_context id' tok). split; [apply in_app_iff; right; by left|done].
      * rewrite lookup_insert_ne in Hid by done. apply Hk; [done|]. intros c Hi Ec. exists c. split; [apply in_app_iff; by left|done].
    + pose proof (not_launched _ _ _ _ _ _ _ El) as (Er & Ea). rewrite Er in Hid.
      destruct (decide (id = id')) as [->|N].
      * right. exists a, tok, s, now, e. rewrite El. split_and!; try done.
      * rewrite lookup_insert_ne in Hid by done. apply Hk; [done|]. rewrite Ea. eauto.
  - apply Hk; [done|]. cbn [active]. intros d Hi Ed. rewrite E in Hi. apply in_app_iff in Hi as [Hi|[<-|Hi]].
    + exists d. split; [apply in_app_iff; by left|done].
    + exists c'. split; [apply in_app_iff; right; by left|congruence].
    + exists d. split; [apply in_app_iff; right; by right|done].
  - unfold cancel_job in *. destruct (registry_cancel _ _ _). apply Hk; [done|]. cbn. eauto.
  - cbn [registry end_job] in Hid. unfold unregister in Hid.
    destruct (decide (id = job_id c)) as [->|N]; [by rewrite lookup_delete_eq in Hid|].
    rewrite lookup_delete_ne in Hid by done. apply Hk; [done|]. intros d Hi Ed. exists d. rewrite still_active. split; [|done]. split; congruence.
Qed.

Lemma reachable_steady h a : rtc app_step (idle h) a -> steady a /\ listed h a.
Proof.
  intros R. pattern a. revert a R. apply rtc_ind_r.
  - split; [split; cbn; constructor|]. intros id. cbn. by rewrite lookup_empty.
  - intros y z Ry S [Sy Ly]. split; [by eapply step_steady|by eapply step_listed].
Qed.

Lemma steady_others a c e now cs : steady a -> Permutation (c :: cs) (active a) ->
  Permutation cs (active (end_job rfc3339 a c e now)).
Proof.
  intros [Si _ _] P. cbn [active end_job]. pose proof (NoDup_map_inv' _ _ Si) as Hn.
  assert (Forall (fun d => job_id d <> job_id c) cs /\ NoDup cs) as [Hc Hd].
  { rewrite <- P in Si. cbn [map] in Si. apply NoDup_cons in Si as [Hc Hd]. split; [|by eapply NoDup_map_inv'].
    apply Forall_forall. intros d Hin E. apply Hc. rewrite <- E.
    apply list_elem_of_In in Hin. apply list_elem_of_In. by apply in_map. }
  apply NoDup_Permutation; [done|by apply NoDup_ListNoDup, List.NoDup_filter, NoDup_ListNoDup|]. intros d.
  rewrite Forall_forall in Hc. rewrite (list_elem_of_In (List.filter _ _)), filter_In, negb_true_iff, N.eqb_neq, <- list_elem_of_In, <- P, elem_of_cons.
  naive_solver.
Qed.

Lemma drain_registry l a id : registry (drain l a) !! id = if decide (id ∈ map (fun x => job_id (fst (fst x))) l) then None else registry a !! id.
Proof.
  revert a. induction l as [|[[c e] now] l IH]; intros a; [done|]. cbn [drain fold_left].
  change (fold_left _ l ?b) with (drain l b). rewrite IH. cbn [registry end_job map fst]. unfold unregister.
  destruct (decide (job_id c = id)) as [<-|N].
  - rewrite lookup_delete_eq. destruct (decide _); rewrite decide_True by (by left); done.
  - rewrite lookup_delete_ne by done. destruct (decide (id ∈ map _ l)) as [Hi|Hn].
    + rewrite decide_True by (by right). done.
    + rewrite decide_False; [done|]. by intros [->|?]%elem_of_cons.
Qed.

Lemma drain_ends l a : steady a -> History.quiet (jobs a) -> Permutation (map (fun x => fst (fst x)) l) (active a) ->
  active (drain l a) = []
  /\ finished (drain l a) = finished a ++ map (fun '(c, e, _) => (job_id c, e_outcome e)) l
  /\ Forall (fun '(c, e, now) => exists r, get_job (jobs a) (job_id c) = Some r
        /\ get_job (jobs (drain l a)) (job_id c)
           = Some (finished_record (e_outcome e) (e_artifact e) (log (close_log rfc3339 c e now)) now r)) l.
Proof.
  revert a. induction l as [|[[c e] now] l IH]; intros a So Q P.
  - apply Permutation_nil_l in P. cbn [drain fold_left map]. rewrite app_nil_r. split_and!; [done|done|constructor].
  - cbn [map fst] in P. assert (Hc : In c (active a)) by (apply (Permutation_in c P); by left).
    pose proof (steady_rows _ So) as Sw. rewrite Forall_forall in Sw.
    specialize (Sw c (proj2 (list_elem_of_In _ _) Hc)). destruct (job_rows (jobs a) !! job_id c) as [r|] eqn:Hr; [|done].
    destruct (ended_row a c e now r Q Hr) as [Q' Hr'].
    destruct (IH (end_job rfc3339 a c e now)) as (Ea & Ef & Ew); [by apply end_steady|done|by apply steady_others|].
    cbn [drain fold_left]. change (fold_left _ l ?b) with (drain l b). split_and!; [done| |].
    + rewrite Ef. cbn [end_job finished map]. by rewrite <- app_assoc.
    + assert (N : Forall (fun x => job_id (fst (fst x)) <> job_id c) l).
      { pose proof (steady_ids _ So) as Si. rewrite <- P in Si. cbn [map] in Si. apply NoDup_cons in Si as [Hn _].
        apply Forall_forall. intros [[d f] t] Hd E. apply Hn. cbn in E. rewrite <- E. apply list_elem_of_In. rewrite map_map.
        apply in_map_iff. exists (d, f, t). split; [done|]. by apply list_elem_of_In. }
      constructor; [exists r; unfold get_job; split; [done|]; by rewrite drain_elsewhere|].
      rewrite Forall_forall in Ew, N |- *. intros [[d f] t] Hd. destruct (Ew _ Hd) as (q & Hq & Hq'). exists q. split; [|done].
      unfold get_job in Hq. rewrite ended_elsewhere in Hq; [done|]. intros E. by apply (N _ Hd).
Qed.

(** C21: no job that runs is left behind.  From any state of the application, once the
    database answers, the running jobs ending in any order and in any way leave no job
    running, tell the window of each exactly once and in that order, and leave each in
    the history with its outcome, its artifact and the whole of its log.  What is still
    listed then is what was listed without running, and the start of each of those jobs
    could not be recorded. *)
Theorem every_running_job_ends h a l :
  rtc app_step (idle h) a -> History.quiet (jobs a) -> Permutation (map (fun x => fst (fst x)) l) (active a) ->
  active (drain l a) = []
  /\ (forall id, In id (active_job_ids (drain l a)) <->
        In id (active_job_ids a) /\ ~ exists c, In c (active a) /\ job_id c = id)
  /\ (forall id, In id (active_job_ids (drain l a)) -> unrecorded_before h id a)
  /\ finished (drain l a) = finished a ++ map (fun '(c, e, _) => (job_id c, e_outcome e)) l
  /\ Forall (fun '(c, e, now) => exists r, get_job (jobs (drain l a)) (job_id c) = Some r
        /\ job_outcome r = Some (e_outcome e) /\ job_finished_at r = Some now
        /\ job_artifact_path r = e_artifact e /\ job_log r = log (close_log rfc3339 c e now)) l.
Proof.
  intros R Q P. destruct (reachable_steady h a R) as [So L]. destruct (drain_ends l a So Q P) as (Ea & Ef & Ew).
  assert (Hids : forall id, In id (map (fun x => job_id (fst (fst x))) l) <-> exists c, In c (active a) /\ job_id c = id).
  { intros id. rewrite <- (map_map (fun x => fst (fst x)) job_id), in_map_iff. split.
    - intros (c & <- & Hc). exists c. split; [by apply (Permutation_in c P)|done].
    - intros (c & Hc & <-). exists c. split; [done|]. by apply (Permutation_in c (Permutation_sym P)). }
  assert (Hlist : forall id, In id (active_job_ids (drain l a)) <->
        In id (active_job_ids a) /\ ~ exists c, In c (active a) /\ job_id c = id).
  { intros id. rewrite !in_active_ids, <- Hids. setoid_rewrite drain_registry.
    destruct (decide _) as [Hi|Hi]; rewrite list_elem_of_In in Hi; [|by intuition].
    split; [by intros [? [=]]|by intros [_ []]]. }
  split_and!; [done|done| |done|].
  - intros id [Hi Hn]%Hlist. apply in_active_ids in Hi as [tok Hr]. destruct (L id) as [?|?]; [by rewrite Hr|done|done].
  - eapply Forall_impl; [exact Ew|]. intros [[c e] now] (r & _ & Hr). by eexists.
Qed.

(** Nothing that happens later takes it from the list. *)
Lemma orphan_stays a a' id tok : rtc app_step a a' -> registry a !! id = Some tok -> Forall (fun c => job_id c <> id) (active a) ->
  registry a' !! id = Some tok /\ Forall (fun c => job_id c <> id) (active a').
Proof.
  intros R. induction R as [|x y z [b S] R IH]; [done|]. intros Hr Ha. apply IH; clear IH R z; destruct S as [x id' tok' s now U|x l1 c c' l2 st E Ei _|x id'|x c e now Hc].
  - assert (id' <> id) by (intros ->; destruct U as [[]]; congruence).
    destruct (launch x id' tok' s now) as [[u|e] x'] eqn:E; cbn [snd].
    + apply launched in E as (_ & -> & _). by rewrite lookup_insert_ne.
    + apply not_launched in E as (-> & _). by rewrite lookup_insert_ne.
  - done.
  - unfold cancel_job. by destruct (registry_cancel _ _ _).
  - cbn [registry end_job]. unfold unregister. rewrite Forall_forall in Ha. rewrite lookup_delete_ne; [done|].
    by apply Ha, list_elem_of_In.
  - assert (id' <> id) by (intros ->; destruct U as [[]]; congruence).
    destruct (launch x id' tok' s now) as [[u|e] x'] eqn:E; cbn [snd].
    + apply launched in E as (_ & _ & _ & -> & _). apply Forall_app. by repeat constructor.
    + by apply not_launched in E as (_ & ->).
  - cbn [active]. rewrite E, Forall_app, Forall_cons in Ha. rewrite Forall_app, Forall_cons, Ei. done.
  - unfold cancel_job. by destruct (registry_cancel _ _ _).
  - rewrite Forall_forall in Ha |- *. intros d Hd. apply Ha, list_elem_of_In. by apply list_elem_of_In, still_active in Hd as [Hd _].
Qed.

(** A job is registered before its record is written, and a record that cannot be
    written leaves it there: no task runs, and whatever the application does from then
    on the job is listed as active and can be cancelled, as no running job does. *)
Theorem an_unrecorded_start_stays_active a id tok s now e a' :
  unused a id tok -> fst (launch a id tok s now) = Err e -> rtc app_step (snd (launch a id tok s now)) a' ->
  In id (active_job_ids a') /\ fst (cancel_job a' id) = true /\ Forall (fun c => job_id c <> id) (active a').
Proof.
  intros U E R. destruct (launch a id tok s now) as [r b] eqn:El. cbn [fst snd] in *. subst r.
  apply not_launched in El as (Er & Ea). destruct (orphan_stays b a' id tok R) as [Hr Ha].
  - by rewrite Er, lookup_insert_eq.
  - rewrite Ea. destruct U as [_ U _]. eapply Forall_impl; [exact U|]. by intros c [].
  - split_and!; [rewrite in_active_ids; by exists tok| |done]. unfold cancel_job, registry_cancel. by rewrite Hr.
Qed.
End Life.

(** A sync whose restore was verified and whose off-site copies failed is a success
    when the window started it: the schedules' verdict on the same outcome is a failure. *)
Theorem a_sync_without_its_copies_succeeds `{Platform} o is_cancelled :
  none_or_passed (so_verification o) = true -> Exists (fun r => push_succeeded r = false) (so_offsite o) ->
  e_outcome (sync_ending (Ok o) is_cancelled) = Success
  /\ e_error (sync_ending (Ok o) is_cancelled) = None
  /\ sync_fully_succeeded o = false /\ judged (sync_problems o) = Failed.
Proof.
  intros V E. unfold sync_ending, sync_fully_succeeded, sync_problems. rewrite V. split_and!; [done|done| |].
  - simpl. apply Exists_exists in E as (r & Hr & E). apply not_true_is_false. rewrite forallb_forall.
    intros F. rewrite F in E; [done|]. by apply list_elem_of_In.
  - unfold push_failures. induction E as [r l E|r l E IH]; simpl; [by rewrite E|]. by destruct (push_succeeded r).
Qed.

(** ** An application *)

Definition clock (t : Z) : string := show t.
Definition asked (k : JobKind) : Started := mk_started k 7%N None "{}".

(** Two jobs started, the first cancelled. *)
Definition first_started : App := snd (launch (idle no_jobs) 1 10 (asked KindBackup) 100).
Definition both_started : App := snd (launch first_started 2 20 (asked KindVerify) 110).
Definition one_cancelled : App := snd (cancel_job both_started 1).

Lemma two_jobs_run : rtc (recorded_step clock) (idle no_jobs) one_cancelled.
Proof.
  eapply rtc_l; [apply (as_starts clock (idle no_jobs) 1 10 (asked KindBackup) 100)|].
  { split; [done|constructor|]. split; [intros i; cbn; by rewrite ?lookup_empty|set_solver]. }
  eapply rtc_l; [apply (as_starts clock first_started 2 20 (asked KindVerify) 110)|].
  { split; [done|by repeat constructor|]. split; [|set_solver]. intros i E. change ((<[1%N := 10%N]> (∅ : JobRegistry)) !! i = Some 20%N) in E.
    by apply lookup_insert_Some in E as [[_ ?]|[_ ?%lookup_empty_Some]]. }
  apply rtc_once, as_cancelled.
Qed.

Lemma recorded_app rfc (a a' : App) : rtc (recorded_step rfc) a a' -> rtc (app_step rfc) a a'.
Proof. induction 1 as [|x y z S _ IH]; [apply rtc_refl|]. eapply rtc_l; [by exists false|exact IH]. Qed.

Definition verdicts : list (JobContext * Ending * Z) :=
  [(build_context 2 20, mk_ending Success None None None, 200);
   (build_context 1 10, mk_ending Cancelled None (Some "job was cancelled") None, 210)].

Lemma cancelling_reaches_one_running_job_witness :
  fst (cancel_job both_started 1) = true /\ map (is_cancelled (tokens one_cancelled)) (active one_cancelled) = [true; false]
  /\ fst (cancel_job one_cancelled 3) = false.
Proof.
  pose proof (proj1 (proj2 (cancelling_reaches_one_running_job clock no_jobs one_cancelled 3%N two_jobs_run))) as H.
  split_and!; [vm_compute; reflexivity..|]. destruct (fst (cancel_job one_cancelled 3)); [|done].
  destruct (proj1 H eq_refl) as (c & [<-|[<-|[]]] & [=]).
Defined.

Lemma verdicts_cover : Permutation (map (fun x => fst (fst x)) verdicts) (active one_cancelled).
Proof. exact (perm_swap _ _ _). Qed.

Lemma every_running_job_ends_witness :
  finished (drain clock verdicts one_cancelled) = [(2%N, Success); (1%N, Cancelled)]
  /\ active_job_ids (drain clock verdicts one_cancelled) = [].
Proof.
  destruct (every_running_job_ends clock no_jobs one_cancelled verdicts (recorded_app _ _ _ two_jobs_run) eq_refl verdicts_cover)
    as (_ & A & _ & F & _).
  split; [rewrite F; reflexivity|]. destruct (active_job_ids _) as [|id ids]; [done|].
  destruct (proj1 (A id) (or_introl eq_refl)) as [Hid Hn]. destruct Hn.
  destruct Hid as [<-|[<-|[]]]; eexists (build_context _ _); (split; [|reflexivity]); first [by left|by right; left].
Defined.

(** The database locked when the job is recorded. *)
Definition locked : App := idle (mk_jobs ∅ (mk_store [] [Some "database error: database is locked"])).

Lemma an_unrecorded_start_stays_active_witness :
  fst (launch locked 1 10 (asked KindBackup) 100) = Err (new_error "storage" "database error: database is locked")
  /\ fst (cancel_job (snd (launch locked 1 10 (asked KindBackup) 100)) 1) = true.
Proof.
  split; [vm_compute; reflexivity|].
  apply (an_unrecorded_start_stays_active clock locked 1 10 (asked KindBackup) 100
           (new_error "storage" "database error: database is locked")).
  - split; [done|constructor|]. split; [intros i; cbn; by rewrite ?lookup_empty|set_solver].
  - vm_compute; reflexivity.
  - apply rtc_refl.
Defined.

Definition uploaded (error : option string) : PushResult :=
  mk_push 4%N "office" "s3://office" "app.sql.gz" "https://office/app.sql.gz" 10 error [].

Lemma a_sync_without_its_copies_succeeds_witness :
  let o := mk_sync_outcome "app.sql.gz" "app_copy" None None [] [uploaded (Some "timed out")] in
  e_outcome (sync_ending (Ok o) false) = Success /\ judged (sync_problems o) = Failed.
Proof.
  destruct (a_sync_without_its_copies_succeeds (mk_sync_outcome "app.sql.gz" "app_copy" None None [] [uploaded (Some "timed out")]) false)
    as (A & _ & _ & B); [reflexivity|by left|]. by split.
Defined.
