(* ===== verification/Headless.v ===== *)
(** * Headless: running a backup, a restore or a pipeline from the command line
      (engine-cli/src/main.rs)

    The commands call the operations the window calls, over the same history.  What an
    operation announces is heard by the job's context, and so is in the record's log.
    A command ends well or with a message; its exit code says which.  What is only
    printed is left out. *)

From Stdlib Require Import ZArith Lia Ascii String List Bool Permutation.
From stdpp Require Import base list gmap strings.
From S2P Require Import Prelude Text Time Domain Sql Backup Restore Library Verify Mask Plan Job Step Pipeline Ops PipelineRun Schedule ScheduledRun History Running.
Import ListNotations.
Open Scope string_scope.
Open Scope list_scope.
Open Scope Z_scope.

(** ** Finding a record by what was typed *)

Section Resolve.
Context {A : Type}.
(** [str::to_lowercase], [Uuid::parse_str], [{:?}] of a string, and the look-up by id. *)
Variable to_lowercase : string -> string.
Variable parse_uuid : string -> option Uuid.
Variable str_debug : string -> string.
Variable name : A -> string.
Variable by_id : Uuid -> result A string.
Variable none several : string.

Definition named_like (needle : string) (a : A) : bool := starts_with (to_lowercase needle) (to_lowercase (name a)).

Definition resolve_by (all : list A) (needle : string) : result A string :=
  match parse_uuid needle with
  | Some id => by_id id
  | None =>
      match List.filter (named_like needle) all with
      | [one] => Ok one
      | [] => Err ("no " ++ none)%string
      | many => Err (str_debug needle ++ " matches several " ++ several ++ ": " ++ join ", " (map name many))%string
      end
  end.
End Resolve.

(** ** Commands *)

(** A message for a person, or an abort. *)
Inductive Exit := Failure (m : string) | Aborted (why : string).

Record Cli (W : Type) := mk_cli { op : OpState W; jobs : Jobs }.
Arguments mk_cli {W} op jobs.
Arguments op {W} c.
Arguments jobs {W} c.

(** What the machine answers while a command runs. *)
Class Machine := {
  backups_dir : option string;                     (* in the application's directory *)
  make_dir : string -> result unit string;         (* [create_dir_all] *)
  is_file : string -> bool;
  read_manifest : string -> option BackupManifest }.

(** What a connection opened for its list of tables gives. *)
Inductive Trouble := NoConnection (text : string) | NoTables (text : string).

Class Lister (W : Type) := { open_and_list : ConnectionProfile -> string -> W -> result (list TableInfo) Trouble * W }.

Section Commands.
Context {W : Type}.

Definition Cmd (A : Type) : Type := Cli W -> result A Exit * Cli W.

Definition cret {A} (a : A) : Cmd A := fun s => (Ok a, s).
Definition bail {A} (m : string) : Cmd A := fun s => (Err (Failure m), s).
Definition cbind {A B} (m : Cmd A) (k : A -> Cmd B) : Cmd B :=
  fun s => match m s with (Ok a, s) => k a s | (Err e, s) => (Err e, s) end.

(** An operation, its [Result] in hand. *)
Definition call {A} (m : Op W A) : Cmd (result A OpError) :=
  fun s => match m (op s) with
           | (Ok a, o) => (Ok (Ok a), mk_cli o (jobs s))
           | (Err (Failed_ e), o) => (Ok (Err e), mk_cli o (jobs s))
           | (Err (Panicked why), o) => (Err (Aborted why), mk_cli o (jobs s))
           end.

Definition settle {A} (r : result A string) : Cmd A := match r with Ok a => cret a | Err m => bail m end.
Definition context {A} (o : option A) (m : string) : Cmd A := match o with Some a => cret a | None => bail m end.
Definition refuse_if (b : bool) (m : string) : Cmd unit := if b then bail m else cret tt.
End Commands.
Arguments Cmd W A : clear implicits.

Notation "'let&' x ':=' e 'in' k" := (cbind e (fun x => k)) (at level 10, x pattern, e at level 200, k at level 200).

Record BackupArgs := mk_backup_args {
  ba_profile : string;
  ba_database : option string;
  ba_dir : option string;
  ba_schema_only : list string;
  ba_exclude : list string;
  ba_encrypt : bool;
  ba_compress : bool;
  ba_count_rows : bool }.

Record RestoreArgs := mk_restore_args {
  ra_profile : string;
  ra_artifact : string;
  ra_new_prefix : option string;
  ra_replace : option string;
  ra_into : option string;
  ra_confirm : option string;
  ra_verify_checksum : bool;
  ra_only_tables : list string;
  ra_jobs : option Z;
  ra_clean : bool }.

Definition backup_selections (tables schema_only exclude : list string) : list TableSelection :=
  map (fun n => mk_sel n (if existsb (String.eqb n) exclude then Exclude
                          else if existsb (String.eqb n) schema_only then SchemaOnly
                          else SchemaAndData) None) tables.

Definition default_backup_options (e : Engine) : EngineBackupOptions :=
  match e with Mysql => BMysql mysql_default | Postgres => BPostgres postgres_default | Mongo => BMongo mongo_default end.

Definition table_text (t : TableInfo) : string :=
  match ti_schema t with Some schema => schema ++ "." ++ ti_name t | None => ti_name t end%string.

Definition target_naming (replace into new_prefix artifact_database : option string) : TargetNaming :=
  match replace, into, new_prefix with
  | Some name, None, None => DropAndRecreate name
  | None, Some name, None => IntoExisting name
  | None, None, Some prefix => NewTimestamped prefix
  | _, _, _ => NewTimestamped (default "restore" artifact_database)
  end.

Section Run.
Context {W : Type} `{Operations W} `{SchedulerOps W} `{Lister W} `{Machine} `{Calendar}.
Variable str_debug : string -> string.
Variable uuid_text : Uuid -> string.
Variable rfc3339 : Z -> string.
Variable to_lowercase : string -> string.
Variable parse_uuid : string -> option Uuid.
(** The job, and the text of a request in its record. *)
Variable job : Uuid.
Variable tok : N.
Variable backup_json : BackupRequest -> string.
Variable restore_json : RestoreRequest -> string.
Variable pipeline_json : Pipeline -> string.

Definition text (e : OpError) : string := Ops.op_error_text str_debug uuid_text e.

(** What the context has heard of the entries of an operation, at one moment. *)
Definition hear (now : Z) (c : JobContext) (e : Entry) : JobContext :=
  match e with
  | Emitted Warn p m => emit_warn rfc3339 c now p m
  | Emitted Error p m => emit_error rfc3339 c now p m
  | Emitted _ p m => emit rfc3339 c now p m
  | _ => c
  end.

Definition heard (now : Z) (l : list Entry) : JobContext := fold_left (hear now) l (build_context job tok).

Definition told (l : LogLevel) (p : JobPhase) (m : string) : Cmd W unit :=
  fun s => (Ok tt, mk_cli (mk_op (world (op s)) (trace (op s) ++ [Emitted l p m])) (jobs s)).

Definition started (kind : JobKind) (source : Uuid) (dest : option Uuid) (options : string) (now : Z)
    (explain : string -> string) : Cmd W unit :=
  fun s => match History.record_start (jobs s) (heard now (trace (op s))) kind source dest options now with
           | (Ok _, h) => (Ok tt, mk_cli (op s) h)
           | (Err e, h) => (Err (Failure (explain (text (OpStore (StoreText e))))), mk_cli (op s) h)
           end.

(** [let _ = record_finish(...)]. *)
Definition finish (o : JobOutcome) (artifact : option string) (now : Z) : Cmd W unit :=
  fun s => (Ok tt, mk_cli (op s) (snd (History.record_finish (jobs s) (heard now (trace (op s))) o artifact now))).

Definition reading {A} (m : Op W A) : Cmd W A :=
  let& r := call m in settle (map_err r text).

Definition resolve_profile (needle : string) : Cmd W ConnectionProfile :=
  match parse_uuid needle with
  | Some id =>
      let& found := reading (ask (get_profile id)) in
      settle (ok_or found (text (OpStore (Ops.ProfileNotFound id))))
  | None =>
      let& all := reading (invoke list_profiles) in
      settle (resolve_by to_lowercase parse_uuid str_debug profile_name (fun _ => Err "")
                ("connection matches " ++ str_debug needle ++ "; `dbsync profiles` lists them")%string "connections" all needle)
  end.

Definition directory_or (dir : option string) : Cmd W string :=
  match dir with
  | Some d => cret d
  | None => context backups_dir "could not determine the backup directory"
  end.

(** *** Backup *)

Definition introspect_table_names (p : ConnectionProfile) (database : string) : Cmd W (list string) :=
  fun s =>
    let '(r, w) := open_and_list p database (world (op s)) in
    let s := mk_cli (mk_op w (trace (op s))) (jobs s) in
    match r with
    | Ok l => (Ok (map table_text l), s)
    | Err (NoConnection e) => (Err (Failure ("could not connect: " ++ e)%string), s)
    | Err (NoTables e) => (Err (Failure ("could not read the table list: " ++ e)%string), s)
    end.

Fixpoint check_named (database : string) (tables named : list string) : Cmd W unit :=
  match named with
  | [] => cret tt
  | n :: named =>
      if existsb (String.eqb n) tables then check_named database tables named
      else bail (database ++ " has no table called " ++ str_debug n)%string
  end.

(** From the start of the record on.  A push that fails as a whole counts as no push. *)
Definition perform_backup (p : ConnectionProfile) (request : BackupRequest) (start end_ : Z) : Cmd W string :=
  let& _ := started KindBackup (profile_id p) None (backup_json request) start
              (fun e => ("could not record the job: " ++ e)%string) in
  let& result := call (attempt (DidBackup p request) (backup p request)) in
  let& offsite := match result with
                  | Ok artifact =>
                      let& pushed := call (attempt (DidPush artifact) (push_offsite artifact)) in
                      cret (match pushed with Ok l => l | Err _ => [] end)
                  | Err _ => cret []
                  end in
  let failures := push_failures offsite in
  let& outcome := match result, failures with
                  | Ok _, [] => cret Success
                  | Ok _, _ => cret Failed
                  | Err e, _ => let& _ := told Error Done (text e) in cret Failed
                  end in
  let& artifact := settle (map_err result text) in
  let& _ := finish outcome (Some artifact) end_ in
  match failures with
  | [] => cret artifact
  | _ => bail ("the artifact is on disk but the off-site copy failed: " ++ join "; " failures)%string
  end.

Definition run_backup (a : BackupArgs) (start end_ : Z) : Cmd W string :=
  let& p := resolve_profile (ba_profile a) in
  let& database := context (match ba_database a with Some d => Some d | None => db_database (db p) end)
                     "no database given and the profile does not name one; pass --database" in
  let& dir := directory_or (ba_dir a) in
  let& _ := settle (map_err (make_dir dir) (fun _ => ("could not create " ++ dir)%string)) in
  let& tables := introspect_table_names p database in
  let& _ := check_named database tables (ba_schema_only a ++ ba_exclude a) in
  let request := mk_backup (mk_common database (backup_selections tables (ba_schema_only a) (ba_exclude a)) dir
                              (ba_compress a) (ba_encrypt a) (ba_count_rows a))
                   (default_backup_options (profile_engine p)) in
  let& _ := settle (map_err (backup_validate request p) (backup_error_text str_debug)) in
  perform_backup p request start end_.

(** *** Restore *)

Definition restore_options (p : ConnectionProfile) (a : RestoreArgs) : result EngineRestoreOptions string :=
  match profile_engine p with
  | Mysql =>
      if negb (match ra_only_tables a with [] => true | _ => false end) || is_some (ra_jobs a) || ra_clean a
      then Err ("--only-table, --jobs and --clean are PostgreSQL options, and " ++ str_debug (profile_name p) ++ " is MySQL")%string
      else Ok (RMysql rmysql_default)
  | Postgres =>
      Ok (RPostgres (mk_rpostgres (r_no_owner rpostgres_default) (r_no_privileges rpostgres_default) (ra_jobs a)
                       (ra_only_tables a) (ra_clean a)))
  | Mongo =>
      if ra_clean a
      then Err ("--clean is a PostgreSQL option, and " ++ str_debug (profile_name p)
                ++ " is MongoDB. Use --replace to drop collections as they are restored.")%string
      else Ok (RMongo (mk_rmongo (drop_collections rmongo_default) (ra_only_tables a) (ra_jobs a)
                         (insertion_workers rmongo_default) (stop_on_error rmongo_default) (restore_indexes rmongo_default)
                         (bypass_document_validation rmongo_default)))
  end.

Definition perform_restore (p : ConnectionProfile) (request : RestoreRequest) (start end_ : Z) : Cmd W string :=
  let& _ := started KindRestore (profile_id p) (Some (profile_id p)) (restore_json request) start
              (fun e => ("could not record the job: " ++ e)%string) in
  let& result := call (attempt (DidRestore p request) (restore p request)) in
  let& outcome := match result with
                  | Ok _ => cret Success
                  | Err e => let& _ := told Error Done (text e) in cret Failed
                  end in
  let& _ := finish outcome (Some (artifact_path request)) end_ in
  settle (map_err result text).

Definition run_restore (a : RestoreArgs) (start end_ : Z) : Cmd W string :=
  let& p := resolve_profile (ra_profile a) in
  let& _ := refuse_if (negb (is_file (ra_artifact a))) (ra_artifact a ++ " is not a file")%string in
  let manifest := read_manifest (ra_artifact a) in
  let naming := target_naming (ra_replace a) (ra_into a) (ra_new_prefix a) (option_map manifest_database manifest) in
  let& engine := settle (restore_options p a) in
  let request := mk_restore (ra_artifact a) naming engine (ra_verify_checksum a) (ra_confirm a) in
  let& _ := settle (map_err (restore_validate request p manifest start) (restore_error_text str_debug)) in
  perform_restore p request start end_.

(** *** Pipelines *)

Definition same_text (a : option string) (t : string) : bool :=
  match a with Some ack => String.eqb ack t | None => false end.

Definition refused_headless (p : Pipeline) (confirm : list string) : option string :=
  match confirm, destructive_signature p with
  | [], Some targets =>
      if same_text (unattended_ack p) targets then None
      else Some (str_debug (p_name p) ++ " replaces " ++ replace_char newline ", " targets
                 ++ ". Pass --confirm with each name, or arm it in the app to let it run unattended")%string
  | _, _ => None
  end.

Definition headless_confirmations (p : Pipeline) (confirm : list string) : list string :=
  match confirm with [] => ack_confirmations p | _ => confirm end.

Definition perform_pipeline_now (p : Pipeline) (request : PipelineRunRequest) (start end_ : Z) : Cmd W PipelineOutcome :=
  let& source := context (first_profile (p_steps p)) "this pipeline touches no connection" in
  let& _ := started Domain.KindSync source (last_profile (p_steps p)) (pipeline_json p) start (fun e => e) in
  let& outcome := call (run_pipeline p request) in
  match outcome with
  | Err e =>
      let& _ := told Error Done (text e) in
      let& _ := finish Failed None end_ in
      bail (text e)
  | Ok done =>
      let& _ := finish (if fully_succeeded done then Success else Failed) (last (po_artifacts done)) end_ in
      if fully_succeeded done then cret done
      else bail "the pipeline ran but not every step did what it claimed"
  end.

Definition run_pipeline_now (p : Pipeline) (confirm : list string) (dir : option string) (start end_ : Z) : Cmd W PipelineOutcome :=
  match refused_headless p confirm with
  | Some m => bail m
  | None =>
      let& dir := directory_or dir in
      perform_pipeline_now p (mk_run_request (headless_confirmations p confirm) dir) start end_
  end.

(** *** Drills *)

Definition run_drill (needle : string) (dir : option string) (deep keep : bool) : Cmd W DrillOutcome :=
  let& p := resolve_profile needle in
  let& dir := directory_or dir in
  let request := mk_drill_request dir (default_restore_options (profile_engine p)) deep keep in
  let& r := call (attempt (DidDrill p request) (drill p request)) in
  let& o := settle (map_err r text) in
  if passed (do_report o) then cret o
  else bail ("drill FAILED: " ++ do_artifact o ++ " did not restore cleanly (" ++ show (failures (do_report o))
             ++ " problem(s))" ++ (if do_dropped o then "" else "; " ++ do_scratch_database o ++ " left in place"))%string.

(** *** Schedules *)

Definition report_outcome (o : option JobOutcome) : Cmd W unit :=
  match o with
  | Some Success => cret tt
  | Some Cancelled => bail "the run was cancelled"
  | Some Failed => bail "the run failed; `dbsync jobs` and the job log have the detail"
  | None => bail "the run finished without recording an outcome"
  end.
End Run.

(** ** Lemmas *)

Section Lemmas.
Context {W : Type} `{Operations W} `{SchedulerOps W} `{Lister W} `{Machine} `{Calendar}.
Variable str_debug : string -> string.
Variable uuid_text : Uuid -> string.
Variable rfc3339 : Z -> string.
Variable to_lowercase : string -> string.
Variable parse_uuid : string -> option Uuid.
Variable job : Uuid.
Variable tok : N.
Variable backup_json : BackupRequest -> string.
Variable restore_json : RestoreRequest -> string.
Variable pipeline_json : Pipeline -> string.

(** What only reads: it announces nothing and records nothing. *)
Definition reads {A} (m : Cmd W A) : Prop := forall s, trace (op (snd (m s))) = trace (op s) /\ jobs (snd (m s)) = jobs s.

Lemma reads_bind {A B} (m : Cmd W A) (k : A -> Cmd W B) : reads m -> (forall a, reads (k a)) -> reads (cbind m k).
Proof.
  intros Hm Hk s. unfold cbind. specialize (Hm s). destruct (m s) as [[a|e] s1]; [|done].
  destruct (Hk a s1) as [-> ->]. done.
Qed.

Lemma reads_settle {A} (r : result A string) : reads (settle r : Cmd W A).
Proof. by destruct r. Qed.

Lemma reads_context {A} (o : option A) m : reads (context o m : Cmd W A).
Proof. by destruct o. Qed.

Lemma reads_ask {A} (f : W -> result A OpError * W) : reads (call (ask f)).
Proof. intros s. unfold call, ask. destruct (f (world (op s))) as [[a|e] w]; done. Qed.

Lemma reads_invoke {A} (f : W -> result A Stop * W) : reads (call (invoke f)).
Proof. intros s. unfold call, invoke. destruct (f (world (op s))) as [[a|[e|why]] w]; done. Qed.

Lemma reads_reading {A} (m : Op W A) : reads (call m) -> reads (reading str_debug uuid_text m).
Proof. intros Hm. apply reads_bind; [done|intros r; apply reads_settle]. Qed.

Lemma reads_resolve needle : reads (resolve_profile str_debug uuid_text to_lowercase parse_uuid needle).
Proof.
  unfold resolve_profile. destruct (parse_uuid needle); (apply reads_bind; [apply reads_reading|intros; apply reads_settle]);
    [apply reads_ask|apply reads_invoke].
Qed.

Lemma reads_directory dir : reads (directory_or dir : Cmd W string).
Proof. destruct dir; [done|apply reads_context]. Qed.

(** A command that reads and then goes on. *)
Lemma after_reading {A B} (m : Cmd W A) (k : A -> Cmd W B) s r s' : reads m -> cbind m k s = (r, s') ->
  (exists a s1, k a s1 = (r, s') /\ trace (op s1) = trace (op s) /\ jobs s1 = jobs s /\ m s = (Ok a, s1))
  \/ (trace (op s') = trace (op s) /\ jobs s' = jobs s).
Proof.
  intros Hm. unfold cbind. specialize (Hm s). destruct (m s) as [[a|e] s1]; intros E.
  - left. exists a, s1. by destruct Hm.
  - right. by injection E as <- <-.
Qed.

Lemma settle_inv {A} (r : result A string) (s s1 : Cli W) a : settle r s = (Ok a, s1) -> r = Ok a /\ s1 = s.
Proof. by destruct r; intros [= -> ->]. Qed.

Lemma perform_restore_trace p request start end_ s :
  let s' := snd (perform_restore str_debug uuid_text rfc3339 job tok restore_json p request start end_ s) in
  trace (op s') = trace (op s) \/ exists l, trace (op s') = trace (op s) ++ DidRestore p request :: l
     /\ Forall (fun e => exists m, e = Emitted Error Done m) l.
Proof.
  unfold perform_restore, cbind, started. destruct (History.record_start _ _ _ _ _ _ _) as [[u|e] h]; [|by left].
  unfold call, attempt, bind, note, invoke. cbn [op world trace jobs].
  destruct (restore p request (world (op s))) as [[t|[e|why]] w]; right; cbn.
  - exists []. split; [done|constructor].
  - eexists. rewrite <- app_assoc. split; [reflexivity|]. by repeat econstructor.
  - exists []. split; [done|constructor].
Qed.

(** ** What each command promises *)

(** C17: the command line drops no database but the one that was named and typed back.
    Whatever the flags, when a restore is sent off, then it is one the engine's own
    checks accept; if it drops a database, its name was given to --replace alone and
    typed back exactly; if it writes into one that exists, that was given to --into
    alone, and on production typed back too. *)
Theorem headless_restore_drops_what_was_typed a start end_ s p req :
  trace (op s) = [] ->
  In (DidRestore p req) (trace (op (snd (run_restore str_debug uuid_text rfc3339 to_lowercase parse_uuid job tok restore_json a start end_ s)))) ->
  restorable req p (read_manifest (ra_artifact a))
  /\ (forall name, naming req = DropAndRecreate name ->
        ra_replace a = Some name /\ ra_into a = None /\ ra_new_prefix a = None /\ ra_confirm a = Some name)
  /\ (forall name, naming req = IntoExisting name ->
        ra_into a = Some name /\ ra_replace a = None /\ ra_new_prefix a = None
        /\ (environment p = Prod -> ra_confirm a = Some name)).
Proof.
  intros T. destruct (run_restore _ _ _ _ _ _ _ _ _ _ _ s) as [r s'] eqn:E. cbn [snd]. intros Hin.
  apply after_reading in E as [(q & s1 & E & T1 & _)|[T1 _]]; [|by rewrite T1, T in Hin|apply reads_resolve].
  apply after_reading in E as [(u & s2 & E & T2 & _)|[T2 _]]; [|by rewrite T2, T1, T in Hin|by unfold refuse_if; destruct (negb _)].
  apply after_reading in E as [(eng & s3 & E & T3 & _)|[T3 _]]; [|by rewrite T3, T2, T1, T in Hin|apply reads_settle].
  apply after_reading in E as [(v & s4 & E & T4 & _ & Ev)|[T4 _]]; [|by rewrite T4, T3, T2, T1, T in Hin|apply reads_settle].
  apply settle_inv in Ev as [Ev _]. apply map_err_Ok in Ev.
  pose proof (perform_restore_trace q (mk_restore (ra_artifact a)
    (target_naming (ra_replace a) (ra_into a) (ra_new_prefix a) (option_map manifest_database (read_manifest (ra_artifact a))))
    eng (ra_verify_checksum a) (ra_confirm a)) start end_ s4) as P.
  rewrite E in P. cbn [snd] in P. rewrite T4, T3, T2, T1, T in P. destruct P as [P|(l & P & F)]; [by rewrite P in Hin|].
  rewrite P in Hin. cbn [app In] in Hin. destruct Hin as [[= <- <-]|Hin].
  2: { rewrite Forall_forall in F. apply list_elem_of_In in Hin. by destruct (F _ Hin) as (m & [=]). }
  destruct v. apply restore_validate_ok in Ev. split; [done|]. pose proof (res_confirmed _ _ _ Ev) as C. cbn in C |- *.
  destruct (ra_replace a), (ra_into a), (ra_new_prefix a); cbn in *; split; intros name [=]; subst; naive_solver.
Qed.

Lemma hear_job now c e : job_id (hear rfc3339 now c e) = job_id c.
Proof. by destruct e as [[] ? ?| | | | | | | | | | |]. Qed.

Lemma heard_job now l : job_id (heard rfc3339 job tok now l) = job.
Proof.
  unfold heard. assert (forall c, job_id (fold_left (hear rfc3339 now) l c) = job_id c) as ->; [|done].
  induction l as [|e l IH]; intros c; [done|]. simpl. by rewrite IH, hear_job.
Qed.

Lemma started_quiet kind source dest options start f (s : Cli W) :
  quiet (jobs s) -> job_rows (jobs s) !! job = None ->
  exists h, started str_debug uuid_text rfc3339 job tok kind source dest options start f s = (Ok tt, mk_cli (op s) h)
    /\ quiet h /\ get_job h job = Some (mk_job job kind source dest start None None None options "").
Proof.
  intros Q N. unfold started, History.record_start, insert_job. rewrite write_job_quiet by done. simpl job_record_id.
  rewrite heard_job, N. eexists. split_and!; [done|done|]. unfold get_job. cbn. by rewrite lookup_insert_eq.
Qed.

Lemma finish_record o artifact end_ (s : Cli W) row : quiet (jobs s) -> get_job (jobs s) job = Some row ->
  exists h log, finish rfc3339 job tok o artifact end_ s = (Ok tt, mk_cli (op s) h)
    /\ get_job h job = Some (finished_record o artifact log end_ row).
Proof.
  intros Q R. unfold finish.
  destruct (finish_quiet (jobs s) (heard rfc3339 job tok end_ (trace (op s))) o artifact end_ Q) as (l & E).
  rewrite E. unfold get_job in R |- *. rewrite heard_job, R. do 2 eexists. split; [done|]. cbn. by rewrite lookup_insert_eq.
Qed.

(** What a call of the world answers, an entry noted before it. *)
Lemma call_attempt {A} e (f : W -> result A Stop * W) (s : Cli W) :
  call (attempt e f) s =
  (match fst (f (world (op s))) with
   | Ok a => Ok (Ok a)
   | Err (Failed_ x) => Ok (Err x)
   | Err (Panicked why) => Err (Aborted why)
   end, mk_cli (mk_op (snd (f (world (op s)))) (trace (op s) ++ [e])) (jobs s)).
Proof. unfold call, attempt, bind, note, invoke. cbn. by destruct (f (world (op s))) as [[a|[x|why]] w]. Qed.

(** The job of a command that has not come to its end. *)
Definition unfinished (h : Jobs) : Prop :=
  exists row, get_job h job = Some row /\ job_outcome row = None /\ job_finished_at row = None.

(** How a backup from the command line ends, while the history can be written.  A
    backup that succeeded is recorded with its artifact, as a success exactly when the
    command ends well, which is when no destination was missed; a push that failed as a
    whole misses none.  A backup that failed ends the command with its error before the
    record is completed: it stays in the history as running, and so does one that was
    ended by a panic of the backup or of its push. *)
Theorem headless_backup_ends p request start end_ s :
  quiet (jobs s) -> job_rows (jobs s) !! job = None ->
  let '(r, s') := perform_backup str_debug uuid_text rfc3339 job tok backup_json p request start end_ s in
  let '(result, w) := backup p request (world (op s)) in
  match result, fst (push_offsite (match result with Ok a => a | Err _ => "" end) w) with
  | Ok artifact, Err (Panicked why) => r = Err (Aborted why) /\ unfinished (jobs s')
  | Ok artifact, pushed =>
      let missed := match pushed with Ok l => push_failures l | Err _ => [] end in
      (r = Ok artifact <-> missed = [])
      /\ exists row, get_job (jobs s') job = Some row /\ job_artifact_path row = Some artifact
           /\ job_finished_at row = Some end_ /\ job_outcome row = Some (match missed with [] => Success | _ => Failed end)
  | Err (Failed_ e), _ => r = Err (Failure (text str_debug uuid_text e)) /\ unfinished (jobs s')
  | Err (Panicked why), _ => r = Err (Aborted why) /\ unfinished (jobs s')
  end.
Proof.
  intros Q N. destruct (perform_backup _ _ _ _ _ _ _ _ _ _ s) as [r s'] eqn:E. unfold perform_backup in E.
  destruct (started_quiet KindBackup (profile_id p) None (backup_json request) start
    (fun e => ("could not record the job: " ++ e)%string) s Q N) as (h & Es & Qh & Rh).
  unfold cbind at 1 in E. rewrite Es in E. unfold cbind at 1 in E. rewrite call_attempt in E. cbn [op world jobs trace] in E.
  destruct (backup p request (world (op s))) as [[artifact|[e|why]] w] eqn:Eb; cbn [fst snd] in E |- *.
  - unfold cbind at 2 in E. unfold cbind at 1 in E. rewrite call_attempt in E. cbn [op world jobs trace fst snd cret] in E.
    destruct (push_offsite artifact w) as [pushed w2]. cbn [fst snd] in E |- *.
    set (s2 := mk_cli _ h) in E.
    destruct (finish_record Success (Some artifact) end_ s2 _ Qh Rh) as (h1 & log1 & E1 & R1).
    destruct (finish_record Failed (Some artifact) end_ s2 _ Qh Rh) as (h2 & log2 & E2 & R2).
    unfold cbind, settle, cret in E. destruct pushed as [l|[x|why]]; cbn [map_err] in E.
    + destruct (push_failures l) as [|m missed]; cbn [map_err] in E; [rewrite E1 in E|rewrite E2 in E];
        injection E as <- <-; (split; [done|]); eexists; cbn [jobs]; [by rewrite R1|by rewrite R2].
    + cbn -[finish] in E. rewrite E1 in E. injection E as <- <-. split; [done|]. eexists. cbn [jobs]. by rewrite R1.
    + injection E as <- <-. split; [done|]. eexists. split; [exact Rh|done].
  - unfold cbind, settle, cret, told, bail in E. cbn in E. injection E as <- <-. split; [done|]. eexists. split; [exact Rh|done].
  - injection E as <- <-. split; [done|]. eexists. split; [exact Rh|done].
Qed.

(** A pipeline that replaces a database runs headlessly only when names were typed or
    it is armed for the databases it would replace today; and an armed one is run with
    exactly those names, which is what its schedule would type. *)
Theorem headless_pipelines_need_authority p confirm dir start end_ s :
  let r := run_pipeline_now str_debug uuid_text rfc3339 job tok pipeline_json p confirm dir start end_ s in
  (destructive_targets p <> [] -> snd r <> s -> confirm <> [] \/ is_armed p = true)
  /\ (is_armed p = true -> Forall one_line (destructive_targets p) -> confirm = [] ->
      r = cbind (directory_or dir) (fun dir => perform_pipeline_now str_debug uuid_text rfc3339 job tok pipeline_json p
                                                (mk_run_request (destructive_targets p) dir) start end_) s).
Proof.
  intros r. unfold r, run_pipeline_now, refused_headless, is_armed, same_text, headless_confirmations. split.
  - intros D. destruct confirm as [|c confirm]; [|by left]. unfold destructive_signature.
    destruct (destructive_targets p) as [|t ts] eqn:Et; [done|]. destruct (unattended_ack p) as [ack|]; [|done].
    destruct (String.eqb ack _); [by right|done].
  - intros A L ->. rewrite <- (armed_confirmations p A L). destruct (destructive_signature p) as [targets|]; [|done].
    destruct (unattended_ack p) as [ack|]; [|done]. by rewrite A.
Qed.
End Lemmas.

(** What was typed finds a record only when no other record could have been meant:
    the answer is the one record whose name begins as typed, the same however the list
    is ordered; two that begin so are refused, the exact name of one among them. *)
Theorem resolving_never_guesses {A} lower parse_uuid debug (name : A -> string) by_id none several all needle a :
  parse_uuid needle = None -> NoDup all ->
  (resolve_by lower parse_uuid debug name by_id none several all needle = Ok a
   <-> In a all /\ named_like lower name needle a = true
       /\ forall b, In b all -> named_like lower name needle b = true -> b = a).
Proof.
  intros P N. unfold resolve_by. rewrite P. set (l := List.filter _ all).
  assert (Hl : forall b, In b l <-> In b all /\ named_like lower name needle b = true) by (intros b; apply filter_In).
  assert (Nl : NoDup l) by (by apply NoDup_ListNoDup, List.NoDup_filter, NoDup_ListNoDup). clearbody l. split.
  - destruct l as [|x [|y l]]; [done| |done]. intros [= ->]. destruct (proj1 (Hl a)) as [Ha Hn]; [by left|].
    split_and!; [done..|]. intros b Hb Hbn. by destruct (proj2 (Hl b) (conj Hb Hbn)) as [<-|[]].
  - intros (Ha & Hn & Hu). destruct l as [|x [|y l]].
    + by destruct (proj2 (Hl a) (conj Ha Hn)).
    + by destruct (proj2 (Hl a) (conj Ha Hn)) as [->|[]].
    + exfalso. apply NoDup_cons in Nl as [Nx _]. apply Nx. apply list_elem_of_In.
      rewrite (Hu x), (Hu y); [by left|apply Hl; by (right; left) + by left..].
Qed.

(** ** A machine *)

#[local] Instance desk : Machine := {
  backups_dir := Some "/backups";
  make_dir _ := Ok tt;
  is_file _ := true;
  read_manifest _ := None }.

#[local] Instance no_tables : Lister unit := { open_and_list _ _ w := (Ok [], w) }.

Definition no_text {A} (_ : A) : string := "".
Definition fresh : Cli unit := mk_cli (mk_op tt []) no_jobs.

(** A backup that was cancelled, and one that missed its bucket. *)
Lemma headless_backup_ends_witness :
  (exists row, get_job (jobs (snd (perform_backup (H := cancelling) id no_text no_text 1%N 1%N no_text (server 1) the_request 100 200 fresh))) 1%N
     = Some row /\ job_outcome row = None)
  /\ exists row, get_job (jobs (snd (perform_backup (H := unreachable) id no_text no_text 1%N 1%N no_text (server 1) the_request 100 200 fresh))) 1%N
     = Some row /\ job_outcome row = Some Failed.
Proof.
  split.
  - pose proof (headless_backup_ends (H := cancelling) id no_text no_text 1%N 1%N no_text (server 1) the_request 100 200 fresh eq_refl eq_refl) as T.
    destruct (perform_backup _ _ _ _ _ _ _ _ _ _ _) as [r s']. destruct T as (_ & row & T1 & T2 & _). by exists row.
  - pose proof (headless_backup_ends (H := unreachable) id no_text no_text 1%N 1%N no_text (server 1) the_request 100 200 fresh eq_refl eq_refl) as T.
    destruct (perform_backup _ _ _ _ _ _ _ _ _ _ _) as [r s']. destruct T as (_ & row & T1 & _ & _ & T2). by exists row.
Defined.

Definition replacing : RestoreArgs := mk_restore_args "s" "/b/app.sql.gz" None (Some "app") None (Some "app") true [] None false.
Definition replace_app : RestoreRequest := mk_restore "/b/app.sql.gz" (DropAndRecreate "app") (RMysql rmysql_default) true (Some "app").
Definition by_number (s : string) : option Uuid := Some 1%N.

Lemma headless_restore_drops_what_was_typed_witness :
  restorable replace_app (server 1) None.
Proof.
  refine (proj1 (headless_restore_drops_what_was_typed (H := cancelling) (H0 := recording) id no_text no_text id by_number 1%N 1%N no_text
    replacing 100 200 fresh (server 1) replace_app eq_refl _)).
  vm_compute. by left.
Defined.

(** An armed chain, run with nothing typed. *)
Definition armed_run : result PipelineOutcome Exit * Cli unit :=
  run_pipeline_now (H := cancelling) id no_text no_text 1%N 1%N no_text nightly [] None 100 200 fresh.

Lemma armed_run_ran : snd armed_run <> fresh.
Proof. intros E. assert (trace (op (snd armed_run)) = []) as T by by rewrite E. by vm_compute in T. Qed.

Lemma nightly_armed : destructive_targets nightly <> [] /\ is_armed nightly = true /\ Forall one_line (destructive_targets nightly).
Proof. split_and!; [by vm_compute|by vm_compute|]. constructor; [|constructor]. split_and!; [done|by vm_compute..]. Qed.

Lemma headless_pipelines_need_authority_witness :
  ([] <> [] :> list string \/ is_armed nightly = true)
  /\ armed_run = perform_pipeline_now (H := cancelling) id no_text no_text 1%N 1%N no_text nightly (mk_run_request ["staging"] "/backups") 100 200 fresh.
Proof.
  pose proof (headless_pipelines_need_authority (H := cancelling) id no_text no_text 1%N 1%N no_text nightly [] None 100 200 fresh) as [T1 T2].
  destruct nightly_armed as (N1 & N2 & N3). split; [by apply T1; [|apply armed_run_ran]|]. unfold armed_run. by rewrite (T2 N2 N3 eq_refl).
Defined.

Lemma resolving_never_guesses_witness :
  resolve_by id (fun _ => None) id id (fun _ => Err "") "x" "y" ["prod"; "staging"] "st" = Ok "staging".
Proof.
  apply (resolving_never_guesses id (fun _ => None) id id (fun _ => Err "") "x" "y" ["prod"; "staging"] "st" "staging" eq_refl).
  - by repeat (constructor; [set_solver|]); constructor.
  - split_and!; [by right; left|done|]. intros b [<-|[<-|[]]]; [done|done].
Defined.
