(* ===== verification/Terminal.v ===== *)
(** * Terminal: the commands that keep the configuration (engine-cli/src/main.rs)

    Masking rules, destinations, the backup key and the bundle, changed from the command
    line over the tables and the keychain the window uses.  What a command is typed on
    its standard input is an argument, and what it prints is its result. *)

From Stdlib Require Import ZArith Lia Ascii String List Bool.
From stdpp Require Import base list gmap strings relations.
From S2P Require Import Prelude Text Domain Sql Backup Retention Mask Plan Destination Vault Ssh Database AuditLog Connections Consistency Adoption Desktop Share RoundTrip Trail Headless.
Import ListNotations.
Open Scope string_scope.
Open Scope list_scope.
Open Scope Z_scope.
Open Scope dbsync_scope.

(** A command of the terminal: an error is a message. *)
Definition Tm (A : Type) : Type := Db (result A string).

Definition shown {A} (a : A) : Tm A := Return (Ok a).
Definition stops {A} (m : string) : Tm A := Return (Err m).
Definition tm_bind {A B} (m : Tm A) (k : A -> Tm B) : Tm B :=
  db_bind m (fun r => match r with Ok a => k a | Err e => Return (Err e) end).

Notation "'let@' x ':=' e 'in' k" := (tm_bind e (fun x => k))
  (at level 10, x pattern, e at level 100, k at level 200).

Section Terminal.
Context `{Platform}.
Variable to_lowercase : string -> string.
Variable parse_uuid : string -> option Uuid.
(** Whether a destination answers, its key accepted. *)
Variable test_destination : Destination -> result unit string.

Definition from_store {A} (m : St A) : Tm A := let~ r := m in Return (map_err r store_error_text).
Definition from_keys {A} (f : V A) : Tm A := let~ r := stmt (Keychain f) in Return (map_err r key_error_text).

(** ** Masking rules *)

Definition plans_onto (acc : list SyncPlan) (p : ConnectionProfile) : St (list SyncPlan) :=
  let# plans := list_sync_plans (profile_id p) in ok (acc ++ plans).

Definition all_plans : St (list SyncPlan) := let# profiles := list_profiles in each plans_onto profiles [].

Definition plan_by_id (all : list SyncPlan) (id : Uuid) : result SyncPlan string :=
  ok_or (List.find (fun p => N.eqb (sp_id p) id) all) ("no sync plan with id " ++ uuid_text id)%string.

Definition resolve_plan (needle : string) : Tm SyncPlan :=
  let@ all := from_store all_plans in
  Return (resolve_by to_lowercase parse_uuid str_debug sp_name (plan_by_id all)
            ("sync plan matches " ++ str_debug needle)%string "plans" all needle).

Inductive TransformArg := ArgHash | ArgEmail | ArgPhone | ArgNull | ArgConstant.

Definition transform_of (t : TransformArg) (value : option string) (length : option Z) : result MaskTransform string :=
  match t with
  | ArgHash => Ok (Hash length)
  | ArgEmail => Ok Email
  | ArgPhone => Ok Phone
  | ArgNull => Ok Null
  | ArgConstant => let? v := ok_or value "--transform constant needs --value" in Ok (Constant v)
  end.

Definition on_column (table column : string) (r : MaskRule) : bool :=
  String.eqb (rule_table r) table && String.eqb (rule_column r) column.

Definition others (table column : string) (rules : list MaskRule) : list MaskRule :=
  List.filter (fun r => negb (on_column table column r)) rules.

(** Each rule, and whether it will run. *)
Definition mask_list (plan : string) : Tm (list (bool * MaskRule)) :=
  let@ p := resolve_plan plan in
  shown (map (fun r => (bool_decide (r ∈ active_masking p), r)) (sp_masking p)).

Definition mask_add (plan table column : string) (t : TransformArg) (value : option string) (length : option Z) : Tm SyncPlan :=
  match transform_of t value length with
  | Err m => stops m
  | Ok t =>
      let@ p := resolve_plan plan in
      from_store (set_sync_plan_masking (sp_id p) (others table column (sp_masking p) ++ [mk_rule table column t]))
  end.

Definition mask_remove (plan table column : string) : Tm SyncPlan :=
  let@ p := resolve_plan plan in
  let rules := others table column (sp_masking p) in
  if Nat.eqb (length rules) (length (sp_masking p))
  then stops (sp_name p ++ " has no masking rule for " ++ table ++ "." ++ column)%string
  else from_store (set_sync_plan_masking (sp_id p) rules).

Definition SALT_PLACEHOLDER : string := "<salt bound at run time>".

Definition mask_sql (plan : string) : Tm (list string * list string) :=
  let@ p := resolve_plan plan in
  let@ profile := from_store (require_profile (sp_profile_id p)) in
  match active_masking p with
  | [] => shown ([], [])
  | active =>
      Return (map_err
        (let? updates := update_statements (profile_engine profile) active SALT_PLACEHOLDER in
         let? checks := check_statements (profile_engine profile) active in
         Ok (map (fun u => sql (ts_statement u)) updates, map (fun c => sql (tc_statement c)) checks))
        mask_error_text)
  end.

(** ** Destinations *)

Definition resolve_destination (needle : string) : Tm Destination :=
  match parse_uuid needle with
  | Some id => from_store (require_destination id)
  | None =>
      let@ all := from_store store_list_destinations in
      Return (resolve_by to_lowercase parse_uuid str_debug dst_name (fun _ => Err "")
                ("destination matches " ++ str_debug needle ++ "; `dbsync destination list` shows them")%string "destinations" all needle)
  end.

(** What was typed on the standard input. *)
Definition read_credential (typed : string) : result string string :=
  if String.eqb (trim typed) "" then Err "no key was supplied, so nothing was changed" else Ok (trim typed).

Definition describe_retention (p : RetentionPolicy) : string :=
  match keep_last p, max_age_days p with
  | None, None => "keeps everything"
  | Some n, None => "keeps the newest " ++ show n
  | None, Some d => "keeps " ++ show d ++ " days"
  | Some n, Some d => "keeps the newest " ++ show n ++ ", and at most " ++ show d ++ " days"
  end%string.

Fixpoint keyed_lines (l : list Destination) : Tm (list (Destination * bool)) :=
  match l with
  | [] => shown []
  | d :: l =>
      let~ r := stmt (Keychain (has_secret uuid_text (dst_id d) ObjectStoreSecret)) in
      let@ rest := keyed_lines l in
      shown ((d, match r with Ok b => b | Err _ => false end) :: rest)
  end.

Definition destination_list : Tm (list (Destination * bool)) :=
  let@ all := from_store store_list_destinations in keyed_lines all.

(** The new destination, and whether it answered. *)
Definition destination_add (name : string) (s3 : S3Destination) (keep : RetentionPolicy) (typed : string)
    : Tm (Destination * result unit string) :=
  let@ secret := Return (read_credential typed) in
  let@ created := from_store (store_create_destination (mk_dst_create name (DS3 s3) true keep)) in
  let@ _ := from_keys (set_secret uuid_text (dst_id created) ObjectStoreSecret secret) in
  shown (created, test_destination created).

Definition destination_set_key (needle typed : string) : Tm unit :=
  let@ d := resolve_destination needle in
  let@ secret := Return (read_credential typed) in
  let@ _ := from_keys (set_secret uuid_text (dst_id d) ObjectStoreSecret secret) in
  match test_destination d with
  | Ok _ => shown tt
  | Err e => stops ("the new key was stored but is not accepted: " ++ e)%string
  end.

Definition failed_tests (l : list Destination) : list Destination :=
  List.filter (fun d => negb (is_ok (test_destination d))) l.

Definition destination_test (needle : option string) : Tm unit :=
  let@ targets := match needle with
                  | Some n => let@ d := resolve_destination n in shown [d]
                  | None => from_store store_list_destinations
                  end in
  match failed_tests targets with
  | [] => shown tt
  | failed => stops (show (Z.of_nat (length failed)) ++ " of " ++ show (Z.of_nat (length targets))
                     ++ " destination(s) are not usable")%string
  end.

Definition destination_enable (needle : string) (on : bool) : Tm unit :=
  let@ d := resolve_destination needle in
  let@ _ := from_store (store_update_destination (dst_id d) (mk_dst_update None None (Some on) None)) in
  shown tt.

Definition destination_retention (needle : string) (keep max_age : option Z) : Tm string :=
  let@ d := resolve_destination needle in
  let@ _ := from_store (store_update_destination (dst_id d) (mk_dst_update None None None (Some (mk_policy keep max_age)))) in
  shown (describe_retention (mk_policy keep max_age)).

Definition destination_remove (needle : string) : Tm unit :=
  let@ d := resolve_destination needle in
  let~ r := forget_destination (dst_id d) in
  match r with Ok _ => shown tt | Err e => stops (Desktop.op_error_text e) end.

(** ** The backup key *)

Variable scope_id : Uuid.
Variable public_from_identity : string -> result string string.
Variable parse_recipient : string -> result unit string.
Variable generated : string * string.

Definition key_status : Tm KeyStatus := from_keys (status uuid_text scope_id).

(** Whether a key was made, and the public half. *)
Definition key_generate : Tm (bool * string) :=
  let@ before := from_keys (status uuid_text scope_id) in
  let@ st := from_keys (ensure_exists uuid_text scope_id generated) in
  shown (negb (ks_exists before), default "" (ks_public st)).

Definition key_export : Tm string := from_keys (Vault.export uuid_text scope_id public_from_identity).

Definition key_import (typed : string) : Tm string :=
  let@ st := from_keys (Vault.import uuid_text scope_id public_from_identity typed) in
  shown (default "" (ks_public st)).

Definition key_recipients (keys : list string) : Tm unit := from_keys (set_extra_recipients parse_recipient keys).
(** ** The bundle *)

(** [create_dir] and the files are the caller's: what is written is the text. *)
Variable engine_version_now : string.
Variable bundle_text : ConfigBundle -> string.
Variable parse_bundle : string -> result ConfigBundle string.
Variable share_error_text : ShareError -> string.
Variable rfc3339 : Z -> string.

Definition config_export : Tm string :=
  let@ b := from_store (Share.export engine_version_now) in shown (bundle_text b).

Definition lines_of (label : string) (names : list string) : list string := map (fun n => (label ++ " " ++ n)%string) names.

(** What is printed of a report.  The servers of the bundle are not among it. *)
Definition report_lines (r : ImportReport) : list string :=
  lines_of "created connection" (field ProfilesCreated r) ++ lines_of "updated connection" (field ProfilesUpdated r)
  ++ lines_of "created plan" (field PlansCreated r) ++ lines_of "updated plan" (field PlansUpdated r)
  ++ lines_of "created destination" (field DestinationsCreated r) ++ lines_of "updated destination" (field DestinationsUpdated r)
  ++ (if report_is_empty r then ["the bundle was empty; nothing changed"] else [])
  ++ match field NeedsCredentials r with
     | [] => []
     | l => "these connections cannot connect until you set a password:" :: lines_of " " l
     end
  ++ match field DestinationsNeedingKeys r with
     | [] => []
     | l => "these destinations are switched off until you set an access key:"
            :: map (fun n => ("  " ++ n ++ "   dbsync destination set-key " ++ n)%string) l
     end
  ++ match field OrphanedPlans r with
     | [] => []
     | l => "these plans could not be imported:" :: lines_of " " l
     end.

(** What a dry run prints: the records by name, where they point. *)
Definition dry_lines (b : ConfigBundle) : list string :=
  ["would import " ++ show (Z.of_nat (length (b_profiles b))) ++ " connection(s), " ++ show (Z.of_nat (length (b_plans b)))
   ++ " plan(s), " ++ show (Z.of_nat (length (b_destinations b))) ++ " destination(s) exported " ++ rfc3339 (exported_at b)
   ++ " by DBSync " ++ engine_version b]%string
  ++ map (fun p => "  connection  " ++ sh_name p ++ " (" ++ engine_debug (sh_engine p) ++ ", " ++ db_host (sh_db p) ++ ")")%string (b_profiles b)
  ++ map (fun p => "  plan        " ++ shp_name p ++ " on " ++ shp_profile_name p)%string (b_plans b)
  ++ map (fun d => "  destination " ++ shd_name d ++ " -> " ++ kind_describe (shd_kind d))%string (b_destinations b)
  ++ ["nothing was changed (--dry-run)"].

Definition config_import (raw : string) (dry_run : bool) : Tm (list string) :=
  let@ bundle := Return (map_err (from_json parse_bundle raw) share_error_text) in
  if dry_run then shown (dry_lines bundle)
  else let@ report := from_store (Share.import bundle) in shown (report_lines report).

(** ** Every command *)

Inductive MaskCommand :=
| MaskList (plan : string)
| MaskAdd (plan table column : string) (t : TransformArg) (value : option string) (length : option Z)
| MaskRemove (plan table column : string)
| MaskSql (plan : string).

(** [s3] and [keep] are the flags of a new destination; [typed] is the standard input. *)
Inductive DestinationCommand :=
| DstList
| DstAdd (name : string) (s3 : S3Destination) (keep : RetentionPolicy) (typed : string)
| DstSetKey (destination typed : string)
| DstTest (destination : option string)
| DstEnable (destination : string)
| DstDisable (destination : string)
| DstRetention (destination : string) (keep_last max_age_days : option Z)
| DstRemove (destination : string).

Inductive KeyCommand := KeyStatusCmd | KeyGenerate | KeyExport | KeyImport (typed : string) | KeyRecipients (keys : list string).

Inductive ConfigCommand := ConfigExport | ConfigImport (raw : string) (dry_run : bool).

Inductive TermCommand := OnMask (c : MaskCommand) | OnDestination (c : DestinationCommand) | OnKey (c : KeyCommand) | OnConfig (c : ConfigCommand).

Definition done_ {A} (m : Tm A) : Tm unit := let@ _ := m in shown tt.

Definition run_mask_command (c : MaskCommand) : Tm unit :=
  match c with
  | MaskList p => done_ (mask_list p)
  | MaskAdd p t c k v l => done_ (mask_add p t c k v l)
  | MaskRemove p t c => done_ (mask_remove p t c)
  | MaskSql p => done_ (mask_sql p)
  end.

Definition run_destination_command (c : DestinationCommand) : Tm unit :=
  match c with
  | DstList => done_ destination_list
  | DstAdd n s k t => done_ (destination_add n s k t)
  | DstSetKey n t => destination_set_key n t
  | DstTest n => destination_test n
  | DstEnable n => destination_enable n true
  | DstDisable n => destination_enable n false
  | DstRetention n k m => done_ (destination_retention n k m)
  | DstRemove n => destination_remove n
  end.

Definition run_key_command (c : KeyCommand) : Tm unit :=
  match c with
  | KeyStatusCmd => done_ key_status
  | KeyGenerate => done_ key_generate
  | KeyExport => done_ key_export
  | KeyImport t => done_ (key_import t)
  | KeyRecipients k => key_recipients k
  end.

Definition run_config_command (c : ConfigCommand) : Tm unit :=
  match c with
  | ConfigExport => done_ config_export
  | ConfigImport r d => done_ (config_import r d)
  end.

Definition term (c : TermCommand) : Tm unit :=
  match c with
  | OnMask c => run_mask_command c
  | OnDestination c => run_destination_command c
  | OnKey c => run_key_command c
  | OnConfig c => run_config_command c
  end.
End Terminal.

(** ** Lemmas *)

Section Lemmas.
Context `{Platform}.
Variable to_lowercase : string -> string.
Variable parse_uuid : string -> option Uuid.

Lemma unlogged_tm {A B} (m : Tm A) (k : A -> Tm B) : unlogged m -> (forall a, unlogged (k a)) -> unlogged (tm_bind m k).
Proof. intros Hm Hk. apply unlogged_bind; [done|]. by intros [a|e]. Qed.

Lemma unlogged_from {A} (m : St A) : unlogged m -> unlogged (from_store m).
Proof. intros Hm. by apply unlogged_bind. Qed.

Lemma unlogged_done {A} (m : Tm A) : unlogged m -> unlogged (done_ m).
Proof. intros Hm. by apply unlogged_tm. Qed.

Lemma unlogged_keys {A} (f : V A) : unlogged (from_keys f).
Proof. apply unlogged_bind; [apply unlogged_key|done]. Qed.

Lemma unlogged_each {A S} (f : S -> A -> St S) l : (forall s a, unlogged (f s a)) -> forall acc, unlogged (each f l acc).
Proof. intros Hf. induction l as [|a l IH]; intros acc; [done|]. by apply unlogged_st. Qed.

Lemma unlogged_plans : unlogged all_plans.
Proof.
  apply unlogged_st; [apply unlogged_select|]. intros l. apply unlogged_each. intros s p. unfold plans_onto, list_sync_plans. repeat unlogged_step.
Qed.

Lemma unlogged_resolve_plan needle : unlogged (resolve_plan to_lowercase parse_uuid needle).
Proof. apply unlogged_tm; [apply unlogged_from, unlogged_plans|done]. Qed.

Lemma unlogged_destinations : unlogged store_list_destinations.
Proof. unfold store_list_destinations. repeat unlogged_step. Qed.

Lemma unlogged_resolve_destination needle : unlogged (resolve_destination to_lowercase parse_uuid needle).
Proof.
  unfold resolve_destination, require_destination, get_destination.
  destruct (parse_uuid needle); [|by apply unlogged_tm; [apply unlogged_from, unlogged_destinations|]].
  apply unlogged_from. repeat unlogged_step.
Qed.

Lemma unlogged_masking id l : unlogged (set_sync_plan_masking id l).
Proof.
  unfold set_sync_plan_masking, require_sync_plan, get_sync_plan. repeat unlogged_step.
  unfold write_plan. by repeat case_match.
Qed.

Lemma unlogged_create_destination i : unlogged (store_create_destination i).
Proof.
  unfold store_create_destination, on_destinations. repeat unlogged_step. destruct (is_some _); [done|].
  by destruct (create_destination _ _ _ _ _).
Qed.

Lemma unlogged_forget id : unlogged (forget_destination id).
Proof.
  unfold forget_destination, keychain_call, store_delete_destination, on_destinations. repeat unlogged_step; done.
Qed.

Lemma unlogged_keyed l : unlogged (keyed_lines l).
Proof.
  induction l as [|d l IH]; [done|]. apply unlogged_bind; [apply unlogged_key|]. intros r. by apply unlogged_tm.
Qed.

Lemma unlogged_export v : unlogged (Share.export v).
Proof.
  unfold Share.export, list_profiles, list_ssh_connections. repeat unlogged_step; try apply unlogged_destinations.
  apply unlogged_each. intros s p. unfold export_plans, list_sync_plans. repeat unlogged_step.
Qed.

Lemma unlogged_update i u : unlogged (from_store (store_update_destination i u)).
Proof. apply unlogged_from, update_destination_unlogged. Qed.
End Lemmas.

#[export] Hint Resolve unlogged_keys unlogged_resolve_plan unlogged_resolve_destination unlogged_update unlogged_keyed unlogged_forget : unlogged.
#[export] Hint Extern 1 (unlogged (from_store _)) =>
  apply unlogged_from; first [apply unlogged_masking | apply unlogged_destinations | apply unlogged_create_destination
                             | apply unlogged_export] : unlogged.

Ltac tm_step :=
  match goal with
  | |- unlogged (done_ _) => apply unlogged_done
  | |- unlogged (tm_bind _ _) => apply unlogged_tm; [|intros ?]
  | _ => unlogged_step
  end.

(** Of everything the command line changes, only an import is written to the audit
    log: a rule that masked a column, a destination, the backup key that was exported or
    replaced - nothing tells of them. *)
Theorem only_an_import_is_recorded `{Platform} lower parse_uuid test scope public parse_recipient generated version write_bundle parse_bundle
    share_text rfc3339 c w :
  (forall raw, c <> OnConfig (ConfigImport raw false)) ->
  audit_log (tables (snd (run (term lower parse_uuid test scope public parse_recipient generated version write_bundle parse_bundle
                                share_text rfc3339 c) w)))
  = audit_log (tables w).
Proof.
  intros N. apply unlogged_run. destruct c as [c|c|c|c]; destruct c; cbn [term];
    unfold run_mask_command, run_destination_command, run_key_command, run_config_command, mask_list, mask_add, mask_remove, mask_sql, destination_list, destination_add, destination_set_key, destination_test,
      destination_enable, destination_retention, destination_remove, key_status, key_generate, key_export, key_import, key_recipients,
      config_export, config_import, require_profile, get_profile;
    repeat tm_step.
  all: first [by apply unlogged_from; repeat unlogged_step | by edestruct N].
Qed.

Lemma field_other f g name r : f <> g -> field f (push g name r) = field f r.
Proof.
  intros N. unfold field, push. rewrite List.filter_app, map_app. cbn [List.filter fst].
  rewrite bool_decide_false by congruence. by rewrite app_nil_r.
Qed.

(** A server of a bundle that could not be reached as it says is in the report of an
    import, and not in what is printed of it. *)
Theorem an_import_hides_its_orphaned_servers r name :
  report_lines (push OrphanedSshReferences name r) = report_lines r.
Proof. unfold report_lines, report_is_empty. cbn [forallb]. by rewrite !field_other. Qed.

(** ** Two terminals *)

Definition toy_test (_ : Destination) : result unit string := Ok tt.

(** Two rules added to the table set of a profile. *)
Definition adds (column : string) : Db unit :=
  discard (mask_add id (fun _ => None) "nightly" "users" column ArgNull None None).

Definition profile_and_plan : list (Db unit) :=
  [discard (create_profile (mk_profile_create "orders" Mysql Prod None (mk_db "10.0.0.5" 3306 "app" None) no_tools));
   discard (create_sync_plan (mk_plan_create 1%N "nightly" "shop" [with_data "users"] []))].

Definition planned : World := snd (play [0; 0; 0; 0; 1; 1; 1; 1; 1; 1]%nat (profile_and_plan, empty_world)).

Definition masked_columns (w : World) : list string := flat_map (fun p => map rule_column (sp_masking p)) (plans_of 1%N (tables w)).

Definition in_turn : World := snd (run (adds "phone") (snd (run (adds "email") planned))).

(** The second reads the rules before the first has written its own. *)
Definition overlapped : list (Db unit) * World := play [0; 0; 1; 1; 0; 0; 0; 0; 1; 1; 1; 1]%nat ([adds "email"; adds "phone"], planned).

Lemma adds_in_turn : masked_columns in_turn = ["email"; "phone"].
Proof. by vm_compute. Qed.

Lemma adds_overlapped : masked_columns (snd overlapped) = ["phone"] /\ Forall (fun m => exists u, m = Return u) (fst overlapped).
Proof. split; [by vm_compute|]. vm_compute. by repeat constructor; eexists. Qed.

Definition adding (m : Db unit) : Prop := exists column, m = adds column.

(** A rule is added by writing every rule there was when the set was read: of two
    columns masked from two terminals at one time one can be left out, both commands
    having gone well; in turn, both are masked. *)
Theorem two_overlapping_adds_lose_a_rule :
  masked_columns in_turn = ["email"; "phone"]
  /\ exists threads w, rtc (pool_step adding) ([], planned) (threads, w)
       /\ Forall (fun m => exists u, m = Return u) threads /\ masked_columns w = ["phone"].
Proof.
  split; [apply adds_in_turn|]. exists (fst overlapped), (snd overlapped). destruct adds_overlapped as [H1 H2].
  split_and!; [|done|done]. rewrite <- surjective_pairing.
  etransitivity; [apply (arrive_all _ [adds "email"; adds "phone"]); by repeat constructor; eexists|apply play_steps].
Qed.

(** The rule that masked the phone numbers, removed. *)
Definition removal : Tm unit :=
  term id (fun _ => None) toy_test 0%N (fun s => Ok s) (fun _ => Ok tt) ("s", "p") "1.0.0" (fun _ => "") (fun _ => Err "") (fun _ => "")
    (fun t => show t) (OnMask (MaskRemove "nightly" "users" "phone")).

Lemma removal_removes : masked_columns (snd (run removal in_turn)) = ["email"].
Proof. by vm_compute. Qed.

Lemma only_an_import_is_recorded_witness :
  masked_columns (snd (run removal in_turn)) <> masked_columns in_turn
  /\ audit_log (tables (snd (run removal in_turn))) = audit_log (tables in_turn).
Proof.
  split; [by rewrite removal_removes, adds_in_turn|]. apply only_an_import_is_recorded. done.
Defined.
