(* ===== verification/Manual.v ===== *)
(** * Manual: schedules from the command line (engine-cli/src/main.rs)

    A schedule run by hand is run by a scheduler of the command's own and waited for;
    what the table says of it then is the exit code.  A drill is added as a schedule, and
    a schedule is printed as a line for a crontab. *)

From Stdlib Require Import ZArith Lia Ascii String List Bool.
From stdpp Require Import base list gmap sets strings relations.
From S2P Require Import Prelude Text Time Domain Exec Backup Restore Ops Plan Pipeline PipelineRun Cron CronScan Schedule Scheduler ScheduledRun Shell Headless.
Import ListNotations.
Open Scope string_scope.
Open Scope list_scope.
Open Scope Z_scope.
Open Scope dbsync_scope.

(** ** Running one now *)

Section Now.
Context `{Cal : Calendar}.
Variables local utc : TimeZone.

Definition recorded_outcome (r : Schedules) (id : Uuid) : option JobOutcome :=
  match r !! id with Some s => last_outcome s | None => None end.

(** [run_and_wait]: what can be its answer, over the table it starts from. *)
Inductive run_and_wait (r : Schedules) (id : Uuid) : option JobOutcome -> Prop :=
| waited s job w :
    r !! id = Some s -> rtc (any_step local utc) (spawn_run (idle r) s None job None []) w ->
    in_flight w = ∅ -> run_and_wait r id (recorded_outcome (rows w) id).

(** ** Lemmas *)

(** The run comes and goes, and the mark of its outcome is lost. *)
Lemma unmarked_run r s job :
  rtc (any_step local utc) (spawn_run (idle r) s None job None []) (mk_sched r ∅ None [] [] []).
Proof.
  set (t := mk_task s None job Spawned).
  eapply rtc_l; [exists Sound; by eapply (TaskMark local utc _ [] t [])|]. cbn.
  eapply rtc_l; [exists Sound; by eapply (TaskSettleFails local utc _ [] (in_phase t Working) [])|]. cbn.
  eapply rtc_l; [exists Sound; by eapply (TaskRelease local utc _ [] (in_phase t Settled) [])|]. cbn.
  unfold release, t_id. cbn. replace ((({[sch_id s]} ∪ ∅) : gset Uuid) ∖ {[sch_id s]}) with (∅ : gset Uuid) by set_solver.
  apply rtc_refl.
Qed.

(** A run by hand whose outcome could not be written is answered with the outcome of
    the run before it: whatever became of it, the command can end well because the last
    one did. *)
Theorem an_unwritten_outcome_is_the_one_before r id s :
  r !! id = Some s -> run_and_wait r id (last_outcome s).
Proof.
  intros E. replace (last_outcome s) with (recorded_outcome (rows (mk_sched r ∅ None [] [] [])) id).
  - apply (waited r id s 1%N); [done|apply unmarked_run|done].
  - unfold recorded_outcome. simpl. by rewrite E.
Qed.

(** A run by hand that panics is waited for for ever: from then on there is no state
    in which the scheduler has nothing in flight. *)
Theorem a_panicked_run_is_never_done r s job w pre t post w' :
  rtc (any_step local utc) (spawn_run (idle r) s None job None []) w -> r !! sch_id s = Some s ->
  tasks w = pre ++ t :: post -> rtc (any_step local utc) (with_tasks w (rows w) (pre ++ post)) w' ->
  in_flight w' <> ∅.
Proof.
  intros R E Et R'. destruct (panicked_schedule_never_runs_again local utc r w pre t post w') as [H _]; [|done|done|set_solver].
  eapply rtc_l; [exists Sound; by apply (RunNowRead local utc _ (sch_id s) s)|].
  eapply rtc_l; [|exact R]. exists Sound. by apply (RunNowClaim local utc (mk_sched r ∅ None [s] [] []) [] s [] job).
Qed.
End Now.

(** ** Adding a drill *)

Definition add_drill_request (target : ConnectionProfile) (dir name : string) (e : CronExpression) (deep keep in_utc : bool)
    (webhook : option string) : ScheduleCreate :=
  mk_schedule_create name KindDrill None (Some (profile_id target)) None e (if in_utc then TzUtc else TzLocal)
    (mk_action dir true false (default_backup_options (profile_engine target)) None true deep None false keep)
    webhook NotifyOnFailure false true.

Section Drill.
Context {W : Type} `{Operations W} `{SchedulerOps W} `{Machine}.
Variable str_debug : string -> string.
Variable uuid_text : Uuid -> string.
Variable to_lowercase : string -> string.
Variable parse_uuid : string -> option Uuid.
Variable cron_text : CronError -> string.
Variable schedule_store_text : ScheduleStoreError -> string.
Variable parse_url : string -> result (string * bool) string.
(** The tables, a fresh id and the clock. *)
Variable pipelines : gmap Uuid Pipeline.
Variable id : Uuid.
Variable now : Z.

Definition add_drill (rows : Schedules) (name profile cron : string) (dir : option string) (deep keep in_utc : bool)
    (webhook : option string) : Cmd W (Schedule * Schedules) :=
  let& target := resolve_profile str_debug uuid_text to_lowercase parse_uuid profile in
  let& dir := directory_or dir in
  let& e := settle (map_err (cron_from_str cron) cron_text) in
  settle (map_err (create_schedule str_debug parse_url pipelines rows id now
                     (add_drill_request target dir name e deep keep in_utc webhook)) schedule_store_text).
End Drill.

(** A drill added from the command line is taken exactly when it has a name and its
    webhook, if any, can be sent to; and what it then runs is what the drill command
    runs at once with the same directory and flags. *)
Theorem an_added_drill_is_the_drill str_debug parse_url pipelines rows id now target dir name e deep keep in_utc webhook :
  let made := create_schedule str_debug parse_url pipelines rows id now (add_drill_request target dir name e deep keep in_utc webhook) in
  (is_ok made = true <-> trim name <> "" /\ forall url, webhook = Some url -> usable_webhook parse_url url)
  /\ forall s rows', made = Ok (s, rows') ->
       drill_request s = Some (mk_drill_request dir (default_restore_options (profile_engine target)) deep keep)
       /\ sch_dest_profile_id s = Some (profile_id target) /\ rows' = <[id := s]> rows /\ sch_enabled s = true.
Proof.
  intros made.
  set (c := add_drill_request target dir name e deep keep in_utc webhook) in made.
  assert (V : create_schedule_validate str_debug parse_url c
              = let? _ := guard (String.eqb (trim name) "") NameRequired in
                match webhook with Some url => validate_webhook str_debug parse_url url | None => Ok tt end).
  { unfold create_schedule_validate, validate_parts. cbn [c add_drill_request scr_name scr_kind scr_plan_id scr_dest_profile_id
      scr_pipeline_id scr_action scr_webhook_url is_some guard rbind a_restore].
    destruct (guard _ _) as [[]|x]; [|done]. simpl. by destruct (match webhook with Some url => _ | None => _ end) as [[]|x]. }
  assert (M : made = let? _ := map_err (create_schedule_validate str_debug parse_url c) InvalidSchedule in
                     Ok (mk_schedule id name KindDrill None (Some (profile_id target)) None e (scr_timezone c) true (scr_action c) webhook
                           NotifyOnFailure false None None None now now,
                         <[id := mk_schedule id name KindDrill None (Some (profile_id target)) None e (scr_timezone c) true (scr_action c)
                                   webhook NotifyOnFailure false None None None now now]> rows)) by reflexivity.
  rewrite M, V. clear made M V. split.
  - unfold guard. destruct (String.eqb_spec (trim name) "") as [En|En]; simpl; [split; [done|by intros [? _]]|].
    destruct webhook as [url|]; simpl; [|by split].
    destruct (validate_webhook str_debug parse_url url) as [[]|x] eqn:Ev; simpl; split; try done.
    + intros _. split; [done|]. intros u [= <-]. by eapply validate_webhook_Ok.
    + intros [_ Hu]. specialize (Hu url eq_refl). apply validate_webhook_Ok with (str_debug := str_debug) in Hu. congruence.
  - intros s rows'. destruct (let? _ := guard _ _ in _) as [u|x]; simpl; [|done]. intros [= <- <-].
    split_and!; [|done..]. unfold drill_request. simpl. by destruct (profile_engine target).
Qed.

(** ** A line for the crontab *)

Definition log_path_hint (s : Schedule) : string := path_join (a_output_dir (action s)) "dbsync-cron.log".

Definition printed_command (exe id log : string) : string :=
  (shell_quote exe ++ " schedule run " ++ id ++ " >> " ++ shell_quote log ++ " 2>&1")%string.

(** A comment, and the line. *)
Definition print_crontab_line (uuid_text : Uuid -> string) (exe : string) (s : Schedule) : list string :=
  ["# " ++ sch_name s ++ " — " ++ describe (cron s);
   source (cron s) ++ " " ++ printed_command exe (uuid_text (sch_id s)) (log_path_hint s)]%string.

(** The line the command line prints runs the program with no store named: whichever
    store the schedule was read from, cron runs it against the default one. *)
Theorem the_printed_line_names_no_store exe id log :
  id <> "" -> all_chars quote_safe id = true -> contains_char "%" (printed_command exe id log) = false ->
  sh_read Between (cron_command (printed_command exe id log))
  = Some [Word exe; Word "schedule"; Word "run"; Word id; AppendTo; Word log; ErrorsToo].
Proof.
  intros Hn Hi Hp. rewrite cron_command_whole by done. unfold printed_command.
  rewrite read_word by done. by rewrite read_run.
Qed.

Lemma the_printed_line_names_no_store_witness :
  sh_read Between (cron_command (printed_command "/opt/db sync/dbsync" "0a1b-2c" "/backups/dbsync-cron.log"))
  = Some [Word "/opt/db sync/dbsync"; Word "schedule"; Word "run"; Word "0a1b-2c"; AppendTo; Word "/backups/dbsync-cron.log"; ErrorsToo].
Proof. by apply the_printed_line_names_no_store. Defined.

(** The nightly schedule ran well yesterday; today's run is not written. *)
Definition ran_well : Schedules := {[5%N := finished_mark Success nightly]}.

Lemma an_unwritten_outcome_is_the_one_before_witness :
  run_and_wait utc_zone utc_zone ran_well 5%N (Some Success).
Proof.
  exact (an_unwritten_outcome_is_the_one_before utc_zone utc_zone ran_well 5%N (finished_mark Success nightly)
    (lookup_singleton_eq _ _)).
Defined.

Lemma a_panicked_run_is_never_done_witness :
  in_flight (mk_sched one_row {[5%N]} None [] [] []) <> ∅.
Proof.
  pose (t := mk_task nightly None 1%N Spawned).
  apply (a_panicked_run_is_never_done utc_zone utc_zone one_row nightly 1%N (spawn_run (idle one_row) nightly None 1%N None []) [] t []).
  - apply rtc_refl.
  - reflexivity.
  - reflexivity.
  - replace ({[5%N]} : gset Uuid) with ({[5%N]} ∪ ∅ : gset Uuid) by set_solver. apply rtc_refl.
Defined.

Lemma an_added_drill_is_the_drill_witness : exists s rows',
  create_schedule id no_url ∅ ∅ 6%N 100 (add_drill_request (server 1) "/backups" "weekly drill" (parsed "0 4 * * *") true false true None) = Ok (s, rows')
  /\ drill_request s = Some (mk_drill_request "/backups" (RMysql rmysql_default) true false).
Proof.
  pose proof (proj2 (an_added_drill_is_the_drill id no_url ∅ ∅ 6%N 100 (server 1) "/backups" "weekly drill" (parsed "0 4 * * *") true false true None)) as T.
  destruct (create_schedule _ _ _ _ _ _ _) as [[s rows']|x] eqn:E; [|by vm_compute in E].
  exists s, rows'. split; [done|]. by apply (T s rows').
Defined.
