(* ===== verification/Console.v ===== *)
(** * Console: what the command line lists, and its daemon (engine-cli/src/main.rs)

    The listings of connections, SSH servers, jobs, changes, pipelines and schedules,
    as the lines they print; the look-up of a pipeline or a schedule by what was typed;
    and the life of the daemon, over the scheduler it runs.  A line goes to standard
    output, or to standard error when there is nothing to list. *)

From Stdlib Require Import ZArith Lia Ascii String List Bool.
From stdpp Require Import base list gmap sets strings relations.
From S2P Require Import Prelude Text Time Domain Exec Retention Backup Restore Plan Job Step Pipeline PipelineRun Cron CronScan Schedule Scheduler ScheduledRun.
From S2P Require Import Disk Ssh Database Notify Headless.
Import ListNotations.
Open Scope string_scope.
Open Scope list_scope.
Open Scope Z_scope.

(** ** Lines *)

Inductive Printed := Out (line : string) | Note (line : string).

Fixpoint spaces (n : nat) : string := match n with O => "" | S n => String " " (spaces n) end.

(** [{:<n}]: counted in characters. *)
Definition pad (n : nat) (s : string) : string := (s ++ spaces (n - count_chars s))%string.

Section Listings.
Variable uuid_text : Uuid -> string.
Variable str_debug : string -> string.
Variable rfc3339 : Z -> string.
Variable local_minute : Z -> string.            (* with_timezone(&Local).format("%Y-%m-%d %H:%M") *)
Variable local_rfc3339 : Z -> string.
Variable option_debug : option Z -> string.     (* {:?} of an Option<u32> *)

Definition profile_line (p : ConnectionProfile) : string :=
  (uuid_text (profile_id p) ++ "  " ++ pad 24 (profile_name p) ++ " " ++ pad 9 (engine_as_str (profile_engine p)) ++ " "
   ++ pad 8 (environment_as_str (environment p)) ++ " " ++ db_user (db p) ++ "@" ++ db_host (db p) ++ ":"
   ++ show (db_port (db p)))%string.

Definition list_profiles_lines (l : list ConnectionProfile) : list Printed :=
  match l with [] => [Note "no profiles configured"] | _ => map (fun p => Out (profile_line p)) l end.

Definition ssh_line (all : list SshConnection) (used_by : Uuid -> list ConnectionProfile) (c : SshConnection) : string :=
  let used := match used_by (ssh_id c) with [] => "unused" | l => join ", " (map profile_name l) end in
  let via := match jump_host_id c with
             | Some id =>
                 match List.find (fun j => N.eqb (ssh_id j) id) (rev all) with
                 | Some j => (" via " ++ ssh_name j)%string
                 | None => ""
                 end
             | None => ""
             end in
  (uuid_text (ssh_id c) ++ "  " ++ pad 24 (ssh_name c) ++ " " ++ ep_user (ssh_endpoint c) ++ "@" ++ ep_host (ssh_endpoint c)
   ++ ":" ++ show (ep_port (ssh_endpoint c)) ++ via ++ "  [" ++ used ++ "]")%string.

Definition list_ssh_lines (l : list SshConnection) (used_by : Uuid -> list ConnectionProfile) : list Printed :=
  match l with [] => [Note "no SSH servers saved"] | _ => map (fun c => Out (ssh_line l used_by c)) l end.

Definition job_kind_debug (k : JobKind) : string :=
  match k with KindBackup => "Backup" | KindRestore => "Restore" | KindVerify => "Verify" | Domain.KindSync => "Sync" end.

Definition job_line (j : JobRecord) : string :=
  (uuid_text (job_record_id j) ++ "  " ++ job_kind_debug (job_kind j) ++ "  " ++ rfc3339 (job_started_at j) ++ "  "
   ++ match job_outcome j with Some o => outcome_as_str o | None => "running" end)%string.

Definition list_jobs_lines (l : list JobRecord) : list Printed :=
  match l with [] => [Note "no jobs recorded"] | _ => map (fun j => Out (job_line j)) l end.

Definition audit_line (e : AuditEntry) : string :=
  (local_minute (au_at e) ++ "  " ++ pad 22 (au_action e) ++ " " ++ pad 28 (truncate (au_subject e) 28) ++ " " ++ au_detail e)%string.

Definition list_audit_lines (l : list AuditEntry) : list Printed :=
  match l with [] => [Note "nothing has been changed yet"] | _ => map (fun e => Out (audit_line e)) l end.

(** ** Pipelines *)

Definition ARMED_NOTE : string := "armed for unattended runs".

Definition target_list (signature : string) : string := replace_char newline ", " signature.

Definition pipeline_notes (p : Pipeline) : list string :=
  [(show (Z.of_nat (length (p_steps p))) ++ " step(s)")%string]
  ++ match destructive_signature p with Some targets => [("replaces " ++ target_list targets)%string] | None => [] end
  ++ (if is_armed p then [ARMED_NOTE] else []).

Definition list_pipelines_lines (l : list Pipeline) : list Printed :=
  match l with
  | [] => [Note "no pipelines yet; build one in the app"]
  | _ => map (fun p => Out (p_name p ++ "  " ++ join " · " (pipeline_notes p))%string) l
  end.

Fixpoint numbered (i : Z) (l : list string) : list string :=
  match l with [] => [] | s :: l => ("  " ++ show i ++ ". " ++ s)%string :: numbered (i + 1) l end.

Definition NEEDS_CONFIRM : string := " — needs --confirm, or arming in the app to run unattended".

Definition show_pipeline (p : Pipeline) (profiles : list ConnectionProfile) : list string :=
  p_name p :: numbered 1 (map (fun s => step_label s profiles) (p_steps p))
  ++ match destructive_signature p with
     | Some targets => [""; ("replaces " ++ target_list targets ++ NEEDS_CONFIRM)%string]
     | None => []
     end
  ++ match validate_against p profiles with
     | Err e => [""; ("will not run: " ++ pipeline_error_text str_debug e)%string]
     | Ok _ => []
     end.

(** ** Schedules *)

Definition schedule_last (s : Schedule) : string :=
  match last_outcome s with
  | Some o => outcome_as_str o
  | None => if is_some (last_run_at s) then "running" else "never run"
  end.

Definition schedule_line (next : option Z) (s : Schedule) : string :=
  (uuid_text (sch_id s) ++ "  " ++ pad 24 (truncate (sch_name s) 24) ++ " " ++ pad 6 (schedule_kind_as_str (sch_kind s)) ++ " "
   ++ pad 16 (source (cron s)) ++ " " ++ pad 7 (if sch_enabled s then "on" else "off") ++ " next "
   ++ pad 17 (match next with Some t => local_minute t | None => "—" end) ++ " last " ++ schedule_last s)%string.

Definition BACKUP_ONLY : string := "backup — local artifact only".

Definition kind_text (s : Schedule) : string :=
  if is_drill s then "drill — restores the newest artifact and checks it"
  else if is_sync s then "sync — backup, then restore to the destination"
  else BACKUP_ONLY.

Definition flag_text (b : bool) : string := if b then "true" else "false".

Definition row (label value : string) : string := (label ++ value)%string.

Definition when_text (s : Schedule) : string :=
  (source (cron s) ++ " (" ++ Cron.describe (cron s) ++ ", " ++ timezone_as_str (timezone s) ++ ")")%string.

Definition retention_text (r : RetentionPolicy) : string :=
  ("keep_last=" ++ option_debug (keep_last r) ++ " max_age_days=" ++ option_debug (max_age_days r))%string.

Definition show_schedule (next : option Z) (s : Schedule) : list string :=
  [sch_name s;
   row "  id           " (uuid_text (sch_id s));
   row "  when         " (when_text s);
   row "  enabled      " (flag_text (sch_enabled s));
   row "  catch up     " (flag_text (catch_up s));
   row "  next run     " (match next with Some t => local_rfc3339 t | None => "—" end);
   row "  last run     " (match last_run_at s with Some t => local_rfc3339 t | None => "never" end);
   row "  last outcome " (match last_outcome s with Some o => outcome_as_str o | None => "—" end);
   row "  kind         " (kind_text s);
   row (if is_drill s then "  artifacts      " else "  output         ") (a_output_dir (action s))]
  ++ (if is_drill s
      then [row "  read rows    " (flag_text (a_deep_verify (action s)));
            row "  keep on fail " (flag_text (a_keep_on_failure (action s)))]
      else [row "  verify       " (flag_text (a_verify (action s)))])
  ++ [row "  notify       " (notify_as_str (notify s));
      row "  webhook      " (default "—" (webhook_url s))]
  ++ match a_restore (action s) with Some r => [row "  restore as   " (naming_debug str_debug (sr_naming r))] | None => [] end
  ++ match a_retention (action s) with Some r => [row "  retention    " (retention_text r)] | None => [] end.

(** ** Looking up *)

Variable to_lowercase : string -> string.
Variable parse_uuid : string -> option Uuid.

Definition resolve_pipeline (by_id : Uuid -> result Pipeline string) (all : list Pipeline) (needle : string)
    : result Pipeline string :=
  resolve_by to_lowercase parse_uuid str_debug p_name by_id
    ("pipeline matches " ++ str_debug needle ++ "; `dbsync pipeline list` shows them") "pipelines" all needle.

Definition resolve_schedule (by_id : Uuid -> result Schedule string) (all : list Schedule) (needle : string)
    : result Schedule string :=
  resolve_by to_lowercase parse_uuid str_debug sch_name by_id
    ("schedule matches " ++ str_debug needle ++ "; `dbsync schedule list` shows them all") "schedules" all needle.
End Listings.

(** ** The daemon and the tick *)

Section Daemon.
Context `{Cal : Calendar}.
Variables local utc : TimeZone.

(** A process that runs the scheduler's loop, or its table when it has ended. *)
Inductive Daemon := Up (w : SchedState) | Down (r : Schedules).

(** Ctrl-C cancels the token; the loop sees it between two ticks, [run] returns, and so
    does [main]: the runtime goes, and the tasks on it.  Nothing hears another signal.
    A process can be started again over the table. *)
Inductive daemon_step : Daemon -> Daemon -> Prop :=
| daemon_works w w' : any_step local utc w w' -> daemon_step (Up w) (Up w')
| daemon_interrupted w : ticking w = None -> daemon_step (Up w) (Down (rows w))
| daemon_killed w : daemon_step (Up w) (Down (rows w))
| daemon_restarted r : daemon_step (Down r) (Up (idle r)).

Definition daemon_tick (interval : Z) : Z := Z.max interval 1.

(** [schedule tick]: one pass, and the runs it started are waited for. *)
Inductive tick_command (r : Schedules) (now : Z) : list Printed -> SchedState -> Prop :=
| tick_nothing w :
    rtc (any_step local utc) (mk_sched r ∅ (Some (now, list_enabled r)) [] [] []) w -> ticking w = None ->
    in_flight w = ∅ -> tick_command r now [Note "nothing is due"] w
| tick_started w w' :
    rtc (any_step local utc) (mk_sched r ∅ (Some (now, list_enabled r)) [] [] []) w -> ticking w = None ->
    in_flight w <> ∅ -> rtc (any_step local utc) w w' -> in_flight w' = ∅ ->
    tick_command r now [Note (show (Z.of_nat (size (in_flight w))) ++ " schedule(s) started")%string] w'.
End Daemon.

(** ** Lemmas *)

Lemma armed_iff p : is_armed p = true <-> exists t, unattended_ack p = Some t /\ destructive_signature p = Some t.
Proof.
  unfold is_armed. destruct (unattended_ack p) as [a|], (destructive_signature p) as [t|]; try (split; [done|naive_solver]).
  rewrite String.eqb_eq. split; [intros ->; eauto|naive_solver].
Qed.

Lemma armed_noted p : In ARMED_NOTE (pipeline_notes p) <-> is_armed p = true.
Proof.
  unfold pipeline_notes. rewrite !in_app_iff. split.
  - intros [H|[H|H]].
    + destruct H as [H|[]]. exfalso. apply (eq_true_false_abs (ends_with " step(s)" ARMED_NOTE)); [|reflexivity].
      apply ends_with_iff. rewrite <- H. by eexists.
    + destruct (destructive_signature p); [|done]. by destruct H as [H|[]].
    + by destruct (is_armed p).
  - intros ->. right. right. by left.
Qed.

(** ** Properties *)

(** What the list says of authority is what a run asks for.  A pipeline that is run
    from the command line with no name confirmed is let through exactly if it drops
    nothing or the list shows it armed. *)
Theorem listed_authority_is_what_runs str_debug p :
  refused_headless str_debug p [] = None <-> destructive_signature p = None \/ In ARMED_NOTE (pipeline_notes p).
Proof.
  rewrite armed_noted, armed_iff. unfold refused_headless, same_text.
  destruct (destructive_signature p) as [t|]; [|split; [by left|done]]. split.
  - destruct (unattended_ack p) as [a|]; [|done]. destruct (String.eqb_spec a t) as [->|]; [|done]. right. by exists t.
  - intros [|(u & -> & [= ->])]; [done|]. by rewrite String.eqb_refl.
Qed.

(** A pipeline that shows no warning needs none.  When nothing stands below the
    steps it is valid against the saved connections and drops nothing, and so it runs
    without a confirmation. *)
Theorem a_pipeline_without_warnings_runs str_debug p profiles :
  length (show_pipeline str_debug p profiles) = S (length (p_steps p)) <->
  validate_against p profiles = Ok tt /\ destructive_signature p = None.
Proof.
  assert (N : forall i l, length (numbered i l) = length l) by (intros i l; revert i; induction l; simpl; auto).
  unfold show_pipeline. cbn [length]. rewrite !length_app, N, length_map.
  destruct (destructive_signature p), (validate_against p profiles) as [[]|]; simpl; split; intros; try lia; naive_solver.
Qed.

(** A schedule of a pipeline reads as a local backup.  The line about the kind of a
    schedule says that it only writes a local artifact for every schedule that is
    neither a drill nor a sync with a destination: for those that run a pipeline too,
    whatever its steps drop or copy. *)
Theorem a_pipeline_schedule_reads_as_a_backup uuid_text str_debug local_rfc3339 option_debug next s :
  In (row "  kind         " (kind_text s)) (show_schedule uuid_text str_debug local_rfc3339 option_debug next s)
  /\ (kind_text s = BACKUP_ONLY <->
      sch_kind s = KindPipeline \/ (sch_kind s = Schedule.KindSync /\ sch_dest_profile_id s = None)).
Proof.
  split; [do 8 right; by left|]. unfold kind_text, is_drill, is_sync.
  destruct (sch_kind s), (sch_dest_profile_id s); cbn; split; intros; try done; naive_solver.
Qed.

(** An interrupted daemon abandons what it runs.  Ctrl-C is said to leave jobs in
    flight to finish; the process ends under them.  Nothing happens to the table until
    a process is started over it, the schedule is listed as running, and the
    occurrence, whose start is marked, is not due again. *)
Theorem an_interrupted_run_is_abandoned `{Cal : Calendar} local utc r w t s due :
  rtc (any_step local utc) (idle r) w -> ticking w = None -> In t (tasks w) -> t_occurrence t = Some due ->
  rows w !! t_id t = Some s -> last_run_at s = Some due -> last_outcome s = None ->
  rtc (daemon_step local utc) (Up (idle r)) (Down (rows w))
  /\ (forall d, daemon_step local utc (Down (rows w)) d -> d = Up (idle (rows w)))
  /\ schedule_last s = "running"
  /\ forall now grace o, due_at local utc s now grace = Some o -> due < o.
Proof.
  intros Hw Ht _ _ Hs Hl Ho. split_and!.
  - apply rtc_r with (Up w); [|by apply daemon_interrupted].
    clear -Hw. induction Hw as [|x y z Hxy _ IH]; [apply rtc_refl|]. eapply rtc_l; [by apply daemon_works|done].
  - by inversion 1.
  - unfold schedule_last. by rewrite Ho, Hl.
  - intros now grace o Hd. apply due_at_Some in Hd as (_ & _ & Hb & _). unfold baseline in Hb. by rewrite Hl in Hb.
Qed.

(** ** Witnesses *)

(** The tick has spawned the run of the quarter, and its start was marked. *)
Definition working : SchedState :=
  mk_sched {[5%N := started_mark quarter 1 Scheduler.nightly]} {[5%N]} None []
    [mk_task Scheduler.nightly (Some quarter) 1 Working] [(5%N, quarter)].

Lemma working_reachable : rtc (any_step utc_zone utc_zone) (idle one_row) working.
Proof.
  etransitivity; [exact (sound_any _ _ spawned_reachable)|].
  eapply rtc_l; [exists Sound; by apply TickEnd with (now := tick_at)|].
  eapply rtc_l; [exists Sound; eapply (TaskMark _ _ _ [] (first_run Spawned) []); done|].
  match goal with |- rtc _ ?a ?b => assert (a = b) as -> by (vm_compute; reflexivity) end. apply rtc_refl.
Qed.

Lemma working_row : rows working !! 5%N = Some (started_mark quarter 1 Scheduler.nightly).
Proof. apply lookup_singleton_eq. Qed.

Lemma an_interrupted_run_is_abandoned_witness :
  rtc (daemon_step utc_zone utc_zone) (Up (idle one_row)) (Down (rows working))
  /\ schedule_last (started_mark quarter 1 Scheduler.nightly) = "running".
Proof.
  destruct (an_interrupted_run_is_abandoned utc_zone utc_zone one_row working
    (mk_task Scheduler.nightly (Some quarter) 1 Working) (started_mark quarter 1 Scheduler.nightly) quarter
    working_reachable eq_refl (or_introl eq_refl) eq_refl working_row eq_refl eq_refl) as (D & _ & L & _).
  exact (conj D L).
Defined.
